(* ===== verification/_CoqProject ===== *)
-Q . S2P
Prelude.v
CStrings.v
BitMap.v
LinkedList.v
Machine.v
Mips.v
VM.v
PageFault.v
UserMemory.v
Process.v
Coff2Noff.v
Coff2Flat.v
Execute.v
Interpreters.v
Disassemble.v
FileCalls.v
Preserve.v
Files.v
Directory.v
FileSys.v
FsTools.v
Startup.v
Disk.v
Interrupt.v
Threads.v
ThreadTest.v
Monitors.v
Post.v
Drivers.v
ConsoleInput.v
SynchList.v
Syscalls.v
UserQueues.v
Exceptions.v
Safety.v
ServerSync.v
ServerTables.v
Server.v
Clients.v
