(* ===== verification/Prelude.v ===== *)
(** * Verification of a Nachos kernel and its distributed lock server

    The repository is a Nachos operating system: a simulated MIPS machine
    (machine/), the kernel that runs on it (threads/, userprog/, filesys/) and
    the network side (network/), in which several kernels share locks,
    conditions and monitor variables through lock servers. The makefiles build
    it as one program per directory; VM and network are the last and largest
    builds, and the sections of the code they exclude with [#ifdef] are modelled
    where they are alternatives (tables of locks in the kernel without NETWORK,
    calls to a server with it; the stub file system and the real one).

    ** How the code is translated

    A C++ routine is a function on the values it touches. [res] is its outcome:
    a value, or the [fault] that stops the simulator (a failed ASSERT, an access
    outside an array, a null or dangling pointer, an uninitialised member,
    [Interrupt::Halt]); [ST] threads a state through it. Arrays are lists
    indexed by Z, with every access checked; [int] and [unsigned int] are Z with
    their wrap-around written out ([i32], [u32], [i8], ...); what a fresh
    allocation contains is a parameter ([garbage]) of the definitions that
    allocate. Names are those of the source. Routines that give up the
    processor are split where they do, and the interleavings are the steps of a
    relation. [fault] has no value for "does not terminate": a loop the source
    does not bound takes fuel, and a theorem gives the amount that is enough.

    ** The files, from the bottom up

    - Prelude (this file): outcomes, state passing, arrays, integers, triples.
      CStrings: the C library on [char] arrays, the bytes of integers
      ([Class HostOrder], little and big endian).
    - BitMap (userprog/bitmap.cc): words of bits; [Class BitAllocator] is what
      its clients (tables, memory, swap file, disk) are proved against.
      LinkedList (threads/list.cc): the list on a heap of [ListElement]s.
    - Machine (machine/machine.cc, translate.cc): registers, memory, the TLB and
      page tables; the kernel is the interface [Class Kernel]. Mips
      (machine/mipssim.cc): decoding and every instruction, safe on any
      [KernelSafe] kernel. Interrupt (machine/interrupt.cc, timer.cc): the clock
      and the pending interrupts, over [Class SortedQueue] and [Class Devices].
    - VM and PageFault (userprog/exception.cc, addrspace.cc): the inverted page
      table, eviction, the swap file, the page fault handler as the [Kernel] of
      Machine, the context switch. UserMemory: [copyin], [copyout].
      Process: address spaces, Fork, Exec, Exit and the process table.
      Coff2Noff (bin/coff2noff.c): the converter that makes executables;
      Coff2Flat (bin/coff2flat.c): the older one. Execute (bin/execute.c,
      system.c): the stand-alone interpreter, over [Class Host]; Interpreters:
      its relation to Mips. Disassemble (bin/d.c, opstrings.c).
    - FileCalls (userprog/exception.cc, filesys/filesys.h): the file system
      calls over the stub file system and the table of open files. Preserve:
      what the page fault handler and these calls preserve, as the interfaces
      [VMInvariant] and [ByteInvariant].
      Files, Directory, FileSys (filesys/): headers, transfers of bytes by
      sectors, the directory, and the file system on the disk, where a request
      to the disk is one step. Disk (machine/disk.cc): the device behind it.
      FsTools (filesys/fstest.cc): the commands that copy, print and time files.
      Startup (threads/main.cc, system.cc): the command line.
    - Threads (threads/thread.cc, scheduler.cc, synch.cc): the scheduler,
      semaphores, locks and conditions as a step relation. ThreadTest
      (threads/threadtest.cc): the test suite on them. Monitors: routines
      that run under one lock, as a program over Threads ([Class Monitor]), and
      the invariant of such a monitor under every interleaving
      ([Class MonitorOK]). On it, Drivers (filesys/synchdisk.cc,
      userprog/synchconsole.cc, machine/console.cc, machine/network.cc,
      network/post.cc): a lock, a request to a device and a wait for its
      interrupt, for any [Class Device]; ConsoleInput: [ReadLine]; SynchList
      (threads/synchlist.cc).
    - Syscalls: the locks and conditions of user programs without NETWORK, over
      Threads. UserQueues: the queues of user programs. Exceptions:
      [ExceptionHandler], which all traps enter, with the calls that print, read
      numbers and draw random ones. Safety: the machine on that kernel.
    - Post (network/post.cc, machine/network.cc): mailboxes.
      ServerSync (threads/synch.cc), ServerTables, Server (network/server.cc):
      the locks, the tables and the message handlers of the lock server.
      Clients (userprog/exception.cc with NETWORK): the calls that ask it.

    ** What the theorems show

    - Threads: mutual exclusion of [Lock] in every interleaving, but for a
      thread whose address the memory of the lock held before its constructor
      ran, which does not initialise the owner (a run that breaks the exclusion
      is shown); no step faults; every thread is in exactly one place;
      [Broadcast] wakes every waiter. The test suite ends with its transcript,
      with what synch.cc and [Halt] print, and with time slices at any points
      (all configurations are explored, by a verified check) as it should.
    - Monitors, in every interleaving of threads and interrupts and with any
      such leftover that is no thread's address: the disk gets
      one request at a time and answers like the array of sectors that FileSys
      assumes; lines on the console are whole; lines read are those typed;
      packets leave one at a time; a synchronized list is a queue.
    - Memory: translation is total and correct; a page fault and a context
      switch keep the memory of every program, where the swap file has room and
      the dirty bits of the TLB get through; and the case in which a store is
      lost. [copyin] reads what the program wrote; [copyout] fails on a page
      without a TLB entry, so that [Read] loses data.
    - MIPS: no instruction leaves the machine out of shape; [Mult] computes the
      64-bit product; overflow traps exactly when the sum overflows. The kernel's
      simulator and the stand-alone interpreter execute an instruction alike,
      except where listed; the latter's MULT loses carries. Words that the
      disassembler prints alike execute alike, but for five operations.
    - Kernel entry: a system call instruction is a call that returns behind
      itself, and a call served in Exceptions changes register 2 only; codes
      without a case halt; [NPrint] prints what [NEncode2to1] packed; [ReadInt]
      returns the number typed, behind lines that are not too long. Under this
      kernel the machine stays in shape for any number of instructions, up to
      the first call that switches threads or asks a server, and stops only in
      its handler and on two kinds of instructions.
    - Files: transfers are exact; directory and file system refine maps, from
      formatting to a remount, with disjoint sectors and an exact bitmap, for
      files a header can hold; the sizes and names that break them; a file of
      that size that is copied in prints as it was. The disk refines its
      sectors, and its latency is the time until the sector passes.
    - Processes: the process table counts what exists; the machine halts with
      the last thread; what Exit frees, and what it must not. A program linked
      for address 0 and converted is paged in byte by byte where it was linked;
      a flat file is the memory of a program without gaps. The command line has
      the settings and makes the calls that were asked for, in order.
    - User objects: the tables stay consistent, with time slices inside the
      calls that create and through the calls that wait, except where the code
      uses an entry too early or an object after it was deleted, which is
      shown; and no process can touch the objects of another.
    - Network: mail is delivered in order; the server's locks are first come
      first served and its tables stay well formed whatever it receives; a lock
      is created once; and the composition of system call, post office and
      server, for calls that are sent to the server that owns the object: a lock
      call of a user program acts as on the queue of its lock, and a lock that
      is released arrives at the next client, on whatever machine.
    - Data structures: the list, the bitmap, the queues and the table of open
      files refine their abstract types.

    ** Bounds and fuel

    Fuel stands for loops that the source does not bound: the walks over the
    cells of a list (the number of cells is enough), the delivery of due
    interrupts (one round more than there are due), the search for a page to
    evict (one round: a page fault is one step, so no frame is in use when it
    starts), the retried read of [copyin] (a second read succeeds), [Broadcast]
    (a round per waiter; on the server a wrong lock makes it spin, which is
    [OutOfFuel]), the questions of [ReadInt] (one more than wrong answers), and
    [Idle]. The theorems hold for any fuel from there on. The fuel of the
    exploration in ThreadTest bounds a search whose result is checked. All other recursion is
    on the bound of the source's own loop, and the instruction loop and the
    servers run as long as there are steps to take. Sizes (physical pages,
    sectors, entries of tables) are those of the headers.

    ** What is not modelled, and why

    The host: machine/sysdep.cc apart from the reads the disk relies on, the
    socket of network.cc; the context switch in assembly (threads/switch.s) and
    the stacks it switches. The wait of the postal worker for a packet is not
    interleaved with the readers of mailboxes: Post delivers what has arrived,
    and the mailbox as a queue that readers wait on is SynchList. What only
    prints or checks: DEBUG output, the [Print] methods, machine/stats.cc, the
    debugger of machine/mipssim.cc, the tests of devices (network/nettest.cc,
    [ConsoleTest] of userprog/progtest.cc), the supermarket in
    threads/threadtest.cc, which is commented out, and the user programs of
    test/. The allocation of the global objects in threads/system.cc (their
    constructors are modelled with the objects). Of bin/, disasm.c and main.c,
    which load a file after they have closed it and have no defined behaviour,
    and out.c, which prints tables of an object file. The thread of the server
    that pings clients ([LockWatcher], network/server.cc): its loop reads an
    index that is never set. *)
From stdpp Require Export base tactics option list gmap strings.
From Stdlib Require Export ZArith Lia.

#[global] Open Scope Z_scope.

(** ** Outcomes

    A routine of the kernel returns a value or stops the simulator.  [fault]
    lists the ways it can stop: a failed [ASSERT], an access outside an array
    (undefined behaviour in C++), a null or dangling pointer, a read of a
    member no constructor initialised, an arithmetic operation C++ leaves
    undefined, [Interrupt::Halt], and, for the loops
    that the source does not bound, fuel that ran out. *)
Inductive fault :=
  | AssertFail
  | OutOfBounds
  | NullPointer
  | Uninitialised
  | UndefinedArith
  | MachineHalt
  | OutOfFuel.

#[global] Instance fault_eq_dec : EqDecision fault.
Proof. solve_decision. Defined.

Inductive res (A : Type) :=
  | Ok (a : A)
  | Fault (f : fault).
Arguments Ok {A} a.
Arguments Fault {A} f.

#[global] Instance res_ret : MRet res := fun A a => Ok a.
#[global] Instance res_bind : MBind res := fun A B f m =>
  match m with Ok a => f a | Fault e => Fault e end.
#[global] Instance res_fmap : FMap res := fun A B f m =>
  match m with Ok a => Ok (f a) | Fault e => Fault e end.
#[global] Instance res_eq_dec `{EqDecision A} : EqDecision (res A).
Proof. solve_decision. Defined.

Definition is_Ok {A} (m : res A) : Prop := exists a, m = Ok a.

(** [ASSERT(b)] of utility.h. *)
Definition ASSERT (b : bool) : res unit :=
  if b then Ok tt else Fault AssertFail.

(** A pointer that is dereferenced. *)
Definition deref {A} (p : option A) : res A :=
  match p with Some a => Ok a | None => Fault NullPointer end.

(** ** State and faults: routines that update a state of type [S] *)
Definition ST (S A : Type) : Type := S -> res (S * A).

Definition sret {S A} (a : A) : ST S A := fun s => Ok (s, a).

(** Sequencing, with the computation elaborated before its continuation:
    [let*] for a routine that may fault, [<-] and [;;;] for one that also
    updates the state. *)
Definition rbind {A B} (m : res A) (f : A -> res B) : res B :=
  match m with Ok a => f a | Fault e => Fault e end.
Definition sbind {S A B} (m : ST S A) (f : A -> ST S B) : ST S B :=
  fun s => match m s with Ok (s', a) => f a s' | Fault e => Fault e end.

Declare Scope nachos_scope.
Notation "'let*' x := m 'in' k" := (rbind m (fun x => k))
  (at level 10, x name, k at level 200) : nachos_scope.
Notation "'let*' ' p := m 'in' k" := (rbind m (fun p => k))
  (at level 10, p pattern, k at level 200) : nachos_scope.
Notation "x <- m ;; k" := (sbind m (fun x => k))
  (at level 100, m at next level, right associativity) : nachos_scope.
Notation "m ;;; k" := (sbind m (fun _ => k))
  (at level 100, right associativity) : nachos_scope.
#[global] Open Scope nachos_scope.

Definition get {S} : ST S S := fun s => Ok (s, s).
Definition put {S} (s : S) : ST S unit := fun _ => Ok (s, tt).
Definition gets {S A} (f : S -> A) : ST S A := fun s => Ok (s, f s).
Definition modify {S} (f : S -> S) : ST S unit := fun s => Ok (f s, tt).
Definition fail {S A} (e : fault) : ST S A := fun _ => Fault e.
Definition lift {S A} (m : res A) : ST S A := fun s =>
  match m with Ok a => Ok (s, a) | Fault e => Fault e end.

(** ** Interrupts on or off: [IntStatus] of machine/interrupt.h *)
Inductive IntStatus := IntOff | IntOn.
#[global] Instance IntStatus_eq_dec : EqDecision IntStatus.
Proof. solve_decision. Defined.

(** ** Arrays: C arrays are lists indexed by Z; an index outside faults *)
Definition arr_get {A} (l : list A) (i : Z) : res A :=
  if decide (0 <= i) then
    match l !! Z.to_nat i with Some x => Ok x | None => Fault OutOfBounds end
  else Fault OutOfBounds.

Definition arr_set {A} (l : list A) (i : Z) (x : A) : res (list A) :=
  if decide (0 <= i < Z.of_nat (length l)) then Ok (<[Z.to_nat i := x]> l)
  else Fault OutOfBounds.

(** ** Machine integers

    [int] is 32 bits, two's complement; arithmetic that leaves the range wraps
    (the simulator relies on it to detect overflow), [unsigned int] is taken
    modulo 2^32. C's [/] and [%] on [int] are [Z.quot] and [Z.rem]. *)
Definition u32 (x : Z) : Z := x mod 2 ^ 32.
Definition i32 (x : Z) : Z := (x + 2 ^ 31) mod 2 ^ 32 - 2 ^ 31.
Definition u16 (x : Z) : Z := x mod 2 ^ 16.
Definition u8 (x : Z) : Z := x mod 2 ^ 8.
(** [char] is signed on the hosts the makefiles support. *)
Definition i8 (x : Z) : Z := (x + 2 ^ 7) mod 2 ^ 8 - 2 ^ 7.

Definition in_i32 (x : Z) : Prop := - 2 ^ 31 <= x < 2 ^ 31.
Definition in_u32 (x : Z) : Prop := 0 <= x < 2 ^ 32.

(** [divRoundUp] of utility.h, on [int] operands. *)
Definition divRoundUp (n s : Z) : Z :=
  Z.quot n s + (if bool_decide (Z.rem n s > 0) then 1 else 0).

(** * Lemmas *)

Lemma bind_Ok {A B} (m : res A) (f : A -> res B) b :
  m ≫= f = Ok b <-> exists a, m = Ok a /\ f a = Ok b.
Proof. destruct m; simpl; naive_solver. Qed.

Lemma rbind_Ok {A B} (m : res A) (f : A -> res B) b :
  rbind m f = Ok b <-> exists a, m = Ok a /\ f a = Ok b.
Proof. destruct m; simpl; naive_solver. Qed.

Lemma ASSERT_true b : ASSERT b = Ok tt <-> b = true.
Proof. destruct b; simpl; naive_solver. Qed.

Section Arrays.
  Context {A : Type}.
  Implicit Types (l : list A) (i : Z).

Lemma arr_get_Ok l i x :
  arr_get l i = Ok x <-> 0 <= i /\ l !! Z.to_nat i = Some x.
Proof.
  unfold arr_get. case_decide; [|naive_solver lia].
  destruct (l !! Z.to_nat i); naive_solver.
Qed.

Lemma arr_get_lookup l i x :
  0 <= i -> l !! Z.to_nat i = Some x -> arr_get l i = Ok x.
Proof. intros. by apply arr_get_Ok. Qed.

Lemma arr_get_in l i :
  0 <= i < Z.of_nat (length l) -> exists x, arr_get l i = Ok x /\ x ∈ l.
Proof.
  intros H. destruct (lookup_lt_is_Some_2 l (Z.to_nat i)) as [x Hx]; [lia|].
  exists x. split; [apply arr_get_lookup; [lia|done]|].
  by eapply list_elem_of_lookup_2.
Qed.

Lemma arr_get_total `{!Inhabited A} l i :
  0 <= i < Z.of_nat (length l) -> arr_get l i = Ok (l !!! Z.to_nat i).
Proof.
  intros H. apply arr_get_lookup; [lia|].
  apply list_lookup_lookup_total_lt. lia.
Qed.

Lemma arr_get_oob l i :
  ~ (0 <= i < Z.of_nat (length l)) -> arr_get l i = Fault OutOfBounds.
Proof.
  intros H. unfold arr_get. case_decide; [|done].
  rewrite lookup_ge_None_2; [done|lia].
Qed.

Lemma arr_set_in l i x :
  0 <= i < Z.of_nat (length l) -> arr_set l i x = Ok (<[Z.to_nat i := x]> l).
Proof. intros. unfold arr_set. by rewrite decide_True. Qed.

Lemma arr_set_oob l i x :
  ~ (0 <= i < Z.of_nat (length l)) -> arr_set l i x = Fault OutOfBounds.
Proof. intros. unfold arr_set. by rewrite decide_False. Qed.

Lemma arr_set_Ok l i x l' :
  arr_set l i x = Ok l' ->
  0 <= i < Z.of_nat (length l) /\ l' = <[Z.to_nat i := x]> l.
Proof. unfold arr_set. intros Hs. case_decide; by simplify_eq. Qed.

Lemma arr_set_length l i x l' : arr_set l i x = Ok l' -> length l' = length l.
Proof. intros [_ ->]%arr_set_Ok. apply length_insert. Qed.

Lemma arr_get_set_eq l i x l' : arr_set l i x = Ok l' -> arr_get l' i = Ok x.
Proof.
  intros [H ->]%arr_set_Ok. apply arr_get_lookup; [lia|].
  apply list_lookup_insert_eq. lia.
Qed.

Lemma arr_get_set_ne l i j x l' :
  i <> j -> arr_set l i x = Ok l' -> arr_get l' j = arr_get l j.
Proof.
  intros Hij [H ->]%arr_set_Ok. unfold arr_get. case_decide; [|done].
  rewrite list_lookup_insert_ne; [done|lia].
Qed.
End Arrays.

Lemma list_bind_ext_in {A B} (f g : A -> list B) (l : list A) : (forall x, x ∈ l -> f x = g x) -> l ≫= f = l ≫= g.
Proof.
  intros H. induction l as [|x l IH]; [done|]. change (f x ++ (l ≫= f) = g x ++ (l ≫= g)).
  rewrite (H x), IH; [done| |]; set_solver.
Qed.

Section Integers.
Lemma u32_range x : in_u32 (u32 x).
Proof. apply Z.mod_pos_bound. lia. Qed.

Lemma i32_range x : in_i32 (i32 x).
Proof. unfold i32, in_i32. pose proof (Z.mod_pos_bound (x + 2^31) (2^32)). lia. Qed.

Lemma u32_id x : in_u32 x -> u32 x = x.
Proof. apply Z.mod_small. Qed.

Lemma i32_id x : in_i32 x -> i32 x = x.
Proof. unfold in_i32, i32. intros. rewrite Z.mod_small; lia. Qed.

Lemma i32_congr x : exists k, i32 x = x + k * 2 ^ 32.
Proof.
  unfold i32. exists (- ((x + 2^31) / 2^32)).
  rewrite Z.mod_eq by lia. lia.
Qed.

Lemma u32_congr x : exists k, u32 x = x + k * 2 ^ 32.
Proof. unfold u32. exists (- (x / 2^32)). rewrite Z.mod_eq by lia. lia. Qed.

Lemma u32_add_mult x k : u32 (x + k * 2 ^ 32) = u32 x.
Proof. unfold u32. apply Z.mod_add. lia. Qed.

Lemma i32_add_mult x k : i32 (x + k * 2 ^ 32) = i32 x.
Proof.
  unfold i32. replace (x + k * 2^32 + 2^31) with (x + 2^31 + k * 2^32) by lia.
  by rewrite Z.mod_add by lia.
Qed.

Lemma u32_i32 x : u32 (i32 x) = u32 x.
Proof. destruct (i32_congr x) as [k ->]. apply u32_add_mult. Qed.

Lemma i32_u32 x : i32 (u32 x) = i32 x.
Proof. destruct (u32_congr x) as [k ->]. apply i32_add_mult. Qed.

Lemma u32_testbit x n : 0 <= n -> Z.testbit (u32 x) n = (n <? 32) && Z.testbit x n.
Proof.
  intros. unfold u32. destruct (Z.ltb_spec n 32).
  - by rewrite Z.mod_pow2_bits_low by lia.
  - by rewrite Z.mod_pow2_bits_high by lia.
Qed.

Lemma testbit_above x n w : 0 <= x < 2 ^ w -> 0 <= w <= n -> Z.testbit x n = false.
Proof. intros. rewrite <-(Z.mod_small x (2^w)) by done. apply Z.mod_pow2_bits_high. lia. Qed.

(** A number is below 2^w as soon as every bit from w on is clear. *)
Lemma bits_bound x w :
  0 <= w -> 0 <= x -> (forall n, w <= n -> Z.testbit x n = false) -> x < 2 ^ w.
Proof.
  intros Hw Hx Hb. replace x with (x mod 2 ^ w); [apply Z.mod_pos_bound; lia|].
  apply Z.bits_inj'. intros n Hn. destruct (Z.lt_ge_cases n w).
  - by rewrite Z.mod_pow2_bits_low.
  - rewrite Z.mod_pow2_bits_high by lia. symmetry. by apply Hb.
Qed.

Lemma lor_in_u32 x y : in_u32 x -> in_u32 y -> in_u32 (Z.lor x y).
Proof.
  intros Hx Hy. split; [apply Z.lor_nonneg; unfold in_u32 in *; lia|].
  apply bits_bound; [lia|apply Z.lor_nonneg; unfold in_u32 in *; lia|].
  intros n Hn. rewrite Z.lor_spec, !(testbit_above _ n 32) by (done || lia). done.
Qed.

Lemma land_in_u32 x y : in_u32 x -> 0 <= y -> in_u32 (Z.land x y).
Proof.
  intros Hx Hy. split; [apply Z.land_nonneg; lia|].
  apply bits_bound; [lia|apply Z.land_nonneg; lia|].
  intros n Hn. by rewrite Z.land_spec, (testbit_above x n 32) by (done || lia).
Qed.

(** Masking with one bit tests it. *)
Lemma land_pow2_test w k : 0 <= k -> negb (Z.land w (2 ^ k) =? 0) = Z.testbit w k.
Proof.
  intros Hk. destruct (Z.testbit w k) eqn:E.
  - apply negb_true_iff, Z.eqb_neq. intros H.
    assert (Z.testbit (Z.land w (2^k)) k = true) as Hb.
    { by rewrite Z.land_spec, E, Z.pow2_bits_true by lia. }
    rewrite H, Z.bits_0 in Hb. done.
  - apply negb_false_iff, Z.eqb_eq, Z.bits_inj'. intros n Hn.
    rewrite Z.land_spec, Z.bits_0. destruct (decide (n = k)) as [->|].
    + by rewrite E.
    + by rewrite Z.pow2_bits_false, andb_false_r by lia.
Qed.

Lemma divRoundUp_bounds n s :
  0 <= n -> 0 < s -> n <= s * divRoundUp n s < n + s.
Proof.
  intros Hn Hs. unfold divRoundUp.
  pose proof (Z.quot_rem' n s). pose proof (Z.rem_bound_pos n s Hn Hs).
  case_bool_decide; lia.
Qed.
End Integers.

(** The development's hint databases: [nachos_int] closes range side
    conditions, [nachos_wrap] collapses nested conversions. *)
Create HintDb nachos_int.
#[export] Hint Resolve u32_range i32_range lor_in_u32 land_in_u32 : nachos_int.
Create Rewrite HintDb nachos_wrap.
#[export] Hint Rewrite u32_i32 i32_u32 : nachos_wrap.

(** [simpl_res] runs the [res] and [ST] binds of a hypothesis or the goal. *)
Ltac simpl_res :=
  cbn [mret mbind fmap res_ret res_bind res_fmap rbind sbind sret ASSERT deref] in *.

(** [inv_res H] opens a successful chain of binds in [H]. *)
Ltac inv_res H :=
  repeat (first [apply rbind_Ok in H|apply bind_Ok in H]; let a := fresh "a" in let Ha := fresh "Ha" in
          destruct H as (a & Ha & H)).

(** ** Triples for stateful routines

    [triple P c Q E]: from a state in [P], [c] returns a value and a state in
    [Q], or stops with a fault in [E]. *)
Definition triple {S A} (P : S -> Prop) (c : ST S A) (Q : A -> S -> Prop) (E : fault -> Prop) : Prop :=
  forall s, P s -> match c s with Ok (s', a) => Q a s' | Fault f => E f end.

Section Triples.
  Context {S : Type}.
  Implicit Types (P : S -> Prop) (E : fault -> Prop).

Lemma triple_ret {A} P (a : A) (Q : A -> S -> Prop) E :
  (forall s, P s -> Q a s) -> triple P (sret a) Q E.
Proof. intros H s Hs. by apply H. Qed.

Lemma triple_bind {A B} P (c : ST S A) (f : A -> ST S B) R Q E :
  triple P c R E -> (forall a, triple (R a) (f a) Q E) -> triple P (sbind c f) Q E.
Proof.
  intros Hc Hf s Hs. unfold sbind. specialize (Hc s Hs).
  destruct (c s) as [[s' a]|]; [|done]. by apply Hf.
Qed.

Lemma triple_conseq {A} P P' (c : ST S A) Q Q' E E' :
  triple P' c Q' E' -> (forall s, P s -> P' s) ->
  (forall a s, Q' a s -> Q a s) -> (forall f, E' f -> E f) -> triple P c Q E.
Proof.
  intros Hc HP HQ HE s Hs. specialize (Hc s (HP s Hs)).
  destruct (c s) as [[s' a]|]; auto.
Qed.

Lemma triple_pre {A} (X : Prop) P (c : ST S A) Q E :
  (X -> triple P c Q E) -> triple (fun s => P s /\ X) c Q E.
Proof. intros H s [Hs HX]. by apply H. Qed.

Lemma triple_fail {A} P e (Q : A -> S -> Prop) E : E e -> triple P (fail e) Q E.
Proof. by intros HE s _. Qed.

Lemma triple_lift {A} P (r : res A) (Q : A -> S -> Prop) E :
  match r with Ok a => forall s, P s -> Q a s | Fault f => E f end ->
  triple P (lift r) Q E.
Proof. intros H s Hs. unfold lift. destruct r; auto. Qed.
End Triples.

(** ** Bitwise operations stay within [int]

    A number is an [int] exactly when its bits from 31 on are all equal. *)
Section IntBits.
Lemma i32_bits x : in_i32 x <-> forall n, 31 <= n -> Z.testbit x n = Z.testbit x 31.
Proof.
  split.
  - intros Hx n Hn. rewrite !Z.testbit_odd, !Z.shiftr_div_pow2 by lia.
    assert (forall k, 31 <= k -> x / 2 ^ k = if decide (x < 0) then -1 else 0) as HD.
    { intros k Hk. pose proof (Z.pow_le_mono_r 2 31 k). unfold in_i32 in Hx.
      case_decide; [|apply Z.div_small; lia].
      symmetry. apply (Z.div_unique x (2^k) (-1) (x + 2^k)); lia. }
    by rewrite !HD by lia.
  - intros Hb. unfold in_i32.
    assert (x = if Z.testbit x 31 then x mod 2^31 - 2^31 else x mod 2^31) as E.
    { pose proof (Z.div_mod x (2^31)) as Hdm.
      assert (x / 2^31 = if Z.testbit x 31 then -1 else 0) as Hd.
      { apply Z.bits_inj'. intros n Hn. rewrite <-Z.shiftr_div_pow2, Z.shiftr_spec by lia.
        rewrite Hb by lia. destruct (Z.testbit x 31); [by rewrite Z.bits_m1 by lia|].
        by rewrite Z.bits_0. }
      destruct (Z.testbit x 31); lia. }
    pose proof (Z.mod_pos_bound x (2^31)). destruct (Z.testbit x 31); lia.
Qed.

Lemma land_i32 x y : in_i32 x -> in_i32 y -> in_i32 (Z.land x y).
Proof. rewrite !i32_bits. intros Hx Hy n Hn. by rewrite !Z.land_spec, Hx, Hy. Qed.
Lemma lor_i32 x y : in_i32 x -> in_i32 y -> in_i32 (Z.lor x y).
Proof. rewrite !i32_bits. intros Hx Hy n Hn. by rewrite !Z.lor_spec, Hx, Hy. Qed.
Lemma lxor_i32 x y : in_i32 x -> in_i32 y -> in_i32 (Z.lxor x y).
Proof. rewrite !i32_bits. intros Hx Hy n Hn. by rewrite !Z.lxor_spec, Hx, Hy. Qed.
Lemma lnot_i32 x : in_i32 x -> in_i32 (Z.lnot x).
Proof. unfold in_i32, Z.lnot. lia. Qed.
Lemma shiftr_i32 x k : 0 <= k -> in_i32 x -> in_i32 (Z.shiftr x k).
Proof.
  rewrite !i32_bits. intros Hk Hx n Hn. rewrite !Z.shiftr_spec by lia.
  rewrite (Hx (n + k)), (Hx (31 + k)) by lia. done.
Qed.
(** Masking with a non-negative [int] constant. *)
Lemma land_mask_i32 x c : 0 <= c < 2 ^ 31 -> in_i32 (Z.land x c).
Proof.
  intros Hc. assert (0 <= Z.land x c) by (apply Z.land_nonneg; lia).
  assert (Z.land x c < 2 ^ 31); [|unfold in_i32; lia].
  apply bits_bound; [lia|done|]. intros n Hn.
  by rewrite Z.land_spec, (testbit_above c n 31), andb_false_r by lia.
Qed.

Lemma b2z_i32 (b : bool) : in_i32 (if b then 1 else 0).
Proof. unfold in_i32. destruct b; lia. Qed.
End IntBits.
#[export] Hint Resolve land_i32 lor_i32 lxor_i32 lnot_i32 shiftr_i32 b2z_i32 : nachos_int.
