(* ===== verification/CStrings.v ===== *)
(** * The C library and object representations the sources rely on

    [char] arrays with a NUL, [strncpy], [strcmp] and [strncmp] tested against
    0; and the bytes of [int] and [unsigned int] objects, which the file system
    copies between memory and the disk. The byte order is the host's: the class
    [HostOrder] states what every host guarantees, with the little- and the
    big-endian instance. *)
From S2P Require Import Prelude.

(** ** Strings *)

(** [strncpy(new char[n], src + off, n)]: copies up to the NUL and pads. *)
Fixpoint strncpy (n : nat) (src : list Z) (off : Z) : res (list Z) :=
  match n with
  | O => Ok []
  | S n' =>
      let* c := arr_get src off in
      if decide (c = 0) then Ok (replicate n 0)
      else let* r := strncpy n' src (off + 1) in Ok (c :: r)
  end.

(** [strcmp(a, b) == 0]; reading past an array that has no NUL faults. *)
Fixpoint strcmp_eq (a b : list Z) : res bool :=
  match a, b with
  | x :: a', y :: b' =>
      if decide (x = y) then (if decide (x = 0) then Ok true else strcmp_eq a' b') else Ok false
  | _, _ => Fault OutOfBounds
  end.

(** [strncmp(a, b, n) == 0]. *)
Fixpoint strncmp_eq (n : nat) (a b : list Z) : res bool :=
  match n with
  | O => Ok true
  | S n' =>
      match a, b with
      | x :: a', y :: b' =>
          if decide (x = y) then (if decide (x = 0) then Ok true else strncmp_eq n' a' b') else Ok false
      | _, _ => Fault OutOfBounds
      end
  end.

(** The string a [char] array holds, and whether it has its NUL. *)
Fixpoint cstring (a : list Z) : list Z :=
  match a with
  | [] => []
  | c :: a' => if decide (c = 0) then [] else c :: cstring a'
  end.

Definition terminated (a : list Z) : Prop := 0 ∈ a.

(** What the functions bounded by [n] see of an array, and that they may. *)
Definition prefix_string (n : nat) (a : list Z) : list Z := cstring (take n a).
Definition readable (n : nat) (a : list Z) : Prop := terminated a \/ (n <= length a)%nat.

Lemma strcmp_eq_spec a b : terminated a -> terminated b ->
  strcmp_eq a b = Ok (bool_decide (cstring a = cstring b)).
Proof.
  unfold terminated. revert b. induction a as [|x a IH]; intros b Ha Hb; [by apply not_elem_of_nil in Ha|].
  destruct b as [|y b]; [by apply not_elem_of_nil in Hb|]. cbn [strcmp_eq cstring].
  apply elem_of_cons in Ha, Hb. destruct (decide (x = y)) as [->|Hne].
  - destruct (decide (y = 0)) as [->|Hy]; [by rewrite bool_decide_eq_true_2|].
    rewrite IH by (destruct Ha, Hb; congruence || done). f_equal. apply bool_decide_ext.
    split; [by intros ->|by intros [= ->]].
  - f_equal. symmetry. apply bool_decide_eq_false. destruct (decide (x = 0)), (decide (y = 0)); congruence.
Qed.

Lemma strncpy_ok n src off : 0 <= off -> off + Z.of_nat n <= Z.of_nat (length src) ->
  exists r, strncpy n src off = Ok r /\ length r = n.
Proof.
  revert off. induction n as [|n IH]; intros off H0 Hl; [by exists []|]. cbn [strncpy].
  destruct (arr_get_in src off) as (c & -> & _); [lia|]. cbn [rbind].
  case_decide; [by eexists; split; [done|rewrite length_replicate]|].
  destruct (IH (off + 1)) as (r & -> & Hr); [lia|lia|]. exists (c :: r). split; [done|].
  simpl. by rewrite Hr.
Qed.

Lemma readable_cons n c a : readable (S n) (c :: a) -> c <> 0 -> readable n a.
Proof. intros [H|H] Hc; [left|right; cbn in H; lia]. unfold terminated in *. apply elem_of_cons in H as [?|?]; [congruence|done]. Qed.

Lemma readable_nil n : ~ readable (S n) [].
Proof. intros [H|H]; [by apply not_elem_of_nil in H|cbn in H; lia]. Qed.

Lemma strncmp_eq_spec n a b : readable n a -> readable n b ->
  strncmp_eq n a b = Ok (bool_decide (prefix_string n a = prefix_string n b)).
Proof.
  unfold prefix_string. revert a b. induction n as [|n IH]; intros a b Ha Hb; cbn [strncmp_eq].
  { by rewrite !take_0, bool_decide_eq_true_2. }
  destruct a as [|x a]; [by apply readable_nil in Ha|]. destruct b as [|y b]; [by apply readable_nil in Hb|].
  cbn [take cstring]. destruct (decide (x = y)) as [->|Hne].
  - destruct (decide (y = 0)) as [->|Hy]; [by rewrite bool_decide_eq_true_2|].
    rewrite IH by (by eapply readable_cons). f_equal. apply bool_decide_ext.
    split; [by intros ->|by intros [= ->]].
  - f_equal. symmetry. apply bool_decide_eq_false. destruct (decide (x = 0)), (decide (y = 0)); congruence.
Qed.

Lemma cstring_id a : 0 ∉ a -> cstring a = a.
Proof.
  induction a as [|c a IH]; intros H0; [done|]. apply not_elem_of_cons in H0 as [Hc H0]. cbn.
  rewrite decide_False by congruence. by rewrite IH.
Qed.

Lemma cstring_full a : length (cstring a) = length a -> 0 ∉ a.
Proof.
  assert (forall a, (length (cstring a) <= length a)%nat) as Hle
    by (intros l; induction l as [|c l IH]; cbn; [|case_decide; cbn]; lia).
  induction a as [|c a IH]; intros Hl; [by intros ?%elem_of_nil|]. cbn in Hl. case_decide as Hc; [done|].
  cbn in Hl. apply not_elem_of_cons. split; [congruence|]. apply IH. lia.
Qed.

Lemma cstring_replicate n : cstring (replicate n 0) = [].
Proof. by destruct n. Qed.

(** The copy holds the string, padded to [n] characters. *)
Lemma strncpy_prefix_at n pre a : readable n a ->
  exists r, strncpy n (pre ++ a) (Z.of_nat (length pre)) = Ok r /\ length r = n /\ cstring r = prefix_string n a.
Proof.
  unfold prefix_string. revert pre a. induction n as [|n IH]; intros pre a Ha; cbn [strncpy].
  { exists []. rewrite take_0. done. }
  destruct a as [|c a]; [by apply readable_nil in Ha|].
  rewrite (arr_get_lookup _ _ c) by (rewrite ?Nat2Z.id, ?lookup_app_r, ?Nat.sub_diag by lia; done || lia).
  cbn [rbind take cstring]. case_decide as Hc.
  - eexists. split; [done|]. split; [apply (length_replicate (S n))|]. done.
  - destruct (IH (pre ++ [c]) a) as (r & Hr & Hl & Hs); [by eapply readable_cons|].
    rewrite <-app_assoc, length_app in Hr. cbn [app length] in Hr.
    replace (Z.of_nat (length pre) + 1) with (Z.of_nat (length pre + 1)) by lia. rewrite Hr. cbn [rbind].
    exists (c :: r). cbn [length cstring]. rewrite Hl, Hs, decide_False by done. done.
Qed.

Lemma strncpy_prefix n a : readable n a ->
  exists r, strncpy n a 0 = Ok r /\ length r = n /\ cstring r = prefix_string n a.
Proof. apply (strncpy_prefix_at n [] a). Qed.

(** ** The bytes of a word *)

Class HostOrder := {
  word_bytes : Z -> list Z;
  bytes_word : list Z -> Z;
  word_bytes_length w : length (word_bytes w) = 4%nat;
  bytes_word_range l : in_u32 (bytes_word l);
  bytes_word_bytes w : in_u32 w -> bytes_word (word_bytes w) = w;
  word_bytes_zero : word_bytes 0 = [0; 0; 0; 0]
}.

Fixpoint le_bytes (n : nat) (w : Z) : list Z :=
  match n with O => [] | S n' => u8 w :: le_bytes n' (Z.shiftr w 8) end.
Fixpoint le_value (l : list Z) : Z :=
  match l with [] => 0 | b :: l' => u8 b + 2 ^ 8 * le_value l' end.

Lemma le_bytes_length n w : length (le_bytes n w) = n.
Proof. revert w. induction n as [|n IH]; intros w; [done|]. cbn. by rewrite IH. Qed.

Lemma le_value_bytes n w : le_value (le_bytes n w) = w mod 2 ^ (8 * Z.of_nat n).
Proof.
  revert w. induction n as [|n IH]; intros w; cbn [le_bytes le_value]; [by rewrite Z.mod_1_r|].
  rewrite IH, Z.shiftr_div_pow2 by lia. replace (8 * Z.of_nat (S n)) with (8 + 8 * Z.of_nat n) by lia.
  rewrite Z.pow_add_r, (Z.rem_mul_r w (2 ^ 8)) by lia. f_equal. unfold u8. by rewrite Z.mod_mod by lia.
Qed.

#[export] Program Instance little_endian : HostOrder := {|
  word_bytes := le_bytes 4;
  bytes_word l := u32 (le_value l)
|}.
Next Obligation. apply le_bytes_length. Qed.
Next Obligation. intros l. cbn beta. apply u32_range. Qed.
Next Obligation. intros w Hw. cbn beta. rewrite le_value_bytes. change (u32 (u32 w) = w). by rewrite !(u32_id w). Qed.
Next Obligation. done. Qed.

Program Definition big_endian : HostOrder := {|
  word_bytes w := rev (le_bytes 4 w);
  bytes_word l := u32 (le_value (rev l))
|}.
Next Obligation. intros w. cbn beta. by rewrite length_rev, le_bytes_length. Qed.
Next Obligation. intros l. cbn beta. apply u32_range. Qed.
Next Obligation.
  intros w Hw. cbn beta. rewrite rev_involutive, le_value_bytes. change (u32 (u32 w) = w). by rewrite !(u32_id w).
Qed.
Next Obligation. done. Qed.

Section Words.
  Context `{HO : HostOrder}.

(** An [int] object, and arrays of words. *)
Definition int_bytes (x : Z) : list Z := word_bytes (u32 x).
Definition bytes_int (l : list Z) : Z := i32 (bytes_word l).

Definition words_bytes (ws : list Z) : list Z := ws ≫= word_bytes.
Fixpoint bytes_words (n : nat) (l : list Z) : list Z :=
  match n with O => [] | S n' => bytes_word (take 4 l) :: bytes_words n' (drop 4 l) end.

Lemma int_bytes_length x : length (int_bytes x) = 4%nat.
Proof. apply word_bytes_length. Qed.

Lemma bytes_int_bytes x : in_i32 x -> bytes_int (int_bytes x) = x.
Proof.
  intros Hx. unfold bytes_int, int_bytes. rewrite bytes_word_bytes by apply u32_range. rewrite i32_u32. by apply i32_id.
Qed.

Lemma bytes_int_range l : in_i32 (bytes_int l).
Proof. apply i32_range. Qed.

Lemma words_bytes_cons w ws : words_bytes (w :: ws) = word_bytes w ++ words_bytes ws.
Proof. done. Qed.

Lemma words_bytes_length ws : length (words_bytes ws) = (length ws * 4)%nat.
Proof. induction ws as [|w ws IH]; [done|]. rewrite words_bytes_cons, length_app, word_bytes_length, IH. cbn. lia. Qed.

Lemma bytes_words_length n l : length (bytes_words n l) = n.
Proof. revert l. induction n as [|n IH]; intros l; [done|]. cbn. by rewrite IH. Qed.

Lemma bytes_words_range n l : Forall in_u32 (bytes_words n l).
Proof. revert l. induction n as [|n IH]; intros l; cbn [bytes_words]; constructor; [apply bytes_word_range|apply IH]. Qed.

Lemma bytes_words_bytes ws : Forall in_u32 ws -> bytes_words (length ws) (words_bytes ws) = ws.
Proof.
  induction 1 as [|w ws Hw _ IH]; [done|]. rewrite words_bytes_cons. cbn [length bytes_words].
  rewrite take_app_length', drop_app_length' by (by rewrite word_bytes_length). by rewrite bytes_word_bytes, IH.
Qed.
End Words.
