(* ===== verification/BitMap.v ===== *)
(** * userprog/bitmap.cc, userprog/bitmap.h: arrays of bits

    The class as it is written, an array of 32-bit words indexed by
    [which / BitsInWord]; its abstract specification, a list of booleans; and
    the interface [BitAllocator] that the components allocating slots with a
    bitmap (tables, the lock and condition tables, physical memory, the swap
    file, the disk) are proved against. *)
From S2P Require Import Prelude.

Definition BitsInByte : Z := 8.
Definition BitsInWord : Z := 32.

(** The private members of the class; [bmap] is the word array [map]. *)
Record BitMap := mkBitMap {
  numBits : Z;
  numWords : Z;
  bmap : list Z
}.

(** [1 << (which % BitsInWord)], an [int] converted to [unsigned int]. *)
Definition bit_mask (which : Z) : Z := u32 (i32 (Z.shiftl 1 (Z.rem which BitsInWord))).

Definition in_range (b : BitMap) (which : Z) : bool :=
  bool_decide (which >= 0) && bool_decide (which < numBits b).

Definition with_map (b : BitMap) (m : list Z) : BitMap :=
  mkBitMap (numBits b) (numWords b) m.

Definition Mark (b : BitMap) (which : Z) : res BitMap :=
  ASSERT (in_range b which) ;;
  w ← arr_get (bmap b) (Z.quot which BitsInWord);
  m ← arr_set (bmap b) (Z.quot which BitsInWord) (Z.lor w (bit_mask which));
  mret (with_map b m).

(** [~(1 << k)] on [int], then converted to [unsigned int]. *)
Definition Clear (b : BitMap) (which : Z) : res BitMap :=
  ASSERT (in_range b which) ;;
  w ← arr_get (bmap b) (Z.quot which BitsInWord);
  m ← arr_set (bmap b) (Z.quot which BitsInWord)
        (Z.land w (u32 (Z.lnot (i32 (Z.shiftl 1 (Z.rem which BitsInWord))))));
  mret (with_map b m).

Definition Test (b : BitMap) (which : Z) : res bool :=
  ASSERT (in_range b which) ;;
  w ← arr_get (bmap b) (Z.quot which BitsInWord);
  mret (negb (Z.land w (bit_mask which) =? 0)).

(** [for (int i = lo; i < hi; i++) Clear(i)], [n] rounds from [lo]. *)
Fixpoint Clear_range (n : nat) (b : BitMap) (i : Z) : res BitMap :=
  match n with
  | O => mret b
  | S n' => b' ← Clear b i; Clear_range n' b' (i + 1)
  end.

(** The constructor. [new unsigned int[numWords]] is not initialised:
    [garbage] is what the allocation contained. *)
Definition BitMap_new (nitems : Z) (garbage : nat -> Z) : res BitMap :=
  let words := divRoundUp nitems BitsInWord in
  let b := mkBitMap nitems words (u32 ∘ garbage <$> seq 0 (Z.to_nat words)) in
  Clear_range (Z.to_nat nitems) b 0.

(** The copy loop of [Resize]: one [unsigned int] per bit. *)
Fixpoint copy_words (n : nat) (src dst : list Z) (i : Z) : res (list Z) :=
  match n with
  | O => mret dst
  | S n' => w ← arr_get src i; dst' ← arr_set dst i w; copy_words n' src dst' (i + 1)
  end.

(** [Resize] copies [numBits] words, clears bits [numBits .. 2*numBits-1] of
    the old map and only then updates the size. *)
Definition Resize (b : BitMap) (garbage : nat -> Z) : res BitMap :=
  let newMap := u32 ∘ garbage <$> seq 0 (Z.to_nat (numWords b * 2)) in
  newMap' ← copy_words (Z.to_nat (numBits b)) (bmap b) newMap 0;
  b' ← Clear_range (Z.to_nat (numBits b)) b (numBits b);
  let bits := numBits b * 2 in
  mret (mkBitMap bits (divRoundUp bits BitsInWord) newMap').

Fixpoint Find_from (n : nat) (b : BitMap) (i : Z) : res (BitMap * Z) :=
  match n with
  | O => mret (b, -1)
  | S n' =>
      t ← Test b i;
      if negb t then (b' ← Mark b i; mret (b', i)) else Find_from n' b (i + 1)
  end.

Definition Find (b : BitMap) : res (BitMap * Z) :=
  Find_from (Z.to_nat (numBits b)) b 0.

Fixpoint NumClear_from (n : nat) (b : BitMap) (i count : Z) : res Z :=
  match n with
  | O => mret count
  | S n' =>
      t ← Test b i;
      NumClear_from n' b (i + 1) (if negb t then count + 1 else count)
  end.

Definition NumClear (b : BitMap) : res Z :=
  NumClear_from (Z.to_nat (numBits b)) b 0 0.

(** The numbers [Print] writes, in order. *)
Fixpoint Print_from (n : nat) (b : BitMap) (i : Z) : res (list Z) :=
  match n with
  | O => mret []
  | S n' =>
      t ← Test b i;
      rest ← Print_from n' b (i + 1);
      mret (if t : bool then i :: rest else rest)
  end.

Definition Print (b : BitMap) : res (list Z) :=
  Print_from (Z.to_nat (numBits b)) b 0.

(** ** Abstract view: the list of the bits *)
Definition bit_at (b : BitMap) (i : Z) : bool :=
  Z.testbit (default 0 (bmap b !! Z.to_nat (i / BitsInWord))) (i mod BitsInWord).

Definition bits (b : BitMap) : list bool := bit_at b <$> seqZ 0 (numBits b).

(** The invariant of the class. *)
Record wf (b : BitMap) : Prop := {
  wf_bits : 0 <= numBits b;
  wf_words : numWords b = divRoundUp (numBits b) BitsInWord;
  wf_len : Z.of_nat (length (bmap b)) = numWords b;
  wf_u32 : Forall in_u32 (bmap b)
}.

Definition rep (b : BitMap) (l : list bool) : Prop := wf b /\ bits b = l.

(** The position of the first [false], which [Find] allocates. *)
Fixpoint first_clear (l : list bool) : option nat :=
  match l with
  | [] => None
  | false :: _ => Some O
  | true :: l' => S <$> first_clear l'
  end.

(** What [NumClear] counts. *)
Definition count_clear (l : list bool) : Z := Z.of_nat (length (filter (eq false) l)).

(** ** The interface of a slot allocator

    What the users of a bitmap rely on: a state represents a list of bits, the
    operations fault exactly outside of it and act on it as on the list. *)
Class BitAllocator (B : Type) := {
  ba_rep : B -> list bool -> Prop;
  ba_new : Z -> (nat -> Z) -> res B;
  ba_test : B -> Z -> res bool;
  ba_mark : B -> Z -> res B;
  ba_clear : B -> Z -> res B;
  ba_find : B -> res (B * Z);
  ba_num_clear : B -> res Z;
  ba_new_clear : forall n g, 0 <= n ->
    exists b, ba_new n g = Ok b /\ ba_rep b (replicate (Z.to_nat n) false);
  ba_test_in : forall b l i x, ba_rep b l -> 0 <= i ->
    l !! Z.to_nat i = Some x -> ba_test b i = Ok x;
  ba_test_out : forall b l i, ba_rep b l ->
    ~ (0 <= i < Z.of_nat (length l)) -> ba_test b i = Fault AssertFail;
  ba_mark_in : forall b l i, ba_rep b l -> 0 <= i < Z.of_nat (length l) ->
    exists b', ba_mark b i = Ok b' /\ ba_rep b' (<[Z.to_nat i := true]> l);
  ba_clear_in : forall b l i, ba_rep b l -> 0 <= i < Z.of_nat (length l) ->
    exists b', ba_clear b i = Ok b' /\ ba_rep b' (<[Z.to_nat i := false]> l);
  ba_find_some : forall b l n, ba_rep b l -> first_clear l = Some n ->
    exists b', ba_find b = Ok (b', Z.of_nat n) /\ ba_rep b' (<[n := true]> l);
  ba_find_none : forall b l, ba_rep b l -> first_clear l = None ->
    ba_find b = Ok (b, -1);
  ba_num_clear_ok : forall b l, ba_rep b l -> ba_num_clear b = Ok (count_clear l)
}.

(** * Lemmas *)

Lemma in_range_spec b i : in_range b i = true <-> 0 <= i < numBits b.
Proof. unfold in_range. rewrite andb_true_iff, !bool_decide_eq_true. lia. Qed.

Lemma bits_length b : 0 <= numBits b -> Z.of_nat (length (bits b)) = numBits b.
Proof. intros. unfold bits. rewrite length_fmap, length_seqZ. lia. Qed.

Lemma bits_lookup b i :
  0 <= i < numBits b -> bits b !! Z.to_nat i = Some (bit_at b i).
Proof.
  intros. unfold bits. rewrite list_lookup_fmap, lookup_seqZ_lt by lia.
  simpl. by rewrite Z2Nat.id by lia.
Qed.

Lemma bits_lookup_nat b k :
  Z.of_nat k < numBits b -> bits b !! k = Some (bit_at b (Z.of_nat k)).
Proof. intros. rewrite <-(Nat2Z.id k) at 1. apply bits_lookup. lia. Qed.

(** The word that holds an in-range bit is in the array. *)
Lemma word_in b i : wf b -> 0 <= i < numBits b ->
  0 <= i / 32 < Z.of_nat (length (bmap b)).
Proof.
  intros [H1 H2 H3 _] Hi. rewrite H3, H2. unfold BitsInWord.
  pose proof (divRoundUp_bounds (numBits b) 32). pose proof (Z.div_pos i 32).
  pose proof (Z.mul_div_le i 32). lia.
Qed.

Lemma quot_rem_word i : 0 <= i ->
  Z.quot i BitsInWord = i / 32 /\ Z.rem i BitsInWord = i mod 32.
Proof.
  intros. unfold BitsInWord.
  by rewrite Z.quot_div_nonneg, Z.rem_mod_nonneg by lia.
Qed.

Lemma word_get b i : wf b -> 0 <= i < numBits b ->
  exists w, arr_get (bmap b) (Z.quot i BitsInWord) = Ok w /\ in_u32 w /\
    bmap b !! Z.to_nat (i / 32) = Some w.
Proof.
  intros Hwf Hi. pose proof (word_in b i Hwf Hi) as Hw.
  destruct (quot_rem_word i) as [-> _]; [lia|].
  destruct (arr_get_in (bmap b) (i / 32)) as (w & Hg & Hin); [lia|].
  exists w. split; [done|]. apply arr_get_Ok in Hg as [_ Hl].
  split; [|done]. destruct Hwf as [_ _ _ HF]. by eapply Forall_forall in HF.
Qed.

Lemma shift_mask k : 0 <= k < 32 -> u32 (i32 (Z.shiftl 1 k)) = 2 ^ k.
Proof.
  intros. rewrite u32_i32, Z.shiftl_1_l. apply u32_id. split; [lia|].
  apply Z.pow_lt_mono_r; lia.
Qed.

Lemma mask_testbit k n : 0 <= k < 32 ->
  Z.testbit (u32 (i32 (Z.shiftl 1 k))) n = bool_decide (n = k).
Proof.
  intros. rewrite shift_mask by done. case_bool_decide; subst.
  - apply Z.pow2_bits_true. lia.
  - apply Z.pow2_bits_false. lia.
Qed.

Lemma Test_bit b i : wf b -> 0 <= i < numBits b -> Test b i = Ok (bit_at b i).
Proof.
  intros Hwf Hi. unfold Test. rewrite (proj2 (in_range_spec b i)) by done.
  destruct (word_get b i Hwf Hi) as (w & Hg & _ & Hl). simpl. rewrite Hg. simpl.
  unfold bit_at, bit_mask. destruct (quot_rem_word i) as [_ ->]; [lia|].
  unfold BitsInWord. rewrite Hl, shift_mask by (apply Z.mod_pos_bound; lia).
  simpl. by rewrite land_pow2_test by (apply Z.mod_pos_bound; lia).
Qed.

Lemma out_of_range b i : ~ (0 <= i < numBits b) -> in_range b i = false.
Proof. intros H. apply not_true_iff_false. by rewrite in_range_spec. Qed.

Section Update.
  Context (b : BitMap) (i w w' : Z) (x : bool).
  Hypothesis Hwf : wf b.
  Hypothesis Hi : 0 <= i < numBits b.
  Hypothesis Hw : bmap b !! Z.to_nat (i / 32) = Some w.
  Hypothesis Hu : in_u32 w'.
  (** [w'] is [w] with bit [i mod 32] replaced by [x]. *)
  Hypothesis Hbits : forall n, 0 <= n < 32 ->
    Z.testbit w' n = if bool_decide (n = i mod 32) then x else Z.testbit w n.

Lemma update_word : exists b',
  (m ← arr_set (bmap b) (Z.quot i BitsInWord) w'; mret (with_map b m)) = Ok b' /\
  wf b' /\ bits b' = <[Z.to_nat i := x]> (bits b).
Proof.
  pose proof (word_in b i Hwf Hi) as Hin.
  destruct (quot_rem_word i) as [-> _]; [lia|].
  rewrite arr_set_in by done. simpl. eexists. split; [done|].
  destruct Hwf as [H1 H2 H3 H4]. split.
  { split; simpl; try done; [by rewrite length_insert|].
    by apply Forall_insert. }
  apply list_eq. intros k.
  destruct (decide (Z.of_nat k < numBits b)) as [Hk|Hk].
  2: { rewrite !lookup_ge_None_2; [done|..]; rewrite ?length_insert;
         apply Nat2Z.inj_le; rewrite bits_length; simpl; lia. }
  rewrite (bits_lookup_nat (with_map _ _)) by (simpl; lia).
  assert (length (bits b) = Z.to_nat (numBits b)) by (pose proof (bits_length b); lia).
  destruct (decide (k = Z.to_nat i)) as [->|Hne].
  - rewrite list_lookup_insert_eq by lia.
    f_equal. rewrite Z2Nat.id by lia. unfold bit_at, BitsInWord; simpl.
    rewrite list_lookup_insert_eq by lia. simpl.
    rewrite Hbits by (apply Z.mod_pos_bound; lia). by rewrite bool_decide_eq_true_2.
  - rewrite list_lookup_insert_ne, bits_lookup_nat by (done || lia). f_equal.
    unfold bit_at, BitsInWord; simpl.
    destruct (decide (Z.of_nat k / 32 = i / 32)) as [E|E].
    + rewrite E, list_lookup_insert_eq by lia. simpl.
      rewrite Hbits by (apply Z.mod_pos_bound; lia).
      rewrite bool_decide_eq_false_2; [by rewrite Hw|].
      intros Em. pose proof (Z.div_mod i 32). pose proof (Z.div_mod (Z.of_nat k) 32). lia.
    + rewrite list_lookup_insert_ne; [done|].
      pose proof (Z.div_pos (Z.of_nat k) 32). lia.
Qed.
End Update.

Lemma Mark_bits b i : wf b -> 0 <= i < numBits b ->
  exists b', Mark b i = Ok b' /\ wf b' /\ bits b' = <[Z.to_nat i := true]> (bits b).
Proof.
  intros Hwf Hi. unfold Mark. rewrite (proj2 (in_range_spec b i)) by done.
  destruct (word_get b i Hwf Hi) as (w & Hg & Hu & Hl). simpl. rewrite Hg.
  assert (0 <= i mod 32 < 32) by (apply Z.mod_pos_bound; lia).
  apply (update_word b i w); try done; unfold bit_mask;
    (destruct (quot_rem_word i) as [_ ->]; [lia|]).
  - apply lor_in_u32; [done|]. apply u32_range.
  - intros n Hn. rewrite Z.lor_spec, mask_testbit by done.
    case_bool_decide; by rewrite ?orb_true_r, ?orb_false_r.
Qed.

Lemma Clear_bits b i : wf b -> 0 <= i < numBits b ->
  exists b', Clear b i = Ok b' /\ wf b' /\ bits b' = <[Z.to_nat i := false]> (bits b).
Proof.
  intros Hwf Hi. unfold Clear. rewrite (proj2 (in_range_spec b i)) by done.
  destruct (word_get b i Hwf Hi) as (w & Hg & Hu & Hl). simpl. rewrite Hg.
  assert (0 <= i mod 32 < 32) by (apply Z.mod_pos_bound; lia).
  apply (update_word b i w); try done;
    (destruct (quot_rem_word i) as [_ ->]; [lia|]).
  - apply land_in_u32; [done|]. apply u32_range.
  - intros n Hn. rewrite Z.land_spec, u32_testbit, Z.lnot_spec by lia.
    rewrite (proj2 (Z.ltb_lt n 32)) by lia. simpl.
    assert (Z.testbit (i32 (Z.shiftl 1 (i mod 32))) n = bool_decide (n = i mod 32)) as ->.
    { rewrite <-(mask_testbit (i mod 32) n), u32_testbit by lia.
      by rewrite (proj2 (Z.ltb_lt n 32)) by lia. }
    case_bool_decide; by rewrite ?andb_true_r, ?andb_false_r.
Qed.

Lemma rep_length b l : rep b l -> Z.of_nat (length l) = numBits b.
Proof. intros [[] <-]. by apply bits_length. Qed.

Lemma Test_rep b l i x : rep b l -> 0 <= i -> l !! Z.to_nat i = Some x ->
  Test b i = Ok x.
Proof.
  intros Hr H0 Hl. pose proof (rep_length b l Hr). destruct Hr as [Hwf <-].
  pose proof (lookup_lt_Some _ _ _ Hl). rewrite bits_lookup in Hl by lia.
  rewrite Test_bit by (done || lia). congruence.
Qed.

Lemma Test_out b i : ~ (0 <= i < numBits b) -> Test b i = Fault AssertFail.
Proof. intros. unfold Test. by rewrite out_of_range. Qed.

Lemma Mark_rep b l i : rep b l -> 0 <= i < Z.of_nat (length l) ->
  exists b', Mark b i = Ok b' /\ rep b' (<[Z.to_nat i := true]> l).
Proof.
  intros Hr Hi. pose proof (rep_length b l Hr). destruct Hr as [Hwf <-].
  destruct (Mark_bits b i) as (b' & ? & ? & ?); [done|lia|].
  exists b'. by split_and!.
Qed.

Lemma Clear_rep b l i : rep b l -> 0 <= i < Z.of_nat (length l) ->
  exists b', Clear b i = Ok b' /\ rep b' (<[Z.to_nat i := false]> l).
Proof.
  intros Hr Hi. pose proof (rep_length b l Hr). destruct Hr as [Hwf <-].
  destruct (Clear_bits b i) as (b' & ? & ? & ?); [done|lia|].
  exists b'. by split_and!.
Qed.

Lemma first_clear_Some l n : first_clear l = Some n ->
  l !! n = Some false /\ forall k, (k < n)%nat -> l !! k = Some true.
Proof.
  revert n. induction l as [|[] l IH]; simpl; intros n H; [done|..].
  - destruct (first_clear l) as [m|]; simplify_eq/=.
    destruct (IH m) as [Hm Hk]; [done|]. split; [done|].
    intros [|k] Hlt; [done|]. apply Hk. lia.
  - simplify_eq. split; [done|]. lia.
Qed.

Lemma first_clear_None l : first_clear l = None <-> Forall (eq true) l.
Proof.
  induction l as [|[] l IH]; simpl; [naive_solver| |].
  - rewrite Forall_cons, <-IH. destruct (first_clear l); naive_solver.
  - rewrite Forall_cons. naive_solver.
Qed.

(** The loop of [Find] after [i] rounds: it looks at the rest of the list. *)
Lemma Find_from_rep b l n i :
  rep b l -> (i + n)%nat = length l ->
  match first_clear (drop i l) with
  | Some k => exists b', Find_from n b (Z.of_nat i) = Ok (b', Z.of_nat (i + k)) /\
                rep b' (<[(i + k)%nat := true]> l)
  | None => Find_from n b (Z.of_nat i) = Ok (b, -1)
  end.
Proof.
  intros Hr. revert i. induction n as [|n IH]; intros i Hl; simpl.
  { by rewrite drop_ge by lia. }
  destruct (lookup_lt_is_Some_2 l i) as [x Hx]; [lia|].
  rewrite (drop_S l x i) by done.
  rewrite (Test_rep b l (Z.of_nat i) x) by (rewrite ?Nat2Z.id; done || lia).
  destruct x; simpl.
  - specialize (IH (S i)). replace (Z.of_nat (S i)) with (Z.of_nat i + 1) in IH by lia.
    destruct (first_clear (drop (S i) l)) as [k|]; simpl; [|apply IH; lia].
    replace (i + S k)%nat with (S i + k)%nat by lia. apply IH. lia.
  - destruct (Mark_rep b l (Z.of_nat i)) as (b' & Hm & Hr'); [done|lia|].
    rewrite Hm. simpl. rewrite Nat2Z.id in Hr'. rewrite Nat.add_0_r. eauto.
Qed.

Lemma Find_rep b l : rep b l ->
  match first_clear l with
  | Some k => exists b', Find b = Ok (b', Z.of_nat k) /\ rep b' (<[k := true]> l)
  | None => Find b = Ok (b, -1)
  end.
Proof.
  intros Hr. pose proof (rep_length b l Hr) as Hl.
  apply (Find_from_rep b l (Z.to_nat (numBits b)) 0); [done|lia].
Qed.

(** Clearing a range of bits turns that part of the list to [false]. *)
Lemma Clear_range_bits n b i :
  wf b -> 0 <= i -> i + Z.of_nat n <= numBits b ->
  exists b', Clear_range n b i = Ok b' /\ wf b' /\ numBits b' = numBits b /\
    forall k, 0 <= k < numBits b ->
      bit_at b' k = if bool_decide (i <= k < i + Z.of_nat n) then false else bit_at b k.
Proof.
  revert b i. induction n as [|n IH]; intros b i Hwf H0 Hn; simpl.
  { exists b. split_and!; try done. intros. by rewrite bool_decide_eq_false_2 by lia. }
  destruct (Clear_bits b i) as (b1 & Hc & Hwf1 & Hb1); [done|lia|]. rewrite Hc. simpl.
  assert (numBits b1 = numBits b) as Hnb.
  { apply (f_equal length) in Hb1. rewrite length_insert in Hb1.
    destruct Hwf, Hwf1. rewrite <-(bits_length b1), <-(bits_length b) by done. lia. }
  destruct (IH b1 (i + 1)) as (b' & Hr & Hwf' & Hnb' & Hk); [done|lia|lia|].
  exists b'. split_and!; [done|done|congruence|]. intros k Hkr. rewrite Hk by lia.
  assert (bits b1 !! Z.to_nat k = Some (bit_at b1 k)) as E by (apply bits_lookup; lia).
  assert (bits b !! Z.to_nat k = Some (bit_at b k)) as E0 by (apply bits_lookup; lia).
  pose proof (bits_length b). rewrite Hb1, list_lookup_insert in E.
  repeat case_decide; repeat case_bool_decide; try lia; try done; congruence.
Qed.

Lemma BitMap_new_rep n garbage : 0 <= n ->
  exists b, BitMap_new n garbage = Ok b /\ rep b (replicate (Z.to_nat n) false).
Proof.
  intros Hn. unfold BitMap_new.
  set (b0 := mkBitMap _ _ _).
  assert (wf b0) as Hwf.
  { split; simpl; [done|done| |].
    - rewrite length_fmap, length_seq. unfold BitsInWord.
      pose proof (divRoundUp_bounds n 32). lia.
    - apply Forall_fmap, Forall_true. intros. apply u32_range. }
  destruct (Clear_range_bits (Z.to_nat n) b0 0) as (b & Hc & Hw & Hnb & Hk); [done|lia|simpl; lia|].
  exists b. split; [done|]. split; [done|]. simpl in *.
  apply list_eq. intros k. destruct (decide (Z.of_nat k < n)).
  - rewrite bits_lookup_nat, Hk, lookup_replicate_2 by lia.
    by rewrite bool_decide_eq_true_2 by lia.
  - pose proof (bits_length b). rewrite !lookup_ge_None_2; rewrite ?length_replicate; try done; lia.
Qed.

(** The class implements the allocator interface. *)
Lemma NumClear_from_rep b l n i c :
  rep b l -> (i + n)%nat = length l ->
  NumClear_from n b (Z.of_nat i) c = Ok (c + count_clear (drop i l)).
Proof.
  intros Hr. revert i c. induction n as [|n IH]; intros i c Hl; simpl.
  { rewrite drop_ge by lia. unfold count_clear; simpl. f_equal. lia. }
  destruct (lookup_lt_is_Some_2 l i) as [x Hx]; [lia|].
  rewrite (Test_rep b l (Z.of_nat i) x) by (rewrite ?Nat2Z.id; done || lia). simpl.
  replace (Z.of_nat i + 1) with (Z.of_nat (S i)) by lia.
  rewrite IH, (drop_S l x i) by (done || lia).
  unfold count_clear. rewrite filter_cons. f_equal. destruct x; case_decide; simpl; try done; lia.
Qed.

Lemma NumClear_rep b l : rep b l -> NumClear b = Ok (count_clear l).
Proof.
  intros Hr. unfold NumClear. pose proof (rep_length b l Hr).
  apply (NumClear_from_rep b l (Z.to_nat (numBits b)) 0); [done|lia].
Qed.

#[export] Program Instance BitMap_allocator : BitAllocator BitMap := {|
  ba_rep := rep; ba_new := BitMap_new; ba_test := Test; ba_mark := Mark; ba_clear := Clear; ba_find := Find;
  ba_num_clear := NumClear
|}.
Next Obligation. intros; by apply BitMap_new_rep. Qed.
Next Obligation. intros; by eapply Test_rep. Qed.
Next Obligation. intros b l i Hr Hi. apply Test_out. by rewrite <-(rep_length b l). Qed.
Next Obligation. intros; by apply Mark_rep. Qed.
Next Obligation. intros; by apply Clear_rep. Qed.
Next Obligation. intros b l n Hr Hf. pose proof (Find_rep b l Hr). by rewrite Hf in *. Qed.
Next Obligation. intros b l Hr Hf. pose proof (Find_rep b l Hr). by rewrite Hf in *. Qed.
Next Obligation. intros; by apply NumClear_rep. Qed.

Lemma count_clear_insert l n :
  l !! n = Some false -> count_clear (<[n := true]> l) = count_clear l - 1.
Proof.
  unfold count_clear. revert n. induction l as [|x l IH]; intros [|n] H; simplify_eq/=.
  - rewrite !filter_cons. repeat case_decide; simpl; (done || lia).
  - specialize (IH n H). rewrite !filter_cons. repeat case_decide; simpl; lia.
Qed.

(** The copy loop of [Resize] reads past the end of the source. *)
Lemma copy_words_oob n src dst i :
  0 <= i <= Z.of_nat (length src) -> Z.of_nat (length src) < i + Z.of_nat n ->
  Z.of_nat (length src) <= Z.of_nat (length dst) ->
  copy_words n src dst i = Fault OutOfBounds.
Proof.
  revert dst i. induction n as [|n IH]; intros dst i H1 H2 H3; [lia|]. simpl.
  destruct (decide (i < Z.of_nat (length src))).
  - destruct (arr_get_in src i) as (w & -> & _); [lia|]. simpl.
    rewrite arr_set_in by lia. simpl. apply IH; rewrite ?length_insert; lia.
  - by rewrite arr_get_oob by lia.
Qed.

Lemma Clear_range_out n b i :
  numBits b <= i -> Clear_range (S n) b i = Fault AssertFail.
Proof. intros. simpl. unfold Clear. by rewrite out_of_range by lia. Qed.

(** * Properties *)

(** C22: The word-array operations implement a list of booleans: inside the map
    [Test] reads, [Mark] sets and [Clear] resets exactly the bit asked for and
    no other; outside of it each of the three stops on its ASSERT. *)
Theorem ops_refine_bit_list b l i :
  rep b l ->
  (0 <= i < Z.of_nat (length l) ->
     (exists x, l !! Z.to_nat i = Some x /\ Test b i = Ok x) /\
     (exists b', Mark b i = Ok b' /\ rep b' (<[Z.to_nat i := true]> l)) /\
     (exists b', Clear b i = Ok b' /\ rep b' (<[Z.to_nat i := false]> l))) /\
  (~ (0 <= i < Z.of_nat (length l)) ->
     Test b i = Fault AssertFail /\ Mark b i = Fault AssertFail /\
     Clear b i = Fault AssertFail).
Proof.
  intros Hr. split; intros Hi.
  - split_and!; [|by apply Mark_rep|by apply Clear_rep].
    destruct (lookup_lt_is_Some_2 l (Z.to_nat i)) as [x Hx]; [lia|].
    exists x. split; [done|]. eapply Test_rep; eauto. lia.
  - rewrite (rep_length b l Hr) in Hi. unfold Test, Mark, Clear.
    by rewrite !out_of_range.
Qed.

(** [Find] allocates: on a full map it returns -1 and changes nothing,
    otherwise it returns the lowest clear bit, marks it and only it, and
    [NumClear] drops by one. *)
Theorem Find_allocates_lowest b l :
  rep b l ->
  (Forall (eq true) l /\ Find b = Ok (b, -1) /\ NumClear b = Ok 0) \/
  exists n b', Find b = Ok (b', Z.of_nat n) /\ l !! n = Some false /\
    (forall k, (k < n)%nat -> l !! k = Some true) /\
    rep b' (<[n := true]> l) /\
    NumClear b = Ok (count_clear l) /\ NumClear b' = Ok (count_clear l - 1).
Proof.
  intros Hr. pose proof (Find_rep b l Hr) as Hf.
  destruct (first_clear l) as [n|] eqn:E.
  - right. destruct Hf as (b' & Hf & Hr').
    destruct (first_clear_Some l n E) as [Hn Hk].
    exists n, b'. split_and!; try done; [by apply NumClear_rep|].
    rewrite <-(count_clear_insert l n) by done. by apply NumClear_rep.
  - left. apply first_clear_None in E. split_and!; [done|done|].
    rewrite (NumClear_rep b l Hr). unfold count_clear. f_equal.
    clear Hr Hf. induction E as [|x l <- _ IH]; [done|]. apply IH.
Qed.

(** The constructor yields a map of [nitems] clear bits, whatever the
    uninitialised storage it was given contained. *)
Theorem BitMap_new_all_clear nitems garbage :
  0 <= nitems ->
  exists b, BitMap_new nitems garbage = Ok b /\
    rep b (replicate (Z.to_nat nitems) false).
Proof. apply BitMap_new_rep. Qed.

(** [Resize] never succeeds on a non-empty map: with two bits or more its
    copy loop (one word per bit) runs off the end of the word array, and with
    one bit the clearing loop, which still works on the old map, fails its
    ASSERT. *)
Theorem Resize_always_faults b garbage :
  wf b -> 0 < numBits b ->
  Resize b garbage = Fault (if bool_decide (numBits b = 1) then AssertFail else OutOfBounds).
Proof.
  intros [H1 H2 H3 H4] Hn. unfold Resize.
  pose proof (divRoundUp_bounds (numBits b) 32) as Hd.
  case_bool_decide as H1'.
  - assert (numWords b = 1) as Hw by (unfold BitsInWord in *; lia).
    rewrite H1', Hw in *. change (Z.to_nat 1) with 1%nat.
    destruct (bmap b) as [|w [|]]; simpl in H3; try lia.
    change (copy_words 1 [w] _ 0) with
      (dst' ← arr_set (u32 ∘ garbage <$> seq 0 2) 0 w; mret dst').
    rewrite arr_set_in by (simpl; lia).
    cbn [mbind res_bind mret res_ret]. by rewrite Clear_range_out by lia.
  - rewrite copy_words_oob; [done|lia|unfold BitsInWord in *; lia|].
    rewrite length_fmap, length_seq. lia.
Qed.

(** ** Witnesses: the properties at concrete maps *)
Definition zero_map (n : Z) : BitMap :=
  mkBitMap n (divRoundUp n BitsInWord) (replicate (Z.to_nat (divRoundUp n BitsInWord)) 0).

Lemma zero_map_rep : rep (zero_map 40) (replicate 40 false).
Proof.
  split; [|by vm_compute]. split; [by vm_compute|done|done|].
  repeat constructor; unfold in_u32; lia.
Qed.

Example ops_refine_bit_list_witness :
  exists b', Mark (zero_map 40) 33 = Ok b' /\ Test (zero_map 40) 40 = Fault AssertFail.
Proof.
  destruct (ops_refine_bit_list (zero_map 40) (replicate 40 false) 33 zero_map_rep) as [H _].
  destruct (ops_refine_bit_list (zero_map 40) (replicate 40 false) 40 zero_map_rep) as [_ H'].
  destruct H as (_ & (b' & Hb' & _) & _); [vm_compute; split; congruence|].
  exists b'. split; [exact Hb'|]. apply H'. vm_compute. intros [_ F]. discriminate F.
Defined.

Example Find_allocates_lowest_witness :
  exists n b', Find (zero_map 40) = Ok (b', Z.of_nat n).
Proof.
  destruct (Find_allocates_lowest (zero_map 40) _ zero_map_rep) as [[H _]|H].
  - exfalso. apply Forall_inv in H. discriminate H.
  - destruct H as (n & b' & H & _). exists n, b'. exact H.
Defined.

Example BitMap_new_all_clear_witness :
  exists b, BitMap_new 40 (fun _ => 12345) = Ok b /\ rep b (replicate 40 false).
Proof. apply (BitMap_new_all_clear 40 (fun _ => 12345)). lia. Defined.

Example Resize_always_faults_witness :
  Resize (zero_map 40) (fun _ => 0) = Fault OutOfBounds.
Proof.
  apply (Resize_always_faults (zero_map 40) (fun _ => 0)); [apply zero_map_rep|reflexivity].
Defined.
