(* ===== verification/LinkedList.v ===== *)
(** * threads/list.cc, threads/list.h: the singly linked list

    The class at pointer level: a heap of [ListElement]s shared by all lists,
    a [List] object with its [first] and [last] pointers, [new] and [delete] as
    allocation and removal of heap cells. The abstract specification is a list
    of (key, item) pairs; [is_list] relates the two with a footprint, so that
    operations on one list are seen to leave every other list alone. *)
From Stdlib Require Import Sorting.Sorted.
From S2P Require Import Prelude.

(** A pointer to a [ListElement]; [None] is NULL. *)
Abbreviation ptr := (option nat).

Record ListElement (A : Type) := mkElement {
  next : ptr;
  key : Z;
  item : A
}.
Arguments mkElement {A} next key item.
Arguments next {A} l.
Arguments key {A} l.
Arguments item {A} l.

Record List := mkList { first : ptr; last : ptr }.

Section Ops.
  Context {A : Type}.
  Abbreviation heap := (gmap nat (ListElement A)).
  Implicit Types (h : heap) (L : List).

(** [new ListElement(item, key)] *)
Definition ListElement_new h (x : A) (k : Z) : heap * nat :=
  let l := fresh (dom h) in (<[l := mkElement None k x]> h, l).

Definition load h (p : ptr) : res (ListElement A) :=
  let* l := deref p in deref (h !! l).

(** [p->next = q] *)
Definition set_next h (p q : ptr) : res heap :=
  let* e := load h p in
  let* l := deref p in
  mret (<[l := mkElement q (key e) (item e)]> h).

Definition List_new : List := mkList None None.

Definition IsEmpty L : bool := if decide (first L = None) then true else false.

Definition Append (x : A) : ST (heap * List) unit := fun '(h, L) =>
  let '(h, l) := ListElement_new h x 0 in
  if IsEmpty L then Ok ((h, mkList (Some l) (Some l)), tt)
  else let* h := set_next h (last L) (Some l) in Ok ((h, mkList (first L) (Some l)), tt).

Definition Prepend (x : A) : ST (heap * List) unit := fun '(h, L) =>
  let '(h, l) := ListElement_new h x 0 in
  if IsEmpty L then Ok ((h, mkList (Some l) (Some l)), tt)
  else let* h := set_next h (Some l) (first L) in Ok ((h, mkList (Some l) (last L)), tt).

(** [SortedRemove]: the key goes through [keyPtr], here a second result. *)
Definition SortedRemove : ST (heap * List) (option (Z * A)) := fun '(h, L) =>
  let element := first L in
  if IsEmpty L then Ok ((h, L), None)
  else
    let* e := load h (first L) in
    let thing := item e in
    let* L' := (if decide (first L = last L) then Ok (mkList None None)
          else mret (mkList (next e) (last L))) in
    let* l := deref element in
    Ok ((delete l h, L'), Some (key e, thing)).

(** [Remove] is [SortedRemove(NULL)]: the key is dropped. *)
Definition Remove : ST (heap * List) (option A) := fun s =>
  let* '(s', r) := SortedRemove s in Ok (s', snd <$> r).

(** The walk of [SortedInsert]: from [ptr], find the first successor with a
    larger key and link [element] before it; [false] when the end is reached. *)
Fixpoint insert_walk (fuel : nat) h (p : ptr) (l : nat) (sortKey : Z) : res (heap * bool) :=
  match fuel with
  | O => Fault OutOfFuel
  | S fuel' =>
      let* e := load h p in
      match next e with
      | None => Ok (h, false)
      | Some _ =>
          let* en := load h (next e) in
          if decide (sortKey < key en) then
            let* h := set_next h (Some l) (next e) in
            let* h := set_next h p (Some l) in
            Ok (h, true)
          else insert_walk fuel' h (next e) l sortKey
      end
  end.

Definition SortedInsert (x : A) (sortKey : Z) : ST (heap * List) unit := fun '(h, L) =>
  let '(h, l) := ListElement_new h x sortKey in
  if IsEmpty L then Ok ((h, mkList (Some l) (Some l)), tt)
  else
    let* e := load h (first L) in
    if decide (sortKey < key e) then
      let* h := set_next h (Some l) (first L) in Ok ((h, mkList (Some l) (last L)), tt)
    else
      let* '(h, found) := insert_walk (size h) h (first L) l sortKey in
      if found : bool then Ok ((h, L), tt)
      else let* h := set_next h (last L) (Some l) in Ok ((h, mkList (first L) (Some l)), tt).

(** [Mapcar]: the items the function is applied to, in order. *)
Fixpoint mapcar_walk (fuel : nat) h (p : ptr) : res (list A) :=
  match p with
  | None => mret []
  | Some _ =>
      match fuel with
      | O => Fault OutOfFuel
      | S fuel' => let* e := load h p in let* r := mapcar_walk fuel' h (next e) in mret (item e :: r)
      end
  end.

Definition Mapcar h L : res (list A) := mapcar_walk (size h) h (first L).

(** The destructor: [while (Remove() != NULL);] *)
Fixpoint destroy_loop (fuel : nat) (s : heap * List) : res (heap * List) :=
  match fuel with
  | O => Fault OutOfFuel
  | S fuel' =>
      let* '(s', r) := Remove s in
      match r with None => Ok s' | Some _ => destroy_loop fuel' s' end
  end.

Definition List_delete (s : heap * List) : res (heap * List) :=
  destroy_loop (S (size s.1)) s.

(** ** Abstract specification *)

(** Where [SortedInsert] puts a pair: before the first larger key. *)
Fixpoint sorted_insert (k : Z) (x : A) (xs : list (Z * A)) : list (Z * A) :=
  match xs with
  | [] => [(k, x)]
  | (k', y) :: xs' =>
      if decide (k < k') then (k, x) :: xs else (k', y) :: sorted_insert k x xs'
  end.

(** The cells from [p] up to the pointer [q]: addresses, keys and items. *)
Fixpoint seg h (p : ptr) (cs : list (nat * (Z * A))) (q : ptr) : Prop :=
  match cs with
  | [] => p = q
  | (l, (k, x)) :: cs' =>
      p = Some l /\ exists r, h !! l = Some (mkElement r k x) /\ seg h r cs' q
  end.

(** [L] is the list with the cells [cs]; [cs.*1] is its footprint. *)
Definition cells h L (cs : list (nat * (Z * A))) : Prop :=
  seg h (first L) cs None /\ last L = fst <$> list.last cs /\ NoDup cs.*1.

Definition is_list h L (fp : list nat) (xs : list (Z * A)) : Prop :=
  exists cs, cells h L cs /\ cs.*1 = fp /\ cs.*2 = xs.

Inductive op :=
  | OAppend (x : A)
  | OPrepend (x : A)
  | OSortedInsert (x : A) (k : Z)
  | ORemove
  | OSortedRemove
  | OIsEmpty
  | OMapcar.

Inductive out :=
  | RUnit
  | RItem (r : option A)
  | RKeyed (r : option (Z * A))
  | RBool (b : bool)
  | RItems (l : list A).

Definition exec (o : op) : ST (heap * List) out := fun s =>
  match o with
  | OAppend x => let* '(s', _) := Append x s in Ok (s', RUnit)
  | OPrepend x => let* '(s', _) := Prepend x s in Ok (s', RUnit)
  | OSortedInsert x k => let* '(s', _) := SortedInsert x k s in Ok (s', RUnit)
  | ORemove => let* '(s', r) := Remove s in Ok (s', RItem r)
  | OSortedRemove => let* '(s', r) := SortedRemove s in Ok (s', RKeyed r)
  | OIsEmpty => Ok (s, RBool (IsEmpty s.2))
  | OMapcar => let* r := Mapcar s.1 s.2 in Ok (s, RItems r)
  end.

(** The same operations on the abstract list. *)
Definition exec_spec (o : op) (xs : list (Z * A)) : list (Z * A) * out :=
  match o with
  | OAppend x => (xs ++ [(0, x)], RUnit)
  | OPrepend x => ((0, x) :: xs, RUnit)
  | OSortedInsert x k => (sorted_insert k x xs, RUnit)
  | ORemove => (tail xs, RItem (snd <$> head xs))
  | OSortedRemove => (tail xs, RKeyed (head xs))
  | OIsEmpty => (xs, RBool (bool_decide (xs = [])))
  | OMapcar => (xs, RItems xs.*2)
  end.

Fixpoint run (os : list op) (s : heap * List) : res (heap * List * list out) :=
  match os with
  | [] => Ok (s, [])
  | o :: os' =>
      let* '(s', r) := exec o s in let* '(s'', rs) := run os' s' in Ok (s'', r :: rs)
  end.

Fixpoint run_spec (os : list op) (xs : list (Z * A)) : list (Z * A) * list out :=
  match os with
  | [] => (xs, [])
  | o :: os' =>
      let '(xs', r) := exec_spec o xs in
      let '(xs'', rs) := run_spec os' xs' in (xs'', r :: rs)
  end.

(** What an operation on a list with footprint [cs] may touch: every other
    allocated cell is kept, and the new footprint [cs'] takes only cells that
    were its own or not allocated. *)
Definition local_update h (cs : list (nat * (Z * A))) h' (cs' : list (nat * (Z * A))) : Prop :=
  (forall l, l ∈ dom h -> l ∉ cs.*1 -> h' !! l = h !! l) /\
  (forall l, l ∈ cs'.*1 -> l ∈ cs.*1 \/ l ∉ dom h).

End Ops.
Arguments op A : clear implicits.
Arguments out A : clear implicits.

(** * Lemmas *)
Section Proofs.
  Context {A : Type}.
  Abbreviation heap := (gmap nat (ListElement A)).
  Implicit Types (h : heap) (L : List) (cs : list (nat * (Z * A))).

Lemma seg_app h p cs1 cs2 q :
  seg h p (cs1 ++ cs2) q <-> exists r, seg h p cs1 r /\ seg h r cs2 q.
Proof.
  revert p. induction cs1 as [|[l [k x]] cs1 IH]; intros p; simpl; [naive_solver|].
  setoid_rewrite IH. naive_solver.
Qed.

Lemma seg_dom h p cs q : seg h p cs q -> forall l, l ∈ cs.*1 -> l ∈ dom h.
Proof.
  revert p. induction cs as [|[l [k x]] cs IH]; simpl; intros p.
  - set_solver.
  - intros (-> & r & Hl & Hs) l'. rewrite elem_of_cons. intros [->|Hin].
    + apply elem_of_dom. eauto.
    + eauto.
Qed.

Lemma seg_frame h h' p cs q :
  (forall l, l ∈ cs.*1 -> h' !! l = h !! l) -> seg h p cs q -> seg h' p cs q.
Proof.
  revert p. induction cs as [|[l [k x]] cs IH]; simpl; intros p Hf; [done|].
  intros (-> & r & Hl & Hs). split; [done|]. exists r. split.
  - rewrite Hf by set_solver. done.
  - apply IH; [|done]. intros l' ?. apply Hf. set_solver.
Qed.

Lemma seg_frame_insert h p cs q l e :
  l ∉ cs.*1 -> seg h p cs q -> seg (<[l := e]> h) p cs q.
Proof.
  intros Hl. apply seg_frame. intros l' Hl'. rewrite lookup_insert_ne; [done|].
  intros ->. done.
Qed.

Lemma seg_frame_delete h p cs q l :
  l ∉ cs.*1 -> seg h p cs q -> seg (delete l h) p cs q.
Proof.
  intros Hl. apply seg_frame. intros l' Hl'. rewrite lookup_delete_ne; [done|].
  intros ->. done.
Qed.

(** The footprint fits in the heap, which bounds the walks. *)
Lemma seg_size h p cs q : seg h p cs q -> NoDup cs.*1 -> (length cs <= size h)%nat.
Proof.
  intros Hs Hnd. rewrite <-(length_fmap fst), <-(size_dom h).
  rewrite <-(size_list_to_set (C := gset nat) cs.*1) by done.
  apply subseteq_size. intros l. rewrite elem_of_list_to_set. by eapply seg_dom.
Qed.

Lemma new_fresh h x k h' (l : nat) :
  ListElement_new h x k = (h', l) ->
  (l ∉ dom h) /\ h' = <[l := mkElement (A:=A) None k x]> h.
Proof. unfold ListElement_new. intros [= <- <-]. split; [apply is_fresh|done]. Qed.

Lemma load_Some h l e : h !! l = Some e -> load h (Some l) = Ok e.
Proof. intros H. unfold load. simpl. by rewrite H. Qed.

Lemma set_next_Some h l e q :
  h !! l = Some e -> set_next h (Some l) q = Ok (<[l := mkElement q (key e) (item e)]> h).
Proof. intros H. unfold set_next. by rewrite (load_Some h l e). Qed.

Lemma IsEmpty_cells h L cs : cells h L cs -> IsEmpty L = bool_decide (cs = []).
Proof.
  intros (Hs & _). unfold IsEmpty. destruct cs as [|[l [k x]] cs]; simpl in *.
  - by rewrite decide_True.
  - destruct Hs as [-> _]. done.
Qed.

(** Linking a fresh cell after the last one, or making it the only cell. *)
Lemma append_cells h L cs (l : nat) k x :
  cells h L cs -> l ∉ dom h -> cs <> [] ->
  exists h', set_next (<[l := mkElement None k x]> h) (last L) (Some l) = Ok h' /\
    cells h' (mkList (first L) (Some l)) (cs ++ [(l, (k, x))]) /\
    local_update h cs h' (cs ++ [(l, (k, x))]).
Proof.
  intros (Hs & Hlast & Hnd) Hl Hne.
  destruct (exists_last Hne) as (cs0 & [ll [kl xl]] & ->).
  rewrite last_snoc in Hlast. simpl in Hlast. rewrite Hlast.
  pose proof (seg_dom _ _ _ _ Hs) as Hdom.
  rewrite fmap_app in Hdom, Hnd. simpl in Hdom, Hnd.
  apply NoDup_app in Hnd as (Hnd0 & Hd & _).
  assert (l <> ll) by (intros ->; apply Hl, Hdom; set_solver).
  apply seg_app in Hs as (r & Hs0 & -> & q & Hll & Hq). simpl in Hq. subst q.
  erewrite set_next_Some by (by rewrite lookup_insert_ne).
  eexists. split; [done|]. simpl. split; [split; [|split]|split].
  - apply seg_app. exists (Some l). split.
    + apply seg_app. exists (Some ll). split.
      * apply seg_frame_insert; [intros ?; by eapply Hd, list_elem_of_singleton|].
        apply seg_frame_insert; [|done]. intros ?. apply Hl, Hdom. set_solver.
      * simpl. split; [done|]. exists (Some l). by rewrite lookup_insert_eq.
    + simpl. split; [done|]. exists None. by rewrite lookup_insert_ne, lookup_insert_eq.
  - simpl. by rewrite last_snoc.
  - rewrite !fmap_app. simpl. apply NoDup_app. split_and!; [|set_solver|apply NoDup_singleton].
    apply NoDup_app. split_and!; [done|done|apply NoDup_singleton].
  - intros l' Hl' Hn. rewrite fmap_app in Hn. simpl in Hn.
    rewrite lookup_insert_ne, lookup_insert_ne by set_solver. done.
  - rewrite !fmap_app. intros l'. simpl. set_solver.
Qed.

(** Linking a fresh cell in front. *)
Lemma push_cells h L cs (l : nat) k x :
  cells h L cs -> l ∉ dom h -> cs <> [] ->
  exists h', set_next (<[l := mkElement None k x]> h) (Some l) (first L) = Ok h' /\
    cells h' (mkList (Some l) (last L)) ((l, (k, x)) :: cs) /\
    local_update h cs h' ((l, (k, x)) :: cs).
Proof.
  intros (Hs & Hlast & Hnd) Hl Hne. pose proof (seg_dom _ _ _ _ Hs) as Hdom.
  erewrite set_next_Some by apply lookup_insert_eq.
  eexists. split; [done|]. simpl. rewrite insert_insert_eq.
  assert (l ∉ cs.*1) by auto.
  split; [split; [|split]|split]; simpl.
  - split; [done|]. exists (first L). rewrite lookup_insert_eq.
    split; [done|]. by apply seg_frame_insert.
  - rewrite Hlast. by destruct cs.
  - by apply NoDup_cons.
  - intros l' ? ?. rewrite lookup_insert_ne; [done|]. by intros ->.
  - intros l'. rewrite elem_of_cons. naive_solver.
Qed.

Lemma single_cells h (l : nat) k x :
  l ∉ dom h ->
  cells (<[l := mkElement None k x]> h) (mkList (Some l) (Some l)) [(l, (k, x))] /\
  local_update h [] (<[l := mkElement None k x]> h) [(l, (k, x))].
Proof.
  intros Hl. split; [split; [|split]|split]; simpl.
  - split; [done|]. exists None. by rewrite lookup_insert_eq.
  - done.
  - apply NoDup_singleton.
  - intros l' ? _. rewrite lookup_insert_ne; [done|]. by intros ->.
  - intros l'. rewrite list_elem_of_singleton. naive_solver.
Qed.

Lemma Append_cells h L cs x :
  cells h L cs ->
  exists h' L' l, Append x (h, L) = Ok (h', L', tt) /\
    cells h' L' (cs ++ [(l, (0, x))]) /\ local_update h cs h' (cs ++ [(l, (0, x))]).
Proof.
  intros Hc. unfold Append. destruct (ListElement_new h x 0) as [h1 l] eqn:E.
  apply new_fresh in E as [Hl ->]. rewrite (IsEmpty_cells h L cs Hc).
  case_bool_decide as Hcs.
  - subst. destruct (single_cells h l 0 x Hl). eexists _, _, l. by split_and!.
  - destruct (append_cells h L cs l 0 x) as (h' & -> & ? & ?); [done..|].
    eexists _, _, l. by split_and!.
Qed.

Lemma Prepend_cells h L cs x :
  cells h L cs ->
  exists h' L' l, Prepend x (h, L) = Ok (h', L', tt) /\
    cells h' L' ((l, (0, x)) :: cs) /\ local_update h cs h' ((l, (0, x)) :: cs).
Proof.
  intros Hc. unfold Prepend. destruct (ListElement_new h x 0) as [h1 l] eqn:E.
  apply new_fresh in E as [Hl ->]. rewrite (IsEmpty_cells h L cs Hc).
  case_bool_decide as Hcs.
  - subst. destruct (single_cells h l 0 x Hl). eexists _, _, l. by split_and!.
  - destruct (push_cells h L cs l 0 x) as (h' & -> & ? & ?); [done..|].
    eexists _, _, l. by split_and!.
Qed.

Lemma SortedRemove_cells h L cs :
  cells h L cs ->
  exists h' L', SortedRemove (h, L) = Ok (h', L', snd <$> head cs) /\
    cells h' L' (tail cs) /\ local_update h cs h' (tail cs).
Proof.
  intros Hc. unfold SortedRemove. rewrite (IsEmpty_cells h L cs Hc).
  case_bool_decide as Hcs.
  { subst. eexists _, _. split; [done|]. split; [done|]. split; [done|set_solver]. }
  destruct cs as [|[l [k x]] cs]; [done|]. clear Hcs.
  destruct Hc as ((Hf & r & Hl & Hs) & Hlast & Hnd). rewrite Hf, (load_Some h l _ Hl).
  simpl in Hnd. apply NoDup_cons in Hnd as [Hni Hnd]. simpl.
  assert (local_update h ((l, (k, x)) :: cs) (delete l h) cs) as Hloc.
  { split; simpl; [|set_solver]. intros l' _ Hn. apply lookup_delete_ne. set_solver. }
  apply (seg_frame_delete _ _ _ _ l) in Hs; [|done].
  destruct cs as [|[l' [k' x']] cs].
  - simpl in Hlast, Hs. subst. rewrite Hlast, decide_True by done. simpl.
    eexists _, _. split; [done|]. split; [|done]. split_and!; [done|done|constructor].
  - rewrite decide_False.
    2: { rewrite Hlast, last_cons_cons. intros E. apply Hni.
         destruct (list.last ((l', (k', x')) :: cs)) as [c|] eqn:El; simplify_eq/=.
         apply (list_elem_of_fmap_2 fst ((l', (k', x')) :: cs)).
         by apply last_Some_elem_of. }
    simpl. eexists _, _. split; [done|]. split; [|done]. split_and!; [done|done|done].
Qed.

Lemma sorted_insert_app (k : Z) (x : A) xs1 xs2 :
  Forall (fun p => p.1 <= k) xs1 -> (forall p, head xs2 = Some p -> k < p.1) ->
  sorted_insert k x (xs1 ++ xs2) = xs1 ++ (k, x) :: xs2.
Proof.
  intros H1 H2. induction H1 as [|[k1 y1] xs1 Hk _ IH]; simpl in *.
  - destruct xs2 as [|[k2 y2] xs2]; simpl; [done|].
    rewrite decide_True; [done|]. by apply (H2 (k2, y2)).
  - rewrite decide_False by lia. by rewrite IH.
Qed.

(** The walk finds the split point, and links the new cell there. *)
Lemma insert_walk_cells fuel h (a l : nat) ka xa cs k x e :
  (length cs < fuel)%nat ->
  seg h (Some a) ((a, (ka, xa)) :: cs) None ->
  NoDup (a :: cs.*1) -> l ∉ a :: cs.*1 ->
  h !! l = Some (mkElement e k x) -> ka <= k ->
  (insert_walk fuel h (Some a) l k = Ok (h, false) /\ Forall (fun p => p.1 <= k) cs.*2) \/
  exists h' cs1 c2 cs2, insert_walk fuel h (Some a) l k = Ok (h', true) /\
    cs = cs1 ++ c2 :: cs2 /\ Forall (fun p => p.1 <= k) cs1.*2 /\ k < c2.2.1 /\
    seg h' (Some a) ((a, (ka, xa)) :: cs1 ++ (l, (k, x)) :: c2 :: cs2) None /\
    (forall l', l' ∉ l :: a :: cs.*1 -> h' !! l' = h !! l').
Proof.
  revert a ka xa fuel. induction cs as [|[b [kb xb]] cs IH];
    intros a ka xa [|fuel] Hfuel Hs Hnd Hni Hl Hk; simpl in Hfuel; try lia;
    destruct Hs as (_ & r & Ha & Hs); cbn [insert_walk];
    rewrite (load_Some _ _ _ Ha); simpl.
  { simpl in Hs. subst. left. split; [done|constructor]. }
  pose proof Hs as (-> & q & Hb & Hs'). rewrite (load_Some _ _ _ Hb). simpl in *.
  rewrite !NoDup_cons, !elem_of_cons in Hnd. rewrite !elem_of_cons in Hni.
  case_decide as Hkb.
  - right. erewrite set_next_Some by done. simpl.
    erewrite set_next_Some by (rewrite lookup_insert_ne by naive_solver; done). simpl.
    eexists _, [], (b, (kb, xb)), cs. split; [done|].
    split; [done|]. split; [constructor|]. split; [done|]. split.
    + split; [done|]. exists (Some l). rewrite lookup_insert_eq. split; [done|].
      split; [done|]. exists (Some b).
      rewrite lookup_insert_ne, lookup_insert_eq by naive_solver. split; [done|].
      apply seg_frame_insert; [simpl; set_solver|].
      apply seg_frame_insert; [simpl; set_solver|]. simpl. eauto.
    + intros l' Hl'. rewrite !lookup_insert_ne by set_solver. done.
  - destruct (IH b kb xb fuel) as [[Hw HF]|Hw]; [lia|done|apply NoDup_cons; naive_solver
      |rewrite elem_of_cons; naive_solver|done|lia|..].
    + left. rewrite Hw. split; [done|]. constructor; [simpl; lia|done].
    + right. destruct Hw as (h' & cs1 & c2 & cs2 & -> & -> & HF & Hc & Hseg & Hfr).
      exists h', ((b, (kb, xb)) :: cs1), c2, cs2.
      split; [done|]. split; [done|]. split; [by constructor; [simpl; lia|]|].
      split; [done|]. split.
      * split; [done|]. exists (Some b). split; [|done].
        rewrite Hfr; [done|]. rewrite !elem_of_cons. naive_solver.
      * intros l' Hl'. apply Hfr. set_solver.
Qed.

Lemma SortedInsert_cells h L cs x k :
  cells h L cs ->
  exists h' L' cs', SortedInsert x k (h, L) = Ok (h', L', tt) /\
    cells h' L' cs' /\ cs'.*2 = sorted_insert k x cs.*2 /\ local_update h cs h' cs'.
Proof.
  intros Hc. unfold SortedInsert. destruct (ListElement_new h x k) as [h1 l] eqn:E.
  apply new_fresh in E as [Hl ->]. rewrite (IsEmpty_cells h L cs Hc).
  case_bool_decide as Hcs.
  { subst. destruct (single_cells h l k x Hl). eexists _, _, _. by split_and!. }
  destruct cs as [|[a [ka xa]] cs]; [done|].
  pose proof Hc as (Hs & Hlast & Hnd). pose proof (seg_dom _ _ _ _ Hs) as Hdom.
  pose proof Hs as (Hf & r & Ha & _).
  assert (l ∉ a :: cs.*1) as Hni by (intros ?; by apply Hl, Hdom).
  apply (seg_frame_insert _ _ _ _ l (mkElement None k x)) in Hs; [|done].
  rewrite Hf in Hs |- *. unfold load at 1. simpl.
  rewrite lookup_insert_ne, Ha by set_solver. simpl. case_decide as Hk.
  - rewrite <-Hf. destruct (push_cells h L ((a, (ka, xa)) :: cs) l k x) as (h' & -> & ? & ?);
      [done..|]. eexists _, _, _. by split_and!.
  - destruct (insert_walk_cells (size (<[l := mkElement None k x]> h))
      (<[l := mkElement None k x]> h) a l ka xa cs k x None) as [[-> HF]|Hw];
      [|done|done|done|by rewrite lookup_insert_eq|lia|..].
    { rewrite map_size_insert_None by (by apply not_elem_of_dom).
      pose proof (seg_size h _ _ _ (proj1 Hc) Hnd). simpl in *. lia. }
    + simpl. rewrite <-Hf.
      destruct (append_cells h L ((a, (ka, xa)) :: cs) l k x) as (h' & -> & ? & ?); [done..|].
      eexists _, _, _. split_and!; [done|done| |done].
      rewrite fmap_app. csimpl. f_equal.
      rewrite <-(app_nil_r cs.*2) at 2. by rewrite sorted_insert_app.
    + destruct Hw as (h' & cs1 & c2 & cs2 & -> & -> & HF & Hkc & Hs' & Hfr). simpl.
      eexists _, _, _. split_and!; [done|..].
      * split; [by rewrite Hf|]. rewrite Hlast. split.
        { f_equal. change (?x :: ?y ++ ?z) with ((x :: y) ++ z). by rewrite !last_app_cons, last_cons_cons. }
        simpl in *. rewrite !fmap_app in *. simpl in *.
        assert (Permutation (a :: cs1.*1 ++ l :: c2.1 :: cs2.*1)
                            (l :: a :: cs1.*1 ++ c2.1 :: cs2.*1)) as ->.
        { rewrite <-Permutation_middle. apply Permutation_swap. }
        by apply NoDup_cons.
      * csimpl. rewrite !fmap_app. csimpl. f_equal.
        rewrite sorted_insert_app; [by destruct c2|done|]. simpl. by intros ? [= <-].
      * split; intros l' Hl'.
        -- intros Hn. assert (l' <> l) by (by intros ->).
           rewrite Hfr, lookup_insert_ne by set_solver. done.
        -- simpl in *. rewrite !fmap_app in *. simpl in *. set_solver.
Qed.

Lemma mapcar_walk_seg fuel h p cs :
  (length cs <= fuel)%nat -> seg h p cs None ->
  mapcar_walk fuel h p = Ok (cs.*2).*2.
Proof.
  revert p fuel. induction cs as [|[a [k x]] cs IH]; intros p fuel Hf Hs; simpl in *.
  - subst. by destruct fuel.
  - destruct Hs as (-> & r & Ha & Hs). destruct fuel as [|fuel]; [lia|]. cbn [mapcar_walk].
    rewrite (load_Some _ _ _ Ha). simpl. by rewrite IH by (done || lia).
Qed.

Lemma exec_cells o h L cs :
  cells h L cs ->
  exists h' L' cs', exec o (h, L) = Ok (h', L', (exec_spec o cs.*2).2) /\
    cells h' L' cs' /\ cs'.*2 = (exec_spec o cs.*2).1 /\ local_update h cs h' cs'.
Proof.
  intros Hc. assert (local_update h cs h cs) as Hid by (split; [done|auto]).
  destruct o as [x|x|x k| | | |]; cbn [exec exec_spec fst snd].
  - destruct (Append_cells h L cs x Hc) as (h' & L' & l & -> & ? & ?).
    eexists _, _, _. simpl. split_and!; [done..| |done]. by rewrite fmap_app.
  - destruct (Prepend_cells h L cs x Hc) as (h' & L' & l & -> & ? & ?).
    eexists _, _, _. simpl. by split_and!.
  - destruct (SortedInsert_cells h L cs x k Hc) as (h' & L' & cs' & -> & ? & ? & ?).
    eexists _, _, _. simpl. by split_and!.
  - unfold Remove. destruct (SortedRemove_cells h L cs Hc) as (h' & L' & -> & ? & ?).
    eexists _, _, _. simpl. split_and!; [by destruct cs as [|[? [? ?]] ?]|done|by destruct cs|done].
  - destruct (SortedRemove_cells h L cs Hc) as (h' & L' & -> & ? & ?).
    eexists _, _, _. simpl. split_and!; [by destruct cs|done|by destruct cs|done].
  - eexists _, _, _. split_and!; [|done|done|done]. rewrite (IsEmpty_cells h L cs Hc).
    by destruct cs.
  - unfold Mapcar. destruct Hc as (Hs & Hr). rewrite (mapcar_walk_seg _ _ _ cs); [|
      eapply seg_size; naive_solver|done]. simpl. eexists _, _, _. by split_and!.
Qed.

Lemma local_update_frame h cs h' cs' L2 cs2 :
  local_update h cs h' cs' -> cells h L2 cs2 -> cs.*1 ## cs2.*1 ->
  cells h' L2 cs2 /\ cs'.*1 ## cs2.*1.
Proof.
  intros [Hk Hf] (Hs & Hl & Hnd) Hd. pose proof (seg_dom _ _ _ _ Hs) as Hdom.
  split; [split; [|done]|].
  - eapply seg_frame; [|done]. intros l ?. apply Hk; [auto|]. set_solver.
  - intros l H1 H2. destruct (Hf l H1); [set_solver|]. naive_solver.
Qed.

Lemma run_cells os h L cs :
  cells h L cs ->
  exists h' L' cs', run os (h, L) = Ok (h', L', (run_spec os cs.*2).2) /\
    cells h' L' cs' /\ cs'.*2 = (run_spec os cs.*2).1 /\
    forall L2 cs2, cells h L2 cs2 -> cs.*1 ## cs2.*1 ->
      cells h' L2 cs2 /\ cs'.*1 ## cs2.*1.
Proof.
  revert h L cs. induction os as [|o os IH]; intros h L cs Hc; simpl.
  { eexists _, _, _. split_and!; done. }
  destruct (exec_cells o h L cs Hc) as (h1 & L1 & cs1 & -> & Hc1 & E1 & Hu). simpl.
  destruct (IH h1 L1 cs1 Hc1) as (h' & L' & cs' & -> & Hc' & E' & Hfr). simpl.
  destruct (exec_spec o cs.*2) as [xs1 r1]. simpl in *. rewrite E1 in *.
  destruct (run_spec os xs1) as [xs' rs]. simpl in *.
  eexists _, _, _. split_and!; [done..|]. intros L2 cs2 H2 Hd.
  destruct (local_update_frame h cs h1 cs1 L2 cs2) as [? ?]; [done..|]. by apply Hfr.
Qed.

Lemma destroy_loop_cells fuel h L cs :
  (length cs < fuel)%nat -> cells h L cs ->
  exists h' L', destroy_loop fuel (h, L) = Ok (h', L') /\ cells h' L' [].
Proof.
  revert h L cs. induction fuel as [|fuel IH]; intros h L cs Hf Hc; [lia|]. simpl.
  unfold Remove. destruct (SortedRemove_cells h L cs Hc) as (h' & L' & -> & Hc' & _). simpl.
  destruct cs as [|[l [k x]] cs]; simpl in *; [eauto|].
  apply (IH _ _ cs); [lia|done].
Qed.

Definition key_le (p q : Z * A) : Prop := p.1 <= q.1.

Lemma sorted_insert_Permutation k (x : A) xs :
  Permutation (sorted_insert k x xs) ((k, x) :: xs).
Proof.
  induction xs as [|[k' y] xs IH]; simpl; [done|]. case_decide; [done|].
  rewrite IH. apply Permutation_swap.
Qed.

Lemma sorted_insert_sorted k (x : A) xs :
  StronglySorted key_le xs -> StronglySorted key_le (sorted_insert k x xs).
Proof.
  induction 1 as [|[k' y] xs Hs IH HF]; simpl; [repeat constructor|].
  case_decide.
  - constructor; [by constructor|]. constructor; [unfold key_le; simpl; lia|].
    eapply Forall_impl; [done|]. unfold key_le. simpl. intros. lia.
  - constructor; [done|]. rewrite sorted_insert_Permutation.
    constructor; [unfold key_le; simpl; lia|done].
Qed.

(** Among equal keys the new pair comes last. *)
Lemma sorted_insert_stable k (x : A) xs :
  StronglySorted key_le xs ->
  filter (fun p => p.1 = k) (sorted_insert k x xs) = filter (fun p => p.1 = k) xs ++ [(k, x)].
Proof.
  induction 1 as [|[k' y] xs Hs IH HF]; simpl.
  { by rewrite filter_cons_True. }
  case_decide as Hk.
  - rewrite filter_cons_True by done.
    assert (filter (fun p => p.1 = k) ((k', y) :: xs) = []) as ->; [|done].
    assert (Forall (fun p => p.1 <> k) ((k', y) :: xs)) as HF'.
    { constructor; [simpl; lia|]. eapply Forall_impl; [done|]. unfold key_le. simpl. lia. }
    clear -HF'. induction HF' as [|p ps Hp _ IH]; [done|].
    by rewrite filter_cons_False.
  - rewrite !filter_cons, IH. by case_decide.
Qed.
End Proofs.

(** * Properties *)

(** C16: Any sequence of list operations run on the heap of [ListElement]s
    never dereferences NULL or a deleted cell, never loops, returns exactly
    what the abstract list of (key, item) pairs returns and ends in a heap
    that represents the abstract result; every other list of the heap is
    preserved and stays disjoint. *)
Theorem run_refines {A} (os : list (op A)) h L fp xs :
  is_list h L fp xs ->
  exists h' L' fp', run os (h, L) = Ok (h', L', (run_spec os xs).2) /\
    is_list h' L' fp' (run_spec os xs).1 /\
    forall L2 fp2 ys, is_list h L2 fp2 ys -> fp ## fp2 ->
      is_list h' L2 fp2 ys /\ fp' ## fp2.
Proof.
  intros (cs & Hc & <- & <-).
  destruct (run_cells os h L cs Hc) as (h' & L' & cs' & Hr & Hc' & E & Hfr).
  exists h', L', cs'.*1. split; [done|]. split.
  - exists cs'. by rewrite E.
  - intros L2 fp2 ys (cs2 & H2 & <- & <-) Hd.
    destruct (Hfr L2 cs2 H2 Hd) as [? ?]. split; [|done]. by exists cs2.
Qed.

(** [SortedInsert] keeps the list sorted by key, adds exactly the given
    pair, and queues it behind every pair with the same key (so equal
    priorities are served first come, first served). *)
Theorem SortedInsert_sorted_stable {A} h L fp xs (x : A) k :
  is_list h L fp xs -> StronglySorted key_le xs ->
  exists h' L' fp' xs', SortedInsert x k (h, L) = Ok (h', L', tt) /\
    is_list h' L' fp' xs' /\ StronglySorted key_le xs' /\
    Permutation xs' ((k, x) :: xs) /\
    filter (fun p => p.1 = k) xs' = filter (fun p => p.1 = k) xs ++ [(k, x)].
Proof.
  intros (cs & Hc & <- & <-) Hs.
  destruct (SortedInsert_cells h L cs x k Hc) as (h' & L' & cs' & Hr & Hc' & E & _).
  exists h', L', cs'.*1, cs'.*2. split; [done|]. split; [by exists cs'|]. rewrite E.
  split_and!; [by apply sorted_insert_sorted|apply sorted_insert_Permutation|].
  by apply sorted_insert_stable.
Qed.

(** The destructor's [while (Remove() != NULL)] terminates and leaves an
    empty list. *)
Theorem List_delete_terminates {A} (h : gmap nat (ListElement A)) L fp xs :
  is_list h L fp xs ->
  exists h' L', List_delete (h, L) = Ok (h', L') /\ is_list h' L' [] [].
Proof.
  intros (cs & Hc & _). unfold List_delete. simpl.
  pose proof Hc as (Hs & _ & Hnd). pose proof (seg_size _ _ _ _ Hs Hnd).
  destruct (destroy_loop_cells (S (size h)) h L cs) as (h' & L' & ? & ?); [lia|done|].
  exists h', L'. split; [done|]. by exists [].
Qed.

(** ** Witnesses *)
Lemma List_new_empty {A} (h : gmap nat (ListElement A)) : is_list h List_new [] [].
Proof. exists []. split_and!; try done. split_and!; [done|done|constructor]. Qed.

Example run_refines_witness :
  exists h' L' fp',
    run [OSortedInsert 7%nat 3; OSortedInsert 8%nat 1; ORemove; OMapcar] (∅, List_new)
      = Ok (h', L', [RUnit; RUnit; RItem (Some 8%nat); RItems [7%nat]]) /\
    is_list h' L' fp' [(3, 7%nat)].
Proof.
  destruct (run_refines [OSortedInsert 7%nat 3; OSortedInsert 8%nat 1; ORemove; OMapcar]
    ∅ List_new [] [] (List_new_empty ∅)) as (h' & L' & fp' & H1 & H2 & _).
  exists h', L', fp'. split; [exact H1|exact H2].
Defined.

Example SortedInsert_sorted_stable_witness :
  exists h' L', SortedInsert 7%nat 3 (∅, List_new) = Ok (h', L', tt).
Proof.
  destruct (SortedInsert_sorted_stable ∅ List_new [] [] 7%nat 3 (List_new_empty ∅)
    (SSorted_nil _)) as (h' & L' & fp' & xs' & H & _).
  exists h', L'. exact H.
Defined.

Example List_delete_terminates_witness :
  exists h' L', List_delete (A:=nat) (∅, List_new) = Ok (h', L').
Proof.
  destruct (List_delete_terminates (A:=nat) ∅ List_new [] [] (List_new_empty ∅))
    as (h' & L' & H & _).
  exists h', L'. exact H.
Defined.
