(* ===== verification/Machine.v ===== *)
(** * machine/machine.cc, machine/translate.cc: registers, memory, translation

    The simulated hardware a user program runs on: the register file with its
    delayed load, main memory as bytes, address translation by a linear page
    table or a TLB, and the access routines [ReadMem] and [WriteMem], which
    trap to the kernel through [RaiseException]. The kernel is a parameter
    here ([Class Kernel]): the machine only knows [ExceptionHandler]. *)
From S2P Require Import Prelude.

Definition SectorSize : Z := 128.
Definition PageSize : Z := SectorSize.
Definition NumPhysPages : Z := 4096.
Definition MemorySize : Z := NumPhysPages * PageSize.
Definition TLBSize : Z := 4.

Inductive ExceptionType :=
  | NoException | SyscallException | PageFaultException | ReadOnlyException
  | BusErrorException | AddressErrorException | OverflowException
  | IllegalInstrException.

#[global] Instance ExceptionType_eq_dec : EqDecision ExceptionType.
Proof. solve_decision. Defined.

Definition StackReg : Z := 29.
Definition RetAddrReg : Z := 31.
Definition NumGPRegs : Z := 32.
Definition HiReg : Z := 32.
Definition LoReg : Z := 33.
Definition PCReg : Z := 34.
Definition NextPCReg : Z := 35.
Definition PrevPCReg : Z := 36.
Definition LoadReg : Z := 37.
Definition LoadValueReg : Z := 38.
Definition BadVAddrReg : Z := 39.
Definition NumTotalRegs : Z := 40.

(** machine/translate.h *)
Record TranslationEntry := mkEntry {
  virtualPage : Z;
  physicalPage : Z;
  valid : bool;
  readOnly : bool;
  use : bool;
  dirty : bool
}.

Inductive MachineStatus := IdleMode | SystemMode | UserMode.
#[global] Instance MachineStatus_eq_dec : EqDecision MachineStatus.
Proof. solve_decision. Defined.

(** The data members of [Machine], with [interrupt]'s status and
    [stats->totalTicks], which its routines read and set. Memory maps an
    address below [MemorySize] to a byte, 0 where nothing was written (the
    constructor clears it). A [NULL] table is [None]. *)
Record Machine := mkMachine {
  mainMemory : gmap Z Z;
  registers : list Z;
  tlb : option (list TranslationEntry);
  pageTable : option (list TranslationEntry);
  pageTableSize : Z;
  lastUsed : gmap Z Z;
  status : MachineStatus;
  totalTicks : Z
}.

Definition set_memory (m : Machine) (x : gmap Z Z) : Machine :=
  mkMachine x (registers m) (tlb m) (pageTable m) (pageTableSize m) (lastUsed m)
    (status m) (totalTicks m).
Definition set_registers (m : Machine) (x : list Z) : Machine :=
  mkMachine (mainMemory m) x (tlb m) (pageTable m) (pageTableSize m) (lastUsed m)
    (status m) (totalTicks m).
Definition set_tlb (m : Machine) (x : option (list TranslationEntry)) : Machine :=
  mkMachine (mainMemory m) (registers m) x (pageTable m) (pageTableSize m)
    (lastUsed m) (status m) (totalTicks m).
Definition set_pageTable (m : Machine) (x : option (list TranslationEntry)) : Machine :=
  mkMachine (mainMemory m) (registers m) (tlb m) x (pageTableSize m)
    (lastUsed m) (status m) (totalTicks m).
Definition set_lastUsed (m : Machine) (x : gmap Z Z) : Machine :=
  mkMachine (mainMemory m) (registers m) (tlb m) (pageTable m) (pageTableSize m) x
    (status m) (totalTicks m).
Definition set_status (m : Machine) (x : MachineStatus) : Machine :=
  mkMachine (mainMemory m) (registers m) (tlb m) (pageTable m) (pageTableSize m)
    (lastUsed m) x (totalTicks m).

(** [Machine::Machine] with USE_TLB: registers and memory cleared, the last-use
    times set to now, a TLB of invalid entries ([garbage] elsewhere). *)
Definition Machine_new (ticks : Z) (garbage : nat -> TranslationEntry) : Machine :=
  mkMachine ∅ (replicate (Z.to_nat NumTotalRegs) 0)
    (Some ((fun i => let e := garbage i in
              mkEntry (virtualPage e) (physicalPage e) false (readOnly e) (use e) (dirty e))
           <$> seq 0 (Z.to_nat TLBSize)))
    None 0
    (list_to_map ((fun p => (p, ticks)) <$> seqZ 0 NumPhysPages))
    SystemMode ticks.

Definition getTimeUsed (m : Machine) (pageNo : Z) : Z :=
  if bool_decide (pageNo < 0) || bool_decide (pageNo >= NumPhysPages) then -1
  else default 0 (lastUsed m !! pageNo).

Definition ReadRegister (m : Machine) (num : Z) : res Z :=
  let* _ := ASSERT (bool_decide (num >= 0) && bool_decide (num < NumTotalRegs)) in
  arr_get (registers m) num.

Definition WriteRegister (m : Machine) (num value : Z) : res Machine :=
  let* _ := ASSERT (bool_decide (num >= 0) && bool_decide (num < NumTotalRegs)) in
  let* r := arr_set (registers m) num value in
  Ok (set_registers m r).

(** Registers accessed as the array they are. *)
Definition reg_get (m : Machine) (num : Z) : res Z := arr_get (registers m) num.
Definition reg_set (m : Machine) (num value : Z) : res Machine :=
  let* r := arr_set (registers m) num value in Ok (set_registers m r).

Definition DelayedLoad (m : Machine) (nextReg nextValue : Z) : res Machine :=
  let* lr := reg_get m LoadReg in
  let* lv := reg_get m LoadValueReg in
  let* m := reg_set m lr lv in
  let* m := reg_set m LoadReg nextReg in
  let* m := reg_set m LoadValueReg nextValue in
  reg_set m 0 0.

(** The host is little-endian: the conversions are the identity. *)
Definition WordToHost (w : Z) : Z := w.
Definition ShortToHost (w : Z) : Z := w.
Definition WordToMachine (w : Z) : Z := WordToHost w.
Definition ShortToMachine (w : Z) : Z := ShortToHost w.

(** Bytes of [mainMemory]; multi-byte accesses are little-endian. *)
Definition mem_byte (mem : gmap Z Z) (a : Z) : res Z :=
  if decide (0 <= a < MemorySize) then Ok (default 0 (mem !! a)) else Fault OutOfBounds.
Definition mem_set_byte (mem : gmap Z Z) (a v : Z) : res (gmap Z Z) :=
  if decide (0 <= a < MemorySize) then Ok (<[a := u8 v]> mem) else Fault OutOfBounds.

Fixpoint load_bytes (n : nat) (mem : gmap Z Z) (a : Z) : res Z :=
  match n with
  | O => Ok 0
  | S n' =>
      let* b := mem_byte mem a in
      let* r := load_bytes n' mem (a + 1) in
      Ok (Z.lor b (Z.shiftl r 8))
  end.

Fixpoint store_bytes (n : nat) (mem : gmap Z Z) (a v : Z) : res (gmap Z Z) :=
  match n with
  | O => Ok mem
  | S n' =>
      let* mem' := mem_set_byte mem a v in
      store_bytes n' mem' (a + 1) (Z.shiftr v 8)
  end.

(** The search loop of [Translate]: index of the first valid entry for [vpn]. *)
Fixpoint tlb_search (n : nat) (t : list TranslationEntry) (i vpn : Z) : res (option Z) :=
  match n with
  | O => Ok None
  | S n' =>
      let* e := arr_get t i in
      if valid e && (u32 (virtualPage e) =? vpn) then Ok (Some i)
      else tlb_search n' t (i + 1) vpn
  end.

Definition is_null {A} (p : option A) : bool := match p with None => true | _ => false end.

(** [entry->use = TRUE; if (writing) entry->dirty = TRUE;] *)
Definition touch (e : TranslationEntry) (writing : bool) : TranslationEntry :=
  mkEntry (virtualPage e) (physicalPage e) (valid e) (readOnly e) true
    (if writing then true else dirty e).

(** The result of a translation: an exception or the physical address. *)
Abbreviation translation := (ExceptionType + Z)%type.

(** The entry a virtual page is looked up in: its table (true: the TLB), its
    index and its contents, or the exception. *)
Definition find_entry (m : Machine) (vpn : Z) :
    res (ExceptionType + (bool * Z * TranslationEntry)) :=
  match tlb m with
  | None =>
      let* pt := deref (pageTable m) in
      if vpn >=? pageTableSize m then Ok (inl AddressErrorException)
      else
        let* e := arr_get pt vpn in
        if negb (valid e) then Ok (inl PageFaultException)
        else Ok (inr (false, vpn, e))
  | Some t =>
      let* r := tlb_search (Z.to_nat TLBSize) t 0 vpn in
      match r with
      | None => Ok (inl PageFaultException)
      | Some i => let* e := arr_get t i in Ok (inr (true, i, e))
      end
  end.

(** Writing an entry back into the table it came from. *)
Definition update_entry (m : Machine) (in_tlb : bool) (i : Z) (e : TranslationEntry) : res Machine :=
  if in_tlb then
    let* t := deref (tlb m) in let* t' := arr_set t i e in Ok (set_tlb m (Some t'))
  else
    let* t := deref (pageTable m) in let* t' := arr_set t i e in Ok (set_pageTable m (Some t')).

Definition Translate (m : Machine) (virtAddr size : Z) (writing : bool) :
    res (Machine * translation) :=
  if ((size =? 4) && negb (Z.land virtAddr 3 =? 0))
     || ((size =? 2) && negb (Z.land virtAddr 1 =? 0))
  then Ok (m, inl AddressErrorException)
  else
    let* _ := ASSERT (is_null (tlb m) || is_null (pageTable m)) in
    let* _ := ASSERT (negb (is_null (tlb m)) || negb (is_null (pageTable m))) in
    let vpn := u32 virtAddr / PageSize in
    let offset := u32 virtAddr mod PageSize in
    let* r := find_entry m vpn in
    match r with
    | inl ex => Ok (m, inl ex)
    | inr (in_tlb, i, entry) =>
        if readOnly entry && writing then Ok (m, inl ReadOnlyException)
        else
          let pageFrame := u32 (physicalPage entry) in
          if pageFrame >=? NumPhysPages then Ok (m, inl BusErrorException)
          else
            let* m := update_entry m in_tlb i (touch entry writing) in
            let physAddr := i32 (u32 (u32 (pageFrame * PageSize) + offset)) in
            let* _ := ASSERT (bool_decide (physAddr >= 0)
                              && bool_decide (physAddr + size <= MemorySize)) in
            Ok (m, inr physAddr)
    end.

(** ** The trap to the kernel

    [Kernel K] is what the machine needs of the kernel whose own state is [K]:
    the entry point [ExceptionHandler], which may change everything. *)
Class Kernel (K : Type) := {
  ExceptionHandler : ExceptionType -> ST (Machine * K) unit
}.

Section Trap.
Context {K : Type} `{!Kernel K}.
Abbreviation world := (Machine * K)%type.

(** Running a [Machine] routine inside the whole state. *)
Definition on_machine {A} (f : Machine -> res (Machine * A)) : ST world A :=
  fun '(m, k) => let* '(m', a) := f m in Ok ((m', k), a).
Definition on_machine_ (f : Machine -> res Machine) : ST world unit :=
  fun '(m, k) => let* m' := f m in Ok ((m', k), tt).

Definition RaiseException (which : ExceptionType) (badVAddr : Z) : ST world unit :=
  on_machine_ (fun m => reg_set m BadVAddrReg badVAddr) ;;;
  on_machine_ (fun m => DelayedLoad m 0 0) ;;;
  on_machine_ (fun m => Ok (set_status m SystemMode)) ;;;
  ExceptionHandler which ;;;
  on_machine_ (fun m => Ok (set_status m UserMode)).

(** [lastUsed[(unsigned) physicalAddress / PageSize] = totalTicks] *)
Definition stamp (m : Machine) (physicalAddress : Z) : Machine :=
  set_lastUsed m (<[u32 physicalAddress / PageSize := totalTicks m]> (lastUsed m)).

(** The [switch (size)] of [ReadMem]: a [char] is sign-extended. *)
Definition mem_read (mem : gmap Z Z) (pa size : Z) : res Z :=
  match size with
  | 1 => let* b := mem_byte mem pa in Ok (i8 b)
  | 2 => let* d := load_bytes 2 mem pa in Ok (ShortToHost d)
  | 4 => let* d := load_bytes 4 mem pa in Ok (i32 (WordToHost d))
  | _ => Fault AssertFail
  end.

Definition mem_write (mem : gmap Z Z) (pa size value : Z) : res (gmap Z Z) :=
  match size with
  | 1 => mem_set_byte mem pa (Z.land value 255)
  | 2 => store_bytes 2 mem pa (ShortToMachine (Z.land value 65535))
  | 4 => store_bytes 4 mem pa (WordToMachine (u32 value))
  | _ => Fault AssertFail
  end.

(** The part of [ReadMem] after a successful translation. *)
Definition ReadMem_at (m : Machine) (pa size : Z) : res (Machine * Z) :=
  let* v := mem_read (mainMemory m) pa size in Ok (stamp m pa, v).

Definition WriteMem_at (m : Machine) (pa size value : Z) : res Machine :=
  let* mem := mem_write (mainMemory m) pa size value in Ok (stamp (set_memory m mem) pa).

(** [Some v] is TRUE with [*value = v]; [None] is FALSE. *)
Definition ReadMem (addr size : Z) : ST world (option Z) :=
  r <- on_machine (fun m => Translate m addr size false) ;;
  match r with
  | inl ex => RaiseException ex addr ;;; sret None
  | inr pa => v <- on_machine (fun m => ReadMem_at m pa size) ;; sret (Some v)
  end.

Definition WriteMem (addr size value : Z) : ST world bool :=
  r <- on_machine (fun m => Translate m addr size true) ;;
  match r with
  | inl ex => RaiseException ex addr ;;; sret false
  | inr pa => on_machine_ (fun m => WriteMem_at m pa size value) ;;; sret true
  end.

End Trap.

(** ** Specification vocabulary *)

(** Exactly one table is installed, with the size the machine believes. *)
Definition tables_ok (m : Machine) : Prop :=
  match tlb m, pageTable m with
  | Some t, None => Z.of_nat (length t) = TLBSize
  | None, Some pt => Z.of_nat (length pt) = pageTableSize m
  | _, _ => False
  end.

Definition entry_hit (vpn : Z) (e : TranslationEntry) : bool :=
  valid e && (u32 (virtualPage e) =? vpn).

(** [e], at index [i] of the installed table, is what translates page [vpn]:
    the first valid TLB entry for it, or its valid page table entry. *)
Definition maps (m : Machine) (vpn : Z) (i : nat) (e : TranslationEntry) : Prop :=
  match tlb m, pageTable m with
  | Some t, _ =>
      t !! i = Some e /\ entry_hit vpn e = true /\
      forall j e', (j < i)%nat -> t !! j = Some e' -> entry_hit vpn e' = false
  | None, Some pt => Z.of_nat i = vpn /\ pt !! i = Some e /\ valid e = true
  | None, None => False
  end.

(** The machine with the entry [i] of its table replaced. *)
Definition with_entry (m : Machine) (i : nat) (e : TranslationEntry) : Machine :=
  match tlb m with
  | Some t => set_tlb m (Some (<[i := e]> t))
  | None => set_pageTable m ((fun pt => <[i := e]> pt) <$> pageTable m)
  end.

Definition misaligned (va size : Z) : bool :=
  ((size =? 4) && negb (Z.land va 3 =? 0)) || ((size =? 2) && negb (Z.land va 1 =? 0)).

Definition access_size (size : Z) : Prop := size = 1 \/ size = 2 \/ size = 4.

Definition vpn_of (va : Z) : Z := u32 va / PageSize.
Definition frame_of (e : TranslationEntry) : Z := u32 (physicalPage e).

(** The value a load of [size] bytes returns for a stored [v]. *)
Definition loaded (size v : Z) : Z :=
  match size with 1 => i8 v | 2 => u16 v | _ => i32 v end.

(** * Lemmas *)

Lemma mem_byte_in mem a : 0 <= a < MemorySize -> mem_byte mem a = Ok (default 0 (mem !! a)).
Proof. intros. unfold mem_byte. by rewrite decide_True. Qed.

Lemma store_bytes_spec n mem a v :
  0 <= a -> a + Z.of_nat n <= MemorySize ->
  exists mem', store_bytes n mem a v = Ok mem' /\
    load_bytes n mem' a = Ok (v mod 2 ^ (8 * Z.of_nat n)) /\
    forall x, ~ (a <= x < a + Z.of_nat n) -> mem' !! x = mem !! x.
Proof.
  revert mem a v. induction n as [|n IH]; intros mem a v Ha Hn.
  { exists mem. split_and!; [done| |done]. simpl. by rewrite Z.mod_1_r. }
  cbn [store_bytes load_bytes]. unfold mem_set_byte at 1.
  rewrite decide_True by lia. simpl.
  destruct (IH (<[a := u8 v]> mem) (a + 1) (Z.shiftr v 8)) as (mem' & Hs & Hl & Hf);
    [lia|lia|].
  exists mem'. split; [done|]. split.
  - rewrite mem_byte_in by lia. rewrite Hf, lookup_insert_eq by lia. simpl.
    rewrite Hl. simpl. f_equal. apply Z.bits_inj'. intros k Hk.
    rewrite Z.lor_spec, Z.shiftl_spec by lia. unfold u8.
    destruct (decide (k < 8)).
    + rewrite (Z.testbit_neg_r _ (k - 8)), orb_false_r by lia.
      rewrite !Z.mod_pow2_bits_low by lia. done.
    + rewrite Z.mod_pow2_bits_high by lia. simpl.
      destruct (decide (k < 8 * Z.of_nat (S n))).
      * rewrite !Z.mod_pow2_bits_low, Z.shiftr_spec by lia. f_equal. lia.
      * rewrite !Z.mod_pow2_bits_high by lia. done.
  - intros x Hx. rewrite Hf, lookup_insert_ne by lia. done.
Qed.

Lemma mem_write_spec mem pa size v :
  access_size size -> 0 <= pa -> pa + size <= MemorySize ->
  exists mem', mem_write mem pa size v = Ok mem' /\
    mem_read mem' pa size = Ok (loaded size v) /\
    forall x, ~ (pa <= x < pa + size) -> mem' !! x = mem !! x.
Proof.
  intros [->|[->| ->]] H1 H2; unfold mem_write, mem_read, loaded.
  - unfold mem_set_byte. rewrite decide_True by lia. eexists. split; [done|]. split.
    + rewrite mem_byte_in, lookup_insert_eq by lia. simpl. f_equal.
      change 255 with (Z.ones 8). unfold u8, i8. rewrite Z.land_ones by lia.
      rewrite Z.mod_mod by lia. rewrite <-(Z.add_mod_idemp_l v) by lia. done.
    + intros x Hx. rewrite lookup_insert_ne by lia. done.
  - destruct (store_bytes_spec 2 mem pa (ShortToMachine (Z.land v 65535)))
      as (mem' & -> & Hl & Hf); [lia|lia|]. eexists. split; [done|]. split; [|done].
    rewrite Hl. unfold rbind. f_equal. unfold ShortToMachine, ShortToHost, u16.
    change 65535 with (Z.ones 16). rewrite Z.land_ones by lia.
    change (8 * Z.of_nat 2) with 16. by rewrite Z.mod_mod by lia.
  - destruct (store_bytes_spec 4 mem pa (WordToMachine (u32 v)))
      as (mem' & -> & Hl & Hf); [lia|lia|]. eexists. split; [done|]. split; [|done].
    rewrite Hl. unfold rbind. f_equal. unfold WordToMachine, WordToHost.
    change (8 * Z.of_nat 4) with 32. fold (u32 (u32 v)).
    rewrite (u32_id (u32 v)) by apply u32_range. apply i32_u32.
Qed.

Lemma tlb_search_spec n t i vpn :
  (i + n)%nat = length t ->
  (exists k e, tlb_search n t (Z.of_nat i) vpn = Ok (Some (Z.of_nat k)) /\
     t !! k = Some e /\ entry_hit vpn e = true /\
     forall j e', (i <= j < k)%nat -> t !! j = Some e' -> entry_hit vpn e' = false) \/
  (tlb_search n t (Z.of_nat i) vpn = Ok None /\
     forall j e', (i <= j)%nat -> t !! j = Some e' -> entry_hit vpn e' = false).
Proof.
  revert i. induction n as [|n IH]; intros i Hi; simpl.
  { right. split; [done|]. intros j e' Hj Hl. apply lookup_lt_Some in Hl. lia. }
  destruct (lookup_lt_is_Some_2 t i) as [e He]; [lia|].
  rewrite (arr_get_lookup t (Z.of_nat i) e) by (rewrite ?Nat2Z.id; done || lia). simpl.
  fold (entry_hit vpn e). destruct (entry_hit vpn e) eqn:Hh.
  - left. exists i, e. split_and!; try done. lia.
  - replace (Z.of_nat i + 1) with (Z.of_nat (S i)) by lia.
    assert (forall j e', (i <= j)%nat -> t !! j = Some e' -> j = i -> entry_hit vpn e' = false)
      by (intros; simplify_eq; done).
    destruct (IH (S i)) as [(k & e1 & Hs & Hk & Hh1 & Hj)|[Hs Hj]]; [lia|..].
    + left. exists k, e1. split_and!; [done..|]. intros j e' Hij Hl.
      destruct (decide (j = i)); [naive_solver lia|]. apply (Hj j); [lia|done].
    + right. split; [done|]. intros j e' Hij Hl.
      destruct (decide (j = i)); [naive_solver lia|]. apply (Hj j); [lia|done].
Qed.

(** [find_entry] finds the mapping of the page, or reports why there is none. *)
Lemma find_entry_spec m vpn :
  tables_ok m -> 0 <= vpn ->
  (exists i e, find_entry m vpn = Ok (inr (negb (is_null (tlb m)), Z.of_nat i, e)) /\
     maps m vpn i e) \/
  (exists ex, find_entry m vpn = Ok (inl ex) /\ (forall i e, ~ maps m vpn i e) /\
     ex = if is_null (tlb m) && (vpn >=? pageTableSize m)
          then AddressErrorException else PageFaultException).
Proof.
  unfold tables_ok, find_entry, maps. intros Ht Hv.
  destruct (tlb m) as [t|], (pageTable m) as [pt|]; try done; cbn [is_null negb andb].
  - destruct (tlb_search_spec (Z.to_nat TLBSize) t 0 vpn) as [(k & e & Hs & Hk & Hh & Hj)|[Hs Hj]];
      [lia|..]; change (Z.of_nat 0) with 0 in Hs; rewrite Hs; cbn [rbind].
    + left. exists k, e. rewrite (arr_get_lookup t (Z.of_nat k) e)
        by (rewrite ?Nat2Z.id; done || lia). cbn [rbind]. split; [done|]. split_and!; try done.
      intros j e' Hjk. apply Hj. lia.
    + right. exists PageFaultException. split_and!; [done| |done].
      intros i e (He & Hh & _). rewrite (Hj i e) in Hh by (lia || done). done.
  - cbn [deref rbind]. rewrite Z.geb_leb. destruct (Z.leb_spec (pageTableSize m) vpn) as [Hle|Hlt].
    + right. exists AddressErrorException. split_and!; [done| |done].
      intros i e (<- & Hl & _). apply lookup_lt_Some in Hl. lia.
    + destruct (lookup_lt_is_Some_2 pt (Z.to_nat vpn)) as [e He]; [lia|].
      rewrite (arr_get_lookup pt vpn e) by done. simpl. destruct (valid e) eqn:Hval; simpl.
      * left. exists (Z.to_nat vpn), e. split_and!; try done; [by rewrite Z2Nat.id by lia|lia].
      * right. exists PageFaultException. split_and!; [done| |done].
        intros i e' (<- & Hl & Hv'). rewrite Nat2Z.id in He. congruence.
Qed.

Lemma update_entry_spec m vpn i e e' :
  maps m vpn i e ->
  update_entry m (negb (is_null (tlb m))) (Z.of_nat i) e' = Ok (with_entry m i e').
Proof.
  unfold maps, update_entry, with_entry.
  destruct (tlb m) as [t|] eqn:Et; [intros [Hl _]|destruct (pageTable m) as [pt|] eqn:Ep; [intros (_ & Hl & _)|done]];
    cbn [is_null negb]; rewrite ?Et, ?Ep; simpl;
    apply lookup_lt_Some in Hl; rewrite arr_set_in by lia; simpl; by rewrite Nat2Z.id.
Qed.

Lemma offset_range va : 0 <= u32 va mod PageSize < PageSize.
Proof. apply Z.mod_pos_bound. done. Qed.

(** The address arithmetic of [Translate] does not overflow. *)
Lemma phys_addr_exact frame off :
  0 <= frame < NumPhysPages -> 0 <= off < PageSize ->
  i32 (u32 (u32 (frame * PageSize) + off)) = frame * PageSize + off.
Proof.
  unfold NumPhysPages, PageSize, SectorSize. intros.
  rewrite i32_u32, (u32_id (frame * 128)) by (unfold in_u32; lia).
  apply i32_id. unfold in_i32. lia.
Qed.

Lemma land_low va k : 0 <= k -> Z.land va (Z.ones k) = u32 va mod 2 ^ k \/ 32 < k.
Proof.
  intros Hk. destruct (decide (k <= 32)); [left|right; lia].
  rewrite Z.land_ones by done. unfold u32.
  apply Z.bits_inj'. intros n Hn. destruct (decide (n < k)).
  - by rewrite !Z.mod_pow2_bits_low by lia.
  - by rewrite !Z.mod_pow2_bits_high by lia.
Qed.

(** An aligned access does not cross the end of its page. *)
Lemma aligned_in_page va size :
  access_size size -> misaligned va size = false ->
  (u32 va mod PageSize) mod size = 0 /\ u32 va mod PageSize + size <= PageSize.
Proof.
  intros Hs Hm. pose proof (offset_range va) as Ho.
  assert ((u32 va mod PageSize) mod size = 0) as Ha.
  { assert (u32 va mod size = 0) as E.
    { unfold misaligned in Hm. destruct Hs as [->|[->| ->]]; simpl in Hm.
      - apply Z.mod_1_r.
      - apply negb_false_iff, Z.eqb_eq in Hm.
        destruct (land_low va 1) as [E|]; [lia| |lia]. change (Z.ones 1) with 1 in E.
        change (2^1) with 2 in E. lia.
      - apply orb_false_iff in Hm as [Hm _]. apply negb_false_iff, Z.eqb_eq in Hm.
        destruct (land_low va 2) as [E|]; [lia| |lia]. change (Z.ones 2) with 3 in E.
        change (2^2) with 4 in E. lia. }
    unfold PageSize, SectorSize in *. pose proof (Z.div_mod (u32 va) 128).
    destruct Hs as [->|[->| ->]]; [apply Z.mod_1_r|..].
    - replace (u32 va mod 128) with (u32 va + (- 64 * (u32 va / 128)) * 2) by lia.
      by rewrite Z.mod_add by lia.
    - replace (u32 va mod 128) with (u32 va + (- 32 * (u32 va / 128)) * 4) by lia.
      by rewrite Z.mod_add by lia. }
  split; [done|]. pose proof (Z.div_mod (u32 va mod PageSize) size).
  unfold PageSize, SectorSize in *. destruct Hs as [->|[->| ->]]; lia.
Qed.

(** The outcome of a translation that finds entry [e]. *)
Definition translate_hit (m : Machine) (i : nat) (e : TranslationEntry) (va : Z) (writing : bool) :
    Machine * translation :=
  if readOnly e && writing then (m, inl ReadOnlyException)
  else if frame_of e >=? NumPhysPages then (m, inl BusErrorException)
  else (with_entry m i (touch e writing), inr (frame_of e * PageSize + u32 va mod PageSize)).

Lemma vpn_nonneg va : 0 <= vpn_of va.
Proof. unfold vpn_of. pose proof (u32_range va). apply Z.div_pos; unfold PageSize, SectorSize, in_u32 in *; lia. Qed.

Lemma Translate_eq m va size writing :
  tables_ok m -> access_size size ->
  if misaligned va size then Translate m va size writing = Ok (m, inl AddressErrorException)
  else
    (exists i e, maps m (vpn_of va) i e /\
       Translate m va size writing = Ok (translate_hit m i e va writing)) \/
    ((forall i e, ~ maps m (vpn_of va) i e) /\
     Translate m va size writing =
       Ok (m, inl (if is_null (tlb m) && (vpn_of va >=? pageTableSize m)
                   then AddressErrorException else PageFaultException))).
Proof.
  intros Ht Hs. unfold Translate. fold (misaligned va size). fold (vpn_of va).
  destruct (misaligned va size) eqn:Hm; [done|].
  assert (is_null (tlb m) || is_null (pageTable m) = true /\
          negb (is_null (tlb m)) || negb (is_null (pageTable m)) = true) as [-> ->].
  { unfold tables_ok in Ht. by destruct (tlb m), (pageTable m). }
  cbn [ASSERT rbind].
  destruct (find_entry_spec m (vpn_of va) Ht (vpn_nonneg va))
    as [(i & e & -> & Hmaps)|(ex & -> & Hno & ->)]; cbn [rbind]; [left|right; done].
  exists i, e. split; [done|]. unfold translate_hit. fold (frame_of e).
  destruct (readOnly e && writing); [done|].
  rewrite Z.geb_leb. destruct (Z.leb_spec NumPhysPages (frame_of e)) as [|Hf]; [done|].
  rewrite (update_entry_spec m (vpn_of va) i e) by done. cbn [rbind].
  pose proof (u32_range (physicalPage e)) as Hfr. fold (frame_of e) in Hfr.
  pose proof (offset_range va) as Ho.
  rewrite phys_addr_exact by (unfold in_u32 in *; done || lia).
  destruct (aligned_in_page va size Hs Hm) as [_ Hin].
  rewrite !bool_decide_eq_true_2; [done|..];
    unfold MemorySize, NumPhysPages, PageSize, SectorSize, in_u32 in *; nia.
Qed.

Lemma with_entry_tlb_null m i e : is_null (tlb (with_entry m i e)) = is_null (tlb m).
Proof. unfold with_entry. destruct (tlb m) eqn:E; simpl; by rewrite ?E. Qed.

Lemma with_entry_tables_ok m i e : tables_ok m -> tables_ok (with_entry m i e).
Proof.
  unfold tables_ok, with_entry. destruct (tlb m) as [t|] eqn:E; simpl.
  - destruct (pageTable m); [done|]. by rewrite length_insert.
  - rewrite E. destruct (pageTable m); [|done]. simpl. by rewrite length_insert.
Qed.

Lemma page_access_in_memory frame off size :
  access_size size -> 0 <= frame < NumPhysPages -> 0 <= off ->
  off mod size = 0 -> off + size <= PageSize ->
  0 <= frame * PageSize + off /\ frame * PageSize + off + size <= MemorySize /\
  (frame * PageSize + off) mod size = 0.
Proof.
  intros Hs Hf Ho Hm Hin.
  assert (exists q, PageSize = q * size) as [q Hq].
  { unfold PageSize, SectorSize.
    destruct Hs as [->|[->| ->]]; [by exists 128|by exists 64|by exists 32]. }
  split_and!.
  - unfold PageSize, SectorSize. lia.
  - unfold MemorySize, NumPhysPages, PageSize, SectorSize in *. lia.
  - rewrite Hq, Z.mul_assoc, Z.add_comm, Z.mod_add; [done|].
    destruct Hs as [->|[->| ->]]; lia.
Qed.

(** Marking an entry used or dirty does not change what it maps. *)
Lemma maps_touch m vpn i e writing :
  maps m vpn i e -> maps (with_entry m i (touch e writing)) vpn i (touch e writing).
Proof.
  unfold maps, with_entry. destruct (tlb m) as [t|] eqn:E; simpl.
  - intros (Hl & Hh & Hj). pose proof (lookup_lt_Some _ _ _ Hl).
    split_and!; [by apply list_lookup_insert_eq|done|].
    intros j e' Hji. rewrite list_lookup_insert_ne by lia. eauto.
  - rewrite E. destruct (pageTable m) as [pt|]; [|done]. simpl.
    intros (? & Hl & Hv). pose proof (lookup_lt_Some _ _ _ Hl).
    split_and!; [done|by apply list_lookup_insert_eq|done].
Qed.

Lemma maps_unique m vpn i e i' e' : maps m vpn i e -> maps m vpn i' e' -> i = i' /\ e = e'.
Proof.
  unfold maps. destruct (tlb m) as [t|].
  - intros (Hl & Hh & Hj) (Hl' & Hh' & Hj').
    assert (i = i') as <-; [|naive_solver].
    destruct (lt_eq_lt_dec i i') as [[?|?]|?]; [|done|].
    + rewrite (Hj' i e) in Hh by done. done.
    + rewrite (Hj i' e') in Hh' by done. done.
  - destruct (pageTable m) as [pt|]; [|done]. intros (? & Hl & _) (? & Hl' & _).
    assert (i = i') as <- by lia. naive_solver.
Qed.

(** Translation only looks at the tables. *)
Lemma maps_tables m m' vpn i e :
  tlb m' = tlb m -> pageTable m' = pageTable m -> maps m vpn i e -> maps m' vpn i e.
Proof. unfold maps. by intros -> ->. Qed.

(** ** Accesses leave the registers alone *)

Lemma Translate_regs m a n w m' r : Translate m a n w = Ok (m', r) -> registers m' = registers m.
Proof.
  unfold Translate, update_entry. destruct (_ || _); [by intros [= <- _]|]. intros E. inv_res E.
  destruct a2 as [ex|[[tl i] e]]; [by simplify_eq|]. destruct (_ && _); [by simplify_eq|]. destruct (_ >=? _); [by simplify_eq|].
  inv_res E. destruct tl; inv_res Ha2; by simplify_eq.
Qed.

Section Accesses.
Context {K : Type} `{!Kernel K}.

Lemma ReadMem_regs a n m (k : K) m' k' v : ReadMem a n (m, k) = Ok ((m', k'), Some v) -> registers m' = registers m.
Proof.
  intros H. unfold ReadMem in H. unfold sbind at 1, on_machine at 1 in H. destruct (Translate m a n false) as [[m1 [ex|pa]]|] eqn:Et; [| |done]; cbn [rbind] in H.
  - unfold sbind in H. by destruct (RaiseException ex a (m1, k)) as [[? []]|].
  - unfold sbind, on_machine in H. destruct (ReadMem_at m1 pa n) as [[m2 x]|] eqn:Er; [|done]. cbn [rbind sret] in H. injection H as <- _ _.
    unfold ReadMem_at in Er. inv_res Er. injection Er as <- _. by rewrite <-(Translate_regs _ _ _ _ _ _ Et).
Qed.

Lemma WriteMem_regs a n v m (k : K) m' k' : WriteMem a n v (m, k) = Ok ((m', k'), true) -> registers m' = registers m.
Proof.
  intros H. unfold WriteMem in H. unfold sbind at 1, on_machine at 1 in H. destruct (Translate m a n true) as [[m1 [ex|pa]]|] eqn:Et; [| |done]; cbn [rbind] in H.
  - unfold sbind in H. by destruct (RaiseException ex a (m1, k)) as [[? []]|].
  - unfold sbind, on_machine_ in H. destruct (WriteMem_at m1 pa n v) as [m2|] eqn:Er; [|done]. cbn [rbind sret] in H. injection H as <- _.
    unfold WriteMem_at in Er. inv_res Er. injection Er as <-. by rewrite <-(Translate_regs _ _ _ _ _ _ Et).
Qed.

End Accesses.

(** * Properties *)

(** C10: Address translation is total and correct. With one table installed
    and an access of 1, 2 or 4 bytes, [Translate] never fails its ASSERTs. It
    returns a physical address exactly when the access is aligned, the page
    has a mapping (first valid TLB entry, or valid page-table entry), the
    entry is writable for a write and its frame exists; the address is then
    frame * PageSize + page offset, the whole access lies in memory, and only
    the entry's use and dirty bits change. Otherwise it changes nothing and
    returns the exception that names the cause. *)
Theorem Translate_correct m va size writing :
  tables_ok m -> access_size size ->
  exists m' r, Translate m va size writing = Ok (m', r) /\
    match r with
    | inr pa =>
        misaligned va size = false /\
        exists i e, maps m (vpn_of va) i e /\ (writing = true -> readOnly e = false) /\
          frame_of e < NumPhysPages /\
          pa = frame_of e * PageSize + u32 va mod PageSize /\
          0 <= pa /\ pa + size <= MemorySize /\ pa mod size = 0 /\
          m' = with_entry m i (touch e writing)
    | inl ex =>
        m' = m /\
        match ex with
        | AddressErrorException =>
            misaligned va size = true \/
            tlb m = None /\ pageTableSize m <= vpn_of va
        | PageFaultException => forall i e, ~ maps m (vpn_of va) i e
        | ReadOnlyException =>
            writing = true /\ exists i e, maps m (vpn_of va) i e /\ readOnly e = true
        | BusErrorException =>
            exists i e, maps m (vpn_of va) i e /\ NumPhysPages <= frame_of e
        | _ => False
        end
    end.
Proof.
  intros Ht Hs. pose proof (Translate_eq m va size writing Ht Hs) as HT.
  destruct (misaligned va size) eqn:Hm.
  { rewrite HT. eexists _, _. split; [done|]. simpl. auto. }
  destruct HT as [(i & e & Hmaps & ->)|[Hno ->]].
  2: { eexists _, _. split; [done|]. destruct (is_null (tlb m)) eqn:Hn; simpl; [|by split].
       rewrite Z.geb_leb. destruct (Z.leb_spec (pageTableSize m) (vpn_of va)); [|by split].
       split; [done|]. right. split; [|lia]. by destruct (tlb m). }
  pose proof (aligned_in_page va size Hs Hm) as Hal.
  pose proof (page_access_in_memory (frame_of e) (u32 va mod PageSize) size Hs) as Hpa.
  pose proof (u32_range (physicalPage e)) as Hfr. fold (frame_of e) in Hfr.
  unfold translate_hit. destruct (readOnly e && writing) eqn:Hro.
  { apply andb_true_iff in Hro as [? ?]. eexists _, _. split; [done|]. simpl. eauto 10. }
  rewrite Z.geb_leb. destruct (Z.leb_spec NumPhysPages (frame_of e)) as [Hf|Hf].
  { eexists _, _. split; [done|]. simpl. eauto 10. }
  eexists _, _. split; [done|]. split; [done|]. exists i, e.
  split; [done|]. split; [intros ->; by rewrite andb_true_r in Hro|].
  destruct Hal as [Ha Hin]. pose proof (offset_range va).
  destruct Hpa as (? & ? & ?); [unfold in_u32 in *; lia|lia|done|done|]. by split_and!.
Qed.

(** Memory behaves as memory through translation: once a write of 1, 2 or
    4 bytes at a virtual address succeeds, a read of the same size at that
    address succeeds, whatever the read-only bit of the entry says, and
    returns the value written (cut to its width; bytes are sign-extended), and
    no physical byte outside the access has changed. *)
Theorem WriteMem_ReadMem `{!Kernel K} m (k : K) va size v s' :
  tables_ok m -> access_size size ->
  WriteMem va size v (m, k) = Ok (s', true) ->
  exists m' pa, s' = (m', k) /\
    (exists m'', ReadMem va size s' = Ok ((m'', k), Some (loaded size v))) /\
    0 <= pa /\ pa + size <= MemorySize /\
    forall x, ~ (pa <= x < pa + size) -> mainMemory m' !! x = mainMemory m !! x.
Proof.
  intros Ht Hs HW. unfold WriteMem, sbind, on_machine in HW.
  pose proof (Translate_eq m va size true Ht Hs) as HT.
  destruct (misaligned va size) eqn:Hm; [rewrite HT in HW|
    destruct HT as [(i & e & Hmaps & HT)|[_ HT]]; rewrite HT in HW; [unfold translate_hit in HW|]];
    cbn [rbind] in HW; [by destruct (RaiseException _ _ _) as [[? ?]|]| |
      by destruct (RaiseException _ _ _) as [[? ?]|]].
  rewrite andb_true_r in HW. destruct (readOnly e) eqn:Hro; cbn [rbind] in HW;
    [by destruct (RaiseException _ _ _) as [[? ?]|]|].
  rewrite Z.geb_leb in HW. destruct (Z.leb_spec NumPhysPages (frame_of e)) as [Hf|Hf];
    cbn [rbind] in HW; [by destruct (RaiseException _ _ _) as [[? ?]|]|].
  set (pa := frame_of e * PageSize + u32 va mod PageSize) in *.
  pose proof (aligned_in_page va size Hs Hm) as [Ha Hin]. pose proof (offset_range va).
  pose proof (u32_range (physicalPage e)) as Hfr. fold (frame_of e) in Hfr.
  destruct (page_access_in_memory (frame_of e) (u32 va mod PageSize) size Hs)
    as (Hpa1 & Hpa2 & _); [unfold in_u32 in *; lia|lia|done|done|].
  unfold on_machine_, WriteMem_at in HW. cbn [rbind] in HW.
  destruct (mem_write_spec (mainMemory (with_entry m i (touch e true))) pa size v)
    as (mem' & Hw & Hr & Hfr'); [done|done|done|].
  rewrite Hw in HW. unfold sret in HW. cbn [rbind] in HW. simplify_eq.
  set (m' := stamp _ pa).
  exists m', pa. split; [done|]. split; [|split_and!; try done].
  - assert (maps m' (vpn_of va) i (touch e true)) as Hmaps'.
    { eapply (maps_tables (with_entry m i (touch e true))); [done|done|by apply maps_touch]. }
    assert (tables_ok m') as Ht' by (apply (with_entry_tables_ok m i (touch e true)), Ht).
    unfold ReadMem, sbind, on_machine.
    pose proof (Translate_eq m' va size false Ht' Hs) as HT'. rewrite Hm in HT'.
    destruct HT' as [(i' & e' & Hmaps2 & ->)|[Hno _]]; [|by destruct (Hno i (touch e true))].
    destruct (maps_unique _ _ _ _ _ _ Hmaps' Hmaps2) as [<- <-].
    unfold translate_hit. rewrite andb_false_r, Z.geb_leb.
    destruct (Z.leb_spec NumPhysPages (frame_of (touch e true))) as [Hf'|_]; [by apply Z.lt_nge in Hf|].
    cbn [rbind]. change (frame_of (touch e true) * PageSize + u32 va mod PageSize) with pa.
    unfold ReadMem_at.
    assert (mainMemory (with_entry m' i (touch (touch e true) false)) = mem') as ->
      by (unfold with_entry; by destruct (tlb m')).
    rewrite Hr. unfold sret. cbn [rbind]. eauto.
  - intros x Hx. simpl. rewrite Hfr' by done. unfold with_entry. by destruct (tlb m).
Qed.

(** ** Witnesses: a machine whose TLB maps page 0 to frame 5, and a kernel
    that halts on every trap *)
#[local] Instance halting_kernel : Kernel unit :=
  {| ExceptionHandler := fun _ => fail MachineHalt |}.

Definition sample_tlb : list TranslationEntry :=
  mkEntry 0 5 true false false false :: replicate 3 (mkEntry 0 0 false false false false).

Definition sample_machine : Machine :=
  mkMachine ∅ (replicate 40 0) (Some sample_tlb) None 0 ∅ UserMode 10.

Example Translate_correct_witness :
  exists m' pa, Translate sample_machine 12 4 true = Ok (m', inr pa) /\ pa = 652.
Proof.
  destruct (Translate_correct sample_machine 12 4 true) as (m' & r & H & Hr);
    [reflexivity|right; right; reflexivity|].
  vm_compute in H. injection H as <- <-.
  exists (with_entry sample_machine 0 (mkEntry 0 5 true false true true)), 652.
  split; [|reflexivity]. vm_compute. reflexivity.
Defined.

Example WriteMem_ReadMem_witness :
  exists s', WriteMem 12 4 (-2) (sample_machine, tt) = Ok (s', true) /\
    exists m'', ReadMem 12 4 s' = Ok ((m'', tt), Some (-2)).
Proof.
  destruct (WriteMem 12 4 (-2) (sample_machine, tt)) as [[s' b]|f] eqn:E;
    [|vm_compute in E; discriminate E].
  assert (b = true) as -> by (vm_compute in E; congruence).
  destruct (WriteMem_ReadMem sample_machine tt 12 4 (-2) s') as (m' & pa & H1 & H2 & _);
    [reflexivity|right; right; reflexivity|exact E|].
  exists s'. split; [reflexivity|exact H2].
Defined.
