(* ===== verification/Mips.v ===== *)
(** * machine/mipssim.cc, machine/mipssim.h: the MIPS R2/3000 simulator

    Instruction decoding with the source's tables, the execution of every
    opcode on the register file and memory of [Machine], the branch and load
    delay slots, and the shift-and-add multiplication. *)
From S2P Require Import Prelude Machine.

(** The OP_ values of mipssim.h, and the two that ask for further decoding. *)
Inductive OpCode :=
  | OP_ADD | OP_ADDI | OP_ADDIU | OP_ADDU | OP_AND | OP_ANDI | OP_BEQ | OP_BGEZ
  | OP_BGEZAL | OP_BGTZ | OP_BLEZ | OP_BLTZ | OP_BLTZAL | OP_BNE | OP_DIV | OP_DIVU
  | OP_J | OP_JAL | OP_JALR | OP_JR | OP_LB | OP_LBU | OP_LH | OP_LHU | OP_LUI
  | OP_LW | OP_LWL | OP_LWR | OP_MFHI | OP_MFLO | OP_MTHI | OP_MTLO | OP_MULT
  | OP_MULTU | OP_NOR | OP_OR | OP_ORI | OP_RFE | OP_SB | OP_SH | OP_SLL | OP_SLLV
  | OP_SLT | OP_SLTI | OP_SLTIU | OP_SLTU | OP_SRA | OP_SRAV | OP_SRL | OP_SRLV
  | OP_SUB | OP_SUBU | OP_SW | OP_SWL | OP_SWR | OP_XOR | OP_XORI | OP_SYSCALL
  | OP_UNIMP | OP_RES | SPECIAL | BCOND.

#[global] Instance OpCode_eq_dec : EqDecision OpCode.
Proof. solve_decision. Defined.

Inductive Format := IFMT | JFMT | RFMT.

#[global] Instance Format_eq_dec : EqDecision Format.
Proof. solve_decision. Defined.

Definition IndexToAddr (x : Z) : Z := i32 (Z.shiftl x 2).
Definition SIGN_BIT : Z := 0x80000000.
Definition R31 : Z := 31.

Definition opTable : list (OpCode * Format) := [
  (SPECIAL, RFMT); (BCOND, IFMT); (OP_J, JFMT); (OP_JAL, JFMT);
  (OP_BEQ, IFMT); (OP_BNE, IFMT); (OP_BLEZ, IFMT); (OP_BGTZ, IFMT);
  (OP_ADDI, IFMT); (OP_ADDIU, IFMT); (OP_SLTI, IFMT); (OP_SLTIU, IFMT);
  (OP_ANDI, IFMT); (OP_ORI, IFMT); (OP_XORI, IFMT); (OP_LUI, IFMT);
  (OP_UNIMP, IFMT); (OP_UNIMP, IFMT); (OP_UNIMP, IFMT); (OP_UNIMP, IFMT);
  (OP_RES, IFMT); (OP_RES, IFMT); (OP_RES, IFMT); (OP_RES, IFMT);
  (OP_RES, IFMT); (OP_RES, IFMT); (OP_RES, IFMT); (OP_RES, IFMT);
  (OP_RES, IFMT); (OP_RES, IFMT); (OP_RES, IFMT); (OP_RES, IFMT);
  (OP_LB, IFMT); (OP_LH, IFMT); (OP_LWL, IFMT); (OP_LW, IFMT);
  (OP_LBU, IFMT); (OP_LHU, IFMT); (OP_LWR, IFMT); (OP_RES, IFMT);
  (OP_SB, IFMT); (OP_SH, IFMT); (OP_SWL, IFMT); (OP_SW, IFMT);
  (OP_RES, IFMT); (OP_RES, IFMT); (OP_SWR, IFMT); (OP_RES, IFMT);
  (OP_UNIMP, IFMT); (OP_UNIMP, IFMT); (OP_UNIMP, IFMT); (OP_UNIMP, IFMT);
  (OP_RES, IFMT); (OP_RES, IFMT); (OP_RES, IFMT); (OP_RES, IFMT);
  (OP_UNIMP, IFMT); (OP_UNIMP, IFMT); (OP_UNIMP, IFMT); (OP_UNIMP, IFMT);
  (OP_RES, IFMT); (OP_RES, IFMT); (OP_RES, IFMT); (OP_RES, IFMT)].

Definition specialTable : list OpCode := [
  OP_SLL; OP_RES; OP_SRL; OP_SRA; OP_SLLV; OP_RES; OP_SRLV; OP_SRAV;
  OP_JR; OP_JALR; OP_RES; OP_RES; OP_SYSCALL; OP_UNIMP; OP_RES; OP_RES;
  OP_MFHI; OP_MTHI; OP_MFLO; OP_MTLO; OP_RES; OP_RES; OP_RES; OP_RES;
  OP_MULT; OP_MULTU; OP_DIV; OP_DIVU; OP_RES; OP_RES; OP_RES; OP_RES;
  OP_ADD; OP_ADDU; OP_SUB; OP_SUBU; OP_AND; OP_OR; OP_XOR; OP_NOR;
  OP_RES; OP_RES; OP_SLT; OP_SLTU; OP_RES; OP_RES; OP_RES; OP_RES;
  OP_RES; OP_RES; OP_RES; OP_RES; OP_RES; OP_RES; OP_RES; OP_RES;
  OP_RES; OP_RES; OP_RES; OP_RES; OP_RES; OP_RES; OP_RES; OP_RES].

(** machine.h: a decoded instruction; [value] is the raw unsigned word. *)
Record Instruction := mkInstr {
  opCode : OpCode;
  rs : Z;
  rt : Z;
  rd : Z;
  extra : Z
}.

(** The immediate, shift amount or target, by format. *)
Definition decode_extra (value : Z) (fmt : Format) : Z :=
  match fmt with
  | IFMT =>
      let e := Z.land value 0xffff in
      if negb (Z.land e 0x8000 =? 0) then i32 (Z.lor e 0xffff0000) else e
  | RFMT => Z.land (Z.shiftr value 6) 0x1f
  | JFMT => Z.land value 0x3ffffff
  end.

Definition decode_bcond (value : Z) : OpCode :=
  let i := Z.land value 0x1f0000 in
  if i =? 0 then OP_BLTZ
  else if i =? 0x10000 then OP_BGEZ
  else if i =? 0x100000 then OP_BLTZAL
  else if i =? 0x110000 then OP_BGEZAL
  else OP_UNIMP.

Definition Decode (value : Z) : res Instruction :=
  let* op := arr_get opTable (Z.land (Z.shiftr value 26) 0x3f) in
  let ex := decode_extra value op.2 in
  let* code :=
    (match op.1 with
     | SPECIAL => arr_get specialTable (Z.land value 0x3f)
     | BCOND => Ok (decode_bcond value)
     | c => Ok c
     end) in
  Ok (mkInstr code (Z.land (Z.shiftr value 21) 0x1f) (Z.land (Z.shiftr value 16) 0x1f)
        (Z.land (Z.shiftr value 11) 0x1f) ex).

(** ** Multiplication *)

(** The main loop of [Mult], [n] rounds left: [a] is an [int] (its shift is
    arithmetic), the others are [unsigned]. *)
Fixpoint mult_loop (n : nat) (a bLo bHi lo hi : Z) : Z * Z :=
  match n with
  | O => (hi, lo)
  | S n' =>
      let odd := negb (Z.land a 1 =? 0) in
      let lo' := if odd then u32 (lo + bLo) else lo in
      let hi1 := if odd then (if lo' <? bLo then u32 (hi + 1) else hi) else hi in
      let hi' := if odd then u32 (hi1 + bHi) else hi in
      if odd && (Z.land (u32 a) 0xfffffffe =? 0) then (hi', lo')
      else
        let bHi1 := u32 (Z.shiftl bHi 1) in
        let bHi' := if negb (Z.land bLo 0x80000000 =? 0) then Z.lor bHi1 1 else bHi1 in
        mult_loop n' (Z.shiftr a 1) (u32 (Z.shiftl bLo 1)) bHi' lo' hi'
  end.

(** [Mult]: the pair ( *hiPtr, *loPtr ). *)
Definition Mult (a b : Z) (signedArith : bool) : Z * Z :=
  if (a =? 0) || (b =? 0) then (0, 0)
  else
    let neg_a := signedArith && (a <? 0) in
    let neg_b := signedArith && (b <? 0) in
    let a' := if neg_a then i32 (- a) else a in
    let b' := if neg_b then i32 (- b) else b in
    let negative := xorb neg_a neg_b in
    let '(hi, lo) := mult_loop 32 a' (u32 b') 0 0 0 in
    if negative then
      let hi := u32 (Z.lnot hi) in
      let lo := u32 (Z.lnot lo) in
      let lo := u32 (lo + 1) in
      let hi := if lo =? 0 then u32 (hi + 1) else hi in
      (i32 hi, i32 lo)
    else (i32 hi, i32 lo).

(** ** Execution *)
Section Exec.
Context {K : Type} `{!Kernel K}.
Abbreviation world := (Machine * K)%type.

(** [registers[i]] read and written. *)
Definition rget (i : Z) : ST world Z := fun '(m, k) =>
  let* v := reg_get m i in Ok ((m, k), v).
Definition rset (i v : Z) : ST world unit := fun '(m, k) =>
  let* m' := reg_set m i v in Ok ((m', k), tt).
Definition assert_st (b : bool) : ST world unit := lift (ASSERT b).

(** What the [switch] of [OneInstruction] leaves behind: [None] when it
    returned early, else [pcAfter], [nextLoadReg] and [nextLoadValue]. *)
Abbreviation outcome := (option (Z * Z * Z)).

Definition continue (pcAfter : Z) : ST world outcome := sret (Some (pcAfter, 0, 0)).
Definition load_next (pcAfter reg value : Z) : ST world outcome :=
  sret (Some (pcAfter, reg, value)).
Definition trap (ex : ExceptionType) (addr : Z) : ST world outcome :=
  RaiseException ex addr ;;; sret None.

(** [x & SIGN_BIT], as a condition. *)
Definition sign_bit (x : Z) : bool := negb (Z.land (u32 x) SIGN_BIT =? 0).

(** [registers[NextPCReg] + IndexToAddr(extra)] *)
Definition branch_target (next ex : Z) : Z := i32 (next + IndexToAddr ex).

(** A branch: [pcAfter] is the target when [taken], the fall-through else. *)
Definition branch (taken : bool) (ex pcAfter : Z) : ST world outcome :=
  if taken then (next <- rget NextPCReg ;; continue (branch_target next ex))
  else continue pcAfter.

(** The [switch (tmp & 0x3)] of LWL, LWR, SWL and SWR. *)
Definition lwl_merge (sel old value : Z) : Z :=
  match sel with
  | 0 => value
  | 1 => Z.lor (Z.land old 0xff) (i32 (Z.shiftl value 8))
  | 2 => Z.lor (Z.land old 0xffff) (i32 (Z.shiftl value 16))
  | 3 => Z.lor (Z.land old 0xffffff) (i32 (Z.shiftl value 24))
  | _ => old
  end.
Definition lwr_merge (sel old value : Z) : Z :=
  match sel with
  | 0 => i32 (Z.lor (Z.land (u32 old) 0xffffff00) (Z.land (Z.shiftr value 24) 0xff))
  | 1 => i32 (Z.lor (Z.land (u32 old) 0xffff0000) (Z.land (Z.shiftr value 16) 0xffff))
  | 2 => i32 (Z.lor (Z.land (u32 old) 0xff000000) (Z.land (Z.shiftr value 8) 0xffffff))
  | 3 => value
  | _ => old
  end.
Definition swl_merge (sel value reg : Z) : Z :=
  match sel with
  | 0 => reg
  | 1 => i32 (Z.lor (Z.land (u32 value) 0xff000000) (Z.land (Z.shiftr reg 8) 0xffffff))
  | 2 => i32 (Z.lor (Z.land (u32 value) 0xffff0000) (Z.land (Z.shiftr reg 16) 0xffff))
  | 3 => i32 (Z.lor (Z.land (u32 value) 0xffffff00) (Z.land (Z.shiftr reg 24) 0xff))
  | _ => value
  end.
Definition swr_merge (sel value reg : Z) : Z :=
  match sel with
  | 0 => Z.lor (Z.land value 0xffffff) (i32 (Z.shiftl reg 24))
  | 1 => Z.lor (Z.land value 0xffff) (i32 (Z.shiftl reg 16))
  | 2 => Z.lor (Z.land value 0xff) (i32 (Z.shiftl reg 8))
  | 3 => reg
  | _ => value
  end.

(** LWL and LWR: the old value is the pending load of [rt], if any. *)
Definition exec_lwx (merge : Z -> Z -> Z -> Z) (i : Instruction) (pcAfter : Z) : ST world outcome :=
  a <- rget (rs i) ;;
  let tmp := i32 (a + extra i) in
  assert_st (Z.land tmp 3 =? 0) ;;;
  r <- ReadMem tmp 4 ;;
  match r with
  | None => sret None
  | Some value =>
      lr <- rget LoadReg ;;
      old <- (if lr =? rt i then rget LoadValueReg else rget (rt i)) ;;
      load_next pcAfter (rt i) (merge (Z.land tmp 3) old value)
  end.

Definition exec_swx (merge : Z -> Z -> Z -> Z) (i : Instruction) (pcAfter : Z) : ST world outcome :=
  a <- rget (rs i) ;;
  let tmp := i32 (a + extra i) in
  assert_st (Z.land tmp 3 =? 0) ;;;
  r <- ReadMem (Z.land tmp (Z.lnot 3)) 4 ;;
  match r with
  | None => sret None
  | Some value =>
      reg <- rget (rt i) ;;
      ok <- WriteMem (Z.land tmp (Z.lnot 3)) 4 (merge (Z.land tmp 3) value reg) ;;
      if ok : bool then continue pcAfter else sret None
  end.

Definition exec_store (size : Z) (i : Instruction) (pcAfter : Z) : ST world outcome :=
  a <- rget (rs i) ;;
  v <- rget (rt i) ;;
  ok <- WriteMem (i32 (u32 (i32 (a + extra i)))) size v ;;
  if ok : bool then continue pcAfter else sret None.

(** LB/LBU, LH/LHU: [size] bytes, sign-extended when [signed]. *)
Definition exec_lb (signed : bool) (i : Instruction) (pcAfter : Z) : ST world outcome :=
  a <- rget (rs i) ;;
  r <- ReadMem (i32 (a + extra i)) 1 ;;
  match r with
  | None => sret None
  | Some value =>
      load_next pcAfter (rt i)
        (if negb (Z.land value 0x80 =? 0) && signed
         then i32 (Z.lor (u32 value) 0xffffff00) else Z.land value 0xff)
  end.

Definition exec_lh (signed : bool) (i : Instruction) (pcAfter : Z) : ST world outcome :=
  a <- rget (rs i) ;;
  let tmp := i32 (a + extra i) in
  if negb (Z.land tmp 1 =? 0) then trap AddressErrorException tmp
  else
    r <- ReadMem tmp 2 ;;
    match r with
    | None => sret None
    | Some value =>
        load_next pcAfter (rt i)
          (if negb (Z.land value 0x8000 =? 0) && signed
           then i32 (Z.lor (u32 value) 0xffff0000) else Z.land value 0xffff)
    end.

Definition exec_lw (i : Instruction) (pcAfter : Z) : ST world outcome :=
  a <- rget (rs i) ;;
  let tmp := i32 (a + extra i) in
  if negb (Z.land tmp 3 =? 0) then trap AddressErrorException tmp
  else
    r <- ReadMem tmp 4 ;;
    match r with
    | None => sret None
    | Some value => load_next pcAfter (rt i) value
    end.

(** [INT_MIN / -1] does not fit an [int]: C++ leaves it undefined. *)
Definition exec_div (i : Instruction) (pcAfter : Z) : ST world outcome :=
  b <- rget (rt i) ;;
  if b =? 0 then rset LoReg 0 ;;; rset HiReg 0 ;;; continue pcAfter
  else
    a <- rget (rs i) ;;
    if (a =? - 2 ^ 31) && (b =? -1) then fail UndefinedArith
    else rset LoReg (Z.quot a b) ;;; rset HiReg (Z.rem a b) ;;; continue pcAfter.

Definition exec_divu (i : Instruction) (pcAfter : Z) : ST world outcome :=
  a <- rget (rs i) ;;
  b <- rget (rt i) ;;
  if u32 b =? 0 then rset LoReg 0 ;;; rset HiReg 0 ;;; continue pcAfter
  else rset LoReg (i32 (u32 a / u32 b)) ;;; rset HiReg (i32 (u32 a mod u32 b)) ;;;
       continue pcAfter.

Definition exec_mult (signedArith : bool) (i : Instruction) (pcAfter : Z) : ST world outcome :=
  a <- rget (rs i) ;;
  b <- rget (rt i) ;;
  let '(hi, lo) := Mult a b signedArith in
  rset HiReg hi ;;; rset LoReg lo ;;; continue pcAfter.

(** Register-to-register operations, [rd = f(rs, rt)], and immediate ones. *)
Definition exec_r (f : Z -> Z -> Z) (i : Instruction) (pcAfter : Z) : ST world outcome :=
  a <- rget (rs i) ;; b <- rget (rt i) ;; rset (rd i) (f a b) ;;; continue pcAfter.
Definition exec_i (f : Z -> Z -> Z) (i : Instruction) (pcAfter : Z) : ST world outcome :=
  a <- rget (rs i) ;; rset (rt i) (f a (extra i)) ;;; continue pcAfter.
Definition exec_move (src dst pcAfter : Z) : ST world outcome :=
  a <- rget src ;; rset dst a ;;; continue pcAfter.

Definition exec_add (i : Instruction) (pcAfter : Z) : ST world outcome :=
  a <- rget (rs i) ;;
  b <- rget (rt i) ;;
  let sum := i32 (a + b) in
  if negb (sign_bit (Z.lxor a b)) && sign_bit (Z.lxor a sum)
  then trap OverflowException 0
  else rset (rd i) sum ;;; continue pcAfter.

Definition exec_addi (i : Instruction) (pcAfter : Z) : ST world outcome :=
  a <- rget (rs i) ;;
  let sum := i32 (a + extra i) in
  if negb (sign_bit (Z.lxor a (extra i))) && sign_bit (Z.lxor (extra i) sum)
  then trap OverflowException 0
  else rset (rt i) sum ;;; continue pcAfter.

Definition exec_sub (i : Instruction) (pcAfter : Z) : ST world outcome :=
  a <- rget (rs i) ;;
  b <- rget (rt i) ;;
  let diff := i32 (a - b) in
  if sign_bit (Z.lxor a b) && sign_bit (Z.lxor a diff)
  then trap OverflowException 0
  else rset (rd i) diff ;;; continue pcAfter.

(** [registers[reg] = registers[NextPCReg] + 4] *)
Definition link (reg : Z) : ST world unit :=
  next <- rget NextPCReg ;; rset reg (i32 (next + 4)).

Definition b2z (b : bool) : Z := if b then 1 else 0.

(** The [switch (instr->opCode)] of [OneInstruction]. *)
Definition exec_op (i : Instruction) (pcAfter : Z) : ST world outcome :=
  match opCode i with
  | OP_ADD => exec_add i pcAfter
  | OP_ADDI => exec_addi i pcAfter
  | OP_ADDIU => exec_i (fun a ex => i32 (a + ex)) i pcAfter
  | OP_ADDU => exec_r (fun a b => i32 (a + b)) i pcAfter
  | OP_AND => exec_r Z.land i pcAfter
  | OP_ANDI => exec_i (fun a ex => Z.land a (Z.land ex 0xffff)) i pcAfter
  | OP_BEQ => a <- rget (rs i) ;; b <- rget (rt i) ;; branch (a =? b) (extra i) pcAfter
  | OP_BGEZAL => link R31 ;;;
      a <- rget (rs i) ;; branch (negb (sign_bit a)) (extra i) pcAfter
  | OP_BGEZ => a <- rget (rs i) ;; branch (negb (sign_bit a)) (extra i) pcAfter
  | OP_BGTZ => a <- rget (rs i) ;; branch (a >? 0) (extra i) pcAfter
  | OP_BLEZ => a <- rget (rs i) ;; branch (a <=? 0) (extra i) pcAfter
  | OP_BLTZAL => link R31 ;;;
      a <- rget (rs i) ;; branch (sign_bit a) (extra i) pcAfter
  | OP_BLTZ => a <- rget (rs i) ;; branch (sign_bit a) (extra i) pcAfter
  | OP_BNE => a <- rget (rs i) ;; b <- rget (rt i) ;;
      branch (negb (a =? b)) (extra i) pcAfter
  | OP_DIV => exec_div i pcAfter
  | OP_DIVU => exec_divu i pcAfter
  | OP_JAL => link R31 ;;;
      continue (i32 (Z.lor (Z.land (u32 pcAfter) 0xf0000000) (u32 (IndexToAddr (extra i)))))
  | OP_J =>
      continue (i32 (Z.lor (Z.land (u32 pcAfter) 0xf0000000) (u32 (IndexToAddr (extra i)))))
  | OP_JALR => link (rd i) ;;; a <- rget (rs i) ;; continue a
  | OP_JR => a <- rget (rs i) ;; continue a
  | OP_LB => exec_lb true i pcAfter
  | OP_LBU => exec_lb false i pcAfter
  | OP_LH => exec_lh true i pcAfter
  | OP_LHU => exec_lh false i pcAfter
  | OP_LUI => rset (rt i) (i32 (Z.shiftl (extra i) 16)) ;;; continue pcAfter
  | OP_LW => exec_lw i pcAfter
  | OP_LWL => exec_lwx lwl_merge i pcAfter
  | OP_LWR => exec_lwx lwr_merge i pcAfter
  | OP_MFHI => exec_move HiReg (rd i) pcAfter
  | OP_MFLO => exec_move LoReg (rd i) pcAfter
  | OP_MTHI => exec_move (rs i) HiReg pcAfter
  | OP_MTLO => exec_move (rs i) LoReg pcAfter
  | OP_MULT => exec_mult true i pcAfter
  | OP_MULTU => exec_mult false i pcAfter
  | OP_NOR => exec_r (fun a b => Z.lnot (Z.lor a b)) i pcAfter
  | OP_OR => exec_r (fun a b => Z.lor a a) i pcAfter
  | OP_ORI => exec_i (fun a ex => Z.lor a (Z.land ex 0xffff)) i pcAfter
  | OP_SB => exec_store 1 i pcAfter
  | OP_SH => exec_store 2 i pcAfter
  | OP_SLL => exec_r (fun _ b => i32 (Z.shiftl b (extra i))) i pcAfter
  | OP_SLLV => exec_r (fun a b => i32 (Z.shiftl b (Z.land a 0x1f))) i pcAfter
  | OP_SLT => exec_r (fun a b => b2z (a <? b)) i pcAfter
  | OP_SLTI => exec_i (fun a ex => b2z (a <? ex)) i pcAfter
  | OP_SLTIU => exec_i (fun a ex => b2z (u32 a <? u32 ex)) i pcAfter
  | OP_SLTU => exec_r (fun a b => b2z (u32 a <? u32 b)) i pcAfter
  | OP_SRA => exec_r (fun _ b => Z.shiftr b (extra i)) i pcAfter
  | OP_SRAV => exec_r (fun a b => Z.shiftr b (Z.land a 0x1f)) i pcAfter
  | OP_SRL => exec_r (fun _ b => Z.shiftr b (extra i)) i pcAfter
  | OP_SRLV => exec_r (fun a b => Z.shiftr b (Z.land a 0x1f)) i pcAfter
  | OP_SUB => exec_sub i pcAfter
  | OP_SUBU => exec_r (fun a b => i32 (a - b)) i pcAfter
  | OP_SW => exec_store 4 i pcAfter
  | OP_SWL => exec_swx swl_merge i pcAfter
  | OP_SWR => exec_swx swr_merge i pcAfter
  | OP_SYSCALL => trap SyscallException 0
  | OP_XOR => exec_r Z.lxor i pcAfter
  | OP_XORI => exec_i (fun a ex => Z.lxor a (Z.land ex 0xffff)) i pcAfter
  | OP_RES | OP_UNIMP => trap IllegalInstrException 0
  | _ => fail AssertFail
  end.

(** The end of [OneInstruction]: the delayed load, then the program counters. *)
Definition finish_instruction (pcAfter nextLoadReg nextLoadValue : Z) : ST world unit :=
  on_machine_ (fun m => DelayedLoad m nextLoadReg nextLoadValue) ;;;
  pc <- rget PCReg ;;
  rset PrevPCReg pc ;;;
  next <- rget NextPCReg ;;
  rset PCReg next ;;;
  rset NextPCReg pcAfter.

Definition OneInstruction : ST world unit :=
  pc <- rget PCReg ;;
  r <- ReadMem pc 4 ;;
  match r with
  | None => sret tt
  | Some raw =>
      i <- lift (Decode (u32 raw)) ;;
      next <- rget NextPCReg ;;
      o <- exec_op i (i32 (next + 4)) ;;
      match o with
      | None => sret tt
      | Some (pcAfter, lr, lv) => finish_instruction pcAfter lr lv
      end
  end.

End Exec.

(** * Lemmas *)

Lemma mult_step_acc lo hi bLo bHi :
  in_u32 lo -> in_u32 hi -> in_u32 bLo -> in_u32 bHi ->
  let lo' := u32 (lo + bLo) in
  let hi' := u32 ((if lo' <? bLo then u32 (hi + 1) else hi) + bHi) in
  hi' * 2 ^ 32 + lo' = (hi * 2 ^ 32 + lo + (bHi * 2 ^ 32 + bLo)) mod 2 ^ 64.
Proof.
  unfold in_u32. intros Hlo Hhi HbL HbH. cbv zeta.
  set (c := if u32 (lo + bLo) <? bLo then 1 else 0).
  assert (lo + bLo = u32 (lo + bLo) + c * 2 ^ 32) as Hc.
  { subst c. unfold u32. destruct (Z.lt_ge_cases (lo + bLo) (2^32)).
    - rewrite Z.mod_small by lia. destruct (Z.ltb_spec (lo + bLo) bLo); lia.
    - assert ((lo + bLo) mod 2^32 = lo + bLo - 2^32) as ->
        by (symmetry; apply (Z.mod_unique _ _ 1); lia).
      destruct (Z.ltb_spec (lo + bLo - 2^32) bLo); lia. }
  assert (u32 ((if u32 (lo + bLo) <? bLo then u32 (hi + 1) else hi) + bHi) =
          (hi + c + bHi) mod 2^32) as ->.
  { subst c. destruct (u32 (lo + bLo) <? bLo); unfold u32.
    - by rewrite Z.add_mod_idemp_l by lia.
    - f_equal. lia. }
  pose proof (u32_range (lo + bLo)) as Hr. unfold in_u32 in Hr.
  set (l := u32 (lo + bLo)) in *. clearbody l c.
  set (h := hi + c + bHi).
  pose proof (Z.div_mod h (2^32)). pose proof (Z.mod_pos_bound h (2^32)).
  apply (Z.mod_unique _ _ (h / 2^32)); [lia|]. subst h. nia.
Qed.

Lemma lor_double_1 k : 0 <= k -> Z.lor (2 * k) 1 = 2 * k + 1.
Proof. by destruct k. Qed.

Lemma mult_step_b bLo bHi :
  in_u32 bLo -> in_u32 bHi ->
  let bHi1 := u32 (Z.shiftl bHi 1) in
  let bHi' := if negb (Z.land bLo 0x80000000 =? 0) then Z.lor bHi1 1 else bHi1 in
  in_u32 bHi' /\
  bHi' * 2 ^ 32 + u32 (Z.shiftl bLo 1) = (2 * (bHi * 2 ^ 32 + bLo)) mod 2 ^ 64.
Proof.
  intros HL HH. cbv zeta.
  assert (negb (Z.land bLo 0x80000000 =? 0) = bool_decide (2^31 <= bLo)) as ->.
  { change 0x80000000 with (2 ^ 31).
    assert (Z.land bLo (2^31) = if Z.testbit bLo 31 then 2^31 else 0) as ->.
    { apply Z.bits_inj'. intros n Hn. rewrite Z.land_spec.
      destruct (decide (n = 31)) as [->|].
      - rewrite Z.pow2_bits_true by lia. destruct (Z.testbit bLo 31); simpl;
          by rewrite ?Z.bits_0.
      - rewrite (Z.pow2_bits_false 31 n) by lia. rewrite andb_false_r.
        destruct (Z.testbit bLo 31); [by rewrite Z.pow2_bits_false by lia|by rewrite Z.bits_0]. }
    unfold in_u32 in HL. rewrite Z.testbit_odd, Z.shiftr_div_pow2 by lia.
    case_bool_decide.
    - rewrite <-(Z.div_unique bLo (2^31) 1 (bLo - 2^31)) by lia. done.
    - by rewrite Z.div_small by lia. }
  rewrite !Z.shiftl_mul_pow2 by lia. change (2 ^ 1) with 2.
  assert (u32 (bHi * 2) = 2 * (bHi mod 2 ^ 31)) as ->.
  { unfold u32. change (2 ^ 32) with (2 * 2 ^ 31). rewrite Z.mul_comm.
    apply Z.mul_mod_distr_l; lia. }
  pose proof (Z.mod_pos_bound bHi (2^31)) as Hk.
  pose proof (Z.div_mod bHi (2^31)) as Hdm.
  rewrite lor_double_1 by lia. unfold in_u32, u32 in *.
  set (k := bHi mod 2 ^ 31) in *. set (q := bHi / 2 ^ 31) in *. clearbody k q.
  case_bool_decide.
  - rewrite <-(Z.mod_unique (bLo * 2) (2^32) 1 (bLo * 2 - 2^32)) by lia.
    split; [lia|]. apply (Z.mod_unique _ _ q); lia.
  - rewrite (Z.mod_small (bLo * 2)) by lia.
    split; [lia|]. apply (Z.mod_unique _ _ q); lia.
Qed.

(** [a & 1], and what is left of [a] after a shift. *)
Lemma odd_land a : negb (Z.land a 1 =? 0) = Z.odd a.
Proof.
  change 1 with (Z.ones 1). rewrite Z.land_ones, Zmod_odd by lia. by destruct (Z.odd a).
Qed.

Lemma mod_pow2_S a n :
  a mod 2 ^ Z.of_nat (S n) = (if Z.odd a then 1 else 0) + 2 * (Z.shiftr a 1 mod 2 ^ Z.of_nat n).
Proof.
  rewrite Nat2Z.inj_succ, Z.pow_succ_r by lia. rewrite Z.shiftr_div_pow2 by lia.
  change (2 ^ 1) with 2. rewrite Z.rem_mul_r by lia. by rewrite Zmod_odd.
Qed.

(** The early exit of the loop: no bit of [a] is left above bit 0. *)
Lemma last_bit a : Z.odd a = true -> (Z.land (u32 a) 0xfffffffe =? 0) = true -> u32 a = 1.
Proof.
  intros Ho Hz. apply Z.eqb_eq in Hz. apply Z.bits_inj'. intros n Hn.
  destruct (decide (n = 0)) as [->|].
  - rewrite u32_testbit by lia. by rewrite Z.bit0_odd, Ho.
  - rewrite (testbit_above 1 n 1) by lia.
    destruct (decide (n < 32)); [|by apply (testbit_above _ _ 32); [apply u32_range|lia]].
    assert (Z.testbit (Z.land (u32 a) 0xfffffffe) n = false) as E by (rewrite Hz; apply Z.bits_0).
    rewrite Z.land_spec in E. destruct (Z.testbit (u32 a) n); [|done]. simpl in E.
    change 0xfffffffe with (Z.ldiff (Z.ones 32) (Z.ones 1)) in E.
    rewrite Z.ldiff_spec, Z.ones_spec_low, Z.ones_spec_high in E by lia. done.
Qed.

(** The loop adds the remaining bits of [a] times [bHi:bLo] to [hi:lo]. *)
Lemma mult_loop_spec n a bLo bHi lo hi :
  (n <= 32)%nat -> in_u32 bLo -> in_u32 bHi -> in_u32 lo -> in_u32 hi ->
  let r := mult_loop n a bLo bHi lo hi in
  in_u32 r.1 /\ in_u32 r.2 /\
  r.1 * 2 ^ 32 + r.2 =
    (hi * 2 ^ 32 + lo + (bHi * 2 ^ 32 + bLo) * (a mod 2 ^ Z.of_nat n)) mod 2 ^ 64.
Proof.
  revert a bLo bHi lo hi.
  induction n as [|n IH]; intros a bLo bHi lo hi Hn HbL HbH Hlo Hhi; cbv zeta; cbn [mult_loop].
  { split_and!; [done|done|]. simpl Z.of_nat. rewrite Z.pow_0_r, Z.mod_1_r, Z.mul_0_r, Z.add_0_r.
    unfold in_u32 in *. simpl. rewrite Z.mod_small; lia. }
  rewrite odd_land, mod_pow2_S. destruct (mult_step_b bLo bHi HbL HbH) as [HbH' HB].
  pose proof (u32_range (Z.shiftl bLo 1)) as HbL'.
  assert (forall acc acc' B B' t, acc' mod 2 ^ 64 = acc mod 2 ^ 64 -> B' = (2 * B) mod 2 ^ 64 ->
    (acc' + B' * t) mod 2^64 = (acc + B * (0 + 2 * t)) mod 2^64) as Harith.
  { intros acc acc' B B' t E1 ->. rewrite Z.add_mod, E1 by lia.
    rewrite Z.mul_mod_idemp_l by lia. rewrite <-Z.add_mod by lia. f_equal. lia. }
  destruct (Z.odd a) eqn:Ho; cbn [andb].
  - pose proof (mult_step_acc lo hi bLo bHi Hlo Hhi HbL HbH) as HA. cbv zeta in HA.
    set (lo' := u32 (lo + bLo)) in *.
    set (hi' := u32 ((if lo' <? bLo then u32 (hi + 1) else hi) + bHi)) in *.
    assert (in_u32 lo') by apply u32_range. assert (in_u32 hi') by apply u32_range.
    destruct (Z.land (u32 a) 0xfffffffe =? 0) eqn:Hl.
    + split_and!; [done|done|]. simpl. rewrite HA.
      assert (Z.shiftr a 1 mod 2 ^ Z.of_nat n = 0) as ->; [|f_equal; lia].
      pose proof (last_bit a Ho Hl) as E. pose proof (mod_pow2_S a n) as E2.
      rewrite Ho in E2.
      assert (a mod 2 ^ Z.of_nat (S n) = 1) as E3; [|lia].
      rewrite <-(Z.mod_small 1 (2 ^ Z.of_nat (S n))), <-E.
      * unfold u32. apply Z.bits_inj'. intros k Hk.
        destruct (decide (k < Z.of_nat (S n))).
        -- by rewrite !Z.mod_pow2_bits_low by lia.
        -- by rewrite !Z.mod_pow2_bits_high by lia.
      * split; [lia|]. apply Z.pow_gt_1; lia.
    + destruct (IH (Z.shiftr a 1) (u32 (Z.shiftl bLo 1)) _ lo' hi' ltac:(lia) HbL' HbH')
        as (H1 & H2 & H3); [done|done|]. split_and!; [exact H1|exact H2|].
      rewrite H3. rewrite (Harith (hi * 2^32 + lo + (bHi * 2^32 + bLo)) _ (bHi * 2^32 + bLo));
        [f_equal; lia| |exact HB].
      rewrite HA. by rewrite Z.mod_mod by lia.
  - destruct (IH (Z.shiftr a 1) (u32 (Z.shiftl bLo 1)) _ lo hi ltac:(lia) HbL' HbH')
      as (H1 & H2 & H3); [done|done|]. split_and!; [exact H1|exact H2|].
    rewrite H3. by apply Harith.
Qed.

Lemma mult_unsigned a b :
  let r := mult_loop 32 a (u32 b) 0 0 0 in
  in_u32 r.1 /\ in_u32 r.2 /\ r.1 * 2 ^ 32 + r.2 = u32 a * u32 b.
Proof.
  cbv zeta. assert (in_u32 0) by (unfold in_u32; lia).
  destruct (mult_loop_spec 32 a (u32 b) 0 0 0) as (H1 & H2 & H3);
    [lia|apply u32_range|done..|].
  split_and!; [done|done|]. rewrite H3. change (a mod 2 ^ Z.of_nat 32) with (u32 a).
  pose proof (u32_range a). pose proof (u32_range b). unfold in_u32 in *.
  rewrite Z.mod_small; [lia|]. nia.
Qed.

(** High and low words of a product, from their value modulo 2^64. *)
Lemma words_of_product hi lo p k :
  in_u32 hi -> in_u32 lo -> hi * 2 ^ 32 + lo = p + k * 2 ^ 64 ->
  i32 hi = i32 (p / 2 ^ 32) /\ i32 lo = i32 p.
Proof.
  intros Hh Hl E. unfold in_u32 in *.
  assert (p = (hi - k * 2 ^ 32) * 2 ^ 32 + lo) as -> by lia. split.
  - rewrite Z.div_add_l, (Z.div_small lo) by lia.
    replace (hi - k * 2 ^ 32 + 0) with (hi + (- k) * 2 ^ 32) by lia.
    by rewrite i32_add_mult.
  - rewrite Z.add_comm. by rewrite i32_add_mult.
Qed.

Lemma u32_abs a : in_i32 a -> u32 (if a <? 0 then i32 (- a) else a) = Z.abs a.
Proof.
  unfold in_i32. intros Ha. destruct (Z.ltb_spec a 0).
  - rewrite u32_i32, u32_id by (unfold in_u32; lia). lia.
  - rewrite u32_id by (unfold in_u32; lia). lia.
Qed.

Lemma abs_product a b :
  (if xorb (a <? 0) (b <? 0) then - (Z.abs a * Z.abs b) else Z.abs a * Z.abs b) = a * b.
Proof.
  destruct (Z.ltb_spec a 0), (Z.ltb_spec b 0); simpl;
    rewrite ?(Z.abs_neq a), ?(Z.abs_neq b), ?(Z.abs_eq a), ?(Z.abs_eq b) by lia; ring.
Qed.

(** The two's complement negation of the double word. *)
Lemma negate_words hi lo :
  in_u32 hi -> in_u32 lo ->
  let lo' := u32 (u32 (Z.lnot lo) + 1) in
  let hi' := if lo' =? 0 then u32 (u32 (Z.lnot hi) + 1) else u32 (Z.lnot hi) in
  in_u32 hi' /\ in_u32 lo' /\ exists k, hi' * 2 ^ 32 + lo' = - (hi * 2 ^ 32 + lo) + k * 2 ^ 64.
Proof.
  unfold in_u32. intros Hh Hl. cbv zeta.
  assert (forall x, 0 <= x < 2 ^ 32 -> u32 (Z.lnot x) = 2 ^ 32 - 1 - x) as Hn.
  { intros x Hx. unfold u32, Z.lnot. symmetry. apply (Z.mod_unique _ _ (-1)); lia. }
  rewrite !Hn by lia. unfold u32.
  destruct (decide (lo = 0)) as [->|].
  - change ((2 ^ 32 - 1 - 0 + 1) mod 2 ^ 32) with 0. simpl (0 =? 0).
    pose proof (Z.mod_pos_bound (2 ^ 32 - 1 - hi + 1) (2 ^ 32)).
    split_and!; [lia|lia|lia|lia|]. destruct (decide (hi = 0)) as [->|].
    + exists 0. by vm_compute.
    + exists 1. rewrite Z.mod_small; lia.
  - rewrite (Z.mod_small (2 ^ 32 - 1 - lo + 1)) by lia.
    destruct (Z.eqb_spec (2 ^ 32 - 1 - lo + 1) 0); [lia|].
    split_and!; [lia..|]. exists 1. lia.
Qed.

Lemma Mult_eq a b signedArith :
  in_i32 a -> in_i32 b ->
  let p := if signedArith : bool then a * b else u32 a * u32 b in
  Mult a b signedArith = (i32 (p / 2 ^ 32), i32 p).
Proof.
  intros Ha Hb. cbv zeta. unfold Mult.
  destruct ((a =? 0) || (b =? 0)) eqn:Ez.
  { assert (a = 0 \/ b = 0) as Hz.
    { apply orb_true_iff in Ez as [?%Z.eqb_eq|?%Z.eqb_eq]; auto. }
    assert ((if signedArith then a * b else u32 a * u32 b) = 0) as ->.
    { destruct Hz as [-> | ->]; destruct signedArith; rewrite ?Z.mul_0_r; done. }
    done. }
  set (a' := if signedArith && (a <? 0) then i32 (- a) else a).
  set (b' := if signedArith && (b <? 0) then i32 (- b) else b).
  pose proof (mult_unsigned a' b') as Hm. cbv zeta in Hm.
  destruct (mult_loop 32 a' (u32 b') 0 0 0) as [hi lo]. simpl in Hm.
  destruct Hm as (Hhi & Hlo & Hp).
  destruct signedArith; simpl in *.
  - subst a' b'. rewrite !u32_abs in Hp by done.
    destruct (xorb (a <? 0) (b <? 0)) eqn:Ex.
    + destruct (negate_words hi lo Hhi Hlo) as (H1 & H2 & k & H3). cbv zeta in *.
      destruct (words_of_product _ _ (a * b) k H1 H2) as [-> ->]; [|done].
      rewrite H3, Hp. f_equal. pose proof (abs_product a b) as E. by rewrite Ex in E.
    + destruct (words_of_product hi lo (a * b) 0 Hhi Hlo) as [-> ->]; [|done].
      rewrite Hp. pose proof (abs_product a b) as E. rewrite Ex in E. lia.
  - subst a' b'. destruct (words_of_product hi lo (u32 a * u32 b) 0 Hhi Hlo) as [-> ->]; [lia|done].
Qed.

(** ** Decoding *)

Lemma land_ones_range x k : 0 <= k -> 0 <= Z.land x (Z.ones k) < 2 ^ k.
Proof. intros. rewrite Z.land_ones by done. apply Z.mod_pos_bound. lia. Qed.

Lemma land5_range x : 0 <= Z.land x 0x1f < 32.
Proof. apply (land_ones_range x 5). lia. Qed.

Lemma decode_extra_i32 v fmt : in_i32 (decode_extra v fmt).
Proof.
  destruct fmt; simpl.
  - case_match; [apply i32_range|]. apply land_mask_i32. lia.
  - apply land_mask_i32. lia.
  - apply land_mask_i32. lia.
Qed.

(** The opcodes [OneInstruction] has a case for. *)
Definition executable (op : OpCode) : bool :=
  match op with OP_RFE | SPECIAL | BCOND => false | _ => true end.

(** The shifts by a constant: their [extra] is the [shamt] field. *)
Definition const_shift (op : OpCode) : bool :=
  match op with OP_SLL | OP_SRL | OP_SRA => true | _ => false end.

Record instr_ok (i : Instruction) : Prop := {
  ok_op : executable (opCode i) = true;
  ok_rs : 0 <= rs i < 32;
  ok_rt : 0 <= rt i < 32;
  ok_rd : 0 <= rd i < 32;
  ok_extra : in_i32 (extra i);
  ok_shift : const_shift (opCode i) = true -> 0 <= extra i < 32
}.

Lemma specialTable_ok k op : specialTable !! k = Some op -> executable op = true.
Proof.
  assert (forallb executable specialTable = true) as H by reflexivity.
  rewrite forallb_forall in H. intros Hl. apply H, list_elem_of_In.
  by eapply list_elem_of_lookup_2.
Qed.

Lemma opTable_ok k p : opTable !! k = Some p ->
  executable p.1 = true /\ const_shift p.1 = false \/ p = (SPECIAL, RFMT) \/ p = (BCOND, IFMT).
Proof.
  assert (forallb (fun p => (executable p.1 && bool_decide (const_shift p.1 = false))
                            || bool_decide (p.1 = SPECIAL /\ p.2 = RFMT)
                            || bool_decide (p.1 = BCOND /\ p.2 = IFMT)) opTable = true) as H by reflexivity.
  rewrite forallb_forall in H. intros Hl.
  assert (In p opTable) as Hin by (apply list_elem_of_In; by eapply list_elem_of_lookup_2).
  specialize (H p Hin).
  rewrite !orb_true_iff, andb_true_iff, !bool_decide_eq_true in H.
  destruct p; simpl in *; naive_solver.
Qed.

Lemma Decode_ok v : exists i, Decode v = Ok i /\ instr_ok i.
Proof.
  unfold Decode. pose proof (land_ones_range (Z.shiftr v 26) 6) as H6.
  destruct (lookup_lt_is_Some_2 opTable (Z.to_nat (Z.land (Z.shiftr v 26) 0x3f))) as [p Hp].
  { change (length opTable) with 64%nat. change 0x3f with (Z.ones 6). lia. }
  rewrite (arr_get_lookup opTable _ p) by (done || (change 0x3f with (Z.ones 6); lia)).
  cbn [rbind]. pose proof (opTable_ok _ _ Hp) as Hop.
  assert (exists code, (match p.1 with
     | SPECIAL => arr_get specialTable (Z.land v 0x3f)
     | BCOND => Ok (decode_bcond v) | c => Ok c end) = Ok code /\ executable code = true /\
     (const_shift code = true -> p.2 = RFMT))
    as (code & -> & Hc & Hsh).
  { destruct Hop as [[Hop Hcs]|[-> | ->]]; simpl.
    - exists (p.1). split; [by destruct p.1|]. split; [done|congruence].
    - pose proof (land_ones_range v 6) as Hv.
      destruct (lookup_lt_is_Some_2 specialTable (Z.to_nat (Z.land v 0x3f))) as [op Hl].
      { change (length specialTable) with 64%nat. change 0x3f with (Z.ones 6). lia. }
      exists op. rewrite (arr_get_lookup specialTable _ op)
        by (done || (change 0x3f with (Z.ones 6); lia)).
      split; [done|]. split; [by eapply specialTable_ok|done].
    - exists (decode_bcond v). split; [done|]. unfold decode_bcond. by repeat case_match. }
  eexists. split; [done|].
  split; simpl; [done|apply land5_range..|apply decode_extra_i32|].
  intros Hcs. rewrite (Hsh Hcs). apply land5_range.
Qed.

(** ** The machine invariant *)

Definition mem_ok (mem : gmap Z Z) : Prop := map_Forall (fun _ b => 0 <= b < 256) mem.

(** A register file of 40 [int]s, a pending load of a real register, memory
    of bytes, one translation table. *)
Record machine_ok (m : Machine) : Prop := {
  mo_len : length (registers m) = 40%nat;
  mo_int : Forall in_i32 (registers m);
  mo_load : forall r, registers m !! 37%nat = Some r -> 0 <= r < 32;
  mo_mem : mem_ok (mainMemory m);
  mo_tables : tables_ok m
}.

(** Between instructions, [R0] is zero as well. *)
Definition user_ok (m : Machine) : Prop := machine_ok m /\ registers m !! 0%nat = Some 0.

(** A kernel that keeps the machine in shape, given an invariant of its own
    state: [kernel_faults] are the ways its handler may stop the simulator. *)
Class KernelSafe (K : Type) `{!Kernel K} := {
  kernel_inv : K -> Prop;
  kernel_faults : fault -> Prop;
  handler_ok : forall ex, triple (fun w : Machine * K => user_ok w.1 /\ kernel_inv w.2)
    (ExceptionHandler ex) (fun _ w => user_ok w.1 /\ kernel_inv w.2) kernel_faults
}.

(** The faults an instruction itself may cause. *)
Definition op_faults (op : OpCode) (f : fault) : Prop :=
  match f with
  | AssertFail => op ∈ [OP_LWL; OP_LWR; OP_SWL; OP_SWR]
  | UndefinedArith => op = OP_DIV
  | _ => False
  end.

Lemma machine_ok_set_registers m l :
  machine_ok m -> length l = 40%nat -> Forall in_i32 l ->
  (forall r, l !! 37%nat = Some r -> 0 <= r < 32) -> machine_ok (set_registers m l).
Proof. intros [] ? ? ?. by split. Qed.

Lemma reg_get_ok m i : machine_ok m -> 0 <= i < 40 ->
  exists v, reg_get m i = Ok v /\ registers m !! Z.to_nat i = Some v /\ in_i32 v.
Proof.
  intros [Hl Hi _ _ _] Hr. destruct (arr_get_in (registers m) i) as (v & Hv & Hin); [lia|].
  exists v. split; [done|]. apply arr_get_Ok in Hv as [_ Hv]. split; [done|].
  by apply (proj1 (Forall_forall _ _) Hi).
Qed.

Lemma reg_set_ok m i v : machine_ok m -> 0 <= i < 40 -> in_i32 v -> (i = LoadReg -> 0 <= v < 32) ->
  reg_set m i v = Ok (set_registers m (<[Z.to_nat i := v]> (registers m))) /\
  machine_ok (set_registers m (<[Z.to_nat i := v]> (registers m))).
Proof.
  intros Hm Hr Hv Hlr. pose proof (mo_len m Hm). unfold reg_set.
  rewrite arr_set_in by lia. split; [done|].
  apply machine_ok_set_registers; [done|by rewrite length_insert|by apply Forall_insert, Hv; apply Hm|].
  intros r. rewrite list_lookup_insert. unfold LoadReg in *.
  case_decide as Hd; [|apply Hm]. intros [= <-]. apply Hlr. lia.
Qed.

Lemma DelayedLoad_ok m lr lv : machine_ok m -> 0 <= lr < 32 -> in_i32 lv ->
  exists m' pl pv, DelayedLoad m lr lv = Ok m' /\ user_ok m' /\
    registers m !! 37%nat = Some pl /\ registers m !! 38%nat = Some pv /\ 0 <= pl < 32 /\
    m' = set_registers m (<[0%nat := 0]> (<[38%nat := lv]> (<[37%nat := lr]>
           (<[Z.to_nat pl := pv]> (registers m))))).
Proof.
  intros Hm Hlr Hlv. assert (in_i32 lr) by (unfold in_i32; lia). unfold DelayedLoad.
  destruct (reg_get_ok m LoadReg Hm) as (pl & -> & Hpl & _); [done|].
  destruct (reg_get_ok m LoadValueReg Hm) as (pv & -> & Hpv & Hpvi); [done|]. cbn [rbind].
  pose proof (mo_load m Hm pl Hpl) as Hplr.
  destruct (reg_set_ok m pl pv Hm) as [-> Hm1]; [lia|done|unfold LoadReg; lia|]. cbn [rbind].
  match type of Hm1 with machine_ok ?x => set (m1 := x) in * end.
  destruct (reg_set_ok m1 LoadReg lr Hm1) as [-> Hm2]; [done|done|done|]. cbn [rbind].
  match type of Hm2 with machine_ok ?x => set (m2 := x) in * end.
  destruct (reg_set_ok m2 LoadValueReg lv Hm2) as [-> Hm3]; [done|done|done|]. cbn [rbind].
  match type of Hm3 with machine_ok ?x => set (m3 := x) in * end.
  destruct (reg_set_ok m3 0 0 Hm3) as [-> Hm4]; [lia|unfold in_i32; lia|done|].
  eexists _, pl, pv. split; [done|]. split_and!; try done; [split; [done|]|lia|lia].
  simpl. apply list_lookup_insert_eq. rewrite !length_insert. pose proof (mo_len m Hm). lia.
Qed.

Section Safety.
Context {K : Type} `{!Kernel K} `{!KernelSafe K}.
Abbreviation world := (Machine * K)%type.
Abbreviation outcome := (option (Z * Z * Z)).

Definition MOK (w : world) : Prop := machine_ok w.1 /\ kernel_inv w.2.
Definition UOK (w : world) : Prop := user_ok w.1 /\ kernel_inv w.2.

Lemma UOK_MOK w : UOK w -> MOK w.
Proof. by intros [[? _] ?]. Qed.

Lemma triple_rget E i : 0 <= i < 40 ->
  triple MOK (rget i) (fun v w => MOK w /\ in_i32 v) E.
Proof.
  intros Hi [m k] [Hm Hk]. unfold rget. destruct (reg_get_ok m i Hm Hi) as (v & -> & _ & Hv).
  by split; [split|].
Qed.

Lemma triple_rset E i v : 0 <= i < 40 -> i <> LoadReg -> in_i32 v ->
  triple MOK (rset i v) (fun _ w => MOK w) E.
Proof.
  intros Hi Hne Hv [m k] [Hm Hk]. unfold rset.
  destruct (reg_set_ok m i v Hm Hi Hv) as [-> ?]; done.
Qed.

Lemma triple_delayed E lr lv : 0 <= lr < 32 -> in_i32 lv ->
  triple MOK (on_machine_ (fun m => DelayedLoad m lr lv)) (fun _ w => UOK w) E.
Proof.
  intros Hlr Hlv [m k] [Hm Hk]. unfold on_machine_.
  destruct (DelayedLoad_ok m lr lv Hm Hlr Hlv) as (m' & _ & _ & -> & ? & _). done.
Qed.

Lemma user_ok_status m st : user_ok m -> user_ok (set_status m st).
Proof. by intros [[] ?]. Qed.

Lemma triple_raise E ex addr : in_i32 addr -> (forall f, kernel_faults f -> E f) ->
  triple MOK (RaiseException (K:=K) ex addr) (fun _ w => UOK w) E.
Proof.
  intros Ha HE. unfold RaiseException.
  eapply triple_bind; [apply (triple_rset _ BadVAddrReg addr); done|intros []; cbv beta].
  eapply triple_bind; [apply triple_delayed; unfold in_i32; lia|intros []; cbv beta].
  eapply (triple_bind _ _ _ (fun _ => UOK)); [intros [m k] [Hw Hk]; split; [by apply user_ok_status|done]|intros []].
  eapply triple_bind; [eapply triple_conseq; [apply handler_ok|done..]|intros []; cbv beta].
  intros [m k] [Hw Hk]. split; [by apply user_ok_status|done].
Qed.

Lemma load_bytes_range n mem a v :
  mem_ok mem -> load_bytes n mem a = Ok v -> 0 <= v < 2 ^ (8 * Z.of_nat n).
Proof.
  intros Hm. revert a v. induction n as [|n IH]; intros a v H; cbn [load_bytes] in H.
  { simplify_eq. simpl. lia. }
  apply rbind_Ok in H as (b & Hb & H). apply rbind_Ok in H as (r & Hr & [= <-]).
  specialize (IH _ _ Hr). unfold mem_byte in Hb. case_decide; [|done]. simplify_eq.
  assert (0 <= default 0 (mem !! a) < 256) as Hb.
  { destruct (mem !! a) as [b|] eqn:E; simpl; [by apply (Hm a)|lia]. }
  assert (0 <= Z.shiftl r 8) by (apply Z.shiftl_nonneg; lia).
  assert (0 <= Z.lor (default 0 (mem !! a)) (Z.shiftl r 8)) by (apply Z.lor_nonneg; lia).
  split; [done|]. apply bits_bound; [lia|done|].
  intros k Hk. rewrite Z.lor_spec, Z.shiftl_spec, (testbit_above _ k 8) by lia. simpl.
  apply (testbit_above _ _ (8 * Z.of_nat n)); lia.
Qed.

Lemma mem_set_byte_ok mem a v mem' : mem_ok mem -> mem_set_byte mem a v = Ok mem' -> mem_ok mem'.
Proof.
  unfold mem_set_byte. intros Hm H. case_decide; [|done]. simplify_eq.
  apply map_Forall_insert_2; [|done]. apply Z.mod_pos_bound. lia.
Qed.

Lemma store_bytes_ok n mem a v mem' : mem_ok mem -> store_bytes n mem a v = Ok mem' -> mem_ok mem'.
Proof.
  revert mem a v. induction n as [|n IH]; intros mem a v Hm H; cbn [store_bytes] in H.
  { by simplify_eq. }
  apply rbind_Ok in H as (m1 & H1 & H). eapply IH; [|done]. by eapply mem_set_byte_ok.
Qed.

Lemma mem_read_ok mem pa size : mem_ok mem -> access_size size -> 0 <= pa ->
  pa + size <= MemorySize -> exists v, mem_read mem pa size = Ok v /\ in_i32 v.
Proof.
  intros Hm Hs H1 H2.
  assert (forall n a, 0 <= a -> a + Z.of_nat n <= MemorySize -> exists v, load_bytes n mem a = Ok v) as HL.
  { induction n as [|n IH]; intros a Ha Hn; cbn [load_bytes]; [eauto|].
    rewrite mem_byte_in by lia. destruct (IH (a + 1)) as [v Hv]; [lia|lia|].
    cbn [rbind]. rewrite Hv. eauto. }
  destruct Hs as [->|[->| ->]]; unfold mem_read.
  - rewrite mem_byte_in by lia. eexists. split; [done|].
    unfold i8, in_i32. pose proof (Z.mod_pos_bound (default 0 (mem !! pa) + 2^7) (2^8)). lia.
  - destruct (HL 2%nat pa) as [v Hv]; [lia|lia|]. rewrite Hv. eexists. split; [done|].
    pose proof (load_bytes_range 2 mem pa v Hm Hv). unfold ShortToHost, in_i32. lia.
  - destruct (HL 4%nat pa) as [v Hv]; [lia|lia|]. rewrite Hv. eexists. split; [done|].
    apply i32_range.
Qed.

Lemma mem_write_ok mem pa size v : mem_ok mem -> access_size size -> 0 <= pa ->
  pa + size <= MemorySize -> exists mem', mem_write mem pa size v = Ok mem' /\ mem_ok mem'.
Proof.
  intros Hm Hs H1 H2. destruct (mem_write_spec mem pa size v Hs H1 H2) as (mem' & H & _).
  exists mem'. split; [done|].
  destruct Hs as [->|[->| ->]]; unfold mem_write in H;
    eauto using mem_set_byte_ok, store_bytes_ok.
Qed.

Lemma machine_ok_with_entry m i e : machine_ok m -> machine_ok (with_entry m i e).
Proof.
  intros [H1 H2 H3 H4 H5]. pose proof (with_entry_tables_ok m i e H5).
  unfold with_entry in *. destruct (tlb m); by split.
Qed.

Lemma machine_ok_mem m mem : machine_ok m -> mem_ok mem -> machine_ok (set_memory m mem).
Proof. intros [] ?. by split. Qed.

(** Translation keeps the invariant and lands in memory. *)
Lemma triple_translate E va size writing : access_size size ->
  triple MOK (on_machine (K:=K) (fun m => Translate m va size writing))
    (fun r w => MOK w /\ match r with inl _ => True | inr pa => 0 <= pa /\ pa + size <= MemorySize end) E.
Proof.
  intros Hs [m k] [Hm Hk]. unfold on_machine, MOK. simpl in Hm, Hk.
  pose proof (Translate_eq m va size writing (mo_tables m Hm) Hs) as HT.
  destruct (misaligned va size) eqn:Hmis; [rewrite HT; by split; [split|]|].
  destruct HT as [(i & e & _ & ->)|[_ ->]]; [|by split; [split|]].
  unfold translate_hit. destruct (readOnly e && writing); [by split; [split|]|].
  rewrite Z.geb_leb. destruct (Z.leb_spec NumPhysPages (frame_of e)); [by split; [split|]|].
  split; [split; [by apply machine_ok_with_entry|done]|].
  destruct (aligned_in_page va size Hs Hmis) as [Ha Hin]. pose proof (offset_range va).
  pose proof (u32_range (physicalPage e)) as Hfr. fold (frame_of e) in Hfr.
  destruct (page_access_in_memory (frame_of e) (u32 va mod PageSize) size Hs)
    as (? & ? & _); [unfold in_u32 in *; lia|lia|done|done|]. done.
Qed.

Lemma triple_read E va size : access_size size -> in_i32 va -> (forall f, kernel_faults f -> E f) ->
  triple MOK (ReadMem (K:=K) va size)
    (fun r w => match r with None => UOK w | Some v => MOK w /\ in_i32 v end) E.
Proof.
  intros Hs Hva HE. unfold ReadMem.
  eapply triple_bind; [by apply triple_translate|intros r]. apply triple_pre. intros Hr.
  destruct r as [ex|pa].
  - eapply triple_bind; [by apply triple_raise|intros []]. by apply triple_ret.
  - eapply (triple_bind _ _ _ (fun v w => MOK w /\ in_i32 v)); [|intros v; by apply triple_ret].
    intros [m k] [Hm Hk]. unfold on_machine, ReadMem_at, MOK. simpl in Hm, Hk.
    destruct (mem_read_ok (mainMemory m) pa size (mo_mem m Hm)) as (v & -> & Hv); [done|lia|lia|].
    cbn [rbind]. split; [|done]. split; [by destruct Hm|done].
Qed.

Lemma triple_write E va size v : access_size size -> in_i32 va -> (forall f, kernel_faults f -> E f) ->
  triple MOK (WriteMem (K:=K) va size v)
    (fun ok w => if ok : bool then MOK w else UOK w) E.
Proof.
  intros Hs Hva HE. unfold WriteMem.
  eapply triple_bind; [by apply triple_translate|intros r]. apply triple_pre. intros Hr.
  destruct r as [ex|pa].
  - eapply triple_bind; [by apply triple_raise|intros []]. by apply triple_ret.
  - eapply (triple_bind _ _ _ (fun _ w => MOK w)); [|intros []; by apply triple_ret].
    intros [m k] [Hm Hk]. unfold on_machine_, WriteMem_at, MOK. simpl in Hm, Hk.
    destruct (mem_write_ok (mainMemory m) pa size v (mo_mem m Hm)) as (mem' & -> & Hv); [done|lia|lia|].
    cbn [rbind]. pose proof (machine_ok_mem m mem' Hm Hv) as Hm'. split; [by destruct Hm'|done].
Qed.

(** What the [switch] establishes: after a trap the machine is ready for the
    next instruction; otherwise the values for the epilogue are in range. *)
Definition POST (o : outcome) (w : world) : Prop :=
  match o with
  | None => UOK w
  | Some (pcAfter, lr, lv) => MOK w /\ in_i32 pcAfter /\ 0 <= lr < 32 /\ in_i32 lv
  end.

Lemma triple_continue E pc : in_i32 pc -> triple MOK (continue (K:=K) pc) POST E.
Proof. intros Hpc. apply triple_ret. intros s Hs. split; [done|]. split; [done|]. unfold in_i32. lia. Qed.

Lemma triple_load_next E pc r v : in_i32 pc -> 0 <= r < 32 -> in_i32 v ->
  triple MOK (load_next (K:=K) pc r v) POST E.
Proof. intros. apply triple_ret. intros s Hs. split; [done|]. by split. Qed.

Lemma triple_trap E ex addr : in_i32 addr -> (forall f, kernel_faults f -> E f) ->
  triple MOK (trap (K:=K) ex addr) POST E.
Proof.
  intros. unfold trap. eapply triple_bind; [by apply triple_raise|intros []].
  by apply triple_ret.
Qed.

Ltac in_range :=
  first [ assumption | apply i32_range | apply b2z_i32
        | (apply land_mask_i32; lia) | (unfold in_i32; lia)
        | (unfold HiReg, LoReg, PCReg, NextPCReg, PrevPCReg, LoadReg, LoadValueReg, R31 in *; lia)
        | (apply lor_i32; in_range) | (apply land_i32; in_range) | (apply lxor_i32; in_range)
        | (apply lnot_i32; in_range) | (apply shiftr_i32; [|in_range]; lia)
        | idtac ].

(** One step of a routine built from register accesses and continuations. *)
Ltac triple_step :=
  lazymatch goal with
  | |- triple _ (sbind (rget _) _) _ _ =>
      eapply triple_bind; [apply triple_rget; in_range|];
      let v := fresh "v" in let Hv := fresh "Hv" in intros v; apply triple_pre; intros Hv
  | |- triple _ (sbind (rset _ _) _) _ _ =>
      eapply triple_bind; [apply triple_rset; in_range|intros []; cbv beta]
  | |- triple _ (continue _) _ _ => apply triple_continue; in_range
  | |- triple _ (load_next _ _ _) _ _ => apply triple_load_next; in_range
  | |- triple _ (trap _ _) _ _ => apply triple_trap; [in_range|assumption]
  | |- triple _ (if ?b then _ else _) _ _ => destruct b
  | |- triple _ (branch _ _ _) _ _ => unfold branch
  | |- triple _ (sbind (link _) _) _ _ =>
      eapply (triple_bind _ _ _ (fun _ w => MOK w)); [unfold link|intros []; cbv beta]
  | |- triple _ (rset _ _) _ _ => apply triple_rset; in_range
  end.

Section Ops.
  Context (E : fault -> Prop) (HE : forall f, kernel_faults f -> E f).
  Context (i : Instruction) (Hi : instr_ok i) (pc : Z) (Hpc : in_i32 pc).

Lemma triple_exec_r f : (forall a b, in_i32 a -> in_i32 b -> in_i32 (f a b)) ->
  triple MOK (exec_r (K:=K) f i pc) POST E.
Proof. destruct Hi. intros Hf. unfold exec_r. repeat triple_step. by apply Hf. Qed.

Lemma triple_exec_i f : (forall a, in_i32 a -> in_i32 (f a (extra i))) ->
  triple MOK (exec_i (K:=K) f i pc) POST E.
Proof. destruct Hi. intros Hf. unfold exec_i. repeat triple_step. by apply Hf. Qed.

Lemma triple_exec_move a b : 0 <= a < 40 -> 0 <= b < 40 -> b <> LoadReg ->
  triple MOK (exec_move (K:=K) a b pc) POST E.
Proof. intros. unfold exec_move. repeat triple_step. Qed.

Lemma triple_after_read {A} (va size : Z) (f : Z -> ST world A) (g : ST world A) Q :
  access_size size -> in_i32 va ->
  (forall v, in_i32 v -> triple MOK (f v) Q E) -> triple UOK g Q E ->
  triple MOK (r <- ReadMem va size ;; match r with None => g | Some v => f v end) Q E.
Proof.
  intros Hs Hva Hf Hg. eapply triple_bind; [by apply triple_read|].
  intros [v|]; [|done]. apply triple_pre. auto.
Qed.

Lemma triple_after_write va size v :
  access_size size -> in_i32 va ->
  triple MOK (ok <- WriteMem va size v ;; if ok : bool then continue pc else sret None) POST E.
Proof.
  intros Hs Hva. eapply triple_bind; [by apply triple_write|].
  intros []; [by apply triple_continue|by apply triple_ret].
Qed.

Lemma triple_assert (b : bool) Q (c : ST world outcome) :
  E AssertFail -> (b = true -> triple MOK c Q E) -> triple MOK (assert_st b ;;; c) Q E.
Proof.
  intros Hf Hc. eapply (triple_bind _ _ _ (fun _ w => MOK w /\ b = true)).
  - apply triple_lift. destruct b; simpl; auto.
  - intros []. apply triple_pre. done.
Qed.

Lemma as_size1 : access_size 1. Proof. by left. Qed.
Lemma as_size2 : access_size 2. Proof. by right; left. Qed.
Lemma as_size4 : access_size 4. Proof. by right; right. Qed.

Lemma triple_exec_store size : access_size size -> triple MOK (exec_store (K:=K) size i pc) POST E.
Proof.
  destruct Hi. intros Hs. unfold exec_store. repeat triple_step.
  apply triple_after_write; [done|apply i32_range].
Qed.

Lemma triple_exec_lb b : triple MOK (exec_lb (K:=K) b i pc) POST E.
Proof.
  destruct Hi. unfold exec_lb. triple_step.
  apply triple_after_read; [apply as_size1|apply i32_range| |by apply triple_ret].
  intros x Hx. triple_step. case_match; in_range.
Qed.

Lemma triple_exec_lh b : triple MOK (exec_lh (K:=K) b i pc) POST E.
Proof.
  destruct Hi. unfold exec_lh. triple_step. cbv zeta. triple_step; [triple_step|].
  apply triple_after_read; [apply as_size2|apply i32_range| |by apply triple_ret].
  intros x Hx. triple_step. case_match; in_range.
Qed.

Lemma triple_exec_lw : triple MOK (exec_lw (K:=K) i pc) POST E.
Proof.
  destruct Hi. unfold exec_lw. triple_step. cbv zeta. triple_step; [triple_step|].
  apply triple_after_read; [apply as_size4|apply i32_range| |by apply triple_ret].
  intros x Hx. triple_step.
Qed.

Lemma triple_exec_lwx merge : E AssertFail ->
  (forall x y, in_i32 x -> in_i32 y -> in_i32 (merge 0 x y)) ->
  triple MOK (exec_lwx (K:=K) merge i pc) POST E.
Proof.
  destruct Hi. intros HA Hm. unfold exec_lwx. triple_step. cbv zeta.
  apply triple_assert; [done|]. intros ->%Z.eqb_eq.
  apply triple_after_read; [apply as_size4|apply i32_range| |by apply triple_ret].
  intros x Hx. triple_step.
  eapply (triple_bind _ _ _ (fun v w => MOK w /\ in_i32 v)).
  - case_match; apply triple_rget; in_range.
  - intros old. apply triple_pre. intros Hold. triple_step. by apply Hm.
Qed.

Lemma triple_exec_swx merge : E AssertFail ->
  triple MOK (exec_swx (K:=K) merge i pc) POST E.
Proof.
  destruct Hi. intros HA. unfold exec_swx. triple_step. cbv zeta.
  assert (in_i32 (Z.land (i32 (v + extra i)) (Z.lnot 3))).
  { apply land_i32; [apply i32_range|apply lnot_i32; unfold in_i32; lia]. }
  apply triple_assert; [done|]. intros _.
  apply triple_after_read; [apply as_size4|done| |by apply triple_ret].
  intros x Hx. triple_step. by apply triple_after_write; [apply as_size4|].
Qed.

Lemma quot_i32 a b : in_i32 a -> in_i32 b -> b <> 0 -> ~ (a = - 2 ^ 31 /\ b = -1) ->
  in_i32 (Z.quot a b) /\ in_i32 (Z.rem a b).
Proof.
  unfold in_i32. intros Ha Hb Hn Hov. split.
  - destruct (decide (b = -1)) as [->|].
    { change (-1) with (- (1)). rewrite Z.quot_opp_r, Z.quot_1_r by lia. lia. }
    destruct (decide (b = 1)) as [->|]; [rewrite Z.quot_1_r; lia|].
    assert (Z.abs (Z.quot a b) <= 2 ^ 30); [|lia].
    rewrite <-Z.quot_abs by done. rewrite Z.quot_div_nonneg by lia.
    apply Z.div_le_upper_bound; nia.
  - pose proof (Z.rem_bound_abs a b Hn). lia.
Qed.

Lemma triple_exec_div : E UndefinedArith -> triple MOK (exec_div (K:=K) i pc) POST E.
Proof.
  destruct Hi. intros HU. unfold exec_div. triple_step.
  destruct (Z.eqb_spec v 0) as [|Hv0]; [repeat triple_step; in_range|]. triple_step.
  destruct ((v0 =? - 2 ^ 31) && (v =? -1)) eqn:Eo; [by apply triple_fail|].
  destruct (quot_i32 v0 v) as [Hq Hr]; [done|done|done| |].
  { intros [-> ->]. by vm_compute in Eo. }
  repeat triple_step.
Qed.

Lemma triple_exec_divu : triple MOK (exec_divu (K:=K) i pc) POST E.
Proof. destruct Hi. unfold exec_divu. repeat triple_step. Qed.

Lemma triple_exec_mult b : triple MOK (exec_mult (K:=K) b i pc) POST E.
Proof.
  destruct Hi. unfold exec_mult. do 2 triple_step. rewrite Mult_eq by done.
  repeat triple_step.
Qed.
End Ops.

Definition step_faults (op : OpCode) (f : fault) : Prop := kernel_faults f \/ op_faults op f.

Lemma sf_kernel op f : kernel_faults f -> step_faults op f.
Proof. by left. Qed.

Lemma shiftl16_i32 (x : Z) : in_i32 (i32 (Z.shiftl x 16)).
Proof. apply i32_range. Qed.

Lemma triple_link E r : 0 <= r < 40 -> r <> LoadReg ->
  triple MOK (link (K:=K) r) (fun _ w => MOK w) E.
Proof. intros. unfold link. repeat triple_step. Qed.

Ltac linked := eapply triple_bind; [apply triple_link; in_range|intros []; cbv beta].

(** Every opcode keeps the invariant, and stops only as [step_faults] says. *)
Lemma triple_exec_op i pc : instr_ok i -> in_i32 pc ->
  triple MOK (exec_op (K:=K) i pc) POST (step_faults (opCode i)).
Proof.
  intros Hok Hpc. pose proof Hok as [Hop Hrs Hrt Hrd Hex Hsh].
  pose proof (sf_kernel (opCode i)) as HE.
  assert (forall a, 0 <= Z.land a 31) by (intros; apply land5_range).
  unfold exec_op. destruct (opCode i) eqn:Eop; try done;
    try (apply triple_exec_r; [done..|]; intros; in_range; fail);
    try (apply triple_exec_i; [done..|]; intros; in_range; fail);
    try (by repeat triple_step);
    try (by linked; repeat triple_step);
    try (by apply triple_exec_store; unfold access_size; auto);
    try (by apply triple_exec_lb); try (by apply triple_exec_lh);
    try (by apply triple_exec_lw); try (by apply triple_exec_divu);
    try (by apply triple_exec_mult);
    try (by apply triple_exec_move; in_range);
    try (by unfold exec_add, exec_addi, exec_sub; repeat triple_step);
    try (by apply triple_exec_div; [..|right]).
  all: try (apply triple_exec_r; [done..|]; intros;
            apply shiftr_i32; [first [by apply Hsh|done]|done]).
  all: try (apply triple_exec_lwx; [done..|right; simpl; set_solver|];
            intros; first [done|apply i32_range]).
  all: try (apply triple_exec_swx; [done..|right; simpl; set_solver]).
Qed.
End Safety.

Section Step.
Context {K : Type} `{!Kernel K} `{!KernelSafe K}.
Abbreviation world := (Machine * K)%type.

Lemma triple_finish E pc lr lv : in_i32 pc -> 0 <= lr < 32 -> in_i32 lv ->
  triple MOK (finish_instruction (K:=K) pc lr lv) (fun _ w => UOK w) E.
Proof.
  intros Hpc Hlr Hlv [m k] [Hm Hk]. unfold finish_instruction, sbind, on_machine_.
  simpl in Hm, Hk. destruct (DelayedLoad_ok m lr lv Hm Hlr Hlv) as (m1 & _ & _ & -> & [Hm1 H0] & _).
  cbn [rbind]. unfold rget, rset.
  destruct (reg_get_ok m1 PCReg Hm1) as (p & -> & _ & Hp); [done|]. cbn [rbind].
  destruct (reg_set_ok m1 PrevPCReg p Hm1) as [-> Hm2]; [done|done|done|]. cbn [rbind].
  match type of Hm2 with machine_ok ?x => set (m2 := x) in * end.
  destruct (reg_get_ok m2 NextPCReg Hm2) as (n & -> & _ & Hn); [done|]. cbn [rbind].
  destruct (reg_set_ok m2 PCReg n Hm2) as [-> Hm3]; [done|done|done|]. cbn [rbind].
  match type of Hm3 with machine_ok ?x => set (m3 := x) in * end.
  destruct (reg_set_ok m3 NextPCReg pc Hm3) as [-> Hm4]; [done|done|done|]. cbn [rbind].
  split; [|done]. split; [done|]. simpl. rewrite !list_lookup_insert_ne; [done|discriminate..].
Qed.

Lemma triple_OneInstruction :
  triple (UOK (K:=K)) OneInstruction (fun _ => UOK)
    (fun f => exists op, step_faults (K:=K) op f).
Proof.
  unfold OneInstruction.
  apply (triple_conseq _ MOK _ _ (fun _ => UOK) _
    (fun f => exists op, step_faults (K:=K) op f)); [|apply UOK_MOK|done|done].
  eapply triple_bind; [apply triple_rget; done|].
  intros pc. apply triple_pre. intros Hpc.
  eapply triple_bind; [apply triple_read; [by right; right|done|]|].
  { intros f Hf. exists OP_RES. by left. }
  intros [raw|]; [|by apply triple_ret]. apply triple_pre. intros Hraw.
  destruct (Decode_ok (u32 raw)) as (i & HD & Hi). rewrite HD.
  eapply (triple_bind _ _ _ (fun i' w => MOK w /\ i' = i)); [by apply triple_lift|].
  intros i'. apply triple_pre. intros ->.
  eapply triple_bind; [apply triple_rget; done|].
  intros next. apply triple_pre. intros Hnext.
  eapply triple_bind.
  { eapply triple_conseq; [apply (triple_exec_op i); [done|apply i32_range]|done|done|].
    intros f Hf. by exists (opCode i). }
  intros [[[pc' lr] lv]|]; [|by apply triple_ret].
  intros w (Hw & Hpc' & Hlr & Hlv). by apply triple_finish.
Qed.
End Step.

(** ** Encodings, to state what [Decode] inverts *)

Definition encode_r (funct rs rt rd shamt : Z) : Z :=
  funct + 2 ^ 6 * shamt + 2 ^ 11 * rd + 2 ^ 16 * rt + 2 ^ 21 * rs.
Definition encode_i (opc rs rt imm : Z) : Z :=
  u16 imm + 2 ^ 16 * rt + 2 ^ 21 * rs + 2 ^ 26 * opc.
Definition encode_j (opc target : Z) : Z := target + 2 ^ 26 * opc.

Lemma field x k w : 0 <= k -> 0 <= w ->
  Z.land (Z.shiftr x k) (Z.ones w) = (x / 2 ^ k) mod 2 ^ w.
Proof. intros. by rewrite Z.land_ones, Z.shiftr_div_pow2. Qed.

Lemma sign_extend_16 imm : - 2 ^ 15 <= imm < 2 ^ 15 ->
  (if negb (Z.land (u16 imm) 0x8000 =? 0) then i32 (Z.lor (u16 imm) 0xffff0000) else u16 imm) = imm.
Proof.
  intros Hi. assert (0 <= u16 imm < 2 ^ 16) as Hr by (apply Z.mod_pos_bound; lia).
  assert (Z.testbit (u16 imm) 15 = bool_decide (imm < 0)) as Hb.
  { rewrite Z.testbit_odd, Z.shiftr_div_pow2 by lia. unfold u16 in *.
    destruct (decide (imm < 0)).
    - rewrite bool_decide_eq_true_2 by done.
      rewrite <-(Z.mod_unique imm (2 ^ 16) (-1) (imm + 2 ^ 16)) by lia.
      rewrite <-(Z.div_unique (imm + 2 ^ 16) (2 ^ 15) 1 (imm + 2 ^ 15)) by lia. done.
    - rewrite bool_decide_eq_false_2, (Z.mod_small imm), Z.div_small by lia. done. }
  change 0x8000 with (2 ^ 15). rewrite land_pow2_test, Hb by lia.
  case_bool_decide as Hneg; [|apply Z.mod_small; lia].
  assert (u16 imm = imm + 2 ^ 16) as E.
  { unfold u16. symmetry. apply (Z.mod_unique _ _ (-1)); lia. }
  assert (Z.lor (u16 imm) 0xffff0000 = u16 imm + 0xffff0000) as ->.
  { change 0xffff0000 with (Z.shiftl 0xffff 16). rewrite Z.add_nocarry_lxor, Z.lxor_lor; [done|..];
      apply Z.bits_inj'; intros n Hn; rewrite Z.land_spec, Z.shiftl_spec, Z.bits_0 by lia;
      (destruct (decide (n < 16)); [by rewrite (Z.testbit_neg_r _ (n - 16)), andb_false_r by lia|
       by rewrite (testbit_above (u16 imm) n 16) by lia]). }
  rewrite E. replace (imm + 2 ^ 16 + 0xffff0000) with (imm + 1 * 2 ^ 32) by lia.
  rewrite i32_add_mult. apply i32_id. unfold in_i32. lia.
Qed.

(** The fields of an encoded word, as quotients and remainders. *)
Ltac field_eq :=
  try change 0x1f with (Z.ones 5); try change 0x3f with (Z.ones 6);
  rewrite ?field, ?Z.land_ones by lia; unfold encode_r, encode_i, encode_j, u16 in *;
  change (2 ^ 5) with 32 in *; change (2 ^ 6) with 64 in *; change (2 ^ 11) with 2048 in *;
  change (2 ^ 16) with 65536 in *; change (2 ^ 21) with 2097152 in *;
  change (2 ^ 26) with 67108864 in *;
  Z.div_mod_to_equations; lia.

Lemma sign_bit_ltb x : in_i32 x -> sign_bit x = (x <? 0).
Proof.
  intros Hx. unfold sign_bit, SIGN_BIT. change 0x80000000 with (2 ^ 31).
  rewrite land_pow2_test, u32_testbit by lia. change (31 <? 32) with true. cbn [andb].
  rewrite Z.testbit_odd, Z.shiftr_div_pow2 by lia. unfold in_i32 in Hx.
  destruct (Z.ltb_spec x 0).
  - rewrite <-(Z.div_unique x (2 ^ 31) (-1) (x + 2 ^ 31)) by lia. done.
  - by rewrite Z.div_small by lia.
Qed.

Lemma sign_bit_lxor x y : in_i32 x -> in_i32 y ->
  sign_bit (Z.lxor x y) = xorb (x <? 0) (y <? 0).
Proof.
  intros Hx Hy. rewrite sign_bit_ltb by (by apply lxor_i32).
  destruct (Z.ltb_spec (Z.lxor x y) 0) as [H|H];
    pose proof (Z.lxor_nonneg x y);
    destruct (Z.ltb_spec x 0), (Z.ltb_spec y 0); simpl; try done; lia.
Qed.

Lemma i32_near x : - 2 ^ 32 <= x < 2 ^ 32 ->
  i32 x = if decide (x < - 2 ^ 31) then x + 2 ^ 32
          else if decide (x < 2 ^ 31) then x else x - 2 ^ 32.
Proof.
  intros Hx. repeat case_decide.
  - rewrite <-(i32_add_mult x 1). apply i32_id. unfold in_i32. lia.
  - apply i32_id. unfold in_i32. lia.
  - rewrite <-(i32_add_mult x (-1)). apply i32_id. unfold in_i32. lia.
Qed.

(** The sign tests of ADD and ADDI, of SUB: they hold exactly on overflow. *)
Lemma add_overflow_test a b : in_i32 a -> in_i32 b ->
  negb (sign_bit (Z.lxor a b)) && sign_bit (Z.lxor a (i32 (a + b))) =
  negb (bool_decide (- 2 ^ 31 <= a + b < 2 ^ 31)).
Proof.
  intros Ha Hb. rewrite !sign_bit_lxor by (done || apply i32_range).
  unfold in_i32 in *. rewrite i32_near by lia.
  repeat case_decide; case_bool_decide;
    destruct (Z.ltb_spec a 0), (Z.ltb_spec b 0); simpl;
    repeat match goal with |- context [?x <? ?y] => destruct (Z.ltb_spec x y) end;
    try done; lia.
Qed.

Lemma sub_overflow_test a b : in_i32 a -> in_i32 b ->
  sign_bit (Z.lxor a b) && sign_bit (Z.lxor a (i32 (a - b))) =
  negb (bool_decide (- 2 ^ 31 <= a - b < 2 ^ 31)).
Proof.
  intros Ha Hb. rewrite !sign_bit_lxor by (done || apply i32_range).
  unfold in_i32 in *. rewrite i32_near by lia.
  repeat case_decide; case_bool_decide;
    destruct (Z.ltb_spec a 0), (Z.ltb_spec b 0); simpl;
    repeat match goal with |- context [?x <? ?y] => destruct (Z.ltb_spec x y) end;
    try done; lia.
Qed.

Section Semantics.
Context {K : Type} `{!Kernel K}.

Lemma rget_run (m : Machine) (k : K) r v :
  0 <= r -> registers m !! Z.to_nat r = Some v -> rget r (m, k) = Ok ((m, k), v).
Proof. intros Hr Hv. unfold rget, reg_get. by rewrite (arr_get_lookup _ _ v). Qed.

Lemma rset_run (m : Machine) (k : K) r v :
  length (registers m) = 40%nat -> 0 <= r < 40 ->
  rset r v (m, k) = Ok ((set_registers m (<[Z.to_nat r := v]> (registers m)), k), tt).
Proof. intros Hl Hr. unfold rset, reg_set. by rewrite arr_set_in by lia. Qed.
End Semantics.

(** [registers[r] = v] on a machine. *)
Definition with_reg (m : Machine) (r v : Z) : Machine :=
  set_registers m (<[Z.to_nat r := v]> (registers m)).
Definition reg_is (m : Machine) (r v : Z) : Prop := registers m !! Z.to_nat r = Some v.

(** * Properties *)

(** Decoding is total: every 32-bit word decodes to register fields of
    five bits, an [int] operand and an opcode [OneInstruction] executes, so
    its [default: ASSERT(FALSE)] is never reached; constant shifts are by less
    than 32. *)
Theorem Decode_total v :
  exists i, Decode v = Ok i /\ executable (opCode i) = true /\
    0 <= rs i < 32 /\ 0 <= rt i < 32 /\ 0 <= rd i < 32 /\ in_i32 (extra i) /\
    (const_shift (opCode i) = true -> 0 <= extra i < 32).
Proof. destruct (Decode_ok v) as (i & H & []). exists i. split; [done|]. tauto. Qed.

(** [Decode] inverts the three MIPS encodings: the opcode and special
    tables are consulted with the right field, registers and shift amounts come
    back, and 16-bit immediates are sign-extended. *)
Theorem Decode_encode :
  (forall funct s t d sh op, 0 <= s < 32 -> 0 <= t < 32 -> 0 <= d < 32 -> 0 <= sh < 32 ->
     0 <= funct < 64 -> specialTable !! Z.to_nat funct = Some op ->
     Decode (encode_r funct s t d sh) = Ok (mkInstr op s t d sh)) /\
  (forall opc s t imm op, 0 <= s < 32 -> 0 <= t < 32 -> - 2 ^ 15 <= imm < 2 ^ 15 ->
     0 <= opc < 64 -> opTable !! Z.to_nat opc = Some (op, IFMT) -> op <> BCOND ->
     exists d, Decode (encode_i opc s t imm) = Ok (mkInstr op s t d imm)) /\
  (forall opc target op, 0 <= target < 2 ^ 26 -> 0 <= opc < 64 ->
     opTable !! Z.to_nat opc = Some (op, JFMT) ->
     exists s t d, Decode (encode_j opc target) = Ok (mkInstr op s t d target)).
Proof.
  split_and!.
  - intros funct s t d sh op Hs Ht Hd Hsh Hf Hop. unfold Decode.
    assert (Z.land (Z.shiftr (encode_r funct s t d sh) 26) 0x3f = 0) as -> by field_eq.
    change (arr_get opTable 0) with (Ok (SPECIAL, RFMT)). cbn [rbind fst snd].
    assert (Z.land (encode_r funct s t d sh) 0x3f = funct) as -> by field_eq.
    rewrite (arr_get_lookup specialTable funct op) by (done || lia). cbn [rbind]. f_equal.
    f_equal; simpl; field_eq.
  - intros opc s t imm op Hs Ht Hi Ho Hop Hne. unfold Decode.
    assert (Z.land (Z.shiftr (encode_i opc s t imm) 26) 0x3f = opc) as -> by field_eq.
    rewrite (arr_get_lookup opTable opc (op, IFMT)) by (done || lia). cbn [rbind fst snd].
    pose proof (opTable_ok _ _ Hop) as Hex. simpl in Hex.
    assert (Z.land (encode_i opc s t imm) 0xffff = u16 imm) as Himm.
    { change 0xffff with (Z.ones 16). field_eq. }
    unfold decode_extra. rewrite Himm, sign_extend_16 by done.
    assert (Z.land (Z.shiftr (encode_i opc s t imm) 21) 0x1f = s) as -> by field_eq.
    assert (Z.land (Z.shiftr (encode_i opc s t imm) 16) 0x1f = t) as -> by field_eq.
    destruct op; try (eexists; reflexivity); exfalso; naive_solver.
  - intros opc target op Ht Ho Hop. unfold Decode.
    assert (Z.land (Z.shiftr (encode_j opc target) 26) 0x3f = opc) as -> by field_eq.
    rewrite (arr_get_lookup opTable opc (op, JFMT)) by (done || lia). cbn [rbind fst snd].
    pose proof (opTable_ok _ _ Hop) as Hex. simpl in Hex.
    assert (decode_extra (encode_j opc target) JFMT = target) as ->.
    { simpl. change 0x3ffffff with (Z.ones 26). field_eq. }
    destruct op; try (eexists _, _, _; reflexivity); exfalso; naive_solver.
Qed.

(** C20: [Mult]'s 32-step shift-and-add loop, with its early exit, carry
    handling and final negation, computes the exact 64-bit product of two
    [int]s, signed or unsigned, split into the high and low words; no operand
    is an exception, not even -2^31. *)
Theorem Mult_correct a b signedArith :
  in_i32 a -> in_i32 b ->
  let p := if signedArith : bool then a * b else u32 a * u32 b in
  Mult a b signedArith = (i32 (p / 2 ^ 32), i32 p).
Proof. apply Mult_eq. Qed.

(** Running an instruction is safe. From a machine in shape (40 [int]
    registers with R0 = 0, a pending load of a real register, memory of bytes,
    one table), and for any kernel whose handler keeps it so along with an
    invariant of the kernel, [OneInstruction] never accesses an array out of
    bounds and leaves the machine in shape and the invariant true. It
    stops only where the kernel stops, on the ASSERT of the unaligned-access
    instructions LWL, LWR, SWL, SWR, or on a DIV of INT_MIN by -1. *)
Theorem OneInstruction_safe {K} `{!Kernel K} `{!KernelSafe K} (m : Machine) (k : K) :
  user_ok m -> kernel_inv k ->
  match OneInstruction (m, k) with
  | Ok ((m', k'), _) => user_ok m' /\ kernel_inv k'
  | Fault f => kernel_faults f \/ exists op, op_faults op f
  end.
Proof.
  intros Hm Hk. pose proof (triple_OneInstruction (K:=K) (m, k) (conj Hm Hk)) as H.
  destruct (OneInstruction (m, k)) as [[[m' k'] u]|f]; [done|].
  destruct H as [op [H|H]]; eauto.
Qed.

(** ADD, ADDI and SUB raise OverflowException exactly when the exact sum
    or difference of their operands is not an [int]; otherwise they write that
    exact value. *)
Theorem overflow_traps_exactly {K} `{!Kernel K} (m : Machine) (k : K) i pc a b :
  machine_ok m -> instr_ok i -> reg_is m (rs i) a -> reg_is m (rt i) b ->
  let result dst x :=
    if bool_decide (- 2 ^ 31 <= x < 2 ^ 31) then Ok ((with_reg m dst x, k), Some (pc, 0, 0))
    else trap OverflowException 0 (m, k) in
  exec_add i pc (m, k) = result (rd i) (a + b) /\
  exec_addi i pc (m, k) = result (rt i) (a + extra i) /\
  exec_sub i pc (m, k) = result (rd i) (a - b).
Proof.
  intros Hm [_ Hs Ht Hd Hex _] Ha Hb. pose proof (mo_len m Hm) as Hl. cbv zeta.
  assert (forall r v, reg_is m r v -> in_i32 v) as Hint.
  { intros r v Hr. eapply Forall_lookup_1; [exact (mo_int m Hm)|exact Hr]. }
  pose proof (Hint _ _ Ha) as Hai. pose proof (Hint _ _ Hb) as Hbi.
  split_and!; [unfold exec_add|unfold exec_addi|unfold exec_sub]; unfold sbind;
    rewrite (rget_run m k (rs i) a), ?(rget_run m k (rt i) b) by (done || lia).
  - rewrite add_overflow_test by done. case_bool_decide as Hr; [|done]. cbn [negb].
    rewrite i32_id, rset_run by (done || unfold in_i32; lia). done.
  - rewrite Z.lxor_comm, Z.add_comm, add_overflow_test by done.
    rewrite (Z.add_comm (extra i)). case_bool_decide as Hr; [|done]. cbn [negb].
    rewrite i32_id, rset_run by (done || unfold in_i32; lia). done.
  - rewrite sub_overflow_test by done. case_bool_decide as Hr; [|done]. cbn [negb].
    rewrite i32_id, rset_run by (done || unfold in_i32; lia). done.
Qed.

(** The delay slots. Whatever an instruction did, its epilogue retires the
    load the previous instruction started, makes its own load pending instead
    of writing the register, and moves to the instruction after it: a branch
    target becomes [NextPC], so the instruction in the slot runs first. R0 ends
    as zero and no other general register, HI or LO changes. *)
Theorem delay_slots {K} `{!Kernel K} (m : Machine) (k : K) pcAfter lr lv pl pv p n :
  machine_ok m -> 0 <= lr < 32 -> in_i32 lv ->
  reg_is m LoadReg pl -> reg_is m LoadValueReg pv -> reg_is m PCReg p -> reg_is m NextPCReg n ->
  exists m', finish_instruction pcAfter lr lv (m, k) = Ok ((m', k), tt) /\
    reg_is m' PrevPCReg p /\ reg_is m' PCReg n /\ reg_is m' NextPCReg pcAfter /\
    reg_is m' LoadReg lr /\ reg_is m' LoadValueReg lv /\
    reg_is m' 0 0 /\ (pl <> 0 -> reg_is m' pl pv) /\
    forall r, 0 < r < 34 -> r <> pl ->
      registers m' !! Z.to_nat r = registers m !! Z.to_nat r.
Proof.
  intros Hm Hlr Hlv Hpl Hpv Hp Hn. unfold finish_instruction, sbind, on_machine_.
  destruct (DelayedLoad_ok m lr lv Hm Hlr Hlv) as (m1 & pl' & pv' & -> & [Hm1 _] & Hpl' & Hpv' & Hplr & ->).
  unfold reg_is in Hpl, Hpv, Hp, Hn |- *. unfold LoadReg, LoadValueReg, PCReg, NextPCReg, PrevPCReg in *.
  change (Z.to_nat 37) with 37%nat in *. change (Z.to_nat 38) with 38%nat in *.
  change (Z.to_nat 36) with 36%nat in *. change (Z.to_nat 35) with 35%nat in *.
  change (Z.to_nat 34) with 34%nat in *. simplify_eq. cbn [rbind].
  pose proof (mo_len m Hm) as Hl.
  rewrite (rget_run _ _ 34 p) by (simpl; rewrite ?list_lookup_insert_ne by lia; done). cbn iota.
  rewrite rset_run by (simpl; rewrite ?length_insert; lia).
  rewrite (rget_run _ _ 35 n) by (simpl; rewrite ?list_lookup_insert_ne by lia; done). cbn iota.
  rewrite rset_run by (simpl; rewrite ?length_insert; lia).
  rewrite rset_run by (simpl; rewrite ?length_insert; lia).
  eexists. split; [done|]. simpl.
  change (Pos.to_nat 36) with 36%nat. change (Pos.to_nat 35) with 35%nat.
  change (Pos.to_nat 34) with 34%nat.
  assert (forall x y (l : list Z), length l = 40%nat -> (x < 40)%nat -> <[x := y]> l !! x = Some y) as Heq.
  { intros x y l Hlen Hx. apply list_lookup_insert_eq. lia. }
  split_and!; repeat (first [rewrite Heq by (rewrite ?length_insert; lia)
                            |rewrite list_lookup_insert_ne by lia]); try done.
  - intros Hne. repeat (first [rewrite list_lookup_insert_ne by lia]).
    by rewrite Heq by (rewrite ?length_insert; lia).
  - intros r Hr Hne. by rewrite !list_lookup_insert_ne by lia.
Qed.

(** Two instructions do not do what the architecture says: OR writes
    [rs | rs], so [rt] has no influence on the result, and the logical shifts
    SRL and SRLV shift in copies of the sign bit (their [tmp] is an [int]), so
    a negative operand gives a negative result instead of a zero-extended one. *)
Theorem OR_and_SRL_deviate {K} `{!Kernel K} (m : Machine) (k : K) i pc a b :
  machine_ok m -> instr_ok i -> reg_is m (rs i) a -> reg_is m (rt i) b ->
  (opCode i = OP_OR ->
     exec_op i pc (m, k) = Ok ((with_reg m (rd i) a, k), Some (pc, 0, 0))) /\
  (opCode i = OP_SRL -> b < 0 ->
     exists r, exec_op i pc (m, k) = Ok ((with_reg m (rd i) r, k), Some (pc, 0, 0)) /\
       r < 0 /\ r = b / 2 ^ extra i /\ (0 < extra i -> r <> u32 b / 2 ^ extra i)) /\
  (opCode i = OP_SRLV -> b < 0 ->
     exists r, exec_op i pc (m, k) = Ok ((with_reg m (rd i) r, k), Some (pc, 0, 0)) /\ r < 0).
Proof.
  intros Hm [_ Hs Ht Hd Hex Hsh] Ha Hb. pose proof (mo_len m Hm) as Hl.
  assert (forall f, exec_r f i pc (m, k) = Ok ((with_reg m (rd i) (f a b), k), Some (pc, 0, 0))) as Hrun.
  { intros f. unfold exec_r, sbind.
    rewrite (rget_run m k (rs i) a), (rget_run m k (rt i) b) by (done || lia).
    by rewrite rset_run by lia. }
  split_and!; intros Hop; unfold exec_op; rewrite Hop, Hrun.
  - by rewrite Z.lor_diag.
  - intros Hneg. rewrite Hop in Hsh. specialize (Hsh eq_refl).
    pose proof (Z.pow_pos_nonneg 2 (extra i)).
    assert (b / 2 ^ extra i < 0) by (apply Z.div_lt_upper_bound; nia).
    rewrite Z.shiftr_div_pow2 by lia. eexists. split_and!; [done|done|done|].
    intros _ E. pose proof (u32_range b) as Hu. unfold in_u32 in Hu.
    pose proof (Z.div_pos (u32 b) (2 ^ extra i)). lia.
  - intros Hneg. eexists. split; [done|]. apply Z.shiftr_neg. done.
Qed.

(** ** Witnesses: the sample machine of [Machine], and a kernel that ignores
    every trap *)
#[local] Instance ignoring_kernel : Kernel unit := {| ExceptionHandler := fun _ => sret tt |}.
#[local] Instance ignoring_kernel_safe : KernelSafe unit.
Proof.
  refine {| kernel_inv := fun _ => True; kernel_faults := fun _ => False |}. intros ex w Hw. exact Hw.
Defined.

Lemma sample_machine_ok : user_ok sample_machine.
Proof.
  split; [|reflexivity]. split; [reflexivity| | | |reflexivity].
  - apply Forall_replicate. unfold in_i32. lia.
  - intros r H. vm_compute in H. injection H as <-. lia.
  - apply map_Forall_empty.
Qed.

Definition or_instr : Instruction := mkInstr OP_OR 1 2 3 0.
Definition srl_instr : Instruction := mkInstr OP_SRL 0 2 3 4.

Example Decode_total_witness :
  exists i, Decode 0x8FBF0014 = Ok i /\ executable (opCode i) = true.
Proof. destruct (Decode_total 0x8FBF0014) as (i & H1 & H2 & _). exists i. split; assumption. Defined.

Example Decode_encode_witness :
  Decode (encode_r 32 1 2 3 0) = Ok (mkInstr OP_ADD 1 2 3 0).
Proof. apply (proj1 Decode_encode 32 1 2 3 0 OP_ADD); try lia. reflexivity. Defined.

Example Mult_correct_witness :
  Mult (-2147483648) (-2147483648) true = (1073741824, 0).
Proof.
  rewrite (Mult_correct (-2147483648) (-2147483648) true) by (split; vm_compute; congruence).
  reflexivity.
Defined.

Example OneInstruction_safe_witness :
  exists s', OneInstruction (sample_machine, tt) = Ok s' /\ user_ok s'.1.1.
Proof.
  pose proof (OneInstruction_safe sample_machine tt sample_machine_ok I) as H.
  destruct (OneInstruction (sample_machine, tt)) as [[[m' k'] u]|f] eqn:E.
  - exists (m', k', u). split; [reflexivity|exact (proj1 H)].
  - exfalso. vm_compute in E. discriminate E.
Defined.

Example overflow_traps_exactly_witness :
  exec_add (mkInstr OP_ADD 1 2 3 0) 8 (sample_machine, tt) =
    Ok ((with_reg sample_machine 3 0, tt), Some (8, 0, 0)).
Proof.
  destruct (overflow_traps_exactly sample_machine tt (mkInstr OP_ADD 1 2 3 0) 8 0 0
    (proj1 sample_machine_ok)) as [H _]; [|reflexivity|reflexivity|exact H].
  split; simpl; (lia || reflexivity || unfold in_i32; lia || discriminate).
Defined.

Example delay_slots_witness :
  exists m', finish_instruction 100 5 7 (sample_machine, tt) = Ok ((m', tt), tt) /\
    reg_is m' LoadReg 5 /\ reg_is m' NextPCReg 100.
Proof.
  destruct (delay_slots sample_machine tt 100 5 7 0 0 0 0 (proj1 sample_machine_ok))
    as (m' & H & _ & _ & Hn & Hl & _); try reflexivity; try lia; [unfold in_i32; lia|].
  exists m'. split; [exact H|]. split; assumption.
Defined.

Example OR_and_SRL_deviate_witness :
  exec_op or_instr 8 (with_reg sample_machine 2 (-16), tt) =
    Ok ((with_reg (with_reg sample_machine 2 (-16)) 3 0, tt), Some (8, 0, 0)).
Proof.
  assert (machine_ok (with_reg sample_machine 2 (-16))) as Hm.
  { apply (reg_set_ok sample_machine 2 (-16) (proj1 sample_machine_ok));
      [lia|unfold in_i32; lia|discriminate]. }
  destruct (OR_and_SRL_deviate (with_reg sample_machine 2 (-16)) tt or_instr 8 0 (-16) Hm)
    as [H _]; [|reflexivity|reflexivity|exact (H eq_refl)].
  split; simpl; (lia || reflexivity || unfold in_i32; lia || discriminate).
Defined.
