(* ===== verification/VM.v ===== *)
(** * userprog/exception.cc, userprog/addrspace.cc: virtual memory

    Demand paging with a software-managed TLB: the inverted page table, the
    choice of the page to evict, the swap file and the reload of a page from
    the executable or the swap file. A page fault is one step here: the locks
    the handler takes and the interrupts it disables keep other threads out of
    these tables, and preemption between them is not modelled. An address space
    is known by a number, as the code knows it by its pointer; files are the
    byte arrays of the stub file system. [new IPTEntry[]] zero-initialises
    nothing: the initial table is a parameter with every [valid] FALSE. *)
From S2P Require Import Prelude BitMap Machine.

Inductive DiskLocation := IN_EXECUTABLE | IN_MEMORY | IN_SWAP | UNINIT.
#[global] Instance DiskLocation_eq_dec : EqDecision DiskLocation.
Proof. solve_decision. Defined.

(** A [TranslationEntry] with the members of the derived classes. *)
Record PageTableEntry := mkPTE { pte : TranslationEntry; location : DiskLocation; offset : Z }.
Record IPTEntry := mkIPTE { ipte : TranslationEntry; space : Z }.

Inductive EvictionPolicy := FIFO | RAND.

(** Of [AddrSpace]: the page table, the executable and its size in pages. *)
Record AddrSpace := mkAddrSpace {
  as_pageTable : list PageTableEntry;
  numExecutablePages : Z;
  executable : list Z
}.

(** ** Files: filesys/openfile.h on the files of the host *)

Definition ReadAt (f : list Z) (numBytes position : Z) : res (list Z) :=
  let* _ := ASSERT (bool_decide (position >= 0)) in
  Ok (take (Z.to_nat numBytes) (drop (Z.to_nat position) f)).

(** Writing past the end fills the gap with zeros. *)
Definition WriteAt (f : list Z) (from : list Z) (position : Z) : res (list Z) :=
  let* _ := ASSERT (bool_decide (position >= 0)) in
  let p := Z.to_nat position in
  let f' := f ++ replicate (p - length f) 0 in
  Ok (take p f' ++ from ++ drop (p + length from) f').

(** ** Bytes of [mainMemory] *)

Definition read_frame (mem : gmap Z Z) (p : Z) : list Z :=
  (fun i => default 0 (mem !! (p * PageSize + i))) <$> seqZ 0 PageSize.

Fixpoint copy_to (mem : gmap Z Z) (a : Z) (bs : list Z) : gmap Z Z :=
  match bs with [] => mem | b :: bs => copy_to (<[a := b]> mem) (a + 1) bs end.

Section VM.
  Context {B : Type} `{BA : BitAllocator B}.
  (** [rand()]: the values of its calls, in order. *)
  Context (rand : nat -> Z).

Record VM := mkVM {
  machine : Machine;
  IPT : list IPTEntry;
  mainMemoryBitmap : B;
  swapMap : B;
  swapFile : list Z;
  evictionList : list Z;
  evictionPolicy : EvictionPolicy;
  currentTLB : Z;
  spaces : gmap Z AddrSpace;
  currentSpace : Z;
  rands : nat
}.

Definition set_machine (m : Machine) (s : VM) : VM :=
  mkVM m (IPT s) (mainMemoryBitmap s) (swapMap s) (swapFile s) (evictionList s) (evictionPolicy s)
    (currentTLB s) (spaces s) (currentSpace s) (rands s).
Definition set_IPT (t : list IPTEntry) (s : VM) : VM :=
  mkVM (machine s) t (mainMemoryBitmap s) (swapMap s) (swapFile s) (evictionList s) (evictionPolicy s)
    (currentTLB s) (spaces s) (currentSpace s) (rands s).
Definition set_bitmap (b : B) (s : VM) : VM :=
  mkVM (machine s) (IPT s) b (swapMap s) (swapFile s) (evictionList s) (evictionPolicy s)
    (currentTLB s) (spaces s) (currentSpace s) (rands s).
Definition set_swap (m : B) (f : list Z) (s : VM) : VM :=
  mkVM (machine s) (IPT s) (mainMemoryBitmap s) m f (evictionList s) (evictionPolicy s)
    (currentTLB s) (spaces s) (currentSpace s) (rands s).
Definition set_evictionList (l : list Z) (s : VM) : VM :=
  mkVM (machine s) (IPT s) (mainMemoryBitmap s) (swapMap s) (swapFile s) l (evictionPolicy s)
    (currentTLB s) (spaces s) (currentSpace s) (rands s).
Definition set_currentTLB (i : Z) (s : VM) : VM :=
  mkVM (machine s) (IPT s) (mainMemoryBitmap s) (swapMap s) (swapFile s) (evictionList s) (evictionPolicy s)
    i (spaces s) (currentSpace s) (rands s).
Definition set_spaces (m : gmap Z AddrSpace) (s : VM) : VM :=
  mkVM (machine s) (IPT s) (mainMemoryBitmap s) (swapMap s) (swapFile s) (evictionList s) (evictionPolicy s)
    (currentTLB s) m (currentSpace s) (rands s).
Definition set_rands (n : nat) (s : VM) : VM :=
  mkVM (machine s) (IPT s) (mainMemoryBitmap s) (swapMap s) (swapFile s) (evictionList s) (evictionPolicy s)
    (currentTLB s) (spaces s) (currentSpace s) n.

Abbreviation V := (ST VM).

(** ** Entries *)

Definition with_valid (v : bool) (e : TranslationEntry) : TranslationEntry :=
  mkEntry (virtualPage e) (physicalPage e) v (readOnly e) (use e) (dirty e).
Definition with_use (u : bool) (e : TranslationEntry) : TranslationEntry :=
  mkEntry (virtualPage e) (physicalPage e) (valid e) (readOnly e) u (dirty e).
Definition with_dirty (d : bool) (e : TranslationEntry) : TranslationEntry :=
  mkEntry (virtualPage e) (physicalPage e) (valid e) (readOnly e) (use e) d.

Definition get_IPT (p : Z) : V IPTEntry := fun s => let* e := arr_get (IPT s) p in Ok (s, e).
Definition put_IPT (p : Z) (e : IPTEntry) : V unit := fun s =>
  let* t := arr_set (IPT s) p e in Ok (set_IPT t s, tt).
(** An assignment to a member of [IPT[p]]. *)
Definition update_IPT (p : Z) (f : TranslationEntry -> TranslationEntry) : V unit :=
  e <- get_IPT p ;; put_IPT p (mkIPTE (f (ipte e)) (space e)).

Definition get_tlb (i : Z) : V TranslationEntry := fun s =>
  let* t := deref (tlb (machine s)) in let* e := arr_get t i in Ok (s, e).
Definition put_tlb (i : Z) (e : TranslationEntry) : V unit := fun s =>
  let* t := deref (tlb (machine s)) in
  let* t := arr_set t i e in
  Ok (set_machine (set_tlb (machine s) (Some t)) s, tt).
Definition update_tlb (i : Z) (f : TranslationEntry -> TranslationEntry) : V unit :=
  e <- get_tlb i ;; put_tlb i (f e).

(** [spaces[a]->pageTable[vpn]] *)
Definition get_pte (a vpn : Z) : V PageTableEntry := fun s =>
  let* sp := deref (spaces s !! a) in let* e := arr_get (as_pageTable sp) vpn in Ok (s, e).
Definition put_pte (a vpn : Z) (e : PageTableEntry) : V unit := fun s =>
  let* sp := deref (spaces s !! a) in
  let* t := arr_set (as_pageTable sp) vpn e in
  Ok (set_spaces (<[a := mkAddrSpace t (numExecutablePages sp) (executable sp)]> (spaces s)) s, tt).

(** ** [Evict] *)

Definition draw : V Z := fun s => Ok (set_rands (S (rands s)) s, Z.rem (rand (rands s)) NumPhysPages).

(** The page the policy picks: drawn, or taken from the list, until one is not
    in use. *)
Fixpoint pick_random (fuel : nat) : V Z :=
  match fuel with
  | O => fail OutOfFuel
  | S fuel =>
      p <- draw ;; e <- get_IPT p ;;
      if use (ipte e) then pick_random fuel else sret p
  end.

Fixpoint pick_fifo (fuel : nat) : V Z :=
  match fuel with
  | O => fail OutOfFuel
  | S fuel =>
      s <- get ;;
      match evictionList s with
      | [] => fail NullPointer
      | p :: l =>
          put (set_evictionList l s) ;;;
          e <- get_IPT p ;;
          if use (ipte e) then modify (fun s => set_evictionList (evictionList s ++ [p]) s) ;;; pick_fifo fuel
          else sret p
      end
  end.

Definition pick (fuel : nat) : V Z :=
  s <- get ;;
  match evictionPolicy s with RAND => pick_random fuel | FIFO => pick_fifo fuel end.

(** One round of the loop over the TLB. *)
Definition evict_tlb (p i : Z) : V unit :=
  e <- get_tlb i ;;
  if bool_decide (physicalPage e = p) && valid e then
    s <- get ;;
    c <- get_tlb (currentTLB s) ;;
    (if valid c then update_IPT p (with_dirty (dirty e)) else sret tt) ;;;
    update_tlb i (with_valid false)
  else sret tt.

Definition find_swap : V Z := fun s =>
  let* '(b, i) := ba_find (swapMap s) in Ok (set_swap b (swapFile s) s, i).

(** The write of a dirty page to the swap file. *)
Definition swap_out (p : Z) : V unit :=
  e <- get_IPT p ;;
  pt <- get_pte (space e) (virtualPage (ipte e)) ;;
  swapFilePageNum <- (if decide (location pt = IN_SWAP) then sret (Z.quot (offset pt) PageSize) else find_swap) ;;
  s <- get ;;
  f <- lift (WriteAt (swapFile s) (read_frame (mainMemory (machine s)) p) (swapFilePageNum * PageSize)) ;;
  put (set_swap (swapMap s) f s) ;;;
  put_pte (space e) (virtualPage (ipte e)) (mkPTE (pte pt) IN_SWAP (swapFilePageNum * PageSize)).

Definition Evict (fuel : nat) : V Z :=
  p <- pick fuel ;;
  update_IPT p (with_use true) ;;;
  evict_tlb p 0 ;;; evict_tlb p 1 ;;; evict_tlb p 2 ;;; evict_tlb p 3 ;;;
  e <- get_IPT p ;;
  (if dirty (ipte e) then swap_out p else sret tt) ;;;
  sret p.

(** ** [HandleIPTMiss]: page [vpn] of the running space into frame [p] *)

Definition load_page (vpn p : Z) : V unit :=
  s <- get ;;
  pt <- get_pte (currentSpace s) vpn ;;
  match location pt with
  | IN_EXECUTABLE =>
      sp <- lift (deref (spaces s !! currentSpace s)) ;;
      bs <- lift (ReadAt (executable sp) PageSize (offset pt)) ;;
      put (set_machine (set_memory (machine s) (copy_to (mainMemory (machine s)) (p * PageSize) bs)) s)
  | IN_SWAP =>
      bs <- lift (ReadAt (swapFile s) PageSize (offset pt)) ;;
      put (set_machine (set_memory (machine s) (copy_to (mainMemory (machine s)) (p * PageSize) bs)) s)
  | IN_MEMORY | UNINIT => sret tt
  end.

Definition HandleIPTMiss (vpn p : Z) : V Z :=
  if decide (p = -1) then sret p
  else
    load_page vpn p ;;;
    s <- get ;;
    pt <- get_pte (currentSpace s) vpn ;;
    e <- get_IPT p ;;
    let d := bool_decide (location pt = UNINIT) in
    put_IPT p (mkIPTE (mkEntry vpn p true false (use (ipte e)) d) (currentSpace s)) ;;;
    (match evictionPolicy s with
     | FIFO => modify (fun s => set_evictionList (evictionList s ++ [p]) s)
     | RAND => sret tt
     end) ;;;
    put_pte (currentSpace s) vpn
      (mkPTE (mkEntry vpn p true false (use (pte pt)) d) (location pt) (offset pt)) ;;;
    sret p.

(** ** [HandlePageFault] *)

(** The first frame from [i], of [n], that holds the page and is not in use. *)
Fixpoint find_frame (n : nat) (i : Z) (t : list IPTEntry) (vpn a : Z) : res (option Z) :=
  match n with
  | O => Ok None
  | S n =>
      let* e := arr_get t i in
      if valid (ipte e) && bool_decide (vpn = virtualPage (ipte e)) && bool_decide (space e = a)
         && negb (use (ipte e)) then Ok (Some i)
      else find_frame n (i + 1) t vpn a
  end.

Definition find_free : V Z := fun s =>
  let* '(b, i) := ba_find (mainMemoryBitmap s) in Ok (set_bitmap b s, i).

(** The body of [while(ppn == -1)]: [Evict] never returns -1, one round does. *)
Definition bring_in (fuel : nat) (vpn : Z) : V Z :=
  ppn <- find_free ;;
  ppn <- (if decide (ppn = -1) then Evict fuel else sret ppn) ;;
  update_IPT ppn (with_use true) ;;;
  HandleIPTMiss vpn ppn ;;;
  sret ppn.

(** The new entry of the TLB, in the place of the oldest. *)
Definition fill_tlb (ppn : Z) : V unit :=
  s <- get ;;
  old <- get_tlb (currentTLB s) ;;
  (if valid old then update_IPT (physicalPage old) (with_dirty (dirty old)) else sret tt) ;;;
  e <- get_IPT ppn ;;
  put_tlb (currentTLB s) (mkEntry (virtualPage (ipte e)) (physicalPage (ipte e)) true
                            (readOnly (ipte e)) (use (ipte e)) (dirty (ipte e))) ;;;
  let next := Z.rem (currentTLB s + 1) TLBSize in
  modify (set_currentTLB next) ;;;
  update_IPT ppn (with_use false) ;;;
  update_tlb next (with_use false).

Definition HandlePageFault (fuel : nat) : V unit :=
  s <- get ;;
  bad <- lift (ReadRegister (machine s) BadVAddrReg) ;;
  let vpn := Z.quot bad 128 in
  hit <- lift (find_frame (Z.to_nat NumPhysPages) 0 (IPT s) vpn (currentSpace s)) ;;
  ppn <- (match hit with
          | Some i => update_IPT i (with_use true) ;;; sret i
          | None => bring_in fuel vpn
          end) ;;
  fill_tlb ppn.

(** ** Context switches: [AddrSpace::SaveState] and [RestoreState] *)

Definition flush_entry (i : Z) : V unit :=
  e <- get_tlb i ;;
  (if valid e then update_IPT (physicalPage e) (with_dirty (dirty e)) else sret tt) ;;;
  update_tlb i (with_valid false).

Definition SaveState : V unit := flush_entry 0 ;;; flush_entry 1 ;;; flush_entry 2 ;;; flush_entry 3.
Definition RestoreState : V unit := flush_entry 0 ;;; flush_entry 1 ;;; flush_entry 2 ;;; flush_entry 3.

End VM.
Arguments VM B : clear implicits.

(** * Lemmas *)

(** ** Memory and files *)

Lemma copy_to_lookup bs : forall mem a x,
  copy_to mem a bs !! x = if decide (a <= x < a + Z.of_nat (length bs)) then bs !! Z.to_nat (x - a) else mem !! x.
Proof.
  induction bs as [|b bs IH]; intros mem a x; cbn [copy_to length].
  { rewrite decide_False by lia. done. }
  rewrite IH. destruct (decide (x = a)) as [->|Hx].
  - rewrite decide_False, decide_True, Z.sub_diag by lia. by rewrite lookup_insert_eq.
  - destruct (decide (a + 1 <= x < a + 1 + Z.of_nat (length bs))).
    + rewrite decide_True by lia. replace (Z.to_nat (x - a)) with (S (Z.to_nat (x - (a + 1)))) by lia. done.
    + rewrite decide_False by lia. by rewrite lookup_insert_ne.
Qed.

Lemma read_frame_length mem p : length (read_frame mem p) = Z.to_nat PageSize.
Proof. unfold read_frame. by rewrite length_fmap, length_seqZ. Qed.

Lemma read_frame_ext mem1 mem2 p :
  (forall x, p * PageSize <= x < (p + 1) * PageSize -> mem1 !! x = mem2 !! x) -> read_frame mem1 p = read_frame mem2 p.
Proof.
  intros H. unfold read_frame. apply list_fmap_ext. intros k i Hi. apply lookup_seqZ in Hi as [-> Hk].
  rewrite H; [done|]. unfold PageSize, SectorSize in *. lia.
Qed.

Lemma read_frame_copy_ne mem p q bs : p <> q -> (length bs <= Z.to_nat PageSize)%nat ->
  read_frame (copy_to mem (p * PageSize) bs) q = read_frame mem q.
Proof.
  intros Hp Hl. apply read_frame_ext. intros x Hx. rewrite copy_to_lookup. rewrite decide_False; [done|].
  unfold PageSize, SectorSize in *. lia.
Qed.

Lemma read_frame_copy_eq mem p bs : (length bs <= Z.to_nat PageSize)%nat ->
  bs `prefix_of` read_frame (copy_to mem (p * PageSize) bs) p.
Proof.
  intros Hl. exists (drop (length bs) (read_frame (copy_to mem (p * PageSize) bs) p)).
  rewrite <-(take_drop (length bs)) at 1. f_equal. apply list_eq. intros k.
  destruct (decide (k < length bs)%nat) as [Hk|Hk].
  - rewrite lookup_take_lt by done. unfold read_frame.
    rewrite list_lookup_fmap, lookup_seqZ_lt by lia. cbn [fmap option_fmap option_map].
    rewrite copy_to_lookup, decide_True by lia.
    replace (Z.to_nat (p * PageSize + (0 + Z.of_nat k) - p * PageSize)) with k by lia.
    by destruct (lookup_lt_is_Some_2 bs k Hk) as [x ->].
  - rewrite lookup_take_ge, lookup_ge_None_2 by lia. done.
Qed.

(** Page [k] of a file of pages. *)
Definition file_page (f : list Z) (pos : Z) : list Z := take (Z.to_nat PageSize) (drop (Z.to_nat pos) f).

Lemma ReadAt_page f pos : 0 <= pos -> ReadAt f PageSize pos = Ok (file_page f pos).
Proof. intros H. unfold ReadAt. by rewrite bool_decide_eq_true_2 by lia. Qed.

Lemma file_page_length f pos : (length (file_page f pos) <= Z.to_nat PageSize)%nat.
Proof. unfold file_page. rewrite length_take. lia. Qed.

Lemma WriteAt_page f bs k : 0 <= k -> length bs = Z.to_nat PageSize ->
  exists f', WriteAt f bs (k * PageSize) = Ok f' /\ file_page f' (k * PageSize) = bs /\
    (length f <= length f')%nat /\ (Z.to_nat ((k + 1) * PageSize) <= length f')%nat /\
    forall j, 0 <= j -> j <> k -> (Z.to_nat ((j + 1) * PageSize) <= length f)%nat ->
      file_page f' (j * PageSize) = file_page f (j * PageSize).
Proof.
  intros Hk Hl. unfold WriteAt, PageSize, SectorSize in *. rewrite bool_decide_eq_true_2 by lia. cbn [ASSERT rbind].
  eexists. split; [reflexivity|]. set (p := Z.to_nat (k * 128)). set (f0 := f ++ _).
  assert (length f0 = Nat.max (length f) p) as Hf0 by (unfold f0; rewrite length_app, length_replicate; lia).
  unfold file_page, PageSize, SectorSize. split_and!.
  - rewrite drop_app_length' by (rewrite length_take; lia). rewrite take_app_length' by lia. done.
  - rewrite !length_app, length_take, length_drop. lia.
  - rewrite !length_app, length_take, length_drop. lia.
  - intros j Hj Hne Hlen. apply list_eq. intros i.
    destruct (decide (i < 128)%nat) as [Hi|Hi].
    2: { rewrite !lookup_take_ge by lia. done. }
    rewrite !lookup_take_lt by lia. rewrite !lookup_drop.
    assert (f0 !! (Z.to_nat (j * 128) + i)%nat = f !! (Z.to_nat (j * 128) + i)%nat) as <-
      by (unfold f0; rewrite lookup_app_l by lia; done).
    destruct (decide (j < k)).
    + rewrite lookup_app_l by (rewrite length_take; lia). by rewrite lookup_take_lt by lia.
    + rewrite lookup_app_r by (rewrite length_take; lia). rewrite length_take.
      rewrite lookup_app_r by lia. rewrite lookup_drop. f_equal. lia.
Qed.

(** ** Searches of the tables *)

Lemma first_hit (t : list TranslationEntry) v i e : t !! i = Some e -> entry_hit v e = true -> exists j e', t !! j = Some e' /\
  entry_hit v e' = true /\ forall k x, (k < j)%nat -> t !! k = Some x -> entry_hit v x = false.
Proof.
  revert e. induction i as [i IH] using lt_wf_ind. intros e Hi He.
  destruct (decide (Exists (fun x => entry_hit v x = true) (take i t))) as [Hex|Hno].
  - apply Exists_exists in Hex as (x & Hx & Hv). apply list_elem_of_lookup in Hx as [j Hj].
    apply lookup_take_Some in Hj as [Hj Hlt]. by apply (IH j Hlt x).
  - exists i, e. split_and!; [done..|]. intros k x Hk Hx. apply not_true_iff_false. intros Hv. apply Hno.
    apply Exists_exists. exists x. split; [|done]. apply list_elem_of_lookup. exists k. by apply lookup_take_Some.
Qed.

(** The search of the inverted page table. *)
Lemma find_frame_spec (I : list IPTEntry) v a n i : (i + n <= length I)%nat ->
  (exists p e, find_frame n (Z.of_nat i) I v a = Ok (Some (Z.of_nat p)) /\ I !! p = Some e /\
     valid (ipte e) = true /\ virtualPage (ipte e) = v /\ space e = a /\ use (ipte e) = false) \/
  (find_frame n (Z.of_nat i) I v a = Ok None /\
     forall p e, (i <= p < i + n)%nat -> I !! p = Some e -> valid (ipte e) = true -> virtualPage (ipte e) = v ->
       space e = a -> use (ipte e) = true).
Proof.
  revert i. induction n as [|n IH]; intros i Hlt; cbn [find_frame].
  { right. split; [done|]. lia. }
  destruct (lookup_lt_is_Some_2 I i) as [e He]; [lia|].
  rewrite (arr_get_lookup _ _ e) by (rewrite ?Nat2Z.id; done || lia). cbn [rbind].
  destruct (valid (ipte e) && bool_decide (v = virtualPage (ipte e)) && bool_decide (space e = a) && negb (use (ipte e))) eqn:Hc.
  - rewrite !andb_true_iff, !bool_decide_eq_true, negb_true_iff in Hc. left. exists i, e. naive_solver.
  - replace (Z.of_nat i + 1) with (Z.of_nat (Datatypes.S i)) by lia.
    destruct (IH (Datatypes.S i)) as [?|[HN Hall]]; [lia|by left|right]. split; [done|].
    intros p x Hp Hx Hv Hvp Ha. destruct (decide (p = i)) as [->|]; [|by apply (Hall p x); [lia|..]].
    simplify_eq. rewrite Hv, !bool_decide_eq_true_2, andb_true_l in Hc by done. by apply negb_false_iff in Hc.
Qed.

(** ** The invariant *)

Section Invariant.
  Context {B : Type} `{BA : BitAllocator B} (rand : nat -> Z).
  Implicit Types (s : VM B) (S : gmap Z AddrSpace) (I : list IPTEntry).

Definition lookup_pte S (a v : Z) : option PageTableEntry :=
  sp ← S !! a; if decide (0 <= v) then as_pageTable sp !! Z.to_nat v else None.

Definition exec_of S (a : Z) : list Z := default [] (executable <$> S !! a).

(** What is stored for a page outside memory. *)
Definition backing S (f : list Z) (a v : Z) : list Z :=
  match lookup_pte S a v with
  | Some pt =>
      match location pt with
      | IN_EXECUTABLE => file_page (exec_of S a) (offset pt)
      | IN_SWAP => file_page f (offset pt)
      | IN_MEMORY | UNINIT => []
      end
  | None => []
  end.

(** Frame [p] holds page [v] of space [a]; the hole [h] holds nothing. *)
Definition resident (h : option nat) I (a v : Z) (p : nat) : Prop :=
  exists e, I !! p = Some e /\ valid (ipte e) = true /\ Some p <> h /\ space e = a /\ virtualPage (ipte e) = v.

(** Frame [p] may differ from what is stored. *)
Definition modified (t : list TranslationEntry) I (p : nat) : Prop :=
  (exists e, I !! p = Some e /\ dirty (ipte e) = true) \/
  (exists i e, t !! i = Some e /\ valid e = true /\ physicalPage e = Z.of_nat p /\ dirty e = true).

(** The defined contents of a page: its frame once it was modified, otherwise
    what is stored for it, which may be shorter than a page. *)
Definition content (h : option nat) s (t : list TranslationEntry) (a v : Z) (bs : list Z) : Prop :=
  (exists p, resident h (IPT s) a v p /\ modified t (IPT s) p /\
     bs = read_frame (mainMemory (machine s)) (Z.of_nat p)) \/
  ((forall p, resident h (IPT s) a v p -> ~ modified t (IPT s) p) /\ bs = backing (spaces s) (swapFile s) a v).

(** [h] is a frame taken from its page and not yet given to another, [u] the
    frame in use by the handler. *)
Record Inv (h u : option nat) s (t : list TranslationEntry) (bl sl : list bool) : Prop := {
  inv_tlb : tlb (machine s) = Some t;
  inv_table : pageTable (machine s) = None;
  inv_tlb_length : length t = 4%nat;
  inv_current : 0 <= currentTLB s < 4;
  inv_IPT : length (IPT s) = Z.to_nat NumPhysPages;
  inv_bitmap : ba_rep (mainMemoryBitmap s) bl;
  inv_bitmap_length : length bl = Z.to_nat NumPhysPages;
  inv_taken : forall p e, IPT s !! p = Some e ->
    bl !! p = Some (valid (ipte e) || bool_decide (h = Some p));
  inv_frame : forall p e, IPT s !! p = Some e -> valid (ipte e) = true -> Some p <> h ->
    physicalPage (ipte e) = Z.of_nat p /\ is_Some (lookup_pte (spaces s) (space e) (virtualPage (ipte e)));
  inv_use : forall p e, IPT s !! p = Some e -> Some p <> u -> valid (ipte e) = true -> use (ipte e) = false;
  inv_inj : forall a v p q, resident h (IPT s) a v p -> resident h (IPT s) a v q -> p = q;
  inv_entry : forall i e, t !! i = Some e -> valid e = true -> exists p ie,
    physicalPage e = Z.of_nat p /\ IPT s !! p = Some ie /\ valid (ipte ie) = true /\ Some p <> h /\
    virtualPage e = virtualPage (ipte ie) /\ space ie = currentSpace s /\
    (dirty (ipte ie) = true -> dirty e = true);
  inv_entry_inj : forall i j e1 e2, t !! i = Some e1 -> t !! j = Some e2 -> valid e1 = true -> valid e2 = true ->
    physicalPage e1 = physicalPage e2 -> i = j;
  inv_swap : ba_rep (swapMap s) sl;
  inv_location : forall a v pt, lookup_pte (spaces s) a v = Some pt ->
    match location pt with
    | IN_SWAP => exists k, offset pt = Z.of_nat k * PageSize /\ sl !! k = Some true /\
        (Z.to_nat ((Z.of_nat k + 1) * PageSize) <= length (swapFile s))%nat
    | IN_EXECUTABLE => 0 <= offset pt
    | IN_MEMORY | UNINIT => True
    end;
  inv_swap_inj : forall a1 v1 pt1 a2 v2 pt2, lookup_pte (spaces s) a1 v1 = Some pt1 ->
    lookup_pte (spaces s) a2 v2 = Some pt2 -> location pt1 = IN_SWAP -> location pt2 = IN_SWAP ->
    offset pt1 = offset pt2 -> a1 = a2 /\ v1 = v2;
  inv_clean : forall a v p, resident h (IPT s) a v p -> ~ modified t (IPT s) p ->
    backing (spaces s) (swapFile s) a v `prefix_of` read_frame (mainMemory (machine s)) (Z.of_nat p)
}.

(** The list of the FIFO policy has the frames that hold pages, once each. *)
Definition listed (h : option nat) s : Prop :=
  evictionPolicy s = FIFO ->
  NoDup (evictionList s) /\
  (forall p, p ∈ evictionList s -> exists n e, p = Z.of_nat n /\ IPT s !! n = Some e /\
     valid (ipte e) = true /\ Some n <> h) /\
  (forall p e, IPT s !! p = Some e -> valid (ipte e) = true -> Some p <> h -> Z.of_nat p ∈ evictionList s).

(** ** Changes of the [use], [dirty] and TLB bits *)

Definition shape (e : IPTEntry) : bool * Z * Z * Z :=
  (valid (ipte e), space e, virtualPage (ipte e), physicalPage (ipte e)).

(** Everything else is as before, and the same frames are modified. *)
Record same s t s' t' : Prop := {
  same_memory : mainMemory (machine s') = mainMemory (machine s);
  same_spaces : spaces s' = spaces s;
  same_swapFile : swapFile s' = swapFile s;
  same_swapMap : swapMap s' = swapMap s;
  same_bitmap : mainMemoryBitmap s' = mainMemoryBitmap s;
  same_list : evictionList s' = evictionList s;
  same_policy : evictionPolicy s' = evictionPolicy s;
  same_currentTLB : currentTLB s' = currentTLB s;
  same_currentSpace : currentSpace s' = currentSpace s;
  same_shape : shape <$> IPT s' = shape <$> IPT s;
  same_modified : forall p, modified t (IPT s) p <-> modified t' (IPT s') p;
  same_table : pageTable (machine s') = pageTable (machine s);
  same_registers : registers (machine s') = registers (machine s)
}.

(** The handler found the page in memory: nothing was moved. *)
Definition unmoved s s' : Prop :=
  shape <$> IPT s' = shape <$> IPT s /\ registers (machine s') = registers (machine s).

Lemma same_unmoved s t s' t' : same s t s' t' -> unmoved s s'.
Proof. by intros []. Qed.

Lemma unmoved_trans s1 s2 s3 : unmoved s1 s2 -> unmoved s2 s3 -> unmoved s1 s3.
Proof. intros [] []. split; congruence. Qed.

Lemma same_refl s t : same s t s t.
Proof. by split. Qed.

Lemma same_trans s1 t1 s2 t2 s3 t3 : same s1 t1 s2 t2 -> same s2 t2 s3 t3 -> same s1 t1 s3 t3.
Proof. intros [] []. split; try congruence. intros p. by rewrite same_modified0. Qed.

Lemma shape_lookup I I' p e : shape <$> I' = shape <$> I -> I !! p = Some e ->
  exists e', I' !! p = Some e' /\ valid (ipte e') = valid (ipte e) /\ space e' = space e /\
    virtualPage (ipte e') = virtualPage (ipte e) /\ physicalPage (ipte e') = physicalPage (ipte e).
Proof.
  intros Hs He. assert ((shape <$> I') !! p = Some (shape e)) as H by (by rewrite Hs, list_lookup_fmap, He).
  rewrite list_lookup_fmap in H. destruct (I' !! p) as [e'|]; [|done].
  injection H as H1 H2 H3 H4. by exists e'.
Qed.

Lemma resident_shape h I I' a v p : shape <$> I' = shape <$> I -> resident h I a v p -> resident h I' a v p.
Proof.
  intros Hs (e & He & Hv & Hh & Ha & Hp). destruct (shape_lookup I I' p e Hs He) as (e' & He' & H1 & H2 & H3 & _).
  exists e'. split_and!; congruence.
Qed.

Lemma content_same h s t s' t' a v bs : same s t s' t' -> content h s t a v bs -> content h s' t' a v bs.
Proof.
  intros [Hm Hsp Hf _ _ _ _ _ _ Hs Hd] [(p & Hr & Hp & ->)|[Hn ->]].
  - left. exists p. split_and!; [by eapply resident_shape|by apply Hd|by rewrite Hm].
  - right. split; [|by rewrite Hsp, Hf]. intros p Hr Hp. apply (Hn p); [by eapply resident_shape|by apply Hd].
Qed.

Lemma Inv_retag h u u' s s' t t' bl sl :
  Inv h u s t bl sl -> same s t s' t' -> tlb (machine s') = Some t' -> length t' = 4%nat ->
  (forall p e, IPT s' !! p = Some e -> Some p <> u' -> valid (ipte e) = true -> use (ipte e) = false) ->
  (forall i e', t' !! i = Some e' -> valid e' = true -> exists e, t !! i = Some e /\ valid e = true /\
     virtualPage e' = virtualPage e /\ physicalPage e' = physicalPage e /\
     (forall p ie, physicalPage e' = Z.of_nat p -> IPT s' !! p = Some ie -> dirty (ipte ie) = true -> dirty e' = true)) ->
  Inv h u' s' t' bl sl.
Proof.
  intros [] Hsame Ht' Hl' Hu He. pose proof Hsame as [Hm Hsp Hf Hsw Hb _ Hpol Hc Hcs Hs Hd Htab].
  assert (forall p e, IPT s' !! p = Some e -> exists e0, IPT s !! p = Some e0 /\ valid (ipte e0) = valid (ipte e) /\
    space e0 = space e /\ virtualPage (ipte e0) = virtualPage (ipte e) /\ physicalPage (ipte e0) = physicalPage (ipte e)) as Hback
    by (intros; by eapply shape_lookup).
  split; rewrite ?Hsp, ?Hf, ?Hsw, ?Hb, ?Hc, ?Hm, ?Htab; try done.
  - rewrite <-inv_IPT0, <-(length_fmap shape), Hs. by rewrite length_fmap.
  - intros p e Hp. destruct (Hback p e Hp) as (e0 & H0 & Hv & _). rewrite <-Hv. by apply inv_taken0.
  - intros p e Hp Hv Hh. destruct (Hback p e Hp) as (e0 & H0 & Hv0 & Hs0 & Hp0 & Hph).
    rewrite <-Hs0, <-Hp0, <-Hph. apply (inv_frame0 p e0); congruence.
  - intros a v p q Hp Hq. eapply inv_inj0; eapply resident_shape; (done || symmetry; done).
  - intros i e' Hi Hv. destruct (He i e' Hi Hv) as (e & Hie & Hve & Hvp & Hpp & Hdd).
    destruct (inv_entry0 i e Hie Hve) as (p & ie & Hph & Hp & Hvi & Hh & Hvpn & Hsc & _).
    destruct (shape_lookup (IPT s) (IPT s') p ie Hs Hp) as (ie' & Hp' & Hvi' & Hsi' & Hvpi' & _).
    exists p, ie'. split_and!; try congruence. apply (Hdd p ie'); congruence.
  - intros i j e1 e2 H1 H2 Hv1 Hv2 Hpp. destruct (He i e1 H1 Hv1) as (e1' & ? & ? & _ & ? & _).
    destruct (He j e2 H2 Hv2) as (e2' & ? & ? & _ & ? & _). eapply (inv_entry_inj0 i j e1' e2'); congruence.
  - intros a v p Hr Hnm. apply (inv_clean0 a v p); [by eapply resident_shape|]. intros Hmod. by apply Hnm, Hd.
Qed.

(** ** The operations on entries *)

Lemma get_IPT_ok s p e : IPT s !! p = Some e -> get_IPT (Z.of_nat p) s = Ok (s, e).
Proof. intros H. unfold get_IPT. by rewrite (arr_get_lookup _ _ e) by (rewrite ?Nat2Z.id; done || lia). Qed.

Lemma put_IPT_ok s p e x : IPT s !! p = Some e -> put_IPT (Z.of_nat p) x s = Ok (set_IPT (<[p := x]> (IPT s)) s, tt).
Proof.
  intros H. apply lookup_lt_Some in H. unfold put_IPT. rewrite arr_set_in by lia. by rewrite Nat2Z.id.
Qed.

Lemma update_IPT_ok s p e f : IPT s !! p = Some e ->
  update_IPT (Z.of_nat p) f s = Ok (set_IPT (<[p := mkIPTE (f (ipte e)) (space e)]> (IPT s)) s, tt).
Proof. intros H. unfold update_IPT, sbind. rewrite (get_IPT_ok s p e H). by apply (put_IPT_ok s p e). Qed.

Lemma get_tlb_ok s t i e : tlb (machine s) = Some t -> t !! i = Some e -> get_tlb (Z.of_nat i) s = Ok (s, e).
Proof.
  intros Ht H. unfold get_tlb. rewrite Ht. cbn [deref rbind].
  by rewrite (arr_get_lookup _ _ e) by (rewrite ?Nat2Z.id; done || lia).
Qed.

Definition with_tlb (t : list TranslationEntry) s : VM B := set_machine (set_tlb (machine s) (Some t)) s.

Lemma put_tlb_ok s t i e x : tlb (machine s) = Some t -> t !! i = Some e ->
  put_tlb (Z.of_nat i) x s = Ok (with_tlb (<[i := x]> t) s, tt).
Proof.
  intros Ht H%lookup_lt_Some. unfold put_tlb. rewrite Ht. cbn [deref rbind].
  rewrite arr_set_in by lia. by rewrite Nat2Z.id.
Qed.

Lemma update_tlb_ok s t i e f : tlb (machine s) = Some t -> t !! i = Some e ->
  update_tlb (Z.of_nat i) f s = Ok (with_tlb (<[i := f e]> t) s, tt).
Proof.
  intros Ht H. unfold update_tlb, sbind. rewrite (get_tlb_ok s t i e Ht H). by apply (put_tlb_ok s t i e).
Qed.

Lemma shape_insert I p e f : I !! p = Some e ->
  shape (mkIPTE f (space e)) = shape e -> shape <$> <[p := mkIPTE f (space e)]> I = shape <$> I.
Proof. intros Hp Hf. rewrite list_fmap_insert, Hf. apply list_insert_id. by rewrite list_lookup_fmap, Hp. Qed.

(** Setting the dirty bit of a frame and dropping its TLB entry. *)
Definition unmap (i p : nat) (te : TranslationEntry) (e : IPTEntry) (d : bool) (t : list TranslationEntry) s : VM B :=
  with_tlb (<[i := with_valid false te]> t)
    (set_IPT (<[p := mkIPTE (with_dirty d (ipte e)) (space e)]> (IPT s)) s).

Lemma insert_cases {A} (l : list A) i x j y : <[i := x]> l !! j = Some y ->
  (i = j /\ x = y /\ (j < length l)%nat) \/ (i <> j /\ l !! j = Some y).
Proof. intros [(-> & -> & ?)|[? ?]]%list_lookup_insert_Some; [by left|by right]. Qed.

Lemma unmap_same h u s t bl sl i p te e d :
  Inv h u s t bl sl -> t !! i = Some te -> valid te = true -> physicalPage te = Z.of_nat p ->
  IPT s !! p = Some e -> (dirty te = true -> d = true) -> (d = true -> dirty te = true \/ dirty (ipte e) = true) ->
  same s t (unmap i p te e d t s) (<[i := with_valid false te]> t).
Proof.
  intros [] Hi Hv Hp He Hd Hd2. split; try done; [cbn; by apply shape_insert|].
  destruct (inv_entry0 i te Hi Hv) as (p' & ie & ? & ? & _ & _ & _ & _ & Hde). assert (p' = p) as -> by lia. simplify_eq.
  pose proof (lookup_lt_Some _ _ _ He) as Hlt. pose proof (lookup_lt_Some _ _ _ Hi) as Hlti.
  intros q. cbn [unmap with_tlb set_machine set_IPT IPT]. split.
  - intros [(eq & Hq & Hdq)|(j & ej & Hj & Hvj & Hpj & Hdj)].
    + left. destruct (decide (q = p)) as [->|Hqp].
      * eexists. rewrite list_lookup_insert_eq by done. split; [done|]. cbn. simplify_eq. auto.
      * exists eq. by rewrite list_lookup_insert_ne.
    + destruct (decide (i = j)) as [<-|Hij].
      * simplify_eq. assert (q = p) as -> by lia. left. eexists.
        rewrite list_lookup_insert_eq by done. split; [done|]. cbn. auto.
      * right. exists j, ej. by rewrite list_lookup_insert_ne.
  - intros [(eq & [(-> & <- & _)|[Hqp Hq]]%insert_cases & Hdq)|(j & ej & [(-> & <- & _)|[Hij Hj]]%insert_cases & Hvj & Hpj & Hdj)].
    + cbn in Hdq. destruct (Hd2 Hdq); [right; by exists i, te|left; by exists e].
    + left. by exists eq.
    + done.
    + right. by exists j, ej.
Qed.

Lemma unmap_inv h u s t bl sl i p te e d :
  Inv h u s t bl sl -> t !! i = Some te -> valid te = true -> physicalPage te = Z.of_nat p ->
  IPT s !! p = Some e -> (dirty te = true -> d = true) -> (d = true -> dirty te = true \/ dirty (ipte e) = true) ->
  Inv h u (unmap i p te e d t s) (<[i := with_valid false te]> t) bl sl.
Proof.
  intros HI Hi Hv Hp He Hd Hd2. pose proof HI as [].
  eapply Inv_retag; [exact HI|by eapply unmap_same|done|by rewrite length_insert|..]; cbn [unmap with_tlb set_machine set_IPT IPT].
  - intros q eq [(-> & <- & _)|[_ Hq]]%insert_cases; cbn; [by apply (inv_use0 q e)|by apply (inv_use0 q eq)].
  - intros j e' [(-> & <- & _)|[Hij Hj]]%insert_cases Hve; [done|].
    exists e'. split_and!; try done. intros q ie Hq [(-> & <- & _)|[Hpq Hq']]%insert_cases Hdd.
    + exfalso. apply Hij. by eapply inv_entry_inj0; [..|rewrite Hp, Hq].
    + destruct (inv_entry0 j e' Hj Hve) as (q' & ie' & ? & ? & _ & _ & _ & _ & Hde).
      assert (q' = q) as -> by lia. simplify_eq. by apply Hde.
Qed.

Lemma with_valid_false te : valid te = false -> with_valid false te = te.
Proof. by destruct te as [? ? [] ? ? ?]. Qed.

Lemma with_tlb_id s t : tlb (machine s) = Some t -> with_tlb t s = s.
Proof. intros H. unfold with_tlb. destruct s as [[] ? ? ? ? ? ? ? ? ? ?]. cbn in *. by subst. Qed.

(** Context switches write the dirty bits back and empty the TLB. *)
Lemma flush_entry_inv h u s t bl sl i z : z = Z.of_nat i -> (i < 4)%nat -> Inv h u s t bl sl ->
  exists s' t', flush_entry z s = Ok (s', tt) /\ Inv h u s' t' bl sl /\ same s t s' t' /\
    (forall j e, t' !! j = Some e -> valid e = true -> j <> i /\ t !! j = Some e).
Proof.
  intros -> Hi HI. pose proof HI as []. destruct (lookup_lt_is_Some_2 t i) as [te Hte]; [lia|].
  unfold flush_entry, sbind. rewrite (get_tlb_ok s t i te inv_tlb0 Hte). destruct (valid te) eqn:Hv.
  - destruct (inv_entry0 i te Hte Hv) as (p & ie & Hp & Hip & _ & _ & _ & _ & Hde). rewrite Hp.
    rewrite (update_IPT_ok s p ie _ Hip). rewrite (update_tlb_ok _ t i te) by done.
    exists (unmap i p te ie (dirty te) t s), (<[i := with_valid false te]> t).
    split; [done|]. split; [apply unmap_inv; auto|]. split; [eapply unmap_same; eauto|].
    intros j e [(-> & <- & _)|[Hij Hj]]%insert_cases Hve; [done|]. by split.
  - unfold sret. rewrite (update_tlb_ok s t i te) by done. rewrite with_valid_false, list_insert_id, with_tlb_id by done.
    exists s, t. split_and!; [done|done|by apply same_refl|]. intros j e Hj Hve. split; [|done]. intros ->. congruence.
Qed.

Lemma SaveState_inv h u s t bl sl : Inv h u s t bl sl ->
  exists s' t', SaveState s = Ok (s', tt) /\ Inv h u s' t' bl sl /\ same s t s' t' /\
    (forall j e, t' !! j = Some e -> valid e = false).
Proof.
  intros H0. unfold SaveState, sbind.
  destruct (flush_entry_inv h u s t bl sl 0 0 eq_refl ltac:(lia) H0) as (s1 & t1 & E1 & H1 & S1 & T1). rewrite E1.
  destruct (flush_entry_inv h u s1 t1 bl sl 1 1 eq_refl ltac:(lia) H1) as (s2 & t2 & E2 & H2 & S2 & T2). rewrite E2.
  destruct (flush_entry_inv h u s2 t2 bl sl 2 2 eq_refl ltac:(lia) H2) as (s3 & t3 & E3 & H3 & S3 & T3). rewrite E3.
  destruct (flush_entry_inv h u s3 t3 bl sl 3 3 eq_refl ltac:(lia) H3) as (s4 & t4 & E4 & H4 & S4 & T4). rewrite E4.
  exists s4, t4. split_and!; [done|done|by repeat (eapply same_trans; [eassumption|])|].
  intros j e Hj. apply not_true_iff_false. intros Hv.
  destruct (T4 j e Hj Hv) as [? Hj3], (T3 j e Hj3 Hv) as [? Hj2], (T2 j e Hj2 Hv) as [? Hj1], (T1 j e Hj1 Hv) as [? Hj0].
  apply lookup_lt_Some in Hj0. rewrite (inv_tlb_length _ _ _ _ _ _ H0) in Hj0. lia.
Qed.

(** ** Evicting a frame from the TLB *)

(** The dirty bit of a TLB entry reaches the inverted page table: the handler
    copies it only when the slot it will fill next is valid. *)
Definition dirty_bits_reach s (t : list TranslationEntry) (p : nat) : Prop :=
  forall i te e, t !! i = Some te -> valid te = true -> physicalPage te = Z.of_nat p -> dirty te = true ->
    IPT s !! p = Some e -> dirty (ipte e) = true \/ exists c, t !! Z.to_nat (currentTLB s) = Some c /\ valid c = true.

Lemma evict_tlb_inv h u s t bl sl p e i z : z = Z.of_nat i -> (i < 4)%nat -> Inv h u s t bl sl -> IPT s !! p = Some e ->
  dirty_bits_reach s t p ->
  exists s' t', evict_tlb (Z.of_nat p) z s = Ok (s', tt) /\ Inv h u s' t' bl sl /\ same s t s' t' /\
    dirty_bits_reach s' t' p /\
    (forall j te, t' !! j = Some te -> valid te = true -> physicalPage te = Z.of_nat p -> j <> i /\ t !! j = Some te).
Proof.
  intros -> Hi HI He Hg. pose proof HI as []. destruct (lookup_lt_is_Some_2 t i) as [te Hte]; [lia|].
  destruct (lookup_lt_is_Some_2 t (Z.to_nat (currentTLB s))) as [c Hc]; [lia|].
  unfold evict_tlb, sbind. rewrite (get_tlb_ok s t i te inv_tlb0 Hte).
  destruct (bool_decide (physicalPage te = Z.of_nat p) && valid te) eqn:Hhit.
  - apply andb_true_iff in Hhit as [Hp%bool_decide_eq_true Hv]. unfold get.
    assert (get_tlb (currentTLB s) s = Ok (s, c)) as ->
      by (rewrite <-(get_tlb_ok s t _ c inv_tlb0 Hc), Z2Nat.id by lia; done).
    set (d := if valid c then dirty te else dirty (ipte e)).
    assert ((if valid c then update_IPT (Z.of_nat p) (with_dirty (dirty te)) else sret tt) s =
      Ok (set_IPT (<[p := mkIPTE (with_dirty d (ipte e)) (space e)]> (IPT s)) s, tt)) as ->.
    { unfold d. destruct (valid c); [by rewrite (update_IPT_ok s p e)|]. unfold sret.
      rewrite list_insert_id; [by destruct s|]. rewrite He. by destruct e as [[] ?]. }
    rewrite (update_tlb_ok _ t i te) by done.
    exists (unmap i p te e d t s), (<[i := with_valid false te]> t). split; [done|].
    assert (forall j te', <[i := with_valid false te]> t !! j = Some te' -> valid te' = true ->
      physicalPage te' = Z.of_nat p -> False) as Hnone.
    { intros j te' [(-> & <- & _)|[Hij Hj]]%insert_cases Hve Hpp; [done|]. apply Hij.
      by eapply (inv_entry_inj0 i j te te'); [..|rewrite Hp, Hpp]. }
    assert (d = true -> dirty te = true \/ dirty (ipte e) = true) as Hd2 by (unfold d; destruct (valid c); auto).
    assert (dirty te = true -> d = true) as Hd1.
    { intros Hd. unfold d. destruct (valid c) eqn:Hvc; [done|].
      destruct (Hg i te e Hte Hv Hp Hd He) as [?|(c' & ? & ?)]; [done|]. congruence. }
    split; [by apply unmap_inv|]. split; [by eapply unmap_same|]. split.
    + intros j te' e' Hj Hve Hpp. by destruct (Hnone j te').
    + intros j te' Hj Hve Hpp. by destruct (Hnone j te').
  - unfold sret. exists s, t. split_and!; [done|done|by apply same_refl|done|].
    intros j te' Hj Hve Hpp. split; [|done]. intros ->. simplify_eq.
    rewrite bool_decide_eq_true_2, Hve in Hhit by done. done.
Qed.

Lemma same_IPT s t s' t' p e : same s t s' t' -> IPT s !! p = Some e -> exists e', IPT s' !! p = Some e' /\
  valid (ipte e') = valid (ipte e) /\ space e' = space e /\ virtualPage (ipte e') = virtualPage (ipte e).
Proof.
  intros [] He. destruct (shape_lookup (IPT s) (IPT s') p e same_shape0 He) as (e' & ? & ? & ? & ? & _). by exists e'.
Qed.

Lemma evict_all_tlb_inv h u s t bl sl p e : Inv h u s t bl sl -> IPT s !! p = Some e -> dirty_bits_reach s t p ->
  exists s' t', (evict_tlb (Z.of_nat p) 0 ;;; evict_tlb (Z.of_nat p) 1 ;;; evict_tlb (Z.of_nat p) 2 ;;;
      evict_tlb (Z.of_nat p) 3) s = Ok (s', tt) /\ Inv h u s' t' bl sl /\ same s t s' t' /\
    (forall j te, t' !! j = Some te -> valid te = true -> physicalPage te <> Z.of_nat p).
Proof.
  intros H0 I0 G0. unfold sbind.
  destruct (evict_tlb_inv h u s t bl sl p e 0 0 eq_refl ltac:(lia) H0 I0 G0) as (s1 & t1 & E1 & H1 & S1 & G1 & T1).
  destruct (same_IPT _ _ _ _ p e S1 I0) as (e1 & I1 & _).
  destruct (evict_tlb_inv h u s1 t1 bl sl p e1 1 1 eq_refl ltac:(lia) H1 I1 G1) as (s2 & t2 & E2 & H2 & S2 & G2 & T2).
  destruct (same_IPT _ _ _ _ p e1 S2 I1) as (e2 & I2 & _).
  destruct (evict_tlb_inv h u s2 t2 bl sl p e2 2 2 eq_refl ltac:(lia) H2 I2 G2) as (s3 & t3 & E3 & H3 & S3 & G3 & T3).
  destruct (same_IPT _ _ _ _ p e2 S3 I2) as (e3 & I3 & _).
  destruct (evict_tlb_inv h u s3 t3 bl sl p e3 3 3 eq_refl ltac:(lia) H3 I3 G3) as (s4 & t4 & E4 & H4 & S4 & _ & T4).
  rewrite E1, E2, E3, E4.
  exists s4, t4. split_and!; [done|done|by repeat (eapply same_trans; [eassumption|])|].
  intros j te Hj Hv Hp.
  destruct (T4 j te Hj Hv Hp) as [? Hj3], (T3 j te Hj3 Hv Hp) as [? Hj2], (T2 j te Hj2 Hv Hp) as [? Hj1],
    (T1 j te Hj1 Hv Hp) as [? Hj0].
  apply lookup_lt_Some in Hj0. rewrite (inv_tlb_length _ _ _ _ _ _ H0) in Hj0. lia.
Qed.

(** ** Page tables *)

Lemma put_pte_ok s a v pt x : lookup_pte (spaces s) a v = Some pt ->
  exists S', put_pte a v x s = Ok (set_spaces S' s, tt) /\
    (forall b w, lookup_pte S' b w = if decide (b = a /\ w = v) then Some x else lookup_pte (spaces s) b w) /\
    (forall b, exec_of S' b = exec_of (spaces s) b).
Proof.
  unfold lookup_pte. intros Hl. unfold put_pte. destruct (spaces s !! a) as [sp|] eqn:Ha; [|done]. cbn in Hl.
  case_decide as Hv; [|done]. pose proof (lookup_lt_Some _ _ _ Hl). cbn [deref rbind].
  rewrite arr_set_in by lia. cbn [rbind]. eexists. split; [reflexivity|]. split.
  - intros b w. destruct (decide (b = a)) as [->|Hb].
    + rewrite lookup_insert_eq, Ha. cbn. destruct (decide (0 <= w)) as [Hw|Hw].
      * destruct (decide (w = v)) as [->|Hwv].
        -- rewrite decide_True by done. by rewrite list_lookup_insert_eq.
        -- rewrite decide_False by naive_solver. rewrite list_lookup_insert_ne by lia. done.
      * by rewrite decide_False by naive_solver lia.
    + rewrite lookup_insert_ne by done. by rewrite decide_False by naive_solver.
  - intros b. unfold exec_of. destruct (decide (b = a)) as [->|Hb].
    + by rewrite lookup_insert_eq, Ha.
    + by rewrite lookup_insert_ne.
Qed.

Lemma get_pte_ok s a v pt : lookup_pte (spaces s) a v = Some pt -> get_pte a v s = Ok (s, pt).
Proof.
  unfold lookup_pte, get_pte. destruct (spaces s !! a) as [sp|]; [|done]. cbn. case_decide; [|done].
  intros HL. by rewrite (arr_get_lookup _ _ pt).
Qed.

(** ** Writing a page to the swap file *)

(** The swap page used: the page's own, or a free one, which nobody else has. *)
Lemma swap_slot h u s t bl sl pt a v : Inv h u s t bl sl -> lookup_pte (spaces s) a v = Some pt ->
  location pt = IN_SWAP \/ first_clear sl <> None ->
  exists k m' sl', (if decide (location pt = IN_SWAP) then sret (Z.quot (offset pt) PageSize) else find_swap) s =
      Ok (set_swap m' (swapFile s) s, Z.of_nat k) /\
    ba_rep m' sl' /\ sl' !! k = Some true /\ (forall j, sl !! j = Some true -> sl' !! j = Some true) /\
    forall a' v' pt' j, lookup_pte (spaces s) a' v' = Some pt' -> location pt' = IN_SWAP ->
      offset pt' = Z.of_nat j * PageSize -> (a', v') <> (a, v) -> j <> k.
Proof.
  intros [] Hpt Hroom. pose proof (inv_location0 a v pt Hpt) as Hloc. case_decide as Hl.
  - rewrite Hl in Hloc. destruct Hloc as (k & Hk & Hsl & _). exists k, (swapMap s), sl.
    unfold sret. rewrite Hk, Z.quot_mul by done. split; [by destruct s|]. split_and!; try done.
    intros a' v' pt' j Hp' Hl' Hj Hne ->. apply Hne.
    destruct (inv_swap_inj0 a' v' pt' a v pt) as [-> ->]; congruence.
  - destruct Hroom as [?|Hroom]; [done|]. destruct (first_clear sl) as [k|] eqn:Hf; [|done].
    destruct (ba_find_some _ _ _ inv_swap0 Hf) as (m' & Hm & Hr). exists k, m', (<[k := true]> sl).
    unfold find_swap. rewrite Hm. cbn [rbind]. split; [done|]. apply first_clear_Some in Hf as [Hk _].
    pose proof (lookup_lt_Some _ _ _ Hk). split_and!; [done|by apply list_lookup_insert_eq| |].
    + intros j Hj. rewrite list_lookup_insert_ne; [done|]. intros <-. congruence.
    + intros a' v' pt' j Hp' Hl' Hj _ ->. pose proof (inv_location0 a' v' pt' Hp') as Hloc'. rewrite Hl' in Hloc'.
      destruct Hloc' as (k' & Hk' & Hsl' & _). assert (k' = k) as -> by (unfold PageSize, SectorSize in *; lia). congruence.
Qed.

Lemma swap_out_inv u s t bl sl p e :
  Inv None u s t bl sl -> IPT s !! p = Some e -> valid (ipte e) = true ->
  (forall pt, lookup_pte (spaces s) (space e) (virtualPage (ipte e)) = Some pt ->
     location pt = IN_SWAP \/ first_clear sl <> None) ->
  exists s' sl', swap_out (Z.of_nat p) s = Ok (s', tt) /\ Inv None u s' t bl sl' /\
    IPT s' = IPT s /\ machine s' = machine s /\ evictionList s' = evictionList s /\ evictionPolicy s' = evictionPolicy s /\
    currentSpace s' = currentSpace s /\ mainMemoryBitmap s' = mainMemoryBitmap s /\ currentTLB s' = currentTLB s /\
    (forall a v, is_Some (lookup_pte (spaces s') a v) <-> is_Some (lookup_pte (spaces s) a v)) /\
    (forall a v, (a, v) <> (space e, virtualPage (ipte e)) ->
       backing (spaces s') (swapFile s') a v = backing (spaces s) (swapFile s) a v) /\
    backing (spaces s') (swapFile s') (space e) (virtualPage (ipte e)) =
      read_frame (mainMemory (machine s)) (Z.of_nat p).
Proof.
  intros HI He Hv Hroom. pose proof HI as []. set (a := space e) in *. set (v := virtualPage (ipte e)) in *.
  destruct (inv_frame0 p e He Hv ltac:(done)) as [_ [pt Hpt]]. fold a v in Hpt.
  destruct (swap_slot None u s t bl sl pt a v HI Hpt (Hroom pt Hpt)) as (k & m' & sl' & Hslot & Hrep & Hk & Hmono & Hother).
  destruct (WriteAt_page (swapFile s) (read_frame (mainMemory (machine s)) (Z.of_nat p)) (Z.of_nat k))
    as (f' & HW & Hpage & Hlen & Hlen' & Hkeep); [lia|apply read_frame_length|].
  set (s1 := set_swap m' f' s).
  destruct (put_pte_ok s1 a v pt (mkPTE (pte pt) IN_SWAP (Z.of_nat k * PageSize)) Hpt) as (S' & HP & HL & HX).
  exists (set_spaces S' s1), sl'. unfold swap_out, sbind, lift, get, put.
  rewrite (get_IPT_ok s p e He). fold a v. rewrite (get_pte_ok s a v pt Hpt), Hslot.
  cbn [swapFile machine set_swap]. rewrite HW.
  split; [exact HP|].
  assert (forall a' v', (a', v') <> (a, v) -> backing S' f' a' v' = backing (spaces s) (swapFile s) a' v') as Hb.
  { intros a' v' Hne. unfold backing. rewrite HL, decide_False by naive_solver. cbn [spaces set_swap s1].
    destruct (lookup_pte (spaces s) a' v') as [pt'|] eqn:Hpt'; [|done].
    pose proof (inv_location0 a' v' pt' Hpt') as Hloc. destruct (location pt') eqn:Hl'; [|done| |done].
    - by rewrite HX.
    - destruct Hloc as (j & Hj & _ & Hjl). rewrite Hj. apply Hkeep; [lia| |done].
      pose proof (Hother a' v' pt' j Hpt' Hl' Hj Hne). lia. }
  assert (backing S' f' a v = read_frame (mainMemory (machine s)) (Z.of_nat p)) as Hb2.
  { unfold backing. rewrite HL, decide_True by done. exact Hpage. }
  assert (forall a' v', is_Some (lookup_pte S' a' v') <-> is_Some (lookup_pte (spaces s) a' v')) as Hsome.
  { intros a' v'. rewrite HL. destruct (decide (a' = a /\ v' = v)) as [[-> ->]|_]; [|reflexivity]. rewrite Hpt. by split; intros; eexists. }
  split; [|repeat (split; [reflexivity|]); split; [exact Hsome|split; [exact Hb|exact Hb2]]].
  split; cbn [tlb machine currentTLB IPT mainMemoryBitmap swapMap spaces swapFile currentSpace set_spaces set_swap s1]; try done.
  - intros q eq Hq Hvq Hh. destruct (inv_frame0 q eq Hq Hvq Hh) as [? ?]. split; [done|]. by apply Hsome.
  - intros a' v' pt'. rewrite HL. destruct (decide (a' = a /\ v' = v)) as [Hd|Hd].
    + intros Hx. injection Hx as <-. cbn. by exists k.
    + intros Hp'. pose proof (inv_location0 a' v' pt' Hp') as Hloc. destruct (location pt'); try done.
      destruct Hloc as (j & ? & ? & ?). exists j. split_and!; [done|by apply Hmono|lia].
  - intros a1 v1 pt1 a2 v2 pt2. rewrite !HL. destruct (decide (a1 = a /\ v1 = v)) as [H1|H1], (decide (a2 = a /\ v2 = v)) as [H2|H2]; cbn [spaces set_swap s1].
    + intros _ _ _ _ _. naive_solver.
    + intros [= <-] Hp2 _ Hl2 Ho. exfalso. cbn in Ho. by apply (Hother a2 v2 pt2 k Hp2 Hl2); [|naive_solver|].
    + intros Hp1 [= <-] Hl1 _ Ho. exfalso. cbn in Ho. by apply (Hother a1 v1 pt1 k Hp1 Hl1); [|naive_solver|].
    + apply inv_swap_inj0.
  - intros a' v' q Hr Hm. destruct (decide ((a', v') = (a, v))) as [[= -> ->]|Hne].
    + assert (q = p) as ->. { eapply inv_inj0; [exact Hr|]. exists e. by split_and!. }
      by rewrite Hb2.
    + rewrite Hb by done. by apply inv_clean0.
Qed.

(** ** Evicting *)

Definition with_list (l : list Z) (n : nat) s : VM B := set_rands n (set_evictionList l s).

Lemma with_list_inv h u s t bl sl l n : Inv h u s t bl sl -> Inv h u (with_list l n s) t bl sl.
Proof. intros []. by split. Qed.

Lemma pick_ok fuel s t bl sl : Inv None None s t bl sl -> listed None s -> (forall n, 0 <= rand n) ->
  (forall p e, IPT s !! p = Some e -> valid (ipte e) = true) ->
  exists p e l n, pick rand (Datatypes.S fuel) s = Ok (with_list l n s, Z.of_nat p) /\ IPT s !! p = Some e /\
    valid (ipte e) = true /\ listed (Some p) (with_list l n s).
Proof.
  intros [] HL Hr Hall. unfold pick, sbind, get. destruct (evictionPolicy s) eqn:Hpol.
  - destruct (HL Hpol) as (Hnd & Hin & Hcov). cbn [pick_fifo]. unfold sbind, get.
    destruct (evictionList s) as [|z l] eqn:Hl.
    { exfalso. destruct (lookup_lt_is_Some_2 (IPT s) 0) as [e He].
      - rewrite inv_IPT0. unfold NumPhysPages. lia.
      - pose proof (Hcov 0%nat e He (Hall _ _ He) ltac:(done)) as H0. by apply elem_of_nil in H0. }
    destruct (Hin z) as (p & e & -> & He & Hv & _); [by left|].
    exists p, e, l, (rands s). unfold put. rewrite (get_IPT_ok (set_evictionList l s) p e He).
    rewrite (inv_use0 p e) by done. unfold sret. split_and!; try done.
    apply NoDup_cons in Hnd as [Hnot Hnd]. intros _. split_and!; [done| |]; cbn [evictionList with_list set_rands set_evictionList IPT].
    + intros q Hq. destruct (Hin q) as (m & em & -> & Hm & Hvm & _); [by right|]. exists m, em.
      split_and!; try done. intros [= ->]. done.
    + intros q eq Hq Hvq Hne. pose proof (Hcov q eq Hq Hvq ltac:(done)) as Hqin.
      apply elem_of_cons in Hqin as [Heq|?]; [|done]. exfalso. apply Hne. f_equal. lia.
  - cbn [pick_random]. unfold sbind, draw. set (z := Z.rem (rand (rands s)) NumPhysPages).
    assert (0 <= z < NumPhysPages) as Hz by (apply Z.rem_bound_pos; [apply Hr|done]).
    destruct (lookup_lt_is_Some_2 (IPT s) (Z.to_nat z)) as [e He]; [lia|].
    exists (Z.to_nat z), e, (evictionList s), (Datatypes.S (rands s)). rewrite <-(Z2Nat.id z) at 1 by lia.
    rewrite (get_IPT_ok (set_rands (Datatypes.S (rands s)) s) _ e He). rewrite (inv_use0 _ e) by (done || by eapply Hall).
    unfold sret. rewrite Z2Nat.id by lia. split_and!; [by destruct s|done|by eapply Hall|]. intros Hp. cbn in Hp. congruence.
Qed.

Lemma open_hole u s t bl sl p e : Inv None u s t bl sl -> IPT s !! p = Some e -> valid (ipte e) = true ->
  (forall j te, t !! j = Some te -> valid te = true -> physicalPage te <> Z.of_nat p) ->
  (modified t (IPT s) p ->
     backing (spaces s) (swapFile s) (space e) (virtualPage (ipte e)) = read_frame (mainMemory (machine s)) (Z.of_nat p)) ->
  Inv (Some p) u s t bl sl /\ forall a v bs, content None s t a v bs -> content (Some p) s t a v bs.
Proof.
  intros [] He Hv Hno Hb.
  assert (forall a v q, resident (Some p) (IPT s) a v q -> resident None (IPT s) a v q) as Hr
    by (intros a v q (eq & ? & ? & ? & ? & ?); exists eq; by split_and!).
  split.
  - split; try done.
    + intros q eq Hq. rewrite (inv_taken0 q eq Hq). destruct (decide (q = p)) as [->|Hne].
      * simplify_eq. by rewrite Hv.
      * by rewrite !bool_decide_eq_false_2 by congruence.
    + intros q eq Hq Hvq _. by apply inv_frame0.
    + intros a v q1 q2 H1%Hr H2%Hr. by eapply inv_inj0.
    + intros i te Hi Hvi. destruct (inv_entry0 i te Hi Hvi) as (q & ie & Hq & H2 & H3 & _ & H4).
      exists q, ie. split_and!; try done; [|apply H4..]. intros [= ->]. by eapply Hno.
    + intros a v q Hres%Hr. by apply inv_clean0.
  - intros a v bs [(q & (eq & Hq & Hvq & _ & Ha & Hvp) & Hm & ->)|[Hn ->]].
    + destruct (decide (q = p)) as [->|Hne].
      * right. simplify_eq. split; [|by rewrite Hb]. intros q Hres. pose proof Hres as (eq' & ? & ? & Hqp & _).
        exfalso. apply Hqp. f_equal. eapply (inv_inj0 (space e) (virtualPage (ipte e))); [by apply Hr|]. exists e. by split_and!.
      * left. exists q. split_and!; try done. exists eq. split_and!; try done. congruence.
    + right. split; [|done]. intros q Hres. apply Hn. by apply Hr.
Qed.

(** What a step of the handler keeps. *)
Record keeps (h : option nat) s t (h' : option nat) s' t' : Prop := {
  keep_content : forall a v bs, content h s t a v bs ->
    exists bs', content h' s' t' a v bs' /\ bs `prefix_of` bs';
  keep_space : currentSpace s' = currentSpace s;
  keep_policy : evictionPolicy s' = evictionPolicy s;
  keep_pages : forall a v, is_Some (lookup_pte (spaces s') a v) <-> is_Some (lookup_pte (spaces s) a v)
}.

Lemma keeps_trans h1 s1 t1 h2 s2 t2 h3 s3 t3 :
  keeps h1 s1 t1 h2 s2 t2 -> keeps h2 s2 t2 h3 s3 t3 -> keeps h1 s1 t1 h3 s3 t3.
Proof.
  intros [] []. split; try congruence.
  - intros a v bs H. destruct (keep_content0 a v bs H) as (bs2 & H2 & HP2).
    destruct (keep_content1 a v bs2 H2) as (bs3 & H3 & HP3). exists bs3. split; [done|by etrans].
  - intros a v. by rewrite keep_pages1.
Qed.

Lemma same_keeps h s t s' t' : same s t s' t' -> keeps h s t h s' t'.
Proof.
  intros HS. split.
  - intros a v bs HC. exists bs. split; [by eapply content_same|done].
  - by destruct HS.
  - by destruct HS.
  - intros a v. by rewrite (same_spaces _ _ _ _ HS).
Qed.

Lemma content_list h s t l n a v bs : content h s t a v bs -> content h (with_list l n s) t a v bs.
Proof. done. Qed.

Lemma set_use_inv h u u' s t bl sl p e b : Inv h u s t bl sl -> IPT s !! p = Some e ->
  (u = None \/ u = Some p) -> (if b : bool then u' = Some p else u' = None) ->
  let s' := set_IPT (<[p := mkIPTE (with_use b (ipte e)) (space e)]> (IPT s)) s in
  Inv h u' s' t bl sl /\ same s t s' t.
Proof.
  intros HI He Hu Hu' s'. pose proof HI as []. pose proof (lookup_lt_Some _ _ _ He).
  assert (same s t s' t) as HS.
  { split; try done; [cbn; by apply shape_insert|]. intros q. cbn [s' set_IPT IPT]. split.
    - intros [(eq & Hq & Hd)|?]; [|by right]. left. destruct (decide (q = p)) as [->|].
      + eexists. rewrite list_lookup_insert_eq by done. split; [done|]. cbn. by simplify_eq.
      + exists eq. by rewrite list_lookup_insert_ne.
    - intros [(eq & [(-> & <- & _)|[Hqp Hq]]%insert_cases & Hd)|?]; [left; by exists e|left; by exists eq|by right]. }
  split; [|done]. eapply Inv_retag; [exact HI|exact HS|done|done|..]; cbn [s' set_IPT IPT].
  - intros q eq [(-> & <- & _)|[Hqp Hq]]%insert_cases Hne Hv; cbn.
    + destruct b; [by subst|done].
    + eapply inv_use0; [exact Hq| |done]. destruct Hu as [->| ->]; congruence.
  - intros i te Hi Hv. exists te. split_and!; try done. intros q ie Hq [(-> & <- & _)|[Hqp Hie]]%insert_cases Hd.
    + destruct (inv_entry0 i te Hi Hv) as (q' & ie' & ? & ? & _ & _ & _ & _ & Hde). assert (q' = q) as -> by lia. simplify_eq. by apply Hde.
    + destruct (inv_entry0 i te Hi Hv) as (q' & ie' & ? & ? & _ & _ & _ & _ & Hde). assert (q' = q) as -> by lia. simplify_eq. by apply Hde.
Qed.

Lemma seq4 {A} (a b c d : ST (VM B) unit) (r : ST (VM B) A) s :
  (a ;;; b ;;; c ;;; d ;;; r) s =
    match (a ;;; b ;;; c ;;; d) s with Ok (s', _) => r s' | Fault e => Fault e end.
Proof.
  unfold sbind. destruct (a s) as [[s1 []]|]; [|done]. destruct (b s1) as [[s2 []]|]; [|done].
  destruct (c s2) as [[s3 []]|]; [|done]. by destruct (d s3) as [[s4 []]|].
Qed.

Lemma same_listed h s t s' t' : same s t s' t' -> listed h s -> listed h s'.
Proof.
  intros HS HL Hp. pose proof (same_policy _ _ _ _ HS) as Hpol. pose proof (same_list _ _ _ _ HS) as Hl.
  destruct HL as (Hnd & Hin & Hcov); [congruence|]. rewrite Hl. split; [done|]. split.
  - intros p (n & e & -> & He & Hv & Hh)%Hin. destruct (same_IPT _ _ _ _ n e HS He) as (e' & He' & Hv' & _).
    exists n, e'. split_and!; congruence.
  - intros p e He Hv Hh.
    destruct (shape_lookup (IPT s') (IPT s) p e (eq_sym (same_shape _ _ _ _ HS)) He) as (e' & He' & Hv' & _).
    eapply Hcov; [exact He'|congruence|done].
Qed.

Lemma Evict_inv fuel s t bl sl : Inv None None s t bl sl -> listed None s -> (forall n, 0 <= rand n) ->
  (forall p e, IPT s !! p = Some e -> valid (ipte e) = true) ->
  (forall p, dirty_bits_reach s t p) -> first_clear sl <> None ->
  exists s' p t' sl', Evict rand (Datatypes.S fuel) s = Ok (s', Z.of_nat p) /\
    Inv (Some p) (Some p) s' t' bl sl' /\ listed (Some p) s' /\ keeps None s t (Some p) s' t' /\
    (forall a v q, resident (Some p) (IPT s') a v q -> resident None (IPT s) a v q) /\
    (p < length (IPT s'))%nat.
Proof.
  intros HI HL Hrand Hall Hreach Hroom.
  destruct (pick_ok fuel s t bl sl HI HL Hrand Hall) as (p & e & l & n & Hpick & He & Hv & HL1).
  pose proof (with_list_inv None None s t bl sl l n HI) as HI1. set (s1 := with_list l n s) in *.
  destruct (set_use_inv None None (Some p) s1 t bl sl p e true HI1 He) as [HI2 HS2]; [by left|done|].
  pose proof (update_IPT_ok s1 p e (with_use true) He) as Hu. set (s2 := set_IPT _ s1) in *.
  destruct (same_IPT _ _ _ _ p e HS2 He) as (e2 & He2 & Hv2 & Ha2 & Hvp2).
  assert (dirty_bits_reach s2 t p) as Hreach2.
  { intros i te ex Hi Hvi Hp Hd Hx. destruct (Hreach p i te e Hi Hvi Hp Hd He) as [?|?]; [left|by right].
    cbn [s2 set_IPT IPT] in Hx. rewrite list_lookup_insert_eq in Hx by (by eapply lookup_lt_Some). by simplify_eq. }
  destruct (evict_all_tlb_inv None (Some p) s2 t bl sl p e2 HI2 He2 Hreach2) as (s3 & t3 & Htlb & HI3 & HS3 & Hno).
  destruct (same_IPT _ _ _ _ p e2 HS3 He2) as (e3 & He3 & Hv3 & Ha3 & Hvp3).
  pose proof (same_trans _ _ _ _ _ _ HS2 HS3) as HS.
  assert (listed (Some p) s3) as HL3 by (eapply same_listed; [exact HS|exact HL1]).
  assert (keeps None s t None s3 t3) as HK3 by (eapply same_keeps in HS; destruct HS; by split).
  assert (Evict rand (Datatypes.S fuel) s =
    (if dirty (ipte e3) then swap_out (Z.of_nat p) ;;; sret (Z.of_nat p) else sret (Z.of_nat p)) s3) as ->.
  { unfold Evict, sbind at 1. rewrite Hpick. fold s1. unfold sbind at 1. rewrite Hu. rewrite seq4, Htlb.
    unfold sbind at 1. rewrite (get_IPT_ok s3 p e3 He3). by destruct (dirty (ipte e3)). }
  assert (forall a v q, resident None (IPT s3) a v q -> resident None (IPT s) a v q) as Hres3.
  { intros a v q. apply resident_shape. symmetry. apply (same_shape _ _ _ _ HS). }
  assert (forall s4, IPT s4 = IPT s3 -> forall a v q,
    resident (Some p) (IPT s4) a v q -> resident None (IPT s) a v q) as Hres4.
  { intros s4 -> a v q (eq & ? & ? & ? & ? & ?). apply Hres3. exists eq. by split_and!. }
  pose proof (lookup_lt_Some _ _ _ He3) as Hlt.
  destruct (dirty (ipte e3)) eqn:Hd.
  - destruct (swap_out_inv (Some p) s3 t3 bl sl p e3 HI3 He3) as
      (s4 & sl4 & Hsw & HI4 & H1 & H2 & H3 & H4 & H5 & _ & _ & Hpages & Hb & Hbp); [congruence|by right|].
    destruct (open_hole (Some p) s4 t3 bl sl4 p e3 HI4) as [HI5 HC5]; [by rewrite H1|congruence|done|by rewrite H2|].
    exists s4, p, t3, sl4. unfold sbind, sret. rewrite Hsw. split; [done|]. split; [done|].
    split; [|split; [|split; [by apply Hres4|by rewrite H1]]].
    + intros Hp. rewrite H1, H3. apply HL3. by rewrite <-H4.
    + eapply keeps_trans; [exact HK3|]. split; [|done|done|done].
      intros a v bs HC. exists bs. split; [|done]. apply HC5.
      destruct HC as [(q & Hr & Hm & ->)|[Hn ->]].
      * left. exists q. by rewrite H1, H2.
      * right. rewrite H1. split; [done|]. symmetry. apply Hb. intros [= -> ->]. apply (Hn p).
        -- exists e3. split_and!; try done. congruence.
        -- left. by exists e3.
  - destruct (open_hole (Some p) s3 t3 bl sl p e3 HI3 He3) as [HI5 HC5]; [congruence|done| |].
    { intros [(ex & Hx & Hdx)|(j & te & Hj & Hvj & Hpj & _)]; [congruence|]. by destruct (Hno j te Hj Hvj). }
    exists s3, p, t3, sl. unfold sret. split; [done|]. split; [done|]. split; [done|].
    split; [|split; [by apply Hres4|done]].
    eapply keeps_trans; [exact HK3|]. split; [|done|done|done]. intros a v bs HC. exists bs. split; [by apply HC5|done].
Qed.
(** ** A free frame *)

Lemma resident_hole h I a v p : resident h I a v p -> resident None I a v p.
Proof. intros (e & ? & ? & ? & ? & ?). exists e. by split_and!. Qed.

Lemma find_free_some s t bl sl p : Inv None None s t bl sl -> first_clear bl = Some p ->
  exists b e, find_free s = Ok (set_bitmap b s, Z.of_nat p) /\ IPT s !! p = Some e /\ valid (ipte e) = false /\
    Inv (Some p) None (set_bitmap b s) t (<[p := true]> bl) sl /\ keeps None s t (Some p) (set_bitmap b s) t.
Proof.
  intros [] Hf. destruct (ba_find_some _ _ _ inv_bitmap0 Hf) as (b & Hb & Hrep).
  apply first_clear_Some in Hf as [Hp _]. pose proof (lookup_lt_Some _ _ _ Hp).
  destruct (lookup_lt_is_Some_2 (IPT s) p) as [e He]; [lia|].
  pose proof (inv_taken0 p e He) as Ht. rewrite Hp, bool_decide_eq_false_2, orb_false_r in Ht by done.
  injection Ht as Ht. symmetry in Ht. exists b, e. unfold find_free. rewrite Hb. cbn [rbind].
  assert (forall a v q, resident None (IPT s) a v q -> resident (Some p) (IPT s) a v q) as Hr.
  { intros a v q (eq & ? & ? & ? & ? & ?). exists eq. split_and!; try done. intros [= ->]. congruence. }
  split_and!; try done.
  - split; try done; cbn [set_bitmap IPT machine].
    + by rewrite length_insert.
    + intros q eq Hq. destruct (decide (p = q)) as [<-|Hne].
      * rewrite list_lookup_insert_eq by done. by rewrite bool_decide_eq_true_2, orb_true_r by done.
      * rewrite list_lookup_insert_ne by done. rewrite (inv_taken0 q eq Hq).
        by rewrite !bool_decide_eq_false_2 by congruence.
    + intros q eq Hq Hv _. by apply inv_frame0.
    + intros a v q1 q2 H1%resident_hole H2%resident_hole. by eapply inv_inj0.
    + intros i te Hi Hv. destruct (inv_entry0 i te Hi Hv) as (q & ie & Hph & Hq & Hvi & _ & Hrest).
      exists q, ie. split_and!; try done; [|apply Hrest..]. intros [= ->]. congruence.
    + intros a v q Hq%resident_hole. by apply inv_clean0.
  - split; try done. intros a v bs HC. exists bs. split; [|done].
    destruct HC as [(q & Hq & Hm & ->)|[Hn ->]]; [left|right].
    + exists q. split_and!; try done. by apply Hr.
    + split; [|done]. intros q Hq. by apply Hn, (resident_hole (Some p)).
Qed.

Lemma find_free_none s t bl sl : Inv None None s t bl sl -> first_clear bl = None ->
  find_free s = Ok (s, -1) /\ forall p e, IPT s !! p = Some e -> valid (ipte e) = true.
Proof.
  intros [] Hf. split.
  - unfold find_free. rewrite (ba_find_none _ _ inv_bitmap0 Hf). by destruct s.
  - intros p e He. apply first_clear_None in Hf. pose proof (inv_taken0 p e He) as Ht.
    rewrite bool_decide_eq_false_2, orb_false_r in Ht by done. by rewrite Forall_lookup in Hf; rewrite <-(Hf _ _ Ht).
Qed.
(** ** Loading the page *)

Definition with_memory (mem : gmap Z Z) s : VM B := set_machine (set_memory (machine s) mem) s.

Lemma with_memory_id s : with_memory (mainMemory (machine s)) s = s.
Proof. destruct s as [[] ? ? ? ? ? ? ? ? ? ?]. done. Qed.

Lemma load_page_ok h u s t bl sl vpn pt p : Inv h u s t bl sl ->
  lookup_pte (spaces s) (currentSpace s) vpn = Some pt ->
  exists mem, load_page vpn (Z.of_nat p) s = Ok (with_memory mem s, tt) /\
    (forall q : nat, q <> p -> read_frame mem (Z.of_nat q) = read_frame (mainMemory (machine s)) (Z.of_nat q)) /\
    backing (spaces s) (swapFile s) (currentSpace s) vpn `prefix_of` read_frame mem (Z.of_nat p).
Proof.
  intros [] Hpt. pose proof (inv_location0 _ _ _ Hpt) as Hloc. unfold load_page, sbind, get, lift, put.
  rewrite (get_pte_ok s _ _ pt Hpt). unfold backing. rewrite Hpt.
  assert (forall f pos, exists mem,
    copy_to (mainMemory (machine s)) (Z.of_nat p * PageSize) (file_page f pos) = mem /\
    (forall q : nat, q <> p -> read_frame mem (Z.of_nat q) = read_frame (mainMemory (machine s)) (Z.of_nat q)) /\
    file_page f pos `prefix_of` read_frame mem (Z.of_nat p)) as Hcopy.
  { intros f pos. eexists. split; [reflexivity|]. split.
    - intros q Hq. apply read_frame_copy_ne; [lia|apply file_page_length].
    - apply read_frame_copy_eq, file_page_length. }
  destruct (location pt).
  - unfold lookup_pte in Hpt. unfold exec_of. destruct (spaces s !! currentSpace s) as [sp|]; [|done]. cbn [deref fmap option_fmap option_map default].
    rewrite (ReadAt_page _ _ Hloc). destruct (Hcopy (executable sp) (offset pt)) as (mem & <- & H1 & H2).
    by exists (copy_to (mainMemory (machine s)) (Z.of_nat p * PageSize) (file_page (executable sp) (offset pt))).
  - exists (mainMemory (machine s)). rewrite with_memory_id. split_and!; [done|done|apply prefix_nil].
  - destruct Hloc as (k & Hk & _). rewrite ReadAt_page by (rewrite Hk; unfold PageSize, SectorSize; lia).
    destruct (Hcopy (swapFile s) (offset pt)) as (mem & <- & H1 & H2).
    by exists (copy_to (mainMemory (machine s)) (Z.of_nat p * PageSize) (file_page (swapFile s) (offset pt))).
  - exists (mainMemory (machine s)). rewrite with_memory_id. split_and!; [done|done|apply prefix_nil].
Qed.

(** The state once page [vpn] is in frame [p]. *)
Definition filled (vpn : Z) (p : nat) (d b : bool) (mem : gmap Z Z) (l : list Z) S s : VM B :=
  set_spaces S (set_evictionList l
    (set_IPT (<[p := mkIPTE (mkEntry vpn (Z.of_nat p) true false b d) (currentSpace s)]> (IPT s)) (with_memory mem s))).

Lemma HandleIPTMiss_ok h u s t bl sl vpn pt p e : Inv h u s t bl sl ->
  lookup_pte (spaces s) (currentSpace s) vpn = Some pt -> IPT s !! p = Some e ->
  exists mem S' pt' l, let d := bool_decide (location pt = UNINIT) in
    HandleIPTMiss vpn (Z.of_nat p) s = Ok (filled vpn p d (use (ipte e)) mem l S' s, Z.of_nat p) /\
    (forall q : nat, q <> p -> read_frame mem (Z.of_nat q) = read_frame (mainMemory (machine s)) (Z.of_nat q)) /\
    backing (spaces s) (swapFile s) (currentSpace s) vpn `prefix_of` read_frame mem (Z.of_nat p) /\
    l = match evictionPolicy s with FIFO => evictionList s ++ [Z.of_nat p] | RAND => evictionList s end /\
    location pt' = location pt /\ offset pt' = offset pt /\
    (forall a v, lookup_pte S' a v =
       if decide (a = currentSpace s /\ v = vpn) then Some pt' else lookup_pte (spaces s) a v) /\
    (forall a, exec_of S' a = exec_of (spaces s) a).
Proof.
  intros HI Hpt He. destruct (load_page_ok h u s t bl sl vpn pt p HI Hpt) as (mem & Hload & Hm & Hb).
  set (d := bool_decide (location pt = UNINIT)).
  set (pt' := mkPTE (mkEntry vpn (Z.of_nat p) true false (use (pte pt)) d) (location pt) (offset pt)).
  destruct (put_pte_ok s (currentSpace s) vpn pt pt' Hpt) as (S' & HP & HL & HX).
  exists mem, S', pt', (match evictionPolicy s with FIFO => evictionList s ++ [Z.of_nat p] | RAND => evictionList s end).
  intros d'. split; [|by split_and!]. unfold HandleIPTMiss. rewrite decide_False by lia.
  unfold sbind, get. rewrite Hload. change (currentSpace (with_memory mem s)) with (currentSpace s).
  rewrite (get_pte_ok (with_memory mem s) (currentSpace s) vpn pt Hpt), (get_IPT_ok (with_memory mem s) p e He).
  rewrite (put_IPT_ok (with_memory mem s) p e) by done.
  assert (forall s', spaces s' = spaces s -> put_pte (currentSpace s) vpn pt' s' = Ok (set_spaces S' s', tt)) as Hput.
  { intros s' Hs. unfold put_pte in *. rewrite Hs. destruct (deref (spaces s !! currentSpace s)) as [sp|]; [|done].
    cbn [rbind] in *. destruct (arr_set (as_pageTable sp) vpn pt'); [|done]. cbn [rbind] in *.
    assert (S' = spaces (set_spaces S' s)) as -> by done. injection HP as <-. done. }
  cbn [evictionPolicy with_memory set_machine currentSpace]. unfold filled, modify, sret.
  destruct (evictionPolicy s); rewrite Hput by done; unfold sret; done.
Qed.
(** What the reload changes: one frame, one entry, one page table entry with
    the same location. *)
Record reload s (vpn : Z) (p : nat) (d : bool) (mem : gmap Z Z) S (pt pt' : PageTableEntry) : Prop := {
  reload_pte : lookup_pte (spaces s) (currentSpace s) vpn = Some pt;
  reload_dirty : d = bool_decide (location pt = UNINIT);
  reload_absent : forall q, ~ resident (Some p) (IPT s) (currentSpace s) vpn q;
  reload_others : forall q : nat, q <> p -> read_frame mem (Z.of_nat q) = read_frame (mainMemory (machine s)) (Z.of_nat q);
  reload_page : backing (spaces s) (swapFile s) (currentSpace s) vpn `prefix_of` read_frame mem (Z.of_nat p);
  reload_location : location pt' = location pt;
  reload_offset : offset pt' = offset pt;
  reload_pages : forall a v, lookup_pte S a v =
    if decide (a = currentSpace s /\ v = vpn) then Some pt' else lookup_pte (spaces s) a v;
  reload_exec : forall a, exec_of S a = exec_of (spaces s) a
}.

Lemma reload_lookup s vpn p d mem S pt pt' a v x : reload s vpn p d mem S pt pt' -> lookup_pte S a v = Some x ->
  exists y, lookup_pte (spaces s) a v = Some y /\ location x = location y /\ offset x = offset y.
Proof.
  intros []. rewrite reload_pages0. destruct (decide _) as [[-> ->]|]; [|eauto]. intros [= <-]. by exists pt.
Qed.

Lemma reload_backing s vpn p d mem S pt pt' f a v : reload s vpn p d mem S pt pt' ->
  backing S f a v = backing (spaces s) f a v.
Proof.
  intros []. unfold backing. rewrite reload_pages0, reload_exec0. destruct (decide _) as [[-> ->]|]; [|done].
  by rewrite reload_pte0, reload_location0, reload_offset0.
Qed.

Lemma reload_some s vpn p d mem S pt pt' a v : reload s vpn p d mem S pt pt' ->
  is_Some (lookup_pte S a v) <-> is_Some (lookup_pte (spaces s) a v).
Proof.
  intros []. rewrite reload_pages0. destruct (decide _) as [[-> ->]|]; [|done]. rewrite reload_pte0. by split; eexists.
Qed.

Section Reload.
  Context (u : option nat) (s : VM B) (t : list TranslationEntry) (bl sl : list bool) (vpn : Z) (p : nat) (d b : bool)
    (mem : gmap Z Z) (l : list Z) (S : gmap Z AddrSpace) (pt pt' : PageTableEntry).
  Context (HI : Inv (Some p) u s t bl sl) (HR : reload s vpn p d mem S pt pt').
  Abbreviation s' := (filled vpn p d b mem l S s).

Lemma hole_lt : (p < length (IPT s))%nat -> IPT s' !! p =
  Some (mkIPTE (mkEntry vpn (Z.of_nat p) true false b d) (currentSpace s)).
Proof. intros. by apply list_lookup_insert_eq. Qed.

Lemma filled_other q : q <> p -> IPT s' !! q = IPT s !! q.
Proof. intros. by apply list_lookup_insert_ne. Qed.

Lemma hole_not_mapped i e : t !! i = Some e -> valid e = true -> physicalPage e <> Z.of_nat p.
Proof.
  intros Hi Hv Hp. destruct (inv_entry _ _ _ _ _ _ HI i e Hi Hv) as (q & ? & Hq & _ & _ & Hne & _).
  apply Hne. f_equal. lia.
Qed.

Lemma filled_modified q : modified t (IPT s') q <-> (q <> p /\ modified t (IPT s) q) \/
  (q = p /\ (p < length (IPT s))%nat /\ d = true).
Proof.
  destruct (decide (q = p)) as [->|Hq]; unfold modified.
  - split.
    + intros [(e & [(_ & <- & Hlt)|[? _]]%insert_cases & Hd)|(i & e & Hi & Hv & Hp & _)];
        [by right|done|by destruct (hole_not_mapped i e)].
    + intros [[? _]|(_ & Hlt & Hd)]; [done|]. left. eexists. by rewrite hole_lt.
  - rewrite (filled_other q Hq). split; [auto|]. intros [[_ H]|[? _]]; done.
Qed.

Lemma filled_resident a v q : resident None (IPT s') a v q ->
  (q <> p /\ resident (Some p) (IPT s) a v q) \/ (q = p /\ a = currentSpace s /\ v = vpn /\ (p < length (IPT s))%nat).
Proof.
  intros (e & [(<- & <- & Hlt)|[Hne He]]%insert_cases & Hv & _ & Ha & Hvp); [by right|].
  left. split; [done|]. exists e. split_and!; congruence.
Qed.

Lemma resident_filled a v q : resident (Some p) (IPT s) a v q -> resident None (IPT s') a v q.
Proof.
  intros (e & He & Hv & Hne & Ha & Hvp). exists e. rewrite filled_other by congruence. by split_and!.
Qed.

Lemma filled_inv : (p < length (IPT s))%nat -> u = Some p -> Inv None u s' t bl sl.
Proof.
  intros Hlt Hus. pose proof HI as []. pose proof HR as [].
  split; cbn [filled set_spaces set_evictionList set_IPT with_memory set_machine set_memory
    machine IPT mainMemoryBitmap swapMap swapFile currentTLB spaces currentSpace tlb mainMemory]; try done.
  - by rewrite length_insert.
  - intros q e [(<- & <- & _)|[Hne He]]%insert_cases; cbn.
    + destruct (lookup_lt_is_Some_2 (IPT s) p Hlt) as [e He]. rewrite (inv_taken0 p e He).
      by rewrite bool_decide_eq_true_2, orb_true_r.
    + rewrite (inv_taken0 q e He). by rewrite !bool_decide_eq_false_2 by congruence.
  - intros q e [(<- & <- & _)|[Hne He]]%insert_cases Hv _; cbn.
    + split; [done|]. rewrite reload_some by done. by eexists.
    + rewrite reload_some by done. apply inv_frame0; congruence.
  - intros q e [(<- & <- & _)|[Hne He]]%insert_cases Hu Hv; [done|]. by apply (inv_use0 q e).
  - intros a v q1 q2 [[? H1]|(-> & -> & -> & _)]%filled_resident [[? H2]|(-> & Ha & Hv & _)]%filled_resident; [|subst..|done].
    + by eapply inv_inj0.
    + by destruct (reload_absent0 q1).
    + by destruct (reload_absent0 q2).
  - intros i e Hi Hv. destruct (inv_entry0 i e Hi Hv) as (q & ie & Hp & Hq & Hvq & Hne & Hrest).
    exists q, ie. rewrite list_lookup_insert_ne by congruence. by split_and!; try apply Hrest.
  - intros a v x Hx. destruct (reload_lookup _ _ _ _ _ _ _ _ _ _ _ HR Hx) as (y & Hy & -> & ->). by apply (inv_location0 a v).
  - intros a1 v1 x1 a2 v2 x2 H1 H2. destruct (reload_lookup _ _ _ _ _ _ _ _ _ _ _ HR H1) as (y1 & Hy1 & -> & ->).
    destruct (reload_lookup _ _ _ _ _ _ _ _ _ _ _ HR H2) as (y2 & Hy2 & -> & ->). by eapply inv_swap_inj0.
  - intros a v q Hr Hm. rewrite (reload_backing s vpn p d mem S pt pt') by done.
    apply filled_resident in Hr as [[Hq Hr]|(-> & -> & -> & _)]; [|done].
    rewrite reload_others0 by done. apply inv_clean0; [done|]. intros Hmod. apply Hm, filled_modified. by left.
Qed.

Lemma filled_keeps : (p < length (IPT s))%nat -> keeps (Some p) s t None s' t.
Proof.
  intros Hlt. pose proof HR as []. split; [|done|done|intros; by apply (reload_some s vpn p d mem S pt pt')].
  intros a v bs [(q & Hr & Hm & ->)|[Hn ->]].
  - assert (q <> p) as Hq by (destruct Hr as (? & _ & _ & ? & _); congruence).
    eexists. split; [left; exists q; split_and!; [by apply resident_filled|apply filled_modified; by left|done]|].
    cbn [filled set_spaces set_evictionList set_IPT with_memory set_machine set_memory machine mainMemory].
    by rewrite reload_others0.
  - destruct (decide (a = currentSpace s /\ v = vpn /\ d = true)) as [(-> & -> & Hd)|Hno].
    + eexists. split; [left; exists p; split_and!; [|by apply filled_modified; right|reflexivity]|done].
      exists (mkIPTE (mkEntry vpn (Z.of_nat p) true false b d) (currentSpace s)). rewrite hole_lt by done. by split_and!.
    + exists (backing (spaces s) (swapFile s) a v). split; [|done]. right.
      split; [|by rewrite (reload_backing s vpn p d mem S pt pt')].
      intros q Hr Hm. apply filled_modified in Hm as [[Hqp Hm]|(Hqp & _ & Hd)];
        apply filled_resident in Hr as [[Hq Hr]|(Hq & Ha & Hv & _)]; [by apply (Hn q)|done..|].
      by apply Hno.
Qed.

Lemma filled_listed : (p < length (IPT s))%nat -> listed (Some p) s ->
  l = (match evictionPolicy s with FIFO => evictionList s ++ [Z.of_nat p] | RAND => evictionList s end) -> listed None s'.
Proof.
  intros Hlt HL Hl Hpol. cbn [filled set_spaces set_evictionList evictionPolicy] in Hpol.
  change (evictionPolicy s = FIFO) in Hpol. destruct (HL Hpol) as (Hnd & Hin & Hcov).
  rewrite Hpol in Hl. cbn [filled set_spaces set_evictionList evictionList]. rewrite Hl. split_and!.
  - apply NoDup_app. split_and!; [done| |apply NoDup_singleton].
    intros z Hz ->%list_elem_of_singleton. destruct (Hin _ Hz) as (n & e & Hn & _ & _ & Hne). apply Hne. f_equal. lia.
  - intros z [Hz| ->%list_elem_of_singleton]%elem_of_app.
    + destruct (Hin z Hz) as (n & e & -> & He & Hv & Hne). exists n, e. split_and!; try done.
      rewrite <-He. apply filled_other. congruence.
    + eexists p, _. split; [done|]. split; [exact (hole_lt Hlt)|]. by split.
  - intros q e [(<- & <- & _)|[Hne He]]%insert_cases Hv _; apply elem_of_app; [right; by apply list_elem_of_singleton|].
    left. eapply Hcov; [done..|congruence].
Qed.
End Reload.
(** ** Bringing a page in *)

(** A frame taken from its page receives page [vpn] of the running space. *)
Lemma HandleIPTMiss_inv s t bl sl vpn p e : Inv (Some p) (Some p) s t bl sl -> IPT s !! p = Some e ->
  is_Some (lookup_pte (spaces s) (currentSpace s) vpn) ->
  (forall q, ~ resident (Some p) (IPT s) (currentSpace s) vpn q) -> listed (Some p) s ->
  exists s', HandleIPTMiss vpn (Z.of_nat p) s = Ok (s', Z.of_nat p) /\ Inv None (Some p) s' t bl sl /\
    listed None s' /\ keeps (Some p) s t None s' t /\ resident None (IPT s') (currentSpace s) vpn p /\
    (forall i te, t !! i = Some te -> valid te = true -> physicalPage te <> Z.of_nat p).
Proof.
  intros HI He [pt Hpt] Hno HL. pose proof (lookup_lt_Some _ _ _ He) as Hlt.
  destruct (HandleIPTMiss_ok _ _ _ _ _ _ vpn pt p e HI Hpt He) as (mem & S' & pt' & l & Hrun & H1 & H2 & H3 & H4 & H5 & H6 & H7).
  set (d := bool_decide (location pt = UNINIT)) in *.
  assert (reload s vpn p d mem S' pt pt') as HR by (by split).
  eexists. split; [exact Hrun|]. split; [by eapply filled_inv|]. split; [by eapply filled_listed|].
  split; [by eapply filled_keeps|]. split; [|by eapply hole_not_mapped].
  eexists. split; [by apply hole_lt|]. by split_and!.
Qed.

(** [bring_in]: the page is in a frame, in use, and no other page has lost
    anything. *)
Lemma bring_in_inv fuel s t bl sl vpn : Inv None None s t bl sl -> listed None s -> (forall n, 0 <= rand n) ->
  (forall p, dirty_bits_reach s t p) -> first_clear sl <> None ->
  is_Some (lookup_pte (spaces s) (currentSpace s) vpn) ->
  (forall q, ~ resident None (IPT s) (currentSpace s) vpn q) ->
  exists s' p t' bl' sl', bring_in rand (Datatypes.S fuel) vpn s = Ok (s', Z.of_nat p) /\
    Inv None (Some p) s' t' bl' sl' /\ listed None s' /\ keeps None s t None s' t' /\
    resident None (IPT s') (currentSpace s) vpn p /\
    (forall i te, t' !! i = Some te -> valid te = true -> physicalPage te <> Z.of_nat p).
Proof.
  intros HI HL Hrand Hreach Hroom Hpt Hno.
  assert (exists s1 p t1 bl1 sl1 u e,
    (ppn <- find_free ;; if decide (ppn = -1) then Evict rand (Datatypes.S fuel) else sret ppn) s = Ok (s1, Z.of_nat p) /\
    Inv (Some p) u s1 t1 bl1 sl1 /\ (u = None \/ u = Some p) /\ listed (Some p) s1 /\ keeps None s t (Some p) s1 t1 /\
    (forall a v q, resident (Some p) (IPT s1) a v q -> resident None (IPT s) a v q) /\ IPT s1 !! p = Some e)
    as (s1 & p & t1 & bl1 & sl1 & u & e & Hrun & HI1 & Hu & HL1 & HK1 & Hres1 & He1).
  { unfold sbind. destruct (first_clear bl) as [p|] eqn:Hf.
    - destruct (find_free_some s t bl sl p HI Hf) as (b & e & Hrun & He & Hv & HI1 & HK1). rewrite Hrun, decide_False by lia.
      eexists _, p, t, _, sl, None, e. split; [reflexivity|]. split_and!; try done; [by left| |].
      + intros Hpol. destruct (HL Hpol) as (Hnd & Hin & Hcov). split_and!; [done| |].
        * intros z (n & en & -> & Hn & Hvn & _)%Hin. exists n, en. split_and!; try done. intros [= ->]. congruence.
        * intros q eq Hq Hvq _. by apply (Hcov q eq).
      + intros a v q Hq. by eapply resident_hole.
    - destruct (find_free_none s t bl sl HI Hf) as [Hrun Hall]. rewrite Hrun, decide_True by done.
      destruct (Evict_inv fuel s t bl sl HI HL Hrand Hall Hreach Hroom) as (s1 & p & t1 & sl1 & HE & HI1 & HL1 & HK1 & Hr & Hlt).
      destruct (lookup_lt_is_Some_2 _ _ Hlt) as [e He].
      exists s1, p, t1, bl, sl1, (Some p), e. split_and!; try done. by right. }
  destruct (set_use_inv _ _ (Some p) s1 t1 bl1 sl1 p e true HI1 He1 Hu eq_refl) as [HI2 HS2].
  pose proof (update_IPT_ok s1 p e (with_use true) He1) as Hup. set (s2 := set_IPT _ s1) in *.
  destruct (same_IPT _ _ _ _ p e HS2 He1) as (e2 & He2 & _).
  pose proof (same_listed _ _ _ _ _ HS2 HL1) as HL2.
  pose proof (keeps_trans _ _ _ _ _ _ _ _ _ HK1 (same_keeps (Some p) _ _ _ _ HS2)) as HK2.
  pose proof (keep_space _ _ _ _ _ _ HK2) as Hcs.
  destruct (HandleIPTMiss_inv s2 t1 bl1 sl1 vpn p e2 HI2 He2) as (s3 & Hmiss & HI3 & HL3 & HK3 & Hr3 & Hn3); try done.
  - rewrite Hcs. by apply (keep_pages _ _ _ _ _ _ HK2).
  - intros q Hq. rewrite Hcs in Hq. apply (Hno q), Hres1.
    eapply resident_shape; [|exact Hq]. symmetry. by destruct HS2.
  - exists s3, p, t1, bl1, sl1. rewrite Hcs in Hr3. split_and!; try done; [|by eapply keeps_trans].
    revert Hrun. unfold bring_in, sbind. destruct (find_free s) as [[s0 z]|]; [|done]. intros ->.
    rewrite Hup, Hmiss. done.
Qed.
(** ** The new TLB entry *)

Lemma write_back_inv h u s t bl sl i old : Inv h u s t bl sl -> t !! i = Some old ->
  let t1 := <[i := with_valid false old]> t in
  exists s1, (if valid old then update_IPT (physicalPage old) (with_dirty (dirty old)) else sret tt) s = Ok (s1, tt) /\
    tlb (machine s1) = Some t /\ Inv h u (with_tlb t1 s1) t1 bl sl /\ same s t (with_tlb t1 s1) t1.
Proof.
  intros HI Hi t1. pose proof HI as []. destruct (valid old) eqn:Hv.
  - destruct (inv_entry0 i old Hi Hv) as (p & ie & Hp & Hip & _ & _ & _ & _ & Hde). rewrite Hp.
    rewrite (update_IPT_ok s p ie _ Hip). eexists. split; [reflexivity|]. split; [done|].
    split; [exact (unmap_inv h u s t bl sl i p old ie (dirty old) HI Hi Hv Hp Hip (fun H => H) (fun H => or_introl H))|].
    eapply (unmap_same h u s t bl sl i p old ie (dirty old)); eauto.
  - exists s. unfold t1. rewrite with_valid_false, list_insert_id, with_tlb_id by done. by split_and!; try apply same_refl.
Qed.

(** A copy of the entry of a resident frame of the running space goes into a
    free slot of the TLB. *)
Definition entry_of (e : TranslationEntry) : TranslationEntry :=
  mkEntry (virtualPage e) (physicalPage e) true (readOnly e) (use e) (dirty e).

Lemma install_inv u s t bl sl i old p e : Inv None u s t bl sl -> t !! i = Some old -> valid old = false ->
  IPT s !! p = Some e -> valid (ipte e) = true -> space e = currentSpace s ->
  (forall j te, t !! j = Some te -> valid te = true -> physicalPage te <> Z.of_nat p) ->
  let t1 := <[i := entry_of (ipte e)]> t in Inv None u (with_tlb t1 s) t1 bl sl /\ same s t (with_tlb t1 s) t1.
Proof.
  intros HI Hi Hinv He Hv Hsp Hno t1. pose proof HI as [].
  destruct (inv_frame0 p e He Hv ltac:(done)) as [Hpp _]. pose proof (lookup_lt_Some _ _ _ Hi) as Hlt.
  assert (same s t (with_tlb t1 s) t1) as HS.
  { split; try done. intros q. cbn [with_tlb set_machine IPT]. split.
    - intros [?|(j & te & Hj & Hvj & Hpj & Hdj)]; [by left|right]. exists j, te.
      unfold t1. rewrite list_lookup_insert_ne by congruence. done.
    - intros [?|(j & te & [(-> & <- & _)|[Hij Hj]]%insert_cases & Hvj & Hpj & Hdj)]; [by left|left|right; by exists j, te].
      cbn in Hpj, Hdj. assert (q = p) as -> by lia. by exists e. }
  split; [|done]. split; cbn [with_tlb set_machine machine tlb set_tlb IPT mainMemoryBitmap swapMap swapFile spaces
    currentTLB currentSpace mainMemory]; try done.
  - unfold t1. by rewrite length_insert.
  - intros j te [(-> & <- & _)|[Hij Hj]]%insert_cases Hvj; [|by apply (inv_entry0 j te)].
    exists p, e. split_and!; try done.
  - intros j k e1 e2 [(-> & <- & _)|[Hij Hj]]%insert_cases [(-> & <- & _)|[Hik Hk]]%insert_cases Hv1 Hv2 Hp; cbn in *.
    + done.
    + exfalso. apply (Hno k e2); [done..|congruence].
    + exfalso. apply (Hno j e1); [done..|congruence].
    + by apply (inv_entry_inj0 j k e1 e2).
  - intros a v q Hr Hm. apply inv_clean0; [done|]. intros Hm'. apply Hm. by apply (same_modified _ _ _ _ HS).
Qed.

Lemma set_currentTLB_inv h u s t bl sl i : Inv h u s t bl sl -> 0 <= i < 4 -> Inv h u (set_currentTLB i s) t bl sl.
Proof. intros [] Hi. by split. Qed.

Lemma tlb_use_inv h u s t bl sl i te b : Inv h u s t bl sl -> t !! i = Some te ->
  let t1 := <[i := with_use b te]> t in Inv h u (with_tlb t1 s) t1 bl sl /\ same s t (with_tlb t1 s) t1.
Proof.
  intros HI Hi t1. pose proof HI as []. pose proof (lookup_lt_Some _ _ _ Hi) as Hlt.
  assert (same s t (with_tlb t1 s) t1) as HS.
  { split; try done. intros q. cbn [with_tlb set_machine IPT]. split; intros [?|(j & x & Hj & Hrest)]; try by left.
    - right. destruct (decide (i = j)) as [<-|Hij].
      + exists i, (with_use b te). unfold t1. rewrite list_lookup_insert_eq by done. by simplify_eq.
      + exists j, x. unfold t1. by rewrite list_lookup_insert_ne.
    - apply insert_cases in Hj as [(-> & <- & _)|[_ Hj]]; right; [by exists j, te|by exists j, x]. }
  split; [|done]. eapply Inv_retag; [exact HI|exact HS|done|unfold t1; by rewrite length_insert|done|].
  intros j x [(-> & <- & _)|[_ Hj]]%insert_cases Hv.
  - exists te. split_and!; try done. intros q ie Hq Hiq.
    destruct (inv_entry0 j te Hi Hv) as (q' & ie' & ? & ? & _ & _ & _ & _ & Hde). assert (q' = q) as -> by (cbn in *; lia).
    cbn in Hiq. simplify_eq. done.
  - exists x. split_and!; try done. intros q ie Hq Hiq.
    destruct (inv_entry0 j x Hj Hv) as (q' & ie' & ? & ? & _ & _ & _ & _ & Hde). assert (q' = q) as -> by lia.
    cbn in Hiq. simplify_eq. done.
Qed.
(** The TLB has an entry for page [v], and its frame holds the page. *)
Definition mapped s (t : list TranslationEntry) (v : Z) (p : nat) : Prop :=
  resident None (IPT s) (currentSpace s) v p /\
  exists i te, t !! i = Some te /\ valid te = true /\ virtualPage te = v /\ physicalPage te = Z.of_nat p.

Lemma fill_tlb_inv s t bl sl vpn p : Inv None (Some p) s t bl sl -> listed None s ->
  resident None (IPT s) (currentSpace s) vpn p ->
  (forall i te, t !! i = Some te -> valid te = true -> physicalPage te <> Z.of_nat p) ->
  exists s' t', fill_tlb (Z.of_nat p) s = Ok (s', tt) /\ Inv None None s' t' bl sl /\ listed None s' /\
    keeps None s t None s' t' /\ mapped s' t' vpn p /\ unmoved s s'.
Proof.
  intros HI HL Hr Hno. pose proof (inv_current _ _ _ _ _ _ HI) as Hcur. pose proof (inv_tlb _ _ _ _ _ _ HI) as Ht.
  pose proof (inv_tlb_length _ _ _ _ _ _ HI) as Hlen.
  set (c := Z.to_nat (currentTLB s)). assert (currentTLB s = Z.of_nat c) as Hc by (unfold c; lia).
  destruct (lookup_lt_is_Some_2 t c) as [old Hold]; [lia|].
  destruct (write_back_inv None (Some p) s t bl sl c old HI Hold) as (s1 & Hwb & Ht1 & HI1 & HS1).
  set (t1 := <[c := with_valid false old]> t) in *.
  pose proof (resident_shape _ _ _ _ _ _ (same_shape _ _ _ _ HS1) Hr) as Hr1.
  pose proof Hr1 as (e & He & Hv & _ & Ha & Hvp). change (IPT (with_tlb t1 s1)) with (IPT s1) in He.
  assert (t1 !! c = Some (with_valid false old)) as Hc1 by (apply list_lookup_insert_eq; lia).
  destruct (install_inv (Some p) _ t1 bl sl c _ p e HI1 Hc1 eq_refl He Hv) as [HI2 HS2].
  { by rewrite (same_currentSpace _ _ _ _ HS1). }
  { intros j te [(-> & <- & _)|[_ Hj]]%insert_cases Hvj; [done|by eapply Hno]. }
  set (t2 := <[c := entry_of (ipte e)]> t1) in *.
  change (with_tlb t2 (with_tlb t1 s1)) with (with_tlb t2 s1) in *. set (s2 := with_tlb t2 s1) in *.
  set (next := Z.rem (currentTLB s + 1) TLBSize).
  assert (0 <= next < 4) as Hnext by (unfold next; apply Z.rem_bound_pos; unfold TLBSize in *; lia).
  pose proof (set_currentTLB_inv None (Some p) s2 t2 bl sl next HI2 Hnext) as HI3.
  destruct (set_use_inv None (Some p) None _ t2 bl sl p e false HI3 He (or_intror eq_refl) eq_refl) as [HI4 HS4].
  set (s4 := set_IPT _ (set_currentTLB next s2)) in *.
  destruct (lookup_lt_is_Some_2 t2 (Z.to_nat next)) as [nx Hnx]; [unfold t2, t1; rewrite !length_insert; lia|].
  destruct (tlb_use_inv None None s4 t2 bl sl (Z.to_nat next) nx false HI4 Hnx) as [HI5 HS5].
  set (t5 := <[Z.to_nat next := with_use false nx]> t2) in *.
  exists (with_tlb t5 s4), t5. split; [|split; [exact HI5|split; [|split; [|split]]]].
  - unfold fill_tlb, sbind, get. rewrite Hc at 1. rewrite (get_tlb_ok s t c old Ht Hold), Hwb, (get_IPT_ok s1 p e He).
    rewrite Hc at 1. fold (entry_of (ipte e)). rewrite (put_tlb_ok s1 t c old _ Ht1 Hold).
    assert (<[c := entry_of (ipte e)]> t = t2) as -> by (unfold t2, t1; by rewrite list_insert_insert_eq).
    fold s2. unfold modify. fold next. rewrite (update_IPT_ok (set_currentTLB next s2) p e (with_use false) He). fold s4.
    rewrite <-(Z2Nat.id next) at 1 by lia. by rewrite (update_tlb_ok s4 t2 (Z.to_nat next) nx).
  - eapply same_listed; [exact HS5|]. eapply same_listed; [exact HS4|].
    change (listed None s2). eapply same_listed; [exact HS2|]. by eapply same_listed; [exact HS1|].
  - eapply keeps_trans; [by apply same_keeps|]. eapply keeps_trans; [by apply same_keeps|].
    apply (keeps_trans None s2 t2 None (set_currentTLB next s2) t2); [|eapply keeps_trans; by apply same_keeps].
    split; try done. intros a v bs HC. by exists bs.
  - split.
    + eapply resident_shape; [exact (same_shape _ _ _ _ HS5)|].
      eapply resident_shape; [exact (same_shape _ _ _ _ HS4)|].
      change (resident None (IPT s1) (currentSpace (with_tlb t1 s1)) vpn p). by rewrite (same_currentSpace _ _ _ _ HS1).
    + destruct (inv_frame _ _ _ _ _ _ HI1 p e He Hv ltac:(done)) as [Hpp _].
      assert (t2 !! c = Some (entry_of (ipte e))) as Hc2 by (apply list_lookup_insert_eq; unfold t1; rewrite length_insert; lia).
      destruct (decide (Z.to_nat next = c)) as [Heq|Hne].
      * exists c, (with_use false nx). unfold t5. rewrite Heq, list_lookup_insert_eq by (by eapply lookup_lt_Some).
        rewrite Heq, Hc2 in Hnx. injection Hnx as <-. by split_and!.
      * exists c, (entry_of (ipte e)). unfold t5. rewrite list_lookup_insert_ne by done. by split_and!.
  - eapply unmoved_trans; [exact (same_unmoved _ _ _ _ HS1)|].
    eapply unmoved_trans; [exact (same_unmoved _ _ _ _ HS2)|]. apply (unmoved_trans _ (set_currentTLB next s2)); [done|].
    eapply unmoved_trans; [exact (same_unmoved _ _ _ _ HS4)|]. exact (same_unmoved _ _ _ _ HS5).
Qed.
(** ** The memory the user program sees *)

(** Page tables are shorter than a word counts. *)
Definition small_pages s : Prop := forall a v, is_Some (lookup_pte (spaces s) a v) -> in_u32 v.


(** A page the TLB maps is what the translation of its addresses finds. *)
Lemma mapped_translates u s t bl sl p va size : Inv None u s t bl sl -> small_pages s ->
  mapped s t (vpn_of va) p -> access_size size -> misaligned va size = false ->
  exists m, Translate (machine s) va size false = Ok (m, inr (Z.of_nat p * PageSize + u32 va mod PageSize)).
Proof.
  intros HI Hsm [Hr (i & te & Hi & Hv & Hvp & Hpp)] Hsz Hal. pose proof HI as [].
  assert (tables_ok (machine s)) as Htab by (unfold tables_ok; rewrite inv_tlb0, inv_table0; unfold TLBSize; lia).
  assert (forall a v q, resident None (IPT s) a v q -> in_u32 v) as Hpages.
  { intros a v q (e & He & Hve & Hne & <- & <-). eapply Hsm. by apply (inv_frame0 q e). }
  pose proof (Translate_eq (machine s) va size false Htab Hsz) as HT. rewrite Hal in HT.
  destruct HT as [(j & e & Hm & ->)|[Hno _]].
  - unfold maps in Hm. rewrite inv_tlb0 in Hm. destruct Hm as (Hj & Hhit & _).
    apply andb_true_iff in Hhit as [Hve Heq%Z.eqb_eq].
    destruct (inv_entry0 j e Hj Hve) as (q & ie & Hq & Hiq & Hvi & Hne & Hvpe & Hsp & _).
    assert (resident None (IPT s) (currentSpace s) (virtualPage e) q) as Hrq by (exists ie; by split_and!).
    rewrite (u32_id _ (Hpages _ _ _ Hrq)) in Heq. rewrite Heq in Hrq.
    assert (q = p) as -> by (by eapply inv_inj0). pose proof (lookup_lt_Some _ _ _ Hiq) as Hlt.
    unfold translate_hit, frame_of. rewrite andb_false_r, Hq, u32_id by (unfold in_u32, NumPhysPages in *; lia).
    rewrite Z.geb_leb, (proj2 (Z.leb_gt _ _)) by lia. by eexists.
  - exfalso. destruct (first_hit t (vpn_of va) i te Hi) as (j & e & Hj & Hhit & Hfirst).
    + unfold entry_hit. rewrite Hv, Hvp, u32_id by (by eapply Hpages). by rewrite Z.eqb_refl.
    + apply (Hno j e). unfold maps. by rewrite inv_tlb0.
Qed.

(** The page the fault names. *)
Lemma fault_page va : 0 <= va < 2 ^ 31 -> Z.quot va 128 = vpn_of va.
Proof. intros. unfold vpn_of. rewrite u32_id by (unfold in_u32; lia). change PageSize with 128. apply Z.quot_div_nonneg; lia. Qed.

Lemma miss_not_listed u s t bl sl v : Inv None u s t bl sl -> small_pages s -> (forall i e, ~ maps (machine s) v i e) ->
  forall p, resident None (IPT s) (currentSpace s) v p ->
  forall i te, t !! i = Some te -> valid te = true -> physicalPage te <> Z.of_nat p.
Proof.
  intros HI Hsm Hno p (e & He & Hv & _ & Ha & Hvp) i te Hi Hvt Hpp. pose proof HI as [].
  destruct (inv_entry0 i te Hi Hvt) as (q & ie & Hq & Hiq & _ & _ & Hvpe & _).
  assert (q = p) as -> by lia. simplify_eq.
  destruct (first_hit t (virtualPage (ipte e)) i te Hi) as (j & x & Hj & Hhit & Hfirst).
  - unfold entry_hit. rewrite Hvt, Hvpe, u32_id, Z.eqb_refl; [done|]. eapply Hsm. by apply (inv_frame0 p e).
  - apply (Hno j x). unfold maps. by rewrite inv_tlb0.
Qed.

(** The second half of the handler, after the page is in a frame in use. *)
Lemma hit_inv s t bl sl v p e : Inv None None s t bl sl -> listed None s -> IPT s !! p = Some e ->
  valid (ipte e) = true -> virtualPage (ipte e) = v -> space e = currentSpace s ->
  exists s1, update_IPT (Z.of_nat p) (with_use true) s = Ok (s1, tt) /\ Inv None (Some p) s1 t bl sl /\
    listed None s1 /\ keeps None s t None s1 t /\ resident None (IPT s1) (currentSpace s1) v p /\ unmoved s s1.
Proof.
  intros HI HL He Hv Hvp Ha.
  destruct (set_use_inv None None (Some p) s t bl sl p e true HI He (or_introl eq_refl) eq_refl) as [HI1 HS1].
  eexists. split; [by apply update_IPT_ok|]. split; [done|]. split; [by eapply same_listed|].
  split; [by apply same_keeps|]. split; [|by eapply same_unmoved]. eapply resident_shape; [exact (same_shape _ _ _ _ HS1)|].
  exists e. by split_and!.
Qed.

Lemma not_resident_miss s t bl sl v : Inv None None s t bl sl ->
  (forall p e, (0 <= p < 0 + Z.to_nat NumPhysPages)%nat -> IPT s !! p = Some e -> valid (ipte e) = true ->
     virtualPage (ipte e) = v -> space e = currentSpace s -> use (ipte e) = true) ->
  forall p, ~ resident None (IPT s) (currentSpace s) v p.
Proof.
  intros [] Hall p (e & He & Hv & _ & Ha & Hvp). pose proof (lookup_lt_Some _ _ _ He).
  assert (use (ipte e) = true) as Hu by (apply (Hall p e); [lia|done..]).
  rewrite (inv_use0 p e) in Hu by done. done.
Qed.

(** The frame of a page holds its contents. *)
Lemma content_frame u s t bl sl a v bs p : Inv None u s t bl sl -> content None s t a v bs -> resident None (IPT s) a v p ->
  bs `prefix_of` read_frame (mainMemory (machine s)) (Z.of_nat p).
Proof.
  intros HI [(q & Hq & _ & ->)|[Hn ->]] Hr.
  - by rewrite (inv_inj _ _ _ _ _ _ HI _ _ _ _ Hq Hr).
  - apply (inv_clean _ _ _ _ _ _ HI); [done|by apply Hn].
Qed.

(** The rest of the handler, for any state the first half may leave. *)
Lemma finish_fault s1 t1 bl sl v p : Inv None (Some p) s1 t1 bl sl -> listed None s1 ->
  resident None (IPT s1) (currentSpace s1) v p ->
  (forall i te, t1 !! i = Some te -> valid te = true -> physicalPage te <> Z.of_nat p) ->
  exists s' t', fill_tlb (Z.of_nat p) s1 = Ok (s', tt) /\ Inv None None s' t' bl sl /\ listed None s' /\
    keeps None s1 t1 None s' t' /\ mapped s' t' v p /\
    (forall bs, content None s1 t1 (currentSpace s1) v bs -> bs `prefix_of` read_frame (mainMemory (machine s')) (Z.of_nat p)) /\ unmoved s1 s'.
Proof.
  intros HI HL Hr Hno. destruct (fill_tlb_inv s1 t1 bl sl v p HI HL Hr Hno) as (s' & t' & Hrun & HI' & HL' & HK & Hm & Hun).
  exists s', t'. split_and!; try done. intros bs HC.
  destruct (keep_content _ _ _ _ _ _ HK _ _ _ HC) as (bs' & HC' & Hpre). etrans; [exact Hpre|].
  rewrite <-(keep_space _ _ _ _ _ _ HK) in HC'. destruct Hm as [Hr' _]. by eapply content_frame.
Qed.
End Invariant.
