(* ===== verification/PageFault.v ===== *)
(** * The page fault handler and the context switch

    The machine of Machine.v run on the virtual memory of VM.v: the trap of a
    missing TLB entry enters [HandlePageFault]. What the handler promises to
    user programs, and what it does not when the slot of the TLB it is about to
    fill is empty. *)
From S2P Require Import Prelude BitMap Machine VM.

(** The kernel of [Machine.RaiseException]: exceptions other than a page fault
    go to [other], the rest of [ExceptionHandler]. *)
Section Kernel.
  Context {B : Type} `{BA : BitAllocator B} (rand : nat -> Z) (other : ExceptionType -> ST (VM B) unit) (fuel : nat).

(** The virtual memory keeps its own copy of the machine's state between
    traps: the machine's is the current one. *)
Definition ExceptionHandler (which : ExceptionType) : ST (Machine * VM B) unit := fun '(m, k) =>
  let* '(s, _) := (match which with
                   | PageFaultException => HandlePageFault rand fuel
                   | _ => other which
                   end) (set_machine m k) in
  Ok ((machine s, s), tt).

Definition VM_Kernel : Kernel (VM B) := {| Machine.ExceptionHandler := ExceptionHandler |}.

(** The memory part of [Scheduler::Run]: [currentThread->space->SaveState()],
    the switch, and [RestoreState()] of the space of the thread that runs next. *)
Definition switch_space (next : Z) : ST (VM B) unit :=
  SaveState ;;;
  modify (fun s => mkVM (machine s) (IPT s) (mainMemoryBitmap s) (swapMap s) (swapFile s) (evictionList s)
                     (evictionPolicy s) (currentTLB s) (spaces s) next (rands s)) ;;;
  RestoreState.
End Kernel.

(** ** A full memory

    One program with a page more than there are frames; frame [q] holds its
    page [q], and slot 0 of the TLB maps page 0. Its executable is [text], of at
    most a page; [full] has a byte. *)
Definition frame_entry (q : Z) : TranslationEntry := mkEntry q q true false false false.
Definition no_entry : TranslationEntry := mkEntry 0 0 false false false false.
Definition full_tlb : list TranslationEntry := [frame_entry 0; no_entry; no_entry; no_entry].
Definition machine_of (text : list Z) (va : Z) : Machine :=
  mkMachine (copy_to ∅ 0 text) (<[39%nat := va]> (replicate 40 0)) (Some full_tlb) None 0 ∅ UserMode 0.
Definition bitmap_of (n : nat) (w : Z) : BitMap := mkBitMap (32 * Z.of_nat n) (Z.of_nat n) (replicate n w).
Definition space_of (text : list Z) : AddrSpace :=
  mkAddrSpace ((fun q => mkPTE (frame_entry q) IN_EXECUTABLE (q * PageSize)) <$> seqZ 0 (NumPhysPages + 1))
    (NumPhysPages + 1) text.
Definition full_of (text : list Z) (va : Z) : VM BitMap :=
  mkVM (machine_of text va) ((fun q => mkIPTE (frame_entry q) 1) <$> seqZ 0 NumPhysPages)
    (bitmap_of 128 (2 ^ 32 - 1)) (bitmap_of 1 0) [] (seqZ 0 NumPhysPages) FIFO 1 {[1 := space_of text]} 1 0.
Abbreviation full_machine := (machine_of [1]).
Abbreviation full := (full_of [1]).
Definition all_taken : list bool := replicate 4096 true.
Definition swap_free : list bool := replicate 32 false.

(** The program stores 7 at address 0, reads a byte of its page 4096, and reads
    address 0 until the page is back; the slot of the TLB to fill next is
    [slot]. *)
Definition store_and_load (slot : Z) : res (bool * option Z * option Z * option Z) :=
  let K := VM_Kernel (B := BitMap) (fun _ => 0) (fun _ => fail AssertFail) 1 in
  let* '(_, r) :=
    (stored <- WriteMem (Kernel0 := K) 0 1 7 ;;
     first <- ReadMem (Kernel0 := K) (4096 * 128) 1 ;;
     second <- ReadMem (Kernel0 := K) 0 1 ;;
     third <- ReadMem (Kernel0 := K) 0 1 ;;
     sret (stored, first, second, third)) (full_machine 0, set_currentTLB slot (full 0)) in
  Ok r.

(** ** Lemmas on the full memory *)

Lemma full_tlb_valid i e : full_tlb !! i = Some e -> valid e = true -> i = 0%nat /\ e = frame_entry 0.
Proof. intros Hi Hv. destruct i as [|[|[|[|i]]]]; cbn in Hi; by simplify_eq. Qed.

Lemma full_IPT {text} va p e : IPT (full_of text va) !! p = Some e ->
  (p < Z.to_nat NumPhysPages)%nat /\ e = mkIPTE (frame_entry (Z.of_nat p)) 1.
Proof.
  cbn [full_of IPT]. intros (z & -> & Hz)%list_lookup_fmap_Some. apply lookup_seqZ in Hz as [-> Hlt].
  split; [lia|done].
Qed.

Lemma full_frame {text} va p : (p < Z.to_nat NumPhysPages)%nat ->
  IPT (full_of text va) !! p = Some (mkIPTE (frame_entry (Z.of_nat p)) 1).
Proof.
  intros H. cbn [full_of IPT]. rewrite list_lookup_fmap, lookup_seqZ_lt by lia. done.
Qed.

Lemma full_pte {text} va a v pt : lookup_pte (spaces (full_of text va)) a v = Some pt <->
  a = 1 /\ 0 <= v < NumPhysPages + 1 /\ pt = mkPTE (frame_entry v) IN_EXECUTABLE (v * PageSize).
Proof.
  unfold lookup_pte. cbn [full_of spaces]. destruct (decide (a = 1)) as [->|Ha].
  - rewrite lookup_singleton_eq. cbn [mbind option_bind]. split.
    + destruct (decide (0 <= v)); [|done]. cbn [space_of as_pageTable].
      intros (z & -> & Hz)%list_lookup_fmap_Some. apply lookup_seqZ in Hz as [-> Hlt].
      rewrite Z.add_0_l, Z2Nat.id in * by lia. by split_and!.
    + intros (_ & Hv & ->). rewrite decide_True by lia. cbn [space_of as_pageTable].
      rewrite list_lookup_fmap, lookup_seqZ_lt by lia. cbn. by rewrite Z2Nat.id by lia.
  - rewrite lookup_singleton_ne by done. split; [done|]. intros (? & _). done.
Qed.

Lemma full_backing {text} va v : (length text <= 128)%nat -> 0 <= v < NumPhysPages + 1 ->
  backing (spaces (full_of text va)) (swapFile (full_of text va)) 1 v = if decide (v = 0) then text else [].
Proof.
  intros Hl Hv. unfold backing. rewrite (proj2 (full_pte va 1 v _)) by done. cbn [location offset].
  unfold exec_of. cbn [full_of spaces]. rewrite lookup_singleton_eq. cbn [fmap option_fmap option_map default space_of executable].
  unfold file_page, PageSize, SectorSize. case_decide as Hz; [subst; by rewrite take_ge|]. rewrite drop_ge; [done|]. cbn [id]. lia.
Qed.

Lemma full_content_0 {text} va : (length text <= 128)%nat -> content None (full_of text va) full_tlb 1 0 text.
Proof.
  intros Hl. right. rewrite full_backing by (done || unfold NumPhysPages; lia). split; [|done]. intros p _ [(e & He & Hd)|(i & e & Hi & Hv & _ & Hd)].
  - apply full_IPT in He as [_ ->]. done.
  - by destruct (full_tlb_valid i e Hi Hv) as [-> ->].
Qed.

Lemma bitmap_of_rep n w l : Forall in_u32 (replicate n w) -> divRoundUp (32 * Z.of_nat n) BitsInWord = Z.of_nat n ->
  bits (bitmap_of n w) = l -> ba_rep (bitmap_of n w) l.
Proof. intros HF Hd Hb. split; [|done]. split; cbn; [lia|done|by rewrite length_replicate|done]. Qed.

Lemma full_inv {text} va : (length text <= 128)%nat -> Inv None None (full_of text va) full_tlb all_taken swap_free.
Proof.
  intros Hl. split; try (done || (cbn; lia)).
  - apply bitmap_of_rep; [apply Forall_replicate; unfold in_u32; lia|done|by vm_compute].
  - intros p e [Hp ->]%full_IPT. unfold all_taken. by rewrite lookup_replicate_2 by done.
  - intros p e [Hp ->]%full_IPT _ _. split; [done|]. eexists. apply full_pte. cbn. split_and!; [done|lia|unfold NumPhysPages in *; lia|done].
  - by intros p e [_ ->]%full_IPT.
  - intros a v p q (e1 & [_ ->]%full_IPT & _ & _ & _ & H1) (e2 & [_ ->]%full_IPT & _ & _ & _ & H2). cbn in *. lia.
  - intros i e Hi Hv. destruct (full_tlb_valid i e Hi Hv) as [-> ->].
    exists 0%nat, (mkIPTE (frame_entry (Z.of_nat 0)) 1).
    split; [reflexivity|]. split; [apply full_frame; unfold NumPhysPages; lia|by repeat split].
  - intros i j e1 e2 H1 H2 Hv1 Hv2 _. destruct (full_tlb_valid i e1 H1 Hv1) as [-> _]. by destruct (full_tlb_valid j e2 H2 Hv2) as [-> _].
  - apply bitmap_of_rep; [apply Forall_replicate; unfold in_u32; lia|done|by vm_compute].
  - intros a v pt (-> & Hv & ->)%full_pte. cbn. unfold PageSize, SectorSize. lia.
  - intros a1 v1 pt1 a2 v2 pt2 (_ & _ & ->)%full_pte _ [=].
  - intros a v p (e & [Hp ->]%full_IPT & _ & _ & <- & <-) _. cbn [frame_entry virtualPage ipte space].
    rewrite full_backing by (done || unfold NumPhysPages in *; lia). case_decide as Hz; [|apply prefix_nil].
    rewrite Hz. apply (read_frame_copy_eq ∅ 0). unfold PageSize, SectorSize. lia.
Qed.

Lemma full_listed {text} va : listed None (full_of text va).
Proof.
  intros _. cbn [full_of evictionList]. split_and!; [apply NoDup_seqZ| |].
  - intros z Hz%elem_of_seqZ. exists (Z.to_nat z), (mkIPTE (frame_entry z) 1).
    rewrite (full_frame va (Z.to_nat z)) by lia. rewrite !Z2Nat.id by lia. by split_and!.
  - intros p e [Hp ->]%full_IPT _ _. apply elem_of_seqZ. lia.
Qed.

Lemma full_small {text} va : small_pages (full_of text va).
Proof. intros a v [pt (_ & ? & _)%full_pte]. unfold in_u32, NumPhysPages in *. lia. Qed.

Lemma full_reach {text} va p : dirty_bits_reach (full_of text va) full_tlb p.
Proof. intros i te e Hi Hv Hp Hd. by destruct (full_tlb_valid i te Hi Hv) as [-> ->]. Qed.

Lemma full_miss {text} va v : 0 < v -> forall i e, ~ maps (machine_of text va) v i e.
Proof.
  intros Hv i e (Hi & Hhit & _). unfold entry_hit in Hhit. apply andb_true_iff in Hhit as [Hve Hhit%Z.eqb_eq].
  destruct (full_tlb_valid i e Hi Hve) as [-> ->]. change (0 = v) in Hhit. lia.
Qed.

(** * Properties *)

Section Properties.
  Context {B : Type} `{BA : BitAllocator B} (rand : nat -> Z).

(** C3: The page fault handler loads the page and loses nothing, under three
    conditions: the swap file has room for one more page, page numbers are
    words ([small_pages]), and every dirty bit of the TLB reaches the inverted
    page table if its page is evicted ([dirty_bits_reach]: the handler copies
    the bit of an evicted page only when the slot of the TLB it will fill next is
    valid, and [store_lost_when_next_slot_is_empty] shows a store lost where
    it is not). In a state that satisfies the invariant a fault at a
    user address of a page the running program has then ends: the invariant holds
    again, the defined contents of every page of every program are what they
    were (a page never written gets its first contents), and the faulting
    page is in a frame that holds its contents. The translation of every
    aligned read of that page then succeeds and gives its address in that
    frame. *)
Theorem page_fault_preserves_memory fuel (s : VM B) t bl sl va :
  Inv None None s t bl sl -> listed None s -> small_pages s -> (forall n, 0 <= rand n) ->
  (forall p, dirty_bits_reach s t p) -> first_clear sl <> None ->
  ReadRegister (machine s) BadVAddrReg = Ok va -> 0 <= va < 2 ^ 31 ->
  is_Some (lookup_pte (spaces s) (currentSpace s) (vpn_of va)) ->
  (forall i e, ~ maps (machine s) (vpn_of va) i e) ->
  exists s' t' bl' sl' p, HandlePageFault rand (S fuel) s = Ok (s', tt) /\
    Inv None None s' t' bl' sl' /\ listed None s' /\ small_pages s' /\
    (forall a v bs, content None s t a v bs -> exists bs', content None s' t' a v bs' /\ bs `prefix_of` bs') /\
    resident None (IPT s') (currentSpace s) (vpn_of va) p /\
    (forall bs, content None s t (currentSpace s) (vpn_of va) bs ->
       bs `prefix_of` read_frame (mainMemory (machine s')) (Z.of_nat p)) /\
    forall addr size, vpn_of addr = vpn_of va -> access_size size -> misaligned addr size = false ->
      exists m, Translate (machine s') addr size false = Ok (m, inr (Z.of_nat p * PageSize + u32 addr mod PageSize)).
Proof.
  intros HI HL Hsm Hrand Hreach Hroom Hva Hrange Hpt Hmiss. pose proof (fault_page va Hrange) as Hvpn.
  assert (exists s1 t1 bl1 sl1 p,
    (match find_frame (Z.to_nat NumPhysPages) 0 (IPT s) (vpn_of va) (currentSpace s) with
     | Ok (Some i) => update_IPT i (with_use true) ;;; sret i
     | Ok None => bring_in rand (S fuel) (vpn_of va)
     | Fault e => fail e end) s = Ok (s1, Z.of_nat p) /\
    (exists hit, find_frame (Z.to_nat NumPhysPages) 0 (IPT s) (vpn_of va) (currentSpace s) = Ok hit) /\
    Inv None (Some p) s1 t1 bl1 sl1 /\ listed None s1 /\ keeps None s t None s1 t1 /\
    resident None (IPT s1) (currentSpace s1) (vpn_of va) p /\
    (forall i te, t1 !! i = Some te -> valid te = true -> physicalPage te <> Z.of_nat p))
    as (s1 & t1 & bl1 & sl1 & p & Hrun & [hit Hhit] & HI1 & HL1 & HK1 & Hr1 & Hn1).
  { destruct (find_frame_spec (IPT s) (vpn_of va) (currentSpace s) (Z.to_nat NumPhysPages) 0)
      as [(p & e & Hf & He & Hv & Hvp & Ha & Hu)|[Hf Hall]]; [by rewrite (inv_IPT _ _ _ _ _ _ HI)|..];
      change (Z.of_nat 0) with 0 in Hf; rewrite Hf.
    - destruct (hit_inv s t bl sl (vpn_of va) p e HI HL He Hv Hvp Ha) as (s1 & Hrun & HI1 & HL1 & HK1 & Hr1 & _).
      exists s1, t, bl, sl, p. unfold sbind. rewrite Hrun. split_and!; try done; [by eexists|].
      eapply miss_not_listed; [exact HI|done..|]. exists e. by split_and!.
    - destruct (bring_in_inv rand fuel s t bl sl (vpn_of va) HI HL Hrand Hreach Hroom Hpt)
        as (s1 & p & t1 & bl1 & sl1 & Hrun & HI1 & HL1 & HK1 & Hr1 & Hn1); [by eapply not_resident_miss|].
      exists s1, t1, bl1, sl1, p. rewrite (keep_space _ _ _ _ _ _ HK1). split_and!; try done. by eexists. }
  destruct (finish_fault s1 t1 bl1 sl1 (vpn_of va) p HI1 HL1 Hr1 Hn1) as (s' & t' & Hfill & HI' & HL' & HK2 & Hm & Hpage & _).
  pose proof (keeps_trans _ _ _ _ _ _ _ _ _ HK1 HK2) as HK.
  assert (small_pages s') as Hsm' by (intros a v ?%(keep_pages _ _ _ _ _ _ HK); by eapply Hsm).
  exists s', t', bl1, sl1, p. rewrite <-(keep_space _ _ _ _ _ _ HK). split_and!; try done.
  - unfold HandlePageFault, sbind at 1, get. unfold sbind at 1, lift. rewrite Hva. cbn zeta. rewrite Hvpn.
    rewrite Hhit in Hrun |- *. unfold sbind in Hrun |- *. destruct hit; rewrite Hrun; exact Hfill.
  - by apply (keep_content _ _ _ _ _ _ HK).
  - by destruct Hm.
  - intros bs HC. rewrite (keep_space _ _ _ _ _ _ HK) in HC.
    destruct (keep_content _ _ _ _ _ _ HK1 _ _ _ HC) as (bs1 & HC1 & Hpre). etrans; [exact Hpre|]. apply Hpage.
    by rewrite (keep_space _ _ _ _ _ _ HK1).
  - intros addr size Heq Hsz Hal. eapply mapped_translates; [exact HI'|done| |done..]. by rewrite Heq.
Qed.

(** C19: A context switch keeps the memory of every program. From any state
    that satisfies the invariant, [SaveState], the switch to another address
    space and [RestoreState] end without a fault; every page has the contents
    it had, every entry of the TLB is invalid, so no page of the program that
    ran before can be reached through it, and the dirty bits are all in the
    inverted page table. *)
Theorem context_switch_keeps_memory (s : VM B) t bl sl next : Inv None None s t bl sl ->
  exists s' t', switch_space next s = Ok (s', tt) /\ Inv None None s' t' bl sl /\ currentSpace s' = next /\
    (forall a v bs, content None s t a v bs -> content None s' t' a v bs) /\ (listed None s -> listed None s') /\
    (forall v i e, ~ maps (machine s') v i e) /\ (forall p, dirty_bits_reach s' t' p).
Proof.
  intros HI. destruct (SaveState_inv None None s t bl sl HI) as (s1 & t1 & H1 & HI1 & HS1 & Hno1).
  set (s2 := mkVM (machine s1) (IPT s1) (mainMemoryBitmap s1) (swapMap s1) (swapFile s1) (evictionList s1)
               (evictionPolicy s1) (currentTLB s1) (spaces s1) next (rands s1)).
  assert (Inv None None s2 t1 bl sl) as HI2.
  { destruct HI1. split; try done. intros i e Hi Hv. by rewrite (Hno1 i e Hi) in Hv. }
  destruct (SaveState_inv None None s2 t1 bl sl HI2) as (s3 & t3 & H3 & HI3 & HS3 & Hno3).
  exists s3, t3. split; [|split; [done|split; [by rewrite (same_currentSpace _ _ _ _ HS3)|split; [|split; [|split]]]]].
  - unfold switch_space, sbind, modify. rewrite H1. exact H3.
  - intros a v bs HC. eapply content_same; [exact HS3|]. change (content None s1 t1 a v bs). by eapply content_same.
  - intros HL. eapply same_listed; [exact HS3|]. change (listed None s1). by eapply same_listed.
  - intros v i e Hm. unfold maps in Hm. rewrite (inv_tlb _ _ _ _ _ _ HI3) in Hm. destruct Hm as (Hi & Hh & _).
    unfold entry_hit in Hh. by rewrite (Hno3 i e Hi) in Hh.
  - intros p i te e Hi Hv. by rewrite (Hno3 i te Hi) in Hv.
Qed.
End Properties.

Lemma page_fault_preserves_memory_witness : exists s' t' bl' sl' p,
  HandlePageFault (fun _ => 0) 1 (full (4096 * 128)) = Ok (s', tt) /\ Inv None None s' t' bl' sl' /\
  resident None (IPT s') 1 4096 p.
Proof.
  destruct (page_fault_preserves_memory (fun _ => 0) 0 (full (4096 * 128)) full_tlb all_taken swap_free (4096 * 128))
    as (s' & t' & bl' & sl' & p & H1 & H2 & _ & _ & _ & H3 & _).
  - apply full_inv; cbn; lia.
  - apply full_listed.
  - apply full_small.
  - done.
  - apply full_reach.
  - done.
  - done.
  - lia.
  - eexists. apply full_pte. split_and!; [done|..|reflexivity]; vm_compute; done.
  - apply full_miss. done.
  - exists s', t', bl', sl', p. split; [exact H1|]. split; [exact H2|exact H3].
Defined.

Lemma context_switch_keeps_memory_witness : exists s' t', switch_space 2 (full 0) = Ok (s', tt) /\
  Inv None None s' t' all_taken swap_free /\ content None s' t' 1 0 [1].
Proof.
  destruct (context_switch_keeps_memory (full 0) full_tlb all_taken swap_free 2) as (s' & t' & H1 & H2 & _ & H3 & _).
  - apply full_inv; cbn; lia.
  - exists s', t'. split; [exact H1|]. split; [exact H2|]. apply H3, full_content_0. cbn. lia.
Defined.

(** A store can be lost. From a state that satisfies the invariant, the
    program stores 7 at address 0 and reads a page that is not in memory. The
    handler evicts the page of address 0: it keeps the dirty bit of the TLB
    when the slot to fill next is valid, and address 0 then reads 7; when that
    slot is empty, as after every context switch, it drops the bit, the page
    is not written to the swap file, and address 0 reads 1, the byte of the
    executable. *)
Theorem store_lost_when_next_slot_is_empty :
  Inv None None (full 0) full_tlb all_taken swap_free /\ listed None (full 0) /\ currentTLB (full 0) = 1 /\
  store_and_load 0 = Ok (true, None, None, Some 7) /\ store_and_load 1 = Ok (true, None, None, Some 1).
Proof.
  split; [apply full_inv; cbn; lia|]. split; [apply full_listed|]. split; [done|]. split; vm_compute; reflexivity.
Qed.
