(* ===== verification/UserMemory.v ===== *)
(** * userprog/exception.cc: the kernel reads and writes the memory of programs

    [copyin] and [copyout] (lines 62 to 112) go through the machine's [ReadMem]
    and [WriteMem], byte by byte, so a page that the TLB does not map enters the
    page fault handler of [PageFault]. [copyin] repeats a read that trapped;
    [copyout] does not. *)
From S2P Require Import Prelude BitMap Machine VM PageFault.

Section Copy.
  Context {K : Type} `{!Kernel K}.

(** [result = machine->ReadMem(vaddr, 1, paddr); while (!result) ...] *)
Fixpoint read_again (fuel : nat) (vaddr : Z) : ST (Machine * K) Z :=
  match fuel with
  | O => fail OutOfFuel
  | S fuel =>
      result <- ReadMem (i32 vaddr) 1 ;;
      match result with Some v => sret v | None => read_again fuel vaddr end
  end.

(** The bytes and what is returned. [result] is TRUE after the loop: the branch
    that returns -1 is never taken. *)
Fixpoint copyin_loop (fuel n : nat) (vaddr : Z) : ST (Machine * K) (list Z) :=
  match n with
  | O => sret []
  | S n =>
      v <- read_again fuel vaddr ;;
      buf <- copyin_loop fuel n (u32 (vaddr + 1)) ;;
      sret (i8 v :: buf)
  end.

Definition copyin (fuel : nat) (vaddr len : Z) : ST (Machine * K) (Z * list Z) :=
  buf <- copyin_loop fuel (Z.to_nat len) vaddr ;; sret (len, buf).

Fixpoint copyout_loop (n vaddr : Z) (buf : list Z) : ST (Machine * K) Z :=
  match buf with
  | [] => sret n
  | b :: buf =>
      result <- WriteMem (i32 vaddr) 1 b ;;
      if result : bool then copyout_loop (n + 1) (u32 (vaddr + 1)) buf else sret (-1)
  end.

Definition copyout (vaddr len : Z) (buf : list Z) : ST (Machine * K) Z :=
  copyout_loop 0 vaddr (take (Z.to_nat len) buf).
End Copy.

(** * Lemmas *)

Section Lemmas.
  Context {B : Type} `{BA : BitAllocator B} (rand : nat -> Z) (other : ExceptionType -> ST (VM B) unit) (fuel : nat).
  Implicit Types (s k : VM B) (m : Machine).

#[local] Instance paging : Kernel (VM B) := VM_Kernel rand other (S fuel).

(** The state of the machine inside and outside of a trap. *)
Definition joined m k : VM B := set_machine m k.

(** A machine that can trap: the registers of a delayed load are in order. *)
Definition regs_ok m : Prop :=
  length (registers m) = Z.to_nat NumTotalRegs /\ exists r, registers m !! 37%nat = Some r /\ 0 <= r < 32.

Lemma same_machine s t m' : tlb m' = tlb (machine s) -> pageTable m' = pageTable (machine s) ->
  mainMemory m' = mainMemory (machine s) -> registers m' = registers (machine s) -> same s t (set_machine m' s) t.
Proof. intros Ht Hp Hm Hr. by split. Qed.

(** The handler reads nothing of the machine but its tables and memory. *)
Lemma Inv_machine h u s t bl sl m' : Inv h u s t bl sl -> tlb m' = tlb (machine s) -> pageTable m' = pageTable (machine s) ->
  mainMemory m' = mainMemory (machine s) -> Inv h u (set_machine m' s) t bl sl.
Proof.
  intros [] Ht Hp Hm. split; cbn; rewrite ?Ht, ?Hp, ?Hm; done.
Qed.

Lemma content_machine h s t m' a v bs : mainMemory m' = mainMemory (machine s) ->
  content h s t a v bs -> content h (set_machine m' s) t a v bs.
Proof. intros Hm [(p & Hr & Hd & ->)|?]; [left; exists p; by rewrite <-Hm|by right]. Qed.

(** Trapping leaves the tables and the memory. *)
Lemma trap_registers m va : regs_ok m -> exists m1 m2,
  reg_set m BadVAddrReg va = Ok m1 /\ DelayedLoad m1 0 0 = Ok m2 /\ regs_ok m2 /\ ReadRegister m2 BadVAddrReg = Ok va /\
  tlb m2 = tlb m /\ pageTable m2 = pageTable m /\ mainMemory m2 = mainMemory m.
Proof.
  intros [Hl (r & Hr & Hrange)]. change (Z.to_nat NumTotalRegs) with 40%nat in Hl. unfold reg_set at 1, BadVAddrReg.
  rewrite arr_set_in by lia. cbn [rbind]. change (Z.to_nat 39) with 39%nat.
  eexists _, _. split; [done|]. unfold DelayedLoad, reg_get, reg_set. cbn [registers set_registers].
  rewrite (arr_get_lookup _ LoadReg r) by (done || (change (Z.to_nat LoadReg) with 37%nat; by rewrite list_lookup_insert_ne)).
  cbn [rbind]. rewrite (arr_get_total _ LoadValueReg) by (rewrite length_insert, Hl; unfold LoadValueReg; lia).
  cbn [rbind].
  repeat (rewrite arr_set_in by (rewrite ?length_insert; unfold LoadReg, LoadValueReg; lia); cbn [rbind registers set_registers]).
  split; [done|]. split; [|split; [|done]].
  - unfold regs_ok. cbn [registers set_registers]. rewrite !length_insert. split; [done|]. exists 0. split; [|lia].
    change (Z.to_nat LoadReg) with 37%nat. change (Z.to_nat LoadValueReg) with 38%nat.
    rewrite list_lookup_insert_ne, list_lookup_insert_ne by done. apply list_lookup_insert_eq. rewrite !length_insert. lia.
  - unfold ReadRegister. cbn [registers set_registers]. change (ASSERT _) with (Ok tt). cbn [rbind].
    apply arr_get_Ok. split; [done|]. change (Z.to_nat 39) with 39%nat.
    change (Z.to_nat LoadReg) with 37%nat. change (Z.to_nat LoadValueReg) with 38%nat.
    rewrite !list_lookup_insert_ne by (done || lia). apply list_lookup_insert_eq. lia.
Qed.

(** A page in memory that the TLB does not map: the trap maps it. *)
Lemma fault_resident m k t bl sl va p : regs_ok m -> Inv None None (joined m k) t bl sl -> listed None k -> small_pages k ->
  0 <= va < 2 ^ 31 -> resident None (IPT k) (currentSpace k) (vpn_of va) p -> (forall i e, ~ maps m (vpn_of va) i e) ->
  exists m' k' t', RaiseException PageFaultException va (m, k) = Ok ((m', k'), tt) /\ regs_ok m' /\
    Inv None None (joined m' k') t' bl sl /\ listed None k' /\ small_pages k' /\
    keeps None (joined m k) t None (joined m' k') t' /\ shape <$> IPT k' = shape <$> IPT k /\ mapped (joined m' k') t' (vpn_of va) p.
Proof.
  intros Hregs HI HL Hsm Hva Hr Hmiss.
  destruct (trap_registers m va Hregs) as (m1 & m2 & H1 & H2 & Hregs2 & Hbad & Ht2 & Hp2 & Hm2).
  set (m3 := set_status m2 SystemMode). set (s := joined m3 k).
  assert (Inv None None s t bl sl) as HIs by (apply (Inv_machine None None (joined m k)); done).
  assert (keeps None (joined m k) t None s t) as HK0.
  { split; [|done..]. intros a v bs HC. exists bs. split; [|done]. by apply (content_machine None (joined m k)). }
  pose proof Hr as (e & He & Hv & _ & Ha & Hvp).
  destruct (find_frame_spec (IPT s) (vpn_of va) (currentSpace s) (Z.to_nat NumPhysPages) 0)
      as [(q & eq & Hf & Heq & Hvq & Hvpq & Haq & Huq)|[Hf Hall]]; [by rewrite (inv_IPT _ _ _ _ _ _ HIs)|..].
  2: { exfalso. by eapply not_resident_miss. }
  assert (q = p) as ->. { eapply (inv_inj _ _ _ _ _ _ HIs); [|exact Hr]. by exists eq. }
  destruct (hit_inv s t bl sl (vpn_of va) p eq HIs HL Heq Hvq Hvpq Haq) as (s1 & Hrun & HI1 & HL1 & HK1 & Hr1 & Hun1).
  destruct (finish_fault s1 t bl sl (vpn_of va) p HI1 HL1 Hr1) as (s' & t' & Hfill & HI' & HL' & HK2 & Hmap & _ & Hun2).
  { pose proof (miss_not_listed None s t bl sl (vpn_of va) HIs Hsm) as Hno. apply Hno; [|exact Hr].
    intros i x Hm. apply (Hmiss i x). by apply (maps_tables m3). }
  pose proof (keeps_trans _ _ _ _ _ _ _ _ _ HK0 (keeps_trans _ _ _ _ _ _ _ _ _ HK1 HK2)) as HK.
  destruct (unmoved_trans _ _ _ Hun1 Hun2) as [Hsh Hrg].
  exists (set_status (machine s') UserMode), s', t'.
  assert (keeps None s' t' None (joined (set_status (machine s') UserMode) s') t') as HK3.
  { split; [|done..]. intros a v bs HC. exists bs. split; [|done]. by apply (content_machine None s'). }
  assert (HandlePageFault rand (S fuel) s = Ok (s', tt)) as Hhandler.
  { unfold HandlePageFault, sbind at 1, get. unfold sbind at 1, lift.
    change (ReadRegister (machine s) BadVAddrReg) with (ReadRegister m2 BadVAddrReg). rewrite Hbad. cbn zeta. rewrite (fault_page va Hva).
    change (Z.of_nat 0) with 0 in Hf. rewrite Hf. unfold sbind. rewrite Hrun. exact Hfill. }
  split; [|split; [|split; [|split; [|split; [|split; [|split]]]]]].
  - unfold RaiseException, on_machine_. unfold sbind at 1. rewrite H1. cbn [rbind]. unfold sbind at 1. rewrite H2. cbn [rbind].
    unfold sbind at 1. cbn [rbind]. fold m3. unfold sbind at 1.
    change (Machine.ExceptionHandler PageFaultException (m3, k))
      with (let* '(x, _) := HandlePageFault rand (S fuel) s in Ok ((machine x, x), tt)).
    by rewrite Hhandler.
  - unfold regs_ok. cbn. rewrite Hrg. exact Hregs2.
  - by apply (Inv_machine None None s').
  - done.
  - intros a v Hpg. eapply Hsm. by apply (keep_pages _ _ _ _ _ _ HK).
  - by eapply keeps_trans.
  - done.
  - done.
Qed.

Lemma i8_idem x : i8 (i8 x) = i8 x.
Proof. unfold i8. rewrite Z.sub_add. by rewrite Z.mod_mod. Qed.

(** What one read leaves: the memory, and the pages where they were. *)
Record undisturbed m k t m' k' t' (bl sl : list bool) : Prop := {
  ud_regs : regs_ok m';
  ud_inv : Inv None None (joined m' k') t' bl sl;
  ud_listed : listed None k';
  ud_small : small_pages k';
  ud_keeps : keeps None (joined m k) t None (joined m' k') t';
  ud_shape : shape <$> IPT k' = shape <$> IPT k
}.

Lemma undisturbed_trans m1 k1 t1 m2 k2 t2 m3 k3 t3 bl sl : undisturbed m1 k1 t1 m2 k2 t2 bl sl ->
  undisturbed m2 k2 t2 m3 k3 t3 bl sl -> undisturbed m1 k1 t1 m3 k3 t3 bl sl.
Proof. intros [] []. split; try done; [by eapply keeps_trans|congruence]. Qed.

(** A read of a mapped page. *)
Lemma read_mapped m k t bl sl va p bs b : regs_ok m -> Inv None None (joined m k) t bl sl -> listed None k -> small_pages k ->
  resident None (IPT k) (currentSpace k) (vpn_of va) p -> content None (joined m k) t (currentSpace k) (vpn_of va) bs ->
  bs !! Z.to_nat (u32 va mod PageSize) = Some b -> (exists i e, maps m (vpn_of va) i e) ->
  exists m' t', ReadMem va 1 (m, k) = Ok ((m', k), Some (i8 b)) /\ undisturbed m k t m' k t' bl sl.
Proof.
  intros Hregs HI HL Hsm Hr HC Hb (i & te & Hmaps). pose proof HI as []. cbn [joined set_machine machine IPT currentSpace] in *.
  assert (tables_ok m) as Htab by (unfold tables_ok; rewrite inv_tlb, inv_table; unfold TLBSize; lia).
  pose proof (Translate_eq m va 1 false Htab (or_introl eq_refl)) as HT. change (misaligned va 1) with false in HT.
  destruct HT as [(j & e & Hm & HT)|[Hno _]]; [|by destruct (Hno i te)].
  assert (t !! j = Some e /\ valid e = true /\ virtualPage e = vpn_of va /\ physicalPage e = Z.of_nat p) as (Hj & Hve & Hvp & Hpp).
  { unfold maps in Hm. rewrite inv_tlb in Hm. destruct Hm as (Hj & Hhit & _).
    apply andb_true_iff in Hhit as [Hve Heq%Z.eqb_eq].
    destruct (inv_entry j e Hj Hve) as (q & ie & Hq & Hiq & Hvi & Hne & Hvpe & Hsp & _).
    assert (resident None (IPT k) (currentSpace k) (virtualPage e) q) as Hrq by (exists ie; by split_and!).
    rewrite u32_id in Heq. 2: { eapply Hsm. destruct (inv_frame q ie Hiq Hvi Hne) as [_ Hpg]. rewrite Hvpe. exact Hpg. }
    rewrite Heq in Hrq. split_and!; try done. rewrite Hq. f_equal. by eapply inv_inj. }
  assert ((p < Z.to_nat NumPhysPages)%nat) as Hlt.
  { rewrite <-inv_IPT. destruct Hr as (ie & Hie & _). by eapply lookup_lt_Some. }
  pose proof (content_frame None _ _ _ _ _ _ _ _ HI HC Hr) as Hpre.
  pose proof (Z.mod_pos_bound (u32 va) PageSize ltac:(done)) as Hoff.
  assert (default 0 (mainMemory m !! (Z.of_nat p * PageSize + u32 va mod PageSize)) = b) as Hbyte.
  { destruct Hpre as [tl Hpre]. cbn in Hpre. pose proof (lookup_app_l_Some _ tl _ _ Hb) as Hl. rewrite <-Hpre in Hl.
    unfold read_frame in Hl. rewrite list_lookup_fmap, lookup_seqZ_lt in Hl by (change (Z.to_nat PageSize) with 128%nat; change PageSize with 128 in *; lia).
    cbn in Hl. injection Hl as Hl. rewrite Z.add_0_l, Z2Nat.id in Hl by lia. exact Hl. }
  assert (translate_hit m j e va false = (with_entry m j (with_use true e), inr (Z.of_nat p * PageSize + u32 va mod PageSize))) as Hth.
  { unfold translate_hit, frame_of. rewrite andb_false_r, Hpp, u32_id by (unfold in_u32, NumPhysPages in *; lia).
    rewrite Z.geb_leb, (proj2 (Z.leb_gt _ _)) by (unfold NumPhysPages in *; lia). done. }
  rewrite Hth in HT. destruct (tlb_use_inv None None (joined m k) t bl sl j e true HI Hj) as [HI1 HS1].
  set (t1 := <[j := with_use true e]> t) in *. set (pa := Z.of_nat p * PageSize + u32 va mod PageSize) in *.
  assert (with_entry m j (with_use true e) = set_tlb m (Some t1)) as Hwe.
  { unfold with_entry. by rewrite inv_tlb. }
  exists (stamp (set_tlb m (Some t1)) pa), t1. split.
  - unfold ReadMem, on_machine. unfold sbind at 1. rewrite HT. cbn [rbind]. unfold sbind. rewrite Hwe. unfold ReadMem_at.
    change (mainMemory (set_tlb m (Some t1))) with (mainMemory m). unfold mem_read. rewrite mem_byte_in.
    2: { unfold pa, MemorySize, NumPhysPages in *. change PageSize with 128 in *. lia. }
    rewrite Hbyte. done.
  - split; try done.
    + by apply (Inv_machine None None (with_tlb t1 (joined m k))).
    + eapply keeps_trans; [by apply same_keeps|]. split; [|done..]. intros a v bs' HC'. exists bs'. split; [|done].
      by apply (content_machine None (with_tlb t1 (joined m k))).
Qed.

(** Byte [b] of the running program is at address [va], in a page that is in memory. *)
Definition user_byte m k t (va b : Z) : Prop :=
  exists p bs, resident None (IPT k) (currentSpace k) (vpn_of va) p /\
    content None (joined m k) t (currentSpace k) (vpn_of va) bs /\ bs !! Z.to_nat (u32 va mod PageSize) = Some b.

Lemma user_byte_undisturbed m k t m' k' t' bl sl va b : undisturbed m k t m' k' t' bl sl -> user_byte m k t va b -> user_byte m' k' t' va b.
Proof.
  intros [] (p & bs & Hr & HC & Hb). destruct (keep_content _ _ _ _ _ _ ud_keeps0 _ _ _ HC) as (bs' & HC' & [tl ->]).
  pose proof (keep_space _ _ _ _ _ _ ud_keeps0) as Hsp. cbn in Hsp. exists p, (bs ++ tl). rewrite Hsp. split_and!; [|done|].
  - by eapply resident_shape.
  - by apply lookup_app_l_Some.
Qed.

Lemma mapped_maps m k t bl sl v p : Inv None None (joined m k) t bl sl -> small_pages k -> mapped (joined m k) t v p ->
  exists i e, maps m v i e.
Proof.
  intros HI Hsm [(e & He & Hve & _ & Ha & Hvp) (i & te & Hi & Hv & Hvt & Hpp)].
  destruct (first_hit t v i te Hi) as (j & x & Hj & Hhit & Hfirst).
  - unfold entry_hit. rewrite Hv, Hvt, u32_id, Z.eqb_refl; [done|]. rewrite <-Hvp. eapply Hsm.
    apply (inv_frame _ _ _ _ _ _ HI p e He Hve ltac:(done)).
  - exists j, x. unfold maps. pose proof (inv_tlb _ _ _ _ _ _ HI) as Ht. cbn in Ht. by rewrite Ht.
Qed.

Lemma maps_dec m v t : tlb m = Some t -> (exists i e, maps m v i e) \/ (forall i e, ~ maps m v i e).
Proof.
  intros Ht. destruct (decide (Exists (fun e => entry_hit v e = true) t)) as [Hex|Hno].
  - left. apply Exists_exists in Hex as (e & [i Hi]%list_elem_of_lookup & Hh).
    destruct (first_hit t v i e Hi Hh) as (j & x & Hj & Hx & Hf). exists j, x. unfold maps. by rewrite Ht.
  - right. intros i e Hm. unfold maps in Hm. rewrite Ht in Hm. destruct Hm as (Hi & Hh & _). apply Hno, Exists_exists.
    exists e. split; [by eapply list_elem_of_lookup_2|done].
Qed.

(** A miss traps, with the page fault exception. *)
Lemma translate_miss m k t bl sl va writing : Inv None None (joined m k) t bl sl -> (forall i e, ~ maps m (vpn_of va) i e) ->
  Translate m va 1 writing = Ok (m, inl PageFaultException).
Proof.
  intros [] Hno. cbn [joined set_machine machine IPT currentSpace] in *.
  assert (tables_ok m) as Htab by (unfold tables_ok; rewrite inv_tlb, inv_table; unfold TLBSize; lia).
  pose proof (Translate_eq m va 1 writing Htab (or_introl eq_refl)) as HT. change (misaligned va 1) with false in HT.
  destruct HT as [(j & e & Hm & HT)|[_ HT]]; [by destruct (Hno j e)|]. by rewrite HT, inv_tlb.
Qed.

Lemma read_again_ok n m k t bl sl va b : regs_ok m -> Inv None None (joined m k) t bl sl -> listed None k -> small_pages k ->
  0 <= va < 2 ^ 31 -> user_byte m k t va b ->
  exists m' k' t', read_again (S (S n)) va (m, k) = Ok ((m', k'), i8 b) /\ undisturbed m k t m' k' t' bl sl.
Proof.
  intros Hregs HI HL Hsm Hva Hub. assert (i32 va = va) as Hi by (apply i32_id; unfold in_i32; lia).
  cbn [read_again]. rewrite Hi. pose proof Hub as (p & bs & Hr & HC & Hb).
  destruct (maps_dec m (vpn_of va) t (inv_tlb _ _ _ _ _ _ HI)) as [Hmaps|Hmiss].
  - destruct (read_mapped m k t bl sl va p bs b Hregs HI HL Hsm Hr HC Hb Hmaps) as (m' & t' & Hread & Hud).
    exists m', k, t'. unfold sbind at 1. by rewrite Hread.
  - destruct (fault_resident m k t bl sl va p Hregs HI HL Hsm Hva Hr Hmiss) as (m1 & k1 & t1 & Hraise & Hr1 & HI1 & HL1 & Hsm1 & HK1 & Hsh1 & Hmap).
    assert (undisturbed m k t m1 k1 t1 bl sl) as Hud1 by by split.
    destruct (user_byte_undisturbed _ _ _ _ _ _ _ _ _ _ Hud1 Hub) as (p' & bs' & Hr' & HC' & Hb').
    destruct (read_mapped m1 k1 t1 bl sl va p' bs' b Hr1 HI1 HL1 Hsm1 Hr' HC' Hb') as (m' & t' & Hread & Hud).
    { by eapply mapped_maps. }
    exists m', k1, t'. split; [|by eapply undisturbed_trans].
    unfold sbind at 1. unfold ReadMem at 1, on_machine at 1. unfold sbind at 1. rewrite (translate_miss m k t bl sl va false HI Hmiss). cbn [rbind].
    unfold sbind at 1. rewrite Hraise. cbn [sret]. unfold sbind at 1. by rewrite Hread.
Qed.

Lemma copyin_loop_ok n bytes : forall m k t bl sl va, regs_ok m -> Inv None None (joined m k) t bl sl -> listed None k -> small_pages k ->
  0 <= va -> va + Z.of_nat (length bytes) <= 2 ^ 31 ->
  (forall i b, bytes !! i = Some b -> user_byte m k t (va + Z.of_nat i) b) ->
  exists m' k' t', copyin_loop (S (S n)) (length bytes) va (m, k) = Ok ((m', k'), i8 <$> bytes) /\ undisturbed m k t m' k' t' bl sl.
Proof.
  induction bytes as [|b bytes IH]; intros m k t bl sl va Hregs HI HL Hsm Hva Hend Hbytes.
  { exists m, k, t. split; [done|]. split; try done. split; [|done..]. intros a v bs HC. by exists bs. }
  cbn [length] in *. destruct (read_again_ok n m k t bl sl va b Hregs HI HL Hsm) as (m1 & k1 & t1 & Hread & Hud1); [lia| |].
  { specialize (Hbytes 0%nat b eq_refl). by rewrite Z.add_0_r in Hbytes. }
  destruct (IH m1 k1 t1 bl sl (va + 1)) as (m2 & k2 & t2 & Hloop & Hud2); try apply Hud1; [lia|lia| |].
  { intros i x Hi. eapply user_byte_undisturbed; [exact Hud1|]. replace (va + 1 + Z.of_nat i) with (va + Z.of_nat (S i)) by lia. by apply Hbytes. }
  exists m2, k2, t2. split; [|by eapply undisturbed_trans]. unfold copyin_loop; fold (@copyin_loop (VM B) paging). unfold sbind at 1. rewrite Hread.
  rewrite u32_id by (unfold in_u32; lia). unfold sbind at 1. rewrite Hloop. unfold sret. cbn [fmap list_fmap]. by rewrite i8_idem.
Qed.
End Lemmas.

(** * Properties *)

Section Properties.
  Context {B : Type} `{BA : BitAllocator B} (rand : nat -> Z) (other : ExceptionType -> ST (VM B) unit) (fuel : nat).

(** [copyin] reads what the program has in memory. In a state that
    satisfies the invariant of the virtual memory, for a buffer whose pages are
    in frames, mapped by the TLB or not, [copyin] ends after at most one page
    fault per byte and gives exactly the bytes of the program, as [char]s; the
    invariant holds again, the contents of every page of every program are kept
    and no page moved. It returns the length. *)
Theorem copyin_reads_user_memory n m (k : VM B) t bl sl va bytes :
  regs_ok m -> Inv None None (joined m k) t bl sl -> listed None k -> small_pages k ->
  0 <= va -> va + Z.of_nat (length bytes) <= 2 ^ 31 ->
  (forall i b, bytes !! i = Some b -> user_byte m k t (va + Z.of_nat i) b) ->
  exists m' k' t',
    copyin (Kernel0 := VM_Kernel rand other (S fuel)) (S (S n)) va (Z.of_nat (length bytes)) (m, k) =
      Ok ((m', k'), (Z.of_nat (length bytes), i8 <$> bytes)) /\
    undisturbed m k t m' k' t' bl sl.
Proof.
  intros Hregs HI HL Hsm Hva Hend Hbytes.
  destruct (copyin_loop_ok rand other fuel n bytes m k t bl sl va Hregs HI HL Hsm Hva Hend Hbytes) as (m' & k' & t' & Hloop & Hud).
  exists m', k', t'. split; [|done]. unfold copyin. rewrite Nat2Z.id. unfold sbind. unfold paging in Hloop. by rewrite Hloop.
Qed.

(** [copyout] gives up when the TLB does not map the page of a byte,
    although the page is in memory and belongs to the program: the trap brings
    the entry into the TLB, but [copyout], unlike [copyin], does not repeat the
    write and returns -1. Nothing is written; the same call would then find the
    page mapped. *)
Theorem copyout_fails_on_a_TLB_miss m (k : VM B) t bl sl va len b buf p :
  regs_ok m -> Inv None None (joined m k) t bl sl -> listed None k -> small_pages k ->
  0 <= va < 2 ^ 31 -> 0 < len -> resident None (IPT k) (currentSpace k) (vpn_of va) p ->
  (forall i e, ~ maps m (vpn_of va) i e) ->
  exists m' k' t',
    copyout (Kernel0 := VM_Kernel rand other (S fuel)) va len (b :: buf) (m, k) = Ok ((m', k'), -1) /\
    undisturbed m k t m' k' t' bl sl /\ exists i e, maps m' (vpn_of va) i e.
Proof.
  intros Hregs HI HL Hsm Hva Hlen Hr Hmiss.
  destruct (fault_resident rand other fuel m k t bl sl va p Hregs HI HL Hsm Hva Hr Hmiss)
    as (m1 & k1 & t1 & Hraise & Hr1 & HI1 & HL1 & Hsm1 & HK1 & Hsh1 & Hmap).
  exists m1, k1, t1. split; [|split; [by split|by eapply mapped_maps]].
  unfold copyout. destruct (Z.to_nat len) as [|n] eqn:Hn; [lia|]. cbn [take copyout_loop].
  rewrite i32_id by (unfold in_i32; lia). unfold sbind at 1, WriteMem at 1, on_machine at 1. unfold sbind at 1.
  rewrite (translate_miss m k t bl sl va true HI Hmiss). cbn [rbind]. unfold sbind at 1. unfold paging in Hraise. by rewrite Hraise.
Qed.
End Properties.

(** ** Witnesses on the full memory of [PageFault] *)

Lemma full_joined {text} va : joined (machine_of text va) (full_of text va) = full_of text va.
Proof. reflexivity. Qed.

Lemma full_regs {text} va : regs_ok (machine_of text va).
Proof. split; [reflexivity|]. exists 0. split; [reflexivity|lia]. Qed.

Lemma full_resident {text} va q : 0 <= q < NumPhysPages -> resident None (IPT (full_of text va)) 1 q (Z.to_nat q).
Proof.
  intros Hq. exists (mkIPTE (frame_entry q) 1). rewrite (full_frame va (Z.to_nat q)), Z2Nat.id by lia. by split_and!.
Qed.

Example copyin_reads_user_memory_witness : exists w,
  copyin (Kernel0 := VM_Kernel (fun _ => 0) (fun _ => fail AssertFail) 1) 2 0 1 (full_machine 0, full 0) = Ok (w, (1, [1])).
Proof.
  destruct (copyin_reads_user_memory (fun _ => 0) (fun _ => fail AssertFail) 0 0 (full_machine 0) (full 0) full_tlb all_taken swap_free 0 [1])
    as (m' & k' & t' & H & _).
  - apply full_regs.
  - apply full_inv; cbn; lia.
  - apply full_listed.
  - apply full_small.
  - lia.
  - cbn. lia.
  - intros [|i] b Hb; [|by destruct i]. injection Hb as <-. exists 0%nat, [1]. split; [|split].
    + apply (full_resident 0 0). unfold NumPhysPages. lia.
    + apply full_content_0; cbn; lia.
    + reflexivity.
  - exists (m', k'). exact H.
Defined.

Example copyout_fails_on_a_TLB_miss_witness : exists w,
  copyout (Kernel0 := VM_Kernel (fun _ => 0) (fun _ => fail AssertFail) 1) 128 1 [5] (full_machine 0, full 0) = Ok (w, -1).
Proof.
  destruct (copyout_fails_on_a_TLB_miss (fun _ => 0) (fun _ => fail AssertFail) 0 (full_machine 0) (full 0) full_tlb all_taken swap_free 128 1 5 [] 1%nat)
    as (m' & k' & t' & H & _).
  - apply full_regs.
  - apply full_inv; cbn; lia.
  - apply full_listed.
  - apply full_small.
  - lia.
  - lia.
  - apply (full_resident 0 1). unfold NumPhysPages. lia.
  - apply full_miss. done.
  - exists (m', k'). exact H.
Defined.
