(* ===== verification/Process.v ===== *)
(** * userprog/addrspace.cc, userprog/exception.cc, userprog/progtest.cc: processes

    The construction of an address space from an executable ([AddrSpace::AddrSpace]),
    the registers a thread starts with ([InitRegisters], [Create_Kernel_Thread_Fork]),
    and the table of processes: [StartProcess], [Fork_Syscall], [Exec_Syscall],
    [Exit_Syscall]. What the process table holds is guarded by [processIDLock]:
    each stretch of code between its [Acquire] and [Release] is one step here,
    and [Fork_Syscall], which takes the lock twice, is two. The names of threads
    and executables are left out: an executable is what [fileSystem->Open]
    returned. The tables of locks and conditions that [Exit_Syscall] also clears
    are in [Syscalls]. *)
From S2P Require Import Prelude BitMap Machine VM PageFault.

Definition UserStackSize : Z := 1024.
Definition MAX_THREADS : Z := 100.
Definition MAX_PROCESSES : Z := 100.
Definition NOFFMAGIC : Z := 0xbadfad.

(** ** bin/noff.h *)

Record Segment := mkSegment { virtualAddr : Z; inFileAddr : Z; seg_size : Z }.
Record NoffHeader := mkNoffHeader { noffMagic : Z; code : Segment; initData : Segment; uninitData : Segment }.

(** A word of the header, little-endian. *)
Definition word_at (bs : list Z) (i : nat) : Z :=
  i32 (nth (4 * i) bs 0 + nth (4 * i + 1) bs 0 * 2 ^ 8 + nth (4 * i + 2) bs 0 * 2 ^ 16 + nth (4 * i + 3) bs 0 * 2 ^ 24).

Definition segment_at (bs : list Z) (i : nat) : Segment := mkSegment (word_at bs i) (word_at bs (i + 1)) (word_at bs (i + 2)).

(** [executable->ReadAt((char * )&noffH, sizeof(noffH), 0)]: the bytes a short
    file does not give stay what they were. *)
Definition read_header (garbage : list Z) (executable : list Z) : res NoffHeader :=
  let* bs := ReadAt executable 40 0 in
  let bs := bs ++ drop (length bs) garbage in
  Ok (mkNoffHeader (word_at bs 0) (segment_at bs 1) (segment_at bs 4) (segment_at bs 7)).

(** ** [AddrSpace::AddrSpace]: the header was read on a little-endian host *)

Definition new_entry (header : NoffHeader) (filePages i : Z) (garbage : Z) : PageTableEntry :=
  mkPTE (mkEntry i garbage false false false false)
    (if decide (i < filePages) then IN_EXECUTABLE else UNINIT) (i32 (inFileAddr (code header) + i * PageSize)).

(** The pages of [header], on [unsigned] sizes. *)
Definition num_pages (header : NoffHeader) : Z :=
  let size := u32 (i32 (i32 (seg_size (code header) + seg_size (initData header)) + seg_size (uninitData header))) in
  u32 (divRoundUp size PageSize + MAX_THREADS * divRoundUp UserStackSize PageSize).

Definition new_page_table (header : NoffHeader) (garbage : nat -> Z) : list PageTableEntry :=
  let filePages := divRoundUp (i32 (seg_size (code header) + seg_size (initData header))) PageSize in
  (fun i => new_entry header (u32 filePages) (Z.of_nat i) (garbage i)) <$> seq 0 (Z.to_nat (num_pages header)).

Definition AddrSpace_new (garbage_header : list Z) (garbage : nat -> Z) (executableIn : option (list Z)) : res AddrSpace :=
  let* exe := deref executableIn in
  let* header := read_header garbage_header exe in
  let* _ := ASSERT (bool_decide (noffMagic header = NOFFMAGIC)) in
  Ok (mkAddrSpace (new_page_table header garbage)
        (divRoundUp (i32 (i32 (seg_size (code header) + seg_size (initData header)) + seg_size (uninitData header))) PageSize)
        exe).

(** ** threads/system.h *)

Record ProcessEntry := mkProcessEntry { numThreadsAlive : Z; processID : Z; threadStacks : list Z; nextThreadID : Z }.

Section Process.
  Context {B : Type} `{BA : BitAllocator B}.

(** [pids]: the [processID] of each address space; [threads]: the space and
    [threadID] of each thread that exists, and whether it has started;
    [forking]: the threads between the two critical sections of [Fork_Syscall]. *)
Record Proc := mkProc {
  processTable : list ProcessEntry;
  nextProcessID : Z;
  numLivingProcesses : Z;
  pids : gmap Z Z;
  threads : gmap nat (Z * Z);
  forking : gset nat;
  memory : VM B
}.

Definition set_counts (t : list ProcessEntry) (n l : Z) (s : Proc) : Proc := mkProc t n l (pids s) (threads s) (forking s) (memory s).
Definition set_table (t : list ProcessEntry) (s : Proc) : Proc := set_counts t (nextProcessID s) (numLivingProcesses s) s.
Definition set_pids (m : gmap Z Z) (s : Proc) : Proc :=
  mkProc (processTable s) (nextProcessID s) (numLivingProcesses s) m (threads s) (forking s) (memory s).
Definition set_threads (m : gmap nat (Z * Z)) (s : Proc) : Proc :=
  mkProc (processTable s) (nextProcessID s) (numLivingProcesses s) (pids s) m (forking s) (memory s).
Definition set_forking (m : gset nat) (s : Proc) : Proc :=
  mkProc (processTable s) (nextProcessID s) (numLivingProcesses s) (pids s) (threads s) m (memory s).
Definition set_memory (m : VM B) (s : Proc) : Proc :=
  mkProc (processTable s) (nextProcessID s) (numLivingProcesses s) (pids s) (threads s) (forking s) m.

Abbreviation PR := (ST Proc).

Definition on_vm {A} (c : ST (VM B) A) : PR A := fun s => let* '(m, a) := c (memory s) in Ok (set_memory m s, a).

(** [Initialize]: the table is static, so its stacks are zero. *)
Definition no_process : ProcessEntry := mkProcessEntry 0 (-1) (replicate (Z.to_nat MAX_THREADS) 0) 0.
Definition Initialize (m : VM B) (forked : gmap nat (Z * Z)) : Proc :=
  mkProc (replicate (Z.to_nat MAX_PROCESSES) no_process) 0 0 ∅ forked ∅ m.

(** [currentThread->space] and [threadID], the [processID] of a space, an
    entry of the table. *)
Definition thread_of (t : nat) : PR (Z * Z) := fun s => let* x := deref (threads s !! t) in Ok (s, x).
Definition pid_of (a : Z) : PR Z := fun s => let* p := deref (pids s !! a) in Ok (s, p).
Definition entry (p : Z) : PR ProcessEntry := fun s => let* e := arr_get (processTable s) p in Ok (s, e).
Definition put_entry (p : Z) (e : ProcessEntry) : PR unit := fun s =>
  let* t := arr_set (processTable s) p e in Ok (set_table t s, tt).
Definition space_of (a : Z) : PR AddrSpace := on_vm (fun m => let* sp := deref (spaces m !! a) in Ok (m, sp)).

(** ** A new process, of [Exec_Syscall] and [StartProcess]

    Space [a] and, for [Exec_Syscall], thread [t] are the objects [new] returns. *)
Definition new_process (garbage_header : list Z) (garbage : nat -> Z) (a : Z) (t : nat) (executable : option (list Z)) : PR Z :=
  space <- lift (AddrSpace_new garbage_header garbage executable) ;;
  on_vm (modify (fun m => set_spaces (<[a := space]> (spaces m)) m)) ;;;
  s <- get ;;
  if decide (nextProcessID s = MAX_PROCESSES) then fail MachineHalt
  else
    let p := nextProcessID s in
    put (set_pids (<[a := p]> (pids s)) (set_counts (processTable s) (p + 1) (numLivingProcesses s + 1) s)) ;;;
    e <- entry p ;;
    modify (fun s => set_threads (<[t := (a, nextThreadID e)]> (threads s)) s) ;;;
    put_entry p (mkProcessEntry (numThreadsAlive e + 1) p (threadStacks e) (nextThreadID e + 1)) ;;;
    sret p.

Definition Exec_Syscall := new_process.

(** ** The registers a thread starts with *)

Definition write_register (r v : Z) : PR unit :=
  on_vm (fun m => let* x := WriteRegister (machine m) r v in Ok (set_machine x m, tt)).

Fixpoint clear_registers (n : nat) (i : Z) : PR unit :=
  match n with O => sret tt | S n => write_register i 0 ;;; clear_registers n (i + 1) end.

(** Where the stack of a thread starts, and the page after its last one. *)
Definition stackLoc (sp : AddrSpace) (threadID : Z) : Z := i32 ((numExecutablePages sp + (threadID + 1) * 8) * PageSize - 16).
Definition stack_page (sp : AddrSpace) (threadID : Z) : Z := i32 (numExecutablePages sp + (threadID + 1) * 8).

Definition record_stack (p threadID page : Z) : PR unit :=
  e <- entry p ;;
  stacks <- lift (arr_set (threadStacks e) threadID page) ;;
  put_entry p (mkProcessEntry (numThreadsAlive e) (processID e) stacks (nextThreadID e)).

Definition InitRegisters (t : nat) : PR unit :=
  clear_registers (Z.to_nat NumTotalRegs) 0 ;;;
  write_register PCReg 0 ;;; write_register NextPCReg 4 ;;;
  x <- thread_of t ;; sp <- space_of x.1 ;; p <- pid_of x.1 ;;
  record_stack p x.2 (stack_page sp 0) ;;;
  write_register StackReg (stackLoc sp 0).

Definition Create_Kernel_Thread_Exec (t : nat) : PR unit := InitRegisters t ;;; on_vm RestoreState.

Definition Create_Kernel_Thread_Fork (vaddr : Z) (t : nat) : PR unit :=
  write_register PCReg (i32 vaddr) ;;; write_register NextPCReg (i32 (u32 (vaddr + 4))) ;;;
  on_vm RestoreState ;;;
  x <- thread_of t ;; sp <- space_of x.1 ;; p <- pid_of x.1 ;;
  record_stack p x.2 (stack_page sp x.2) ;;;
  write_register StackReg (stackLoc sp x.2).

Definition StartProcess (garbage_header : list Z) (garbage : nat -> Z) (a : Z) (t : nat) (executable : option (list Z)) : PR unit :=
  match executable with
  | None => sret tt
  | Some _ => new_process garbage_header garbage a t executable ;;; InitRegisters t ;;; on_vm RestoreState
  end.

(** ** [Fork_Syscall]: the check, then, with the lock taken again, the new thread *)

Definition Fork_check (t : nat) : PR unit :=
  x <- thread_of t ;; p <- pid_of x.1 ;; e <- entry p ;;
  if decide (nextThreadID e = MAX_THREADS) then fail MachineHalt
  else modify (fun s => set_forking ({[t]} ∪ forking s) s).

Definition Fork_take (t t' : nat) : PR unit :=
  x <- thread_of t ;; p <- pid_of x.1 ;; e <- entry p ;;
  modify (fun s => set_threads (<[t' := (x.1, nextThreadID e)]> (threads s)) s) ;;;
  put_entry p (mkProcessEntry (numThreadsAlive e + 1) (processID e) (threadStacks e) (nextThreadID e + 1)) ;;;
  modify (fun s => set_forking (forking s ∖ {[t]}) s).

(** ** [Exit_Syscall] *)

(** [IPT[i].valid = FALSE; IPT[i].use = FALSE; mainMemoryBitmap->Clear(i)] *)
Definition free_frame (i : Z) : ST (VM B) unit :=
  update_IPT i (fun e => with_use false (with_valid false e)) ;;;
  (fun s => let* b := ba_clear (mainMemoryBitmap s) i in Ok (set_bitmap b s, tt)).

Fixpoint free_space (n : nat) (i a : Z) : ST (VM B) unit :=
  match n with
  | O => sret tt
  | S n =>
      e <- get_IPT i ;;
      (if decide (space e = a) then free_frame i else sret tt) ;;;
      free_space n (i + 1) a
  end.

Fixpoint free_stack (n : nat) (i a lastStackPage : Z) : ST (VM B) unit :=
  match n with
  | O => sret tt
  | S n =>
      pt <- get_pte a (lastStackPage - i) ;;
      let ppn := physicalPage (pte pt) in
      e <- get_IPT ppn ;;
      (if valid (ipte e) && negb (use (ipte e)) && bool_decide (space e = a) then free_frame ppn else sret tt) ;;;
      free_stack n (i + 1) a lastStackPage
  end.

(** [currentThread->Finish()] *)
Definition finish (t : nat) : PR unit := modify (fun s => set_threads (delete t (threads s)) s).

Definition Exit_Syscall (t : nat) : PR unit :=
  x <- thread_of t ;; p <- pid_of x.1 ;; e <- entry p ;; s <- get ;;
  if decide (numLivingProcesses s = 1 /\ numThreadsAlive e = 1) then fail MachineHalt
  else if decide (numLivingProcesses s > 1 /\ numThreadsAlive e = 1) then
    lastStackPage <- lift (arr_get (threadStacks e) x.2) ;;
    modify (fun s => set_counts (processTable s) (nextProcessID s) (numLivingProcesses s - 1) s) ;;;
    on_vm (free_space (Z.to_nat NumPhysPages) 0 x.1) ;;;
    finish t
  else if decide (numThreadsAlive e > 1) then
    put_entry p (mkProcessEntry (numThreadsAlive e - 1) (processID e) (threadStacks e) (nextThreadID e)) ;;;
    lastStackPage <- lift (arr_get (threadStacks e) x.2) ;;
    on_vm (free_stack (Z.to_nat (Z.quot UserStackSize PageSize)) 0 x.1 lastStackPage) ;;;
    finish t
  else fail MachineHalt.
End Process.
Arguments Proc B : clear implicits.

(** * Lemmas *)

(** ** The layout of an address space *)

(** A header with sizes that fit. *)
Definition header_ok (h : NoffHeader) : Prop :=
  0 <= seg_size (code h) /\ 0 <= seg_size (initData h) /\ 0 <= seg_size (uninitData h) /\
  seg_size (code h) + seg_size (initData h) + seg_size (uninitData h) < 2 ^ 30.

Definition file_size (h : NoffHeader) : Z := seg_size (code h) + seg_size (initData h).
Definition total_size (h : NoffHeader) : Z := file_size h + seg_size (uninitData h).

Lemma sizes_i32 h : header_ok h -> i32 (seg_size (code h) + seg_size (initData h)) = file_size h /\
  i32 (file_size h + seg_size (uninitData h)) = total_size h /\ u32 (total_size h) = total_size h.
Proof.
  intros (? & ? & ? & ?). unfold file_size, total_size. split_and!.
  - apply i32_id. unfold in_i32. lia.
  - apply i32_id. unfold in_i32, file_size. lia.
  - apply u32_id. unfold in_u32, file_size. lia.
Qed.

Lemma divRoundUp_range n : 0 <= n < 2 ^ 30 -> 0 <= divRoundUp n PageSize < 2 ^ 23 + 1.
Proof. intros Hn. pose proof (divRoundUp_bounds n PageSize ltac:(lia) ltac:(done)) as H. change PageSize with 128 in *. lia. Qed.

(** The pages of a program, then [MAX_THREADS] stacks of eight. *)
Lemma num_pages_eq h : header_ok h -> num_pages h = divRoundUp (total_size h) PageSize + MAX_THREADS * 8.
Proof.
  intros Hh. unfold num_pages. destruct (sizes_i32 h Hh) as (-> & -> & ->). change (divRoundUp UserStackSize PageSize) with 8.
  apply u32_id. pose proof (divRoundUp_range (total_size h)) as H. destruct Hh as (? & ? & ? & ?).
  unfold total_size, file_size in *. unfold in_u32, MAX_THREADS. lia.
Qed.

(** ** The states of the process table *)

Section Accounting.
  Context {B : Type} `{BA : BitAllocator B}.
  (** What [new] leaves in a header and in a page table. *)
  Context (garbage_header : list Z) (garbage : nat -> Z).
  Implicit Types (s : Proc B).

(** The steps of the processes. Everything else that runs, user instructions
    and page faults included, changes the memory only. *)
Inductive step : Proc B -> Proc B -> Prop :=
  | step_new a t executable p s s' :
      pids s !! a = None -> threads s !! t = None ->
      new_process garbage_header garbage a t executable s = Ok (s', p) -> step s s'
  | step_run_exec t s s' : is_Some (threads s !! t) -> Create_Kernel_Thread_Exec t s = Ok (s', tt) -> step s s'
  | step_run_fork vaddr t s s' : is_Some (threads s !! t) -> Create_Kernel_Thread_Fork vaddr t s = Ok (s', tt) -> step s s'
  | step_fork_check t s s' : t ∉ forking s -> Fork_check t s = Ok (s', tt) -> step s s'
  | step_fork_take t t' s s' : t ∈ forking s -> threads s !! t' = None -> Fork_take t t' s = Ok (s', tt) -> step s s'
  | step_exit t s s' : t ∉ forking s -> Exit_Syscall t s = Ok (s', tt) -> step s s'
  | step_memory m s : step s (set_memory m s).

Definition reachable s : Prop := exists m, rtc step (Initialize m ∅) s.

(** The threads of a space, and the spaces that have threads. *)
Definition threads_in s (a : Z) : gmap nat (Z * Z) := filter (fun x => x.2.1 = a) (threads s).
Definition living s : gset Z := map_img (fst <$> threads s).

(** What an entry holds for the threads of its space. *)
Definition entry_ok s (a : Z) (e : ProcessEntry) : Prop :=
  numThreadsAlive e = Z.max 1 (Z.of_nat (size (threads_in s a))) /\
  (forall t id, threads s !! t = Some (a, id) -> 0 <= id < nextThreadID e) /\
  (forall t t' id, threads s !! t = Some (a, id) -> threads s !! t' = Some (a, id) -> t = t').

Record accounted s : Prop := {
  ac_table : length (processTable s) = Z.to_nat MAX_PROCESSES;
  ac_next : 0 <= nextProcessID s <= MAX_PROCESSES;
  ac_pids : forall a p, pids s !! a = Some p -> 0 <= p < nextProcessID s;
  ac_inj : forall a a' p, pids s !! a = Some p -> pids s !! a' = Some p -> a = a';
  ac_space : forall t a id, threads s !! t = Some (a, id) -> is_Some (pids s !! a);
  ac_entry : forall a p, pids s !! a = Some p -> exists e, processTable s !! Z.to_nat p = Some e /\ entry_ok s a e;
  ac_free : forall p, (Z.to_nat (nextProcessID s) <= p < Z.to_nat MAX_PROCESSES)%nat ->
    exists e, processTable s !! p = Some e /\ numThreadsAlive e = 0 /\ nextThreadID e = 0;
  ac_living : numLivingProcesses s = Z.of_nat (size (living s))
}.

Lemma living_spec s a : a ∈ living s <-> exists t id, threads s !! t = Some (a, id).
Proof.
  unfold living. rewrite elem_of_map_img. split.
  - intros (t & [[a' id] [Ha Ht]]%lookup_fmap_Some). cbn in Ha. subst. eauto.
  - intros (t & id & Ht). exists t. by rewrite lookup_fmap, Ht.
Qed.

Lemma accounted_init m : accounted (Initialize m ∅).
Proof.
  split; cbn; try done.
  - intros p Hp. exists no_process. split; [|done]. apply lookup_replicate. split; [done|]. lia.
Qed.

(** Steps that touch neither the counts nor the threads. *)
Record quiet s s' : Prop := {
  q_pids : pids s' = pids s;
  q_threads : threads s' = threads s;
  q_next : nextProcessID s' = nextProcessID s;
  q_living : numLivingProcesses s' = numLivingProcesses s;
  q_length : length (processTable s') = length (processTable s);
  q_entry : forall p e, processTable s !! p = Some e -> exists e', processTable s' !! p = Some e' /\
    numThreadsAlive e' = numThreadsAlive e /\ nextThreadID e' = nextThreadID e
}.

Lemma quiet_refl s : quiet s s.
Proof. split; try done. intros p e Hp. by exists e. Qed.

Lemma quiet_memory m s : quiet s (set_memory m s).
Proof. split; try done. intros p e Hp. by exists e. Qed.

Lemma quiet_forking f s : quiet s (set_forking f s).
Proof. split; try done. intros p e Hp. by exists e. Qed.

Lemma quiet_run_trans s1 s2 s3 : quiet s1 s2 -> quiet s2 s3 -> quiet s1 s3.
Proof.
  intros [] []. split; try congruence. intros p e Hp. destruct (q_entry0 p e Hp) as (e1 & H1 & ? & ?).
  destruct (q_entry1 p e1 H1) as (e2 & H2 & ? & ?). exists e2. split_and!; congruence.
Qed.

Lemma accounted_quiet s s' : accounted s -> quiet s s' -> accounted s'.
Proof.
  intros [] [Hp Ht Hn Hl Hlen He]. unfold entry_ok, threads_in, living in *.
  split; unfold entry_ok, threads_in, living; rewrite ?Hp, ?Ht, ?Hn, ?Hl; try done; [congruence| |].
  - intros a p Ha. destruct (ac_entry0 a p Ha) as (e & Hpe & Hc & Hi & Hd). destruct (He _ e Hpe) as (e' & He' & H1 & H2).
    exists e'. rewrite H1, H2. done.
  - intros p Hlt. destruct (ac_free0 p Hlt) as (e & Hpe & H1 & H2). destruct (He _ e Hpe) as (e' & He' & H3 & H4).
    exists e'. split_and!; congruence.
Qed.

Definition keeps_counts {A} (c : ST (Proc B) A) : Prop := forall s s' a, c s = Ok (s', a) -> quiet s s'.

Lemma keeps_bind {A C} (c : ST (Proc B) A) (f : A -> ST (Proc B) C) : keeps_counts c -> (forall a, keeps_counts (f a)) -> keeps_counts (sbind c f).
Proof.
  intros Hc Hf s s' b H. unfold sbind in H. destruct (c s) as [[s1 a]|] eqn:H1; [|done].
  eapply quiet_run_trans; [by eapply Hc|by eapply Hf].
Qed.

Lemma keeps_on_vm {A} (c : ST (VM B) A) : keeps_counts (on_vm c).
Proof. intros s s' a H. unfold on_vm in H. destruct (c (memory s)) as [[m x]|]; [|done]. injection H as <- <-. apply quiet_memory. Qed.

Lemma keeps_sret {A} (a : A) : keeps_counts (sret a).
Proof. intros s s' x [= <- <-]. apply quiet_refl. Qed.

Lemma keeps_fail {A} e : keeps_counts (fail e : ST (Proc B) A).
Proof. by intros s s' x. Qed.

Lemma keeps_lift {A} (m : res A) : keeps_counts (lift m).
Proof. intros s s' x H. unfold lift in H. destruct m; [|done]. injection H as <- <-. apply quiet_refl. Qed.

Lemma keeps_thread_of t : keeps_counts (thread_of t).
Proof. intros s s' x H. unfold thread_of in H. destruct (deref _); [|done]. injection H as <- <-. apply quiet_refl. Qed.

Lemma keeps_pid_of a : keeps_counts (pid_of a).
Proof. intros s s' x H. unfold pid_of in H. destruct (deref _); [|done]. injection H as <- <-. apply quiet_refl. Qed.

Lemma keeps_entry p : keeps_counts (entry p).
Proof. intros s s' x H. unfold entry in H. destruct (arr_get _ _); [|done]. injection H as <- <-. apply quiet_refl. Qed.

Lemma keeps_forking f : keeps_counts (modify (fun s => set_forking (f s) s)).
Proof. intros s s' x [= <- <-]. apply quiet_forking. Qed.

Lemma put_entry_quiet s p e e' : arr_get (processTable s) p = Ok e -> numThreadsAlive e' = numThreadsAlive e -> nextThreadID e' = nextThreadID e ->
  forall s' x, put_entry p e' s = Ok (s', x) -> quiet s s'.
Proof.
  intros [Hp0 Hp]%arr_get_Ok H1 H2 s' x H. unfold put_entry in H. rewrite arr_set_in in H by (apply lookup_lt_Some in Hp; lia).
  injection H as <- <-. split; cbn; try done; [by rewrite length_insert|]. intros q eq Hq.
  destruct (decide (q = Z.to_nat p)) as [->|]; [|exists eq; by rewrite list_lookup_insert_ne].
  simplify_eq. exists e'. by rewrite list_lookup_insert_eq by (by eapply lookup_lt_Some).
Qed.

Lemma keeps_record_stack p id page : keeps_counts (record_stack p id page).
Proof.
  intros s s' x H. unfold record_stack, sbind, entry in H. destruct (arr_get (processTable s) p) as [e|] eqn:He; [|done]. cbn [rbind] in H.
  unfold lift in H. destruct (arr_set (threadStacks e) id page) as [st|]; [|done]. by eapply put_entry_quiet; [exact He|..|exact H].
Qed.

Create HintDb process.
#[local] Hint Resolve keeps_bind keeps_on_vm keeps_sret keeps_fail keeps_lift keeps_thread_of keeps_pid_of keeps_entry keeps_forking keeps_record_stack : process.

Lemma keeps_clear_registers n : forall i, keeps_counts (clear_registers n i).
Proof. induction n as [|n IH]; intros i; cbn [clear_registers]; unfold write_register; auto with process. Qed.
#[local] Hint Resolve keeps_clear_registers : process.

Lemma keeps_Create_Exec t : keeps_counts (Create_Kernel_Thread_Exec t).
Proof. unfold Create_Kernel_Thread_Exec, InitRegisters, space_of, write_register. eauto 20 with process. Qed.

Lemma keeps_Create_Fork vaddr t : keeps_counts (Create_Kernel_Thread_Fork vaddr t).
Proof. unfold Create_Kernel_Thread_Fork, space_of, write_register. eauto 20 with process. Qed.

Lemma keeps_Fork_check t : keeps_counts (Fork_check t).
Proof.
  unfold Fork_check. repeat (apply keeps_bind; [auto with process|intros ?]). destruct (decide _); auto with process.
Qed.

(** *** Threads come and go *)

Lemma threads_in_lookup s a t x : threads_in s a !! t = Some x <-> threads s !! t = Some x /\ x.1 = a.
Proof. unfold threads_in. rewrite map_lookup_filter_Some. done. Qed.

Lemma threads_in_insert s t a id b : threads s !! t = None ->
  size (threads_in (set_threads (<[t := (a, id)]> (threads s)) s) b) = ((if decide (b = a) then 1 else 0) + size (threads_in s b))%nat.
Proof.
  intros Ht. unfold threads_in. cbn [set_threads threads]. case_decide as Hb.
  - subst. rewrite map_filter_insert_True by done. rewrite map_size_insert_None; [done|]. apply map_lookup_filter_None. by left.
  - rewrite map_filter_insert_False by (cbn; congruence). by rewrite delete_id.
Qed.

Lemma threads_in_delete s t a id b : threads s !! t = Some (a, id) ->
  size (threads_in s b) = ((if decide (b = a) then 1 else 0) + size (threads_in (set_threads (delete t (threads s)) s) b))%nat.
Proof.
  intros Ht. unfold threads_in. cbn [set_threads threads]. rewrite map_filter_delete. case_decide as Hb.
  - subst. assert (filter (fun x => x.2.1 = a) (threads s) !! t = Some (a, id)) as Hf by by apply map_lookup_filter_Some.
    rewrite <-(insert_delete_id _ t (a, id) Hf) at 1. rewrite map_size_insert_None; [done|]. apply lookup_delete_eq.
  - rewrite delete_id; [done|]. apply map_lookup_filter_None. right. intros x Hx. simplify_eq. cbn. congruence.
Qed.

Lemma living_threads s a : a ∈ living s <-> (0 < size (threads_in s a))%nat.
Proof.
  rewrite living_spec. split.
  - intros (t & id & Ht). assert (threads_in s a !! t = Some (a, id)) as H by by apply threads_in_lookup.
    destruct (size (threads_in s a)) eqn:E; [|lia]. apply map_size_empty_iff in E. by rewrite E in H.
  - intros Hs. destruct (map_choose (threads_in s a)) as (t & [a' id] & H).
    { intros E. rewrite E, map_size_empty in Hs. lia. }
    apply threads_in_lookup in H as [H Ha]. cbn in Ha. subst. eauto.
Qed.

Lemma new_process_result a t executable s s' p : new_process garbage_header garbage a t executable s = Ok (s', p) ->
  exists m e, p = nextProcessID s /\ p <> MAX_PROCESSES /\ 0 <= p /\ processTable s !! Z.to_nat p = Some e /\
    s' = mkProc (<[Z.to_nat p := mkProcessEntry (numThreadsAlive e + 1) p (threadStacks e) (nextThreadID e + 1)]> (processTable s))
           (p + 1) (numLivingProcesses s + 1) (<[a := p]> (pids s)) (<[t := (a, nextThreadID e)]> (threads s)) (forking s) m.
Proof.
  unfold new_process. unfold sbind at 1, lift. destruct (AddrSpace_new _ _ _) as [sp|]; [|done].
  unfold sbind at 1, on_vm, modify at 1. cbn [rbind]. unfold sbind at 1, get. case_decide as Hmax; [done|]. cbn [nextProcessID set_memory] in Hmax.
  unfold sbind at 1, put. unfold sbind at 1, entry. cbn [processTable set_pids set_counts set_memory nextProcessID].
  destruct (arr_get (processTable s) (nextProcessID s)) as [e|] eqn:He; [|done]. apply arr_get_Ok in He as [H0 He]. cbn [rbind].
  unfold sbind at 1, modify. unfold sbind, put_entry. cbn [processTable set_threads set_pids set_counts set_memory].
  rewrite arr_set_in by (apply lookup_lt_Some in He; lia). cbn [rbind]. intros [= <- <-].
  eexists _, e. split_and!; try done.
Qed.

Lemma Fork_take_result t t' s s' : Fork_take t t' s = Ok (s', tt) ->
  exists a id p e, threads s !! t = Some (a, id) /\ pids s !! a = Some p /\ 0 <= p /\ processTable s !! Z.to_nat p = Some e /\
    s' = mkProc (<[Z.to_nat p := mkProcessEntry (numThreadsAlive e + 1) (processID e) (threadStacks e) (nextThreadID e + 1)]> (processTable s))
           (nextProcessID s) (numLivingProcesses s) (pids s) (<[t' := (a, nextThreadID e)]> (threads s)) (forking s ∖ {[t]}) (memory s).
Proof.
  unfold Fork_take, sbind, thread_of. destruct (threads s !! t) as [[a id]|]; [|done]. cbn [deref rbind fst].
  unfold pid_of. destruct (pids s !! a) as [p|] eqn:Hp; [|done]. cbn [deref rbind]. unfold entry.
  destruct (arr_get (processTable s) p) as [e|] eqn:He; [|done]. apply arr_get_Ok in He as [H0 He]. cbn [rbind].
  unfold modify, put_entry. cbn [processTable set_threads]. rewrite arr_set_in by (apply lookup_lt_Some in He; lia). cbn [rbind].
  intros [= <-]. exists a, id, p, e. split_and!; try done.
Qed.

Lemma Fork_check_run s t a id p e : threads s !! t = Some (a, id) -> pids s !! a = Some p -> 0 <= p ->
  processTable s !! Z.to_nat p = Some e -> nextThreadID e <> MAX_THREADS -> Fork_check t s = Ok (set_forking ({[t]} ∪ forking s) s, tt).
Proof.
  intros Ht Hp H0 He Hn. unfold Fork_check, sbind, thread_of. rewrite Ht. cbn [deref rbind fst]. unfold pid_of. rewrite Hp. cbn [deref rbind].
  unfold entry. rewrite (arr_get_lookup _ p e) by done. cbn [rbind]. by rewrite decide_False.
Qed.

Lemma Fork_take_run s t t' a id p e : threads s !! t = Some (a, id) -> pids s !! a = Some p -> 0 <= p -> processTable s !! Z.to_nat p = Some e ->
  Fork_take t t' s = Ok (mkProc (<[Z.to_nat p := mkProcessEntry (numThreadsAlive e + 1) (processID e) (threadStacks e) (nextThreadID e + 1)]> (processTable s))
    (nextProcessID s) (numLivingProcesses s) (pids s) (<[t' := (a, nextThreadID e)]> (threads s)) (forking s ∖ {[t]}) (memory s), tt).
Proof.
  intros Ht Hp H0 He. unfold Fork_take, sbind, thread_of. rewrite Ht. cbn [deref rbind fst]. unfold pid_of. rewrite Hp. cbn [deref rbind].
  unfold entry. rewrite (arr_get_lookup _ p e) by done. cbn [rbind]. unfold modify, put_entry. cbn [processTable set_threads].
  rewrite arr_set_in by (apply lookup_lt_Some in He; lia). done.
Qed.

Lemma on_vm_result {A} (c : ST (VM B) A) s s' x : on_vm c s = Ok (s', x) -> s' = set_memory (memory s') s.
Proof. unfold on_vm. destruct (c (memory s)) as [[m y]|]; [|done]. by intros [= <- <-]. Qed.

(** A thread whose number is beyond the table of stacks cannot start. *)
Lemma Create_Fork_beyond s vaddr t a id p e : threads s !! t = Some (a, id) -> pids s !! a = Some p -> 0 <= p ->
  processTable s !! Z.to_nat p = Some e -> Z.of_nat (length (threadStacks e)) <= id -> forall r, Create_Kernel_Thread_Fork vaddr t s <> Ok r.
Proof.
  intros Ht Hp H0 He Hid [s' []] HC. unfold Create_Kernel_Thread_Fork, write_register, space_of, sbind in HC.
  destruct (on_vm _ s) as [[s1 []]|] eqn:E1; [|done]. apply on_vm_result in E1. destruct (on_vm _ s1) as [[s2 []]|] eqn:E2; [|done].
  apply on_vm_result in E2. destruct (on_vm RestoreState s2) as [[s3 []]|] eqn:E3; [|done]. apply on_vm_result in E3.
  assert (threads s3 = threads s /\ pids s3 = pids s /\ processTable s3 = processTable s) as (H1 & H2 & H3) by (rewrite E3, E2, E1; done).
  unfold thread_of in HC. rewrite H1, Ht in HC. cbn [deref rbind fst snd] in HC.
  destruct (on_vm _ s3) as [[s4 sp]|] eqn:E4; [|done]. apply on_vm_result in E4.
  unfold pid_of in HC. rewrite E4 in HC. cbn [pids set_memory] in HC. rewrite H2, Hp in HC. cbn [deref rbind] in HC.
  unfold record_stack, sbind, entry in HC. cbn [processTable set_memory] in HC. rewrite H3 in HC. rewrite (arr_get_lookup _ p e) in HC by done. cbn [rbind] in HC.
  unfold lift in HC. rewrite arr_set_oob in HC by lia. done.
Qed.

(** What an entry becomes when a thread gets its next number. *)
Lemma entry_ok_new s a e t : entry_ok s a e -> threads s !! t = None -> (0 < size (threads_in s a))%nat ->
  0 <= nextThreadID e -> forall e', numThreadsAlive e' = numThreadsAlive e + 1 -> nextThreadID e' = nextThreadID e + 1 ->
  entry_ok (set_threads (<[t := (a, nextThreadID e)]> (threads s)) s) a e'.
Proof.
  intros (Hc & Hi & Hd) Ht Hlive H0 e' H1 H2. split; [|split; cbn [threads set_threads]].
  - rewrite threads_in_insert, decide_True by done. lia.
  - intros u id [[<- [= <-]]|[_ Hu]]%lookup_insert_Some; [lia|]. specialize (Hi u id Hu). lia.
  - intros u u' id [[<- [= <-]]|[Hne Hu]]%lookup_insert_Some [[<- Heq]|[Hne' Hu']]%lookup_insert_Some; try done.
    + specialize (Hi u' _ Hu'). lia.
    + injection Heq as <-. specialize (Hi u _ Hu). lia.
    + by eapply Hd.
Qed.

Lemma entry_ok_first s a e' t : (forall u id, threads s !! u <> Some (a, id)) -> threads s !! t = None ->
  numThreadsAlive e' = 1 -> nextThreadID e' = 1 -> entry_ok (set_threads (<[t := (a, 0)]> (threads s)) s) a e'.
Proof.
  intros Hno Ht H1 H2. split; [|split; cbn [threads set_threads]].
  - rewrite threads_in_insert, decide_True by done. replace (size (threads_in s a)) with 0%nat; [lia|].
    symmetry. apply map_size_empty_iff, map_eq. intros u. rewrite lookup_empty. apply map_lookup_filter_None. right. intros [a' id] Hu Ha.
    cbn in Ha. subst. by apply (Hno u id).
  - intros u id [[_ Heq]|[_ Hu]]%lookup_insert_Some; [injection Heq as <-; lia|]. by apply Hno in Hu.
  - intros u u' id [[<- _]|[_ Hu]]%lookup_insert_Some; [|by apply Hno in Hu].
    intros [[<- _]|[_ Hu']]%lookup_insert_Some; [done|by apply Hno in Hu'].
Qed.

Lemma entry_ok_other s a b t id e : entry_ok s b e -> b <> a -> threads s !! t = None ->
  entry_ok (set_threads (<[t := (a, id)]> (threads s)) s) b e.
Proof.
  intros (Hc & Hi & Hd) Hb Ht. split; [|split; cbn [threads set_threads]].
  - rewrite threads_in_insert, decide_False by done. done.
  - intros u id' [[_ [= -> _]]|[_ Hu]]%lookup_insert_Some; [done|]. by apply (Hi u).
  - intros u u' id' [[_ Heq]|[_ Hu]]%lookup_insert_Some; [congruence|].
    intros [[_ Heq]|[_ Hu']]%lookup_insert_Some; [congruence|]. by eapply Hd.
Qed.

(** What is left when a thread is gone. *)
Lemma entry_ok_gone s a b t id e e' : entry_ok s b e -> threads s !! t = Some (a, id) -> nextThreadID e' = nextThreadID e ->
  numThreadsAlive e' = Z.max 1 (Z.of_nat (size (threads_in (set_threads (delete t (threads s)) s) b))) ->
  entry_ok (set_threads (delete t (threads s)) s) b e'.
Proof.
  intros (Hc & Hi & Hd) Ht Hn Hs. split; [done|split; cbn [threads set_threads]; rewrite ?Hn].
  - intros u id' [_ Hu]%lookup_delete_Some. by apply (Hi u).
  - intros u u' id' [_ Hu]%lookup_delete_Some [_ Hu']%lookup_delete_Some. by eapply Hd.
Qed.

(** Only the threads and their spaces matter. *)
Lemma entry_ok_ext s s' a e e' : threads s' = threads s -> numThreadsAlive e' = numThreadsAlive e -> nextThreadID e' = nextThreadID e ->
  entry_ok s a e -> entry_ok s' a e'.
Proof. unfold entry_ok, threads_in. by intros -> -> ->. Qed.

Lemma living_ext s s' : threads s' = threads s -> living s' = living s.
Proof. unfold living. by intros ->. Qed.

Lemma living_insert s t a id : threads s !! t = None -> living (set_threads (<[t := (a, id)]> (threads s)) s) = {[a]} ∪ living s.
Proof.
  intros Ht. apply set_eq. intros b. rewrite elem_of_union, elem_of_singleton, !living_threads, threads_in_insert by done. case_decide; lia || naive_solver lia.
Qed.

Lemma living_delete s t a id : threads s !! t = Some (a, id) ->
  living (set_threads (delete t (threads s)) s) = if decide (size (threads_in s a) = 1%nat) then living s ∖ {[a]} else living s.
Proof.
  intros Ht. apply set_eq. intros b. rewrite living_threads. pose proof (threads_in_delete s t a id b Ht) as Hb.
  pose proof (threads_in_delete s t a id a Ht) as Ha. rewrite decide_True in Ha by done.
  destruct (decide (size _ = 1%nat)) as [H1|H1]; rewrite ?elem_of_difference, ?elem_of_singleton, ?living_threads; destruct (decide (b = a)) as [->|]; try lia.
Qed.

Lemma Exit_result t s s' : Exit_Syscall t s = Ok (s', tt) ->
  exists a id p e m, threads s !! t = Some (a, id) /\ pids s !! a = Some p /\ 0 <= p /\ processTable s !! Z.to_nat p = Some e /\
    ((numLivingProcesses s > 1 /\ numThreadsAlive e = 1 /\
      s' = mkProc (processTable s) (nextProcessID s) (numLivingProcesses s - 1) (pids s) (delete t (threads s)) (forking s) m) \/
     (numThreadsAlive e > 1 /\
      s' = mkProc (<[Z.to_nat p := mkProcessEntry (numThreadsAlive e - 1) (processID e) (threadStacks e) (nextThreadID e)]> (processTable s))
             (nextProcessID s) (numLivingProcesses s) (pids s) (delete t (threads s)) (forking s) m)).
Proof.
  unfold Exit_Syscall. generalize (Z.to_nat NumPhysPages) as frames. intros frames. unfold sbind at 1, thread_of. destruct (threads s !! t) as [[a id]|] eqn:Ht; [|done]. cbn [deref rbind fst snd].
  unfold sbind at 1, pid_of. destruct (pids s !! a) as [p|] eqn:Hp; [|done]. cbn [deref rbind]. unfold sbind at 1, entry.
  destruct (arr_get (processTable s) p) as [e|] eqn:He; [|done]. apply arr_get_Ok in He as [H0 He]. cbn [rbind].
  unfold sbind at 1, get. intros H. exists a, id, p, e. case_decide as H1; [done|].
  destruct (decide (numLivingProcesses s > 1 /\ numThreadsAlive e = 1)) as [[H2 H3]|_]; [|destruct (decide (numThreadsAlive e > 1)) as [H4|]; [|done]].
  - unfold sbind at 1, lift in H. destruct (arr_get (threadStacks e) id); [|done]. unfold sbind at 1, modify, on_vm in H. unfold sbind in H.
    destruct (free_space _ _ _ _) as [[m ?]|]; [|done]. cbn [rbind] in H. injection H as <-. exists m. split_and!; try done. by left.
  - unfold sbind at 1, put_entry in H. rewrite arr_set_in in H by (apply lookup_lt_Some in He; lia). cbn [rbind] in H.
    unfold sbind at 1, lift in H. destruct (arr_get (threadStacks e) id); [|done]. unfold on_vm, sbind in H.
    destruct (free_stack _ _ _ _ _) as [[m ?]|]; [|done]. cbn [rbind] in H. injection H as <-. exists m. split_and!; try done. by right.
Qed.

Lemma new_process_accounted a t executable s s' p : accounted s -> pids s !! a = None -> threads s !! t = None ->
  new_process garbage_header garbage a t executable s = Ok (s', p) -> accounted s'.
Proof.
  intros [] Ha Ht (m & e & -> & Hmax & H0 & He & ->)%new_process_result. set (s1 := set_threads (<[t := (a, nextThreadID e)]> (threads s)) s).
  destruct (ac_free0 (Z.to_nat (nextProcessID s))) as (e0 & He0 & Halive & Hnext); [lia|]. simplify_eq. rewrite Hnext in *.
  assert (forall u id, threads s !! u <> Some (a, id)) as Hno. { intros u id Hu. destruct (ac_space0 u a id Hu) as [? ?]. congruence. }
  set (e1 := mkProcessEntry _ _ _ _).
  split; cbn [processTable nextProcessID pids threads numLivingProcesses].
  - by rewrite length_insert.
  - lia.
  - intros b q [[_ <-]|[_ Hb]]%lookup_insert_Some; [lia|]. specialize (ac_pids0 b q Hb). lia.
  - intros b b' q [[<- Hq]|[Hn Hb]]%lookup_insert_Some [[<- Hq']|[Hn' Hb']]%lookup_insert_Some; try done; [..|by eapply ac_inj0].
    + specialize (ac_pids0 b' q Hb'). lia.
    + specialize (ac_pids0 b q Hb). lia.
  - intros u b id [[_ [= <- _]]|[_ Hu]]%lookup_insert_Some; [by rewrite lookup_insert_eq|].
    apply lookup_insert_is_Some. destruct (decide (a = b)); [by left|right]. split; [done|by eapply ac_space0].
  - intros b q [[<- <-]|[Hn Hb]]%lookup_insert_Some.
    + exists e1. split; [by apply list_lookup_insert_eq; lia|]. eapply (entry_ok_ext s1); [unfold s1; by rewrite Hnext|done|done|].
      unfold s1. rewrite Hnext. apply entry_ok_first; try done; cbn; lia.
    + destruct (ac_entry0 b q Hb) as (eb & Heb & Hok). exists eb. pose proof (ac_pids0 b q Hb).
      rewrite list_lookup_insert_ne by lia. split; [done|]. eapply (entry_ok_ext s1); [unfold s1; by rewrite Hnext|done|done|]. by apply entry_ok_other.
  - intros q Hq. rewrite list_lookup_insert_ne by lia. apply ac_free0. lia.
  - rewrite (living_ext s1) by (unfold s1; by rewrite Hnext). unfold s1. rewrite living_insert by done.
    rewrite size_union; [rewrite size_singleton; lia|]. intros b ->%elem_of_singleton (u & id & Hu)%living_spec. by apply Hno in Hu.
Qed.

Lemma Fork_take_accounted t t' s s' : accounted s -> threads s !! t' = None -> Fork_take t t' s = Ok (s', tt) -> accounted s'.
Proof.
  intros [] Ht' (a & id & p & e & Ht & Hp & H0 & He & ->)%Fork_take_result. set (s1 := set_threads (<[t' := (a, nextThreadID e)]> (threads s)) s).
  destruct (ac_entry0 a p Hp) as (e0 & He0 & Hok). simplify_eq. pose proof Hok as (Hc & Hi & Hd). specialize (Hi t id Ht) as Hid.
  assert (a ∈ living s) as Hliv by (apply living_spec; eauto). pose proof (proj1 (living_threads s a) Hliv) as Hpos.
  set (e1 := mkProcessEntry _ _ _ _). split; cbn [processTable nextProcessID pids threads numLivingProcesses]; try done.
  - by rewrite length_insert.
  - intros u b id' [[_ [= <- _]]|[_ Hu]]%lookup_insert_Some; [by eexists|by eapply ac_space0].
  - intros b q Hb. destruct (decide (b = a)) as [->|Hn].
    + simplify_eq. exists e1. split; [by apply list_lookup_insert_eq; eapply lookup_lt_Some|].
      eapply (entry_ok_ext s1); [done..|]. apply (entry_ok_new s a e t'); try done. lia.
    + destruct (ac_entry0 b q Hb) as (eb & Heb & Hokb). exists eb.
      assert (q <> p) as Hqp by (intros ->; apply Hn; by eapply ac_inj0). pose proof (ac_pids0 b q Hb).
      rewrite list_lookup_insert_ne by lia. split; [done|]. eapply (entry_ok_ext s1); [done..|]. by apply entry_ok_other.
  - intros q Hq. pose proof (ac_pids0 a p Hp). rewrite list_lookup_insert_ne by lia. by apply ac_free0.
  - rewrite (living_ext s1) by done. unfold s1. rewrite living_insert by done. rewrite subseteq_union_1_L; [done|]. set_solver.
Qed.

Lemma Exit_accounted t s s' : accounted s -> Exit_Syscall t s = Ok (s', tt) -> accounted s'.
Proof.
  intros [] (a & id & p & e & m & Ht & Hp & H0 & He & Hcase)%Exit_result. set (s1 := set_threads (delete t (threads s)) s).
  destruct (ac_entry0 a p Hp) as (e0 & He0 & Hok). simplify_eq. pose proof Hok as (Hc & Hi & Hd).
  pose proof (living_delete s t a id Ht) as Hliv. pose proof (threads_in_delete s t a id a Ht) as Hsz. rewrite decide_True in Hsz by done. fold s1 in Hliv, Hsz.
  assert (a ∈ living s) as Hin by (apply living_spec; eauto).
  assert (forall b, b <> a -> size (threads_in s1 b) = size (threads_in s b)) as Hother.
  { intros b Hb. pose proof (threads_in_delete s t a id b Ht) as Hx. by rewrite decide_False in Hx. }
  destruct Hcase as [(Hl & Ha1 & ->)|(Ha1 & ->)].
  - split; cbn [processTable nextProcessID pids threads numLivingProcesses]; try done.
    + intros u b id' [_ Hu]%lookup_delete_Some. by eapply ac_space0.
    + intros b q Hb. destruct (ac_entry0 b q Hb) as (eb & Heb & Hokb). exists eb. split; [done|].
      eapply (entry_ok_ext s1); [done..|]. eapply entry_ok_gone; [done|done|done|]. fold s1. destruct Hokb as (Hcb & _).
      destruct (decide (b = a)) as [->|Hn]; [simplify_eq; lia|]. by rewrite Hother.
    + rewrite (living_ext s1) by done. rewrite Hliv. rewrite decide_True by lia.
      rewrite size_difference by set_solver. rewrite size_singleton. lia.
  - split; cbn [processTable nextProcessID pids threads numLivingProcesses]; try done.
    + by rewrite length_insert.
    + intros u b id' [_ Hu]%lookup_delete_Some. by eapply ac_space0.
    + intros b q Hb. destruct (decide (b = a)) as [->|Hn].
      * simplify_eq. eexists. split; [by apply list_lookup_insert_eq; eapply lookup_lt_Some|].
        eapply (entry_ok_ext s1); [done..|]. eapply entry_ok_gone; [exact Hok|done|done|]. fold s1. cbn [numThreadsAlive]. lia.
      * destruct (ac_entry0 b q Hb) as (eb & Heb & Hokb). exists eb.
        assert (q <> p) as Hqp by (intros ->; apply Hn; by eapply ac_inj0). pose proof (ac_pids0 b q Hb).
        rewrite list_lookup_insert_ne by lia. split; [done|]. eapply (entry_ok_ext s1); [done..|].
        eapply entry_ok_gone; [exact Hokb|done|done|]. fold s1. rewrite Hother by done. apply Hokb.
    + intros q Hq. pose proof (ac_pids0 a p Hp). rewrite list_lookup_insert_ne by lia. by apply ac_free0.
    + rewrite (living_ext s1) by done. rewrite Hliv. rewrite decide_False by lia. done.
Qed.

Lemma step_accounted s s' : accounted s -> step s s' -> accounted s'.
Proof.
  intros HA Hs. destruct Hs as [a t exe p s s' Ha Ht H|t s s' _ H|vaddr t s s' _ H|t s s' _ H|t t' s s' _ Ht H|t s s' _ H|m s].
  - exact (new_process_accounted a t exe s s' p HA Ha Ht H).
  - eapply accounted_quiet; [exact HA|]. exact (keeps_Create_Exec t s s' tt H).
  - eapply accounted_quiet; [exact HA|]. exact (keeps_Create_Fork vaddr t s s' tt H).
  - eapply accounted_quiet; [exact HA|]. exact (keeps_Fork_check t s s' tt H).
  - exact (Fork_take_accounted t t' s s' HA Ht H).
  - exact (Exit_accounted t s s' HA H).
  - eapply accounted_quiet; [exact HA|]. apply quiet_memory.
Qed.

Lemma reachable_accounted s : reachable s -> accounted s.
Proof.
  intros [m H]. remember (Initialize m ∅) as s0 eqn:E. assert (accounted s0) as HA by (subst; apply accounted_init). clear E.
  induction H as [|s1 s2 s3 Hs _ IH]; [done|]. apply IH. by eapply step_accounted.
Qed.
End Accounting.

(** ** The memory of a process that exits *)

Section Exit.
  Context {B : Type} `{BA : BitAllocator B}.
  Implicit Types (m : VM B).

Definition cleared (e : IPTEntry) : IPTEntry := mkIPTE (with_use false (with_valid false (ipte e))) (space e).

Lemma free_frame_ok m p e bl : IPT m !! p = Some e -> ba_rep (mainMemoryBitmap m) bl -> (p < length bl)%nat ->
  exists b, free_frame (Z.of_nat p) m = Ok (set_bitmap b (set_IPT (<[p := cleared e]> (IPT m)) m), tt) /\ ba_rep b (<[p := false]> bl).
Proof.
  intros He Hb Hp. unfold free_frame, sbind. rewrite (update_IPT_ok m p e) by done.
  destruct (ba_clear_in _ _ (Z.of_nat p) Hb) as (b & Hc & Hr); [lia|]. rewrite Nat2Z.id in Hr.
  exists b. split; [|done]. cbn [mainMemoryBitmap set_IPT]. by rewrite Hc.
Qed.

(** The loop over the frames clears those of the space. *)
Lemma free_space_ok n : forall i m bl a, ba_rep (mainMemoryBitmap m) bl -> length bl = length (IPT m) -> (i + n = length (IPT m))%nat ->
  exists t b bl', free_space n (Z.of_nat i) a m = Ok (set_bitmap b (set_IPT t m), tt) /\ ba_rep b bl' /\ length bl' = length bl /\ length t = length (IPT m) /\
    forall q e, IPT m !! q = Some e ->
      if decide ((i <= q)%nat /\ space e = a) then t !! q = Some (cleared e) /\ bl' !! q = Some false
      else t !! q = Some e /\ bl' !! q = bl !! q.
Proof.
  induction n as [|n IH]; intros i m bl a Hb Hl Hn; cbn [free_space].
  { exists (IPT m), (mainMemoryBitmap m), bl. split; [by destruct m|]. split_and!; try done. intros q e Hq.
    apply lookup_lt_Some in Hq as Hlt. rewrite decide_False by lia. done. }
  destruct (lookup_lt_is_Some_2 (IPT m) i) as [e He]; [lia|]. unfold sbind at 1. rewrite (get_IPT_ok m i e He).
  replace (Z.of_nat i + 1) with (Z.of_nat (S i)) by lia. unfold sbind at 1. case_decide as Ha.
  - destruct (free_frame_ok m i e bl He Hb) as (b1 & H1 & Hb1); [lia|]. rewrite H1.
    destruct (IH (S i) (set_bitmap b1 (set_IPT (<[i := cleared e]> (IPT m)) m)) (<[i := false]> bl) a) as (t & b & bl' & H & Hr & Hlb & Hlt & Hq);
      cbn [mainMemoryBitmap IPT set_bitmap set_IPT] in *; rewrite ?length_insert; try done; try lia.
    rewrite !length_insert in *. exists t, b, bl'. split; [by rewrite H; destruct m|]. split_and!; try done.
    intros q eq Heq. destruct (decide (q = i)) as [->|Hne].
    + simplify_eq. rewrite decide_True by done. specialize (Hq i (cleared e)). rewrite list_lookup_insert_eq in Hq by lia.
      specialize (Hq eq_refl). rewrite decide_False in Hq by lia. by rewrite list_lookup_insert_eq in Hq by lia.
    + specialize (Hq q eq). rewrite list_lookup_insert_ne in Hq by done. specialize (Hq Heq).
      destruct (decide ((i <= q)%nat /\ space eq = a)) as [[Hi Hs]|Hno].
      * rewrite decide_True in Hq by (split; [lia|done]). done.
      * rewrite decide_False in Hq by (intros [? ?]; apply Hno; split; [lia|done]). by rewrite list_lookup_insert_ne in Hq by done.
  - destruct (IH (S i) m bl a) as (t & b & bl' & H & Hr & Hlb & Hlt & Hq); try done; [lia|].
    exists t, b, bl'. split_and!; try done. intros q eq Heq. specialize (Hq q eq Heq).
    destruct (decide ((i <= q)%nat /\ space eq = a)) as [[Hi Hs]|Hno].
    + rewrite decide_True in Hq; [done|]. split; [|done]. destruct (decide (q = i)) as [->|]; [congruence|lia].
    + rewrite decide_False in Hq; [done|]. intros [? ?]. apply Hno. split; [lia|done].
Qed.

(** The loop over the stack pages only frees frames. *)
Lemma free_stack_drops n : forall i m m' a last, free_stack n i a last m = Ok (m', tt) ->
  spaces m' = spaces m /\ swapFile m' = swapFile m /\
  (forall q e, IPT m !! q = Some e -> IPT m' !! q = Some e \/ IPT m' !! q = Some (cleared e)) /\
  (forall k pt p e, i <= k < i + Z.of_nat n -> lookup_pte (spaces m) a (last - k) = Some pt -> physicalPage (pte pt) = Z.of_nat p ->
     IPT m !! p = Some e -> valid (ipte e) = true -> use (ipte e) = false -> space e = a -> IPT m' !! p = Some (cleared e)).
Proof.
  induction n as [|n IH]; intros i m m' a last; cbn [free_stack].
  { intros [= <-]. split_and!; try done; [by left|lia]. }
  unfold sbind at 1, get_pte. destruct (deref (spaces m !! a)) as [sp|] eqn:Hsp; [|done]. cbn [rbind].
  destruct (arr_get (as_pageTable sp) (last - i)) as [pt|] eqn:Hpt; [|done]. cbn [rbind].
  unfold sbind at 1, get_IPT. destruct (arr_get (IPT m) (physicalPage (pte pt))) as [e|] eqn:He; [|done]. cbn [rbind].
  apply arr_get_Ok in He as [H0 He]. apply arr_get_Ok in Hpt as [Hv Hpt].
  set (p := Z.to_nat (physicalPage (pte pt))) in *. replace (physicalPage (pte pt)) with (Z.of_nat p) by lia.
  set (c := valid (ipte e) && negb (use (ipte e)) && bool_decide (space e = a)).
  destruct (spaces m !! a) as [sp'|] eqn:Hspa; [|done]. injection Hsp as ->.
  assert (lookup_pte (spaces m) a (last - i) = Some pt) as Hlp.
  { unfold lookup_pte. rewrite Hspa. cbn [mbind option_bind]. by rewrite decide_True. }
  unfold sbind at 1. destruct c eqn:Hc; unfold c in Hc.
  - unfold free_frame. unfold sbind at 1. rewrite (update_IPT_ok m p e) by done. cbn [mainMemoryBitmap set_IPT].
    destruct (ba_clear (mainMemoryBitmap m) (Z.of_nat p)) as [b|]; [|done]. cbn [rbind]. intros H.
    apply IH in H as (Hsp & Hsw & Hq & Hk). cbn [spaces swapFile IPT set_bitmap set_IPT] in *. change (mkIPTE _ (space e)) with (cleared e) in *.
    pose proof (lookup_lt_Some _ _ _ He) as Hlt. split_and!; try done.
    + intros q eq Heq. destruct (decide (q = p)) as [->|Hne].
      * simplify_eq. right. by destruct (Hq p (cleared e)) as [?|?]; [by apply list_lookup_insert_eq|..].
      * apply Hq. by rewrite list_lookup_insert_ne.
    + intros k pt' p' e' Hki Hlk Hpp Hep Hval Huse Hspe. destruct (decide (p' = p)) as [->|Hne].
      * simplify_eq. by destruct (Hq p (cleared e)) as [?|?]; [by apply list_lookup_insert_eq|..].
      * destruct (decide (k = i)) as [->|Hki']; [exfalso; apply Hne; rewrite Hlp in Hlk; simplify_eq; unfold p; lia|].
        apply (Hk k pt' p' e'); try done; [lia|]. by rewrite list_lookup_insert_ne.
  - cbn [sret]. intros H. apply IH in H as (Hsp & Hsw & Hq & Hk). split_and!; try done.
    intros k pt' p' e' Hki Hlk Hpp Hep Hval Huse Hspe. destruct (decide (k = i)) as [->|Hki']; [|apply (Hk k pt' p' e'); try done; lia].
    exfalso. rewrite Hlp in Hlk. injection Hlk as <-. assert (p' = p) as -> by (unfold p; lia). simplify_eq.
    rewrite Hval, Huse, bool_decide_eq_true_2 in Hc by done. done.
Qed.
End Exit.

(** * Properties *)

(** the layout of an address space. For a well-formed header the page table
    has the pages of the program and then [MAX_THREADS] stacks of eight pages;
    page [i] is invalid, is read from the file at [128 * i] after the start of
    the code when it overlaps code or initialised data, and is uninitialised
    otherwise. The stack pointer of thread [t] is in the last of the eight pages
    of its own stack, which are in the table. The page that [Exit_Syscall] is
    given as the last of the stack is the one after it: the first of the next
    thread, and outside of the table for the last thread. *)
Theorem AddrSpace_layout garbage_header garbage exe h :
  read_header garbage_header exe = Ok h -> noffMagic h = NOFFMAGIC -> header_ok h -> 0 <= inFileAddr (code h) < 2 ^ 29 ->
  exists sp, AddrSpace_new garbage_header garbage (Some exe) = Ok sp /\
    let n := numExecutablePages sp in
    total_size h <= 128 * n < total_size h + 128 /\ Z.of_nat (length (as_pageTable sp)) = n + 8 * MAX_THREADS /\
    (forall i, 0 <= i < n + 8 * MAX_THREADS -> exists pt, as_pageTable sp !! Z.to_nat i = Some pt /\
       virtualPage (pte pt) = i /\ valid (pte pt) = false /\ dirty (pte pt) = false /\
       offset pt = inFileAddr (code h) + 128 * i /\ location pt = if decide (128 * i < file_size h) then IN_EXECUTABLE else UNINIT) /\
    (forall t, 0 <= t < MAX_THREADS ->
       (n + 8 * t + 7) * PageSize <= stackLoc sp t < (n + 8 * t + 8) * PageSize /\
       n <= n + 8 * t /\ n + 8 * t + 7 < Z.of_nat (length (as_pageTable sp)) /\ stack_page sp t = n + 8 * (t + 1)).
Proof.
  intros Hh Hmagic Hok Hfile. unfold AddrSpace_new. cbn [deref rbind]. rewrite Hh. cbn [rbind].
  rewrite bool_decide_eq_true_2 by done. cbn [ASSERT rbind]. eexists. split; [done|]. cbv zeta. cbn [numExecutablePages as_pageTable].
  destruct (sizes_i32 h Hok) as (H1 & H2 & H3). rewrite H1, H2.
  pose proof Hok as (Hc & Hi & Hu & Hsum). pose proof (divRoundUp_bounds (total_size h) PageSize) as Hb.
  pose proof (divRoundUp_bounds (file_size h) PageSize) as Hf. pose proof (num_pages_eq h Hok) as Hn.
  unfold total_size, file_size in Hb, Hf. change PageSize with 128 in *. unfold MAX_THREADS in *.
  specialize (Hb ltac:(lia) ltac:(lia)). specialize (Hf ltac:(lia) ltac:(lia)).
  fold (file_size h) in Hf, Hb |- *. change (file_size h + seg_size (uninitData h)) with (total_size h) in *.
  set (n := divRoundUp (total_size h) 128) in *. set (f := divRoundUp (file_size h) 128) in *.
  assert (0 <= file_size h <= total_size h /\ total_size h < 2 ^ 30) as Hsz by (unfold total_size, file_size; lia).
  assert (length (new_page_table h garbage) = Z.to_nat (n + 800)) as Hlen.
  { unfold new_page_table. rewrite length_fmap, length_seq, Hn. done. }
  rewrite Hlen. split; [lia|split; [lia|split]].
  - intros i Hi'. exists (new_entry h f i (garbage (Z.to_nat i))). unfold new_page_table. rewrite H1. change (divRoundUp (file_size h) PageSize) with f.
    rewrite (u32_id f) by (unfold in_u32; lia). split.
    { rewrite list_lookup_fmap, lookup_seq_lt by lia. cbn. by rewrite Z2Nat.id by lia. }
    cbn [new_entry pte location offset virtualPage valid dirty]. split_and!; try done.
    + rewrite i32_id; [change PageSize with 128; lia|]. unfold in_i32. change PageSize with 128. lia.
    + destruct (decide (i < f)), (decide (128 * i < file_size h)); done || lia.
  - intros t Ht. unfold stackLoc, stack_page. cbn [numExecutablePages].
    change (divRoundUp (total_size h) PageSize) with n. change PageSize with 128. rewrite !i32_id by (unfold in_i32; lia). lia.
Qed.

Section Properties.
  Context {B : Type} `{BA : BitAllocator B} (garbage_header : list Z) (garbage : nat -> Z).
  Implicit Types (s : Proc B).

(** C31: the process table counts what exists. In every reachable state the
    number of living processes is the number of address spaces that have a
    thread; for every thread, the entry of its process counts the threads of
    its space, its number is below the next number of the process, no other
    thread of the process has it, and no other space has the process number. *)
Theorem process_table_counts s : reachable garbage_header garbage s ->
  numLivingProcesses s = Z.of_nat (size (living s)) /\
  forall t a id, threads s !! t = Some (a, id) -> exists p e,
    pids s !! a = Some p /\ processTable s !! Z.to_nat p = Some e /\ numThreadsAlive e = Z.of_nat (size (threads_in s a)) /\
    0 <= id < nextThreadID e /\ (forall t', threads s !! t' = Some (a, id) -> t' = t) /\ (forall a', pids s !! a' = Some p -> a' = a).
Proof.
  intros [] %reachable_accounted. split; [done|]. intros t a id Ht. destruct (ac_space0 t a id Ht) as [p Hp].
  destruct (ac_entry0 a p Hp) as (e & He & Hc & Hi & Hd). exists p, e.
  assert (a ∈ living s) as Hl by (apply living_spec; eauto). apply living_threads in Hl.
  split_and!; try done; [lia|by apply (Hi t)|by apply (Hi t)|intros t' Ht'; by eapply Hd|intros a' Ha'; by eapply ac_inj0].
Qed.

(** the machine halts with the last thread. In a reachable state, the exit
    of the only thread halts; the exit of any other thread that ends removes
    that thread only, and a thread is left; the process number of the space it
    leaves keeps counting the threads that stay. *)
Theorem Exit_halts_with_the_last_thread s t a id : reachable garbage_header garbage s -> threads s !! t = Some (a, id) ->
  (threads s = {[t := (a, id)]} -> Exit_Syscall t s = Fault MachineHalt) /\
  (forall s', Exit_Syscall t s = Ok (s', tt) -> threads s' = delete t (threads s) /\ threads s' <> ∅).
Proof.
  intros HA%reachable_accounted Ht. pose proof HA as []. destruct (ac_space0 t a id Ht) as [p Hp].
  destruct (ac_entry0 a p Hp) as (e & He & Hc & Hi & Hd). pose proof (ac_pids0 a p Hp) as Hpr. split.
  - intros Hone. unfold Exit_Syscall. unfold sbind at 1, thread_of. rewrite Ht. cbn [deref rbind fst]. unfold sbind at 1, pid_of. rewrite Hp. cbn [deref rbind].
    unfold sbind at 1, entry. rewrite (arr_get_lookup _ p e) by (done || lia). cbn [rbind]. unfold sbind at 1, get.
    rewrite decide_True; [done|]. assert (living s = {[a]}) as Hliv.
    { apply set_eq. intros b. rewrite living_spec, Hone, elem_of_singleton. split.
      - intros (u & i & [<- [= <- _]]%lookup_singleton_Some). done.
      - intros ->. exists t, id. apply lookup_singleton_eq. }
    rewrite ac_living0, Hliv, size_singleton. split; [done|]. rewrite Hc. unfold threads_in. rewrite Hone, map_filter_singleton_True by done.
    rewrite map_size_singleton. lia.
  - intros s' Hs'. pose proof (Exit_accounted t s s' HA Hs') as HA'.
    destruct (Exit_result t s s' Hs') as (a0 & id0 & p0 & e0 & m & Ht0 & Hp0 & _ & He0 & Hcase). simplify_eq.
    assert (threads s' = delete t (threads s)) as Hd' by (by destruct Hcase as [(_ & _ & ->)|(_ & ->)]). split; [done|].
    rewrite Hd'. intros Hempty. assert (size (living s) = 1%nat) as H1.
    { pose proof (living_delete s t a id Ht) as Hl. assert (living (set_threads (delete t (threads s)) s) = ∅) as Hl0.
      { apply elem_of_equiv_empty_L. intros b (u & i & Hu)%living_spec. cbn in Hu. by rewrite Hempty in Hu. }
      rewrite Hl0 in Hl. assert (a ∈ living s) as Hin by (apply living_spec; eauto). case_decide; [|set_solver].
      assert (living s = {[a]}) as ->; [|apply size_singleton]. apply set_eq. intros b. split; [|set_solver]. destruct (decide (b = a)); set_solver. }
    assert (size (threads_in s a) = 1%nat) as H2.
    { rewrite (threads_in_delete s t a id a Ht), decide_True by done. unfold threads_in. cbn [threads set_threads]. rewrite Hempty, map_filter_empty, map_size_empty. done. }
    destruct Hcase as [(Hgt & _)|(Hgt & _)]; [rewrite ac_living0 in Hgt; lia|rewrite Hc in Hgt; lia].
Qed.

End Properties.

Section Behaviour.
  Context {B : Type} `{BA : BitAllocator B}.
  Implicit Types (s : Proc B).

(** the exit of the last thread of a process gives back its frames, and
    only them: the entries of its space in the inverted page table become
    invalid and their bits in the map of the memory clear, every other entry and
    bit stays. *)
Theorem Exit_frees_the_frames_of_the_process s t a id p e bl :
  threads s !! t = Some (a, id) -> pids s !! a = Some p -> 0 <= p -> processTable s !! Z.to_nat p = Some e ->
  numThreadsAlive e = 1 -> numLivingProcesses s > 1 -> 0 <= id < Z.of_nat (length (threadStacks e)) ->
  length (IPT (memory s)) = Z.to_nat NumPhysPages -> length bl = Z.to_nat NumPhysPages -> ba_rep (mainMemoryBitmap (memory s)) bl ->
  exists s' bl', Exit_Syscall t s = Ok (s', tt) /\ numLivingProcesses s' = numLivingProcesses s - 1 /\ threads s' = delete t (threads s) /\
    ba_rep (mainMemoryBitmap (memory s')) bl' /\ spaces (memory s') = spaces (memory s) /\
    forall q ie, IPT (memory s) !! q = Some ie ->
      if decide (space ie = a) then IPT (memory s') !! q = Some (cleared ie) /\ bl' !! q = Some false
      else IPT (memory s') !! q = Some ie /\ bl' !! q = bl !! q.
Proof.
  intros Ht Hp H0 He Halive Hliv Hid Hipt Hbl Hb. unfold Exit_Syscall. revert Hipt Hbl. generalize (Z.to_nat NumPhysPages) as frames. intros frames Hipt Hbl.
  unfold sbind at 1, thread_of. rewrite Ht. cbn [deref rbind fst snd]. unfold sbind at 1, pid_of. rewrite Hp. cbn [deref rbind].
  unfold sbind at 1, entry. rewrite (arr_get_lookup _ p e) by (done || lia). cbn [rbind]. unfold sbind at 1, get.
  rewrite decide_False by lia. rewrite decide_True by lia.
  destruct (lookup_lt_is_Some_2 (threadStacks e) (Z.to_nat id)) as [last Hlast]; [lia|].
  unfold sbind at 1, lift. rewrite (arr_get_lookup _ id last) by (done || lia). unfold sbind at 1, modify. unfold sbind, on_vm. cbn [memory set_counts].
  destruct (free_space_ok frames 0 (memory s) bl a Hb) as (tb & b & bl' & Hfree & Hr & _ & _ & Hq); [congruence|lia|].
  change (Z.of_nat 0) with 0 in Hfree. rewrite Hfree. cbn [rbind]. eexists _, bl'. split; [done|]. split_and!; try done.
  intros q ie Hie. specialize (Hq q ie Hie). cbn. destruct (decide (space ie = a)) as [Hs|Hs].
  - rewrite decide_True in Hq by (split; [lia|done]). done.
  - rewrite decide_False in Hq by tauto. done.
Qed.

(** the exit of one thread of several can drop memory of its process. The
    frames it frees are those the page table entries of eight pages name,
    counted down from the page after its stack ([AddrSpace_layout]: the first
    page of the next thread). Whatever page of the process such a frame holds,
    be it that first page or, where the entry is stale, any other, is no longer
    in memory after the exit, its frame is free, and it was not written to the
    swap file. *)
Theorem Exit_drops_pages_in_use s s' t a id p e last i pt q ie :
  threads s !! t = Some (a, id) -> pids s !! a = Some p -> 0 <= p -> processTable s !! Z.to_nat p = Some e ->
  numThreadsAlive e > 1 -> arr_get (threadStacks e) id = Ok last -> Exit_Syscall t s = Ok (s', tt) ->
  0 <= i < 8 -> lookup_pte (spaces (memory s)) a (last - i) = Some pt -> physicalPage (pte pt) = Z.of_nat q ->
  IPT (memory s) !! q = Some ie -> valid (ipte ie) = true -> use (ipte ie) = false -> space ie = a ->
  (forall v, ~ resident None (IPT (memory s')) a v q) /\ swapFile (memory s') = swapFile (memory s) /\ spaces (memory s') = spaces (memory s).
Proof.
  intros Ht Hp H0 He Halive Hlast HE Hi Hpt Hq Hie Hv Hu Hs. unfold Exit_Syscall in HE. revert HE. generalize (Z.to_nat NumPhysPages) as frames. intros frames.
  unfold sbind at 1, thread_of. rewrite Ht. cbn [deref rbind fst snd]. unfold sbind at 1, pid_of. rewrite Hp. cbn [deref rbind].
  unfold sbind at 1, entry. rewrite (arr_get_lookup _ p e) by (done || lia). cbn [rbind]. unfold sbind at 1, get.
  rewrite decide_False by lia. rewrite decide_False by lia. rewrite decide_True by lia.
  unfold sbind at 1, put_entry. rewrite arr_set_in by (apply lookup_lt_Some in He; lia). cbn [rbind].
  unfold sbind at 1, lift. rewrite Hlast. unfold sbind, on_vm. cbn [memory set_table set_counts]. change (Z.to_nat (Z.quot UserStackSize PageSize)) with 8%nat.
  destruct (free_stack 8 0 a last (memory s)) as [[m []]|] eqn:Hfree; [|done]. cbn [rbind]. intros [= <-]. cbn [memory set_threads set_memory].
  destruct (free_stack_drops 8 0 (memory s) m a last Hfree) as (Hsp & Hsw & _ & Hdrop). split_and!; try done.
  intros v (x & Hx & Hvx & _). rewrite (Hdrop i pt q ie) in Hx by (done || lia). injection Hx as <-. done.
Qed.

(** two threads of a process that fork at the same time can exceed the
    limit on threads. [Fork_Syscall] releases the lock between its check and
    the allocation of the number: when 99 numbers are taken, both pass the
    check; the second new thread has number 100, its start faults on the table
    of stacks, which has a hundred entries, and the next number, 101, passes
    every later check. *)
Theorem two_forks_exceed_MAX_THREADS s a p e t1 t2 t3 t4 id1 id2 :
  threads s !! t1 = Some (a, id1) -> threads s !! t2 = Some (a, id2) -> threads s !! t3 = None -> threads s !! t4 = None -> t3 <> t4 ->
  pids s !! a = Some p -> 0 <= p -> processTable s !! Z.to_nat p = Some e ->
  nextThreadID e = MAX_THREADS - 1 -> Z.of_nat (length (threadStacks e)) = MAX_THREADS ->
  exists s', (Fork_check t1 ;;; Fork_check t2 ;;; Fork_take t1 t3 ;;; Fork_take t2 t4) s = Ok (s', tt) /\
    threads s' !! t4 = Some (a, MAX_THREADS) /\ (forall vaddr r, Create_Kernel_Thread_Fork vaddr t4 s' <> Ok r) /\
    exists s'', Fork_check t1 s' = Ok (s'', tt).
Proof.
  intros H1 H2 H3 H4 Hne Hp H0 He Hn Hl. unfold MAX_THREADS in *. pose proof (lookup_lt_Some _ _ _ He) as Hlt.
  unfold sbind at 1. rewrite (Fork_check_run s t1 a id1 p e) by (done || (unfold MAX_THREADS; lia)).
  unfold sbind at 1. rewrite (Fork_check_run _ t2 a id2 p e) by (done || (unfold MAX_THREADS; lia)).
  unfold sbind at 1. rewrite (Fork_take_run _ t1 t3 a id1 p e) by done. cbn [processTable nextProcessID numLivingProcesses pids threads forking memory set_forking].
  set (e1 := mkProcessEntry _ _ _ _).
  rewrite (Fork_take_run _ t2 t4 a id2 p e1); cbn [processTable nextProcessID numLivingProcesses pids threads forking memory set_forking];
    [|rewrite lookup_insert_ne by congruence; done|done|done|by apply list_lookup_insert_eq].
  eexists. split; [done|]. cbn [threads]. rewrite lookup_insert_eq. replace (nextThreadID e1) with 100 by (cbn; lia). split; [done|].
  split.
  - intros vaddr. eapply Create_Fork_beyond; cbn [threads pids processTable]; [apply lookup_insert_eq|exact Hp|done|apply list_lookup_insert_eq; by rewrite length_insert|cbn; lia].
  - eexists. eapply (Fork_check_run _ t1 a id1 p); cbn [threads pids processTable]; [|exact Hp|done|apply list_lookup_insert_eq; by rewrite length_insert|cbn; unfold MAX_THREADS; lia].
    rewrite !lookup_insert_ne by congruence. done.
Qed.
End Behaviour.

(** ** Witnesses *)

(** An executable of 100 bytes of code, 20 of data and 30 of zeros. *)
Definition small_executable : list Z :=
  [0xad; 0xdf; 0xba; 0; 0; 0; 0; 0; 40; 0; 0; 0; 100; 0; 0; 0; 0; 0; 0; 0; 140; 0; 0; 0; 20; 0; 0; 0] ++ replicate 8 0 ++ [30; 0; 0; 0].

Example AddrSpace_layout_witness : exists sp, AddrSpace_new [] (fun _ => 0) (Some small_executable) = Ok sp /\
  numExecutablePages sp = 2 /\ stack_page sp 99 = Z.of_nat (length (as_pageTable sp)).
Proof.
  destruct (AddrSpace_layout [] (fun _ => 0) small_executable
    (mkNoffHeader NOFFMAGIC (mkSegment 0 40 100) (mkSegment 0 140 20) (mkSegment 0 0 30))) as (sp & H & H1 & H2 & _ & H3).
  - vm_compute. reflexivity.
  - reflexivity.
  - split; [cbn; lia|]. cbn. lia.
  - cbn. lia.
  - exists sp. split; [exact H|]. assert (numExecutablePages sp = 2) as Hn by (unfold total_size, file_size in H1; cbn in H1; lia).
    split; [exact Hn|]. destruct (H3 99) as (_ & _ & _ & ->); [unfold MAX_THREADS; lia|]. rewrite H2, Hn. reflexivity.
Defined.

(** Thread 0 has started a program. *)
Definition one_process : Proc BitMap :=
  match new_process [] (fun _ => 0) 7 0 (Some small_executable) (Initialize (full 0) ∅) with Ok (s, _) => s | Fault _ => Initialize (full 0) ∅ end.

Lemma one_process_runs : new_process [] (fun _ => 0) 7 0 (Some small_executable) (Initialize (full 0) ∅) = Ok (one_process, 0).
Proof.
  unfold one_process. destruct (new_process _ _ _ _ _ _) as [[s p]|] eqn:E.
  - apply new_process_result in E as (_ & _ & -> & _). reflexivity.
  - exfalso. unfold new_process in E. unfold sbind at 1, lift in E. destruct (AddrSpace_new _ _ _) as [sp|] eqn:Ea; [|vm_compute in Ea; discriminate Ea].
    discriminate E.
Qed.

Lemma one_process_reachable : reachable [] (fun _ => 0) one_process.
Proof.
  exists (full 0). apply rtc_once. apply (step_new _ _ 7 0 (Some small_executable) 0); [reflexivity|reflexivity|exact one_process_runs].
Qed.

Lemma one_process_threads : threads one_process = {[ 0%nat := (7, 0) ]}.
Proof. destruct (new_process_result [] (fun _ => 0) _ _ _ _ _ _ one_process_runs) as (m & e & _ & _ & _ & He & ->). injection He as <-. reflexivity. Qed.

Example process_table_counts_witness : exists p e,
  pids one_process !! 7 = Some p /\ processTable one_process !! Z.to_nat p = Some e /\ numThreadsAlive e = 1.
Proof.
  destruct (process_table_counts [] (fun _ => 0) one_process one_process_reachable) as [_ H].
  destruct (H 0%nat 7 0) as (p & e & H1 & H2 & H3 & _).
  - rewrite one_process_threads. reflexivity.
  - exists p, e. split; [exact H1|]. split; [exact H2|]. rewrite H3. unfold threads_in. rewrite one_process_threads. reflexivity.
Defined.

Example Exit_halts_with_the_last_thread_witness : Exit_Syscall 0 one_process = Fault MachineHalt.
Proof.
  apply (Exit_halts_with_the_last_thread [] (fun _ => 0) one_process 0 7 0 one_process_reachable); rewrite one_process_threads; reflexivity.
Defined.

(** Space 1 has two threads, the first with its stack in pages 3 to 10; all its
    pages are in memory. Space 2 has one thread. *)
Definition busy_entry (alive next : Z) : ProcessEntry := mkProcessEntry alive 0 (10 :: replicate 99 0) next.
Definition two_processes (alive next : Z) : Proc BitMap :=
  mkProc (busy_entry alive next :: busy_entry 1 1 :: replicate 98 no_process) 2 2 {[ 1 := 0; 2 := 1 ]}
    {[ 0%nat := (1, 0); 1%nat := (1, 1); 2%nat := (2, 0) ]} ∅ (full 0).

Example Exit_frees_the_frames_of_the_process_witness : exists s' bl', Exit_Syscall 0 (two_processes 1 1) = Ok (s', tt) /\
  ba_rep (mainMemoryBitmap (memory s')) bl' /\ bl' !! 5%nat = Some false.
Proof.
  destruct (Exit_frees_the_frames_of_the_process (two_processes 1 1) 0 1 0 0 (busy_entry 1 1) all_taken) as (s' & bl' & H1 & _ & _ & H2 & _ & H3).
  - reflexivity.
  - reflexivity.
  - lia.
  - reflexivity.
  - reflexivity.
  - cbn. lia.
  - cbn. lia.
  - apply (inv_IPT _ _ _ _ _ _ (full_inv (text := [1]) 0 ltac:(cbn; lia))).
  - apply (inv_bitmap_length _ _ _ _ _ _ (full_inv (text := [1]) 0 ltac:(cbn; lia))).
  - apply (inv_bitmap _ _ _ _ _ _ (full_inv (text := [1]) 0 ltac:(cbn; lia))).
  - exists s', bl'. split; [exact H1|]. split; [exact H2|]. specialize (H3 5%nat (mkIPTE (frame_entry 5) 1)).
    destruct H3 as [_ H3]; [apply (full_frame 0 5); unfold NumPhysPages; lia|exact H3].
Defined.

Example Exit_drops_pages_in_use_witness : exists s', Exit_Syscall 0 (two_processes 2 2) = Ok (s', tt) /\
  forall v, ~ resident None (IPT (memory s')) 1 v 10.
Proof.
  destruct (Exit_Syscall 0 (two_processes 2 2)) as [[s' []]|e] eqn:E.
  - exists s'. split; [reflexivity|].
    apply (Exit_drops_pages_in_use (two_processes 2 2) s' 0 1 0 0 (busy_entry 2 2) 10 0 (mkPTE (frame_entry 10) IN_EXECUTABLE (10 * PageSize)) 10 (mkIPTE (frame_entry 10) 1)).
    + reflexivity.
    + reflexivity.
    + lia.
    + reflexivity.
    + cbn. lia.
    + reflexivity.
    + exact E.
    + lia.
    + apply (full_pte 0 1). split; [reflexivity|]. split; [unfold NumPhysPages; lia|reflexivity].
    + reflexivity.
    + apply (full_frame 0 10). unfold NumPhysPages. lia.
    + reflexivity.
    + reflexivity.
    + reflexivity.
  - exfalso. assert (match Exit_Syscall 0 (two_processes 2 2) with Ok _ => true | Fault _ => false end = true) as H by (vm_compute; reflexivity).
    rewrite E in H. discriminate H.
Defined.

Example two_forks_exceed_MAX_THREADS_witness : exists s',
  (Fork_check 0 ;;; Fork_check 1 ;;; Fork_take 0 3 ;;; Fork_take 1 4) (two_processes 2 99) = Ok (s', tt) /\ threads s' !! 4%nat = Some (1, 100).
Proof.
  destruct (two_forks_exceed_MAX_THREADS (two_processes 2 99) 1 0 (busy_entry 2 99) 0 1 3 4 0 1) as (s' & H1 & H2 & _).
  - reflexivity.
  - reflexivity.
  - reflexivity.
  - reflexivity.
  - lia.
  - reflexivity.
  - lia.
  - reflexivity.
  - reflexivity.
  - reflexivity.
  - exists s'. split; [exact H1|exact H2].
Defined.
