(* ===== verification/Coff2Noff.v ===== *)
(** * bin/coff2noff.c: from the linker's output to what the kernel loads

    [main] reads a COFF file with its section headers and writes a NOFF file: a
    header with the three segments, then the bytes of the code and of the
    initialised data. [AddrSpace::AddrSpace] (Process) reads that header, and the
    page fault handler the pages behind it; the last theorem composes the two.
    The host is little-endian and its [long] has 32 bits, as bin/coff.h assumes
    when it declares the members of the file's structures so. *)
From Stdlib Require Import String Ascii.
From S2P Require Import Prelude CStrings BitMap Machine VM PageFault Process.

Definition MIPSELMAGIC : Z := 0x162.
Definition OMAGIC : Z := 263.

(** ** bin/coff.h *)

(** Of [struct scnhdr], what [main] uses. *)
Record scnhdr := mkScnhdr { s_name : list Z; s_paddr : Z; s_size : Z; s_scnptr : Z }.

(** Bytes [i] to [i + n] of a structure, as a little-endian number. *)
Definition field (bs : list Z) (i n : nat) : Z := le_value (take n (drop i bs)).

Definition scnhdr_at (bs : list Z) : scnhdr := mkScnhdr (i8 <$> take 8 bs) (i32 (field bs 8 4)) (i32 (field bs 16 4)) (i32 (field bs 20 4)).

(** ** The program: it ends with a file, or removes it and exits with 1 *)

Inductive error :=
  | FileTooShort
  | NotMIPSEL
  | NotOMAGIC
  | BothDataAndRdata
  | BothBssAndSbss
  | UnknownSegment (name : list Z).

Inductive stop :=
  | Exit1 (e : error)
  | Undefined (f : fault).

(** The positions in the two files, and the file written so far. *)
Record Conv := mkConv { inPos : Z; outPos : Z; outFile : list Z }.

Definition C (A : Type) : Type := Conv -> stop + (Conv * A).

Definition cret {A} (a : A) : C A := fun s => inr (s, a).
Definition cbind {A B} (m : C A) (k : A -> C B) : C B := fun s => match m s with inr (s, a) => k a s | inl e => inl e end.
Definition exit_1 {A} (e : error) : C A := fun _ => inl (Exit1 e).
Definition run_res {A} (r : res A) : C A := fun s => match r with Ok a => inr (s, a) | Fault f => inl (Undefined f) end.

Declare Scope coff_scope.
Notation "x <- m ;; k" := (cbind m (fun x => k)) (at level 100, m at next level, right associativity) : coff_scope.
Notation "m ;;; k" := (cbind m (fun _ => k)) (at level 100, right associativity) : coff_scope.
#[local] Open Scope coff_scope.

Section Convert.
  (** The COFF file; what the members of [noffH] hold before they are set. *)
  Context (coff : list Z) (garbage : NoffHeader).

(** [lseek] to a negative position fails and moves nothing; nobody looks. *)
Definition lseek_in (pos : Z) : C unit := fun s => inr (if decide (0 <= pos) then mkConv pos (outPos s) (outFile s) else s, tt).
Definition lseek_out (pos : Z) : C unit := fun s => inr (if decide (0 <= pos) then mkConv (inPos s) pos (outFile s) else s, tt).

(** [read] of a negative number of bytes fails with -1, which [Read] takes for
    success when that was the number. *)
Definition Read (nBytes : Z) : C (list Z) := fun s =>
  if decide (nBytes = -1) then inr (s, [])
  else if decide (nBytes < 0) then inl (Exit1 FileTooShort)
  else
    let bs := take (Z.to_nat nBytes) (drop (Z.to_nat (inPos s)) coff) in
    if decide (Z.of_nat (List.length bs) = nBytes) then inr (mkConv (inPos s + nBytes) (outPos s) (outFile s), bs)
    else inl (Exit1 FileTooShort).

(** The host's disk has room for what is written. *)
Definition Write (bs : list Z) : C unit := fun s =>
  match WriteAt (outFile s) bs (outPos s) with
  | Ok f => inr (mkConv (inPos s) (outPos s + Z.of_nat (List.length bs)) f, tt)
  | Fault f => inl (Undefined f)
  end.

Definition literal (s : string) : list Z := ((fun c => Z.of_nat (nat_of_ascii c)) <$> list_ascii_of_string s) ++ [0].

(** [!strcmp(sections[i].s_name, s)] *)
Definition named (s : scnhdr) (name : string) : C bool := run_res (strcmp_eq (s_name s) (literal name)).

(** The copy of a segment: its bytes are appended to the NOFF file. *)
Definition copy_segment (s : scnhdr) : C unit :=
  lseek_in (s_scnptr s) ;;; bs <- Read (s_size s) ;; Write bs.

Definition set_code (g : Segment) (h : NoffHeader) : NoffHeader := mkNoffHeader (noffMagic h) g (initData h) (uninitData h).
Definition set_initData (g : Segment) (h : NoffHeader) : NoffHeader := mkNoffHeader (noffMagic h) (code h) g (uninitData h).
Definition set_uninitData (g : Segment) (h : NoffHeader) : NoffHeader := mkNoffHeader (noffMagic h) (code h) (initData h) g.

(** The body of the loop over the sections, with [noffH] and [inNoffFile]. *)
Definition load_section (h : NoffHeader) (inNoffFile : Z) (s : scnhdr) : C (NoffHeader * Z) :=
  if decide (s_size s = 0) then cret (h, inNoffFile)
  else
    is_text <- named s ".text" ;;
    if is_text : bool then
      copy_segment s ;;;
      cret (set_code (mkSegment (s_paddr s) inNoffFile (s_size s)) h, i32 (inNoffFile + s_size s))
    else
      is_data <- named s ".data" ;;
      is_rdata <- (if is_data : bool then cret true else named s ".rdata") ;;
      if is_rdata : bool then
        if decide (seg_size (initData h) <> 0) then exit_1 BothDataAndRdata
        else
          copy_segment s ;;;
          cret (set_initData (mkSegment (s_paddr s) inNoffFile (s_size s)) h, i32 (inNoffFile + s_size s))
      else
        is_bss <- named s ".bss" ;;
        is_sbss <- (if is_bss : bool then cret true else named s ".sbss") ;;
        if is_sbss : bool then
          let u := uninitData h in
          if decide (seg_size u <> 0) then
            if decide (s_paddr s = i32 (virtualAddr u + seg_size u)) then exit_1 BothBssAndSbss
            else cret (set_uninitData (mkSegment (virtualAddr u) (inFileAddr u) (i32 (seg_size u + s_size s))) h, inNoffFile)
          else cret (set_uninitData (mkSegment (s_paddr s) (inFileAddr u) (s_size s)) h, inNoffFile)
        else exit_1 (UnknownSegment (cstring (s_name s))).

Fixpoint load_sections (h : NoffHeader) (inNoffFile : Z) (l : list scnhdr) : C NoffHeader :=
  match l with
  | [] => cret h
  | s :: l => r <- load_section h inNoffFile s ;; load_sections r.1 r.2 l
  end.

Definition sizeof_filehdr : Z := 20.
Definition sizeof_aouthdr : Z := 56.
Definition sizeof_scnhdr : Z := 40.
Definition sizeof_NoffHeader : Z := 40.

Definition segment_bytes (g : Segment) : list Z := int_bytes (virtualAddr g) ++ int_bytes (inFileAddr g) ++ int_bytes (seg_size g).
Definition header_bytes (h : NoffHeader) : list Z :=
  int_bytes (noffMagic h) ++ segment_bytes (code h) ++ segment_bytes (initData h) ++ segment_bytes (uninitData h).

(** Nothing but the sizes is initialised. *)
Definition first_header : NoffHeader :=
  let clear g := mkSegment (virtualAddr g) (inFileAddr g) 0 in
  mkNoffHeader NOFFMAGIC (clear (code garbage)) (clear (initData garbage)) (clear (uninitData garbage)).

Definition read_sections : C (list scnhdr) :=
  fileh <- Read sizeof_filehdr ;;
  if decide (field fileh 0 2 <> MIPSELMAGIC) then exit_1 NotMIPSEL
  else
    systemh <- Read sizeof_aouthdr ;;
    if decide (field systemh 0 2 <> OMAGIC) then exit_1 NotOMAGIC
    else
      let numsections := field fileh 2 2 in
      bs <- Read (numsections * sizeof_scnhdr) ;;
      cret ((fun i => scnhdr_at (drop (i * 40) bs)) <$> seq 0 (Z.to_nat numsections)).

Definition main : C unit :=
  sections <- read_sections ;;
  lseek_out sizeof_NoffHeader ;;;
  h <- load_sections first_header sizeof_NoffHeader sections ;;
  lseek_out 0 ;;;
  Write (header_bytes h).

(** The file that is left, from an empty one. *)
Definition coff2noff : stop + list Z :=
  match main (mkConv 0 0 []) with inr (s, _) => inr (outFile s) | inl e => inl e end.
End Convert.

(** * Lemmas *)

Section Lemmas.
  Context (coff : list Z) (garbage : NoffHeader).
  Implicit Types (s : scnhdr) (h : NoffHeader) (st : Conv).

(** The name of a section, with its NUL. *)
Definition has_name s (name : string) : Prop := terminated (s_name s) /\ cstring (s_name s) = cstring (literal name).

Lemma named_ok s name n : has_name s name -> named s n = fun st => inr (st, bool_decide (cstring (literal name) = cstring (literal n))).
Proof.
  intros [Ht Hn]. unfold named. rewrite strcmp_eq_spec; [by rewrite Hn|done|]. unfold literal, terminated. apply elem_of_app. right. by left.
Qed.

(** The bytes of a section, all of them in the file. *)
Definition in_file s : Prop := 0 <= s_scnptr s /\ 0 < s_size s /\ s_scnptr s + s_size s <= Z.of_nat (List.length coff).
Definition raw_data s : list Z := take (Z.to_nat (s_size s)) (drop (Z.to_nat (s_scnptr s)) coff).

Lemma raw_data_length s : in_file s -> List.length (raw_data s) = Z.to_nat (s_size s).
Proof. intros (H1 & H2 & H3). unfold raw_data. rewrite length_take, length_drop. lia. Qed.

(** Writing at the end of the file, or behind it. *)
Definition padded st : list Z := outFile st ++ replicate (Z.to_nat (outPos st) - List.length (outFile st)) 0.

Lemma copy_segment_ok s st : in_file s -> (List.length (outFile st) <= Z.to_nat (outPos st))%nat -> 0 <= outPos st -> exists p,
  copy_segment coff s st = inr (mkConv p (outPos st + s_size s) (padded st ++ raw_data s), tt).
Proof.
  intros Hs Hl Hp. pose proof (raw_data_length s Hs) as Hr. destruct Hs as (H1 & H2 & H3).
  unfold copy_segment, cbind at 1, lseek_in. rewrite decide_True by done. unfold cbind at 1, Read. cbn [inPos outPos outFile].
  rewrite !decide_False by lia. fold (raw_data s). rewrite decide_True by lia.
  unfold Write. cbn [inPos outPos outFile]. unfold WriteAt, ASSERT. rewrite bool_decide_eq_true_2 by lia. cbn [rbind].
  fold (padded st). assert (List.length (padded st) = Z.to_nat (outPos st)) as Hlp by (unfold padded; rewrite length_app, length_replicate; lia).
  rewrite Hr, take_ge, (drop_ge (padded st)), app_nil_r by lia. rewrite Z2Nat.id by lia. by eexists.
Qed.

(** Sections without contents are skipped. *)
Lemma load_sections_filter l : forall h n st,
  load_sections coff h n l st = load_sections coff h n (filter (fun s => s_size s <> 0) l) st.
Proof.
  induction l as [|s l IH]; intros h n st; [done|]. rewrite filter_cons. case_decide as Hs; cbn [load_sections].
  - unfold cbind. destruct (load_section coff h n s st) as [e|[st' [h' n']]]; [done|]. apply IH.
  - unfold cbind at 1, load_section. rewrite decide_True by done. apply IH.
Qed.

Lemma load_text h n s st : has_name s ".text" -> in_file s -> (List.length (outFile st) <= Z.to_nat (outPos st))%nat -> 0 <= outPos st -> exists p,
  load_section coff h n s st = inr (mkConv p (outPos st + s_size s) (padded st ++ raw_data s), (set_code (mkSegment (s_paddr s) n (s_size s)) h, i32 (n + s_size s))).
Proof.
  intros Hn Hs Hl Hp. destruct (copy_segment_ok s st Hs Hl Hp) as [p Hc]. exists p. unfold load_section. destruct Hs as (_ & Hs & _).
  rewrite decide_False by lia. unfold cbind. rewrite (named_ok _ _ _ Hn), bool_decide_eq_true_2 by done. by rewrite Hc.
Qed.

Lemma load_data h n s st name : has_name s name -> name = ".data"%string \/ name = ".rdata"%string -> seg_size (initData h) = 0 -> in_file s ->
  (List.length (outFile st) <= Z.to_nat (outPos st))%nat -> 0 <= outPos st -> exists p,
  load_section coff h n s st = inr (mkConv p (outPos st + s_size s) (padded st ++ raw_data s), (set_initData (mkSegment (s_paddr s) n (s_size s)) h, i32 (n + s_size s))).
Proof.
  intros Hn Hname Hi Hs Hl Hp. destruct (copy_segment_ok s st Hs Hl Hp) as [p Hc]. exists p. unfold load_section. destruct Hs as (_ & Hs & _).
  rewrite decide_False by lia. unfold cbind.
  destruct Hname as [-> | ->]; rewrite !(named_ok _ _ _ Hn); repeat (rewrite bool_decide_eq_false_2 by done); repeat (rewrite bool_decide_eq_true_2 by done);
    cbv beta iota delta [cret]; (rewrite decide_False by lia); by rewrite Hc.
Qed.

(** A section of uninitialised data is only recorded. *)
Lemma load_bss h n s st name : has_name s name -> name = ".bss"%string \/ name = ".sbss"%string -> s_size s <> 0 ->
  load_section coff h n s st =
    let u := uninitData h in
    if decide (seg_size u <> 0) then
      if decide (s_paddr s = i32 (virtualAddr u + seg_size u)) then inl (Exit1 BothBssAndSbss)
      else inr (st, (set_uninitData (mkSegment (virtualAddr u) (inFileAddr u) (i32 (seg_size u + s_size s))) h, n))
    else inr (st, (set_uninitData (mkSegment (s_paddr s) (inFileAddr u) (s_size s)) h, n)).
Proof.
  intros Hn Hname Hs. unfold load_section. rewrite decide_False by done.
  destruct Hname as [-> | ->]; unfold cbind; rewrite !(named_ok _ _ _ Hn); repeat (rewrite bool_decide_eq_false_2 by done); repeat (rewrite bool_decide_eq_true_2 by done);
    cbv zeta; by repeat case_decide.
Qed.

(** Reading leaves the output alone. *)
Definition reads {A} (c : C A) : Prop := forall st st' a, c st = inr (st', a) -> outPos st' = outPos st /\ outFile st' = outFile st.

Lemma reads_bind {A B} (c : C A) (k : A -> C B) : reads c -> (forall a, reads (k a)) -> reads (cbind c k).
Proof.
  intros Hc Hk st st' b H. unfold cbind in H. destruct (c st) as [|[s1 a]] eqn:E; [done|].
  destruct (Hc _ _ _ E) as [<- <-]. exact (Hk a _ _ _ H).
Qed.

Lemma reads_Read n : reads (Read coff n).
Proof. intros st st' a H. unfold Read in H. repeat case_decide; by simplify_eq. Qed.

Lemma reads_sections : reads (read_sections coff).
Proof.
  apply reads_bind; [apply reads_Read|]. intros a. case_decide; [by intros ? ? ?|].
  apply reads_bind; [apply reads_Read|]. intros b. case_decide; [by intros ? ? ?|].
  apply reads_bind; [apply reads_Read|]. intros c st st' x. unfold cret. by intros [= -> _].
Qed.

(** ** A program as the linker leaves it

    Its sections that are not empty: the code [t], initialised data [ds], at
    most one section, and uninitialised data [bs], at most one. *)
Record linked (l : list scnhdr) (t : scnhdr) (ds bs : list scnhdr) : Prop := {
  linked_sections : filter (fun s => s_size s <> 0) l = t :: ds ++ bs;
  linked_text : has_name t ".text" /\ in_file t;
  linked_data : match ds with [] => True | [d] => (has_name d ".data" \/ has_name d ".rdata") /\ in_file d | _ => False end;
  linked_bss : match bs with [] => True | [b] => (has_name b ".bss" \/ has_name b ".sbss") /\ 0 < s_size b | _ => False end
}.

(** The code and initialised data as they are placed in memory. *)
Definition image (t : scnhdr) (ds : list scnhdr) : list Z := raw_data t ++ (ds ≫= raw_data).

Definition noff_header (t : scnhdr) (ds bs : list scnhdr) : NoffHeader :=
  mkNoffHeader NOFFMAGIC (mkSegment (s_paddr t) 40 (s_size t))
    (match ds with d :: _ => mkSegment (s_paddr d) (i32 (40 + s_size t)) (s_size d) | [] => initData (first_header garbage) end)
    (match bs with b :: _ => mkSegment (s_paddr b) (inFileAddr (uninitData garbage)) (s_size b) | [] => uninitData (first_header garbage) end).

Lemma load_linked l t ds bs st : linked l t ds bs -> outFile st = [] -> outPos st = 40 -> exists p q,
  load_sections coff (first_header garbage) 40 l st = inr (mkConv p q (replicate 40 0 ++ image t ds), noff_header t ds bs).
Proof.
  intros [Hl [Hn Ht] Hd Hb] Hf Hp. rewrite load_sections_filter, Hl. cbn [load_sections]. unfold cbind at 1.
  destruct (load_text (first_header garbage) 40 t st Hn Ht) as [p ->]; [rewrite Hf; cbn; lia|lia|]. cbn [fst snd].
  unfold padded. rewrite Hf, Hp. cbn [app List.length]. change (Z.to_nat 40 - 0)%nat with 40%nat.
  pose proof (raw_data_length t Ht) as Hrt. destruct Ht as (Ht1 & Ht2 & Ht3).
  set (h1 := set_code _ _). set (f1 := replicate 40 0 ++ raw_data t).
  assert (List.length f1 = (40 + Z.to_nat (s_size t))%nat) as Hf1 by (subst f1; by rewrite length_app, length_replicate, Hrt).
  assert (forall h n st, initData h = initData (noff_header t ds bs) -> code h = code (noff_header t ds bs) -> noffMagic h = NOFFMAGIC ->
    uninitData h = uninitData (first_header garbage) -> load_sections coff h n bs st = inr (st, noff_header t ds bs)) as Hbss.
  { intros h n s0 E1 E2 E3 E4. destruct bs as [|b [|? ?]]; [| |done]; cbn [load_sections].
    - unfold cret. do 2 f_equal. destruct h; cbn in *. by subst.
    - destruct Hb as [Hb Hbs]. unfold cbind. assert (exists name, has_name b name /\ (name = ".bss"%string \/ name = ".sbss"%string)) as (name & Hnm & Hor)
        by (destruct Hb; eauto).
      rewrite (load_bss h n b s0 name) by (done || lia). rewrite E4. cbv zeta. rewrite decide_False by (cbn; lia).
      unfold cret. cbn [fst snd]. do 2 f_equal. destruct h; cbn in *. by subst. }
  destruct ds as [|d [|? ?]]; [| |done]; cbn [app].
  - rewrite Hbss by done. unfold image. cbn [mbind list_bind]. rewrite app_nil_r. by eexists _, _.
  - destruct Hd as [Hd Hdin]. cbn [load_sections]. unfold cbind at 1.
    assert (exists name, has_name d name /\ (name = ".data"%string \/ name = ".rdata"%string)) as (name & Hnm & Hor) by (destruct Hd; eauto).
    destruct (load_data h1 (i32 (40 + s_size t)) d (mkConv p (40 + s_size t) f1) name Hnm Hor) as [p' ->];
      [done|done|cbn [outFile outPos]; lia|cbn [outPos]; lia|].
    cbn [fst snd]. rewrite Hbss by done. unfold padded. cbn [outFile outPos]. rewrite Hf1.
    replace (Z.to_nat (40 + s_size t) - (40 + Z.to_nat (s_size t)))%nat with 0%nat by lia. cbn [replicate]. rewrite app_nil_r.
    unfold image. cbn [mbind list_bind]. rewrite app_nil_r. subst f1. rewrite <-app_assoc. by eexists _, _.
Qed.
End Lemmas.

(** ** The header, as the kernel reads it *)

Definition segment_ok (g : Segment) : Prop := in_i32 (virtualAddr g) /\ in_i32 (inFileAddr g) /\ in_i32 (seg_size g).
Definition words_ok (h : NoffHeader) : Prop :=
  in_i32 (noffMagic h) /\ segment_ok (code h) /\ segment_ok (initData h) /\ segment_ok (uninitData h).

Lemma header_bytes_length h : List.length (header_bytes h) = 40%nat.
Proof. done. Qed.

(** The four bytes of an [int] make it again. *)
Lemma word_of_bytes x : in_i32 x ->
  i32 (u8 (u32 x) + u8 (Z.shiftr (u32 x) 8) * 2 ^ 8 + u8 (Z.shiftr (Z.shiftr (u32 x) 8) 8) * 2 ^ 16 +
       u8 (Z.shiftr (Z.shiftr (Z.shiftr (u32 x) 8) 8) 8) * 2 ^ 24) = x.
Proof.
  intros Hx. pose proof (le_value_bytes 4 (u32 x)) as H. change (2 ^ (8 * Z.of_nat 4)) with (2 ^ 32) in H. change (u32 x mod 2 ^ 32) with (u32 (u32 x)) in H.
  rewrite (u32_id (u32 x)) in H by apply u32_range. cbn [le_bytes le_value] in H.
  assert (forall y, u8 (u8 y) = u8 y) as Hu by (intros y; unfold u8; by rewrite Z.mod_mod by lia). rewrite !Hu in H.
  etrans; [|by apply (i32_id x)]. rewrite <-(i32_u32 x). f_equal. etrans; [|exact H]. ring.
Qed.

Lemma read_header_bytes g h rest : words_ok h -> read_header g (header_bytes h ++ rest) = Ok h.
Proof.
  intros (Hm & (H1 & H2 & H3) & (H4 & H5 & H6) & (H7 & H8 & H9)). unfold read_header, ReadAt, ASSERT. rewrite bool_decide_eq_true_2 by done. cbn [rbind].
  change (Z.to_nat 0) with 0%nat. rewrite drop_0, take_app_length' by done. change (Z.to_nat 40) with 40%nat.
  unfold segment_at, word_at, header_bytes, segment_bytes, int_bytes. cbn [word_bytes little_endian le_bytes app Nat.mul Nat.add nth].
  rewrite !word_of_bytes by done. by destruct h as [? [] [] []].
Qed.

(** The converted file of a linked program. *)
Lemma converted_file coff garbage st l t ds bs : read_sections coff (mkConv 0 0 []) = inr (st, l) -> linked coff l t ds bs ->
  coff2noff coff garbage = inr (header_bytes (noff_header garbage t ds bs) ++ image coff t ds).
Proof.
  intros Hs Hl. destruct (reads_sections coff _ _ _ Hs) as [Hp Hf].
  unfold coff2noff, main. unfold cbind at 1. rewrite Hs. unfold cbind at 1, lseek_out at 1. rewrite decide_True by done.
  unfold cbind at 1. destruct (load_linked coff garbage l t ds bs (mkConv (inPos st) 40 (outFile st)) Hl) as (p & q & Hload); [done..|].
  unfold sizeof_NoffHeader. rewrite Hload. unfold cbind at 1, lseek_out. rewrite decide_True by done. cbn [inPos outPos outFile].
  unfold Write. cbn [inPos outPos outFile]. unfold WriteAt, ASSERT. rewrite bool_decide_eq_true_2 by done. cbn [rbind outFile].
  change (Z.to_nat 0) with 0%nat. rewrite header_bytes_length. cbn [Nat.sub Nat.add replicate take]. rewrite app_nil_r.
  by rewrite drop_app_length' by done.
Qed.

(** Where a byte of a section is in the image. *)
Lemma image_at coff garbage l t ds bs s i b : linked coff l t ds bs -> s_paddr t = 0 -> Forall (fun d => s_paddr d = s_size t) ds ->
  s ∈ t :: ds -> raw_data coff s !! i = Some b ->
  let va := s_paddr s + Z.of_nat i in
  0 <= va /\ image coff t ds !! Z.to_nat va = Some b /\ va < file_size (noff_header garbage t ds bs).
Proof.
  intros [_ [_ Ht] Hd _] Hz Hds Hin Hb. cbv zeta. pose proof (lookup_lt_Some _ _ _ Hb) as Hi. pose proof (raw_data_length coff t Ht) as Hlt.
  pose proof Ht as (_ & Ht2 & _). unfold image. apply elem_of_cons in Hin as [->|Hin].
  - rewrite Hz. rewrite Z.add_0_l, Nat2Z.id, lookup_app_l by done. split; [lia|]. split; [done|]. unfold file_size. cbn.
    destruct ds as [|d [|? ?]]; [cbn; lia| |done]. destruct Hd as [_ (_ & ? & _)]. cbn. lia.
  - destruct ds as [|d [|? ?]]; [by apply elem_of_nil in Hin| |done]. apply list_elem_of_singleton in Hin as ->. destruct Hd as [_ Hd].
    rewrite (raw_data_length coff d Hd) in Hi. apply Forall_cons in Hds as [Hds _]. rewrite Hds. split; [lia|]. cbn [mbind list_bind].
    rewrite app_nil_r, lookup_app_r by lia. split; [|unfold file_size; cbn; lia]. rewrite <-Hb. f_equal. lia.
Qed.

(** A page of the file part of a program. *)
Lemma executable_page h gp v : header_ok h -> inFileAddr (code h) = 40 -> 0 <= v -> PageSize * v < file_size h -> exists pt,
  new_page_table h gp !! Z.to_nat v = Some pt /\ location pt = IN_EXECUTABLE /\ offset pt = 40 + PageSize * v.
Proof.
  intros Hok Hf Hv Hlt. destruct (sizes_i32 h Hok) as (H1 & _). pose proof Hok as (Hc & Hi & Hu & Hsum). pose proof (num_pages_eq h Hok) as Hn.
  pose proof (divRoundUp_bounds (total_size h) PageSize) as Hb. pose proof (divRoundUp_bounds (file_size h) PageSize) as Hfb.
  unfold total_size, file_size in Hb, Hfb. change PageSize with 128 in *. specialize (Hb ltac:(lia) ltac:(lia)). specialize (Hfb ltac:(lia) ltac:(lia)).
  fold (file_size h) in Hfb, Hb. change (file_size h + seg_size (uninitData h)) with (total_size h) in *.
  assert (0 <= file_size h <= total_size h /\ total_size h < 2 ^ 30) as Hsz by (unfold total_size, file_size; lia). unfold MAX_THREADS in Hn.
  eexists. unfold new_page_table. rewrite H1, list_lookup_fmap, lookup_seq_lt by (unfold divRoundUp in *; lia). split; [done|].
  cbn [new_entry location offset]. rewrite Nat.add_0_l, Z2Nat.id, (u32_id (divRoundUp (file_size h) PageSize)) by (change PageSize with 128; unfold in_u32; lia).
  change PageSize with 128. rewrite decide_True by lia. split; [done|]. rewrite Hf. rewrite i32_id; [lia|]. unfold in_i32. lia.
Qed.

(** * Properties *)

(** the converter keeps what the linker made. For a COFF file whose
    non-empty sections are code, at most one of initialised and at most one of
    uninitialised data, it writes a NOFF file: a header that the kernel reads
    back, with the address and size of each segment, and behind it the bytes of
    the code and of the initialised data, at the positions the header gives. *)
Theorem coff2noff_keeps_the_segments coff garbage st l t ds bs : read_sections coff (mkConv 0 0 []) = inr (st, l) -> linked coff l t ds bs ->
  words_ok (noff_header garbage t ds bs) ->
  coff2noff coff garbage = inr (header_bytes (noff_header garbage t ds bs) ++ image coff t ds) /\
  forall g, read_header g (header_bytes (noff_header garbage t ds bs) ++ image coff t ds) = Ok (noff_header garbage t ds bs).
Proof.
  intros Hs Hl Hw. split; [by eapply converted_file|by intros; apply read_header_bytes].
Qed.

(** C38: a program that was linked for address 0 runs. If the code is linked at 0
    and the initialised data right behind it, the address space the kernel makes
    from the converted file finds every byte of the program where it was linked:
    the page of the byte is to be read from the executable, and the read gives
    the byte at its place in the page. *)
Theorem converted_program_is_paged_in coff garbage st l t ds bs g gp : read_sections coff (mkConv 0 0 []) = inr (st, l) -> linked coff l t ds bs ->
  words_ok (noff_header garbage t ds bs) -> header_ok (noff_header garbage t ds bs) ->
  s_paddr t = 0 -> Forall (fun d => s_paddr d = s_size t) ds ->
  exists exe sp, coff2noff coff garbage = inr exe /\ AddrSpace_new g gp (Some exe) = Ok sp /\
    forall s i b, s ∈ t :: ds -> raw_data coff s !! i = Some b -> let va := s_paddr s + Z.of_nat i in
      exists pt bytes, as_pageTable sp !! Z.to_nat (va / PageSize) = Some pt /\ location pt = IN_EXECUTABLE /\
        ReadAt (executable sp) PageSize (offset pt) = Ok bytes /\ bytes !! Z.to_nat (va mod PageSize) = Some b.
Proof.
  intros Hs Hl Hw Hok Ht Hds. set (h := noff_header garbage t ds bs) in *. set (exe := header_bytes h ++ image coff t ds).
  assert (coff2noff coff garbage = inr exe) as Hc by by eapply converted_file.
  assert (AddrSpace_new g gp (Some exe) = Ok (mkAddrSpace (new_page_table h gp) (divRoundUp (i32 (i32 (seg_size (code h) + seg_size (initData h)) +
    seg_size (uninitData h))) PageSize) exe)) as Hsp.
  { unfold AddrSpace_new. cbn [deref rbind]. unfold exe. rewrite read_header_bytes by done. cbn [rbind].
    by rewrite bool_decide_eq_true_2 by done. }
  eexists exe, _. split; [done|]. split; [exact Hsp|]. cbv zeta. cbn [as_pageTable executable]. intros s i b Hin Hb.
  destruct (image_at coff garbage l t ds bs s i b Hl Ht Hds Hin Hb) as (Hva & Himg & Hsz). fold h in Hsz.
  set (va := s_paddr s + Z.of_nat i) in *. destruct (executable_page h gp (va / PageSize) Hok) as (pt & Hpt & Hloc & Hoff).
  { done. }
  { by apply Z.div_pos. }
  { pose proof (Z.mul_div_le va PageSize ltac:(done)). lia. }
  exists pt. rewrite Hoff. unfold ReadAt, ASSERT. change (inFileAddr (code h)) with 40. assert (0 <= va / PageSize) by (apply Z.div_pos; done).
  rewrite bool_decide_eq_true_2 by (unfold PageSize, SectorSize in *; lia). cbn [rbind]. eexists. split_and!; [done..|].
  pose proof (Z.mod_pos_bound va PageSize ltac:(done)) as Hm. pose proof (Z.div_mod va PageSize ltac:(done)) as Hd.
  rewrite lookup_take_lt by lia. rewrite lookup_drop. unfold exe. change PageSize with 128 in *.
  rewrite lookup_app_r by (rewrite header_bytes_length; lia). rewrite header_bytes_length.
  replace (Z.to_nat (40 + 128 * (va / 128)) + Z.to_nat (va mod 128) - 40)%nat with (Z.to_nat va) by lia. done.
Qed.

(** the test for contiguous uninitialised data is the wrong way round. A
    second section of it is refused when it starts where the first ends, which
    the comment above the test asks for; when it starts anywhere else, the sizes
    are added, and the segment that is recorded does not cover it. *)
Theorem bss_contiguity_is_inverted coff h n s st name : has_name s name -> name = ".bss"%string \/ name = ".sbss"%string -> s_size s <> 0 ->
  seg_size (uninitData h) <> 0 -> let u := uninitData h in
  load_section coff h n s st =
    if decide (s_paddr s = i32 (virtualAddr u + seg_size u)) then inl (Exit1 BothBssAndSbss)
    else inr (st, (set_uninitData (mkSegment (virtualAddr u) (inFileAddr u) (i32 (seg_size u + s_size s))) h, n)).
Proof. intros Hn Hname Hs Hu. rewrite (load_bss _ _ _ _ _ name) by done. cbv zeta. by rewrite decide_True. Qed.

(** ** Witnesses: three bytes of code, two of data, four of zeros *)

Definition demo_section (name : string) (paddr size scnptr : Z) : list Z :=
  take 8 (literal name ++ replicate 8 0) ++ int_bytes paddr ++ int_bytes paddr ++ int_bytes size ++ int_bytes scnptr ++ replicate 16 0.

Definition demo_coff : list Z :=
  [0x62; 1; 3; 0] ++ replicate 16 0 ++ [7; 1] ++ replicate 54 0 ++
  demo_section ".text" 0 3 196 ++ demo_section ".data" 3 2 199 ++ demo_section ".bss" 5 4 0 ++ [1; 2; 3; 4; 5].

Definition demo_garbage : NoffHeader := mkNoffHeader 9 (mkSegment 9 9 9) (mkSegment 9 9 9) (mkSegment 9 9 9).
Definition demo_text : scnhdr := mkScnhdr (take 8 (literal ".text" ++ replicate 8 0)) 0 3 196.
Definition demo_data : scnhdr := mkScnhdr (take 8 (literal ".data" ++ replicate 8 0)) 3 2 199.
Definition demo_bss : scnhdr := mkScnhdr (take 8 (literal ".bss" ++ replicate 8 0)) 5 4 0.

Lemma demo_named s name : s_name s = take 8 (literal name ++ replicate 8 0) -> bool_decide (0 ∈ take 8 (literal name ++ replicate 8 0)) = true ->
  cstring (take 8 (literal name ++ replicate 8 0)) = cstring (literal name) -> has_name s name.
Proof. intros Hs H0 Hc. split; rewrite Hs; [by apply bool_decide_eq_true in H0|done]. Qed.

Lemma demo_linked : linked demo_coff [demo_text; demo_data; demo_bss] demo_text [demo_data] [demo_bss].
Proof.
  split.
  - reflexivity.
  - split; [by apply demo_named|]. split; cbn; lia.
  - split; [left; by apply demo_named|]. split; cbn; lia.
  - split; [left; by apply demo_named|]. cbn. lia.
Qed.

Lemma demo_header : noff_header demo_garbage demo_text [demo_data] [demo_bss] =
  mkNoffHeader NOFFMAGIC (mkSegment 0 40 3) (mkSegment 3 43 2) (mkSegment 5 9 4).
Proof. reflexivity. Qed.

Example coff2noff_keeps_the_segments_witness : coff2noff demo_coff demo_garbage =
  inr (header_bytes (mkNoffHeader NOFFMAGIC (mkSegment 0 40 3) (mkSegment 3 43 2) (mkSegment 5 9 4)) ++ [1; 2; 3; 4; 5]).
Proof.
  destruct (coff2noff_keeps_the_segments demo_coff demo_garbage (mkConv 196 0 []) [demo_text; demo_data; demo_bss] demo_text [demo_data] [demo_bss]) as [H _].
  - reflexivity.
  - exact demo_linked.
  - rewrite demo_header. unfold words_ok, segment_ok, in_i32, NOFFMAGIC. cbn. lia.
  - exact H.
Defined.

Example converted_program_is_paged_in_witness : exists exe sp, coff2noff demo_coff demo_garbage = inr exe /\
  AddrSpace_new [] (fun _ => 0) (Some exe) = Ok sp /\
  exists pt bytes, as_pageTable sp !! 0%nat = Some pt /\ ReadAt (executable sp) PageSize (offset pt) = Ok bytes /\ bytes !! 4%nat = Some 5.
Proof.
  destruct (converted_program_is_paged_in demo_coff demo_garbage (mkConv 196 0 []) [demo_text; demo_data; demo_bss] demo_text [demo_data] [demo_bss] [] (fun _ => 0))
    as (exe & sp & H1 & H2 & H3).
  - reflexivity.
  - exact demo_linked.
  - rewrite demo_header. unfold words_ok, segment_ok, in_i32, NOFFMAGIC. cbn. lia.
  - rewrite demo_header. unfold header_ok. cbn. lia.
  - reflexivity.
  - repeat constructor.
  - exists exe, sp. split; [exact H1|]. split; [exact H2|]. destruct (H3 demo_data 1%nat 5) as (pt & bytes & H4 & _ & H5 & H6).
    + right. left.
    + reflexivity.
    + exists pt, bytes. split; [exact H4|]. split; [exact H5|exact H6].
Defined.

(** [.sbss] right behind [.bss]. *)
Example bss_contiguity_is_inverted_witness :
  load_section demo_coff (mkNoffHeader NOFFMAGIC (mkSegment 0 40 3) (mkSegment 3 43 2) (mkSegment 5 9 4)) 45
    (mkScnhdr (take 8 (literal ".sbss" ++ replicate 8 0)) 9 4 0) (mkConv 0 0 []) = inl (Exit1 BothBssAndSbss).
Proof.
  rewrite (bss_contiguity_is_inverted demo_coff (mkNoffHeader NOFFMAGIC (mkSegment 0 40 3) (mkSegment 3 43 2) (mkSegment 5 9 4)) 45
    (mkScnhdr (take 8 (literal ".sbss" ++ replicate 8 0)) 9 4 0) (mkConv 0 0 []) ".sbss"); [reflexivity|by apply demo_named|by right|done|done].
Defined.
