(* ===== verification/Coff2Flat.v ===== *)
(** * bin/coff2flat.c: from the linker's output to a memory image

    The older converter: the sections of a COFF file are written one after the
    other, without a header, and a word behind them marks the end of the stack.
    The files are those of Coff2Noff, whose COFF headers it reads. The result is
    the memory of the program when the linker left no gaps between what it
    writes; nothing else puts a section at its address. *)
From S2P Require Import Prelude CStrings VM Process Coff2Noff.
#[local] Open Scope coff_scope.

Definition StackSize : Z := 1024.

Section Flatten.
  Context (coff : list Z).

(** [if ((s_paddr + s_size) > top) top = s_paddr + s_size;] *)
Definition new_top (top : Z) (s : scnhdr) : Z :=
  let e := i32 (s_paddr s + s_size s) in if decide (e > top) then e else top.

(** The body of the loop: no need to copy if .bss *)
Definition copy_section (s : scnhdr) : C unit :=
  is_bss <- named s ".bss" ;;
  is_sbss <- (if is_bss : bool then cret true else named s ".sbss") ;;
  if is_sbss : bool then cret tt else copy_segment coff s.

Fixpoint copy_sections (top : Z) (l : list scnhdr) : C Z :=
  match l with
  | [] => cret top
  | s :: l => copy_section s ;;; copy_sections (new_top top s) l
  end.

Definition flatten : C unit :=
  sections <- read_sections coff ;;
  top <- copy_sections 0 sections ;;
  lseek_out (i32 (top + StackSize - 4)) ;;;
  Write (int_bytes 0).

(** The file that is left, from an empty one. *)
Definition coff2flat : stop + list Z :=
  match flatten (mkConv 0 0 []) with inr (s, _) => inr (outFile s) | inl e => inl e end.

(** ** What it makes of the sections *)

Definition uninitialised (s : scnhdr) : bool :=
  bool_decide (cstring (s_name s) = cstring (literal ".bss")) || bool_decide (cstring (s_name s) = cstring (literal ".sbss")).
Definition loaded (l : list scnhdr) : list scnhdr := filter (fun s => uninitialised s = false) l.

(** Sections of a program that fits an [int], with their bytes in the file. *)
Record section_ok (s : scnhdr) : Prop := {
  so_name : terminated (s_name s);
  so_start : 0 <= s_paddr s;
  so_size : 0 <= s_size s;
  so_end : s_paddr s + s_size s + StackSize < 2 ^ 31;
  so_bytes : uninitialised s = false -> 0 <= s_scnptr s /\ s_scnptr s + s_size s <= Z.of_nat (List.length coff)
}.

Definition flat (l : list scnhdr) : list Z := loaded l ≫= raw_data coff.
Definition sizes (l : list scnhdr) : Z := foldr (fun s n => s_size s + n) 0 l.
Definition top_of (l : list scnhdr) : Z := foldr (fun s n => Z.max (s_paddr s + s_size s) n) 0 l.

(** The copied sections lie one behind the other, from address [a]. *)
Fixpoint packed (a : Z) (l : list scnhdr) : Prop :=
  match l with [] => True | s :: l => s_paddr s = a /\ packed (a + s_size s) l end.

(** ** Lemmas *)

Lemma raw_length s : section_ok s -> uninitialised s = false -> Z.of_nat (List.length (raw_data coff s)) = s_size s.
Proof. intros Hs Hu. destruct (so_bytes s Hs Hu). pose proof (so_size s Hs). unfold raw_data. rewrite length_take, length_drop. lia. Qed.

Lemma copy_section_ok s st : section_ok s -> Z.of_nat (List.length (outFile st)) = outPos st -> exists p,
  copy_section s st = inr (if uninitialised s then st else mkConv p (outPos st + s_size s) (outFile st ++ raw_data coff s), tt).
Proof.
  intros Hs Hp. pose proof (raw_length s Hs) as Hr. assert (forall name, named s name = fun st => inr (st, bool_decide (cstring (s_name s) = cstring (literal name)))) as Hn.
  { intros name. unfold named. rewrite strcmp_eq_spec; [done|apply Hs|]. unfold literal, terminated. apply elem_of_app. right. by left. }
  unfold copy_section. unfold cbind at 1. rewrite Hn. unfold uninitialised in *.
  destruct (bool_decide (cstring (s_name s) = cstring (literal ".bss"))) eqn:E0; [by exists 0|]. cbn [orb] in *.
  unfold cbind at 1. rewrite Hn. destruct (bool_decide (cstring (s_name s) = cstring (literal ".sbss"))) eqn:E; [by exists 0|].
  destruct (so_bytes s Hs) as [H1 H2]; [unfold uninitialised; by rewrite E0, E|]. pose proof (so_size s Hs). specialize (Hr eq_refl).
  unfold copy_segment, cbind at 1, lseek_in. rewrite decide_True by done. unfold cbind at 1, Read. cbn [inPos outPos outFile].
  rewrite !decide_False by lia. fold (raw_data coff s). rewrite decide_True by done.
  unfold Write. cbn [inPos outPos outFile]. unfold WriteAt, ASSERT. rewrite bool_decide_eq_true_2 by lia. cbn [rbind].
  rewrite <-Hp, Nat2Z.id, Nat.sub_diag. cbn [replicate]. rewrite app_nil_r, take_ge, drop_ge, app_nil_r, Hr by lia. by eexists.
Qed.

Lemma new_top_ok top s : section_ok s -> new_top top s = Z.max top (s_paddr s + s_size s).
Proof.
  intros [_ H1 H2 H3 _]. unfold new_top, StackSize in *. rewrite i32_id by (unfold in_i32; lia). case_decide; lia.
Qed.

Lemma flat_cons s l : flat (s :: l) = (if uninitialised s then [] else raw_data coff s) ++ flat l.
Proof. unfold flat, loaded. rewrite filter_cons. by destruct (uninitialised s). Qed.

Lemma sizes_cons s l : sizes (loaded (s :: l)) = (if uninitialised s then 0 else s_size s) + sizes (loaded l).
Proof. unfold loaded. rewrite filter_cons. by destruct (uninitialised s). Qed.

Lemma flat_size l : Forall section_ok l -> Z.of_nat (List.length (flat l)) = sizes (loaded l).
Proof.
  induction 1 as [|s l Hs _ IH]; [done|]. rewrite flat_cons, sizes_cons, length_app. pose proof (raw_length s Hs).
  destruct (uninitialised s); cbn [List.length]; [lia|]. specialize (H eq_refl). lia.
Qed.

Lemma copy_sections_ok l : forall top st, Forall section_ok l -> 0 <= top -> Z.of_nat (List.length (outFile st)) = outPos st -> exists p,
  copy_sections top l st = inr (mkConv p (outPos st + sizes (loaded l)) (outFile st ++ flat l), Z.max top (top_of l)).
Proof.
  induction l as [|s l IH]; intros top st Hl Ht Hp.
  - exists (inPos st). cbn. unfold cret. rewrite app_nil_r, Z.add_0_r, Z.max_l by done. by destruct st.
  - apply Forall_cons in Hl as [Hs Hl]. destruct (copy_section_ok s st Hs Hp) as [p Hc]. pose proof (raw_length s Hs) as Hr.
    cbn [copy_sections]. unfold cbind at 1. rewrite Hc, (new_top_ok top s Hs), flat_cons, sizes_cons. cbn [top_of foldr]. fold (top_of l).
    destruct (uninitialised s).
    + destruct (IH (Z.max top (s_paddr s + s_size s)) st Hl) as [q ->]; [lia|done|]. exists q. by rewrite Z.max_assoc.
    + destruct (IH (Z.max top (s_paddr s + s_size s)) (mkConv p (outPos st + s_size s) (outFile st ++ raw_data coff s)) Hl) as [q ->];
        [lia|cbn [outFile outPos]; rewrite length_app, Nat2Z.inj_add, Hr by done; lia|].
      exists q. cbn [outFile outPos]. by rewrite Z.max_assoc, <-app_assoc, Z.add_assoc.
Qed.

Lemma top_bound l : Forall section_ok l -> 0 <= top_of l /\ top_of l + StackSize < 2 ^ 31.
Proof.
  induction 1 as [|s l Hs _ IH]; [done|]. cbn [top_of foldr]. fold (top_of l). pose proof (so_end s Hs). lia.
Qed.

(** The file for sections in any place: their bytes in order, then zeros up to
    the top of the program and its stack. *)
Lemma flat_file st l : read_sections coff (mkConv 0 0 []) = inr (st, l) -> Forall section_ok l ->
  sizes (loaded l) <= top_of l + StackSize - 4 ->
  coff2flat = inr (flat l ++ replicate (Z.to_nat (top_of l + StackSize - sizes (loaded l))) 0).
Proof.
  intros Hs Hl Hsz. destruct (reads_sections coff _ _ _ Hs) as [Hp Hf]. cbn [outPos outFile] in Hp, Hf.
  pose proof (top_bound l Hl) as [Ht0 Ht1]. pose proof (flat_size l Hl) as Hfl. unfold StackSize in *.
  unfold coff2flat, flatten. unfold cbind at 1. rewrite Hs.
  destruct (copy_sections_ok l 0 st Hl) as [q Hc]; [done|by rewrite Hf, Hp|]. unfold cbind at 1. rewrite Hc, Hf, Hp. cbn [app].
  rewrite Z.max_r by done. unfold cbind at 1, lseek_out, StackSize. rewrite i32_id by (unfold in_i32; lia). rewrite decide_True by lia.
  unfold Write, WriteAt, ASSERT. cbn [inPos outPos outFile]. rewrite bool_decide_eq_true_2 by lia. cbn [rbind outFile].
  set (f := flat l) in *. set (n := Z.to_nat (top_of l + 1024 - 4)). assert (List.length f <= n)%nat as Hn by lia.
  f_equal. rewrite take_ge, (drop_ge (f ++ _)), app_nil_r by (rewrite length_app, length_replicate; lia).
  rewrite <-app_assoc. f_equal. change (int_bytes 0) with (replicate 4 (0 : Z)). rewrite <-replicate_add. f_equal. lia.
Qed.

Lemma packed_bytes l : forall a, Forall section_ok l -> packed a (loaded l) ->
  (forall s i b, s ∈ loaded l -> raw_data coff s !! i = Some b -> a <= s_paddr s /\ flat l !! Z.to_nat (s_paddr s - a + Z.of_nat i) = Some b) /\
  (0 <= a -> a + sizes (loaded l) <= Z.max a (top_of l)).
Proof.
  induction l as [|x l IH]; intros a Hl Hpk.
  - split; [intros s i b Hs; by apply elem_of_nil in Hs|cbn; lia].
  - apply Forall_cons in Hl as [Hx Hl]. pose proof (so_size x Hx). pose proof (raw_length x Hx) as Hr. rewrite flat_cons, sizes_cons.
    unfold loaded in *. rewrite filter_cons in *. cbn [top_of foldr]. fold (top_of l). destruct (uninitialised x) eqn:Hu; cbn [app].
    + rewrite decide_False in * by done. destruct (IH a Hl Hpk) as [IH1 IH2]. split; [exact IH1|]. lia.
    + rewrite decide_True in * by done. cbn [packed] in Hpk. destruct Hpk as [Ha Hpk]. specialize (Hr eq_refl).
      destruct (IH _ Hl Hpk) as [IH1 IH2]. split; [|lia]. intros s i b Hs Hb. apply elem_of_cons in Hs as [->|Hs].
      * rewrite Ha, Z.sub_diag, Z.add_0_l, Nat2Z.id. split; [lia|]. by apply lookup_app_l_Some.
      * destruct (IH1 s i b Hs Hb) as [Hge Hlk]. split; [lia|]. rewrite lookup_app_r by lia. rewrite <-Hlk. f_equal. lia.
Qed.
End Flatten.

(** * Properties *)

(** C24: the flat file is the memory of a packed program. If the sections that
    are copied lie one behind the other from address 0, the file has every one
    of their bytes at the byte's address, zeros for the uninitialised data and
    the stack, and ends [StackSize] bytes behind the last section. *)
Theorem flat_file_is_the_memory coff st l : read_sections coff (mkConv 0 0 []) = inr (st, l) -> Forall (section_ok coff) l ->
  packed 0 (loaded l) -> exists f, coff2flat coff = inr f /\
    Z.of_nat (List.length f) = top_of l + StackSize /\
    (forall s i b, s ∈ loaded l -> raw_data coff s !! i = Some b -> f !! Z.to_nat (s_paddr s + Z.of_nat i) = Some b) /\
    (forall a, sizes (loaded l) <= a < top_of l + StackSize -> f !! Z.to_nat a = Some 0).
Proof.
  intros Hs Hl Hpk. pose proof (top_bound coff l Hl) as [Ht0 Ht1]. pose proof (flat_size coff l Hl) as Hfl.
  destruct (packed_bytes coff l 0 Hl Hpk) as [Hb Htop]. specialize (Htop ltac:(lia)). unfold StackSize in *.
  eexists. split; [apply (flat_file coff st l); [done|done|unfold StackSize; lia]|]. unfold StackSize. split_and!.
  - rewrite length_app, length_replicate. lia.
  - intros s i b Hin Hi. destruct (Hb s i b Hin Hi) as [_ Hlk]. rewrite Z.sub_0_r in Hlk. by apply lookup_app_l_Some.
  - intros a Ha. rewrite lookup_app_r by lia. apply lookup_replicate_2. lia.
Qed.

(** ** Witness: the program of Coff2Noff *)

Example flat_file_is_the_memory_witness : exists f, coff2flat demo_coff = inr f /\ List.length f = 1033%nat /\ f !! 4%nat = Some 5 /\ f !! 8%nat = Some 0.
Proof.
  destruct (flat_file_is_the_memory demo_coff (mkConv 196 0 []) [demo_text; demo_data; demo_bss]) as (f & H1 & H2 & H3 & H4).
  - reflexivity.
  - repeat apply Forall_cons_2; [..|by apply Forall_nil]; split; try (by apply (bool_decide_unpack _)); intros _; by apply (bool_decide_unpack _).
  - split; [reflexivity|]. split; [reflexivity|exact I].
  - exists f. split; [exact H1|]. split; [apply Nat2Z.inj; exact H2|]. split.
    + apply (H3 demo_data 1%nat 5); [by right; left|reflexivity].
    + apply (H4 8). apply (bool_decide_unpack _). vm_compute. exact I.
Defined.
