(* ===== verification/Execute.v ===== *)
(** * bin/execute.c, bin/int.h, bin/instr.h, bin/encode.h, bin/system.c: the
      stand-alone MIPS interpreter

    A second interpreter of the user programs' instruction set, which runs a
    program on the host without a kernel: registers, a program counter with its
    branch delay slot, and a flat memory; a trap is served by a call to the
    host. [runprogram] is its loop, [step] one round of it. The calls of the
    host are a parameter ([Host]). [int] is 32 bits and wraps, right shifts of
    an [int] are arithmetic, the host is little-endian ([load_program] refuses
    other files) and reads a word at any address. Tracing is not modelled. The
    relation of this interpreter to the kernel's simulator (Mips) is proved in
    Interpreters. *)
From S2P Require Import Prelude.

(** ** int.h: memory *)

Definition MEMSIZE : Z := Z.shiftl 1 24.
Definition memoffset : Z := 0x10000000.

(** [(mem-memoffset)[addr]]: the bytes written so far, the array starts as zeros. *)
Definition mem_at (mem : gmap Z Z) (addr : Z) : res Z :=
  if decide (0 <= addr - memoffset < MEMSIZE) then Ok (default 0 (mem !! (addr - memoffset))) else Fault OutOfBounds.
Definition mem_put (mem : gmap Z Z) (addr v : Z) : res (gmap Z Z) :=
  if decide (0 <= addr - memoffset < MEMSIZE) then Ok (<[addr - memoffset := u8 v]> mem) else Fault OutOfBounds.

Fixpoint get_bytes (n : nat) (mem : gmap Z Z) (addr : Z) : res Z :=
  match n with
  | O => Ok 0
  | S n => let* b := mem_at mem addr in let* r := get_bytes n mem (addr + 1) in Ok (b + 256 * r)
  end.
Fixpoint put_bytes (n : nat) (mem : gmap Z Z) (addr v : Z) : res (gmap Z Z) :=
  match n with
  | O => Ok mem
  | S n => let* mem := mem_put mem addr v in put_bytes n mem (addr + 1) (v / 256)
  end.

Definition i16 (x : Z) : Z := (x + 2 ^ 15) mod 2 ^ 16 - 2 ^ 15.

Definition fetch (mem : gmap Z Z) (addr : Z) : res Z := let* v := get_bytes 4 mem addr in Ok (i32 v).
Definition sfetch (mem : gmap Z Z) (addr : Z) : res Z := let* v := get_bytes 2 mem addr in Ok (i16 v).
Definition usfetch (mem : gmap Z Z) (addr : Z) : res Z := get_bytes 2 mem addr.
Definition cfetch (mem : gmap Z Z) (addr : Z) : res Z := let* v := mem_at mem addr in Ok (i8 v).
Definition ucfetch (mem : gmap Z Z) (addr : Z) : res Z := mem_at mem addr.
Definition store (mem : gmap Z Z) (addr i : Z) : res (gmap Z Z) := put_bytes 4 mem addr i.
Definition sstore (mem : gmap Z Z) (addr i : Z) : res (gmap Z Z) := put_bytes 2 mem addr i.
Definition cstore (mem : gmap Z Z) (addr i : Z) : res (gmap Z Z) := mem_put mem addr i.

(** ** instr.h: the fields of an instruction, an [int] *)

Definition rd (i : Z) : Z := Z.land (Z.shiftr i 11) 0x1f.
Definition rt (i : Z) : Z := Z.land (Z.shiftr i 16) 0x1f.
Definition rs (i : Z) : Z := Z.land (Z.shiftr i 21) 0x1f.
Definition shamt (i : Z) : Z := Z.land (Z.shiftr i 6) 0x1f.
Definition immed (i : Z) : Z := if negb (Z.land i 0x8000 =? 0) then Z.lor i (-0x8000) else Z.land i 0x7fff.

(** ** encode.h: opcodes *)

Inductive Normal :=
  | I_SPECIAL | I_BCOND | I_J | I_JAL | I_BEQ | I_BNE | I_BLEZ | I_BGTZ
  | I_ADDI | I_ADDIU | I_SLTI | I_SLTIU | I_ANDI | I_ORI | I_XORI | I_LUI
  | I_COP | I_LB | I_LH | I_LWL | I_LW | I_LBU | I_LHU | I_LWR
  | I_SB | I_SH | I_SWL | I_SW | I_SWR | I_LWC | I_SWC.

Inductive Special :=
  | I_SLL | I_SRL | I_SRA | I_SLLV | I_SRLV | I_SRAV | I_JR | I_JALR | I_SYSCALL | I_BREAK
  | I_MFHI | I_MTHI | I_MFLO | I_MTLO | I_MULT | I_MULTU | I_DIV | I_DIVU
  | I_ADD | I_ADDU | I_SUB | I_SUBU | I_AND | I_OR | I_XOR | I_NOR | I_SLT | I_SLTU.

Inductive BCond := I_BLTZ | I_BGEZ | I_BLTZAL | I_BGEZAL.

(** The numbers, which encode.h gives in octal; four coprocessors each. *)
Definition normal_op (code : Z) : option Normal :=
  match code with
  | 0 => Some I_SPECIAL | 1 => Some I_BCOND | 2 => Some I_J | 3 => Some I_JAL
  | 4 => Some I_BEQ | 5 => Some I_BNE | 6 => Some I_BLEZ | 7 => Some I_BGTZ
  | 8 => Some I_ADDI | 9 => Some I_ADDIU | 10 => Some I_SLTI | 11 => Some I_SLTIU
  | 12 => Some I_ANDI | 13 => Some I_ORI | 14 => Some I_XORI | 15 => Some I_LUI
  | 16 | 17 | 18 | 19 => Some I_COP
  | 32 => Some I_LB | 33 => Some I_LH | 34 => Some I_LWL | 35 => Some I_LW
  | 36 => Some I_LBU | 37 => Some I_LHU | 38 => Some I_LWR
  | 40 => Some I_SB | 41 => Some I_SH | 42 => Some I_SWL | 43 => Some I_SW | 46 => Some I_SWR
  | 48 | 49 | 50 | 51 => Some I_LWC
  | 56 | 57 | 58 | 59 => Some I_SWC
  | _ => None
  end.

Definition special_op (code : Z) : option Special :=
  match code with
  | 0 => Some I_SLL | 2 => Some I_SRL | 3 => Some I_SRA | 4 => Some I_SLLV | 6 => Some I_SRLV | 7 => Some I_SRAV
  | 8 => Some I_JR | 9 => Some I_JALR | 12 => Some I_SYSCALL | 13 => Some I_BREAK
  | 16 => Some I_MFHI | 17 => Some I_MTHI | 18 => Some I_MFLO | 19 => Some I_MTLO
  | 24 => Some I_MULT | 25 => Some I_MULTU | 26 => Some I_DIV | 27 => Some I_DIVU
  | 32 => Some I_ADD | 33 => Some I_ADDU | 34 => Some I_SUB | 35 => Some I_SUBU
  | 36 => Some I_AND | 37 => Some I_OR | 38 => Some I_XOR | 39 => Some I_NOR
  | 42 => Some I_SLT | 43 => Some I_SLTU
  | _ => None
  end.

Definition bcond_op (code : Z) : option BCond :=
  match code with
  | 0 => Some I_BLTZ | 1 => Some I_BGEZ | 16 => Some I_BLTZAL | 17 => Some I_BGEZAL
  | _ => None
  end.

(** ** The interpreter's state, and the host *)

Record State := mkState { Reg : list Z; HI : Z; LO : Z; pc : Z; npc : Z; mem : gmap Z Z }.

Definition with_Reg (s : State) (r : list Z) : State := mkState r (HI s) (LO s) (pc s) (npc s) (mem s).
Definition with_HILO (s : State) (hi lo : Z) : State := mkState (Reg s) hi lo (pc s) (npc s) (mem s).
Definition with_npc (s : State) (n : Z) : State := mkState (Reg s) (HI s) (LO s) (pc s) n (mem s).
Definition with_mem (s : State) (m : gmap Z Z) : State := mkState (Reg s) (HI s) (LO s) (pc s) (npc s) m.

(** The calls [system_trap] makes. Addresses are those of the program. *)
Inductive HostCall :=
  | HRead (fd addr n : Z) | HWrite (fd addr n : Z) | HOpen (addr flags mode : Z)
  | HLseek (fd off whence : Z) | HIoctl (fd request addr : Z) | HFstat (a b : Z) | HGetpagesize.

(** What the host makes of a call: its own state, the memory, the result. *)
Class Host (H : Type) := {
  host_call : HostCall -> H -> gmap Z Z -> res (H * gmap Z Z * Z)
}.

Section Interpreter.
Context {H : Type} `{HH : !Host H}.

(** The program goes on, or the interpreter [exit]s. *)
Inductive next := Go (h : H) (s : State) | Exit (code : Z).

Definition get_reg (s : State) (i : Z) : res Z := arr_get (Reg s) i.
Definition set_reg (s : State) (i v : Z) : res State := let* r := arr_set (Reg s) i v in Ok (with_Reg s r).

(** ** system.c *)

(** The request of an old terminal call is made to fit the host's. *)
Definition ioctl_request (o1 : Z) : Z :=
  let size := Z.land (Z.shiftr o1 16) 0x7f in
  let ioctl_group := Z.land (Z.shiftr o1 8) 0xff in
  if bool_decide (ioctl_group = 116) && bool_decide (size = 8)
  then i32 (Z.lor (Z.land o1 (Z.lnot (Z.shiftl 0x7f 16))) (Z.shiftl 6 16)) else o1.

(** [Reg[1]] gets the result of a call of the host. *)
Definition host_result (c : HostCall) (h : H) (s : State) : res next :=
  let* '(h, m, r) := host_call c h (mem s) in
  let* s := set_reg (with_mem s m) 1 r in Ok (Go h s).

Definition system_trap (h : H) (s : State) : res next :=
  let* syscallno := get_reg s 2 in
  let* o0 := get_reg s 4 in
  let* o1 := get_reg s 5 in
  let* o2 := get_reg s 6 in
  match syscallno with
  | 1 => Ok (Exit 0)
  | 3 => host_result (HRead o0 o1 o2) h s
  | 4 => host_result (HWrite o0 o1 o2) h s
  | 5 => host_result (HOpen o0 o1 o2) h s
  | 6 => let* s := set_reg s 1 0 in Ok (Go h s)
  | 17 => let* s := set_reg s 1 (i32 (i32 (Z.quot o0 8192 + 1) * 8192)) in Ok (Go h s)
  | 19 => host_result (HLseek o0 o1 o2) h s
  | 54 =>
      let* '(h, m, _) := host_call (HIoctl o0 (ioctl_request o1) o2) h (mem s) in
      let* s := set_reg (with_mem s m) 1 0 in Ok (Go h s)
  | 62 => host_result (HFstat o1 o2) h s
  | 64 => host_result HGetpagesize h s
  | _ => Ok (Exit 2)
  end.

(** [system_break] only prints before it traps. *)
Definition system_break (h : H) (s : State) : res next := system_trap h s.

(** [u()]: unimplemented. *)
Definition u : res next := Ok (Exit 2).

(** ** execute.c *)

Definition go (h : H) (s : res State) : res next := let* s := s in Ok (Go h s).

(** [Reg[rd] = f(Reg[rs], Reg[rt])] and [Reg[rt] = f(Reg[rs])] *)
Definition op_r (f : Z -> Z -> Z) (i : Z) (s : State) : res State :=
  let* a := get_reg s (rs i) in let* b := get_reg s (rt i) in set_reg s (rd i) (f a b).
Definition op_i (f : Z -> Z) (i : Z) (s : State) : res State :=
  let* a := get_reg s (rs i) in set_reg s (rt i) (f a).

Definition b2z (b : bool) : Z := if b then 1 else 0.

(** A shift by a register: C leaves a count outside of 0 to 31 undefined. *)
Definition shift_count (a : Z) : res Z := if decide (0 <= a < 32) then Ok a else Fault UndefinedArith.
Definition op_shiftv (f : Z -> Z -> Z) (i : Z) (s : State) : res State :=
  let* a := get_reg s (rs i) in let* b := get_reg s (rt i) in
  let* n := shift_count a in set_reg s (rd i) (f b n).

(** The high word from 16-bit halves; products and sums are [int]s. *)
Definition high_word (t1 t2 : Z) : Z :=
  let t1l := Z.land t1 0xffff in let t1h := Z.land (Z.shiftr t1 16) 0xffff in
  let t2l := Z.land t2 0xffff in let t2h := Z.land (Z.shiftr t2 16) 0xffff in
  i32 (i32 (t1h * t2h) + Z.shiftr (i32 (t1h * t2l)) 16 + Z.shiftr (i32 (t2h * t1l)) 16).

(** I_MULT: the pair (HI, LO). *)
Definition mult (a b : Z) : Z * Z :=
  let t1 := if a <? 0 then i32 (- a) else a in
  let t2 := if b <? 0 then i32 (- b) else b in
  let neg := xorb (a <? 0) (b <? 0) in
  let lo := i32 (t1 * t2) in
  let hi := high_word t1 t2 in
  if neg then
    let lo := i32 (Z.lnot lo + 1) in
    let hi := Z.lnot hi in
    (if lo =? 0 then i32 (hi + 1) else hi, lo)
  else (hi, lo).

Definition multu (a b : Z) : Z * Z := (high_word a b, i32 (a * b)).

(** A quotient that is not an [int], and a zero divisor, are undefined. *)
Definition div (a b : Z) : res (Z * Z) :=
  if decide (b = 0 \/ (a = - 2 ^ 31 /\ b = -1)) then Fault UndefinedArith else Ok (Z.rem a b, Z.quot a b).
Definition divu (a b : Z) : res (Z * Z) :=
  if decide (u32 b = 0) then Fault UndefinedArith else Ok (i32 (u32 a mod u32 b), i32 (u32 a / u32 b)).

Definition op_hilo (f : Z -> Z -> res (Z * Z)) (i : Z) (s : State) : res State :=
  let* a := get_reg s (rs i) in let* b := get_reg s (rt i) in
  let* '(hi, lo) := f a b in Ok (with_HILO s hi lo).

(** [case I_SPECIAL]; [xpc] is the address of the instruction. *)
Definition exec_special (instr xpc : Z) (h : H) (s : State) : res next :=
  match special_op (Z.land instr 0x3f) with
  | Some I_SLL => go h (op_r (fun _ b => i32 (Z.shiftl b (shamt instr))) instr s)
  | Some I_SRL => go h (op_r (fun _ b => i32 (Z.shiftr (u32 b) (shamt instr))) instr s)
  | Some I_SRA => go h (op_r (fun _ b => Z.shiftr b (shamt instr)) instr s)
  | Some I_SLLV => go h (op_shiftv (fun b n => i32 (Z.shiftl b n)) instr s)
  | Some I_SRLV => go h (op_shiftv (fun b n => i32 (Z.shiftr (u32 b) n)) instr s)
  | Some I_SRAV => go h (op_shiftv Z.shiftr instr s)
  | Some I_JR => let* a := get_reg s (rs instr) in Ok (Go h (with_npc s a))
  | Some I_JALR => let* a := get_reg s (rs instr) in go h (set_reg (with_npc s a) (rd instr) (i32 (xpc + 8)))
  | Some I_SYSCALL => system_trap h s
  | Some I_BREAK => system_break h s
  | Some I_MFHI => go h (set_reg s (rd instr) (HI s))
  | Some I_MTHI => let* a := get_reg s (rs instr) in Ok (Go h (with_HILO s a (LO s)))
  | Some I_MFLO => go h (set_reg s (rd instr) (LO s))
  | Some I_MTLO => let* a := get_reg s (rs instr) in Ok (Go h (with_HILO s (HI s) a))
  | Some I_MULT => go h (op_hilo (fun a b => Ok (mult a b)) instr s)
  | Some I_MULTU => go h (op_hilo (fun a b => Ok (multu a b)) instr s)
  | Some I_DIV => go h (op_hilo div instr s)
  | Some I_DIVU => go h (op_hilo divu instr s)
  | Some I_ADD | Some I_ADDU => go h (op_r (fun a b => i32 (a + b)) instr s)
  | Some I_SUB | Some I_SUBU => go h (op_r (fun a b => i32 (a - b)) instr s)
  | Some I_AND => go h (op_r Z.land instr s)
  | Some I_OR => go h (op_r Z.lor instr s)
  | Some I_XOR => go h (op_r Z.lxor instr s)
  | Some I_NOR => go h (op_r (fun a b => Z.lnot (Z.lor a b)) instr s)
  | Some I_SLT => go h (op_r (fun a b => b2z (a <? b)) instr s)
  | Some I_SLTU => go h (op_r (fun a b => b2z (u32 a <? u32 b)) instr s)
  | None => u
  end.

(** [if (taken) npc = xpc + 4 + (immed(instr)<<2);] *)
Definition branch (taken : bool) (instr xpc : Z) (s : State) : State :=
  if taken then with_npc s (i32 (xpc + 4 + Z.shiftl (immed instr) 2)) else s.

Definition exec_bcond (instr xpc : Z) (h : H) (s : State) : res next :=
  let link (s : State) := set_reg s 31 (i32 (xpc + 8)) in
  match bcond_op (rt instr) with
  | Some I_BLTZ => let* a := get_reg s (rs instr) in Ok (Go h (branch (a <? 0) instr xpc s))
  | Some I_BGEZ => let* a := get_reg s (rs instr) in Ok (Go h (branch (a >=? 0) instr xpc s))
  | Some I_BLTZAL => let* s := link s in let* a := get_reg s (rs instr) in Ok (Go h (branch (a <? 0) instr xpc s))
  | Some I_BGEZAL => let* s := link s in let* a := get_reg s (rs instr) in Ok (Go h (branch (a >=? 0) instr xpc s))
  | None => u
  end.

(** [(xpc & 0xf0000000) | ((instr & 0x03ffffff) << 2)] *)
Definition jump_target (instr xpc : Z) : Z :=
  i32 (Z.lor (Z.land (u32 xpc) 0xf0000000) (Z.shiftl (Z.land instr 0x03ffffff) 2)).

(** Loads and stores: the address is [Reg[rs] + immed]. *)
Definition op_load (f : gmap Z Z -> Z -> res Z) (instr : Z) (s : State) : res State :=
  let* a := get_reg s (rs instr) in
  let* v := f (mem s) (i32 (a + immed instr)) in set_reg s (rt instr) v.
Definition op_store (f : gmap Z Z -> Z -> Z -> res (gmap Z Z)) (instr : Z) (s : State) : res State :=
  let* a := get_reg s (rs instr) in
  let* v := get_reg s (rt instr) in
  let* m := f (mem s) (i32 (a + immed instr)) v in Ok (with_mem s m).

(** I_LWL and I_LWR update [Reg[rt]] in two steps. *)
Definition op_lwl (instr : Z) (s : State) : res State :=
  let* a := get_reg s (rs instr) in
  let i := i32 (a + immed instr) in
  let* old := get_reg s (rt instr) in
  let old := Z.land old (Z.shiftr (-1) (8 * Z.land (- i) 3)) in
  let* v := fetch (mem s) (Z.land i (Z.lnot 3)) in
  set_reg s (rt instr) (Z.lor old (i32 (Z.shiftl v (8 * Z.land i 3)))).
Definition op_lwr (instr : Z) (s : State) : res State :=
  let* a := get_reg s (rs instr) in
  let i := i32 (a + immed instr) in
  let* old := get_reg s (rt instr) in
  let old := if Z.land i 3 =? 0 then 0 else Z.land old (Z.shiftl (-1) (8 * Z.land i 3)) in
  let* v := fetch (mem s) (Z.land i (Z.lnot 3)) in
  set_reg s (rt instr) (Z.lor old (Z.shiftr v (8 * Z.land (- i) 3))).

(** The outer [switch]. *)
Definition exec_normal (instr xpc : Z) (h : H) (s : State) : res next :=
  let compare (f : Z -> Z -> bool) :=
    let* a := get_reg s (rs instr) in let* b := get_reg s (rt instr) in Ok (Go h (branch (f a b) instr xpc s)) in
  match normal_op (Z.land (Z.shiftr instr 26) 0x3f) with
  | Some I_SPECIAL => exec_special instr xpc h s
  | Some I_BCOND => exec_bcond instr xpc h s
  | Some I_J => Ok (Go h (with_npc s (jump_target instr xpc)))
  | Some I_JAL => go h (set_reg (with_npc s (jump_target instr xpc)) 31 (i32 (xpc + 8)))
  | Some I_BEQ => compare Z.eqb
  | Some I_BNE => compare (fun a b => negb (a =? b))
  | Some I_BLEZ => compare (fun a _ => a <=? 0)
  | Some I_BGTZ => compare (fun a _ => a >? 0)
  | Some I_ADDI | Some I_ADDIU => go h (op_i (fun a => i32 (a + immed instr)) instr s)
  | Some I_SLTI => go h (op_i (fun a => b2z (a <? immed instr)) instr s)
  | Some I_SLTIU => go h (op_i (fun a => b2z (u32 a <? u32 (immed instr))) instr s)
  | Some I_ANDI => go h (op_i (fun a => Z.land a (immed instr)) instr s)
  | Some I_ORI => go h (op_i (fun a => Z.lor a (immed instr)) instr s)
  | Some I_XORI => go h (op_i (fun a => Z.lxor a (immed instr)) instr s)
  | Some I_LUI => go h (set_reg s (rt instr) (i32 (Z.shiftl instr 16)))
  | Some I_LB => go h (op_load cfetch instr s)
  | Some I_LH => go h (op_load sfetch instr s)
  | Some I_LWL => go h (op_lwl instr s)
  | Some I_LW => go h (op_load fetch instr s)
  | Some I_LBU => go h (op_load ucfetch instr s)
  | Some I_LHU => go h (op_load usfetch instr s)
  | Some I_LWR => go h (op_lwr instr s)
  | Some I_SB => go h (op_store cstore instr s)
  | Some I_SH => go h (op_store sstore instr s)
  | Some I_SW => go h (op_store store instr s)
  | Some I_SWL | Some I_SWR => u
  | Some I_LWC | Some I_SWC | Some I_COP => Ok (Exit 2)
  | None => u
  end.

(** One round of [for (;;)]: a no-op is skipped. *)
Definition step (h : H) (s : State) : res next :=
  let xpc := pc s in
  let* instr := fetch (mem s) xpc in
  let* r := arr_set (Reg s) 0 0 in
  let s := mkState r (HI s) (LO s) (npc s) (i32 (npc s + 4)) (mem s) in
  if instr =? 0 then Ok (Go h s) else exec_normal instr xpc h s.

Fixpoint run (fuel : nat) (h : H) (s : State) : res Z :=
  match fuel with
  | O => Fault OutOfFuel
  | S fuel =>
      let* n := step h s in
      match n with Go h s => run fuel h s | Exit code => Ok code end
  end.

(** [strcpy] of a string without its NUL. *)
Fixpoint strcpy (mem : gmap Z Z) (addr : Z) (str : list Z) : res (gmap Z Z) :=
  match str with
  | [] => mem_put mem addr 0
  | c :: str => let* mem := mem_put mem addr c in strcpy mem (addr + 1) str
  end.

Fixpoint copy_args (argv : list (list Z)) (aci ai : Z) (mem : gmap Z Z) : res (gmap Z Z) :=
  match argv with
  | [] => Ok mem
  | a :: argv =>
      let* mem := strcpy mem ai a in
      let* mem := store mem aci ai in
      copy_args argv (aci + 4) (ai + (Z.of_nat (length a) + 1)) mem
  end.

(** Before the loop: the stack pointer, and the arguments above it. *)
Definition start (startpc : Z) (argv : list (list Z)) (s : State) : res State :=
  let i := MEMSIZE - 1024 + memoffset in
  let* r := arr_set (Reg s) 29 i in
  let* m := store (mem s) i (Z.of_nat (length argv)) in
  let* m := copy_args argv (i + 4) (i + 4 + 32) m in
  Ok (mkState r (HI s) (LO s) startpc (startpc + 4) m).

Definition runprogram (fuel : nat) (startpc : Z) (argv : list (list Z)) (h : H) (s : State) : res Z :=
  let* s := start startpc argv s in run fuel h s.
End Interpreter.

(** * Lemmas: the multiplication by halves *)

(** Exact words of a product from its halves, short of the carries out of the
    low partial sums: at most two. *)
Lemma high_word_carry x y : 0 <= x <= 2 ^ 31 -> 0 <= y <= 2 ^ 31 ->
  exists c, 0 <= c <= 2 /\
    (x / 2 ^ 16) * (y / 2 ^ 16) + (x / 2 ^ 16) * (y mod 2 ^ 16) / 2 ^ 16 + (y / 2 ^ 16) * (x mod 2 ^ 16) / 2 ^ 16 = x * y / 2 ^ 32 - c.
Proof.
  intros Hx Hy. pose proof (Z.div_mod x (2 ^ 16) ltac:(lia)) as Ex. pose proof (Z.div_mod y (2 ^ 16) ltac:(lia)) as Ey.
  pose proof (Z.mod_pos_bound x (2 ^ 16) ltac:(lia)). pose proof (Z.mod_pos_bound y (2 ^ 16) ltac:(lia)).
  set (xh := x / 2 ^ 16) in *. set (xl := x mod 2 ^ 16) in *. set (yh := y / 2 ^ 16) in *. set (yl := y mod 2 ^ 16) in *. clearbody xh xl yh yl.
  assert (0 <= xl * yl < 2 ^ 32) as Hw by nia.
  pose proof (Z.div_mod (xh * yl) (2 ^ 16) ltac:(lia)) as E1. pose proof (Z.mod_pos_bound (xh * yl) (2 ^ 16) ltac:(lia)).
  pose proof (Z.div_mod (yh * xl) (2 ^ 16) ltac:(lia)) as E2. pose proof (Z.mod_pos_bound (yh * xl) (2 ^ 16) ltac:(lia)).
  set (p := xh * yl / 2 ^ 16) in *. set (q := yh * xl / 2 ^ 16) in *. set (r1 := (xh * yl) mod 2 ^ 16) in *. set (r2 := (yh * xl) mod 2 ^ 16) in *.
  clearbody p q r1 r2.
  assert (x * y = (xh * yh + p + q) * 2 ^ 32 + ((r1 + r2) * 2 ^ 16 + xl * yl)) as E by nia.
  rewrite E. rewrite Z.div_add_l by lia. exists (((r1 + r2) * 2 ^ 16 + xl * yl) / 2 ^ 32).
  pose proof (Z.div_mod ((r1 + r2) * 2 ^ 16 + xl * yl) (2 ^ 32) ltac:(lia)).
  pose proof (Z.mod_pos_bound ((r1 + r2) * 2 ^ 16 + xl * yl) (2 ^ 32) ltac:(lia)). lia.
Qed.

Lemma low_half t : Z.land t 0xffff = t mod 2 ^ 16.
Proof. change 0xffff with (Z.ones 16). by rewrite Z.land_ones by lia. Qed.

(** The halves of the magnitude of an [int], also of -2^31. *)
Lemma abs_halves a : in_i32 a -> let t := if a <? 0 then i32 (- a) else a in
  Z.land t 0xffff = Z.abs a mod 2 ^ 16 /\ Z.land (Z.shiftr t 16) 0xffff = Z.abs a / 2 ^ 16 /\ u32 t = Z.abs a.
Proof.
  intros Ha t. assert (exists j, t = Z.abs a + j * 2 ^ 32) as [j Hj].
  { unfold t. destruct (Z.ltb_spec a 0); [|exists 0; lia]. destruct (i32_congr (- a)) as [j ->]. exists j. lia. }
  assert (0 <= Z.abs a <= 2 ^ 31) as Hr by (unfold in_i32 in Ha; lia).
  rewrite !low_half, Z.shiftr_div_pow2, Hj by lia. split_and!.
  - replace (Z.abs a + j * 2 ^ 32) with (Z.abs a + (j * 2 ^ 16) * 2 ^ 16) by lia. by rewrite Z.mod_add by lia.
  - replace (Z.abs a + j * 2 ^ 32) with (Z.abs a + (j * 2 ^ 16) * 2 ^ 16) by lia. rewrite Z.div_add by lia.
    rewrite Z.mod_add by lia. apply Z.mod_small. split; [apply Z.div_pos; lia|apply Z.div_lt_upper_bound; lia].
  - rewrite u32_add_mult. apply u32_id. unfold in_u32. lia.
Qed.

Lemma high_word_abs a b : in_i32 a -> in_i32 b ->
  let t1 := if a <? 0 then i32 (- a) else a in let t2 := if b <? 0 then i32 (- b) else b in
  exists c, 0 <= c <= 2 /\ high_word t1 t2 = Z.abs a * Z.abs b / 2 ^ 32 - c /\ 0 <= high_word t1 t2 <= 2 ^ 30.
Proof.
  intros Ha Hb t1 t2. destruct (abs_halves a Ha) as (E1 & E2 & _). destruct (abs_halves b Hb) as (E3 & E4 & _).
  unfold high_word. fold t1 in E1, E2. fold t2 in E3, E4. rewrite E1, E2, E3, E4.
  assert (0 <= Z.abs a <= 2 ^ 31 /\ 0 <= Z.abs b <= 2 ^ 31) as [Hx Hy] by (unfold in_i32 in *; lia).
  destruct (high_word_carry (Z.abs a) (Z.abs b) Hx Hy) as (c & Hc & E). exists c. split; [done|].
  set (xh := Z.abs a / 2 ^ 16) in *. set (yh := Z.abs b / 2 ^ 16) in *.
  assert (0 <= xh <= 2 ^ 15) by (unfold xh; split; [apply Z.div_pos; lia|apply Z.div_le_upper_bound; lia]).
  assert (0 <= yh <= 2 ^ 15) by (unfold yh; split; [apply Z.div_pos; lia|apply Z.div_le_upper_bound; lia]).
  pose proof (Z.mod_pos_bound (Z.abs a) (2 ^ 16) ltac:(lia)). pose proof (Z.mod_pos_bound (Z.abs b) (2 ^ 16) ltac:(lia)).
  set (xl := Z.abs a mod 2 ^ 16) in *. set (yl := Z.abs b mod 2 ^ 16) in *.
  assert (0 <= Z.abs a * Z.abs b / 2 ^ 32 <= 2 ^ 30) as Hq.
  { split; [apply Z.div_pos; nia|]. apply Z.div_le_upper_bound; [lia|]. nia. }
  rewrite (i32_id (xh * yh)), (i32_id (xh * yl)), (i32_id (yh * xl)) by (unfold in_i32; nia).
  rewrite !Z.shiftr_div_pow2 by lia. rewrite E.
  assert (0 <= Z.abs a * Z.abs b / 2 ^ 32 - c) by (rewrite <-E; pose proof (Z.div_pos (xh * yl) (2 ^ 16)); pose proof (Z.div_pos (yh * xl) (2 ^ 16)); nia).
  rewrite i32_id by (unfold in_i32; lia). split; [done|lia].
Qed.

Lemma abs_product_sign a b : a * b = if xorb (a <? 0) (b <? 0) then - (Z.abs a * Z.abs b) else Z.abs a * Z.abs b.
Proof. destruct (Z.ltb_spec a 0), (Z.ltb_spec b 0); cbn [xorb]; nia. Qed.

(** * Properties *)

(** C40: the 16-bit multiplication of the stand-alone interpreter loses
    carries. For all operands of MULT the low word is exact, but the high word
    is that of the product only up to two units towards zero: the carries out
    of the sum of the partial products are dropped. *)
Theorem mult_drops_carries a b : in_i32 a -> in_i32 b ->
  let '(hi, lo) := mult a b in
  lo = i32 (a * b) /\ in_i32 hi /\ exists c, 0 <= c <= 2 /\ hi * 2 ^ 32 + u32 lo = a * b - Z.sgn (a * b) * (c * 2 ^ 32).
Proof.
  intros Ha Hb. unfold mult. destruct (high_word_abs a b Ha Hb) as (c & Hc & Eh & Hr).
  destruct (abs_halves a Ha) as (_ & _ & Ea). destruct (abs_halves b Hb) as (_ & _ & Eb). cbv zeta in *.
  assert (Z.abs a * Z.abs b = 0 -> c = 0) as Hc0 by (intros E0; rewrite E0, Z.div_0_l in Eh by lia; lia).
  set (t1 := if a <? 0 then _ else _) in *. set (t2 := if b <? 0 then _ else _) in *. set (hi := high_word t1 t2) in *.
  assert (u32 (i32 (t1 * t2)) = Z.abs a * Z.abs b mod 2 ^ 32) as El.
  { rewrite u32_i32, <-Ea, <-Eb. unfold u32. by rewrite <-Z.mul_mod by lia. }
  assert (0 <= Z.abs a * Z.abs b) as Hp by nia.
  pose proof (Z.div_mod (Z.abs a * Z.abs b) (2 ^ 32) ltac:(lia)) as Ep. rewrite <-El in Ep.
  pose proof (u32_range (i32 (t1 * t2))) as Hl. set (l := i32 (t1 * t2)) in *. set (q := Z.abs a * Z.abs b / 2 ^ 32) in *.
  assert (in_i32 l /\ l = i32 (Z.abs a * Z.abs b)) as [Hli Hlp].
  { split; [apply i32_range|]. rewrite <-(i32_u32 (_ * _)). unfold u32 at 1. rewrite <-El, i32_u32. symmetry. apply i32_id, i32_range. }
  pose proof (abs_product_sign a b) as Hs. destruct (xorb (a <? 0) (b <? 0)).
  - assert (u32 (Z.lnot l + 1) = if decide (u32 l = 0) then 0 else 2 ^ 32 - u32 l) as Eu.
    { unfold Z.lnot. replace (Z.pred (- l) + 1) with (- l) by lia. destruct (u32_congr l) as [j Hj]. unfold in_u32 in Hl.
      case_decide; [|symmetry; apply Z.mod_unique with (-1 + j); unfold u32 in *; lia].
      unfold u32. replace (- l) with (0 + j * 2 ^ 32) by lia. by rewrite Z.mod_add by lia. }
    assert ((i32 (Z.lnot l + 1) =? 0) = bool_decide (u32 l = 0)) as Ez.
    { rewrite <-(u32_i32 (Z.lnot l + 1)) in Eu. pose proof (i32_range (Z.lnot l + 1)) as Hi. unfold in_u32 in Hl.
      case_bool_decide as Hz; [rewrite decide_True in Eu by done|rewrite decide_False in Eu by done].
      - apply Z.eqb_eq. rewrite <-(i32_id (i32 _) Hi), <-(i32_u32 (i32 _)), Eu. done.
      - apply Z.eqb_neq. intros Hn0. rewrite Hn0 in Eu. unfold u32 in Eu at 1. rewrite Z.mod_0_l in Eu by lia. lia. }
    rewrite Ez. split; [|split].
    + rewrite <-(i32_u32 (Z.lnot l + 1)), <-(i32_u32 (a * b)). f_equal. rewrite Hs. unfold Z.lnot. replace (Z.pred (- l) + 1) with (- l) by lia.
      rewrite Hlp. destruct (i32_congr (Z.abs a * Z.abs b)) as [j ->].
      replace (- (Z.abs a * Z.abs b + j * 2 ^ 32)) with (- (Z.abs a * Z.abs b) + (- j) * 2 ^ 32) by lia. apply u32_add_mult.
    + case_bool_decide; [apply i32_range|unfold in_i32, Z.lnot; lia].
    + exists c. split; [done|]. rewrite u32_i32, Eu. unfold in_u32 in Hl.
      assert (Z.sgn (a * b) * (c * 2 ^ 32) = - (c * 2 ^ 32)) as -> by (destruct (Z.eq_dec (Z.abs a * Z.abs b) 0) as [E0|E0];
        [rewrite (Hc0 E0); lia|rewrite (Z.sgn_neg (a * b)) by lia; lia]).
      case_bool_decide; [rewrite decide_True by done; rewrite i32_id by (unfold in_i32, Z.lnot; lia)|rewrite decide_False by done]; unfold Z.lnot; lia.
  - split; [by rewrite Hlp, Hs|]. split; [unfold in_i32; lia|]. exists c. split; [done|].
    assert (Z.sgn (a * b) * (c * 2 ^ 32) = c * 2 ^ 32) as -> by (destruct (Z.eq_dec (Z.abs a * Z.abs b) 0) as [E0|E0];
      [rewrite (Hc0 E0); lia|rewrite (Z.sgn_pos (a * b)) by lia; lia]).
    lia.
Qed.

Lemma mult_drops_carries_witness : mult 0x1ffff 0x1ffff = (1, i32 (0x1ffff * 0x1ffff)) /\
  exists c, 0 <= c <= 2 /\ 1 * 2 ^ 32 + u32 (i32 (0x1ffff * 0x1ffff)) = 0x1ffff * 0x1ffff - Z.sgn (0x1ffff * 0x1ffff) * (c * 2 ^ 32).
Proof.
  split; [reflexivity|]. assert (in_i32 0x1ffff) as Hi by (unfold in_i32; lia).
  pose proof (mult_drops_carries 0x1ffff 0x1ffff Hi Hi) as (_ & _ & c & Hc & E). exists c. split; [exact Hc|exact E].
Defined.
