(* ===== verification/Interpreters.v ===== *)
(** * The kernel's simulator and the stand-alone interpreter agree

    Mips (machine/mipssim.cc) and Execute (bin/execute.c) were written
    separately for the same instruction set. Here: how their decoders
    correspond, a relation between their states, and the instructions on which
    one step of either is one step of the other ([agrees]). Where they differ,
    one of them is wrong, or they part on purpose: a trap of the kernel is a
    call of the host, a load is delayed in the simulator only. *)
From S2P Require Import Prelude Machine Mips Execute.

(** ** Decoding *)

Definition op_of_normal (o : option Normal) : OpCode :=
  match o with
  | Some I_SPECIAL => SPECIAL | Some I_BCOND => BCOND | Some I_J => OP_J | Some I_JAL => OP_JAL
  | Some I_BEQ => OP_BEQ | Some I_BNE => OP_BNE | Some I_BLEZ => OP_BLEZ | Some I_BGTZ => OP_BGTZ
  | Some I_ADDI => OP_ADDI | Some I_ADDIU => OP_ADDIU | Some I_SLTI => OP_SLTI | Some I_SLTIU => OP_SLTIU
  | Some I_ANDI => OP_ANDI | Some I_ORI => OP_ORI | Some I_XORI => OP_XORI | Some I_LUI => OP_LUI
  | Some I_COP | Some I_LWC | Some I_SWC => OP_UNIMP
  | Some I_LB => OP_LB | Some I_LH => OP_LH | Some I_LWL => OP_LWL | Some I_LW => OP_LW
  | Some I_LBU => OP_LBU | Some I_LHU => OP_LHU | Some I_LWR => OP_LWR
  | Some I_SB => OP_SB | Some I_SH => OP_SH | Some I_SWL => OP_SWL | Some I_SW => OP_SW | Some I_SWR => OP_SWR
  | None => OP_RES
  end.

Definition op_of_special (o : option Special) : OpCode :=
  match o with
  | Some I_SLL => OP_SLL | Some I_SRL => OP_SRL | Some I_SRA => OP_SRA | Some I_SLLV => OP_SLLV
  | Some I_SRLV => OP_SRLV | Some I_SRAV => OP_SRAV | Some I_JR => OP_JR | Some I_JALR => OP_JALR
  | Some I_SYSCALL => OP_SYSCALL | Some I_BREAK => OP_UNIMP
  | Some I_MFHI => OP_MFHI | Some I_MTHI => OP_MTHI | Some I_MFLO => OP_MFLO | Some I_MTLO => OP_MTLO
  | Some I_MULT => OP_MULT | Some I_MULTU => OP_MULTU | Some I_DIV => OP_DIV | Some I_DIVU => OP_DIVU
  | Some I_ADD => OP_ADD | Some I_ADDU => OP_ADDU | Some I_SUB => OP_SUB | Some I_SUBU => OP_SUBU
  | Some I_AND => OP_AND | Some I_OR => OP_OR | Some I_XOR => OP_XOR | Some I_NOR => OP_NOR
  | Some I_SLT => OP_SLT | Some I_SLTU => OP_SLTU
  | None => OP_RES
  end.

Definition op_of_bcond (o : option BCond) : OpCode :=
  match o with
  | Some I_BLTZ => OP_BLTZ | Some I_BGEZ => OP_BGEZ | Some I_BLTZAL => OP_BLTZAL | Some I_BGEZAL => OP_BGEZAL
  | None => OP_UNIMP
  end.

(** The fields of a word, for the simulator and for the interpreter. *)
Definition decoded (w : Z) : Instruction :=
  let code := Z.land (Z.shiftr w 26) 0x3f in
  let '(op, ex) :=
    match normal_op code with
    | Some I_SPECIAL => (op_of_special (special_op (Z.land w 0x3f)), shamt w)
    | Some I_BCOND => (op_of_bcond (bcond_op (Execute.rt w)), immed w)
    | Some I_J => (OP_J, Z.land w 0x3ffffff)
    | Some I_JAL => (OP_JAL, Z.land w 0x3ffffff)
    | o => (op_of_normal o, immed w)
    end in
  mkInstr op (Execute.rs w) (Execute.rt w) (Execute.rd w) ex.

Lemma decoded_fields w : Mips.rs (decoded w) = Execute.rs w /\ Mips.rt (decoded w) = Execute.rt w /\ Mips.rd (decoded w) = Execute.rd w.
Proof. unfold decoded. by destruct (normal_op _) as [[]|]. Qed.

Definition upto (n : nat) : list Z := Z.of_nat <$> seq 0 n.

Lemma upto_elem n x : 0 <= x < Z.of_nat n -> x ∈ upto n.
Proof. intros Hx. apply list_elem_of_fmap. exists (Z.to_nat x). split; [lia|]. apply elem_of_seq. lia. Qed.

Lemma opTable_normal code : 0 <= code < 64 ->
  opTable !! Z.to_nat code = Some (op_of_normal (normal_op code),
    match normal_op code with Some I_SPECIAL => RFMT | Some (I_J | I_JAL) => JFMT | _ => IFMT end).
Proof.
  intros Hc. assert (Forall (fun code => opTable !! Z.to_nat code = Some (op_of_normal (normal_op code),
    match normal_op code with Some I_SPECIAL => RFMT | Some (I_J | I_JAL) => JFMT | _ => IFMT end)) (upto 64)) as HF
    by (by apply (bool_decide_unpack _)).
  rewrite Forall_forall in HF. by apply HF, upto_elem.
Qed.

Lemma specialTable_special code : 0 <= code < 64 -> specialTable !! Z.to_nat code = Some (op_of_special (special_op code)).
Proof.
  intros Hc. assert (Forall (fun code => specialTable !! Z.to_nat code = Some (op_of_special (special_op code))) (upto 64)) as HF
    by (by apply (bool_decide_unpack _)).
  rewrite Forall_forall in HF. by apply HF, upto_elem.
Qed.

(** A field of an [int] is the field of the [unsigned] word. *)
Lemma field_u32 w k n : 0 <= k -> 0 <= n -> k + n <= 32 -> Z.land (Z.shiftr (u32 w) k) (Z.ones n) = Z.land (Z.shiftr w k) (Z.ones n).
Proof.
  intros Hk Hn Hs. apply Z.bits_inj'. intros j Hj. rewrite !Z.land_spec, !Z.shiftr_spec by lia.
  destruct (Z.lt_ge_cases j n); [|by rewrite Z.ones_spec_high, !andb_false_r by lia].
  rewrite u32_testbit by lia. rewrite (proj2 (Z.ltb_lt _ _)) by lia. done.
Qed.

Lemma bcond_field w : decode_bcond (u32 w) = op_of_bcond (bcond_op (Execute.rt w)).
Proof.
  assert (Z.land (u32 w) 0x1f0000 = Z.shiftl (Execute.rt w) 16) as E.
  { apply Z.bits_inj'. intros j Hj. unfold Execute.rt. rewrite Z.land_spec, Z.shiftl_spec by lia.
    change 0x1f0000 with (Z.shiftl (Z.ones 5) 16). rewrite Z.shiftl_spec by lia.
    destruct (Z.lt_ge_cases j 16); [by rewrite !(Z.testbit_neg_r _ (j - 16)), andb_false_r by lia|].
    rewrite Z.land_spec, Z.shiftr_spec by lia. replace (j - 16 + 16) with j by lia.
    change 0x1f with (Z.ones 5). destruct (Z.lt_ge_cases (j - 16) 5).
    - rewrite u32_testbit by lia. by rewrite (proj2 (Z.ltb_lt _ _)) by lia.
    - by rewrite Z.ones_spec_high, !andb_false_r by lia. }
  unfold decode_bcond. rewrite E. assert (Execute.rt w ∈ upto 32) as Hin.
  { apply upto_elem. unfold Execute.rt. pose proof (land5_range (Z.shiftr w 16)). lia. }
  revert Hin. generalize (Execute.rt w). clear E.
  assert (Forall (fun t => (let i := Z.shiftl t 16 in if i =? 0 then OP_BLTZ else if i =? 0x10000 then OP_BGEZ
    else if i =? 0x100000 then OP_BLTZAL else if i =? 0x110000 then OP_BGEZAL else OP_UNIMP) = op_of_bcond (bcond_op t)) (upto 32)) as HF
    by (by apply (bool_decide_unpack _)).
  rewrite Forall_forall in HF. exact HF.
Qed.

Lemma land_u32 w c : 0 <= c < 2 ^ 32 -> Z.land (u32 w) c = Z.land w c.
Proof.
  intros Hc. apply Z.bits_inj'. intros j Hj. rewrite !Z.land_spec, u32_testbit by lia.
  destruct (Z.ltb_spec j 32); [done|]. by rewrite (testbit_above c j 32), !andb_false_r by lia.
Qed.

(** Both sign extensions of the low half: as arithmetic. *)
Lemma immed_extra w : decode_extra (u32 w) IFMT = immed w.
Proof.
  unfold decode_extra, immed. rewrite !land_u32 by lia.
  assert (Z.land (Z.land w 0xffff) 0x8000 = Z.land w 0x8000) as -> by (by rewrite <-Z.land_assoc).
  change 0x8000 with (2 ^ 15). rewrite land_pow2_test by lia. destruct (Z.testbit w 15) eqn:Hb.
  - change (-0x8000) with (- 2 ^ 15). cbn [negb]. assert (in_i32 (Z.lor w (- 2 ^ 15))) as Hr.
    { apply i32_bits. intros n Hn. rewrite !Z.lor_spec. change (- 2 ^ 15) with (Z.lnot (Z.ones 15)).
      rewrite !Z.lnot_spec, !Z.ones_spec_high by lia. by rewrite !orb_true_r. }
    rewrite <-(i32_id _ Hr). rewrite <-(i32_u32 (Z.lor w _)), <-(i32_u32 (Z.lor (Z.land w _) _)). f_equal.
    apply Z.bits_inj'. intros n Hn. rewrite !u32_testbit, !Z.lor_spec, Z.land_spec by lia.
    change (- 2 ^ 15) with (Z.lnot (Z.ones 15)). rewrite Z.lnot_spec by lia.
    change 0xffff0000 with (Z.shiftl (Z.ones 16) 16). rewrite Z.shiftl_spec by lia. change 0xffff with (Z.ones 16).
    destruct (Z.ltb_spec n 32); [|done]. cbn [andb].
    destruct (Z.lt_ge_cases n 15); [|destruct (decide (n = 15)) as [->|]].
    + rewrite (Z.ones_spec_low 16 n), (Z.ones_spec_low 15), (Z.testbit_neg_r _ (n - 16)) by lia. by rewrite andb_true_r.
    + rewrite Hb. done.
    + rewrite (Z.ones_spec_high 16 n), (Z.ones_spec_high 15 n), (Z.ones_spec_low 16 (n - 16)) by lia. by destruct (Z.testbit w n).
  - apply Z.bits_inj'. intros n Hn. rewrite !Z.land_spec. change 0xffff with (Z.ones 16). change 0x7fff with (Z.ones 15).
    destruct (Z.lt_ge_cases n 15); [|destruct (decide (n = 15)) as [->|]].
    + by rewrite !Z.ones_spec_low by lia.
    + by rewrite Hb.
    + by rewrite !Z.ones_spec_high by lia.
Qed.

(** The two decoders read the same instruction in a word. *)
Lemma Decode_decoded w : Decode (u32 w) = Ok (decoded w).
Proof.
  unfold Decode, decoded. change 0x1f with (Z.ones 5). change 0x3f with (Z.ones 6). rewrite !(field_u32 w _ 5), (field_u32 w 26 6) by lia.
  pose proof (land_ones_range (Z.shiftr w 26) 6) as Hc. change (Z.ones 6) with 0x3f in *. change (Z.ones 5) with 0x1f.
  pose proof (opTable_normal (Z.land (Z.shiftr w 26) 0x3f)) as Ht. set (code := Z.land (Z.shiftr w 26) 0x3f) in *.
  rewrite (arr_get_lookup opTable code _ ltac:(lia) (Ht ltac:(lia))). cbn [rbind fst snd].
  assert (decode_extra (u32 w) RFMT = shamt w) as Hr by (cbn; by apply (field_u32 w 6 5)).
  assert (decode_extra (u32 w) JFMT = Z.land w 0x3ffffff) as Hj by (cbn; by apply land_u32).
  pose proof (immed_extra w) as Hi.
  destruct (normal_op code) as [[]|]; cbn [op_of_normal]; rewrite ?Hr, ?Hj, ?Hi; try done.
  - rewrite land_u32 by lia. pose proof (land_ones_range w 6) as Hf. change (Z.ones 6) with 0x3f in *.
    rewrite (arr_get_lookup specialTable (Z.land w 0x3f) _ ltac:(lia) (specialTable_special (Z.land w 0x3f) ltac:(lia))). done.
  - cbn [rbind]. by rewrite bcond_field.
Qed.

(** ** The relation *)

(** The same registers and counters; the simulator has no load pending, and its
    R0 is zero where the interpreter sets it to zero first. *)
Record alike (m : Machine) (s : State) : Prop := {
  al_machine : user_ok m;
  al_load : reg_is m LoadReg 0;
  al_len : length (Reg s) = 32%nat;
  al_regs : forall r, 0 < r < 32 -> registers m !! Z.to_nat r = Reg s !! Z.to_nat r;
  al_HI : reg_is m HiReg (HI s);
  al_LO : reg_is m LoReg (LO s);
  al_pc : reg_is m PCReg (pc s);
  al_npc : reg_is m NextPCReg (npc s)
}.

(** Whether [a + b] style results fit an [int]. *)
Definition fits (x : Z) : bool := bool_decide (- 2 ^ 31 <= x < 2 ^ 31).
Definition small (x : Z) (n : Z) : bool := bool_decide (0 <= x < n).

(** The instructions the two execute alike, given [Reg[rs]] and [Reg[rt]], the
    address [xpc] of the instruction and the address [xnpc] after it. The
    simulator traps on overflow; its OR, SRL and SRLV are wrong for some
    operands, as are the MULT, MULTU, ANDI, ORI and XORI of the interpreter; a
    branch in a delay slot is taken from different addresses. *)
Definition agrees (i : Instruction) (a b xpc xnpc : Z) : bool :=
  let straight := bool_decide (xnpc = i32 (xpc + 4)) in
  let region := bool_decide (Z.land (u32 (i32 (xnpc + 4))) 0xf0000000 = Z.land (u32 xpc) 0xf0000000) in
  match opCode i with
  | OP_ADDU | OP_ADDIU | OP_SUBU | OP_AND | OP_XOR | OP_NOR | OP_SLT | OP_SLTI | OP_SLTIU | OP_SLTU
  | OP_SLL | OP_SRA | OP_LUI | OP_MFHI | OP_MFLO | OP_MTHI | OP_MTLO | OP_JR => true
  | OP_ADD => fits (a + b)
  | OP_ADDI => fits (a + extra i)
  | OP_SUB => fits (a - b)
  | OP_ANDI | OP_ORI | OP_XORI => bool_decide (0 <= extra i)
  | OP_OR => bool_decide (Z.lor a b = a)
  | OP_SRL => bool_decide (0 <= b)
  | OP_SLLV | OP_SRAV => small a 32
  | OP_SRLV => small a 32 && bool_decide (0 <= b)
  | OP_MULT | OP_MULTU => small a (2 ^ 15) && small b (2 ^ 15)
  | OP_DIV => negb (bool_decide (b = 0 \/ (a = - 2 ^ 31 /\ b = -1)))
  | OP_DIVU => negb (bool_decide (u32 b = 0))
  | OP_BEQ | OP_BNE | OP_BLEZ | OP_BGTZ | OP_BLTZ | OP_BGEZ | OP_BLTZAL | OP_BGEZAL => straight
  | OP_J => region
  | OP_JAL => region && straight
  | OP_JALR => straight && negb (bool_decide (Mips.rs i = Mips.rd i))
  | _ => false
  end.

(** * Lemmas *)

(** ** Immediates and shifts *)

Lemma immed_range w : - 2 ^ 15 <= immed w < 2 ^ 15.
Proof.
  unfold immed. change (-0x8000) with (Z.lnot (Z.ones 15)). change 0x7fff with (Z.ones 15).
  destruct (negb _).
  - assert (Z.lor w (Z.lnot (Z.ones 15)) = Z.lnot (Z.land (Z.lnot w) (Z.ones 15))) as ->
      by (by rewrite Z.lnot_land, Z.lnot_involutive).
    pose proof (land_ones_range (Z.lnot w) 15). unfold Z.lnot at 1 3. lia.
  - pose proof (land_ones_range w 15). lia.
Qed.

Lemma immed_i32 w : in_i32 (immed w).
Proof. pose proof (immed_range w). unfold in_i32. lia. Qed.

Lemma immed_low w : Z.land (immed w) 0xffff = Z.land w 0xffff.
Proof.
  rewrite <-immed_extra. unfold decode_extra. rewrite land_u32 by lia. change 0xffff with (Z.ones 16).
  assert (Z.land (Z.land w (Z.ones 16)) (Z.ones 16) = Z.land w (Z.ones 16)) as E by (by rewrite <-Z.land_assoc, Z.land_diag).
  destruct (negb _); [|done]. rewrite <-land_u32, u32_i32, land_u32 by (vm_compute; intuition congruence).
  rewrite Z.land_lor_distr_l, E. change (Z.land 0xffff0000 (Z.ones 16)) with 0. apply Z.lor_0_r.
Qed.

Lemma immed_shift w : i32 (Z.shiftl (immed w) 16) = i32 (Z.shiftl w 16).
Proof.
  pose proof (immed_low w) as E. change 0xffff with (Z.ones 16) in E. rewrite !Z.land_ones in E by lia.
  rewrite !Z.shiftl_mul_pow2 by lia.
  pose proof (Z.div_mod (immed w) (2 ^ 16) ltac:(lia)) as H1. pose proof (Z.div_mod w (2 ^ 16) ltac:(lia)) as H2.
  replace (immed w * 2 ^ 16) with (w * 2 ^ 16 + (immed w / 2 ^ 16 - w / 2 ^ 16) * 2 ^ 32) by nia. apply i32_add_mult.
Qed.

Lemma immed_nonneg w : 0 <= immed w -> Z.land (immed w) 0xffff = immed w.
Proof.
  intros H. pose proof (immed_range w). change 0xffff with (Z.ones 16). rewrite Z.land_ones by lia. apply Z.mod_small. lia.
Qed.

Lemma shamt_range w : 0 <= shamt w < 32.
Proof. apply land5_range. Qed.

Lemma shift5 a : 0 <= a < 32 -> Z.land a 0x1f = a.
Proof. intros Ha. change 0x1f with (Z.ones 5). rewrite Z.land_ones by lia. apply Z.mod_small. lia. Qed.

Lemma srl_nonneg b n : in_i32 b -> 0 <= b -> 0 <= n -> Z.shiftr b n = i32 (Z.shiftr (u32 b) n).
Proof.
  intros Hb H0 Hn. rewrite u32_id by (unfold in_i32, in_u32 in *; lia). symmetry. apply i32_id. by apply shiftr_i32.
Qed.

Lemma small_product a b : 0 <= a < 2 ^ 15 -> 0 <= b < 2 ^ 15 -> high_word a b = 0.
Proof.
  intros Ha Hb. unfold high_word. assert (Z.shiftr a 16 = 0 /\ Z.shiftr b 16 = 0) as [-> ->]
    by (rewrite !Z.shiftr_div_pow2 by lia; split; apply Z.div_small; lia).
  rewrite Z.land_0_l, !Z.mul_0_l. done.
Qed.

(** The products of small operands, in both. *)
Lemma mult_small a b : 0 <= a < 2 ^ 15 -> 0 <= b < 2 ^ 15 ->
  (forall sg, Mult a b sg = (0, i32 (a * b))) /\ mult a b = (0, i32 (a * b)) /\ multu a b = (0, i32 (a * b)).
Proof.
  intros Ha Hb. assert (in_i32 a /\ in_i32 b) as [Hia Hib] by (unfold in_i32; lia). split_and!.
  - intros sg. rewrite Mult_eq by done. rewrite !u32_id by (unfold in_u32; lia).
    assert ((if sg : bool then a * b else a * b) = a * b) as -> by (by destruct sg).
    rewrite (Z.div_small (a * b)) by nia. done.
  - unfold mult. rewrite !(proj2 (Z.ltb_ge _ 0)) by lia. cbn [xorb]. by rewrite small_product.
  - unfold multu. by rewrite small_product.
Qed.

Lemma jump_word w : u32 (IndexToAddr (Z.land w 0x3ffffff)) = Z.shiftl (Z.land w 0x03ffffff) 2.
Proof.
  unfold IndexToAddr. rewrite u32_i32. apply u32_id. pose proof (land_ones_range w 26 ltac:(lia)) as Hr.
  change (Z.ones 26) with 0x3ffffff in Hr. rewrite Z.shiftl_mul_pow2 by lia. unfold in_u32. lia.
Qed.

Section Finish.
Context {K : Type}.

(** [finish_instruction] never enters the kernel: any kernel will do. *)
#[local] Instance silent_kernel : Kernel K := {| ExceptionHandler := fun _ => fail AssertFail |}.
#[local] Instance silent_kernel_safe : KernelSafe K.
Proof. refine {| kernel_inv := fun _ => True; kernel_faults := fun _ => True |}. by intros ex [m k] _. Defined.

Lemma finish_user_ok m (k : K) target m' : machine_ok m -> in_i32 target ->
  finish_instruction target 0 0 (m, k) = Ok ((m', k), tt) -> user_ok m'.
Proof.
  intros Hm Ht Hf. pose proof (triple_finish (K := K) (fun _ => False) target 0 0 Ht) as Htr.
  specialize (Htr ltac:(lia) ltac:(unfold in_i32; lia) (m, k) (conj Hm I)). rewrite Hf in Htr. by destruct Htr.
Qed.

Lemma finish_memory m (k : K) target m' : finish_instruction target 0 0 (m, k) = Ok ((m', k), tt) -> mainMemory m' = mainMemory m.
Proof.
  assert (forall m r v m', reg_set m r v = Ok m' -> mainMemory m' = mainMemory m) as Hset.
  { intros m0 r v m0' E. unfold reg_set in E. apply rbind_Ok in E as (l & _ & [= <-]). done. }
  assert (forall m lr lv m', DelayedLoad m lr lv = Ok m' -> mainMemory m' = mainMemory m) as Hload.
  { intros m0 lr lv m0' E. unfold DelayedLoad in E. inv_res E.
    repeat match goal with E : reg_set _ _ _ = Ok _ |- _ => apply Hset in E end.
    injection E as <-. cbn [mainMemory set_registers]. congruence. }
  unfold finish_instruction, sbind, on_machine_, rset, rget. intros HF.
  destruct (DelayedLoad m 0 0) as [m2|] eqn:E1; [|done]. cbn [rbind] in HF. apply Hload in E1.
  repeat (match type of HF with context [match (let* _ := ?x in _) with _ => _ end] => destruct x eqn:? end; cbn [rbind] in HF; [|done]).
  destruct (reg_set _ NextPCReg target) as [m5|] eqn:E5; [|done]. injection HF as <-.
  repeat match goal with E : reg_set _ _ _ = Ok _ |- _ => apply Hset in E end. congruence.
Qed.
End Finish.

(** Which kernel is there does not matter to an access that succeeds. *)
Lemma fetch_ok {K} `{!Kernel K} m (k : K) a n m1 k1 v : machine_ok m -> access_size n -> in_i32 a ->
  ReadMem a n (m, k) = Ok ((m1, k1), Some v) -> machine_ok m1 /\ in_i32 v.
Proof.
  intros Hm Hs Ha HR.
  assert (ReadMem (Kernel0 := silent_kernel (K := K)) a n (m, k) = Ok ((m1, k1), Some v)) as HR'.
  { revert HR. unfold ReadMem, sbind. destruct (on_machine _ (m, k)) as [[[m2 k2] [ex|pa]]|]; [|done|done].
    by destruct (RaiseException ex a (m2, k2)) as [[? []]|]. }
  pose proof (triple_read (K := K) (Kernel0 := silent_kernel) (KernelSafe0 := silent_kernel_safe) (fun _ => True) a n Hs Ha (fun _ _ => I) (m, k) (conj Hm I)) as Htr.
  rewrite HR' in Htr. by destruct Htr as [[? _] ?].
Qed.

Section Steps.
Context {K : Type} `{!Kernel K} {H : Type} `{!Host H}.

(** What [step] starts the [switch] with. *)
Definition entered (s : State) : State :=
  mkState (<[0%nat := 0]> (Reg s)) (HI s) (LO s) (npc s) (i32 (npc s + 4)) (mem s).

Lemma alike_read m s r : alike m s -> 0 <= r < 32 ->
  exists v, reg_is m r v /\ get_reg (entered s) r = Ok v /\ in_i32 v.
Proof.
  intros [Hm _ Hl Hr _ _ _ _] Hrr. destruct Hm as [Hm H0].
  destruct (reg_get_ok m r Hm) as (v & _ & Hv & Hi); [lia|]. exists v. split; [done|]. split; [|done].
  unfold get_reg, entered. cbn [Reg]. apply arr_get_lookup; [lia|]. destruct (decide (r = 0)) as [->|Hne].
  - change (Z.to_nat 0) with 0%nat in *. rewrite list_lookup_insert_eq by lia. congruence.
  - rewrite list_lookup_insert_ne by lia. by rewrite <-Hr by lia.
Qed.

(** One instruction changed at most a register and HI and LO, on both sides,
    and the two agree on the next counter: then the states stay alike. *)
Lemma alike_finish m (k : K) s dst v hi lo target : alike m s -> 0 <= dst < 32 -> in_i32 v -> in_i32 hi -> in_i32 lo ->
  let m1 := set_registers m (<[33%nat := lo]> (<[32%nat := hi]> (<[Z.to_nat dst := v]> (registers m)))) in
  let s' := mkState (<[Z.to_nat dst := v]> (<[0%nat := 0]> (Reg s))) hi lo (npc s) target (mem s) in
  exists m', finish_instruction target 0 0 (m1, k) = Ok ((m', k), tt) /\
    (in_i32 target -> alike m' s').
Proof.
  intros [[Hm H0] Hld Hl Hr Hhi Hlo Hpc Hnp] Hd Hv Hhi' Hlo' m1 s'. pose proof (mo_len m Hm) as Hlen.
  assert (machine_ok m1) as Hm1.
  { apply machine_ok_set_registers; [done|by rewrite !length_insert|repeat apply Forall_insert; try done; apply Hm|].
    intros r. rewrite !list_lookup_insert_ne by lia. apply Hm. }
  destruct (reg_get_ok m LoadValueReg Hm) as (pv & _ & Hpv & _); [done|].
  assert (forall r x, 34 <= r < 40 -> reg_is m r x -> reg_is m1 r x) as Hup.
  { intros r x Hrr. unfold reg_is, m1. cbn [registers set_registers]. by rewrite !list_lookup_insert_ne by lia. }
  destruct (delay_slots m1 k target 0 0 0 pv (pc s) (npc s) Hm1) as (m' & Hf & _ & Hpc' & Hnp' & Hld' & _ & H0' & _ & Hrest);
    try (by apply Hup); [lia|unfold in_i32; lia|].
  exists m'. split; [done|]. intros Ht.
  assert (user_ok m') as Hu by (by eapply finish_user_ok).
  unfold s'. split; cbn [Reg HI LO pc npc]; try done.
  - by rewrite !length_insert.
  - intros r Hrr. rewrite Hrest by lia. unfold m1. cbn [registers set_registers]. rewrite !list_lookup_insert_ne by lia.
    destruct (decide (r = dst)) as [->|Hne]; [by rewrite !list_lookup_insert_eq by (rewrite ?length_insert; lia)|].
    by rewrite !list_lookup_insert_ne, Hr by lia.
  - unfold reg_is in *. rewrite Hrest by (unfold HiReg; lia). unfold m1. cbn [registers set_registers].
    rewrite list_lookup_insert_ne by done. apply list_lookup_insert_eq. rewrite length_insert. lia.
  - unfold reg_is in *. rewrite Hrest by (unfold LoReg; lia). unfold m1. cbn [registers set_registers].
    apply list_lookup_insert_eq. rewrite !length_insert. lia.
Qed.

(** Both interpreters execute the word [w] with the same effect: a register
    write, new HI and LO, the next counter. *)
Definition both (m : Machine) (k : K) (h : H) (s : State) (w : Z) : Prop :=
  exists dst v hi lo target, 0 <= dst < 32 /\ in_i32 v /\ in_i32 hi /\ in_i32 lo /\ in_i32 target /\
    Mips.exec_op (decoded w) (i32 (npc s + 4)) (m, k) =
      Ok ((set_registers m (<[33%nat := lo]> (<[32%nat := hi]> (<[Z.to_nat dst := v]> (registers m)))), k), Some (target, 0, 0)) /\
    exec_normal w (pc s) h (entered s) =
      Ok (Go h (mkState (<[Z.to_nat dst := v]> (<[0%nat := 0]> (Reg s))) hi lo (npc s) target (mem s))).

Section Word.
Context (m : Machine) (k : K) (h : H) (s : State) (w : Z) (Ha : alike m s).
Context (a b : Z) (Hra : reg_is m (Execute.rs w) a) (Hrb : reg_is m (Execute.rt w) b).
Context (Hga : get_reg (entered s) (Execute.rs w) = Ok a) (Hgb : get_reg (entered s) (Execute.rt w) = Ok b).
Context (Hia : in_i32 a) (Hib : in_i32 b).

Lemma alike_int r v : reg_is m r v -> in_i32 v.
Proof. intros Hr. eapply Forall_lookup_1; [apply (mo_int m), (al_machine m s Ha)|exact Hr]. Qed.

Lemma alike_length : length (registers m) = 40%nat.
Proof. apply (mo_len m), (al_machine m s Ha). Qed.

Lemma fields : 0 <= Execute.rs w < 32 /\ 0 <= Execute.rt w < 32 /\ 0 <= Execute.rd w < 32.
Proof. split_and!; apply land5_range. Qed.

Lemma both_write dst v target : 0 <= dst < 32 -> in_i32 v -> in_i32 target ->
  Mips.exec_op (decoded w) (i32 (npc s + 4)) (m, k) = Ok ((with_reg m dst v, k), Some (target, 0, 0)) ->
  exec_normal w (pc s) h (entered s) =
    Ok (Go h (with_npc (with_Reg (entered s) (<[Z.to_nat dst := v]> (Reg (entered s)))) target)) -> both m k h s w.
Proof.
  intros Hd Hv Ht Hm He. pose proof (al_HI m s Ha) as Hh. pose proof (al_LO m s Ha) as Hl.
  exists dst, v, (HI s), (LO s), target. split_and!; try done; try lia; try by eapply alike_int.
  rewrite Hm. unfold with_reg.
  assert (<[32%nat := HI s]> (<[Z.to_nat dst := v]> (registers m)) = <[Z.to_nat dst := v]> (registers m)) as ->
    by (apply list_insert_id; by rewrite list_lookup_insert_ne by lia).
  assert (<[33%nat := LO s]> (<[Z.to_nat dst := v]> (registers m)) = <[Z.to_nat dst := v]> (registers m)) as ->
    by (apply list_insert_id; by rewrite list_lookup_insert_ne by lia).
  done.
Qed.

Lemma both_hilo hi lo : in_i32 hi -> in_i32 lo ->
  Mips.exec_op (decoded w) (i32 (npc s + 4)) (m, k) =
    Ok ((with_reg (with_reg m HiReg hi) LoReg lo, k), Some (i32 (npc s + 4), 0, 0)) ->
  exec_normal w (pc s) h (entered s) = Ok (Go h (with_HILO (entered s) hi lo)) -> both m k h s w.
Proof.
  intros Hh Hl Hm He. pose proof (proj2 (al_machine m s Ha)) as H0. pose proof (al_len m s Ha) as Hlen.
  exists 0, 0, hi, lo, (i32 (npc s + 4)). split_and!; try done; try apply i32_range; try (unfold in_i32; lia).
  - rewrite Hm. change (Z.to_nat 0) with 0%nat. by rewrite (list_insert_id (registers m) 0%nat 0 H0).
  - rewrite He. do 2 f_equal. unfold with_HILO, entered. cbn [Reg pc npc mem]. f_equal.
    by rewrite list_insert_insert_eq.
Qed.

Lemma both_jump target : in_i32 target ->
  Mips.exec_op (decoded w) (i32 (npc s + 4)) (m, k) = Ok ((m, k), Some (target, 0, 0)) ->
  exec_normal w (pc s) h (entered s) = Ok (Go h (with_npc (entered s) target)) -> both m k h s w.
Proof.
  intros Ht Hm He. pose proof (proj2 (al_machine m s Ha)) as H0. apply (both_write 0 0 target); [lia|unfold in_i32; lia|done|..].
  - rewrite Hm. unfold with_reg. rewrite list_insert_id by done. by destruct m.
  - rewrite He. unfold with_npc, with_Reg, entered. cbn [Reg HI LO pc npc mem]. by rewrite list_insert_insert_eq.
Qed.

(** The simulator's and the interpreter's schemes, run. *)
Lemma exec_r_run f pcA : exec_r f (decoded w) pcA (m, k) = Ok ((with_reg m (Execute.rd w) (f a b), k), Some (pcA, 0, 0)).
Proof.
  pose proof fields as (Hs & Ht & Hd). pose proof alike_length. destruct (decoded_fields w) as (Es & Et & Ed).
  unfold exec_r, sbind. rewrite Es, Et, Ed. rewrite (rget_run m k _ a), (rget_run m k _ b) by (done || lia).
  by rewrite rset_run by lia.
Qed.

Lemma exec_i_run f pcA : exec_i f (decoded w) pcA (m, k) =
  Ok ((with_reg m (Execute.rt w) (f a (extra (decoded w))), k), Some (pcA, 0, 0)).
Proof.
  pose proof fields as (Hs & Ht & Hd). pose proof alike_length. destruct (decoded_fields w) as (Es & Et & Ed).
  unfold exec_i, sbind. rewrite Es, Et. rewrite (rget_run m k _ a) by (done || lia).
  by rewrite rset_run by lia.
Qed.

Lemma set_reg_run (s1 : State) r v : length (Reg s1) = 32%nat -> 0 <= r < 32 ->
  set_reg s1 r v = Ok (with_Reg s1 (<[Z.to_nat r := v]> (Reg s1))).
Proof. intros Hl Hr. unfold set_reg. by rewrite arr_set_in by lia. Qed.

Lemma entered_length : length (Reg (entered s)) = 32%nat.
Proof. cbn. by rewrite length_insert, (al_len m s Ha). Qed.

Lemma op_r_run f : op_r f w (entered s) = Ok (with_Reg (entered s) (<[Z.to_nat (Execute.rd w) := f a b]> (Reg (entered s)))).
Proof. unfold op_r. rewrite Hga, Hgb. cbn [rbind]. apply set_reg_run; [apply entered_length|apply fields]. Qed.

Lemma op_i_run f : op_i f w (entered s) = Ok (with_Reg (entered s) (<[Z.to_nat (Execute.rt w) := f a]> (Reg (entered s)))).
Proof. unfold op_i. rewrite Hga. cbn [rbind]. apply set_reg_run; [apply entered_length|apply fields]. Qed.

Lemma both_r f g : Mips.exec_op (decoded w) (i32 (npc s + 4)) = exec_r f (decoded w) (i32 (npc s + 4)) ->
  exec_normal w (pc s) h (entered s) = go h (op_r g w (entered s)) -> f a b = g a b -> in_i32 (g a b) -> both m k h s w.
Proof.
  intros Hm He Hfg Hi. apply (both_write (Execute.rd w) (g a b) (i32 (npc s + 4))); [apply fields|exact Hi|apply i32_range|..].
  - by rewrite Hm, exec_r_run, Hfg.
  - by rewrite He, op_r_run.
Qed.

Lemma both_i f g : Mips.exec_op (decoded w) (i32 (npc s + 4)) = exec_i f (decoded w) (i32 (npc s + 4)) ->
  exec_normal w (pc s) h (entered s) = go h (op_i g w (entered s)) -> f a (extra (decoded w)) = g a -> in_i32 (g a) -> both m k h s w.
Proof.
  intros Hm He Hfg Hi. apply (both_write (Execute.rt w) (g a) (i32 (npc s + 4))); [apply fields|exact Hi|apply i32_range|..].
  - by rewrite Hm, exec_i_run, Hfg.
  - by rewrite He, op_i_run.
Qed.

Lemma both_shiftv f g : Mips.exec_op (decoded w) (i32 (npc s + 4)) = exec_r f (decoded w) (i32 (npc s + 4)) ->
  exec_normal w (pc s) h (entered s) = go h (op_shiftv g w (entered s)) -> 0 <= a < 32 -> f a b = g b a -> in_i32 (g b a) -> both m k h s w.
Proof.
  intros Hm He Hc Hfg Hi. apply (both_r f (fun x y => g y x)); [done| |done|done]. rewrite He. unfold op_shiftv, op_r, go.
  rewrite Hga, Hgb. cbn [rbind]. unfold shift_count. by rewrite decide_True.
Qed.

(** Counters: a link register, a taken branch. *)
Lemma i32_sum x y : i32 (i32 x + i32 y) = i32 (x + y).
Proof.
  destruct (i32_congr x) as [p ->]. destruct (i32_congr y) as [q ->].
  replace (x + p * 2 ^ 32 + (y + q * 2 ^ 32)) with (x + y + (p + q) * 2 ^ 32) by lia. apply i32_add_mult.
Qed.

Lemma i32_plus x c : i32 (i32 x + c) = i32 (x + c).
Proof. destruct (i32_congr x) as [p ->]. replace (x + p * 2 ^ 32 + c) with (x + c + p * 2 ^ 32) by lia. apply i32_add_mult. Qed.

Lemma straight_link : npc s = i32 (pc s + 4) -> i32 (npc s + 4) = i32 (pc s + 8).
Proof. intros ->. rewrite i32_plus. f_equal. lia. Qed.

Lemma straight_target : npc s = i32 (pc s + 4) ->
  branch_target (npc s) (immed w) = i32 (pc s + 4 + Z.shiftl (immed w) 2).
Proof. intros ->. unfold branch_target, IndexToAddr. by rewrite i32_sum. Qed.

(** The register file after a link to register [r], in both. *)
Lemma link_run r : 0 <= r < 32 -> link r (m, k) = Ok ((with_reg m r (i32 (npc s + 4)), k), tt).
Proof.
  intros Hr. unfold link, sbind. rewrite (rget_run m k NextPCReg (npc s)) by (done || apply (al_npc m s Ha)).
  pose proof alike_length. by rewrite rset_run by lia.
Qed.

Lemma branch_run (taken : bool) m' ex pcA : reg_is m' NextPCReg (npc s) ->
  Mips.branch taken ex pcA (m', k) = Ok ((m', k), Some (if taken then branch_target (npc s) ex else pcA, 0, 0)).
Proof. intros Hn. destruct taken; [|done]. cbn. unfold sbind. by rewrite (rget_run m' k NextPCReg (npc s)). Qed.

Lemma both_branch (taken : bool) : extra (decoded w) = immed w -> npc s = i32 (pc s + 4) ->
  Mips.exec_op (decoded w) (i32 (npc s + 4)) (m, k) = Mips.branch taken (extra (decoded w)) (i32 (npc s + 4)) (m, k) ->
  exec_normal w (pc s) h (entered s) = Ok (Go h (branch taken w (pc s) (entered s))) -> both m k h s w.
Proof.
  intros Hx Hst Hm He. apply (both_jump (if taken then i32 (pc s + 4 + Z.shiftl (immed w) 2) else i32 (npc s + 4))).
  - destruct taken; apply i32_range.
  - rewrite Hm, branch_run by apply (al_npc m s Ha). rewrite Hx, straight_target by done. done.
  - rewrite He. by destruct taken.
Qed.

(** [Reg[rs]] after the link register was written. *)
Definition linked : Z := if decide (Execute.rs w = 31) then i32 (npc s + 4) else a.

Lemma both_link_branch (f : Z -> bool) : extra (decoded w) = immed w -> npc s = i32 (pc s + 4) ->
  Mips.exec_op (decoded w) (i32 (npc s + 4)) =
    sbind (link R31) (fun _ => sbind (rget (Mips.rs (decoded w))) (fun x => Mips.branch (f x) (extra (decoded w)) (i32 (npc s + 4)))) ->
  exec_normal w (pc s) h (entered s) =
    rbind (set_reg (entered s) 31 (i32 (pc s + 8))) (fun s1 => rbind (get_reg s1 (Execute.rs w)) (fun x => Ok (Go h (branch (f x) w (pc s) s1)))) ->
  both m k h s w.
Proof.
  intros Hx Hst Hm He. destruct fields as (Hs & _ & _). pose proof alike_length as Hlm. pose proof entered_length as Hle.
  destruct (decoded_fields w) as (Ers & _ & _).
  assert (reg_is (with_reg m 31 (i32 (npc s + 4))) (Execute.rs w) linked) as Hl1.
  { unfold reg_is, with_reg, linked. cbn [registers set_registers]. case_decide as Hd.
    - rewrite Hd. apply list_lookup_insert_eq. lia.
    - by rewrite list_lookup_insert_ne by lia. }
  assert (get_reg (with_Reg (entered s) (<[31%nat := i32 (npc s + 4)]> (Reg (entered s)))) (Execute.rs w) = Ok linked) as Hl2.
  { unfold get_reg, linked in *. cbn [Reg with_Reg]. apply arr_get_lookup; [lia|]. case_decide as Hd.
    - rewrite Hd. apply list_lookup_insert_eq. lia.
    - rewrite list_lookup_insert_ne by lia. by apply arr_get_Ok in Hga as [_ ?]. }
  apply (both_write 31 (i32 (npc s + 4)) (if f linked then i32 (pc s + 4 + Z.shiftl (immed w) 2) else i32 (npc s + 4))).
  - lia.
  - apply i32_range.
  - destruct (f linked); apply i32_range.
  - rewrite Hm. unfold sbind. rewrite link_run by (unfold R31; lia). rewrite Ers.
    rewrite (rget_run _ k _ linked) by (done || lia).
    rewrite branch_run, Hx, straight_target; [done|done|].
    unfold reg_is, with_reg. cbn [registers set_registers]. rewrite list_lookup_insert_ne by (unfold NextPCReg, R31; lia). apply (al_npc m s Ha).
  - rewrite He, <-straight_link by done. rewrite set_reg_run by (done || lia). cbn [rbind]. change (Z.to_nat 31) with 31%nat.
    rewrite Hl2. cbn [rbind]. by destruct (f linked).
Qed.

Lemma decoded_special : normal_op (Z.land (Z.shiftr w 26) 0x3f) = Some I_SPECIAL ->
  opCode (decoded w) = op_of_special (special_op (Z.land w 0x3f)) /\ extra (decoded w) = shamt w /\
  exec_normal w (pc s) h (entered s) = exec_special w (pc s) h (entered s).
Proof. intros En. unfold decoded, exec_normal. by rewrite En. Qed.

Lemma hilo_run r v r' v' : 32 <= r < 34 -> 32 <= r' < 34 ->
  sbind (rset r v) (fun _ => sbind (rset r' v') (fun _ => continue (i32 (npc s + 4)))) (m, k) =
  Ok ((with_reg (with_reg m r v) r' v', k), Some (i32 (npc s + 4), 0, 0)).
Proof.
  intros Hr Hr'. pose proof alike_length. unfold sbind. rewrite rset_run by lia.
  by rewrite rset_run by (cbn; rewrite ?length_insert; lia).
Qed.

Lemma lo_hi hi lo : with_reg (with_reg m LoReg lo) HiReg hi = with_reg (with_reg m HiReg hi) LoReg lo.
Proof. unfold with_reg. cbn [registers set_registers]. f_equal. by rewrite list_insert_insert_ne. Qed.

Lemma divide_runs hi lo (ok : res (Z * Z)) f : in_i32 hi -> in_i32 lo -> ok = Ok (hi, lo) -> f a b = ok ->
  Mips.exec_op (decoded w) (i32 (npc s + 4)) (m, k) =
    Ok ((with_reg (with_reg m HiReg hi) LoReg lo, k), Some (i32 (npc s + 4), 0, 0)) ->
  exec_normal w (pc s) h (entered s) = go h (op_hilo f w (entered s)) -> both m k h s w.
Proof.
  intros Hh Hl Hok Hf Hm He. apply (both_hilo hi lo); [done..|]. rewrite He. unfold op_hilo, go. rewrite Hga, Hgb. cbn [rbind].
  by rewrite Hf, Hok.
Qed.

(** A move between HI or LO and a general register. *)
Lemma move_run src dst v : reg_is m src v -> 0 <= src < 40 -> 0 <= dst < 40 ->
  exec_move src dst (i32 (npc s + 4)) (m, k) = Ok ((with_reg m dst v, k), Some (i32 (npc s + 4), 0, 0)).
Proof.
  intros Hv Hs Hd. pose proof alike_length. unfold exec_move, sbind. rewrite (rget_run m k src v) by (done || lia).
  by rewrite rset_run by lia.
Qed.

(** ADD, ADDI and SUB without their trap. *)
Lemma trap_check_runs pcA :
  exec_add (decoded w) pcA (m, k) = (if bool_decide (- 2 ^ 31 <= a + b < 2 ^ 31)
    then Ok ((with_reg m (Mips.rd (decoded w)) (a + b), k), Some (pcA, 0, 0)) else trap OverflowException 0 (m, k)) /\
  exec_addi (decoded w) pcA (m, k) = (if bool_decide (- 2 ^ 31 <= a + extra (decoded w) < 2 ^ 31)
    then Ok ((with_reg m (Mips.rt (decoded w)) (a + extra (decoded w)), k), Some (pcA, 0, 0)) else trap OverflowException 0 (m, k)) /\
  exec_sub (decoded w) pcA (m, k) = (if bool_decide (- 2 ^ 31 <= a - b < 2 ^ 31)
    then Ok ((with_reg m (Mips.rd (decoded w)) (a - b), k), Some (pcA, 0, 0)) else trap OverflowException 0 (m, k)).
Proof.
  destruct (Decode_ok (u32 w)) as (i & Hd & Hi). rewrite Decode_decoded in Hd. injection Hd as <-.
  destruct (decoded_fields w) as (Ers & Ert & _).
  apply (overflow_traps_exactly m k (decoded w) pcA a b); [apply (al_machine m s Ha)|done|by rewrite Ers|by rewrite Ert].
Qed.

(** After a link, [rs] holds an [int] in the interpreter. *)
Lemma rbind_link (f g : Z -> bool) : (forall x, in_i32 x -> f x = g x) ->
  (let* s1 := set_reg (entered s) 31 (i32 (pc s + 8)) in
   let* x := get_reg s1 (Execute.rs w) in Ok (Go h (branch (f x) w (pc s) s1))) =
  (let* s1 := set_reg (entered s) 31 (i32 (pc s + 8)) in
   let* x := get_reg s1 (Execute.rs w) in Ok (Go h (branch (g x) w (pc s) s1))).
Proof.
  intros Hfg. destruct fields as (Hfs & _ & _). rewrite set_reg_run by (apply entered_length || lia). cbn [rbind]. unfold get_reg. cbn [Reg with_Reg].
  change (Z.to_nat 31) with 31%nat. pose proof entered_length.
  destruct (decide (Execute.rs w = 31)) as [E|E].
  - rewrite E, (arr_get_lookup _ 31 (i32 (pc s + 8))) by (lia || (apply list_lookup_insert_eq; lia)). cbn [rbind]. by rewrite Hfg by apply i32_range.
  - rewrite (arr_get_lookup _ (Execute.rs w) a); [cbn [rbind]; by rewrite Hfg|lia|].
    rewrite list_lookup_insert_ne by lia. by apply arr_get_Ok in Hga as [_ ?].
Qed.

Ltac op_is E := unfold Mips.exec_op; rewrite E; reflexivity.
Ltac int_range := first [apply i32_range | assumption | apply land_i32; int_range | apply lor_i32; int_range
  | apply lxor_i32; int_range | apply lnot_i32; int_range | apply b2z_i32 | apply immed_i32 | (unfold in_i32; lia)].

(** A register-to-register instruction, given the names of its two cases. *)
Ltac alu_r Eop He := eapply both_r; [op_is Eop|rewrite He; reflexivity| |]; cbv beta.
Ltac alu_i Eop He := eapply both_i; [op_is Eop|rewrite He; reflexivity| |]; cbv beta.

Lemma special_agrees : normal_op (Z.land (Z.shiftr w 26) 0x3f) = Some I_SPECIAL ->
  agrees (decoded w) a b (pc s) (npc s) = true -> both m k h s w.
Proof.
  intros En Hag. destruct (decoded_special En) as (Eop & Ex & He). destruct fields as (Hfs & Hft & Hfd).
  destruct (decoded_fields w) as (Ers & Ert & Erd). unfold agrees in Hag. pose proof (shamt_range w) as Hsh.
  pose proof (alike_length) as Hlm.
  unfold exec_special in He.
  destruct (special_op (Z.land w 0x3f)) as [[]|]; cbn [op_of_special] in Eop; rewrite Eop in Hag; try discriminate Hag.
  - alu_r Eop He; [by rewrite Ex|int_range].
  - apply bool_decide_eq_true in Hag. alu_r Eop He; [rewrite Ex; apply srl_nonneg; [done|done|lia]|int_range].
  - alu_r Eop He; [by rewrite Ex|apply shiftr_i32; [lia|done]].
  - apply bool_decide_eq_true in Hag. eapply both_shiftv; [op_is Eop|rewrite He; reflexivity|done|cbv beta; by rewrite shift5|int_range].
  - apply andb_true_iff in Hag as [Hc H0]. apply bool_decide_eq_true in Hc, H0.
    eapply both_shiftv; [op_is Eop|rewrite He; reflexivity|done|cbv beta; rewrite shift5 by done; apply srl_nonneg; [done|done|lia]|int_range].
  - apply bool_decide_eq_true in Hag.
    eapply both_shiftv; [op_is Eop|rewrite He; reflexivity|done|cbv beta; by rewrite shift5|apply shiftr_i32; [lia|done]].
  - apply (both_jump a); [done| |].
    + unfold Mips.exec_op. rewrite Eop, Ers. unfold sbind. by rewrite (rget_run m k _ a) by (done || lia).
    + rewrite He, Hga. done.
  - apply andb_true_iff in Hag as [Hst Hne]. apply bool_decide_eq_true in Hst. apply negb_true_iff, bool_decide_eq_false in Hne.
    rewrite Ers, Erd in Hne. apply (both_write (Execute.rd w) (i32 (npc s + 4)) a); [done|int_range|done| |].
    + unfold Mips.exec_op. rewrite Eop, Ers, Erd. unfold sbind at 1. rewrite link_run by done. unfold sbind.
      rewrite (rget_run _ k _ a); [done|lia|]. unfold reg_is, with_reg in *. cbn [registers set_registers].
      by rewrite list_lookup_insert_ne by lia.
    + rewrite He, Hga. cbn [rbind]. unfold go. rewrite set_reg_run by (done || apply entered_length). by rewrite straight_link.
  - apply (both_write (Execute.rd w) (HI s) (i32 (npc s + 4))); [done|apply (alike_int _ _ (al_HI m s Ha))|int_range| |].
    + unfold Mips.exec_op. rewrite Eop, Erd. apply move_run; [apply (al_HI m s Ha)|done|lia].
    + rewrite He. unfold go. rewrite set_reg_run by (done || apply entered_length). done.
  - apply (both_hilo a (LO s)); [done|apply (alike_int _ _ (al_LO m s Ha))| |by rewrite He, Hga].
    unfold Mips.exec_op. rewrite Eop, Ers. rewrite (move_run _ HiReg a) by (done || lia). do 3 f_equal. unfold with_reg.
    cbn [registers set_registers]. rewrite (list_insert_id _ _ (LO s)); [done|]. rewrite list_lookup_insert_ne by done. apply (al_LO m s Ha).
  - apply (both_write (Execute.rd w) (LO s) (i32 (npc s + 4))); [done|apply (alike_int _ _ (al_LO m s Ha))|int_range| |].
    + unfold Mips.exec_op. rewrite Eop, Erd. apply move_run; [apply (al_LO m s Ha)|done|lia].
    + rewrite He. unfold go. rewrite set_reg_run by (done || apply entered_length). done.
  - apply (both_hilo (HI s) a); [apply (alike_int _ _ (al_HI m s Ha))|done| |by rewrite He, Hga].
    unfold Mips.exec_op. rewrite Eop, Ers. rewrite (move_run _ LoReg a) by (done || lia). do 3 f_equal. unfold with_reg.
    cbn [registers set_registers]. rewrite (list_insert_id _ (Z.to_nat HiReg) (HI s)); [done|]. apply (al_HI m s Ha).
  - apply andb_true_iff in Hag as [H1 H2]. apply bool_decide_eq_true in H1, H2. destruct (mult_small a b H1 H2) as (Hm & Hi & _).
    apply (divide_runs 0 (i32 (a * b)) (Ok (mult a b)) (fun a b => Ok (mult a b))); [by vm_compute|int_range|by rewrite Hi|done| |done].
    unfold Mips.exec_op. rewrite Eop. unfold exec_mult. rewrite Ers, Ert. unfold sbind at 1 2.
    rewrite (rget_run m k _ a), (rget_run m k _ b) by (done || lia). rewrite Hm. by rewrite hilo_run.
  - apply andb_true_iff in Hag as [H1 H2]. apply bool_decide_eq_true in H1, H2. destruct (mult_small a b H1 H2) as (Hm & _ & Hi).
    apply (divide_runs 0 (i32 (a * b)) (Ok (multu a b)) (fun a b => Ok (multu a b))); [by vm_compute|int_range|by rewrite Hi|done| |done].
    unfold Mips.exec_op. rewrite Eop. unfold exec_mult. rewrite Ers, Ert. unfold sbind at 1 2.
    rewrite (rget_run m k _ a), (rget_run m k _ b) by (done || lia). rewrite Hm. by rewrite hilo_run.
  - apply negb_true_iff, bool_decide_eq_false in Hag. assert (b <> 0 /\ ~ (a = - 2 ^ 31 /\ b = -1)) as [Hb0 Hov] by tauto.
    pose proof (quot_i32 a b Hia Hib Hb0 Hov) as [Hq Hr].
    apply (divide_runs (Z.rem a b) (Z.quot a b) (div a b) div); [done|done|unfold div; by rewrite decide_False|done| |done].
    unfold Mips.exec_op. rewrite Eop. unfold exec_div. rewrite Ers, Ert. unfold sbind at 1.
    rewrite (rget_run m k _ b) by (done || lia). rewrite (proj2 (Z.eqb_neq b 0)) by done. unfold sbind at 1.
    rewrite (rget_run m k _ a) by (done || lia).
    assert ((a =? - 2 ^ 31) && (b =? -1) = false) as -> by (apply andb_false_iff; rewrite !Z.eqb_neq; lia).
    rewrite hilo_run by done. by rewrite lo_hi.
  - apply negb_true_iff, bool_decide_eq_false in Hag.
    apply (divide_runs (i32 (u32 a mod u32 b)) (i32 (u32 a / u32 b)) (divu a b) divu); [int_range|int_range|unfold divu; by rewrite decide_False|done| |done].
    unfold Mips.exec_op. rewrite Eop. unfold exec_divu. rewrite Ers, Ert. unfold sbind at 1 2.
    rewrite (rget_run m k _ a), (rget_run m k _ b) by (done || lia). rewrite (proj2 (Z.eqb_neq (u32 b) 0)) by done.
    rewrite hilo_run by done. by rewrite lo_hi.
  - apply bool_decide_eq_true in Hag. destruct (trap_check_runs (i32 (npc s + 4))) as (Hadd & _ & _).
    rewrite (bool_decide_eq_true_2 _ Hag) in Hadd. apply (both_write (Execute.rd w) (a + b) (i32 (npc s + 4))); [done|exact Hag|int_range| |].
    + unfold Mips.exec_op. by rewrite Eop, Hadd, Erd.
    + rewrite He, op_r_run. by rewrite i32_id.
  - alu_r Eop He; [done|int_range].
  - apply bool_decide_eq_true in Hag. destruct (trap_check_runs (i32 (npc s + 4))) as (_ & _ & Hsub).
    rewrite (bool_decide_eq_true_2 _ Hag) in Hsub. apply (both_write (Execute.rd w) (a - b) (i32 (npc s + 4))); [done|exact Hag|int_range| |].
    + unfold Mips.exec_op. by rewrite Eop, Hsub, Erd.
    + rewrite He, op_r_run. by rewrite i32_id.
  - alu_r Eop He; [done|int_range].
  - alu_r Eop He; [done|int_range].
  - apply bool_decide_eq_true in Hag. alu_r Eop He; [by rewrite Z.lor_diag|int_range].
  - alu_r Eop He; [done|int_range].
  - alu_r Eop He; [done|int_range].
  - alu_r Eop He; [done|int_range].
  - alu_r Eop He; [done|int_range].
Qed.

Lemma bcond_agrees : normal_op (Z.land (Z.shiftr w 26) 0x3f) = Some I_BCOND ->
  agrees (decoded w) a b (pc s) (npc s) = true -> both m k h s w.
Proof.
  intros En Hag. assert (opCode (decoded w) = op_of_bcond (bcond_op (Execute.rt w)) /\ extra (decoded w) = immed w /\
    exec_normal w (pc s) h (entered s) = exec_bcond w (pc s) h (entered s)) as (Eop & Ex & He)
    by (unfold decoded, exec_normal; by rewrite En).
  destruct fields as (Hfs & _ & _). destruct (decoded_fields w) as (Ers & _ & _).
  unfold agrees in Hag. unfold exec_bcond in He.
  assert (forall x, in_i32 x -> negb (sign_bit x) = (x >=? 0)) as Hsg.
  { intros x Hx. rewrite sign_bit_ltb, Z.geb_leb by done. by rewrite Z.ltb_antisym, negb_involutive. }
  destruct (bcond_op (Execute.rt w)) as [[]|]; cbn [op_of_bcond] in Eop; rewrite Eop in Hag; try discriminate Hag;
    apply bool_decide_eq_true in Hag.
  - apply (both_branch (a <? 0)); [done|done| |by rewrite He, Hga].
    unfold Mips.exec_op. rewrite Eop, Ers. unfold sbind. rewrite (rget_run m k _ a) by (done || lia). by rewrite sign_bit_ltb.
  - apply (both_branch (a >=? 0)); [done|done| |by rewrite He, Hga].
    unfold Mips.exec_op. rewrite Eop, Ers. unfold sbind. rewrite (rget_run m k _ a) by (done || lia). by rewrite Hsg.
  - apply (both_link_branch sign_bit); [done|done|unfold Mips.exec_op; by rewrite Eop|].
    rewrite He. apply rbind_link. intros x Hx. by rewrite sign_bit_ltb.
  - apply (both_link_branch (fun x => negb (sign_bit x))); [done|done|unfold Mips.exec_op; by rewrite Eop|].
    rewrite He. apply rbind_link. intros x Hx. by rewrite Hsg.
Qed.

(** The instructions of the outer [switch]. *)
Lemma decoded_normal n : normal_op (Z.land (Z.shiftr w 26) 0x3f) = Some n -> n <> I_SPECIAL -> n <> I_BCOND ->
  opCode (decoded w) = op_of_normal (Some n) /\
  extra (decoded w) = match n with I_J | I_JAL => Z.land w 0x3ffffff | _ => immed w end.
Proof. intros En H1 H2. unfold decoded. rewrite En. by destruct n. Qed.

Lemma both_compare (t : bool) f : extra (decoded w) = immed w -> npc s = i32 (pc s + 4) ->
  Mips.exec_op (decoded w) (i32 (npc s + 4)) (m, k) = Mips.branch t (extra (decoded w)) (i32 (npc s + 4)) (m, k) ->
  exec_normal w (pc s) h (entered s) = (let* a := get_reg (entered s) (Execute.rs w) in
    let* b := get_reg (entered s) (Execute.rt w) in Ok (Go h (branch (f a b) w (pc s) (entered s)))) ->
  f a b = t -> both m k h s w.
Proof. intros Hx Hst Hm He <-. apply (both_branch (f a b)); [done|done|done|]. by rewrite He, Hga, Hgb. Qed.

(** The first operands of a branch are read. *)
Lemma read_rs {A} (c : Z -> ST (Machine * K) A) : sbind (rget (Mips.rs (decoded w))) c (m, k) = c a (m, k).
Proof.
  destruct (decoded_fields w) as (Ers & _ & _). destruct fields as (Hfs & _). unfold sbind. rewrite Ers.
  by rewrite (rget_run m k _ a) by (done || lia).
Qed.
Lemma read_rt {A} (c : Z -> ST (Machine * K) A) : sbind (rget (Mips.rt (decoded w))) c (m, k) = c b (m, k).
Proof.
  destruct (decoded_fields w) as (_ & Ert & _). destruct fields as (_ & Hft & _). unfold sbind. rewrite Ert.
  by rewrite (rget_run m k _ b) by (done || lia).
Qed.

Lemma both_jal : opCode (decoded w) = OP_JAL -> extra (decoded w) = Z.land w 0x3ffffff ->
  exec_normal w (pc s) h (entered s) = go h (set_reg (with_npc (entered s) (jump_target w (pc s))) 31 (i32 (pc s + 8))) ->
  Z.land (u32 (i32 (npc s + 4))) 0xf0000000 = Z.land (u32 (pc s)) 0xf0000000 -> npc s = i32 (pc s + 4) -> both m k h s w.
Proof.
  intros Eop Ex He Hrg Hst. apply (both_write 31 (i32 (npc s + 4)) (jump_target w (pc s))); [lia|int_range|int_range| |].
  - unfold Mips.exec_op. rewrite Eop, Ex. unfold sbind at 1. rewrite link_run by (unfold R31; lia). unfold continue, sret, jump_target.
    by rewrite jump_word, Hrg.
  - rewrite He. unfold go. rewrite set_reg_run by (lia || apply entered_length). by rewrite straight_link.
Qed.

Lemma normal_agrees n : normal_op (Z.land (Z.shiftr w 26) 0x3f) = Some n -> n <> I_SPECIAL -> n <> I_BCOND ->
  agrees (decoded w) a b (pc s) (npc s) = true -> both m k h s w.
Proof.
  intros En H1 H2 Hag. destruct (decoded_normal n En H1 H2) as [Eop Ex]. unfold agrees in Hag. rewrite Eop in Hag.
  destruct fields as (Hfs & Hft & _). destruct (decoded_fields w) as (Ers & Ert & _). pose proof alike_length as Hlm.
  pose proof (immed_i32 w) as Hii.
  assert (exec_normal w (pc s) h (entered s) = exec_normal w (pc s) h (entered s)) as He by done.
  unfold exec_normal in He at 2. rewrite En in He.
  destruct n; cbn [op_of_normal] in Eop, Hag; try congruence; try discriminate Hag.
  - apply bool_decide_eq_true in Hag. apply (both_jump (jump_target w (pc s))); [int_range| |done].
    unfold Mips.exec_op. rewrite Eop, Ex. unfold continue, sret, jump_target. by rewrite jump_word, Hag.
  - apply andb_true_iff in Hag as [Hrg Hst]. apply bool_decide_eq_true in Hrg, Hst. by apply both_jal.
  - apply bool_decide_eq_true in Hag. eapply both_compare; [done|done| |exact He|reflexivity].
    unfold Mips.exec_op. by rewrite Eop, read_rs, read_rt.
  - apply bool_decide_eq_true in Hag. eapply both_compare; [done|done| |exact He|reflexivity].
    unfold Mips.exec_op. by rewrite Eop, read_rs, read_rt.
  - apply bool_decide_eq_true in Hag. eapply both_compare; [done|done| |exact He|reflexivity].
    unfold Mips.exec_op. by rewrite Eop, read_rs.
  - apply bool_decide_eq_true in Hag. eapply both_compare; [done|done| |exact He|reflexivity].
    unfold Mips.exec_op. by rewrite Eop, read_rs.
  - apply bool_decide_eq_true in Hag. destruct (trap_check_runs (i32 (npc s + 4))) as (_ & Hadd & _).
    rewrite (bool_decide_eq_true_2 _ Hag) in Hadd. rewrite Ex in Hadd, Hag.
    apply (both_write (Execute.rt w) (a + immed w) (i32 (npc s + 4))); [done|exact Hag|int_range| |].
    + unfold Mips.exec_op. by rewrite Eop, Hadd, Ert.
    + rewrite He, op_i_run. by rewrite i32_id.
  - alu_i Eop He; [by rewrite Ex|int_range].
  - alu_i Eop He; [by rewrite Ex|int_range].
  - alu_i Eop He; [by rewrite Ex|int_range].
  - apply bool_decide_eq_true in Hag. rewrite Ex in Hag. alu_i Eop He; [by rewrite Ex, immed_nonneg|int_range].
  - apply bool_decide_eq_true in Hag. rewrite Ex in Hag. alu_i Eop He; [by rewrite Ex, immed_nonneg|int_range].
  - apply bool_decide_eq_true in Hag. rewrite Ex in Hag. alu_i Eop He; [by rewrite Ex, immed_nonneg|int_range].
  - apply (both_write (Execute.rt w) (i32 (Z.shiftl w 16)) (i32 (npc s + 4))); [done|int_range|int_range| |].
    + unfold Mips.exec_op. rewrite Eop, Ex, Ert, immed_shift. unfold sbind. by rewrite rset_run by lia.
    + rewrite He. unfold go. by rewrite set_reg_run by (done || apply entered_length).
Qed.

Lemma agreeing_word : agrees (decoded w) a b (pc s) (npc s) = true -> both m k h s w.
Proof.
  intros Hag. destruct (normal_op (Z.land (Z.shiftr w 26) 0x3f)) as [n|] eqn:En.
  - destruct n; (by apply special_agrees) || (by apply bcond_agrees) || (eapply normal_agrees; [exact En|done|done|done]).
  - exfalso. unfold agrees, decoded in Hag. rewrite En in Hag. discriminate Hag.
Qed.
End Word.

(** ** Steps *)


(** The word 0 is a shift of R0: skipping it is no different. *)
Lemma nop_run h s : length (Reg s) = 32%nat -> exec_normal 0 (pc s) h (entered s) = Ok (Go h (entered s)).
Proof.
  intros Hl. change (exec_normal 0 (pc s) h (entered s)) with (go h (op_r (fun _ b => i32 (Z.shiftl b (shamt 0))) 0 (entered s))).
  unfold op_r, get_reg, go. change (rs 0) with 0. change (rt 0) with 0. change (rd 0) with 0. unfold entered at 1 2. cbn [Reg].
  rewrite (arr_get_lookup _ 0 0) by (lia || (apply list_lookup_insert_eq; lia)). cbn [rbind].
  unfold set_reg. rewrite arr_set_in by (cbn; rewrite length_insert; lia). cbn [rbind]. unfold with_Reg, entered. cbn [Reg HI LO pc npc mem].
  change (i32 (Z.shiftl 0 (shamt 0))) with 0. change (Z.to_nat 0) with 0%nat. by rewrite list_insert_insert_eq.
Qed.

(** A fetch that succeeds keeps the states alike. *)
Lemma alike_fetch m (k : K) s a n m1 k1 v : alike m s -> access_size n -> in_i32 a ->
  ReadMem a n (m, k) = Ok ((m1, k1), Some v) -> alike m1 s /\ in_i32 v.
Proof.
  intros [Hm Hld Hl Hr Hh Hlo Hp Hn] Hs Ha HR. pose proof (ReadMem_regs _ _ _ _ _ _ _ HR) as Er.
  destruct (fetch_ok m k a n m1 k1 v (proj1 Hm) Hs Ha HR) as [Hm1 Hv].
  split; [|done]. unfold reg_is in *. rewrite <-Er in *. split; try done. by split; [|rewrite Er; apply Hm].
Qed.

(** * Properties *)

(** C8: the kernel's simulator and the stand-alone interpreter agree. From
    states with the same registers and counters, when both fetch the word [w]
    and the instruction in it is one of those [agrees] accepts for its
    operands, [OneInstruction] and a round of [runprogram] both succeed, leave
    memory and kernel as the fetch left them, and end in states with the same
    registers, HI, LO and counters again. The instructions [agrees] leaves out
    are the loads and stores, the traps, and the cases where one of the two
    programs deviates from the architecture. *)
Theorem interpreters_agree (m : Machine) (k : K) (h : H) s m1 k1 w i a b :
  alike m s -> ReadMem (pc s) 4 (m, k) = Ok ((m1, k1), Some w) -> fetch (mem s) (pc s) = Ok w ->
  Decode (u32 w) = Ok i -> reg_is m (Mips.rs i) a -> reg_is m (Mips.rt i) b -> agrees i a b (pc s) (npc s) = true ->
  exists m' s', OneInstruction (m, k) = Ok ((m', k1), tt) /\ step h s = Ok (Go h s') /\
    alike m' s' /\ mem s' = mem s /\ mainMemory m' = mainMemory m1.
Proof.
  intros Hal HR Hf HD Hra Hrb Hag. rewrite Decode_decoded in HD. injection HD as <-.
  destruct (decoded_fields w) as (Ers & Ert & _). rewrite Ers in Hra. rewrite Ert in Hrb.
  pose proof (alike_int m s Hal _ _ (al_pc m s Hal)) as Hpi.
  destruct (alike_fetch m k s (pc s) 4 m1 k1 w Hal as_size4 Hpi HR) as [Hal1 Hwi].
  pose proof (ReadMem_regs _ _ _ _ _ _ _ HR) as Er. unfold reg_is in Hra, Hrb. rewrite <-Er in Hra, Hrb.
  destruct (fields w) as (Hs & Ht & _).
  destruct (alike_read m1 s (Execute.rs w) Hal1 Hs) as (a' & Ha' & Hga & Hia). destruct (alike_read m1 s (Execute.rt w) Hal1 Ht) as (b' & Hb' & Hgb & Hib).
  unfold reg_is in Ha', Hb'. simplify_eq.
  destruct (agreeing_word m1 k1 h s w Hal1 a b Hra Hrb Hga Hgb Hia Hib Hag) as (dst & v & hi & lo & target & Hd & Hv & Hhi & Hlo & Htg & Hm & He).
  destruct (alike_finish m1 k1 s dst v hi lo target Hal1 Hd Hv Hhi Hlo) as (m' & Hfin & Hal'). specialize (Hal' Htg).
  assert (mainMemory m' = mainMemory m1) as Hmem by (by eapply finish_memory in Hfin).
  eexists m', _. split; [|split; [|split; [exact Hal'|done]]].
  - unfold OneInstruction. unfold sbind at 1. rewrite (rget_run m k PCReg (pc s)) by (done || apply (al_pc m s Hal)).
    unfold sbind at 1. rewrite HR. unfold sbind at 1. unfold lift. rewrite Decode_decoded. unfold sbind at 1.
    rewrite (rget_run m1 k1 NextPCReg (npc s)) by (done || apply (al_npc m1 s Hal1)). unfold sbind at 1. rewrite Hm. exact Hfin.
  - unfold step. rewrite Hf. cbn [rbind]. rewrite arr_set_in by (rewrite (al_len m s Hal); lia). cbn [rbind].
    change (Z.to_nat 0) with 0%nat. fold (entered s). destruct (Z.eqb_spec w 0) as [->|Hne]; [|exact He].
    by rewrite <-He, (nop_run h s (al_len m s Hal)).
Qed.
End Steps.

(** ** A concrete instance: [addu r3, r1, r2] at the start of the interpreter's
    memory, which the simulator's TLB maps to its first page *)

#[local] Instance demo_kernel : Kernel unit := {| ExceptionHandler := fun _ => sret tt |}.
#[local] Instance demo_host : Host unit := {| host_call := fun _ h m => Ok (h, m, 0) |}.

Definition demo_word : Z := encode_r 33 1 2 3 0.
Definition demo_registers : list Z :=
  [0; 5; 7] ++ replicate 29 0 ++ [0; 0; memoffset; memoffset + 4; 0; 0; 0; 0].
Definition demo_memory : gmap Z Z := list_to_map [(0, 0x21); (1, 0x18); (2, 0x22); (3, 0)].
Definition demo_entry (v : bool) : TranslationEntry := mkEntry (memoffset / PageSize) 0 v false false false.
Definition demo_machine : Machine :=
  mkMachine demo_memory demo_registers (Some (demo_entry true :: replicate 3 (demo_entry false))) None 0 ∅ UserMode 0.
Definition demo_state : State := mkState (take 32 demo_registers) 0 0 memoffset (memoffset + 4) demo_memory.

Lemma demo_alike : alike demo_machine demo_state.
Proof.
  split; try reflexivity.
  - split; [|reflexivity]. split; [reflexivity| | |by apply (bool_decide_unpack _)|reflexivity].
    + apply (Forall_impl (fun x => - 2 ^ 31 <= x /\ x < 2 ^ 31)); [by apply (bool_decide_unpack _)|intros x Hx; exact Hx].
    + intros r Hr. vm_compute in Hr. injection Hr as <-. lia.
  - intros r Hr. cbn [registers demo_machine Reg demo_state]. by rewrite lookup_take_lt by lia.
Qed.

Definition demo_fetched : res (Machine * unit * option Z) := ReadMem memoffset 4 (demo_machine, tt).

Lemma interpreters_agree_witness : exists m' s',
  OneInstruction (demo_machine, tt) = Ok ((m', tt), tt) /\ step tt demo_state = Ok (Go tt s') /\ alike m' s' /\
  Reg s' !! 3%nat = Some 12.
Proof.
  destruct demo_fetched as [[[m1 []] [w|]]|] eqn:HR; [|vm_compute in HR; discriminate HR..].
  assert (w = demo_word) as -> by (vm_compute in HR; injection HR as _ <-; reflexivity).
  destruct (interpreters_agree demo_machine tt tt demo_state m1 tt demo_word (mkInstr OP_ADDU 1 2 3 0) 5 7 demo_alike HR)
    as (m' & s' & H1 & H2 & H3 & _); [reflexivity..|].
  exists m', s'. split; [exact H1|]. split; [exact H2|]. split; [exact H3|]. vm_compute in H2. injection H2 as <-. reflexivity.
Defined.
