(* ===== verification/Disassemble.v ===== *)
(** * bin/d.c, bin/opstrings.c: the disassembler

    [dump_ascii] prints an instruction word: two columns with its address and
    the word in hexadecimal, the name of the operation from the tables of
    opstrings.c, and the operands. Here: the text it prints, and that the text
    after the columns determines what the instruction does when the interpreter
    of Execute runs it, for all operations but five whose operands are not, or
    wrongly, printed. *)
From Stdlib Require Import String Ascii.
From S2P Require Import Prelude Machine Mips Execute Interpreters.
Local Open Scope Z_scope.

Abbreviation text := (list ascii).
Definition str (s : string) : text := list_ascii_of_string s.
Definition tab : ascii := "009"%char.

(** ** opstrings.c *)

Definition normalops : list text := str <$> [
  "special"; "bcond"; "j"; "jal"; "beq"; "bne"; "blez"; "bgtz"; "addi"; "addiu"; "slti"; "sltiu"; "andi"; "ori"; "xori"; "lui";
  "cop0"; "cop1"; "cop2"; "cop3"; "024"; "025"; "026"; "027"; "030"; "031"; "032"; "033"; "034"; "035"; "036"; "037";
  "lb"; "lh"; "lwl"; "lw"; "lbu"; "lhu"; "lwr"; "047"; "sb"; "sh"; "swl"; "sw"; "054"; "055"; "swr"; "057";
  "lwc0"; "lwc1"; "lwc2"; "lwc3"; "064"; "065"; "066"; "067"; "swc0"; "swc1"; "swc2"; "swc3"; "074"; "075"; "076"; "077"]%string.

Definition specialops : list text := str <$> [
  "sll"; "001"; "srl"; "sra"; "sllv"; "005"; "srlv"; "srav"; "jr"; "jalr"; "012"; "013"; "syscall"; "break"; "016"; "017";
  "mfhi"; "mthi"; "mflo"; "mtlo"; "024"; "025"; "026"; "027"; "mult"; "multu"; "div"; "divu"; "034"; "035"; "036"; "037";
  "add"; "addu"; "sub"; "subu"; "and"; "or"; "xor"; "nor"; "050"; "051"; "slt"; "sltu"; "054"; "055"; "056"; "057";
  "060"; "061"; "062"; "063"; "064"; "065"; "066"; "067"; "070"; "071"; "072"; "073"; "074"; "075"; "076"; "077"]%string.

(** ** d.c *)

Definition regstrings : list text := str <$> [
  "0"; "r1"; "r2"; "r3"; "r4"; "r5"; "r6"; "r7"; "r8"; "r9"; "r10"; "r11"; "r12"; "r13"; "r14"; "r15"; "r16"; "r17"; "r18"; "r19";
  "r20"; "r21"; "r22"; "r23"; "r24"; "r25"; "r26"; "r27"; "gp"; "sp"; "r30"; "r31"]%string.

Definition R (i : Z) : res text := arr_get regstrings i.

(** [%08x] and [%x] of an [int]. *)
Definition hex_digit (d : Z) : ascii := ascii_of_nat (Z.to_nat (if d <? 10 then 48 + d else 87 + d)).
Definition nibble (v : Z) (k : nat) : Z := (u32 v / 16 ^ Z.of_nat k) mod 16.
Definition hex08 (v : Z) : text := hex_digit ∘ nibble v <$> [7; 6; 5; 4; 3; 2; 1; 0]%nat.
Fixpoint drop_zeros (t : text) : text :=
  match t with
  | c :: t' => match t' with [] => t | _ => if decide (c = "0"%char) then drop_zeros t' else t end
  | [] => []
  end.
Definition hex (v : Z) : text := drop_zeros (hex08 v).
Definition hex0x (v : Z) : text := str "0x" ++ hex v.

(** instr.h *)
Definition off26 (i : Z) : Z := Z.shiftl (Z.land i (Z.shiftl 1 26 - 1)) 2.
Definition top4 (i : Z) : Z := Z.land i (Z.lnot (Z.shiftl 1 28 - 1)).
Definition off16 (i : Z) : Z := Z.shiftl (immed i) 2.

(** Operands with commas between them. *)
Definition comma (a b : text) : text := a ++ ","%char :: b.
Definition regs2 (a b : Z) : res text := let* a := R a in let* b := R b in Ok (comma a b).
Definition regs3 (a b c : Z) : res text := let* a := R a in let* t := regs2 b c in Ok (comma a t).
Definition regs2_then (a b : Z) (t : text) : res text := let* a := R a in let* b := R b in Ok (comma a (comma b t)).

Definition special_operands (i : Z) : res text :=
  match special_op (Z.land i 0x3f) with
  | Some (I_SLL | I_SRL | I_SRA) => regs2_then (rd i) (rt i) (hex0x (shamt i))
  | Some (I_SLLV | I_SRLV | I_SRAV) => regs3 (rd i) (rt i) (rs i)
  | Some (I_JR | I_JALR | I_MFLO | I_MTLO) => R (rs i)
  | Some (I_SYSCALL | I_BREAK) => Ok []
  | Some (I_MFHI | I_MTHI) => R (rd i)
  | Some (I_MULT | I_MULTU | I_DIV | I_DIVU) => regs2 (rs i) (rt i)
  | Some (I_ADD | I_ADDU | I_SUB | I_SUBU | I_AND | I_OR | I_XOR | I_NOR | I_SLT | I_SLTU) => regs3 (rd i) (rs i) (rt i)
  | None => Ok []
  end.

Definition bcond_name (field : Z) : text :=
  match bcond_op field with
  | Some I_BLTZ => str "bltz" | Some I_BGEZ => str "bgez" | Some I_BLTZAL => str "bltzal" | Some I_BGEZAL => str "bgezal"
  | None => str "BCOND"
  end.
Definition bcond_operands (i pc : Z) : res text :=
  let* r := R (rs i) in Ok (comma r (hex08 (off16 i + pc + 4))).

Definition normal_operands (opcode i pc : Z) : res text :=
  match normal_op opcode with
  | Some (I_J | I_JAL) => Ok (hex08 (Z.lor (top4 pc) (off26 i)))
  | Some (I_BEQ | I_BNE) => regs2_then (rt i) (rs i) (hex08 (off16 i + pc + 4))
  | Some (I_ADDI | I_ADDIU | I_SLTI | I_SLTIU | I_ANDI | I_ORI | I_XORI) => regs2_then (rt i) (rs i) (hex0x (immed i))
  | Some I_LUI => let* r := R (rt i) in Ok (comma r (hex0x (immed i)))
  | Some I_COP => Ok []
  | Some (I_LB | I_LH | I_LWL | I_LW | I_LBU | I_LHU | I_LWR | I_SB | I_SH | I_SWL | I_SW | I_SWR | I_LWC | I_SWC) =>
      let* r := R (rt i) in let* b := R (rs i) in
      Ok (comma r (hex0x (immed i) ++ "("%char :: b ++ [")"%char]))
  | _ => Ok []
  end.

(** The text after the two columns. *)
Definition disassembly (i pc : Z) : res text :=
  let opcode := Z.shiftr (u32 i) 26 in
  if i =? 0 then Ok (str "nop")
  else if opcode =? 0 then
    let* name := arr_get specialops (Z.land i 0x3f) in
    let* t := special_operands i in Ok (name ++ tab :: t)
  else if opcode =? 1 then
    let* t := bcond_operands i pc in Ok (bcond_name (rt i) ++ tab :: t)
  else
    let* name := arr_get normalops opcode in
    let* t := normal_operands opcode i pc in Ok (name ++ tab :: t).

(** With [longdis], which is set. *)
Definition dump_ascii (i pc : Z) : res text :=
  let* t := disassembly i pc in
  Ok (hex08 pc ++ str ": " ++ hex08 i ++ str "  " ++ tab :: t).

(** * Lemmas *)

Lemma split_at (c : ascii) a b a' b' : c ∉ a -> c ∉ a' -> a ++ c :: b = a' ++ c :: b' -> a = a' /\ b = b'.
Proof.
  revert a'. induction a as [|x a IH]; intros [|x' a'] Ha Ha' E; cbn in E.
  - by injection E as ->.
  - injection E as -> _. by apply not_elem_of_cons in Ha' as [? _].
  - injection E as -> _. by apply not_elem_of_cons in Ha as [? _].
  - injection E as -> E. apply not_elem_of_cons in Ha as [_ Ha]. apply not_elem_of_cons in Ha' as [_ Ha'].
    by destruct (IH a' Ha Ha' E) as [-> ->].
Qed.

Lemma unsplit (c : ascii) a a' b : c ∉ a -> a = a' ++ c :: b -> False.
Proof. intros Ha ->. apply Ha, elem_of_app. right. by apply elem_of_cons; left. Qed.

(** ** Registers *)

Lemma R_ok i : 0 <= i < 32 -> exists t, R i = Ok t /\ regstrings !! Z.to_nat i = Some t /\ (","%char ∉ t) /\ (")"%char ∉ t).
Proof.
  intros Hi. assert (Forall (fun t => (","%char ∉ t) /\ (")"%char ∉ t)) regstrings) as HF by (by apply (bool_decide_unpack _)).
  destruct (arr_get_in regstrings i) as (t & Ht & Hin); [exact Hi|]. exists t. split; [done|].
  split; [by apply arr_get_Ok in Ht as [_ ?]|]. rewrite Forall_forall in HF. by apply HF.
Qed.

Lemma R_inj i j t : 0 <= i -> 0 <= j -> regstrings !! Z.to_nat i = Some t -> regstrings !! Z.to_nat j = Some t -> i = j.
Proof.
  intros Hi Hj H1 H2. assert (NoDup regstrings) as Hnd by (by apply (bool_decide_unpack _)).
  apply Z2Nat.inj; [done|done|]. by eapply NoDup_lookup.
Qed.

(** ** Hexadecimal *)

Lemma hex_digit_inj a b : 0 <= a < 16 -> 0 <= b < 16 -> hex_digit a = hex_digit b -> a = b.
Proof.
  intros Ha Hb. assert (Forall (fun a => Forall (fun b => hex_digit a = hex_digit b -> a = b) (upto 16)) (upto 16)) as HF
    by (by apply (bool_decide_unpack _)).
  rewrite Forall_forall in HF. specialize (HF a (upto_elem 16 a Ha)). rewrite Forall_forall in HF. apply HF, (upto_elem 16 b Hb).
Qed.

Lemma hex_digit_plain a : 0 <= a < 16 -> hex_digit a <> "("%char.
Proof.
  intros Ha. assert (Forall (fun a => hex_digit a <> "("%char) (upto 16)) as HF by (by apply (bool_decide_unpack _)).
  rewrite Forall_forall in HF. apply HF, (upto_elem 16 a Ha).
Qed.

Lemma nibble_range v k : 0 <= nibble v k < 16.
Proof. apply Z.mod_pos_bound. lia. Qed.

(** The number a text of hexadecimal digits denotes. *)
Definition undigit (c : ascii) : Z := let n := Z.of_nat (nat_of_ascii c) in if n <? 58 then n - 48 else n - 87.
Definition value (t : text) : Z := fold_left (fun acc c => acc * 16 + undigit c) t 0.

Lemma undigit_digit a : 0 <= a < 16 -> undigit (hex_digit a) = a.
Proof.
  intros Ha. assert (Forall (fun a => undigit (hex_digit a) = a) (upto 16)) as HF by (by apply (bool_decide_unpack _)).
  rewrite Forall_forall in HF. apply HF, (upto_elem 16 a Ha).
Qed.

Lemma value_hex08 v : value (hex08 v) = u32 v.
Proof.
  unfold value, hex08. cbn [fmap list_fmap fold_left compose]. rewrite !undigit_digit by apply nibble_range.
  unfold nibble. pose proof (u32_range v) as Hr. unfold in_u32 in Hr. set (x := u32 v) in *. clearbody x.
  change (Z.of_nat 7) with 7. change (Z.of_nat 6) with 6. change (Z.of_nat 5) with 5. change (Z.of_nat 4) with 4.
  change (Z.of_nat 3) with 3. change (Z.of_nat 2) with 2. change (Z.of_nat 1) with 1. change (Z.of_nat 0) with 0.
  Z.div_mod_to_equations. lia.
Qed.

Lemma value_drop_zeros t : value (drop_zeros t) = value t.
Proof.
  induction t as [|c [|c' t] IH]; [done|done|]. cbn [drop_zeros]. destruct (decide (c = "0"%char)) as [->|]; [|done].
  exact IH.
Qed.

Lemma hex08_inj v w : hex08 v = hex08 w -> u32 v = u32 w.
Proof. intros E. by rewrite <-!value_hex08, E. Qed.

Lemma hex0x_inj v w : hex0x v = hex0x w -> u32 v = u32 w.
Proof.
  intros E. apply app_inv_head in E. unfold hex in E. by rewrite <-!value_hex08, <-(value_drop_zeros (hex08 v)), E, value_drop_zeros.
Qed.

Lemma hex0x_plain v : "("%char ∉ hex0x v.
Proof.
  assert (forall t, drop_zeros t ⊆ t) as Hd.
  { induction t as [|c [|c' t] IH]; [done|done|]. cbn [drop_zeros]. destruct (decide _); [|done].
    intros x Hx. apply elem_of_cons. right. by apply IH. }
  unfold hex0x. rewrite elem_of_app. intros [Hi|Hi]; [by revert Hi; apply (bool_decide_unpack _)|].
  apply Hd in Hi. unfold hex08 in Hi. apply list_elem_of_fmap in Hi as (k & E & _). symmetry in E.
  by apply hex_digit_plain in E; [|apply nibble_range].
Qed.

(** ** Operands *)

Lemma R_parts i t : 0 <= i < 32 -> R i = Ok t -> regstrings !! Z.to_nat i = Some t /\ (","%char ∉ t).
Proof. intros Hi E. destruct (R_ok i Hi) as (t' & E' & Hl & Hc & _). by assert (t' = t) as <- by congruence. Qed.

Lemma R_inv i j t : 0 <= i < 32 -> 0 <= j < 32 -> R i = Ok t -> R j = Ok t -> i = j.
Proof. intros Hi Hj E1 E2. apply R_parts in E1 as [? _], E2 as [? _]; [|done..]. apply (R_inj i j t); [lia|lia|done|done]. Qed.

(** A register, a comma and more. *)
Lemma then_inv i j a b x y : 0 <= i < 32 -> 0 <= j < 32 -> R i = Ok a -> R j = Ok b -> comma a x = comma b y -> i = j /\ x = y.
Proof.
  intros Hi Hj E1 E2 E. pose proof (R_parts i a Hi E1) as [L1 C1]. pose proof (R_parts j b Hj E2) as [L2 C2].
  apply split_at in E as [-> ->]; [|done..]. split; [|done]. apply (R_inj i j b); [lia|lia|done|done].
Qed.

Lemma regs2_inv a b a' b' t : 0 <= a < 32 -> 0 <= b < 32 -> 0 <= a' < 32 -> 0 <= b' < 32 ->
  regs2 a b = Ok t -> regs2 a' b' = Ok t -> a = a' /\ b = b'.
Proof.
  intros Ha Hb Ha' Hb' E E'. unfold regs2 in E, E'. apply rbind_Ok in E as (x & E1 & E). apply rbind_Ok in E as (y & E2 & [= <-]).
  apply rbind_Ok in E' as (x' & E1' & E'). apply rbind_Ok in E' as (y' & E2' & [= E]).
  apply (then_inv a' a x' x) in E as [-> ->]; [|done..]. split; [done|]. by apply (R_inv b b' y).
Qed.

Lemma regs3_inv a b c a' b' c' t : 0 <= a < 32 -> 0 <= b < 32 -> 0 <= c < 32 -> 0 <= a' < 32 -> 0 <= b' < 32 -> 0 <= c' < 32 ->
  regs3 a b c = Ok t -> regs3 a' b' c' = Ok t -> a = a' /\ b = b' /\ c = c'.
Proof.
  intros Ha Hb Hc Ha' Hb' Hc' E E'. unfold regs3 in E, E'. apply rbind_Ok in E as (x & E1 & E). apply rbind_Ok in E as (y & E2 & [= <-]).
  apply rbind_Ok in E' as (x' & E1' & E'). apply rbind_Ok in E' as (y' & E2' & [= E]).
  apply (then_inv a' a x' x) in E as [-> ->]; [|done..]. split; [done|]. by apply (regs2_inv b c b' c' y).
Qed.

Lemma regs2_then_inv a b u a' b' u' t : 0 <= a < 32 -> 0 <= b < 32 -> 0 <= a' < 32 -> 0 <= b' < 32 ->
  regs2_then a b u = Ok t -> regs2_then a' b' u' = Ok t -> a = a' /\ b = b' /\ u = u'.
Proof.
  intros Ha Hb Ha' Hb' E E'. unfold regs2_then in E, E'. apply rbind_Ok in E as (x & E1 & E). apply rbind_Ok in E as (y & E2 & [= <-]).
  apply rbind_Ok in E' as (x' & E1' & E'). apply rbind_Ok in E' as (y' & E2' & [= E]).
  apply (then_inv a' a x' x) in E as [-> E]; [|done..]. by apply (then_inv b' b y' y) in E as [-> ->].
Qed.

Lemma immed_inj v w : hex0x (immed v) = hex0x (immed w) -> immed v = immed w.
Proof. intros E. apply hex0x_inj, (f_equal i32) in E. by rewrite !i32_u32, !i32_id in E by apply immed_i32. Qed.

Lemma branch_inj v w pc : hex08 (off16 v + pc + 4) = hex08 (off16 w + pc + 4) ->
  i32 (pc + 4 + Z.shiftl (immed v) 2) = i32 (pc + 4 + Z.shiftl (immed w) 2).
Proof.
  intros E. apply hex08_inj, (f_equal i32) in E. rewrite !i32_u32 in E. unfold off16 in E.
  by rewrite (Z.add_comm (pc + 4)), (Z.add_comm (pc + 4) (Z.shiftl (immed w) 2)), !Z.add_assoc.
Qed.

Lemma jump_inj v w pc : hex08 (Z.lor (top4 pc) (off26 v)) = hex08 (Z.lor (top4 pc) (off26 w)) -> jump_target v pc = jump_target w pc.
Proof.
  assert (forall i, Z.land (u32 (Z.lor (top4 pc) (off26 i))) (Z.ones 28) = Z.shiftl (Z.land i 0x03ffffff) 2) as HL.
  { intros i. rewrite land_u32 by (vm_compute; intuition congruence). unfold top4, off26.
    change (Z.shiftl 1 26 - 1) with (Z.ones 26). change (Z.shiftl 1 28 - 1) with (Z.ones 28). change 0x03ffffff with (Z.ones 26).
    rewrite Z.land_lor_distr_l, <-Z.land_assoc, (Z.land_comm (Z.lnot _)), Z.land_lnot_diag, Z.land_0_r, Z.lor_0_l.
    rewrite Z.land_ones by lia. apply Z.mod_small. pose proof (land_ones_range i 26 ltac:(lia)). rewrite Z.shiftl_mul_pow2 by lia. lia. }
  intros E. apply hex08_inj, (f_equal (fun x => Z.land x (Z.ones 28))) in E. rewrite !HL in E. unfold jump_target. by rewrite E.
Qed.

Lemma address_inv a b x a' b' x' t : 0 <= a < 32 -> 0 <= b < 32 -> 0 <= a' < 32 -> 0 <= b' < 32 ->
  (let* r := R a in let* b := R b in Ok (comma r (hex0x (immed x) ++ "("%char :: b ++ [")"%char]))) = Ok t ->
  (let* r := R a' in let* b := R b' in Ok (comma r (hex0x (immed x') ++ "("%char :: b ++ [")"%char]))) = Ok t ->
  a = a' /\ b = b' /\ immed x = immed x'.
Proof.
  intros Ha Hb Ha' Hb' E E'. apply rbind_Ok in E as (r & E1 & E). apply rbind_Ok in E as (y & E2 & [= <-]).
  apply rbind_Ok in E' as (r' & E1' & E'). apply rbind_Ok in E' as (y' & E2' & [= E]).
  apply (then_inv a' a r' r) in E as [-> E]; [|done..]. 
  apply (split_at "("%char (hex0x (immed x')) _ (hex0x (immed x))) in E as [Ei E]; [|apply hex0x_plain..].
  apply app_inv_tail in E as ->. split; [done|]. split; [by apply (R_inv b b' y)|]. by apply immed_inj.
Qed.

(** ** Operations *)

Inductive Op := OSpecial (o : Special) | OBcond (o : BCond) | ONormal (o : Normal) | OUndefined.

#[export] Instance Normal_eq_dec : EqDecision Normal.
Proof. solve_decision. Defined.
#[export] Instance Special_eq_dec : EqDecision Special.
Proof. solve_decision. Defined.
#[export] Instance BCond_eq_dec : EqDecision BCond.
Proof. solve_decision. Defined.
#[export] Instance Op_eq_dec : EqDecision Op.
Proof. solve_decision. Defined.

(** The operation of the opcode, the function and the branch fields: what the
    interpreter stops at is one operation. *)
Definition op_of (c f b : Z) : Op :=
  match normal_op c with
  | Some I_SPECIAL => match special_op f with Some o => OSpecial o | None => OUndefined end
  | Some I_BCOND => match bcond_op b with Some o => OBcond o | None => OUndefined end
  | Some (I_SWL | I_SWR | I_LWC | I_SWC | I_COP) | None => OUndefined
  | Some o => ONormal o
  end.
Definition code (w : Z) : Z := Z.land (Z.shiftr w 26) 0x3f.
Definition op (w : Z) : Op := op_of (code w) (Z.land w 0x3f) (rt w).

Definition name_of (c f b : Z) : res text :=
  if c =? 0 then arr_get specialops f else if c =? 1 then Ok (bcond_name b) else arr_get normalops c.

(** The fields that select the operation. *)
Definition selectors : list (Z * Z * Z) :=
  ((fun f => (0, f, 0)) <$> upto 64) ++ ((fun b => (1, 0, b)) <$> upto 32) ++
  ((fun c => (c, 0, 0)) <$> filter (fun c => 2 <= c) (upto 64)).

Lemma selector c f b : 0 <= c < 64 -> 0 <= f < 64 -> 0 <= b < 32 ->
  exists c' f' b', (c', f', b') ∈ selectors /\ op_of c f b = op_of c' f' b' /\ name_of c f b = name_of c' f' b'.
Proof.
  intros Hc Hf Hb. unfold selectors. destruct (decide (c = 0)) as [->|H0].
  { exists 0, f, 0. split; [|done]. apply elem_of_app. left. apply list_elem_of_fmap. exists f. split; [done|]. by apply upto_elem. }
  destruct (decide (c = 1)) as [->|H1].
  { exists 1, 0, b. split; [|done]. apply elem_of_app. right. apply elem_of_app. left. apply list_elem_of_fmap. exists b. split; [done|]. by apply upto_elem. }
  exists c, 0, 0. split_and!.
  - apply elem_of_app. right. apply elem_of_app. right. apply list_elem_of_fmap. exists c. split; [done|].
    apply list_elem_of_filter. split; [lia|]. by apply upto_elem.
  - assert (Forall (fun c => c <> 0 -> c <> 1 -> normal_op c <> Some I_SPECIAL /\ normal_op c <> Some I_BCOND) (upto 64)) as HF
      by (by apply (bool_decide_unpack _)).
    rewrite Forall_forall in HF. destruct (HF c (upto_elem 64 c Hc) H0 H1) as [HS HB].
    unfold op_of. by destruct (normal_op c) as [[]|].
  - unfold name_of. by rewrite !(proj2 (Z.eqb_neq c _)).
Qed.

(** Different operations have different names, without a tab in them. *)
Lemma names_differ : Forall (fun '(c, f, b) => Forall (fun '(c', f', b') =>
  name_of c f b = name_of c' f' b' -> op_of c f b = op_of c' f' b') selectors) selectors.
Proof. apply (bool_decide_unpack _). vm_compute. exact I. Qed.

Definition no_tab (n : res text) : bool := match n with Ok n => bool_decide (tab ∉ n) | Fault _ => false end.
Lemma names_plain : Forall (fun '(c, f, b) => no_tab (name_of c f b)) selectors.
Proof. by apply (bool_decide_unpack _). Qed.

Lemma code_range w : 0 <= code w < 64.
Proof. apply (land_ones_range (Z.shiftr w 26) 6). lia. Qed.
Lemma function_range w : 0 <= Z.land w 0x3f < 64.
Proof. apply (land_ones_range w 6). lia. Qed.

Definition name (w : Z) : res text := name_of (code w) (Z.land w 0x3f) (rt w).
Definition operands (w pc : Z) : res text :=
  if code w =? 0 then special_operands w else if code w =? 1 then bcond_operands w pc else normal_operands (code w) w pc.

Lemma op_name w1 w2 : name w1 = name w2 -> op w1 = op w2.
Proof.
  unfold name, op. intros E.
  destruct (selector (code w1) (Z.land w1 0x3f) (rt w1) (code_range w1) (function_range w1) (land5_range _)) as (c & f & b & Hin & -> & En).
  destruct (selector (code w2) (Z.land w2 0x3f) (rt w2) (code_range w2) (function_range w2) (land5_range _)) as (c' & f' & b' & Hin' & -> & En').
  pose proof names_differ as HF. rewrite Forall_forall in HF. specialize (HF _ Hin). cbn beta iota in HF.
  rewrite Forall_forall in HF. apply (HF _ Hin'). congruence.
Qed.

Lemma name_plain w : exists n, name w = Ok n /\ (tab ∉ n).
Proof.
  destruct (selector (code w) (Z.land w 0x3f) (rt w) (code_range w) (function_range w) (land5_range _)) as (c & f & b & Hin & _ & En).
  pose proof names_plain as HF. rewrite Forall_forall in HF. specialize (HF _ Hin). cbn beta iota in HF. unfold name. rewrite En.
  destruct (name_of c f b) as [n|]; [|done]. exists n. split; [done|]. by apply bool_decide_unpack in HF.
Qed.

(** A text of the disassembler is "nop" or name, tab and operands. *)
Lemma disassembly_parts w pc t : disassembly w pc = Ok t ->
  (w = 0 /\ t = str "nop") \/
  (w <> 0 /\ exists n x, name w = Ok n /\ (tab ∉ n) /\ operands w pc = Ok x /\ t = n ++ tab :: x).
Proof.
  unfold disassembly. assert (Z.shiftr (u32 w) 26 = code w) as ->.
  { unfold code. change 0x3f with (Z.ones 6). rewrite <-(field_u32 w 26 6) by lia. rewrite Z.land_ones by lia. symmetry. apply Z.mod_small.
    pose proof (u32_range w) as Hr. unfold in_u32 in Hr. rewrite Z.shiftr_div_pow2 by lia. Z.div_mod_to_equations. lia. }
  destruct (Z.eqb_spec w 0) as [->|Hw]; [intros [= <-]; by left|]. intros E. right. split; [done|].
  destruct (name_plain w) as (n & Hn & Hp). exists n. unfold operands. unfold name, name_of in Hn |- *.
  destruct (code w =? 0); [|destruct (code w =? 1)].
  - rewrite Hn in E. cbn [rbind] in E. apply rbind_Ok in E as (x & -> & [= <-]). eauto 10.
  - injection Hn as <-. apply rbind_Ok in E as (x & -> & [= <-]). eauto 10.
  - rewrite Hn in E. cbn [rbind] in E. apply rbind_Ok in E as (x & -> & [= <-]). eauto 10.
Qed.

(** ** The operations execute what is printed *)

(** Whether the operands the operation uses are printed. *)
Definition misprinted : list Op := [OSpecial I_JALR; OSpecial I_MFLO; OSpecial I_MTHI; ONormal I_BLEZ; ONormal I_BGTZ].
Definition shown (o : Op) : bool := negb (bool_decide (o ∈ misprinted)).

Lemma opcode_0 c : 0 <= c < 64 -> normal_op c = Some I_SPECIAL -> c = 0.
Proof.
  intros Hc. assert (Forall (fun c => normal_op c = Some I_SPECIAL -> c = 0) (upto 64)) as HF by (by apply (bool_decide_unpack _)).
  rewrite Forall_forall in HF. apply HF, (upto_elem 64 c Hc).
Qed.
Lemma opcode_1 c : 0 <= c < 64 -> normal_op c = Some I_BCOND -> c = 1.
Proof.
  intros Hc. assert (Forall (fun c => normal_op c = Some I_BCOND -> c = 1) (upto 64)) as HF by (by apply (bool_decide_unpack _)).
  rewrite Forall_forall in HF. apply HF, (upto_elem 64 c Hc).
Qed.

Lemma op_special w o : op w = OSpecial o -> normal_op (code w) = Some I_SPECIAL /\ code w = 0 /\ special_op (Z.land w 0x3f) = Some o.
Proof.
  unfold op, op_of. intros E. pose proof (opcode_0 (code w) (code_range w)) as H0.
  destruct (normal_op (code w)) as [[]|]; try discriminate; [destruct (special_op _)|destruct (bcond_op _)]; try discriminate; injection E as <-; auto.
Qed.
Lemma op_bcond w o : op w = OBcond o -> normal_op (code w) = Some I_BCOND /\ code w = 1 /\ bcond_op (rt w) = Some o.
Proof.
  unfold op, op_of. intros E. pose proof (opcode_1 (code w) (code_range w)) as H0.
  destruct (normal_op (code w)) as [[]|]; try discriminate; [destruct (special_op _)|destruct (bcond_op _)]; try discriminate; injection E as <-; auto.
Qed.
Lemma op_normal w o : op w = ONormal o -> normal_op (code w) = Some o /\ code w <> 0 /\ code w <> 1.
Proof.
  unfold op, op_of. intros E. split.
  - destruct (normal_op (code w)) as [[]|]; try discriminate; try congruence; [destruct (special_op _)|destruct (bcond_op _)]; discriminate.
  - split; intros Ec; rewrite Ec in E; cbn in E; [destruct (special_op _)|destruct (bcond_op _)]; discriminate.
Qed.

Lemma Ok_inj {A} (a b : A) : Ok a = Ok b -> a = b.
Proof. by intros [= ->]. Qed.

Section Same.
Context {H : Type} `{!Host H}.

Lemma op_undefined w pc (h : H) s : op w = OUndefined -> exec_normal w pc h s = Ok (Exit 2).
Proof.
  unfold op, op_of, exec_normal. fold (code w). intros E.
  destruct (normal_op (code w)) as [[]|]; try discriminate; try reflexivity.
  - unfold exec_special. by destruct (special_op _).
  - unfold exec_bcond. by destruct (bcond_op _).
Qed.

Lemma unused_register (s : State) w (f : Z -> res State) : length (Reg s) = 32%nat ->
  (forall a b, f a = f b) -> (let* a := get_reg s (rs w) in f a) = f 0.
Proof.
  intros Hl Hf. unfold get_reg. destruct (arr_get_in (Reg s) (rs w)) as (v & -> & _); [|cbn; apply Hf].
  rewrite Hl. apply land5_range.
Qed.

Ltac ranges := first [apply land5_range | assumption].

Lemma same_special w1 w2 o pc t (h : H) s : length (Reg s) = 32%nat -> shown (OSpecial o) = true ->
  op w1 = OSpecial o -> op w2 = OSpecial o -> operands w1 pc = Ok t -> operands w2 pc = Ok t ->
  exec_normal w1 pc h s = exec_normal w2 pc h s.
Proof.
  intros Hl Hs H1 H2 T1 T2. apply op_special in H1 as (N1 & C1 & S1), H2 as (N2 & C2 & S2).
  unfold operands in T1, T2. rewrite C1 in T1. rewrite C2 in T2. cbn [Z.eqb] in T1, T2.
  unfold exec_normal. fold (code w1) (code w2). rewrite N1, N2. unfold exec_special, special_operands in *. rewrite S1 in *. rewrite S2 in *.
  destruct o; try discriminate Hs; try reflexivity.
  all: try match type of T1 with
    | regs3 _ _ _ = _ => destruct (regs3_inv _ _ _ _ _ _ _ (land5_range _) (land5_range _) (land5_range _) (land5_range _) (land5_range _) (land5_range _) T1 T2) as (Ea & Eb & Ec)
    | regs2 _ _ = _ => destruct (regs2_inv _ _ _ _ _ (land5_range _) (land5_range _) (land5_range _) (land5_range _) T1 T2) as (Ea & Eb)
    | regs2_then _ _ _ = _ => destruct (regs2_then_inv _ _ _ _ _ _ _ (land5_range _) (land5_range _) (land5_range _) (land5_range _) T1 T2) as (Ea & Eb & Ec);
        apply hex0x_inj in Ec; rewrite !u32_id in Ec by (pose proof (shamt_range w1); pose proof (shamt_range w2); unfold in_u32; lia)
    | R _ = _ => pose proof (R_inv _ _ _ (land5_range _) (land5_range _) T1 T2) as Ea
    end.
  all: unfold op_r, op_shiftv, op_hilo; fold (rs w1) (rs w2) (rt w1) (rt w2) (rd w1) (rd w2) in *.
  1-3: by rewrite !unused_register, Ea, Eb, Ec by done.
  all: rewrite ?Ea, ?Eb, ?Ec; reflexivity.
Qed.

Lemma same_bcond w1 w2 o pc t (h : H) s : op w1 = OBcond o -> op w2 = OBcond o ->
  operands w1 pc = Ok t -> operands w2 pc = Ok t -> exec_normal w1 pc h s = exec_normal w2 pc h s.
Proof.
  intros H1 H2 T1 T2. apply op_bcond in H1 as (N1 & C1 & S1), H2 as (N2 & C2 & S2).
  unfold operands in T1, T2. rewrite C1 in T1. rewrite C2 in T2. cbn [Z.eqb] in T1, T2. unfold bcond_operands in T1, T2.
  apply rbind_Ok in T1 as (r & R1 & [= <-]). apply rbind_Ok in T2 as (r' & R2 & [= T]).
  apply (then_inv (rs w2) (rs w1) r' r) in T as [Er Et]; [|apply land5_range|apply land5_range|done|done]. apply branch_inj in Et.
  unfold exec_normal. fold (code w1) (code w2). rewrite N1, N2. unfold exec_bcond. rewrite S1, S2. unfold branch. by rewrite Er, Et.
Qed.

Lemma same_normal w1 w2 o pc t (h : H) s : shown (ONormal o) = true -> op w1 = ONormal o -> op w2 = ONormal o ->
  operands w1 pc = Ok t -> operands w2 pc = Ok t -> exec_normal w1 pc h s = exec_normal w2 pc h s.
Proof.
  intros Hs H1 H2 T1 T2. pose proof H1 as O1. apply op_normal in H1 as (N1 & A1 & B1), H2 as (N2 & A2 & B2).
  unfold operands in T1, T2. rewrite (proj2 (Z.eqb_neq _ _) A1), (proj2 (Z.eqb_neq _ _) B1) in T1.
  rewrite (proj2 (Z.eqb_neq _ _) A2), (proj2 (Z.eqb_neq _ _) B2) in T2.
  unfold normal_operands in T1, T2. rewrite N1 in T1. rewrite N2 in T2.
  unfold exec_normal. fold (code w1) (code w2). rewrite N1, N2.
  destruct o; try discriminate Hs; try reflexivity; try (unfold op, op_of in O1; rewrite N1 in O1; try discriminate O1; first [by destruct (special_op _)|by destruct (bcond_op _)]).
  1-2: rewrite <-T1 in T2; by apply Ok_inj, jump_inj in T2 as ->.
  1-2: destruct (regs2_then_inv _ _ _ _ _ _ _ (land5_range _) (land5_range _) (land5_range _) (land5_range _) T1 T2) as (Ea & Eb & Ec);
    apply branch_inj in Ec; unfold branch; fold (rs w1) (rs w2) (rt w1) (rt w2) in *; by rewrite Ea, Eb, Ec.
  1-7: destruct (regs2_then_inv _ _ _ _ _ _ _ (land5_range _) (land5_range _) (land5_range _) (land5_range _) T1 T2) as (Ea & Eb & Ec);
    apply immed_inj in Ec; unfold op_i; fold (rs w1) (rs w2) (rt w1) (rt w2) in *; by rewrite Ea, Eb, Ec.
  { apply rbind_Ok in T1 as (r & R1 & T1). apply rbind_Ok in T2 as (r' & R2 & T2). rewrite <-T1 in T2. apply Ok_inj in T2.
    apply (then_inv (rt w2) (rt w1) r' r) in T2 as [Er Et]; [|apply land5_range|apply land5_range|done|done]. apply immed_inj in Et.
    by rewrite Er, <-(immed_shift w1), <-(immed_shift w2), Et. }
  all: destruct (address_inv _ _ _ _ _ _ _ (land5_range _) (land5_range _) (land5_range _) (land5_range _) T1 T2) as (Ea & Eb & Ec);
    fold (rs w1) (rs w2) (rt w1) (rt w2) in *; unfold op_load, op_lwl, op_lwr, op_store; rewrite Ea, Eb, Ec; reflexivity.
Qed.
End Same.

(** ** The operations whose operands are not printed *)

(** A state to tell executions apart. *)
Definition demo_cpu : State := mkState (Z.of_nat <$> seq 0 32) 100 101 0 4 ∅.

Definition one_text_two_meanings {H} `{!Host H} (h : H) (o : Op) (w1 w2 : Z) : Prop :=
  op w1 = o /\ op w2 = o /\ (exists t, disassembly w1 0 = Ok t /\ disassembly w2 0 = Ok t) /\
  exec_normal w1 0 h demo_cpu <> exec_normal w2 0 h demo_cpu.

Lemma misprinted_differ {H} `{!Host H} (h : H) o : o ∈ misprinted -> exists w1 w2, one_text_two_meanings h o w1 w2.
Proof.
  unfold misprinted. rewrite !elem_of_cons, elem_of_nil. intros [->|[->|[->|[->|[->|[]]]]]].
  - exists 0x00200809, 0x00201009. split_and!; [reflexivity|reflexivity|by eexists|]. intros E. vm_compute in E. discriminate E.
  - exists 0x00000812, 0x00001012. split_and!; [reflexivity|reflexivity|by eexists|]. intros E. vm_compute in E. discriminate E.
  - exists 0x00200011, 0x00400011. split_and!; [reflexivity|reflexivity|by eexists|]. intros E. vm_compute in E. discriminate E.
  - exists 0x18000001, 0x18200001. split_and!; [reflexivity|reflexivity|by eexists|]. intros E. vm_compute in E. discriminate E.
  - exists 0x1c000001, 0x1c200001. split_and!; [reflexivity|reflexivity|by eexists|]. intros E. vm_compute in E. discriminate E.
Qed.

(** * Properties *)

(** C23: The disassembly of an instruction word determines what the word does:
    two words that are printed with the same text at the same address execute
    alike in the stand-alone interpreter, in every state and for every host,
    unless the operation is JALR, MFLO, MTHI, BLEZ or BGTZ. Of each of these
    five operands are missing, or the ones printed are not those the
    instruction has, and there are two words with one text that execute
    differently. *)
Theorem disassembly_determines_execution {H} `{!Host H} (h : H) :
  (forall w1 w2 pc t s, length (Reg s) = 32%nat -> shown (op w1) = true ->
    disassembly w1 pc = Ok t -> disassembly w2 pc = Ok t -> exec_normal w1 pc h s = exec_normal w2 pc h s) /\
  (forall o, o ∈ misprinted -> exists w1 w2, one_text_two_meanings h o w1 w2).
Proof.
  split; [|apply misprinted_differ]. intros w1 w2 pc t s Hl Hs T1 T2. apply disassembly_parts in T1 as [[-> ->]|(_ & n & x & N1 & P1 & X1 & ->)];
    apply disassembly_parts in T2 as [[-> T]|(_ & n' & x' & N2 & P2 & X2 & T)].
  - done.
  - exfalso. apply (unsplit tab (str "nop") n' x'); [|done]. by apply (bool_decide_unpack _).
  - exfalso. apply (unsplit tab (str "nop") n x); [|done]. by apply (bool_decide_unpack _).
  - apply split_at in T as [-> ->]; [|done..]. pose proof (op_name w1 w2) as Ho. rewrite N1, N2 in Ho. specialize (Ho eq_refl). symmetry in Ho.
    destruct (op w1) as [o|o|o|] eqn:O1.
    + by apply (same_special w1 w2 o pc x').
    + by apply (same_bcond w1 w2 o pc x').
    + by apply (same_normal w1 w2 o pc x').
    + by rewrite !op_undefined.
Qed.

#[local] Instance no_host : Host unit := {| host_call := fun _ _ _ => Fault AssertFail |}.

(** [addu r3, r1, r2] with and without rubbish in the field it does not use. *)
Lemma disassembly_determines_execution_witness :
  disassembly 0x00221821 0 = Ok (str "addu" ++ tab :: str "r3,r1,r2") /\ disassembly 0x00221fe1 0 = Ok (str "addu" ++ tab :: str "r3,r1,r2") /\
  exec_normal 0x00221821 0 tt demo_cpu = exec_normal 0x00221fe1 0 tt demo_cpu /\
  exists w1 w2, one_text_two_meanings tt (OSpecial I_MFLO) w1 w2.
Proof.
  destruct (disassembly_determines_execution tt) as [Hs Hd]. split; [reflexivity|]. split; [reflexivity|]. split.
  - apply (Hs _ _ 0 (str "addu" ++ tab :: str "r3,r1,r2")); reflexivity.
  - apply Hd. by apply (bool_decide_unpack _).
Defined.
