(* ===== verification/FileCalls.v ===== *)
(** * The file system calls of user programs

    userprog/exception.cc (lines 114 to 262) over the [Table] of open files of
    userprog/addrspace.cc and the stub file system of filesys/filesys.h, whose
    files are those of the host: a name has contents, an [OpenFile] a position.
    Buffers come from and go to the memory of the program through [copyin] and
    [copyout] of [UserMemory]. The kernel is not preempted inside a call: the
    lock of the table is free whenever it is asked for. The host opens every
    file it is asked to create. *)
From S2P Require Import Prelude BitMap Machine VM PageFault UserMemory.

Definition MaxOpenFiles : Z := 256.
Definition ConsoleInput : Z := 0.
Definition ConsoleOutput : Z := 1.

(** ** [Table] *)

Section Table.
  Context {B : Type} `{BA : BitAllocator B} {P : Type}.

(** [None] is a null pointer. *)
Record Table := mkTable { map : B; table : list (option P); size : Z }.

Definition Table_new (s : Z) (gwords : nat -> Z) (garbage : option P) : res Table :=
  let* m := ba_new s gwords in Ok (mkTable m (replicate (Z.to_nat s) garbage) s).

Definition Get (t : Table) (i : Z) : res (option P) :=
  if decide (0 <= i < size t) then
    let* b := ba_test (map t) i in
    if b : bool then arr_get (table t) i else Ok None
  else Ok None.

Definition Put (t : Table) (f : option P) : res (Table * Z) :=
  let* '(m, i) := ba_find (map t) in
  if decide (i <> -1) then
    let* tb := arr_set (table t) i f in Ok (mkTable m tb (size t), i)
  else Ok (mkTable m (table t) (size t), i).

Definition Remove (t : Table) (i : Z) : res (Table * option P) :=
  if decide (0 <= i < size t) then
    let* b := ba_test (map t) i in
    if b : bool then
      let* m := ba_clear (map t) i in
      let* f := arr_get (table t) i in
      let* tb := arr_set (table t) i None in
      Ok (mkTable m tb (size t), f)
    else Ok (t, None)
  else Ok (t, None).
End Table.
Arguments Table B P : clear implicits.

(** ** The stub file system *)

(** [disk]: the files of the host; [opened]: the [OpenFile] objects, a name and
    [currentOffset]; [nextFile]: the one [new] returns next. *)
Record FileSys := mkFileSys { disk : gmap (list Z) (list Z); opened : gmap nat (list Z * Z); nextFile : nat }.

(** [OpenForWrite] truncates a file that exists. *)
Definition Create (name : list Z) (s : FileSys) : FileSys := mkFileSys (<[name := []]> (disk s)) (opened s) (nextFile s).

Definition Open (name : list Z) (s : FileSys) : FileSys * option nat :=
  match disk s !! name with
  | None => (s, None)
  | Some _ => (mkFileSys (disk s) (<[nextFile s := (name, 0)]> (opened s)) (S (nextFile s)), Some (nextFile s))
  end.

(** [OpenFile::Read] and [OpenFile::Write]: what [ReadPartial] returns, all of
    it for [WriteFile]. *)
Definition File_Read (f : nat) (numBytes : Z) (s : FileSys) : res (FileSys * list Z) :=
  let* '(name, currentOffset) := deref (opened s !! f) in
  let* bytes := ReadAt (default [] (disk s !! name)) numBytes currentOffset in
  Ok (mkFileSys (disk s) (<[f := (name, currentOffset + Z.of_nat (length bytes))]> (opened s)) (nextFile s), i8 <$> bytes).

Definition File_Write (f : nat) (from : list Z) (s : FileSys) : res FileSys :=
  let* '(name, currentOffset) := deref (opened s !! f) in
  let* data := WriteAt (default [] (disk s !! name)) (u8 <$> from) currentOffset in
  Ok (mkFileSys (<[name := data]> (disk s)) (<[f := (name, currentOffset + Z.of_nat (length from))]> (opened s)) (nextFile s)).

Definition File_delete (f : nat) (s : FileSys) : res FileSys :=
  let* _ := deref (opened s !! f) in Ok (mkFileSys (disk s) (delete f (opened s)) (nextFile s)).

(** ** The system calls *)

(** A C string ends at its first NUL. *)
Fixpoint c_string (l : list Z) : list Z :=
  match l with [] => [] | c :: l => if decide (c = 0) then [] else c :: c_string l end.

(** [isspace] *)
Definition is_space (c : Z) : bool := (c =? 32) || ((9 <=? c) && (c <=? 13)).

Fixpoint skip_space (l : list Z) : list Z :=
  match l with c :: l' => if is_space c then skip_space l' else l | [] => [] end.

Fixpoint take_word (l : list Z) : list Z * list Z :=
  match l with
  | c :: l' => if is_space c then ([], l) else let '(w, rest) := take_word l' in (c :: w, rest)
  | [] => ([], [])
  end.

Section Calls.
  Context {B : Type} `{BA : BitAllocator B} {K : Type} `{!Kernel K}.
  (** Repetitions of a read that traps. *)
  Context (fuel : nat).

(** Of the running process and the kernel: the open files, the file system,
    what the console printed, the characters typed on the keyboard. What the
    kernel prints about a bad argument is left out. *)
Record Io := mkIo { fileTable : Table B nat; fileSystem : FileSys; console : list Z; keyboard : list Z }.

Definition set_table (t : Table B nat) (s : Io) : Io := mkIo t (fileSystem s) (console s) (keyboard s).
Definition set_fs (f : FileSys) (s : Io) : Io := mkIo (fileTable s) f (console s) (keyboard s).

Abbreviation F := (ST ((Machine * K) * Io)).

Definition on_memory {A} (c : ST (Machine * K) A) : F A := fun '(w, s) => let* '(w, a) := c w in Ok ((w, s), a).
Definition on_io {A} (c : Io -> res (Io * A)) : F A := fun '(w, s) => let* '(s, a) := c s in Ok ((w, s), a).

(** [new char[len]]: a negative size is undefined. *)
Definition new_buffer (len : Z) : F unit := if decide (0 <= len) then sret tt else fail OutOfBounds.

Definition Create_Syscall (vaddr len : Z) : F unit :=
  new_buffer (len + 1) ;;;
  r <- on_memory (copyin fuel vaddr len) ;;
  if decide (r.1 = -1) then sret tt
  else on_io (fun s => Ok (set_fs (Create (c_string r.2) (fileSystem s)) s, tt)).

Definition Open_Syscall (vaddr len : Z) : F Z :=
  new_buffer (len + 1) ;;;
  r <- on_memory (copyin fuel vaddr len) ;;
  if decide (r.1 = -1) then sret (-1)
  else
    f <- on_io (fun s => let '(fs, f) := Open (c_string r.2) (fileSystem s) in Ok (set_fs fs s, f)) ;;
    match f with
    | Some f =>
        id <- on_io (fun s => let* '(t, id) := Put (fileTable s) (Some f) in Ok (set_table t s, id)) ;;
        (if decide (id = -1) then on_io (fun s => let* fs := File_delete f (fileSystem s) in Ok (set_fs fs s, tt)) else sret tt) ;;;
        sret id
    | None => sret (-1)
    end.

Definition get_file (id : Z) : F (option nat) := on_io (fun s => let* f := Get (fileTable s) id in Ok (s, f)).

Definition Write_Syscall (vaddr len id : Z) : F unit :=
  if decide (id = ConsoleInput) then sret tt
  else
    new_buffer len ;;;
    r <- on_memory (copyin fuel vaddr len) ;;
    if decide (r.1 = -1) then sret tt
    else if decide (id = ConsoleOutput) then
      on_io (fun s => Ok (mkIo (fileTable s) (fileSystem s) (console s ++ r.2) (keyboard s), tt))
    else
      f <- get_file id ;;
      match f with
      | Some f => on_io (fun s => let* fs := File_Write f r.2 (fileSystem s) in Ok (set_fs fs s, tt))
      | None => sret tt
      end.

(** [scanf("%s", buf)] into a buffer of [len] bytes: white space is skipped, the
    word and its NUL are stored, or nothing at the end of the input. *)
Definition scan (len : Z) : F (list Z) := on_io (fun s =>
  let '(w, rest) := take_word (skip_space (keyboard s)) in
  match w with
  | [] => Ok (mkIo (fileTable s) (fileSystem s) (console s) rest, [])
  | _ =>
      if decide (Z.of_nat (length w) + 1 <= len) then Ok (mkIo (fileTable s) (fileSystem s) (console s) rest, w ++ [0])
      else Fault OutOfBounds
  end).

(** [garbage]: what [new char[len]] left in the rest of the buffer. *)
Definition Read_Syscall (garbage : nat -> Z) (vaddr len id : Z) : F Z :=
  if decide (id = ConsoleOutput) then sret (-1)
  else
    new_buffer len ;;;
    if decide (id = ConsoleInput) then
      w <- scan len ;;
      on_memory (copyout vaddr len (w ++ (garbage <$> seq (length w) (Z.to_nat len - length w)))) ;;;
      sret len
    else
      f <- get_file id ;;
      match f with
      | Some f =>
          buf <- on_io (fun s => let* '(fs, buf) := File_Read f len (fileSystem s) in Ok (set_fs fs s, buf)) ;;
          let len := Z.of_nat (length buf) in
          (if decide (len > 0) then on_memory (copyout vaddr len buf) else sret 0) ;;;
          sret len
      | None => sret (-1)
      end.

Definition Close_Syscall (fd : Z) : F unit :=
  f <- on_io (fun s => let* '(t, f) := Remove (fileTable s) fd in Ok (set_table t s, f)) ;;
  match f with
  | Some f => on_io (fun s => let* fs := File_delete f (fileSystem s) in Ok (set_fs fs s, tt))
  | None => sret tt
  end.
End Calls.
Arguments Io B : clear implicits.

(** * Lemmas *)

Section TableLemmas.
  Context {B : Type} `{BA : BitAllocator B} {P : Type}.
  Implicit Types (t : Table B P) (slots : list (option (option P))).

(** A slot is free or holds a pointer, which may be null. *)
Definition in_use (x : option (option P)) : bool := match x with Some _ => true | None => false end.

Definition table_rep t slots : Prop :=
  ba_rep (map t) (in_use <$> slots) /\ size t = Z.of_nat (length slots) /\ length (table t) = length slots /\
  forall i f, slots !! i = Some (Some f) -> table t !! i = Some f.

(** The pointer [Get] and [Remove] give for an index. *)
Definition held slots (i : Z) : option P := if decide (0 <= i) then default None (default None (slots !! Z.to_nat i)) else None.

Lemma held_out slots i : ~ 0 <= i < Z.of_nat (length slots) -> held slots i = None.
Proof. intros Hi. unfold held. case_decide; [|done]. by rewrite lookup_ge_None_2 by lia. Qed.

Lemma Get_held t slots i : table_rep t slots -> Get t i = Ok (held slots i).
Proof.
  intros (Hm & Hs & Hl & Ht). unfold Get. rewrite Hs. case_decide as Hi; [|by rewrite held_out].
  destruct (lookup_lt_is_Some_2 slots (Z.to_nat i)) as [x Hx]; [lia|].
  rewrite (ba_test_in _ _ i (in_use x) Hm) by (lia || (by rewrite list_lookup_fmap, Hx)). cbn [rbind].
  unfold held. rewrite decide_True, Hx by lia. destruct x as [f|]; [|done]. cbn. by rewrite (arr_get_lookup _ _ f) by (lia || auto).
Qed.

Lemma in_use_insert slots n f : in_use <$> <[n := f]> slots = <[n := in_use f]> (in_use <$> slots).
Proof. apply list_fmap_insert. Qed.

Lemma rep_insert t slots m tb n x : table_rep t slots -> (n < length slots)%nat -> ba_rep m (<[n := in_use x]> (in_use <$> slots)) ->
  tb = <[n := default None x]> (table t) -> table_rep (mkTable m tb (size t)) (<[n := x]> slots).
Proof.
  intros (Hm & Hs & Hl & Ht) Hn Hm' ->. split; [by rewrite in_use_insert|]. cbn. rewrite !length_insert. split_and!; [done..|].
  intros j f [(-> & -> & _)|[Hj Hf]]%list_lookup_insert_Some; [by apply list_lookup_insert_eq; lia|].
  rewrite list_lookup_insert_ne by done. by apply Ht.
Qed.
End TableLemmas.

(** * Properties *)

Section Properties.
  Context {B : Type} `{BA : BitAllocator B}.

(** C32: the table of open files is a map from small numbers to pointers.
    [Get] gives the pointer put under a number, and a null pointer for any
    other number, negative or too large included; [Put] takes the lowest free
    number and changes no other, or returns -1 when all are taken; [Remove]
    gives what [Get] would and frees the number. *)
Theorem file_table_is_a_map {P} (t : Table B P) slots : table_rep t slots ->
  (forall i, Get t i = Ok (held slots i)) /\
  (forall f, match first_clear (in_use <$> slots) with
             | Some n => slots !! n = Some None /\ (forall j, (j < n)%nat -> slots !! j <> Some None) /\
                 exists t', Put t f = Ok (t', Z.of_nat n) /\ table_rep t' (<[n := Some f]> slots)
             | None => (forall j, slots !! j <> Some None) /\ Put t f = Ok (t, -1)
             end) /\
  (forall i, exists t', Remove t i = Ok (t', held slots i) /\ table_rep t' (if decide (0 <= i) then <[Z.to_nat i := None]> slots else slots)).
Proof.
  intros Hrep. pose proof Hrep as (Hm & Hs & Hl & Ht). split; [intros; by apply Get_held|split].
  - intros f. destruct (first_clear (in_use <$> slots)) as [n|] eqn:Hf; unfold Put.
    + destruct (ba_find_some _ _ n Hm Hf) as (m & Hfind & Hm'). apply first_clear_Some in Hf as [Hn Hlow].
      rewrite list_lookup_fmap in Hn. destruct (slots !! n) as [[x|]|] eqn:Hsn; try done. split; [done|].
      assert ((n < length slots)%nat) as Hlt by by eapply lookup_lt_Some.
      split.
      { intros j Hj Hsj. specialize (Hlow j Hj). rewrite list_lookup_fmap, Hsj in Hlow. done. }
      rewrite Hfind. cbn [rbind]. rewrite decide_True by lia. rewrite arr_set_in, Nat2Z.id by lia.
      eexists. split; [done|]. by apply (rep_insert t slots m _ n (Some f)).
    + rewrite (ba_find_none _ _ Hm Hf). apply first_clear_None in Hf. split; [|by destruct t].
      intros j Hj. rewrite Forall_lookup in Hf. specialize (Hf j false). rewrite list_lookup_fmap, Hj in Hf. by specialize (Hf eq_refl).
  - intros i. unfold Remove. rewrite Hs. case_decide as Hi.
    2: { exists t. rewrite held_out by done. split; [done|]. case_decide; [|done]. by rewrite list_insert_ge by lia. }
    rewrite (decide_True (P := 0 <= i)) by lia.
    destruct (lookup_lt_is_Some_2 slots (Z.to_nat i)) as [x Hx]; [lia|].
    rewrite (ba_test_in _ _ i (in_use x) Hm) by (lia || (by rewrite list_lookup_fmap, Hx)). cbn [rbind].
    unfold held. rewrite decide_True, Hx by lia. destruct x as [f|]; cbn [in_use default].
    + destruct (ba_clear_in _ _ i Hm) as (m & -> & Hm'); [rewrite length_fmap; lia|]. cbn [rbind].
      rewrite (arr_get_lookup _ _ f) by (lia || auto). cbn [rbind]. rewrite arr_set_in by lia. cbn [rbind].
      eexists. split; [done|]. rewrite <-Hs. apply (rep_insert t slots m _ (Z.to_nat i) None); [done|lia|done|done].
    + exists t. split; [done|]. by rewrite list_insert_id.
Qed.
End Properties.

Section Calls.
  Context {B : Type} `{BA : BitAllocator B} (rand : nat -> Z) (other : ExceptionType -> ST (VM B) unit) (fuel : nat).

#[local] Instance pager : Kernel (VM B) := VM_Kernel rand other (S fuel).

(** [bs] written at position [p] of a file; a gap is filled with zeros. *)
Definition overwritten (old bs : list Z) (p : nat) : list Z :=
  let old := old ++ replicate (p - length old) 0 in take p old ++ bs ++ drop (p + length bs) old.

Lemma u8_i8 x : u8 (i8 x) = u8 x.
Proof.
  unfold u8, i8. replace ((x + 2 ^ 7) mod 2 ^ 8 - 2 ^ 7) with (x + (- ((x + 2 ^ 7) / 2 ^ 8)) * 2 ^ 8) by (rewrite Z.mod_eq; lia).
  by rewrite Z.mod_add.
Qed.

(** C33: [Write_Syscall] writes what the program has in its buffer. With the
    pages of the buffer in memory, a write to the console prints the bytes, a
    write to an open file stores them at its position, which advances by their
    number, and a write to a number that is not open does nothing; the other
    files, the other positions and the memory of every program stay. *)
Theorem Write_Syscall_writes_the_buffer n m (k : VM B) t bl sl va bytes id (s : Io B) slots :
  regs_ok m -> Inv None None (joined m k) t bl sl -> listed None k -> small_pages k ->
  0 <= va -> va + Z.of_nat (length bytes) <= 2 ^ 31 -> (forall i b, bytes !! i = Some b -> user_byte m k t (va + Z.of_nat i) b) ->
  id <> ConsoleInput -> table_rep (fileTable s) slots ->
  exists m' k' t', undisturbed m k t m' k' t' bl sl /\
    if decide (id = ConsoleOutput) then
      Write_Syscall (S (S n)) va (Z.of_nat (length bytes)) id ((m, k), s) =
        Ok (((m', k'), mkIo (fileTable s) (fileSystem s) (console s ++ (i8 <$> bytes)) (keyboard s)), tt)
    else match held slots id with
         | None => Write_Syscall (S (S n)) va (Z.of_nat (length bytes)) id ((m, k), s) = Ok (((m', k'), s), tt)
         | Some f => forall name off, opened (fileSystem s) !! f = Some (name, off) -> 0 <= off ->
             Write_Syscall (S (S n)) va (Z.of_nat (length bytes)) id ((m, k), s) =
               Ok (((m', k'), set_fs (mkFileSys
                     (<[name := overwritten (default [] (disk (fileSystem s) !! name)) (u8 <$> bytes) (Z.to_nat off)]> (disk (fileSystem s)))
                     (<[f := (name, off + Z.of_nat (length bytes))]> (opened (fileSystem s)))
                     (nextFile (fileSystem s))) s), tt)
         end.
Proof.
  intros Hregs HI HL Hsm Hva Hend Hbytes Hid Hrep.
  destruct (copyin_loop_ok rand other fuel n bytes m k t bl sl va Hregs HI HL Hsm Hva Hend Hbytes) as (m' & k' & t' & Hcopy & Hud).
  exists m', k', t'. split; [done|]. unfold Write_Syscall. rewrite (decide_False (P := id = ConsoleInput)) by done.
  assert (forall A (c : Z * list Z -> ST ((Machine * VM B) * Io B) A), (new_buffer (Z.of_nat (length bytes)) ;;;
    r <- on_memory (copyin (S (S n)) va (Z.of_nat (length bytes))) ;; c r) ((m, k), s) = c (Z.of_nat (length bytes), i8 <$> bytes) ((m', k'), s)) as Hstep.
  { intros A c. unfold sbind at 1, new_buffer. rewrite decide_True by lia. cbn [sret]. unfold sbind at 1, on_memory, copyin.
    unfold sbind at 1. rewrite Nat2Z.id. unfold paging in Hcopy. unfold pager. rewrite Hcopy. done. }
  rewrite Hstep. cbn [fst snd]. rewrite (decide_False (P := Z.of_nat (length bytes) = -1)) by lia.
  case_decide; [done|]. unfold get_file, on_io. unfold sbind. rewrite (Get_held _ slots) by done. cbn [rbind].
  destruct (held slots id) as [f|]; [|done]. intros name off Hf Hoff. unfold File_Write. rewrite Hf. cbn [deref rbind].
  unfold WriteAt, ASSERT. rewrite bool_decide_eq_true_2 by lia. cbn [rbind].
  assert (u8 <$> (i8 <$> bytes) = u8 <$> bytes) as -> by (rewrite <-list_fmap_compose; apply list_fmap_ext; intros ? x _; apply u8_i8).
  unfold overwritten. by rewrite !length_fmap.
Qed.

(** a read into a page that the TLB does not map loses the data. The page
    of the buffer is in memory and belongs to the program, the file is open and
    has bytes left: [Read_Syscall] returns their number and the position of the
    file advances, but none of them reaches the program, whose memory is as
    before, since [copyout] failed. *)
Theorem Read_Syscall_loses_the_data garbage m (k : VM B) t bl sl va len id (s : Io B) slots f name off p :
  regs_ok m -> Inv None None (joined m k) t bl sl -> listed None k -> small_pages k ->
  0 <= va < 2 ^ 31 -> resident None (IPT k) (currentSpace k) (vpn_of va) p -> (forall i e, ~ maps m (vpn_of va) i e) ->
  0 < len -> id <> ConsoleInput -> id <> ConsoleOutput -> table_rep (fileTable s) slots -> held slots id = Some f ->
  opened (fileSystem s) !! f = Some (name, off) -> 0 <= off < Z.of_nat (length (default [] (disk (fileSystem s) !! name))) ->
  exists m' k' t' r, let left := Z.of_nat (length (default [] (disk (fileSystem s) !! name))) - off in
    r = Z.min len left /\ 0 < r /\
    Read_Syscall garbage va len id ((m, k), s) =
      Ok (((m', k'), set_fs (mkFileSys (disk (fileSystem s)) (<[f := (name, off + r)]> (opened (fileSystem s))) (nextFile (fileSystem s))) s), r) /\
    undisturbed m k t m' k' t' bl sl.
Proof.
  intros Hregs HI HL Hsm Hva Hr Hmiss Hlen Hid1 Hid2 Hrep Hheld Hf Hoff.
  destruct (fault_resident rand other fuel m k t bl sl va p Hregs HI HL Hsm Hva Hr Hmiss)
    as (m1 & k1 & t1 & Hraise & Hr1 & HI1 & HL1 & Hsm1 & HK1 & Hsh1 & Hmap).
  set (data := default [] (disk (fileSystem s) !! name)) in *. remember (take (Z.to_nat len) (drop (Z.to_nat off) data)) as bs eqn:Ebs.
  assert (Z.of_nat (length bs) = Z.min len (Z.of_nat (length data) - off)) as Hbs by (subst bs; rewrite length_take, length_drop; lia).
  exists m1, k1, t1, (Z.of_nat (length bs)). cbv zeta. split; [done|]. split; [lia|]. split; [|by split].
  assert (length bs <> 0%nat) as Hne by lia. destruct bs as [|b bs']; [done|].
  assert (copyout (Kernel0 := pager) va (Z.of_nat (length (b :: bs'))) (i8 <$> b :: bs') (m, k) = Ok ((m1, k1), -1)) as Hout.
  { unfold copyout. rewrite Nat2Z.id. cbn [length fmap list_fmap take copyout_loop]. rewrite i32_id by (unfold in_i32; lia).
    unfold sbind at 1, WriteMem at 1, on_machine at 1. unfold sbind at 1.
    rewrite (translate_miss m k t bl sl va true HI Hmiss). cbn [rbind]. unfold sbind at 1. unfold paging in Hraise. unfold pager. by rewrite Hraise. }
  unfold Read_Syscall. rewrite (decide_False (P := id = ConsoleOutput)) by done. unfold sbind at 1, new_buffer. rewrite (decide_True (P := 0 <= len)) by lia.
  unfold sret at 1. rewrite (decide_False (P := id = ConsoleInput)) by done.
  unfold sbind at 1, get_file, on_io at 1. rewrite (Get_held _ slots) by done. cbn [rbind]. rewrite Hheld.
  unfold sbind at 1, on_io, File_Read. rewrite Hf. cbn [deref rbind]. unfold ReadAt, ASSERT. rewrite bool_decide_eq_true_2 by lia. cbn [rbind].
  fold data. rewrite <-Ebs. cbn [rbind fst snd]. rewrite !length_fmap. rewrite decide_True by lia. unfold sbind at 1, on_memory. by rewrite Hout.
Qed.
End Calls.

(** ** Witnesses: every number of the table is file 9 *)

Definition full_table : Table BitMap nat := mkTable (bitmap_of 8 (2 ^ 32 - 1)) (replicate 256 (Some 9%nat)) 256.
Definition full_slots : list (option (option nat)) := replicate 256 (Some (Some 9%nat)).
Definition some_io : Io BitMap := mkIo full_table (mkFileSys {[ [97] := [1; 2; 3] ]} {[ 9%nat := ([97], 1) ]} 10) [] [].

Lemma full_table_rep : table_rep full_table full_slots.
Proof.
  split; [|split; [done|split; [done|]]].
  - apply bitmap_of_rep; [apply Forall_replicate; unfold in_u32; lia|done|by vm_compute].
  - intros i f [Hf Hi]%lookup_replicate. injection Hf as ->. cbn [full_table table]. by apply lookup_replicate_2.
Qed.

Example file_table_is_a_map_witness : Get full_table 3 = Ok (Some 9%nat) /\ Put full_table (Some 4%nat) = Ok (full_table, -1).
Proof.
  destruct (file_table_is_a_map full_table full_slots full_table_rep) as (H1 & H2 & _).
  split; [exact (H1 3)|]. specialize (H2 (Some 4%nat)). vm_compute in H2. exact (proj2 H2).
Defined.

Example Write_Syscall_writes_the_buffer_witness : exists w,
  Write_Syscall (Kernel0 := VM_Kernel (fun _ => 0) (fun _ => fail AssertFail) 1) 2 0 1 3 ((full_machine 0, full 0), some_io) =
    Ok ((w, set_fs (mkFileSys {[ [97] := [1; 1; 3] ]} {[ 9%nat := ([97], 2) ]} 10) some_io), tt).
Proof.
  destruct (Write_Syscall_writes_the_buffer (fun _ => 0) (fun _ => fail AssertFail) 0 0 (full_machine 0) (full 0) full_tlb all_taken swap_free 0 [1] 3 some_io full_slots)
    as (m' & k' & t' & _ & H).
  - apply full_regs.
  - apply full_inv; cbn; lia.
  - apply full_listed.
  - apply full_small.
  - lia.
  - cbn. lia.
  - intros [|i] b Hb; [|by destruct i]. injection Hb as <-. exists 0%nat, [1]. split; [|split].
    + apply (full_resident 0 0). unfold NumPhysPages. lia.
    + apply full_content_0; cbn; lia.
    + reflexivity.
  - done.
  - apply full_table_rep.
  - exists (m', k'). specialize (H [97] 1 eq_refl ltac:(lia)). etrans; [exact H|]. reflexivity.
Defined.

Example Read_Syscall_loses_the_data_witness : exists w s',
  Read_Syscall (Kernel0 := VM_Kernel (fun _ => 0) (fun _ => fail AssertFail) 1) (fun _ => 0) 128 10 3 ((full_machine 0, full 0), some_io) =
    Ok ((w, s'), 2).
Proof.
  destruct (Read_Syscall_loses_the_data (fun _ => 0) (fun _ => fail AssertFail) 0 (fun _ => 0) (full_machine 0) (full 0) full_tlb all_taken swap_free 128 10 3
    some_io full_slots 9%nat [97] 1 1%nat) as (m' & k' & t' & r & Hr & _ & H & _).
  - apply full_regs.
  - apply full_inv; cbn; lia.
  - apply full_listed.
  - apply full_small.
  - lia.
  - apply (full_resident 0 1). unfold NumPhysPages. lia.
  - apply full_miss. done.
  - lia.
  - done.
  - done.
  - apply full_table_rep.
  - reflexivity.
  - reflexivity.
  - split; [lia|vm_compute; reflexivity].
  - subst r. exists (m', k'). eexists. etrans; [exact H|]. reflexivity.
Defined.
