(* ===== verification/Preserve.v ===== *)
(** * What the page fault handler and the file system calls preserve

    A property of the kernel's state that each write of the page fault handler
    preserves is preserved by the handler ([VMInvariant]), and one that reading
    and writing a byte of user memory preserves is preserved by [copyin],
    [copyout] and the file system calls ([ByteInvariant]). [Exceptions] uses this
    for the registers of the program, [Safety] for the shape of the machine. *)
From S2P Require Import Prelude BitMap Machine VM PageFault UserMemory FileCalls.

(** From a state with [P], [c] stops or leaves a state with [P]. *)
Definition preserves {S A} (P : S -> Prop) (c : ST S A) : Prop := triple P c (fun _ => P) (fun _ => True).

Section Preserves.
  Context {S : Type} (P : S -> Prop).

Lemma preserves_ret {A} (a : A) : preserves P (sret a).
Proof. by apply triple_ret. Qed.
Lemma preserves_fail {A} e : preserves P (fail e : ST S A).
Proof. by apply triple_fail. Qed.
Lemma preserves_lift {A} (r : res A) : preserves P (lift r).
Proof. intros s Hs. unfold lift. by destruct r. Qed.
Lemma preserves_bind {A C} (c : ST S A) (f : A -> ST S C) : preserves P c -> (forall a, preserves P (f a)) -> preserves P (sbind c f).
Proof. intros Hc Hf. by eapply triple_bind; [apply Hc|]. Qed.
Lemma preserves_lift_bind {A C} (r : res A) (f : A -> ST S C) : (forall a, r = Ok a -> preserves P (f a)) -> preserves P (sbind (lift r) f).
Proof. intros Hf s Hs. unfold sbind, lift. destruct r as [a|]; [|done]. by apply (Hf a). Qed.
Lemma preserves_get {A} (f : S -> ST S A) : (forall s0, P s0 -> preserves P (f s0)) -> preserves P (sbind get f).
Proof. intros Hf s Hs. by apply (Hf s). Qed.
Lemma preserves_put s : P s -> preserves P (put s).
Proof. by intros Hs ? _. Qed.
Lemma preserves_modify (f : S -> S) : (forall s, P s -> P (f s)) -> preserves P (modify f).
Proof. intros Hf s Hs. by apply Hf. Qed.
End Preserves.

Create HintDb preserves discriminated.
#[export] Hint Resolve preserves_ret preserves_fail preserves_lift : preserves.

(** The structure of a routine, down to what the hints know. *)
Ltac preserve_steps := repeat first
  [ by auto with preserves nocore
  | match goal with
    | |- preserves _ (sbind get _) => apply preserves_get; intros ? ?
    | |- preserves _ (sbind (lift _) _) => apply preserves_lift_bind; intros ? ?
    | |- preserves _ (sbind _ _) => apply preserves_bind; [|intros ?]
    | |- preserves _ (put _) => apply preserves_put
    | |- preserves _ (modify _) => apply preserves_modify; intros ? ?
    | |- preserves _ (if ?b then _ else _) => destruct b
    | |- preserves _ (match ?x with _ => _ end) => destruct x
    | |- preserves _ (let _ := _ in _) => cbv zeta
    end ].

(** ** The page fault handler *)

(** The writes of the handler: tables, the TLB, pages read from the executable
    or the swap file into memory, frames written to the swap file. *)
Class VMInvariant {B : Type} `{BA : BitAllocator B} (P : VM B -> Prop) := {
  vi_IPT t s : P s -> P (set_IPT t s);
  vi_bitmap b s : P s -> P (set_bitmap b s);
  vi_list l s : P s -> P (set_evictionList l s);
  vi_current i s : P s -> P (set_currentTLB i s);
  vi_rands n s : P s -> P (set_rands n s);
  vi_map b s : P s -> P (set_swap b (swapFile s) s);
  vi_tlb s t t' : P s -> tlb (machine s) = Some t -> length t' = length t -> P (set_machine (set_tlb (machine s) (Some t')) s);
  vi_pte s a sp t : P s -> spaces s !! a = Some sp -> P (set_spaces (<[a := mkAddrSpace t (numExecutablePages sp) (executable sp)]> (spaces s)) s);
  vi_load s f n o bs a : P s -> f = swapFile s \/ (exists b sp, spaces s !! b = Some sp /\ f = executable sp) -> ReadAt f n o = Ok bs ->
    P (set_machine (set_memory (machine s) (copy_to (mainMemory (machine s)) a bs)) s);
  vi_store s p o f : P s -> WriteAt (swapFile s) (read_frame (mainMemory (machine s)) p) o = Ok f -> P (set_swap (swapMap s) f s)
}.

Section Handler.
  Context {B : Type} `{BA : BitAllocator B} (rand : nat -> Z) (P : VM B -> Prop) `{!VMInvariant P}.
  Abbreviation keeps := (preserves P).

Lemma kept_get_IPT p : keeps (get_IPT p).
Proof. intros s Hs. unfold get_IPT. by destruct (arr_get _ _). Qed.
Lemma kept_put_IPT p e : keeps (put_IPT p e).
Proof. intros s Hs. unfold put_IPT. destruct (arr_set _ _ _); [by apply vi_IPT|done]. Qed.
Lemma kept_get_tlb i : keeps (get_tlb i).
Proof. intros s Hs. unfold get_tlb. destruct (deref _); [|done]. cbn [rbind]. by destruct (arr_get _ _). Qed.
Lemma kept_put_tlb i e : keeps (put_tlb i e).
Proof.
  intros s Hs. unfold put_tlb. destruct (tlb (machine s)) as [t|] eqn:Et; [|done]. cbn [deref rbind].
  destruct (arr_set t i e) as [t'|] eqn:E; [|done]. cbn [rbind]. apply (vi_tlb _ t); [done|done|]. by eapply arr_set_length.
Qed.
Lemma kept_get_pte a v : keeps (get_pte a v).
Proof. intros s Hs. unfold get_pte. destruct (deref _); [|done]. cbn [rbind]. by destruct (arr_get _ _). Qed.
Lemma kept_put_pte a v e : keeps (put_pte a v e).
Proof.
  intros s Hs. unfold put_pte. destruct (spaces s !! a) as [sp|] eqn:Es; [|done]. cbn [deref rbind].
  destruct (arr_set _ _ _); [|done]. by apply vi_pte.
Qed.
Lemma kept_draw : keeps (draw rand).
Proof. intros s Hs. by apply vi_rands. Qed.
Lemma kept_find_swap : keeps find_swap.
Proof. intros s Hs. unfold find_swap. destruct (ba_find _) as [[b i]|]; [by apply vi_map|done]. Qed.
Lemma kept_find_free : keeps find_free.
Proof. intros s Hs. unfold find_free. destruct (ba_find _) as [[b i]|]; [by apply vi_bitmap|done]. Qed.
#[local] Hint Resolve kept_get_IPT kept_put_IPT kept_get_tlb kept_put_tlb kept_get_pte kept_put_pte
  kept_draw kept_find_swap kept_find_free : preserves.

Ltac handler_steps := preserve_steps; try first [by apply vi_list|by apply vi_current].

Lemma kept_update_IPT p f : keeps (update_IPT p f). Proof. unfold update_IPT. handler_steps. Qed.
Lemma kept_update_tlb p f : keeps (update_tlb p f). Proof. unfold update_tlb. handler_steps. Qed.
#[local] Hint Resolve kept_update_IPT kept_update_tlb : preserves.

Lemma kept_pick fuel : keeps (pick rand fuel).
Proof.
  unfold pick. apply preserves_get. intros s0 _. destruct (evictionPolicy s0).
  all: induction fuel as [|fuel IH]; cbn [pick_random pick_fifo]; handler_steps.
Qed.
Lemma kept_evict_tlb p i : keeps (evict_tlb p i). Proof. unfold evict_tlb. handler_steps. Qed.
Lemma kept_swap_out p : keeps (swap_out p).
Proof. unfold swap_out. handler_steps. by eapply vi_store. Qed.
#[local] Hint Resolve kept_pick kept_evict_tlb kept_swap_out : preserves.

Lemma kept_Evict fuel : keeps (Evict rand fuel). Proof. unfold Evict. handler_steps. Qed.
Lemma kept_load_page vpn p : keeps (load_page vpn p).
Proof.
  unfold load_page. handler_steps.
  - eapply vi_load; [done| |done]. right. match goal with H : deref ?x = Ok _ |- _ => destruct x as [sp|] eqn:Esp; [|done] end.
    eexists _, sp. split; [exact Esp|]. cbn in *. congruence.
  - eapply vi_load; [done|by left|done].
Qed.
#[local] Hint Resolve kept_Evict kept_load_page : preserves.
Lemma kept_HandleIPTMiss vpn p : keeps (HandleIPTMiss vpn p). Proof. unfold HandleIPTMiss. handler_steps. Qed.
#[local] Hint Resolve kept_HandleIPTMiss : preserves.
Lemma kept_bring_in fuel vpn : keeps (bring_in rand fuel vpn). Proof. unfold bring_in. handler_steps. Qed.
Lemma kept_fill_tlb p : keeps (fill_tlb p). Proof. unfold fill_tlb. handler_steps. Qed.
#[local] Hint Resolve kept_bring_in kept_fill_tlb : preserves.

(** The handler preserves what its writes preserve. *)
Lemma kept_HandlePageFault fuel : keeps (HandlePageFault rand fuel).
Proof. unfold HandlePageFault. handler_steps. Qed.
End Handler.

(** ** Copying between kernel and user memory *)

(** What a byte read or written through [ReadMem] and [WriteMem] preserves. *)
Class ByteInvariant {K : Type} `{KK : !Kernel K} (I : Machine * K -> Prop) := {
  bi_read a : preserves I (ReadMem (i32 a) 1);
  bi_write a v : preserves I (WriteMem (i32 a) 1 v)
}.

Section Copying.
  Context {K : Type} `{KK : !Kernel K} (I : Machine * K -> Prop) `{!ByteInvariant I}.

Lemma kept_read_again fuel a : preserves I (read_again fuel a).
Proof.
  induction fuel as [|fuel IH]; cbn [read_again]; [apply preserves_fail|].
  apply preserves_bind; [apply bi_read|]. by intros [v|]; [apply preserves_ret|].
Qed.

Lemma kept_copyin fuel a n : preserves I (copyin fuel a n).
Proof.
  apply preserves_bind; [|intros; apply preserves_ret]. generalize (Z.to_nat n) as l. intros l. revert a.
  induction l as [|l IH]; intros a; cbn [copyin_loop]; [apply preserves_ret|].
  apply preserves_bind; [apply kept_read_again|]. intros v. apply preserves_bind; [apply IH|]. intros. apply preserves_ret.
Qed.

Lemma kept_copyout a n buf : preserves I (copyout a n buf).
Proof.
  unfold copyout. generalize 0 as c. revert a. generalize (take (Z.to_nat n) buf) as l.
  induction l as [|b l IH]; intros a c; cbn [copyout_loop]; [apply preserves_ret|].
  apply preserves_bind; [apply bi_write|]. intros []; [apply IH|apply preserves_ret].
Qed.

(** The file system calls, whose own state is next to the machine's. *)
Section Calls.
  Context {B : Type} `{BA : BitAllocator B} (fuel : nat).

Definition beside (w : (Machine * K) * Io B) : Prop := I w.1.
Abbreviation calls := (preserves beside).

Lemma kept_on_memory {A} (c : ST (Machine * K) A) : preserves I c -> calls (on_memory c).
Proof. intros Hc [w s] Hw. unfold on_memory. specialize (Hc w Hw). by destruct (c w) as [[w' a]|]. Qed.
Lemma kept_on_io {A} (c : Io B -> res (Io B * A)) : calls (on_io c).
Proof. intros [w s] Hw. unfold on_io. by destruct (c s) as [[s' a]|]. Qed.
Lemma kept_new_buffer n : calls (new_buffer n).
Proof. unfold new_buffer. case_decide; [apply preserves_ret|apply preserves_fail]. Qed.
#[local] Hint Resolve kept_on_memory kept_on_io kept_new_buffer kept_copyin kept_copyout : preserves.

Lemma kept_Create a n : calls (Create_Syscall fuel a n).
Proof. unfold Create_Syscall. preserve_steps. Qed.
Lemma kept_Open a n : calls (Open_Syscall fuel a n).
Proof. unfold Open_Syscall. preserve_steps. Qed.
Lemma kept_Write a n id : calls (Write_Syscall fuel a n id).
Proof. unfold Write_Syscall, get_file. preserve_steps. Qed.
Lemma kept_Read g a n id : calls (Read_Syscall g a n id).
Proof. unfold Read_Syscall, get_file, scan. preserve_steps. Qed.
Lemma kept_Close fd : calls (Close_Syscall fd).
Proof. unfold Close_Syscall. preserve_steps. Qed.
End Calls.
End Copying.
#[export] Hint Resolve kept_on_memory kept_on_io kept_new_buffer kept_copyin kept_copyout
  kept_Create kept_Open kept_Write kept_Read kept_Close : preserves.
