(* ===== verification/Files.v ===== *)
(** * filesys/filehdr.cc, filesys/openfile.cc: files on the disk

    A file header with the table of the sectors that hold the file's data, the
    allocation of those sectors, and [ReadAt] and [WriteAt], which read and
    write whole sectors to transfer part of a file. A sector request is one step
    here: [SynchDisk] waits for the interrupt of the disk under a lock. The
    contents of a fresh buffer are a parameter. The abstract file is the list
    of its bytes. *)
From S2P Require Import Prelude BitMap Machine.

Definition NumSectors : Z := 32 * 32.
(** [(SectorSize - 2 * sizeof(int)) / sizeof(int)] *)
Definition NumDirect : Z := 30.
Definition MaxFileSize : Z := NumDirect * SectorSize.

(** A disk: the sectors written so far; a new disk file is filled with zeros. *)
Abbreviation disk := (gmap Z (list Z)).

Definition sector (d : disk) (n : Z) : list Z := default (replicate (Z.to_nat SectorSize) 0) (d !! n).

(** [SynchDisk::ReadSector] and [WriteSector], with the check of [Disk]. *)
Definition ReadSector (d : disk) (n : Z) : res (list Z) :=
  let* _ := ASSERT (bool_decide (n >= 0) && bool_decide (n < NumSectors)) in Ok (sector d n).
Definition WriteSector (d : disk) (n : Z) (data : list Z) : res disk :=
  let* _ := ASSERT (bool_decide (n >= 0) && bool_decide (n < NumSectors)) in Ok (<[n := data]> d).

(** ** Buffers: [bcopy] to and from the buffer at an offset *)

Definition slice (buf : list Z) (off n : Z) : res (list Z) :=
  if decide (0 <= off /\ 0 <= n /\ off + n <= Z.of_nat (length buf)) then
    Ok (take (Z.to_nat n) (drop (Z.to_nat off) buf))
  else Fault OutOfBounds.

Definition overwrite (buf : list Z) (off : Z) (bs : list Z) : res (list Z) :=
  if decide (0 <= off /\ off + Z.of_nat (length bs) <= Z.of_nat (length buf)) then
    Ok (take (Z.to_nat off) buf ++ bs ++ drop (Z.to_nat off + length bs) buf)
  else Fault OutOfBounds.

(** ** [FileHeader] *)

Record FileHeader := mkHeader { numBytes : Z; numSectors : Z; dataSectors : list Z }.

Section Header.
  Context {B : Type} `{BA : BitAllocator B}.

Fixpoint allocate_loop (n : nat) (i : Z) (sectors : list Z) (freeMap : B) : res (B * list Z) :=
  match n with
  | O => Ok (freeMap, sectors)
  | S n =>
      let* '(freeMap, s) := ba_find freeMap in
      let* sectors := arr_set sectors i s in
      allocate_loop n (i + 1) sectors freeMap
  end.

(** [this] is the uninitialised header it is called on. *)
Definition Allocate (this : FileHeader) (freeMap : B) (fileSize : Z) : res (FileHeader * B * bool) :=
  let n := divRoundUp fileSize SectorSize in
  let* clear := ba_num_clear freeMap in
  if bool_decide (clear < n) then Ok (mkHeader fileSize n (dataSectors this), freeMap, false)
  else
    let* '(freeMap, sectors) := allocate_loop (Z.to_nat n) 0 (dataSectors this) freeMap in
    Ok (mkHeader fileSize n sectors, freeMap, true).

Fixpoint deallocate_loop (n : nat) (i : Z) (sectors : list Z) (freeMap : B) : res B :=
  match n with
  | O => Ok freeMap
  | S n =>
      let* s := arr_get sectors i in
      let* t := ba_test freeMap s in
      let* _ := ASSERT t in
      let* freeMap := ba_clear freeMap s in
      deallocate_loop n (i + 1) sectors freeMap
  end.

Definition Deallocate (h : FileHeader) (freeMap : B) : res B :=
  deallocate_loop (Z.to_nat (numSectors h)) 0 (dataSectors h) freeMap.
End Header.

Definition ByteToSector (h : FileHeader) (offset : Z) : res Z :=
  arr_get (dataSectors h) (Z.quot offset SectorSize).
Definition FileLength (h : FileHeader) : Z := numBytes h.

(** ** [OpenFile] *)

(** The loops over the sectors [i], [i + 1], ... *)
Fixpoint read_sectors (n : nat) (i : Z) (h : FileHeader) (d : disk) : res (list Z) :=
  match n with
  | O => Ok []
  | S n =>
      let* s := ByteToSector h (i * SectorSize) in
      let* b := ReadSector d s in
      let* r := read_sectors n (i + 1) h d in
      Ok (b ++ r)
  end.

Fixpoint write_sectors (n : nat) (i : Z) (h : FileHeader) (buf : list Z) (off : Z) (d : disk) : res disk :=
  match n with
  | O => Ok d
  | S n =>
      let* s := ByteToSector h (i * SectorSize) in
      let* b := slice buf off SectorSize in
      let* d := WriteSector d s b in
      write_sectors n (i + 1) h buf (off + SectorSize) d
  end.

(** The bytes copied to [into]; their number is what the method returns. *)
Definition ReadAt (h : FileHeader) (d : disk) (n position : Z) : res (list Z) :=
  let fileLength := FileLength h in
  if bool_decide (n <= 0) || bool_decide (position >= fileLength) then Ok []
  else
    let n := if bool_decide (i32 (position + n) > fileLength) then fileLength - position else n in
    let firstSector := Z.quot position SectorSize in
    let lastSector := Z.quot (position + n - 1) SectorSize in
    let* buf := read_sectors (Z.to_nat (1 + lastSector - firstSector)) firstSector h d in
    slice buf (position - firstSector * SectorSize) n.

Definition WriteAt (garbage : nat -> Z) (h : FileHeader) (d : disk) (from : list Z) (n position : Z) : res (disk * Z) :=
  let fileLength := FileLength h in
  if bool_decide (n <= 0) || bool_decide (position >= fileLength) then Ok (d, 0)
  else
    let n := if bool_decide (i32 (position + n) > fileLength) then fileLength - position else n in
    let firstSector := Z.quot position SectorSize in
    let lastSector := Z.quot (position + n - 1) SectorSize in
    let numSectors := 1 + lastSector - firstSector in
    let buf := garbage <$> seq 0 (Z.to_nat (numSectors * SectorSize)) in
    let firstAligned := bool_decide (position = firstSector * SectorSize) in
    let lastAligned := bool_decide (position + n = (lastSector + 1) * SectorSize) in
    let* buf := (if negb firstAligned then
                   let* b := ReadAt h d SectorSize (firstSector * SectorSize) in overwrite buf 0 b
                 else Ok buf) in
    let* buf := (if negb lastAligned && (negb (bool_decide (firstSector = lastSector)) || firstAligned) then
                   let* b := ReadAt h d SectorSize (lastSector * SectorSize) in
                   overwrite buf ((lastSector - firstSector) * SectorSize) b
                 else Ok buf) in
    let* data := slice from 0 n in
    let* buf := overwrite buf (position - firstSector * SectorSize) data in
    let* d := write_sectors (Z.to_nat numSectors) firstSector h buf 0 d in
    Ok (d, n).

(** An open file: the header in memory and the position. *)
Record OpenFile := mkOpenFile { hdr : FileHeader; seekPosition : Z }.

Definition Seek (f : OpenFile) (position : Z) : OpenFile := mkOpenFile (hdr f) position.
Definition Read (f : OpenFile) (d : disk) (n : Z) : res (OpenFile * list Z) :=
  let* bs := ReadAt (hdr f) d n (seekPosition f) in
  Ok (mkOpenFile (hdr f) (seekPosition f + Z.of_nat (length bs)), bs).
Definition Write (garbage : nat -> Z) (f : OpenFile) (d : disk) (from : list Z) (n : Z) : res (OpenFile * disk * Z) :=
  let* '(d, r) := WriteAt garbage (hdr f) d from n (seekPosition f) in
  Ok (mkOpenFile (hdr f) (seekPosition f + r), d, r).
Definition Length (f : OpenFile) : Z := FileLength (hdr f).

(** * Specification *)

(** The sectors of the file, and their contents one after the other. *)
Definition used (h : FileHeader) : list Z := take (Z.to_nat (numSectors h)) (dataSectors h).
Definition blocks (h : FileHeader) (d : disk) : list (list Z) := sector d <$> used h.
Definition flat (h : FileHeader) (d : disk) : list Z := concat (blocks h d).

(** The bytes of the file. *)
Definition file_bytes (h : FileHeader) (d : disk) : list Z := take (Z.to_nat (numBytes h)) (flat h d).

Record header_ok (h : FileHeader) : Prop := {
  ho_bytes : 0 <= numBytes h <= MaxFileSize;
  ho_sectors : numSectors h = divRoundUp (numBytes h) SectorSize;
  ho_table : length (dataSectors h) = Z.to_nat NumDirect;
  ho_range : Forall (fun s => 0 <= s < NumSectors) (used h);
  ho_nodup : NoDup (used h)
}.

Definition disk_ok (d : disk) : Prop := forall n, length (sector d n) = Z.to_nat SectorSize.

(** * Lemmas *)

(** Arithmetic with division by a constant. *)
Ltac ediv := zify; Z.to_euclidean_division_equations; lia.

(** ** Lists of blocks of one size *)

Section Blocks.
  Context {A : Type} (m : nat) (Hm : (0 < m)%nat).
  Implicit Types bl : list (list A).

Lemma concat_length_blocks bl : Forall (fun b => length b = m) bl -> length (concat bl) = (length bl * m)%nat.
Proof. induction 1 as [|b bl Hb _ IH]; cbn; [done|]. rewrite length_app, IH, Hb. lia. Qed.

Lemma concat_lookup bl k : Forall (fun b => length b = m) bl ->
  concat bl !! k = bl !! (k / m)%nat ≫= fun b => b !! (k mod m)%nat.
Proof.
  intros H. revert k. induction H as [|b bl Hb _ IH]; intros k; cbn [concat].
  { by rewrite !lookup_nil. }
  destruct (decide (k < m)%nat) as [Hk|Hk].
  - rewrite lookup_app_l by lia. rewrite Nat.div_small, Nat.mod_small by lia. done.
  - rewrite lookup_app_r by lia. rewrite Hb, IH.
    assert (k / m = S ((k - m) / m) /\ k mod m = (k - m) mod m)%nat as [-> ->]; [|done].
    replace k with ((k - m) + 1 * m)%nat at 1 3 by lia. rewrite Nat.div_add, Nat.Div0.mod_add by lia. lia.
Qed.

Lemma concat_insert bl i b k : Forall (fun b => length b = m) bl -> (i < length bl)%nat -> length b = m ->
  concat (<[i := b]> bl) !! k =
    if decide (i * m <= k < (i + 1) * m)%nat then b !! (k - i * m)%nat else concat bl !! k.
Proof.
  intros H Hi Hb. rewrite concat_lookup by (by apply Forall_insert). rewrite (concat_lookup bl k H).
  pose proof (Nat.div_mod_eq k m) as Hdm. pose proof (Nat.mod_upper_bound k m ltac:(lia)).
  destruct (decide (k / m = i)%nat) as [Hki|Hki].
  - rewrite Hki, list_lookup_insert_eq by done. rewrite decide_True by nia. cbn. f_equal. nia.
  - rewrite list_lookup_insert_ne by done. rewrite decide_False; [done|]. intros [? ?]. apply Hki. nia.
Qed.
End Blocks.

(** ** Buffers *)

Lemma slice_ok buf off n : 0 <= off -> 0 <= n -> off + n <= Z.of_nat (length buf) ->
  slice buf off n = Ok (take (Z.to_nat n) (drop (Z.to_nat off) buf)).
Proof. intros. unfold slice. by rewrite decide_True. Qed.

Lemma overwrite_ok buf off bs : 0 <= off -> off + Z.of_nat (length bs) <= Z.of_nat (length buf) ->
  exists buf', overwrite buf off bs = Ok buf' /\ length buf' = length buf /\
    forall k, buf' !! k = if decide (Z.to_nat off <= k < Z.to_nat off + length bs)%nat
                          then bs !! (k - Z.to_nat off)%nat else buf !! k.
Proof.
  intros H1 H2. unfold overwrite. rewrite decide_True by done. eexists. split; [reflexivity|]. split.
  - rewrite !length_app, length_take, length_drop. lia.
  - intros k. destruct (decide (k < Z.to_nat off)%nat).
    + rewrite decide_False by lia. rewrite lookup_app_l by (rewrite length_take; lia). by rewrite lookup_take_lt by lia.
    + rewrite lookup_app_r by (rewrite length_take; lia). rewrite length_take, Nat.min_l by lia. case_decide.
      * by rewrite lookup_app_l by lia.
      * rewrite lookup_app_r by lia. rewrite lookup_drop. f_equal. lia.
Qed.

(** ** Sectors *)

Section File.
  Context (h : FileHeader) (HH : header_ok h).

Lemma num_sectors_bounds : (numBytes h <= numSectors h * 128 < numBytes h + 128) /\ 0 <= numSectors h <= 30.
Proof.
  destruct HH as [Hb Hn _ _ _]. unfold MaxFileSize, NumDirect, SectorSize in *. rewrite Hn. unfold divRoundUp.
  case_bool_decide; ediv.
Qed.

Lemma used_length : length (used h) = Z.to_nat (numSectors h).
Proof.
  pose proof num_sectors_bounds. unfold used. rewrite length_take, (ho_table h HH). unfold NumDirect. lia.
Qed.

Lemma blocks_length d : length (blocks h d) = Z.to_nat (numSectors h).
Proof. unfold blocks. by rewrite length_fmap, used_length. Qed.

Lemma blocks_uniform d : disk_ok d -> Forall (fun b => length b = 128%nat) (blocks h d).
Proof. intros Hd. apply Forall_fmap, Forall_true. intros s. apply Hd. Qed.

Lemma flat_length d : disk_ok d -> length (flat h d) = (Z.to_nat (numSectors h) * 128)%nat.
Proof. intros Hd. unfold flat. rewrite (concat_length_blocks 128) by (lia || by apply blocks_uniform). by rewrite blocks_length. Qed.

Lemma file_bytes_length d : disk_ok d -> length (file_bytes h d) = Z.to_nat (numBytes h).
Proof.
  intros Hd. pose proof num_sectors_bounds. unfold file_bytes. rewrite length_take, flat_length by done. lia.
Qed.

Lemma file_bytes_lookup d k : (k < Z.to_nat (numBytes h))%nat -> file_bytes h d !! k = flat h d !! k.
Proof. intros Hk. unfold file_bytes. by rewrite lookup_take_lt. Qed.

Lemma ByteToSector_ok (i : nat) : (i < Z.to_nat (numSectors h))%nat ->
  exists s, ByteToSector h (Z.of_nat i * SectorSize) = Ok s /\ used h !! i = Some s /\ 0 <= s < NumSectors.
Proof.
  intros Hi. rewrite <-used_length in Hi. destruct (lookup_lt_is_Some_2 _ _ Hi) as [s Hs]. exists s.
  split; [|split; [done|]].
  - unfold ByteToSector, SectorSize. rewrite Z.quot_mul by done. apply arr_get_lookup; [lia|].
    unfold used in Hs. apply lookup_take_Some in Hs as [Hs _]. by rewrite Nat2Z.id.
  - eapply Forall_lookup in Hs; [|apply (ho_range h HH)]. done.
Qed.

Lemma sector_range s : 0 <= s < NumSectors -> bool_decide (s >= 0) && bool_decide (s < NumSectors) = true.
Proof. intros. rewrite !bool_decide_eq_true_2 by lia. done. Qed.

Lemma read_sectors_ok d n (i : nat) : disk_ok d -> (i + n <= Z.to_nat (numSectors h))%nat ->
  exists buf, read_sectors n (Z.of_nat i) h d = Ok buf /\ length buf = (n * 128)%nat /\
    forall k, (k < n * 128)%nat -> buf !! k = flat h d !! (i * 128 + k)%nat.
Proof.
  intros Hd. revert i. induction n as [|n IH]; intros i Hi; cbn [read_sectors].
  { exists []. split_and!; [done|done|lia]. }
  destruct (ByteToSector_ok i) as (s & Hs & Hu & Hr); [lia|]. rewrite Hs. cbn [rbind].
  unfold ReadSector. rewrite sector_range by done. cbn [ASSERT rbind].
  replace (Z.of_nat i + 1) with (Z.of_nat (S i)) by lia. destruct (IH (S i)) as (r & -> & Hl & Hk); [lia|].
  pose proof (Hd s) as Hls. change (Z.to_nat SectorSize) with 128%nat in Hls.
  exists (sector d s ++ r). split; [done|]. split; [rewrite length_app; lia|]. intros k Hkn.
  destruct (decide (k < 128)%nat) as [Hk1|Hk1].
  - rewrite lookup_app_l by lia. unfold flat. rewrite (concat_lookup 128) by (lia || by apply blocks_uniform).
    rewrite Nat.div_add_l, Nat.div_small, Nat.add_0_r by lia.
    rewrite (Nat.add_comm (i * 128)), Nat.Div0.mod_add, Nat.mod_small by lia.
    unfold blocks. by rewrite list_lookup_fmap, Hu.
  - rewrite lookup_app_r by lia. rewrite Hls, Hk by lia. f_equal. lia.
Qed.

Lemma blocks_write d i s b : used h !! i = Some s -> blocks h (<[s := b]> d) = <[i := b]> (blocks h d).
Proof.
  intros Hi. apply list_eq. intros j. unfold blocks. rewrite list_lookup_fmap.
  pose proof (lookup_lt_Some _ _ _ Hi). destruct (decide (j = i)) as [->|Hne].
  - rewrite Hi, list_lookup_insert_eq by (by rewrite length_fmap). cbn. unfold sector. by rewrite lookup_insert_eq.
  - rewrite list_lookup_insert_ne by done. rewrite list_lookup_fmap. destruct (used h !! j) as [s'|] eqn:Hj; [|done].
    cbn. unfold sector. rewrite lookup_insert_ne; [done|]. intros ->. apply Hne.
    by eapply NoDup_lookup; [apply (ho_nodup h HH)|..].
Qed.

Lemma disk_ok_write d s b : disk_ok d -> length b = 128%nat -> disk_ok (<[s := b]> d).
Proof.
  intros Hd Hb n. unfold sector. destruct (decide (n = s)) as [->|Hne].
  - by rewrite lookup_insert_eq.
  - rewrite lookup_insert_ne by done. apply Hd.
Qed.

Lemma write_sectors_ok n (i : nat) buf (off : nat) d : disk_ok d -> (i + n <= Z.to_nat (numSectors h))%nat ->
  (off + n * 128 <= length buf)%nat ->
  exists d', write_sectors n (Z.of_nat i) h buf (Z.of_nat off) d = Ok d' /\ disk_ok d' /\
    (forall k, flat h d' !! k = if decide (i * 128 <= k < (i + n) * 128)%nat
                                then buf !! (off + (k - i * 128))%nat else flat h d !! k) /\
    (forall s, s ∉ used h -> sector d' s = sector d s).
Proof.
  revert i off d. induction n as [|n IH]; intros i off d Hd Hi Hoff; cbn [write_sectors].
  { exists d. split_and!; try done. intros k. by rewrite decide_False by lia. }
  destruct (ByteToSector_ok i) as (s & Hs & Hu & Hr); [lia|]. rewrite Hs. cbn [rbind].
  rewrite slice_ok by (unfold SectorSize; lia). cbn [rbind]. rewrite Nat2Z.id. change (Z.to_nat SectorSize) with 128%nat.
  set (b := take 128 (drop off buf)). assert (length b = 128%nat) as Hb by (unfold b; rewrite length_take, length_drop; lia).
  unfold WriteSector. rewrite sector_range by done. cbn [ASSERT rbind].
  replace (Z.of_nat i + 1) with (Z.of_nat (S i)) by lia. replace (Z.of_nat off + SectorSize) with (Z.of_nat (off + 128)) by (unfold SectorSize; lia).
  destruct (IH (S i) (off + 128)%nat (<[s := b]> d)) as (d' & -> & Hd' & Hf & Ho); [by apply disk_ok_write|lia|lia|].
  exists d'. split_and!; try done.
  - intros k. rewrite Hf. destruct (decide (S i * 128 <= k < (S i + n) * 128)%nat) as [Hk|Hk].
    + rewrite decide_True by lia. f_equal. lia.
    + unfold flat. rewrite (blocks_write d i s b Hu), (concat_insert 128) by
        (lia || (by apply blocks_uniform) || rewrite blocks_length; lia || done).
      destruct (decide (i * 128 <= k < (i + 1) * 128)%nat).
      * rewrite decide_True by lia. unfold b. rewrite lookup_take_lt by lia. rewrite lookup_drop. f_equal.
      * rewrite decide_False by lia. done.
  - intros s' Hs'. rewrite Ho by done. unfold sector. rewrite lookup_insert_ne; [done|]. intros <-. apply Hs'.
    by eapply list_elem_of_lookup_2.
Qed.
(** ** Requests *)

(** The bytes a request really transfers, and the sectors it touches. *)
Definition clamp (n pos : Z) : Z := Z.min n (numBytes h - pos).

Lemma request_cases n pos : 0 <= pos -> pos + n < 2 ^ 31 -> n <= 0 \/ numBytes h <= pos \/
  (bool_decide (n <= 0) || bool_decide (pos >= FileLength h) = false /\
   (if bool_decide (i32 (pos + n) > FileLength h) then FileLength h - pos else n) = clamp n pos /\
   0 < clamp n pos /\ pos + clamp n pos <= numBytes h).
Proof.
  intros Hp Hn. destruct (decide (n <= 0)); [by left|right]. destruct (decide (numBytes h <= pos)); [by left|right].
  unfold FileLength, clamp. rewrite !bool_decide_eq_false_2 by lia.
  rewrite i32_id by (unfold in_i32; lia). split; [done|]. case_bool_decide; split_and!; lia.
Qed.

(** The sectors of [n] bytes at [pos]. *)
Lemma request_sectors n pos : 0 <= pos -> 0 < n -> pos + n <= numBytes h ->
  exists a b : nat, Z.quot pos SectorSize = Z.of_nat a /\ Z.quot (pos + n - 1) SectorSize = Z.of_nat b /\
    (a <= b)%nat /\ (a + S (b - a) <= Z.to_nat (numSectors h))%nat /\
    Z.of_nat a * 128 <= pos < Z.of_nat a * 128 + 128 /\ Z.of_nat b * 128 < pos + n <= Z.of_nat b * 128 + 128.
Proof.
  intros Hp Hn Hl. pose proof num_sectors_bounds. unfold SectorSize.
  exists (Z.to_nat (Z.quot pos 128)), (Z.to_nat (Z.quot (pos + n - 1) 128)). split_and!; ediv.
Qed.

Lemma ReadAt_ok d n pos : disk_ok d -> 0 <= pos -> pos + n < 2 ^ 31 ->
  ReadAt h d n pos = Ok (take (Z.to_nat n) (drop (Z.to_nat pos) (file_bytes h d))).
Proof.
  intros Hd Hp Hn. unfold ReadAt. destruct (request_cases n pos Hp Hn) as [Hz|[Hz|(-> & -> & Hc & Hle)]].
  - rewrite bool_decide_eq_true_2 by done. cbn [orb]. by replace (Z.to_nat n) with 0%nat by lia.
  - rewrite (bool_decide_eq_true_2 (pos >= _)), orb_true_r by (unfold FileLength; lia).
    rewrite drop_ge by (rewrite file_bytes_length by done; lia). by rewrite take_nil.
  - destruct (request_sectors (clamp n pos) pos Hp Hc Hle) as (a & b & -> & -> & Hab & Hbs & Ha & Hb).
    destruct (read_sectors_ok d (S (b - a)) a Hd Hbs) as (buf & Hr & Hl & Hk).
    replace (Z.to_nat (1 + Z.of_nat b - Z.of_nat a)) with (S (b - a)) by lia. rewrite Hr. cbn [rbind].
    unfold SectorSize. rewrite slice_ok by lia. f_equal. apply list_eq. intros k.
    pose proof (file_bytes_length d Hd) as Hfl. unfold clamp in *.
    destruct (decide (k < Z.to_nat (Z.min n (numBytes h - pos)))%nat) as [Hkn|Hkn].
    + rewrite !lookup_take_lt, !lookup_drop by lia. rewrite Hk, file_bytes_lookup by lia. f_equal. lia.
    + rewrite (lookup_take_ge _ (Z.to_nat (Z.min _ _))) by lia. symmetry. apply lookup_ge_None.
      rewrite length_take, length_drop, Hfl. lia.
Qed.

(** The buffer before the copy: the bytes around the request are the file's. *)
Lemma WriteAt_buffer garbage d (a b : nat) n pos : disk_ok d -> 0 <= pos -> 0 < n -> pos + n <= numBytes h ->
  (a <= b)%nat -> (a + S (b - a) <= Z.to_nat (numSectors h))%nat ->
  Z.of_nat a * 128 <= pos < Z.of_nat a * 128 + 128 -> Z.of_nat b * 128 < pos + n <= Z.of_nat b * 128 + 128 ->
  exists buf,
    (let firstAligned := bool_decide (pos = Z.of_nat a * SectorSize) in
     let lastAligned := bool_decide (pos + n = (Z.of_nat b + 1) * SectorSize) in
     let buf := garbage <$> seq 0 (Z.to_nat ((1 + Z.of_nat b - Z.of_nat a) * SectorSize)) in
     let* buf := (if negb firstAligned then
                    let* b := ReadAt h d SectorSize (Z.of_nat a * SectorSize) in overwrite buf 0 b
                  else Ok buf) in
     if negb lastAligned && (negb (bool_decide (Z.of_nat a = Z.of_nat b)) || firstAligned) then
       let* bs := ReadAt h d SectorSize (Z.of_nat b * SectorSize) in
       overwrite buf ((Z.of_nat b - Z.of_nat a) * SectorSize) bs
     else Ok buf) = Ok buf /\ length buf = (S (b - a) * 128)%nat /\
    forall k : nat, (k < S (b - a) * 128)%nat -> Z.of_nat a * 128 + Z.of_nat k < numBytes h ->
      ~ (pos <= Z.of_nat a * 128 + Z.of_nat k < pos + n) -> buf !! k = flat h d !! (a * 128 + k)%nat.
Proof.
  intros Hd Hp Hn Hl Hab Hbs Ha Hb. pose proof num_sectors_bounds. pose proof (ho_bytes h HH).
  pose proof (file_bytes_length d Hd) as Hfl. unfold MaxFileSize, NumDirect, SectorSize in *. cbn zeta.
  set (buf0 := garbage <$> _). assert (length buf0 = S (b - a) * 128)%nat as Hl0
    by (unfold buf0; rewrite length_fmap, length_seq; lia).
  assert (forall c : nat, (c <= b)%nat -> exists bs, ReadAt h d 128 (Z.of_nat c * 128) = Ok bs /\
    (length bs <= 128)%nat /\ forall j, (j < 128)%nat -> Z.of_nat c * 128 + Z.of_nat j < numBytes h ->
      bs !! j = flat h d !! (c * 128 + j)%nat /\ (j < length bs)%nat) as HR.
  { intros c Hc. rewrite ReadAt_ok by (done || lia). eexists. split; [reflexivity|].
    rewrite length_take, length_drop, Hfl. split; [lia|]. intros j Hj Hjl. split; [|lia].
    rewrite lookup_take_lt, lookup_drop, file_bytes_lookup by lia. f_equal. lia. }
  assert (exists buf1, (if negb (bool_decide (pos = Z.of_nat a * 128)) then
      let* b := ReadAt h d 128 (Z.of_nat a * 128) in overwrite buf0 0 b else Ok buf0) = Ok buf1 /\ length buf1 = length buf0 /\
      forall k, (k < 128)%nat -> Z.of_nat a * 128 + Z.of_nat k < numBytes h -> pos <> Z.of_nat a * 128 ->
        buf1 !! k = flat h d !! (a * 128 + k)%nat) as (buf1 & -> & Hl1 & Hk1).
  { case_bool_decide as Hal; cbn [negb].
    - exists buf0. split_and!; [done..|]. intros ? _ _ ?. done.
    - destruct (HR a Hab) as (bs & -> & Hbl & Hbk). cbn [rbind].
      destruct (overwrite_ok buf0 0 bs) as (buf1 & -> & Hl1 & Hk1); [lia..|]. exists buf1. split_and!; [done..|].
      intros k Hk1' Hk2 _. destruct (Hbk k Hk1' Hk2) as [<- ?]. rewrite Hk1, decide_True by lia. f_equal. lia. }
  cbn [rbind]. rewrite Hl0 in Hl1.
  destruct (negb (bool_decide (pos + n = (Z.of_nat b + 1) * 128)) &&
    (negb (bool_decide (Z.of_nat a = Z.of_nat b)) || bool_decide (pos = Z.of_nat a * 128))) eqn:Hlast.
  - rewrite andb_true_iff, orb_true_iff, !negb_true_iff, !bool_decide_eq_false, bool_decide_eq_true in Hlast.
    destruct (HR b ltac:(lia)) as (bs & -> & Hbl & Hbk). cbn [rbind].
    destruct (overwrite_ok buf1 ((Z.of_nat b - Z.of_nat a) * 128) bs) as (buf2 & -> & Hl2 & Hk2); [lia..|].
    exists buf2. split; [done|]. split; [lia|]. intros k Hk Hkl Hout. rewrite Hk2. case_decide as Hin.
    + destruct (Hbk (k - (b - a) * 128)%nat) as [He _]; [lia..|].
      replace (k - Z.to_nat ((Z.of_nat b - Z.of_nat a) * 128))%nat with (k - (b - a) * 128)%nat by lia. rewrite He. f_equal. lia.
    + destruct (decide (k < (b - a) * 128)%nat) as [Hkb|Hkb]; [apply Hk1; lia|].
      destruct (Hbk (k - (b - a) * 128)%nat) as [_ ?]; [lia..|]. lia.
  - exists buf1. split; [done|]. split; [done|]. intros k Hk Hkl Hout.
    rewrite andb_false_iff, orb_false_iff, !negb_false_iff, bool_decide_eq_true, bool_decide_eq_true, bool_decide_eq_false in Hlast.
    apply Hk1; lia.
Qed.
(** Writing [bs] at [pos] in a list of bytes. *)
Definition splice (c : list Z) (pos : nat) (bs : list Z) : list Z := take pos c ++ bs ++ drop (pos + length bs) c.

Lemma splice_lookup c pos bs k : (pos + length bs <= length c)%nat ->
  splice c pos bs !! k = if decide (pos <= k < pos + length bs)%nat then bs !! (k - pos)%nat else c !! k.
Proof.
  intros Hl. unfold splice. destruct (decide (k < pos)%nat).
  - rewrite decide_False, lookup_app_l by (rewrite ?length_take; lia). by rewrite lookup_take_lt by lia.
  - rewrite lookup_app_r by (rewrite length_take; lia). rewrite length_take, Nat.min_l by lia. case_decide.
    + by rewrite lookup_app_l by lia.
    + rewrite lookup_app_r by lia. rewrite lookup_drop. f_equal. lia.
Qed.

Lemma WriteAt_ok garbage d from n pos : disk_ok d -> 0 <= pos -> pos + n < 2 ^ 31 -> n <= Z.of_nat (length from) ->
  exists d', WriteAt garbage h d from n pos = Ok (d', Z.max 0 (clamp n pos)) /\ disk_ok d' /\
    file_bytes h d' = splice (file_bytes h d) (Z.to_nat pos) (take (Z.to_nat (clamp n pos)) from) /\
    (forall s, s ∉ used h -> sector d' s = sector d s).
Proof.
  intros Hd Hp Hn Hfrom. unfold WriteAt. pose proof (file_bytes_length d Hd) as Hfl.
  destruct (request_cases n pos Hp Hn) as [Hz|[Hz|(-> & -> & Hc & Hle)]].
  - rewrite bool_decide_eq_true_2 by done. cbn [orb]. exists d. unfold clamp.
    replace (Z.to_nat (Z.min n (numBytes h - pos))) with 0%nat by lia. unfold splice. rewrite take_0. cbn [length app].
    rewrite Nat.add_0_r, take_drop. split_and!; try done. do 2 f_equal. lia.
  - rewrite (bool_decide_eq_true_2 (pos >= _)), orb_true_r by (unfold FileLength; lia). exists d. unfold clamp.
    replace (Z.to_nat (Z.min n (numBytes h - pos))) with 0%nat by lia. unfold splice. rewrite take_0. cbn [length app].
    rewrite Nat.add_0_r, take_drop. split_and!; try done. do 2 f_equal. lia.
  - rewrite Z.max_r by lia. assert (clamp n pos <= n) as Hcn by (unfold clamp; lia). set (m := clamp n pos) in *.
    destruct (request_sectors m pos Hp Hc Hle) as (a & b & Hqa & Hqb & Hab & Hbs & Ha & Hb).
    cbn zeta. rewrite Hqa, Hqb.
    destruct (WriteAt_buffer garbage d a b m pos Hd Hp Hc Hle Hab Hbs Ha Hb) as (buf & Hbuf & Hlb & Hkb).
    cbn zeta in Hbuf. revert Hbuf. destruct (if negb _ then _ else _) as [buf1|]; cbn [rbind]; [|done]. intros ->. cbn [rbind].
    rewrite slice_ok by lia. cbn [rbind]. rewrite drop_0.
    destruct (overwrite_ok buf (pos - Z.of_nat a * SectorSize) (take (Z.to_nat m) from)) as (buf2 & -> & Hl2 & Hk2);
      [unfold SectorSize; lia|rewrite length_take; unfold SectorSize; lia|]. cbn [rbind].
    replace (Z.to_nat (1 + Z.of_nat b - Z.of_nat a)) with (S (b - a)) by lia.
    destruct (write_sectors_ok (S (b - a)) a buf2 0 d Hd Hbs) as (d' & Hws & Hd' & Hf & Ho); [lia|].
    change (Z.of_nat 0) with 0 in Hws. rewrite Hws. cbn [rbind].
    exists d'. split; [done|]. split; [done|]. split; [|done]. apply list_eq. intros k.
    assert (length (take (Z.to_nat m) from) = Z.to_nat m) as Hlt by (rewrite length_take; lia).
    rewrite splice_lookup by lia. rewrite Hlt in *. pose proof (file_bytes_length d' Hd') as Hfl'.
    destruct (decide (k < Z.to_nat (numBytes h))%nat) as [Hk|Hk].
    2: { rewrite lookup_ge_None_2 by lia. rewrite decide_False by lia. symmetry. apply lookup_ge_None. lia. }
    rewrite !file_bytes_lookup by done. rewrite Hf. unfold SectorSize in *.
    destruct (decide (a * 128 <= k < (a + S (b - a)) * 128)%nat) as [Hin|Hin].
    + rewrite Nat.add_0_l, Hk2. case_decide as H1.
      * rewrite decide_True by lia. f_equal. lia.
      * rewrite decide_False by lia. rewrite Hkb by lia. f_equal. lia.
    + by rewrite decide_False by lia.
Qed.
End File.

(** ** Allocation *)

(** The map with the bits [ss] set to [x]. *)
Definition set_bits (x : bool) (ss : list Z) (l : list bool) : list bool :=
  foldl (fun l s => <[Z.to_nat s := x]> l) l ss.

Lemma set_bits_length x ss l : length (set_bits x ss l) = length l.
Proof. revert l. induction ss as [|s ss IH]; intros l; [done|]. etransitivity; [apply IH|]. apply length_insert. Qed.

Lemma set_bits_lookup x ss l k : Forall (fun s => 0 <= s < Z.of_nat (length l)) ss ->
  set_bits x ss l !! k = if decide (Z.of_nat k ∈ ss) then Some x else l !! k.
Proof.
  revert l. induction ss as [|s ss IH]; intros l Hss; cbn [set_bits foldl].
  { rewrite decide_False; [done|]. intros ?%elem_of_nil. done. }
  apply Forall_cons in Hss as [Hs Hss]. fold (set_bits x ss (<[Z.to_nat s:=x]> l)).
  rewrite IH by (by rewrite length_insert). destruct (decide (Z.of_nat k ∈ ss)) as [Hk|Hk].
  { rewrite decide_True; [done|]. by apply elem_of_cons; right. }
  destruct (decide (Z.of_nat k = s)) as [<-|Hne].
  - rewrite decide_True by (by apply elem_of_cons; left). rewrite Nat2Z.id. apply list_lookup_insert_eq. lia.
  - rewrite decide_False by (rewrite elem_of_cons; tauto). apply list_lookup_insert_ne. lia.
Qed.

Lemma first_clear_count l : 0 < count_clear l -> exists n, first_clear l = Some n.
Proof.
  induction l as [|[] l IH]; cbn; [unfold count_clear; cbn; lia|..|eauto].
  intros H. destruct IH as [n ->]; [|by eexists]. revert H. unfold count_clear. rewrite filter_cons. by case_decide.
Qed.

Lemma Forall_impl_in {A} (Q R : A -> Prop) ss : Forall Q ss -> (forall s, s ∈ ss -> Q s -> R s) -> Forall R ss.
Proof. rewrite !Forall_forall. eauto. Qed.

Section Allocation.
  Context {B : Type} `{BA : BitAllocator B}.
  Implicit Types (b : B) (l : list bool).

Lemma allocate_loop_ok n (i : nat) t b l : ba_rep b l -> Z.of_nat n <= count_clear l -> (i + n <= length t)%nat ->
  exists b' ss, allocate_loop n (Z.of_nat i) t b = Ok (b', take i t ++ ss ++ drop (i + n) t) /\ length ss = n /\
    NoDup ss /\ Forall (fun s => 0 <= s /\ l !! Z.to_nat s = Some false) ss /\ ba_rep b' (set_bits true ss l).
Proof.
  revert i t b l. induction n as [|n IH]; intros i t b l Hb Hn Ht; cbn [allocate_loop].
  { exists b, []. rewrite Nat.add_0_r. cbn [app]. rewrite take_drop. split_and!; done || constructor. }
  destruct (first_clear_count l) as [k Hk]; [lia|]. destruct (ba_find_some b l k Hb Hk) as (b1 & -> & Hb1). cbn [rbind].
  destruct (first_clear_Some l k Hk) as [Hlk _]. rewrite arr_set_in by lia. cbn [rbind]. rewrite Nat2Z.id.
  replace (Z.of_nat i + 1) with (Z.of_nat (S i)) by lia.
  destruct (IH (S i) (<[i := Z.of_nat k]> t) b1 (<[k := true]> l) Hb1) as (b' & ss & -> & Hl & Hnd & Hcl & Hr).
  { rewrite count_clear_insert by done. lia. } { rewrite length_insert. lia. }
  assert (Z.of_nat k ∉ ss) as Hks.
  { intros Hin. rewrite Forall_forall in Hcl. destruct (Hcl _ Hin) as [_ Hc]. rewrite Nat2Z.id in Hc.
    rewrite list_lookup_insert_eq in Hc by (by eapply lookup_lt_Some). done. }
  exists b', (Z.of_nat k :: ss). split; [|split_and!].
  - do 2 f_equal. rewrite drop_insert_lt by lia. rewrite (take_S_r _ i (Z.of_nat k)) by (apply list_lookup_insert_eq; lia).
    rewrite take_insert_ge by lia. rewrite <-app_assoc. cbn [app]. do 4 f_equal. lia.
  - cbn. lia.
  - by constructor.
  - constructor; [by rewrite Nat2Z.id; split; [lia|]|]. eapply Forall_impl_in; [exact Hcl|].
    intros s Hs [? Hc]. split; [done|]. rewrite list_lookup_insert_ne in Hc; [done|]. intros ->. apply Hks. by rewrite Z2Nat.id by lia.
  - cbn. by rewrite Nat2Z.id.
Qed.

(** The table is full and more sectors are wanted. *)
Lemma allocate_loop_oob n t b l m : ba_rep b l -> Z.of_nat (m + S n) <= count_clear l -> (m <= length t)%nat ->
  allocate_loop (m + S n) (Z.of_nat (length t - m)) t b = Fault OutOfBounds.
Proof.
  revert t b l. induction m as [|m IH]; intros t b l Hb Hn Ht.
  - cbn [allocate_loop Nat.add]. destruct (first_clear_count l) as [k Hk]; [lia|].
    destruct (ba_find_some b l k Hb Hk) as (b1 & -> & _). cbn [rbind]. rewrite arr_set_oob by lia. done.
  - cbn [allocate_loop Nat.add]. destruct (first_clear_count l) as [k Hk]; [lia|].
    destruct (ba_find_some b l k Hb Hk) as (b1 & -> & Hb1). cbn [rbind]. rewrite arr_set_in by lia. cbn [rbind].
    destruct (first_clear_Some l k Hk) as [Hlk _].
    rewrite <-(IH (<[Z.to_nat (Z.of_nat (length t - S m)) := Z.of_nat k]> t) b1 (<[k := true]> l) Hb1); rewrite ?length_insert.
    + f_equal. lia.
    + rewrite count_clear_insert by done. lia.
    + lia.
Qed.

Lemma deallocate_loop_ok ss t (i : nat) b l : ba_rep b l -> take (length ss) (drop i t) = ss -> NoDup ss ->
  Forall (fun s => 0 <= s /\ l !! Z.to_nat s = Some true) ss ->
  exists b', deallocate_loop (length ss) (Z.of_nat i) t b = Ok b' /\ ba_rep b' (set_bits false ss l).
Proof.
  revert i b l. induction ss as [|s ss IH]; intros i b l Hb Ht Hnd Hss; cbn [length deallocate_loop]; [eauto|].
  apply Forall_cons in Hss as [[Hs Hls] Hss]. apply NoDup_cons in Hnd as [Hin Hnd].
  assert (t !! i = Some s) as Hti.
  { replace i with (i + 0)%nat by lia. rewrite <-lookup_drop, <-(lookup_take_lt _ (length (s :: ss))) by (cbn; lia). by rewrite Ht. }
  rewrite (arr_get_lookup t (Z.of_nat i) s) by (rewrite ?Nat2Z.id; done || lia). cbn [rbind].
  rewrite (ba_test_in b l s true Hb Hs Hls). cbn [rbind ASSERT].
  pose proof (lookup_lt_Some _ _ _ Hls). destruct (ba_clear_in b l s Hb) as (b1 & -> & Hb1); [lia|]. cbn [rbind].
  replace (Z.of_nat i + 1) with (Z.of_nat (S i)) by lia. apply IH; [done| |done|].
  - rewrite (drop_S t s i Hti) in Ht. cbn [length take] in Ht. by simplify_eq Ht.
  - eapply Forall_impl_in; [exact Hss|]. intros s' Hs' [? ?]. split; [done|].
    rewrite list_lookup_insert_ne; [done|]. intros He. apply Hin. by replace s with s' by lia.
Qed.

Lemma Allocate_full this b l fileSize : ba_rep b l -> count_clear l < divRoundUp fileSize SectorSize ->
  exists h, Allocate this b fileSize = Ok (h, b, false).
Proof.
  intros Hb Hc. unfold Allocate. rewrite (ba_num_clear_ok b l Hb). cbn [rbind]. rewrite bool_decide_eq_true_2 by done. eauto.
Qed.

Lemma Allocate_ok this b l fileSize : ba_rep b l -> Z.of_nat (length l) = NumSectors ->
  length (dataSectors this) = Z.to_nat NumDirect -> 0 <= fileSize <= MaxFileSize ->
  divRoundUp fileSize SectorSize <= count_clear l ->
  exists h b', Allocate this b fileSize = Ok (h, b', true) /\ header_ok h /\ numBytes h = fileSize /\
    Forall (fun s => l !! Z.to_nat s = Some false) (used h) /\ ba_rep b' (set_bits true (used h) l).
Proof.
  intros Hb Hl Ht Hf Hc. unfold Allocate. rewrite (ba_num_clear_ok b l Hb). cbn [rbind]. rewrite bool_decide_eq_false_2 by lia.
  pose proof (divRoundUp_bounds fileSize SectorSize ltac:(lia) ltac:(unfold SectorSize; lia)) as Hbd.
  assert (exists n, n = divRoundUp fileSize SectorSize) as [n Hn] by eauto. rewrite <-Hn in Hbd, Hc |- *.
  unfold MaxFileSize, NumDirect, SectorSize in *.
  destruct (allocate_loop_ok (Z.to_nat n) 0 (dataSectors this) b l Hb) as (b' & ss & Hal & Hls & Hnd & Hcl & Hr); [lia|lia|].
  change (Z.of_nat 0) with 0 in Hal. rewrite Hal. cbn [rbind Nat.add]. rewrite take_0, app_nil_l.
  set (h := mkHeader _ _ _). assert (used h = ss) as Hu by (unfold h, used; cbn; by rewrite take_app_length').
  exists h, b'. rewrite Hu. split; [done|]. split_and!; [|done| |done].
  - split; [by unfold MaxFileSize, NumDirect, SectorSize|done| |rewrite Hu|by rewrite Hu].
    + unfold h. cbn. rewrite length_app, length_drop. unfold NumDirect. lia.
    + eapply Forall_impl; [exact Hcl|]. intros s [? ?%lookup_lt_Some]. lia.
  - eapply Forall_impl; [exact Hcl|]. by intros s [].
Qed.

Lemma Allocate_too_big this b l fileSize : ba_rep b l -> length (dataSectors this) = Z.to_nat NumDirect ->
  MaxFileSize < fileSize -> divRoundUp fileSize SectorSize <= count_clear l -> Allocate this b fileSize = Fault OutOfBounds.
Proof.
  intros Hb Ht Hf Hc. unfold Allocate. rewrite (ba_num_clear_ok b l Hb). cbn [rbind]. rewrite bool_decide_eq_false_2 by lia.
  pose proof (divRoundUp_bounds fileSize SectorSize ltac:(unfold MaxFileSize, NumDirect, SectorSize in *; lia) ltac:(unfold SectorSize; lia)) as Hbd.
  unfold MaxFileSize, NumDirect, SectorSize in *.
  pose proof (allocate_loop_oob (Z.to_nat (divRoundUp fileSize 128) - 31) (dataSectors this) b l 30 Hb) as Ho. rewrite Ht in Ho.
  replace (30 + S (Z.to_nat (divRoundUp fileSize 128) - 31))%nat with (Z.to_nat (divRoundUp fileSize 128)) in Ho by lia.
  change (Z.of_nat _) with 0 in Ho at 2. rewrite Ho by lia. done.
Qed.

Lemma Deallocate_ok h b l : ba_rep b l -> header_ok h -> Forall (fun s => l !! Z.to_nat s = Some true) (used h) ->
  exists b', Deallocate h b = Ok b' /\ ba_rep b' (set_bits false (used h) l).
Proof.
  intros Hb HH Hm. unfold Deallocate. rewrite <-(used_length h HH).
  apply (deallocate_loop_ok (used h) (dataSectors h) 0 b l Hb); [|apply HH|].
  - rewrite drop_0, (used_length h HH). done.
  - apply Forall_and. split; [|done]. eapply Forall_impl; [apply HH|]. cbn. lia.
Qed.

Lemma set_bits_undo ss l : Forall (fun s => 0 <= s < Z.of_nat (length l)) ss -> Forall (fun s => l !! Z.to_nat s = Some false) ss ->
  set_bits false ss (set_bits true ss l) = l.
Proof.
  intros Hr Hc. apply list_eq. intros k. rewrite !set_bits_lookup by (by rewrite ?set_bits_length). case_decide as Hk; [|done].
  rewrite Forall_forall in Hc. pose proof (Hc _ Hk) as Hck. by rewrite Nat2Z.id in Hck.
Qed.
End Allocation.

(** * Properties *)

(** A file on the disk is the list of its bytes. On a disk of whole sectors,
    for a file whose header is well formed, [ReadAt] returns the bytes from the
    position on, at most as many as asked, and fewer only at the end of the
    file. [WriteAt] replaces exactly the bytes from the position on, as many as
    fit in the file, returns their number, and whatever fresh buffers contain
    keeps every other byte of the file and every sector that is not the
    file's; a later [ReadAt] reads them back. *)
Theorem file_requests_transfer_bytes garbage h d from n pos : header_ok h -> disk_ok d ->
  0 <= pos < 2 ^ 31 -> pos + n < 2 ^ 31 -> n <= Z.of_nat (length from) ->
  ReadAt h d n pos = Ok (take (Z.to_nat n) (drop (Z.to_nat pos) (file_bytes h d))) /\
  exists d' m, WriteAt garbage h d from n pos = Ok (d', m) /\ m = Z.max 0 (Z.min n (numBytes h - pos)) /\ disk_ok d' /\
    file_bytes h d' = splice (file_bytes h d) (Z.to_nat pos) (take (Z.to_nat m) from) /\
    (forall s, s ∉ used h -> sector d' s = sector d s) /\ ReadAt h d' m pos = Ok (take (Z.to_nat m) from).
Proof.
  intros HH Hd Hp Hn Hfrom. destruct Hp as [Hp Hp2]. split; [by apply ReadAt_ok|].
  destruct (WriteAt_ok h HH garbage d from n pos Hd Hp Hn Hfrom) as (d' & Hw & Hd' & Hf & Ho).
  exists d', (Z.max 0 (clamp h n pos)). unfold clamp in *.
  assert (Z.to_nat (Z.max 0 (Z.min n (numBytes h - pos))) = Z.to_nat (Z.min n (numBytes h - pos))) as Hmax by lia.
  rewrite Hmax. split_and!; try done. rewrite ReadAt_ok by (done || lia). rewrite Hmax, Hf. f_equal.
  pose proof (file_bytes_length h HH d Hd) as Hfl. unfold splice.
  set (bs := take (Z.to_nat (Z.min n (numBytes h - pos))) from).
  assert (length bs = Z.to_nat (Z.min n (numBytes h - pos))) as Hbs by (unfold bs; rewrite length_take; lia).
  destruct (decide (pos <= numBytes h)) as [Hpos|Hpos].
  - rewrite drop_app_length' by (rewrite length_take; lia). by rewrite take_app_length'.
  - assert (Z.to_nat (Z.min n (numBytes h - pos)) = 0%nat) as Hz by lia. unfold bs. by rewrite Hz, !take_0.
Qed.

Lemma file_requests_transfer_bytes_witness :
  let h := mkHeader 200 2 ([5; 6] ++ replicate 28 0) in
  ReadAt h ∅ 100 150 = Ok (replicate 50 0) /\
  exists d' m, WriteAt (fun _ => 7) h ∅ (replicate 100 1) 100 150 = Ok (d', m) /\ m = 50 /\
    ReadAt h d' m 150 = Ok (replicate 50 1).
Proof.
  intros h. assert (header_ok h) as HH.
  { split; [by vm_compute|reflexivity|reflexivity| |].
    - unfold h. cbn. repeat constructor; by vm_compute.
    - change (NoDup [5; 6]). repeat constructor; set_solver by lia. }
  assert (disk_ok ∅) as Hd by (intros n; unfold sector; by rewrite lookup_empty).
  destruct (file_requests_transfer_bytes (fun _ => 7) h ∅ (replicate 100 1) 100 150 HH Hd)
    as (Hr & d' & m & Hw & Hm & _ & _ & _ & Hr2); [lia|lia|done|].
  split; [rewrite Hr; by vm_compute|]. exists d', m. split; [exact Hw|]. split; [rewrite Hm; by vm_compute|].
  rewrite Hr2, Hm. by vm_compute.
Defined.

(** [Allocate] takes the sectors of a new file from the free map and
    [Deallocate] gives them back. With too few clear bits it answers [FALSE]
    and leaves the map alone; a file of at most [MaxFileSize] bytes gets a well
    formed header whose sectors are distinct and were clear, exactly those
    become marked, and [Deallocate] on the new header restores the map. A
    larger file makes the loop write past the end of [dataSectors]: no check
    of [MaxFileSize] precedes it. *)
Theorem Allocate_then_Deallocate {B} `{BA : BitAllocator B} (this : FileHeader) (b : B) l fileSize :
  ba_rep b l -> Z.of_nat (length l) = NumSectors -> length (dataSectors this) = Z.to_nat NumDirect -> 0 <= fileSize ->
  let n := divRoundUp fileSize SectorSize in
  (count_clear l < n -> exists h, Allocate this b fileSize = Ok (h, b, false)) /\
  (n <= count_clear l -> fileSize <= MaxFileSize ->
   exists h b', Allocate this b fileSize = Ok (h, b', true) /\ header_ok h /\ numBytes h = fileSize /\
     Forall (fun s => l !! Z.to_nat s = Some false) (used h) /\ ba_rep b' (set_bits true (used h) l) /\
     exists b'', Deallocate h b' = Ok b'' /\ ba_rep b'' l) /\
  (n <= count_clear l -> MaxFileSize < fileSize -> Allocate this b fileSize = Fault OutOfBounds).
Proof.
  intros Hb Hl Ht Hf n. split_and!.
  - by apply Allocate_full.
  - intros Hc Hm. destruct (Allocate_ok this b l fileSize Hb Hl Ht) as (h & b' & Ha & HH & Hnb & Hcl & Hr); [lia|done|].
    assert (Forall (fun s => 0 <= s < Z.of_nat (length l)) (used h)) as Hrg by (rewrite Hl; apply HH).
    exists h, b'. split_and!; try done. destruct (Deallocate_ok h b' _ Hr HH) as (b'' & Hd & Hr2).
    + eapply Forall_impl_in; [exact Hrg|]. intros s Hs [Hs0 _]. rewrite set_bits_lookup by done.
      rewrite decide_True; [done|by rewrite Z2Nat.id].
    + exists b''. split; [done|]. by rewrite set_bits_undo in Hr2.
  - intros Hc Hm. by apply (Allocate_too_big this b l).
Qed.

Lemma Allocate_then_Deallocate_witness :
  let fresh := mkHeader 0 0 (replicate 30 0) in
  let free := <[5%nat := false]> (<[9%nat := false]> (replicate 1024 true)) in
  let b := mkBitMap 1024 32 (<[0%nat := 2 ^ 32 - 1 - 2 ^ 5 - 2 ^ 9]> (replicate 32 (2 ^ 32 - 1))) in
  (exists h, Allocate fresh b 300 = Ok (h, b, false)) /\
  exists h b', Allocate fresh b 200 = Ok (h, b', true) /\ used h = [5; 9] /\
    exists b'', Deallocate h b' = Ok b'' /\ ba_rep b'' free.
Proof.
  intros fresh free b. assert (ba_rep b free) as Hb.
  { split; [|by vm_compute]. split; [by vm_compute|by vm_compute|by vm_compute|].
    unfold b. cbn [bmap]. apply Forall_insert; [apply Forall_replicate|]; by vm_compute. }
  assert (count_clear free = 2) as Hc by (by vm_compute).
  split.
  - destruct (Allocate_then_Deallocate fresh b free 300 Hb) as (H & _ & _); [by vm_compute|by vm_compute|lia|].
    apply H. rewrite Hc. by vm_compute.
  - destruct (Allocate_then_Deallocate fresh b free 200 Hb) as (_ & H & _); [by vm_compute|by vm_compute|lia|].
    destruct H as (h & b' & Ha & _ & _ & _ & _ & Hd); [rewrite Hc; by vm_compute|by vm_compute|].
    exists h, b'. split; [exact Ha|]. split; [|exact Hd].
    assert (Allocate fresh b 200 = Ok (mkHeader 200 2 ([5; 9] ++ replicate 28 0), mkBitMap 1024 32 (replicate 32 (2 ^ 32 - 1)), true)) as He
      by (by vm_compute).
    rewrite He in Ha. by injection Ha as <- _.
Defined.
