(* ===== verification/Directory.v ===== *)
(** * filesys/directory.cc: the directory of the file system

    A table of entries, each with a name of at most nine characters and the
    sector of the header of the file. It is kept in a file, as the bytes of the
    array of [DirectoryEntry] objects: one byte for [inUse], the [int], the ten
    characters of the name, and the padding that aligns the [int]. The abstract
    directory is the list of the entries in use. *)
From S2P Require Import Prelude CStrings BitMap Machine Files.

Definition FileNameMaxLen : Z := 9.

(** [padding] is the bytes of the object between and after its members. *)
Record DirectoryEntry := mkEntry { inUse : bool; sector : Z; name : list Z; padding : list Z }.
#[global] Instance DirectoryEntry_inhabited : Inhabited DirectoryEntry := populate (mkEntry false 0 [] []).

Record Directory := mkDirectory { tableSize : Z; table : list DirectoryEntry }.

(** [sizeof(DirectoryEntry)] *)
Definition entry_size : Z := 20.

Section Objects.
  Context `{HO : HostOrder}.

Definition entry_bytes (e : DirectoryEntry) : list Z :=
  [if inUse e then 1 else 0] ++ take 3 (padding e) ++ int_bytes (sector e) ++ name e ++ drop 3 (padding e).

Definition bytes_entry (l : list Z) : DirectoryEntry :=
  mkEntry (negb (bool_decide (l !! 0%nat = Some 0))) (bytes_int (take 4 (drop 4 l))) (take 10 (drop 8 l))
    (take 3 (drop 1 l) ++ take 2 (drop 18 l)).

Definition table_bytes (t : list DirectoryEntry) : list Z := t ≫= entry_bytes.
Fixpoint bytes_table (n : nat) (l : list Z) : list DirectoryEntry :=
  match n with
  | O => []
  | S n' => bytes_entry (take (Z.to_nat entry_size) l) :: bytes_table n' (drop (Z.to_nat entry_size) l)
  end.

(** ** The operations *)

(** [new DirectoryEntry[size]] is not initialised: [garbage] is its contents. *)
Definition Directory_new (garbage : nat -> Z) (size : Z) : Directory :=
  let fresh := bytes_table (Z.to_nat size) (garbage <$> seq 0 (Z.to_nat (size * entry_size))) in
  mkDirectory size ((fun e => mkEntry false (sector e) (name e) (padding e)) <$> fresh).

(** The bytes read replace the first bytes of the array. *)
Definition FetchFrom (dir : Directory) (h : FileHeader) (d : disk) : res Directory :=
  let* bs := ReadAt h d (tableSize dir * entry_size) 0 in
  let* l := overwrite (table_bytes (table dir)) 0 bs in
  Ok (mkDirectory (tableSize dir) (bytes_table (length (table dir)) l)).

Definition WriteBack (garbage : nat -> Z) (dir : Directory) (h : FileHeader) (d : disk) : res disk :=
  let* '(d, _) := WriteAt garbage h d (table_bytes (table dir)) (tableSize dir * entry_size) 0 in Ok d.

Fixpoint FindIndex_from (n : nat) (dir : Directory) (nm : list Z) (i : Z) : res Z :=
  match n with
  | O => Ok (-1)
  | S n =>
      let* e := arr_get (table dir) i in
      let* same := (if inUse e then strncmp_eq (Z.to_nat FileNameMaxLen) (name e) nm else Ok false) in
      if same : bool then Ok i else FindIndex_from n dir nm (i + 1)
  end.
Definition FindIndex (dir : Directory) (nm : list Z) : res Z := FindIndex_from (Z.to_nat (tableSize dir)) dir nm 0.

Definition Find (dir : Directory) (nm : list Z) : res Z :=
  let* i := FindIndex dir nm in
  if decide (i <> -1) then let* e := arr_get (table dir) i in Ok (sector e) else Ok (-1).

(** The loop of [Add]: the first entry that is not in use. *)
Fixpoint Add_from (n : nat) (dir : Directory) (nm : list Z) (newSector : Z) (i : Z) : res (Directory * bool) :=
  match n with
  | O => Ok (dir, false)
  | S n =>
      let* e := arr_get (table dir) i in
      if negb (inUse e) then
        let* copy := strncpy (Z.to_nat FileNameMaxLen) nm 0 in
        let* nm' := overwrite (name e) 0 copy in
        let* t := arr_set (table dir) i (mkEntry true newSector nm' (padding e)) in
        Ok (mkDirectory (tableSize dir) t, true)
      else Add_from n dir nm newSector (i + 1)
  end.

Definition Add (dir : Directory) (nm : list Z) (newSector : Z) : res (Directory * bool) :=
  let* i := FindIndex dir nm in
  if decide (i <> -1) then Ok (dir, false)
  else Add_from (Z.to_nat (tableSize dir)) dir nm newSector 0.

Definition Remove (dir : Directory) (nm : list Z) : res (Directory * bool) :=
  let* i := FindIndex dir nm in
  if decide (i = -1) then Ok (dir, false)
  else
    let* e := arr_get (table dir) i in
    let* t := arr_set (table dir) i (mkEntry false (sector e) (name e) (padding e)) in
    Ok (mkDirectory (tableSize dir) t, true).

(** [printf("%s\n", table[i].name)] for the entries in use; reading past the
    array for the NUL faults. *)
Fixpoint List_from (n : nat) (dir : Directory) (i : Z) : res (list (list Z)) :=
  match n with
  | O => Ok []
  | S n =>
      let* e := arr_get (table dir) i in
      if inUse e then
        if decide (0 ∈ name e) then let* r := List_from n dir (i + 1) in Ok (cstring (name e) :: r)
        else Fault OutOfBounds
      else List_from n dir (i + 1)
  end.
Definition List_ (dir : Directory) : res (list (list Z)) := List_from (Z.to_nat (tableSize dir)) dir 0.

(** * Specification *)

Record entry_ok (e : DirectoryEntry) : Prop := {
  eo_sector : in_i32 (sector e);
  eo_name : length (name e) = 10%nat;
  eo_padding : length (padding e) = 5%nat
}.

Record dir_ok (dir : Directory) : Prop := {
  do_size : Z.of_nat (length (table dir)) = tableSize dir;
  do_entries : Forall entry_ok (table dir)
}.

(** What tells files apart: the first nine characters of the name. *)
Definition key (nm : list Z) : list Z := prefix_string (Z.to_nat FileNameMaxLen) nm.

Definition live (t : list DirectoryEntry) : list DirectoryEntry := filter (fun e => inUse e = true) t.
Definition keys (t : list DirectoryEntry) : list (list Z) := key ∘ name <$> live t.

(** * Lemmas *)

(** ** Entries and bytes *)

Lemma entry_bytes_length e : entry_ok e -> length (entry_bytes e) = 20%nat.
Proof.
  intros [_ Hn Hp]. unfold entry_bytes. rewrite !length_app, length_take, length_drop, int_bytes_length, Hn, Hp. done.
Qed.

Lemma bytes_entry_ok l : length l = 20%nat -> entry_ok (bytes_entry l).
Proof.
  intros Hl. unfold bytes_entry. split; cbn [sector name padding].
  - apply bytes_int_range.
  - rewrite length_take, length_drop. lia.
  - rewrite length_app, !length_take, !length_drop. lia.
Qed.

Lemma bytes_entry_bytes e : entry_ok e -> bytes_entry (entry_bytes e) = e.
Proof.
  destruct e as [u s n p]. intros [Hs Hn Hp]. cbn [sector name padding] in *.
  destruct p as [|p0 [|p1 [|p2 [|p3 [|p4 [|? ?]]]]]]; try discriminate Hp.
  pose proof (bytes_int_bytes s Hs) as Hi. pose proof (int_bytes_length s) as Hl.
  unfold bytes_entry, entry_bytes. cbn [inUse sector name padding].
  destruct (int_bytes s) as [|b0 [|b1 [|b2 [|b3 [|? ?]]]]]; try discriminate Hl.
  do 11 (destruct n as [|? n]; try discriminate Hn).
  cbn [take drop app]. rewrite Hi. by destruct u.
Qed.

Lemma table_bytes_length t : Forall entry_ok t -> length (table_bytes t) = (length t * 20)%nat.
Proof.
  induction 1 as [|e t He _ IH]; [done|]. change (table_bytes (e :: t)) with (entry_bytes e ++ table_bytes t).
  rewrite length_app, IH, entry_bytes_length by done. cbn. lia.
Qed.

Lemma bytes_table_length n l : length (bytes_table n l) = n.
Proof. revert l. induction n as [|n IH]; intros l; [done|]. cbn. by rewrite IH. Qed.

Lemma bytes_table_ok n l : (n * 20 <= length l)%nat -> Forall entry_ok (bytes_table n l).
Proof.
  revert l. induction n as [|n IH]; intros l Hl; cbn [bytes_table]; constructor.
  - apply bytes_entry_ok. rewrite length_take. change (Z.to_nat entry_size) with 20%nat. lia.
  - apply IH. rewrite length_drop. change (Z.to_nat entry_size) with 20%nat. lia.
Qed.

Lemma bytes_table_bytes t : Forall entry_ok t -> bytes_table (length t) (table_bytes t) = t.
Proof.
  induction 1 as [|e t He _ IH]; [done|]. change (table_bytes (e :: t)) with (entry_bytes e ++ table_bytes t).
  cbn [length bytes_table]. change (Z.to_nat entry_size) with 20%nat.
  rewrite take_app_length', drop_app_length' by (by rewrite entry_bytes_length). by rewrite bytes_entry_bytes, IH.
Qed.
End Objects.

(** ** Searching the table *)

Definition uses (k : list Z) (e : DirectoryEntry) : Prop := inUse e = true /\ key (name e) = k.
Definition unused (e : DirectoryEntry) : Prop := inUse e = false.
#[global] Instance uses_dec k e : Decision (uses k e).
Proof. unfold uses. apply _. Defined.
#[global] Instance unused_dec e : Decision (unused e).
Proof. unfold unused. apply _. Defined.

Section Search.
  Context (dir : Directory) (HD : dir_ok dir) (nm : list Z) (Hnm : readable (Z.to_nat FileNameMaxLen) nm).

Lemma entry_at pre e suf : table dir = pre ++ e :: suf ->
  arr_get (table dir) (Z.of_nat (length pre)) = Ok e /\ entry_ok e /\ readable (Z.to_nat FileNameMaxLen) (name e).
Proof.
  intros Ht. assert (entry_ok e) as He.
  { pose proof (do_entries dir HD) as H. rewrite Ht, Forall_app, Forall_cons in H. tauto. }
  split; [|split; [done|right; rewrite (eo_name e He); by vm_compute; lia]].
  apply arr_get_lookup; [lia|]. rewrite Ht, Nat2Z.id. by apply list_lookup_middle.
Qed.

Lemma same_name_ok e : readable (Z.to_nat FileNameMaxLen) (name e) ->
  (if inUse e then strncmp_eq (Z.to_nat FileNameMaxLen) (name e) nm else Ok false) = Ok (bool_decide (uses (key nm) e)).
Proof.
  intros Hr. destruct (inUse e) eqn:Hu.
  - rewrite strncmp_eq_spec by done. f_equal. apply bool_decide_ext. unfold uses, key. tauto.
  - f_equal. symmetry. apply bool_decide_eq_false. unfold uses. rewrite Hu. by intros [].
Qed.

Lemma FindIndex_from_ok pre suf : table dir = pre ++ suf ->
  FindIndex_from (length suf) dir nm (Z.of_nat (length pre)) =
    Ok (match list_find (uses (key nm)) suf with Some (i, _) => Z.of_nat (length pre + i) | None => -1 end).
Proof.
  revert pre. induction suf as [|e suf IH]; intros pre Ht; [done|]. cbn [length FindIndex_from list_find].
  destruct (entry_at pre e suf Ht) as (-> & He & Hr). cbn [rbind].
  replace (if inUse e then strncmp_eq (Z.to_nat FileNameMaxLen) (name e) nm else Ok false) with
    (Ok (bool_decide (uses (key nm) e))) by (by rewrite same_name_ok).
  cbn [rbind]. case_bool_decide as Hu.
  - rewrite decide_True by done. do 2 f_equal. lia.
  - rewrite decide_False by done. replace (Z.of_nat (length pre) + 1) with (Z.of_nat (length (pre ++ [e]))) by (rewrite length_app; cbn; lia).
    rewrite IH by (by rewrite Ht, <-app_assoc). destruct (list_find _ suf) as [[i ?]|]; cbn; [|done].
    rewrite length_app. cbn. do 2 f_equal. lia.
Qed.

Lemma FindIndex_ok : FindIndex dir nm =
  Ok (match list_find (uses (key nm)) (table dir) with Some (i, _) => Z.of_nat i | None => -1 end).
Proof.
  unfold FindIndex. pose proof (FindIndex_from_ok [] (table dir) eq_refl) as H. cbn [length] in H.
  rewrite <-(do_size dir HD), Nat2Z.id. exact H.
Qed.

Lemma Find_ok : Find dir nm =
  Ok (match list_find (uses (key nm)) (table dir) with Some (_, e) => sector e | None => -1 end).
Proof.
  unfold Find. rewrite FindIndex_ok. cbn [rbind]. destruct (list_find _ _) as [[i e]|] eqn:Hf; [|by rewrite decide_False by tauto].
  apply list_find_Some in Hf as (Hi & _ & _). rewrite decide_True by lia.
  rewrite (arr_get_lookup _ _ e) by (rewrite ?Nat2Z.id; done || lia). done.
Qed.

Lemma Add_from_ok newSector pre suf : table dir = pre ++ suf ->
  match list_find unused suf with
  | None => Add_from (length suf) dir nm newSector (Z.of_nat (length pre)) = Ok (dir, false)
  | Some (i, e) => exists nm', length nm' = 10%nat /\ key nm' = key nm /\ nm' !! 9%nat = name e !! 9%nat /\
      Add_from (length suf) dir nm newSector (Z.of_nat (length pre)) =
        Ok (mkDirectory (tableSize dir) (<[(length pre + i)%nat := mkEntry true newSector nm' (padding e)]> (table dir)), true)
  end.
Proof.
  revert pre. induction suf as [|e suf IH]; intros pre Ht; [done|]. cbn [length Add_from list_find].
  destruct (entry_at pre e suf Ht) as (-> & He & Hr). cbn [rbind]. destruct (decide (unused e)) as [Hu|Hu]; unfold unused in Hu.
  2: { apply not_false_is_true in Hu. rewrite Hu. cbn [negb].
    replace (Z.of_nat (length pre) + 1) with (Z.of_nat (length (pre ++ [e]))) by (rewrite length_app; cbn; lia).
    specialize (IH (pre ++ [e])). rewrite <-app_assoc in IH. specialize (IH Ht).
    destruct (list_find _ suf) as [[i ?]|]; cbn [fmap option_fmap option_map prod_map fst snd]; [|done].
    destruct IH as (nm' & ? & ? & ? & ->). exists nm'. rewrite length_app. cbn [length id].
    by replace (length pre + 1 + i)%nat with (length pre + S i)%nat by lia. }
  rewrite Hu. cbn [negb]. destruct (strncpy_prefix _ _ Hnm) as (r & -> & Hl & Hk). cbn [rbind].
  change (Z.to_nat FileNameMaxLen) with 9%nat in *. destruct He as [_ Hn _].
  unfold overwrite. rewrite decide_True by lia. cbn [rbind]. rewrite take_0, Hl. cbn [app Z.to_nat Nat.add].
  rewrite arr_set_in by (rewrite Ht, length_app; cbn; lia). cbn [rbind]. rewrite Nat2Z.id, Nat.add_0_r.
  exists (r ++ drop 9 (name e)). split; [rewrite length_app, length_drop; lia|].
  split; [|split; [by rewrite lookup_app_r, lookup_drop, Hl by lia|done]]. unfold key, prefix_string. change (Z.to_nat FileNameMaxLen) with 9%nat. by rewrite take_app_length'.
Qed.

Lemma Add_ok newSector : list_find (uses (key nm)) (table dir) = None ->
  match list_find unused (table dir) with
  | None => Add dir nm newSector = Ok (dir, false)
  | Some (i, e) => exists nm', length nm' = 10%nat /\ key nm' = key nm /\ nm' !! 9%nat = name e !! 9%nat /\
      Add dir nm newSector =
        Ok (mkDirectory (tableSize dir) (<[i := mkEntry true newSector nm' (padding e)]> (table dir)), true)
  end.
Proof.
  intros Hf. unfold Add. rewrite FindIndex_ok, Hf. cbn [rbind]. rewrite decide_False by tauto.
  pose proof (Add_from_ok newSector [] (table dir) eq_refl) as H. cbn [length Nat.add] in H.
  replace (Z.to_nat (tableSize dir)) with (length (table dir)) by (pose proof (do_size dir HD); lia). exact H.
Qed.

Lemma Add_known newSector i e : list_find (uses (key nm)) (table dir) = Some (i, e) -> Add dir nm newSector = Ok (dir, false).
Proof. intros Hf. unfold Add. rewrite FindIndex_ok, Hf. cbn [rbind]. by rewrite decide_True by lia. Qed.

Lemma Remove_entry_ok : Remove dir nm = Ok (match list_find (uses (key nm)) (table dir) with
  | Some (i, e) => (mkDirectory (tableSize dir) (<[i := mkEntry false (sector e) (name e) (padding e)]> (table dir)), true)
  | None => (dir, false)
  end).
Proof.
  unfold Remove. rewrite FindIndex_ok. cbn [rbind]. destruct (list_find _ _) as [[i e]|] eqn:Hf; [|done].
  apply list_find_Some in Hf as (Hi & _ & _). rewrite decide_False by lia.
  rewrite (arr_get_lookup _ _ e) by (rewrite ?Nat2Z.id; done || lia). cbn [rbind].
  pose proof (lookup_lt_Some _ _ _ Hi). rewrite arr_set_in by lia. cbn [rbind]. by rewrite Nat2Z.id.
Qed.
End Search.

(** ** The entries in use *)

Lemma live_elem t e : e ∈ live t <-> inUse e = true /\ e ∈ t.
Proof. unfold live. by rewrite list_elem_of_filter. Qed.

Lemma live_app t1 t2 : live (t1 ++ t2) = live t1 ++ live t2.
Proof. apply filter_app. Qed.

Lemma live_cons e t : live (e :: t) = (if inUse e then [e] else []) ++ live t.
Proof. unfold live. rewrite filter_cons. case_decide as He; [by rewrite He|by destruct (inUse e)]. Qed.

Lemma live_put t i e e' : t !! i = Some e -> inUse e = false -> inUse e' = true -> live (<[i := e']> t) ≡ₚ e' :: live t.
Proof.
  intros Hi He He'. pose proof (lookup_lt_Some _ _ _ Hi). rewrite insert_take_drop by done.
  rewrite <-(take_drop_middle t i e Hi) at 3. rewrite !live_app, !live_cons, He, He'. cbn [app]. symmetry. apply Permutation_middle.
Qed.

Lemma live_drop t i e e' : t !! i = Some e -> inUse e = true -> inUse e' = false -> live t ≡ₚ e :: live (<[i := e']> t).
Proof.
  intros Hi He He'. pose proof (lookup_lt_Some _ _ _ Hi). rewrite insert_take_drop by done.
  rewrite <-(take_drop_middle t i e Hi) at 1. rewrite !live_app, !live_cons, He, He'. cbn [app]. symmetry. apply Permutation_middle.
Qed.

Lemma live_length t : (length (live t) <= length t)%nat.
Proof. apply length_filter. Qed.

Lemma unused_None t : list_find unused t = None <-> length (live t) = length t.
Proof.
  rewrite list_find_None. split.
  - induction 1 as [|e t He _ IH]; [done|]. rewrite live_cons. unfold unused in He. destruct (inUse e); [cbn; by rewrite IH|done].
  - induction t as [|e t IH]; [constructor|]. rewrite live_cons. pose proof (live_length t). unfold unused.
    destruct (inUse e) eqn:He; cbn [app length]; intros Hl; [constructor; [congruence|apply IH; lia]|lia].
Qed.

Lemma uses_None t k : list_find (uses k) t = None <-> k ∉ keys t.
Proof.
  rewrite list_find_None, Forall_forall. unfold keys. split.
  - intros H (e & -> & [Hu He]%live_elem)%list_elem_of_fmap. by apply (H e He).
  - intros H e He [Hu Hk]. apply H, list_elem_of_fmap. exists e. split; [done|]. by apply live_elem.
Qed.

(** ** The map a table is *)

Section View.
  Context {A : Type} (f : DirectoryEntry -> A).

Definition view (t : list DirectoryEntry) : gmap (list Z) A := list_to_map ((fun e => (key (name e), f e)) <$> live t).

Lemma view_fst l : ((fun e => (key (name e), f e)) <$> l).*1 = key ∘ name <$> l.
Proof. by rewrite <-list_fmap_compose. Qed.

Lemma view_perm t l : NoDup (keys t) -> live t ≡ₚ l -> view t = list_to_map ((fun e => (key (name e), f e)) <$> l).
Proof. intros Hnd Hp. apply list_to_map_proper; [by rewrite view_fst|by rewrite Hp]. Qed.

Lemma view_put t i e e' : NoDup (keys t) -> t !! i = Some e -> unused e -> inUse e' = true -> key (name e') ∉ keys t ->
  NoDup (keys (<[i := e']> t)) /\ view (<[i := e']> t) = <[key (name e') := f e']> (view t).
Proof.
  intros Hnd Hi He He' Hk. pose proof (live_put t i e e' Hi He He') as Hp.
  assert (NoDup (keys (<[i := e']> t))) as Hnd' by (unfold keys; rewrite Hp; by constructor).
  split; [done|]. by rewrite (view_perm _ _ Hnd' Hp).
Qed.

Lemma view_drop t i e e' : NoDup (keys t) -> t !! i = Some e -> inUse e = true -> inUse e' = false ->
  NoDup (keys (<[i := e']> t)) /\ view (<[i := e']> t) = delete (key (name e)) (view t).
Proof.
  intros Hnd Hi He He'. pose proof (live_drop t i e e' Hi He He') as Hp. pose proof Hnd as Hnd'. unfold keys in Hnd'.
  rewrite Hp in Hnd'. apply NoDup_cons in Hnd' as [Hk Hnd']. split; [done|]. rewrite (view_perm _ _ Hnd Hp). cbn.
  rewrite delete_insert_id; [done|]. apply not_elem_of_list_to_map. rewrite view_fst. exact Hk.
Qed.

Lemma view_lookup t k : NoDup (keys t) -> view t !! k = match list_find (uses k) t with Some (_, e) => Some (f e) | None => None end.
Proof.
  intros Hnd. destruct (list_find _ t) as [[i e]|] eqn:Hf.
  - apply list_find_Some in Hf as (Hi & [Hu <-] & _). apply elem_of_list_to_map_1; [by rewrite view_fst|].
    apply (list_elem_of_fmap_2 (fun e => (key (name e), f e))). apply live_elem. split; [done|]. by eapply list_elem_of_lookup_2.
  - apply uses_None in Hf. apply not_elem_of_list_to_map. by rewrite view_fst.
Qed.

Lemma view_size t : NoDup (keys t) -> size (view t) = length (live t).
Proof.
  intros Hnd. unfold view. rewrite <-size_dom, dom_list_to_map_L, size_list_to_set by (by rewrite view_fst).
  by rewrite view_fst, length_fmap.
Qed.
End View.

Lemma view_ext {A} (f g : DirectoryEntry -> A) t : (forall e, e ∈ live t -> f e = g e) -> view f t = view g t.
Proof.
  intros H. unfold view. f_equal. induction (live t) as [|e l IH]; [done|]. cbn. rewrite (H e) by set_solver.
  f_equal. apply IH. intros e' He'. apply H. set_solver.
Qed.

Lemma Find_view dir nm : dir_ok dir -> NoDup (keys (table dir)) -> readable (Z.to_nat FileNameMaxLen) nm ->
  Find dir nm = Ok (default (-1) (view sector (table dir) !! key nm)).
Proof.
  intros HD Hnd Hnm. rewrite (Find_ok dir HD nm Hnm), (view_lookup sector (table dir) (key nm) Hnd).
  by destruct (list_find _ _) as [[? ?]|].
Qed.

Lemma List_from_overrun n dir i j e : table dir !! j = Some e -> inUse e = true -> 0 ∉ name e ->
  0 <= i <= Z.of_nat j /\ Z.of_nat j < i + Z.of_nat n /\ i + Z.of_nat n <= Z.of_nat (length (table dir)) ->
  List_from n dir i = Fault OutOfBounds.
Proof.
  intros Hj Hu H0. revert i. induction n as [|n IH]; intros i Hi; [lia|]. cbn [List_from].
  destruct (decide (i = Z.of_nat j)) as [->|Hne].
  - rewrite (arr_get_lookup _ _ e) by (rewrite ?Nat2Z.id; done || lia). cbn [rbind]. by rewrite Hu, decide_False.
  - destruct (arr_get_in (table dir) i) as (e' & -> & _); [lia|]. cbn [rbind]. rewrite (IH (i + 1)) by lia.
    destruct (inUse e'); [|done]. by case_decide.
Qed.

Lemma Add_keeps dir i e : dir_ok dir -> entry_ok e -> dir_ok (mkDirectory (tableSize dir) (<[i := e]> (table dir))).
Proof.
  intros [Hs He] Hok. split; cbn [tableSize table]; [by rewrite length_insert|by apply Forall_insert].
Qed.

(** * Properties *)

(** C29: the directory is a map from names to sectors. Names count up to their
    ninth character. [Find] answers the sector under a name or -1; [Add] answers
    [TRUE] exactly when the name is new and an entry is free, and then adds
    just that pair; [Remove] answers [TRUE] exactly when the name is there and
    removes just that pair. The names in the table stay distinct. *)
Theorem directory_is_a_map dir nm s : dir_ok dir -> NoDup (keys (table dir)) ->
  readable (Z.to_nat FileNameMaxLen) nm -> in_i32 s ->
  let m := view sector (table dir) in
  Find dir nm = Ok (default (-1) (m !! key nm)) /\
  (exists dir' b, Add dir nm s = Ok (dir', b) /\ dir_ok dir' /\ NoDup (keys (table dir')) /\ tableSize dir' = tableSize dir /\
     b = bool_decide (m !! key nm = None /\ Z.of_nat (size m) < tableSize dir) /\
     view sector (table dir') = if b then <[key nm := s]> m else m) /\
  (exists dir' b, Remove dir nm = Ok (dir', b) /\ dir_ok dir' /\ NoDup (keys (table dir')) /\ tableSize dir' = tableSize dir /\
     b = bool_decide (is_Some (m !! key nm)) /\ view sector (table dir') = delete (key nm) m).
Proof.
  intros HD Hnd Hnm Hs m. pose proof (view_lookup sector (table dir) (key nm) Hnd) as Hl. fold m in Hl.
  pose proof (view_size sector (table dir) Hnd) as Hsz. fold m in Hsz. pose proof (do_size dir HD) as Hds.
  split; [|split].
  - by apply Find_view.
  - destruct (list_find (uses (key nm)) (table dir)) as [[i e]|] eqn:Hf.
    { exists dir, false. rewrite (Add_known dir HD nm Hnm s i e Hf). split_and!; try done. symmetry.
      apply bool_decide_eq_false. rewrite Hl. by intros []. }
    pose proof (Add_ok dir HD nm Hnm s Hf) as Ha. destruct (list_find unused (table dir)) as [[i e]|] eqn:Hu.
    + destruct Ha as (nm' & Hl' & Hk' & _ & ->). apply list_find_Some in Hu as (Hi & Hun & _).
      pose proof (proj1 (Forall_lookup _ _) (do_entries dir HD) i e Hi) as He.
      destruct (view_put sector (table dir) i e (mkEntry true s nm' (padding e)) Hnd Hi Hun eq_refl) as [Hnd' Hv'].
      { cbn [name]. rewrite Hk'. by apply uses_None. }
      do 2 eexists. split; [reflexivity|]. split; [apply Add_keeps; [done|by split; try apply He]|].
      rewrite bool_decide_eq_true_2. { split_and!; try done. rewrite <-Hk'. exact Hv'. }
      split; [done|]. rewrite Hsz, <-Hds. apply inj_lt. pose proof (live_length (table dir)).
      destruct (decide (length (live (table dir)) = length (table dir))) as [He'|]; [|lia].
      apply unused_None in He'. rewrite list_find_None, Forall_forall in He'. by destruct (He' e (list_elem_of_lookup_2 _ _ _ Hi)).
    + exists dir, false. rewrite Ha. split_and!; try done. symmetry. apply bool_decide_eq_false. intros [_ Hlt].
      apply unused_None in Hu. lia.
  - rewrite (Remove_entry_ok dir HD nm Hnm). destruct (list_find _ _) as [[i e]|] eqn:Hf.
    + apply list_find_Some in Hf as (Hi & [Hu Hk] & _). pose proof (proj1 (Forall_lookup _ _) (do_entries dir HD) i e Hi) as He.
      destruct (view_drop sector (table dir) i e (mkEntry false (sector e) (name e) (padding e)) Hnd Hi Hu eq_refl) as [Hnd' Hv'].
      do 2 eexists. split; [reflexivity|]. split; [apply Add_keeps; [done|by split; try apply He]|]. split; [done|]. split; [done|].
      split; [|by rewrite <-Hk]. rewrite Hl. symmetry. apply bool_decide_eq_true. eauto.
    + exists dir, false. rewrite Hl. split_and!; try done. by rewrite delete_id.
Qed.

(** a name of nine characters is stored without its NUL. [Add] copies nine
    characters and never writes the tenth byte, which is what the allocation
    contained: the name is found again, but [List] reads past the array when
    that byte is not 0. *)
Theorem List_overruns_long_names dir nm s i e : dir_ok dir -> NoDup (keys (table dir)) -> (9 <= length nm)%nat -> 0 ∉ take 9 nm ->
  list_find (uses (key nm)) (table dir) = None -> list_find unused (table dir) = Some (i, e) ->
  name e !! 9%nat <> Some 0 -> in_i32 s ->
  exists dir', Add dir nm s = Ok (dir', true) /\ Find dir' nm = Ok s /\ List_ dir' = Fault OutOfBounds.
Proof.
  intros HD Hnd Hlen H0 Hf Hu He9 Hs. assert (readable (Z.to_nat FileNameMaxLen) nm) as Hnm by (by right).
  pose proof (Add_ok dir HD nm Hnm s Hf) as Ha. rewrite Hu in Ha. destruct Ha as (nm' & Hl' & Hk' & H9 & ->).
  apply list_find_Some in Hu as (Hi & Hun & _). pose proof (proj1 (Forall_lookup _ _) (do_entries dir HD) i e Hi) as He.
  pose proof (lookup_lt_Some _ _ _ Hi) as Hlt. eexists. split; [reflexivity|]. set (e' := mkEntry true s nm' (padding e)).
  assert (dir_ok (mkDirectory (tableSize dir) (<[i := e']> (table dir)))) as HD'
    by (apply Add_keeps; [done|by split; try apply He]).
  assert (0 ∉ nm') as Hn0.
  { unfold key, prefix_string in Hk'. change (Z.to_nat FileNameMaxLen) with 9%nat in Hk'.
    rewrite (cstring_id (take 9 nm)) in Hk' by done. rewrite <-(take_drop 9 nm'), not_elem_of_app. split.
    - apply cstring_full. rewrite Hk', !length_take. lia.
    - intros [[|j] Hj]%list_elem_of_lookup_1; rewrite lookup_drop in Hj; [by rewrite Nat.add_0_r, H9 in Hj|].
      apply lookup_lt_Some in Hj. lia. }
  split.
  - destruct (view_put sector (table dir) i e e' Hnd Hi Hun eq_refl) as [Hnd' Hv']; [by cbn; rewrite Hk'; apply uses_None|].
    rewrite (Find_view _ nm HD' Hnd' Hnm). cbn [table]. rewrite Hv'. cbn [name e']. by rewrite Hk', lookup_insert_eq.
  - unfold List_. cbn [tableSize]. apply (List_from_overrun _ _ _ i e'); cbn [table]; [|done|done|].
    + by apply list_lookup_insert_eq.
    + pose proof (do_size dir HD). rewrite length_insert. lia.
Qed.

(** ** Concrete instances *)

(** The file "ab" at sector 5, and a free entry with old contents. *)
Definition demo_dir : Directory :=
  mkDirectory 2 [mkEntry true 5 ([97; 98] ++ replicate 8 0) (replicate 5 0); mkEntry false 0 (replicate 10 7) (replicate 5 0)].

Lemma demo_dir_ok : dir_ok demo_dir /\ NoDup (keys (table demo_dir)).
Proof.
  split; [|by vm_compute; repeat constructor; set_solver]. split; [done|].
  repeat constructor; cbn [sector]; unfold in_i32; lia.
Qed.

Lemma directory_is_a_map_witness :
  Find demo_dir [97; 98; 0] = Ok 5 /\
  (exists dir', Add demo_dir [99; 0] 8 = Ok (dir', true) /\ view sector (table dir') !! [99] = Some 8) /\
  (exists dir', Remove demo_dir [97; 98; 0] = Ok (dir', true) /\ view sector (table dir') = ∅).
Proof.
  destruct demo_dir_ok as [HD Hnd].
  destruct (directory_is_a_map demo_dir [97; 98; 0] 8 HD Hnd) as (Hf & _ & dr & br & Hr & _ & _ & _ & Hbr & Hvr);
    [by left; repeat constructor|by unfold in_i32|].
  destruct (directory_is_a_map demo_dir [99; 0] 8 HD Hnd) as (_ & (da & ba & Ha & _ & _ & _ & Hba & Hva) & _);
    [by left; repeat constructor|by unfold in_i32|].
  split; [rewrite Hf; by vm_compute|]. split.
  - exists da. rewrite Ha, Hva, Hba. split; [do 2 f_equal; by vm_compute|by vm_compute].
  - exists dr. rewrite Hr, Hvr, Hbr. split; [do 2 f_equal; by vm_compute|by vm_compute].
Defined.

Lemma List_overruns_long_names_witness :
  exists dir', Add demo_dir [97; 98; 99; 100; 101; 102; 103; 104; 105; 0] 8 = Ok (dir', true) /\
    Find dir' [97; 98; 99; 100; 101; 102; 103; 104; 105; 0] = Ok 8 /\ List_ dir' = Fault OutOfBounds.
Proof.
  destruct demo_dir_ok as [HD Hnd].
  apply (List_overruns_long_names demo_dir [97; 98; 99; 100; 101; 102; 103; 104; 105; 0] 8 1
           (mkEntry false 0 (replicate 10 7) (replicate 5 0)) HD Hnd);
    [cbn; lia|by vm_compute; set_solver|by vm_compute|by vm_compute|by vm_compute|by unfold in_i32].
Defined.
