(* ===== verification/FileSys.v ===== *)
(** * filesys/filesys.cc: the file system on the disk

    [FileSystem] on top of the disk: a bitmap of the free sectors and a
    directory, both kept in files whose headers are in sectors 0 and 1, and a
    header sector per file. Each call reads bitmap and directory from the disk,
    changes them in memory and writes them back only when all of it worked. The
    objects go to the disk as their bytes: [FetchFrom] and [WriteBack] of
    [FileHeader] and [BitMap] are here, those of [Directory] in Directory. The
    abstract file system is a map from names to the bytes of the files. *)
From S2P Require Import Prelude CStrings BitMap Machine Files Directory.

Definition FreeMapSector : Z := 0.
Definition DirectorySector : Z := 1.
Definition FreeMapFileSize : Z := Z.quot NumSectors BitsInByte.
Definition NumDirEntries : Z := 10.
Definition DirectoryFileSize : Z := entry_size * NumDirEntries.

Section FileSystem.
  Context `{HO : HostOrder}.

(** ** Headers and bitmaps on the disk *)

(** A header fills a sector: [numBytes], [numSectors] and the table. *)
Definition header_bytes (h : FileHeader) : list Z := words_bytes (u32 <$> numBytes h :: numSectors h :: dataSectors h).
Definition bytes_header (l : list Z) : FileHeader :=
  match i32 <$> bytes_words (Z.to_nat (2 + NumDirect)) l with
  | nb :: ns :: t => mkHeader nb ns t
  | _ => mkHeader 0 0 []
  end.

Definition Header_FetchFrom (d : disk) (s : Z) : res FileHeader := let* bs := ReadSector d s in Ok (bytes_header bs).
Definition Header_WriteBack (h : FileHeader) (d : disk) (s : Z) : res disk := WriteSector d s (header_bytes h).

(** [new FileHeader] is not initialised. *)
Definition Header_new (garbage : nat -> Z) : FileHeader :=
  bytes_header (garbage <$> seq 0 (Z.to_nat SectorSize)).

Definition BitMap_FetchFrom (b : BitMap) (f : OpenFile) (d : disk) : res BitMap :=
  let* bs := ReadAt (hdr f) d (numWords b * 4) 0 in
  let* l := overwrite (words_bytes (bmap b)) 0 bs in
  Ok (with_map b (bytes_words (length (bmap b)) l)).

Definition BitMap_WriteBack (garbage : nat -> Z) (b : BitMap) (f : OpenFile) (d : disk) : res disk :=
  let* '(d, _) := WriteAt garbage (hdr f) d (words_bytes (bmap b)) (numWords b * 4) 0 in Ok d.

(** [OpenFile::OpenFile(int sector)] *)
Definition OpenFile_new (d : disk) (s : Z) : res OpenFile :=
  let* h := Header_FetchFrom d s in Ok (mkOpenFile h 0).

(** ** [class FileSystem] *)

Record FileSystem := mkFileSystem { freeMapFile : OpenFile; directoryFile : OpenFile }.

(** The constructor. [garbage k] is what the [k]-th allocation contained. *)
Definition FileSystem_new (garbage : nat -> nat -> Z) (format : bool) (d : disk) : res (disk * FileSystem) :=
  if format then
    let* freeMap := BitMap_new NumSectors (garbage 0%nat) in
    let directory := Directory_new (garbage 1%nat) NumDirEntries in
    let mapHdr := Header_new (garbage 2%nat) in
    let dirHdr := Header_new (garbage 3%nat) in
    let* freeMap := Mark freeMap FreeMapSector in
    let* freeMap := Mark freeMap DirectorySector in
    let* '(mapHdr, freeMap, ok) := Allocate mapHdr freeMap FreeMapFileSize in
    let* _ := ASSERT ok in
    let* '(dirHdr, freeMap, ok) := Allocate dirHdr freeMap DirectoryFileSize in
    let* _ := ASSERT ok in
    let* d := Header_WriteBack mapHdr d FreeMapSector in
    let* d := Header_WriteBack dirHdr d DirectorySector in
    let* freeMapFile := OpenFile_new d FreeMapSector in
    let* directoryFile := OpenFile_new d DirectorySector in
    let* d := BitMap_WriteBack (garbage 4%nat) freeMap freeMapFile d in
    let* d := Directory.WriteBack (garbage 5%nat) directory (hdr directoryFile) d in
    Ok (d, mkFileSystem freeMapFile directoryFile)
  else
    let* freeMapFile := OpenFile_new d FreeMapSector in
    let* directoryFile := OpenFile_new d DirectorySector in
    Ok (d, mkFileSystem freeMapFile directoryFile).

Definition Create (garbage : nat -> nat -> Z) (fs : FileSystem) (d : disk) (nm : list Z) (initialSize : Z) : res (disk * bool) :=
  let directory := Directory_new (garbage 0%nat) NumDirEntries in
  let* directory := Directory.FetchFrom directory (hdr (directoryFile fs)) d in
  let* found := Directory.Find directory nm in
  if decide (found <> -1) then Ok (d, false)
  else
    let* freeMap := BitMap_new NumSectors (garbage 1%nat) in
    let* freeMap := BitMap_FetchFrom freeMap (freeMapFile fs) d in
    let* '(freeMap, s) := BitMap.Find freeMap in
    if decide (s = -1) then Ok (d, false)
    else
      let* '(directory, added) := Directory.Add directory nm s in
      if negb added then Ok (d, false)
      else
        let* '(h, freeMap, ok) := Allocate (Header_new (garbage 2%nat)) freeMap initialSize in
        if negb ok then Ok (d, false)
        else
          let* d := Header_WriteBack h d s in
          let* d := Directory.WriteBack (garbage 3%nat) directory (hdr (directoryFile fs)) d in
          let* d := BitMap_WriteBack (garbage 4%nat) freeMap (freeMapFile fs) d in
          Ok (d, true).

Definition Open (garbage : nat -> nat -> Z) (fs : FileSystem) (d : disk) (nm : list Z) : res (option OpenFile) :=
  let directory := Directory_new (garbage 0%nat) NumDirEntries in
  let* directory := Directory.FetchFrom directory (hdr (directoryFile fs)) d in
  let* s := Directory.Find directory nm in
  if decide (s >= 0) then let* f := OpenFile_new d s in Ok (Some f) else Ok None.

Definition Remove (garbage : nat -> nat -> Z) (fs : FileSystem) (d : disk) (nm : list Z) : res (disk * bool) :=
  let directory := Directory_new (garbage 0%nat) NumDirEntries in
  let* directory := Directory.FetchFrom directory (hdr (directoryFile fs)) d in
  let* s := Directory.Find directory nm in
  if decide (s = -1) then Ok (d, false)
  else
    let* h := Header_FetchFrom d s in
    let* freeMap := BitMap_new NumSectors (garbage 1%nat) in
    let* freeMap := BitMap_FetchFrom freeMap (freeMapFile fs) d in
    let* freeMap := Deallocate h freeMap in
    let* freeMap := BitMap.Clear freeMap s in
    let* '(directory, _) := Directory.Remove directory nm in
    let* d := BitMap_WriteBack (garbage 2%nat) freeMap (freeMapFile fs) d in
    let* d := Directory.WriteBack (garbage 3%nat) directory (hdr (directoryFile fs)) d in
    Ok (d, true).

(** The names [List] prints. *)
Definition List_ (garbage : nat -> nat -> Z) (fs : FileSystem) (d : disk) : res (list (list Z)) :=
  let directory := Directory_new (garbage 0%nat) NumDirEntries in
  let* directory := Directory.FetchFrom directory (hdr (directoryFile fs)) d in
  Directory.List_ directory.

(** * Specification *)

Definition header_at (d : disk) (s : Z) : FileHeader := bytes_header (Files.sector d s).

(** The sectors of the file system itself, those of a file, and all in use. *)
Definition system_sectors (fs : FileSystem) : list Z :=
  FreeMapSector :: DirectorySector :: used (hdr (freeMapFile fs)) ++ used (hdr (directoryFile fs)).
Definition file_sectors (d : disk) (e : DirectoryEntry) : list Z := sector e :: used (header_at d (sector e)).
Definition owned (fs : FileSystem) (d : disk) (t : list DirectoryEntry) : list Z :=
  system_sectors fs ++ (live t ≫= file_sectors d).

(** What the system files hold. *)
Definition map_of (fs : FileSystem) (d : disk) : BitMap :=
  mkBitMap NumSectors 32 (bytes_words 32 (file_bytes (hdr (freeMapFile fs)) d)).
Definition table_of (fs : FileSystem) (d : disk) : list DirectoryEntry :=
  bytes_table (Z.to_nat NumDirEntries) (file_bytes (hdr (directoryFile fs)) d).

(** The abstract file system. *)
Definition contents (d : disk) (e : DirectoryEntry) : list Z := file_bytes (header_at d (sector e)) d.
Definition files (fs : FileSystem) (d : disk) : gmap (list Z) (list Z) := view (contents d) (table_of fs d).

(** The sectors left: every file has its header and its data. *)
Definition file_cost (c : list Z) : Z := 1 + divRoundUp (Z.of_nat (length c)) SectorSize.
Definition free_sectors (m : gmap (list Z) (list Z)) : Z :=
  NumSectors - 5 - map_fold (fun _ c n => file_cost c + n) 0 m.

(** The header on the disk and the one in memory are of the same file. *)
Definition same_file (h h' : FileHeader) : Prop := numBytes h = numBytes h' /\ used h = used h'.

Record system_file (f : OpenFile) (size s : Z) (d : disk) : Prop := {
  sf_header : header_ok (hdr f);
  sf_size : numBytes (hdr f) = size;
  sf_disk : header_ok (header_at d s) /\ same_file (header_at d s) (hdr f)
}.

Record fs_ok (fs : FileSystem) (d : disk) : Prop := {
  fo_disk : disk_ok d;
  fo_map : system_file (freeMapFile fs) FreeMapFileSize FreeMapSector d;
  fo_dir : system_file (directoryFile fs) DirectoryFileSize DirectorySector d;
  fo_files : Forall (fun e => header_ok (header_at d (sector e))) (live (table_of fs d));
  fo_names : NoDup (keys (table_of fs d));
  fo_owned : NoDup (owned fs d (table_of fs d));
  fo_range : Forall (fun s => 0 <= s < NumSectors) (owned fs d (table_of fs d));
  fo_marks : forall s, 0 <= s < NumSectors -> bits (map_of fs d) !! Z.to_nat s = Some (bool_decide (s ∈ owned fs d (table_of fs d)))
}.

(** ** Calls one after the other *)

Inductive fs_op :=
  | OpCreate (nm : list Z) (size : Z)
  | OpRemove (nm : list Z)
  | OpRead (nm : list Z) (n pos : Z)
  | OpWrite (nm : list Z) (bytes : list Z) (pos : Z).

Inductive fs_out :=
  | ODone (b : bool)
  | ORead (r : option (list Z))
  | OWrite (r : option Z).

(** A transfer opens the file and seeks. *)
Definition exec (garbage : nat -> nat -> Z) (fs : FileSystem) (d : disk) (op : fs_op) : res (disk * fs_out) :=
  match op with
  | OpCreate nm size => let* '(d, b) := Create garbage fs d nm size in Ok (d, ODone b)
  | OpRemove nm => let* '(d, b) := Remove garbage fs d nm in Ok (d, ODone b)
  | OpRead nm n pos =>
      let* f := Open garbage fs d nm in
      match f with
      | None => Ok (d, ORead None)
      | Some f => let* '(_, bs) := Files.Read (Seek f pos) d n in Ok (d, ORead (Some bs))
      end
  | OpWrite nm bytes pos =>
      let* f := Open garbage fs d nm in
      match f with
      | None => Ok (d, OWrite None)
      | Some f =>
          let* '(_, d, n) := Files.Write (garbage 1%nat) (Seek f pos) d bytes (Z.of_nat (length bytes)) in
          Ok (d, OWrite (Some n))
      end
  end.

Fixpoint run (garbage : nat -> nat -> nat -> Z) (fs : FileSystem) (d : disk) (ops : list fs_op) : res (disk * list fs_out) :=
  match ops with
  | [] => Ok (d, [])
  | op :: ops =>
      let* '(d, o) := exec (garbage (length ops)) fs d op in
      let* '(d, os) := run garbage fs d ops in
      Ok (d, o :: os)
  end.

(** Names with their NUL, or of nine characters; sizes a header can hold;
    positions and lengths whose sum is an [int]. *)
Definition op_ok (op : fs_op) : Prop :=
  match op with
  | OpCreate nm size => readable (Z.to_nat FileNameMaxLen) nm /\ 0 <= size <= MaxFileSize
  | OpRemove nm => readable (Z.to_nat FileNameMaxLen) nm
  | OpRead nm n pos => readable (Z.to_nat FileNameMaxLen) nm /\ 0 <= pos /\ pos + n < 2 ^ 31
  | OpWrite nm bytes pos => readable (Z.to_nat FileNameMaxLen) nm /\ 0 <= pos /\ pos + Z.of_nat (length bytes) < 2 ^ 31
  end.

(** The room for one more file. *)
Definition can_create (m : gmap (list Z) (list Z)) (k : list Z) (size : Z) : Prop :=
  m !! k = None /\ Z.of_nat (base.size m) < NumDirEntries /\ 1 + divRoundUp size SectorSize <= free_sectors m.
#[export] Instance can_create_dec m k size : Decision (can_create m k size).
Proof. unfold can_create. apply _. Defined.

(** The map from names to contents, as the calls may change it. *)
Inductive fs_spec (m : gmap (list Z) (list Z)) : fs_op -> fs_out -> gmap (list Z) (list Z) -> Prop :=
  | spec_create nm size c : can_create m (key nm) size -> Z.of_nat (length c) = size ->
      fs_spec m (OpCreate nm size) (ODone true) (<[key nm := c]> m)
  | spec_create_fails nm size : ~ can_create m (key nm) size -> fs_spec m (OpCreate nm size) (ODone false) m
  | spec_remove nm : fs_spec m (OpRemove nm) (ODone (bool_decide (is_Some (m !! key nm)))) (delete (key nm) m)
  | spec_read nm n pos :
      fs_spec m (OpRead nm n pos) (ORead ((fun c => take (Z.to_nat n) (drop (Z.to_nat pos) c)) <$> m !! key nm)) m
  | spec_write nm bytes pos c n : m !! key nm = Some c ->
      n = Z.max 0 (Z.min (Z.of_nat (length bytes)) (Z.of_nat (length c) - pos)) ->
      fs_spec m (OpWrite nm bytes pos) (OWrite (Some n)) (<[key nm := splice c (Z.to_nat pos) (take (Z.to_nat n) bytes)]> m)
  | spec_write_fails nm bytes pos : m !! key nm = None -> fs_spec m (OpWrite nm bytes pos) (OWrite None) m.

Inductive fs_specs : gmap (list Z) (list Z) -> list fs_op -> list fs_out -> gmap (list Z) (list Z) -> Prop :=
  | specs_nil m : fs_specs m [] [] m
  | specs_cons m op o m' ops os m'' : fs_spec m op o m' -> fs_specs m' ops os m'' -> fs_specs m (op :: ops) (o :: os) m''.

(** * Lemmas *)

(** ** Whole files and whole objects *)

Lemma same_file_bytes h h' d : same_file h h' -> file_bytes h d = file_bytes h' d.
Proof. intros [Hn Hu]. unfold file_bytes, flat, blocks. by rewrite Hn, Hu. Qed.

Lemma file_bytes_frame h d d' : (forall s, s ∈ used h -> Files.sector d' s = Files.sector d s) -> file_bytes h d' = file_bytes h d.
Proof. intros H. unfold file_bytes, flat, blocks. do 2 f_equal. apply list_fmap_ext. intros i s Hi. apply H. by eapply list_elem_of_lookup_2. Qed.

Lemma read_whole h d : header_ok h -> disk_ok d -> ReadAt h d (numBytes h) 0 = Ok (file_bytes h d).
Proof.
  intros HH Hd. pose proof (ho_bytes h HH). unfold MaxFileSize, NumDirect, SectorSize in *. rewrite ReadAt_ok by (done || lia).
  rewrite drop_0, take_ge; [done|]. by rewrite file_bytes_length.
Qed.

Lemma write_whole garbage h d bs : header_ok h -> disk_ok d -> length bs = Z.to_nat (numBytes h) ->
  exists d' n, WriteAt garbage h d bs (numBytes h) 0 = Ok (d', n) /\ disk_ok d' /\ file_bytes h d' = bs /\
    forall s, s ∉ used h -> Files.sector d' s = Files.sector d s.
Proof.
  intros HH Hd Hl. pose proof (ho_bytes h HH). unfold MaxFileSize, NumDirect, SectorSize in *.
  destruct (WriteAt_ok h HH garbage d bs (numBytes h) 0 Hd) as (d' & Hw & Hd' & Hf & Ho); [lia..|].
  do 2 eexists. split; [exact Hw|]. split_and!; try done. rewrite Hf. unfold clamp, splice.
  rewrite (take_ge bs) by lia. rewrite drop_ge, app_nil_r by (rewrite file_bytes_length by done; lia). done.
Qed.

Lemma overwrite_all buf bs : length bs = length buf -> overwrite buf 0 bs = Ok bs.
Proof.
  intros Hl. unfold overwrite. rewrite decide_True by lia. rewrite drop_ge, app_nil_r by lia. done.
Qed.

Lemma header_read_back h : header_ok h ->
  let h' := bytes_header (header_bytes h) in header_ok h' /\ same_file h' h /\ length (header_bytes h) = 128%nat.
Proof.
  intros HH h'. pose proof (num_sectors_bounds h HH) as [_ Hns]. destruct HH as [Hb Hs Ht Hr Hnd].
  unfold MaxFileSize, NumDirect, SectorSize in *.
  assert (h' = mkHeader (numBytes h) (numSectors h) (i32 <$> dataSectors h)) as ->.
  { unfold h', bytes_header, header_bytes. set (l := numBytes h :: numSectors h :: dataSectors h).
    replace (Z.to_nat (2 + NumDirect)) with (length (u32 <$> l)) by (rewrite length_fmap; unfold l; cbn [length]; rewrite Ht; done).
    rewrite bytes_words_bytes by (apply Forall_fmap, Forall_true; intros x; apply u32_range).
    rewrite <-list_fmap_compose. rewrite (list_fmap_ext (i32 ∘ u32) i32 l (fun i x _ => i32_u32 x)).
    unfold l. cbn. rewrite !i32_id by (unfold in_i32; lia). done. }
  assert (used (mkHeader (numBytes h) (numSectors h) (i32 <$> dataSectors h)) = used h) as Hu.
  { unfold used. cbn [numSectors dataSectors]. rewrite <-fmap_take. apply list_eq. intros i. rewrite list_lookup_fmap.
    destruct (take (Z.to_nat (numSectors h)) (dataSectors h) !! i) as [x|] eqn:Hx; [|done]. cbn. f_equal.
    eapply Forall_lookup in Hx; [|exact Hr]. cbn in Hx. unfold NumSectors in Hx. apply i32_id. unfold in_i32. lia. }
  split_and!.
  - split; cbn [numBytes numSectors dataSectors]; [done|done|by rewrite length_fmap|by rewrite Hu|by rewrite Hu].
  - by split.
  - unfold header_bytes. rewrite words_bytes_length, length_fmap. cbn [length]. rewrite Ht. done.
Qed.

Lemma header_at_write d s h : header_at (<[s := header_bytes h]> d) s = bytes_header (header_bytes h).
Proof. unfold header_at, Files.sector. by rewrite lookup_insert_eq. Qed.

Lemma Header_FetchFrom_ok d s : 0 <= s < NumSectors -> Header_FetchFrom d s = Ok (header_at d s).
Proof. intros Hs. unfold Header_FetchFrom, ReadSector. by rewrite sector_range. Qed.

Lemma Header_WriteBack_ok h d s : 0 <= s < NumSectors -> Header_WriteBack h d s = Ok (<[s := header_bytes h]> d).
Proof. intros Hs. unfold Header_WriteBack, WriteSector. by rewrite sector_range. Qed.

Lemma OpenFile_new_ok d s : 0 <= s < NumSectors -> OpenFile_new d s = Ok (mkOpenFile (header_at d s) 0).
Proof. intros Hs. unfold OpenFile_new. by rewrite Header_FetchFrom_ok. Qed.

Lemma Header_new_table garbage : length (dataSectors (Header_new garbage)) = Z.to_nat NumDirect.
Proof.
  unfold Header_new, bytes_header. pose proof (bytes_words_length (Z.to_nat (2 + NumDirect)) (garbage <$> seq 0 (Z.to_nat SectorSize))) as Hl.
  destruct (bytes_words _ _) as [|a [|b t]]; try discriminate Hl. cbn. rewrite length_fmap. cbn [length] in Hl.
  unfold NumDirect in *. lia.
Qed.

(** ** The two system files *)

Lemma Directory_new_ok garbage : dir_ok (Directory_new garbage NumDirEntries).
Proof.
  unfold Directory_new, NumDirEntries, entry_size. split; cbn [tableSize table].
  - by rewrite length_fmap, bytes_table_length.
  - apply Forall_fmap. eapply Forall_impl; [apply bytes_table_ok; by rewrite length_fmap, length_seq|]. by intros e [? ? ?].
Qed.

Lemma table_of_ok fs d : system_file (directoryFile fs) DirectoryFileSize DirectorySector d -> disk_ok d ->
  dir_ok (mkDirectory NumDirEntries (table_of fs d)).
Proof.
  intros [HH Hs _] Hd. split; cbn [tableSize table]; [by unfold table_of; rewrite bytes_table_length|].
  apply bytes_table_ok. rewrite file_bytes_length, Hs by done. by vm_compute.
Qed.

Lemma FetchFrom_ok garbage fs d : system_file (directoryFile fs) DirectoryFileSize DirectorySector d -> disk_ok d ->
  Directory.FetchFrom (Directory_new garbage NumDirEntries) (hdr (directoryFile fs)) d = Ok (mkDirectory NumDirEntries (table_of fs d)).
Proof.
  intros [HH Hs _] Hd. destruct (Directory_new_ok garbage) as [Hl He]. unfold Directory.FetchFrom.
  change (tableSize (Directory_new garbage NumDirEntries)) with NumDirEntries in *.
  replace (NumDirEntries * entry_size) with (numBytes (hdr (directoryFile fs))) by (by rewrite Hs).
  rewrite read_whole by done. cbn [rbind]. rewrite overwrite_all.
  - cbn [rbind]. unfold table_of. replace (length _) with (Z.to_nat NumDirEntries) by (unfold NumDirEntries in *; lia). done.
  - rewrite table_bytes_length, file_bytes_length, Hs by done. unfold DirectoryFileSize, NumDirEntries, entry_size in *. lia.
Qed.

Lemma Directory_WriteBack_ok garbage fs d t : system_file (directoryFile fs) DirectoryFileSize DirectorySector d -> disk_ok d ->
  dir_ok (mkDirectory NumDirEntries t) ->
  exists d', Directory.WriteBack garbage (mkDirectory NumDirEntries t) (hdr (directoryFile fs)) d = Ok d' /\ disk_ok d' /\
    table_of fs d' = t /\ forall s, s ∉ used (hdr (directoryFile fs)) -> Files.sector d' s = Files.sector d s.
Proof.
  intros [HH Hs _] Hd [Hl He]. cbn [tableSize table] in Hl, He. unfold Directory.WriteBack. cbn [tableSize table].
  replace (NumDirEntries * entry_size) with (numBytes (hdr (directoryFile fs))) by (by rewrite Hs).
  destruct (write_whole garbage (hdr (directoryFile fs)) d (table_bytes t) HH Hd) as (d' & n & -> & Hd' & Hf & Ho).
  { rewrite table_bytes_length, Hs by done. unfold DirectoryFileSize, NumDirEntries, entry_size in *. lia. }
  exists d'. split; [done|]. split; [done|]. split; [|done]. unfold table_of. rewrite Hf.
  replace (Z.to_nat NumDirEntries) with (length t) by lia. by apply bytes_table_bytes.
Qed.

Lemma map_of_wf fs d : wf (map_of fs d).
Proof. unfold map_of. split; cbn [numBits numWords bmap]; [by vm_compute|done|by rewrite bytes_words_length|apply bytes_words_range]. Qed.

Lemma fresh_map garbage : exists b, BitMap_new NumSectors garbage = Ok b /\ rep b (replicate (Z.to_nat NumSectors) false) /\
  numBits b = NumSectors /\ numWords b = 32 /\ length (bmap b) = 32%nat.
Proof.
  destruct (BitMap_new_rep NumSectors garbage) as (b & Hb & Hr); [by vm_compute|]. exists b. split; [done|]. split; [done|].
  pose proof (rep_length b _ Hr) as Hl. rewrite length_replicate in Hl. destruct Hr as [[_ Hw Hn _] _].
  assert (numBits b = NumSectors) as Hnb by (rewrite <-Hl; by vm_compute). rewrite Hnb in Hw.
  change (divRoundUp NumSectors BitsInWord) with 32 in Hw. rewrite Hw in Hn. split_and!; [done|done|lia].
Qed.

Lemma BitMap_FetchFrom_ok b fs d : system_file (freeMapFile fs) FreeMapFileSize FreeMapSector d -> disk_ok d ->
  numBits b = NumSectors -> numWords b = 32 -> length (bmap b) = 32%nat -> BitMap_FetchFrom b (freeMapFile fs) d = Ok (map_of fs d).
Proof.
  intros [HH Hs _] Hd Hb Hw Hl. unfold BitMap_FetchFrom. rewrite Hw.
  replace (32 * 4) with (numBytes (hdr (freeMapFile fs))) by (by rewrite Hs). rewrite read_whole by done. cbn [rbind].
  rewrite overwrite_all by (rewrite words_bytes_length, file_bytes_length, Hs, Hl by done; by vm_compute).
  cbn [rbind]. unfold with_map, map_of. by rewrite Hb, Hw, Hl.
Qed.

Lemma BitMap_WriteBack_ok garbage b l fs d : system_file (freeMapFile fs) FreeMapFileSize FreeMapSector d -> disk_ok d ->
  rep b l -> Z.of_nat (length l) = NumSectors ->
  exists d', BitMap_WriteBack garbage b (freeMapFile fs) d = Ok d' /\ disk_ok d' /\ bits (map_of fs d') = l /\
    forall s, s ∉ used (hdr (freeMapFile fs)) -> Files.sector d' s = Files.sector d s.
Proof.
  intros [HH Hs _] Hd Hr Hl. rewrite (rep_length b l Hr) in Hl. destruct Hr as [[_ Hw Hn Hu] Hb]. rewrite Hl in Hw.
  change (divRoundUp NumSectors BitsInWord) with 32 in Hw. rewrite Hw in Hn. unfold BitMap_WriteBack. rewrite Hw.
  replace (32 * 4) with (numBytes (hdr (freeMapFile fs))) by (by rewrite Hs).
  destruct (write_whole garbage (hdr (freeMapFile fs)) d (words_bytes (bmap b)) HH Hd) as (d' & n & -> & Hd' & Hf & Ho).
  { rewrite words_bytes_length, Hs. change (Z.to_nat FreeMapFileSize) with 128%nat. lia. }
  exists d'. split; [done|]. split; [done|]. split; [|done]. rewrite <-Hb. unfold map_of. rewrite Hf.
  replace 32%nat with (length (bmap b)) by lia. rewrite bytes_words_bytes by done. destruct b as [nb nw m]. cbn in *. by subst.
Qed.

(** ** Sectors in use and their marks *)

(** [l] marks exactly [ss]. *)
Definition marks (l : list bool) (ss : list Z) : Prop := forall s, 0 <= s < NumSectors -> l !! Z.to_nat s = Some (bool_decide (s ∈ ss)).

Lemma marks_perm l ss ss' : marks l ss -> ss ≡ₚ ss' -> marks l ss'.
Proof. intros Hm Hp s Hs. rewrite (Hm s Hs). do 2 f_equal. apply bool_decide_ext. by rewrite Hp. Qed.

Lemma marks_add l ss new : Z.of_nat (length l) = NumSectors -> marks l ss -> Forall (fun s => 0 <= s < NumSectors) new ->
  marks (set_bits true new l) (new ++ ss).
Proof.
  intros Hl Hm Hr s Hs. rewrite set_bits_lookup, Z2Nat.id by (rewrite ?Hl; done || lia). rewrite (Hm s Hs). case_decide as Hin.
  - rewrite bool_decide_eq_true_2; [done|]. set_solver.
  - do 2 f_equal. apply bool_decide_ext. set_solver.
Qed.

Lemma marks_remove l ss old : Z.of_nat (length l) = NumSectors -> marks l (old ++ ss) -> NoDup (old ++ ss) ->
  Forall (fun s => 0 <= s < NumSectors) old -> marks (set_bits false old l) ss.
Proof.
  intros Hl Hm Hnd Hr s Hs. rewrite set_bits_lookup, Z2Nat.id by (rewrite ?Hl; done || lia). rewrite (Hm s Hs).
  apply NoDup_app in Hnd as (_ & Hdis & _). case_decide as Hin.
  - rewrite bool_decide_eq_false_2; [done|]. by apply Hdis.
  - do 2 f_equal. apply bool_decide_ext. set_solver.
Qed.

Lemma marks_clear l ss s : marks l ss -> Forall (fun s => 0 <= s < NumSectors) ss -> 0 <= s -> l !! Z.to_nat s = Some false -> s ∉ ss.
Proof.
  intros Hm Hr Hs Hc Hin. rewrite Forall_forall in Hr. rewrite (Hm s (Hr s Hin)), bool_decide_eq_true_2 in Hc by done. done.
Qed.

(** The clear bits are the sectors that are not in use. *)
Lemma count_clear_fmap {A} (f : A -> bool) (l : list A) : count_clear (f <$> l) = Z.of_nat (length (filter (fun x => f x = false) l)).
Proof.
  unfold count_clear. f_equal. induction l as [|x l IH]; [done|]. cbn [fmap list_fmap]. rewrite !filter_cons.
  destruct (decide (f x = false)) as [H|H]; destruct (decide (false = f x)) as [H'|H']; try congruence; cbn; by rewrite IH.
Qed.

Lemma count_clear_marks l ss : Z.of_nat (length l) = NumSectors -> marks l ss -> NoDup ss ->
  Forall (fun s => 0 <= s < NumSectors) ss -> count_clear l = NumSectors - Z.of_nat (length ss).
Proof.
  intros Hl Hm Hnd Hr. assert (l = (fun s => bool_decide (s ∈ ss)) <$> seqZ 0 NumSectors) as ->.
  { apply list_eq. intros i. rewrite list_lookup_fmap. destruct (decide (Z.of_nat i < NumSectors)) as [Hi|Hi].
    - rewrite lookup_seqZ_lt by lia. pose proof (Hm (Z.of_nat i)) as H. rewrite Nat2Z.id in H. rewrite H by lia. done.
    - rewrite lookup_seqZ_ge by lia. apply lookup_ge_None. lia. }
  rewrite count_clear_fmap. pose proof (filter_app_complement (fun s => s ∈ ss) (seqZ 0 NumSectors)) as Hp.
  apply Permutation_length in Hp. rewrite length_app, length_seqZ in Hp.
  replace (length (filter (fun s => s ∈ ss) (seqZ 0 NumSectors))) with (length ss) in Hp.
  2: { apply Permutation_length, NoDup_Permutation; [done|apply NoDup_filter, NoDup_seqZ|]. intros s.
       rewrite list_elem_of_filter, elem_of_seqZ. rewrite Forall_forall in Hr. split; [|tauto]. intros Hs. pose proof (Hr s Hs). split; [done|lia]. }
  rewrite (list_filter_iff _ (fun s => ~ s ∈ ss)) by (intros s; apply bool_decide_eq_false). lia.
Qed.

(** ** Counting sectors by the contents of the files *)

Definition total (l : list (list Z)) : Z := foldr (fun c n => file_cost c + n) 0 l.

Lemma map_fold_total (l : list (list Z * list Z)) : NoDup l.*1 ->
  map_fold (fun _ c n => file_cost c + n) 0 (list_to_map l : gmap (list Z) (list Z)) = total l.*2.
Proof.
  induction l as [|[k c] l IH]; intros Hnd; [apply map_fold_empty|]. cbn in Hnd. apply NoDup_cons in Hnd as [Hk Hnd]. cbn.
  rewrite map_fold_insert_L; [by rewrite IH|intros; lia|by apply not_elem_of_list_to_map].
Qed.

Lemma contents_length d e : disk_ok d -> header_ok (header_at d (sector e)) ->
  Z.of_nat (length (contents d e)) = numBytes (header_at d (sector e)) /\
  file_cost (contents d e) = Z.of_nat (length (file_sectors d e)).
Proof.
  intros Hd HH. pose proof (ho_bytes _ HH) as Hb. pose proof (num_sectors_bounds _ HH) as [_ Hns].
  assert (Z.of_nat (length (contents d e)) = numBytes (header_at d (sector e))) as Hl
    by (unfold contents; rewrite file_bytes_length by done; lia).
  split; [done|]. unfold file_cost. rewrite Hl, <-(ho_sectors _ HH). unfold file_sectors. cbn [length].
  rewrite used_length by done. lia.
Qed.

Lemma total_sectors d l : disk_ok d -> Forall (fun e => header_ok (header_at d (sector e))) l ->
  total (contents d <$> l) = Z.of_nat (length (l ≫= file_sectors d)).
Proof.
  intros Hd. induction 1 as [|e l He _ IH]; [done|]. cbn [fmap list_fmap total foldr].
  change ((e :: l) ≫= file_sectors d) with (file_sectors d e ++ (l ≫= file_sectors d)).
  rewrite length_app. destruct (contents_length d e Hd He) as [_ ->]. fold (total (contents d <$> l)). rewrite IH. lia.
Qed.

Section Ok.
  Context (fs : FileSystem) (d : disk) (HF : fs_ok fs d).

Lemma system_length : length (system_sectors fs) = 5%nat.
Proof.
  destruct HF as [_ [HH1 Hs1 _] [HH2 Hs2 _] _ _ _ _ _]. unfold system_sectors. cbn [length].
  rewrite length_app, !used_length, (ho_sectors _ HH1), (ho_sectors _ HH2), Hs1, Hs2 by done. by vm_compute.
Qed.

Lemma map_length : Z.of_nat (length (bits (map_of fs d))) = NumSectors.
Proof. apply bits_length. by vm_compute. Qed.

Lemma free_sectors_ok : free_sectors (files fs d) = count_clear (bits (map_of fs d)).
Proof.
  pose proof HF as [Hd _ _ Hf Hn Ho Hr Hm]. rewrite (count_clear_marks _ _ map_length Hm Ho Hr).
  unfold free_sectors, files, view. rewrite map_fold_total by (by rewrite view_fst). rewrite <-list_fmap_compose.
  change ((snd ∘ (fun e => (key (name e), contents d e)))) with (contents d). rewrite total_sectors by done.
  unfold owned. rewrite length_app, system_length. lia.
Qed.

Lemma live_owned e : e ∈ live (table_of fs d) -> header_ok (header_at d (sector e)) /\ 0 <= sector e < NumSectors /\
  (sector e ∉ system_sectors fs) /\ (forall s, s ∈ file_sectors d e -> s ∉ system_sectors fs).
Proof.
  intros He. pose proof HF as [_ _ _ Hf _ Ho Hr _]. rewrite Forall_forall in Hf. rewrite Forall_forall in Hr. split; [by apply Hf|].
  assert (forall s, s ∈ file_sectors d e -> s ∈ (live (table_of fs d) ≫= file_sectors d)) as Hin
    by (intros s Hs; apply list_elem_of_bind; eauto).
  unfold owned in Ho, Hr. apply NoDup_app in Ho as (_ & Hdis & _).
  assert (sector e ∈ file_sectors d e) as Hse by (by apply elem_of_cons; left).
  split; [apply Hr, elem_of_app; right; by apply Hin|].
  assert (forall s, s ∈ file_sectors d e -> s ∉ system_sectors fs) as Hsys by (intros s Hs Hss; by apply (Hdis s Hss), Hin).
  split; [by apply Hsys|done].
Qed.

Lemma Find_name garbage nm : readable (Z.to_nat FileNameMaxLen) nm ->
  Directory.FetchFrom (Directory_new garbage NumDirEntries) (hdr (directoryFile fs)) d = Ok (mkDirectory NumDirEntries (table_of fs d)) /\
  dir_ok (mkDirectory NumDirEntries (table_of fs d)) /\
  Directory.Find (mkDirectory NumDirEntries (table_of fs d)) nm =
    Ok (match list_find (uses (key nm)) (table_of fs d) with Some (_, e) => sector e | None => -1 end) /\
  files fs d !! key nm = match list_find (uses (key nm)) (table_of fs d) with Some (_, e) => Some (contents d e) | None => None end.
Proof.
  intros Hnm. pose proof HF as [Hd _ Hdir _ Hn _ _ _]. pose proof (table_of_ok fs d Hdir Hd) as HD.
  split; [by apply FetchFrom_ok|]. split; [done|]. split; [by apply Find_ok|]. by apply view_lookup.
Qed.

Lemma found_live nm i e : list_find (uses (key nm)) (table_of fs d) = Some (i, e) ->
  table_of fs d !! i = Some e /\ e ∈ live (table_of fs d) /\ key (name e) = key nm /\ inUse e = true.
Proof.
  intros (Hi & [Hu Hk] & _)%list_find_Some. split; [done|]. split; [|done]. apply live_elem. split; [done|].
  by eapply list_elem_of_lookup_2.
Qed.
End Ok.

(** ** Frames *)

Lemma system_kept f size s d d' : Files.sector d' s = Files.sector d s -> system_file f size s d -> system_file f size s d'.
Proof. intros H [? ? [? ?]]. by split; [..|unfold header_at; rewrite H]. Qed.

Lemma table_frame fs d d' : (forall s, s ∈ used (hdr (directoryFile fs)) -> Files.sector d' s = Files.sector d s) -> table_of fs d' = table_of fs d.
Proof. intros H. unfold table_of. by rewrite (file_bytes_frame _ d d'). Qed.

Lemma map_frame fs d d' : (forall s, s ∈ used (hdr (freeMapFile fs)) -> Files.sector d' s = Files.sector d s) -> map_of fs d' = map_of fs d.
Proof. intros H. unfold map_of. by rewrite (file_bytes_frame _ d d'). Qed.

Lemma file_frame d d' e : (forall s, s ∈ file_sectors d e -> Files.sector d' s = Files.sector d s) ->
  header_at d' (sector e) = header_at d (sector e) /\ file_sectors d' e = file_sectors d e /\ contents d' e = contents d e.
Proof.
  intros H. assert (header_at d' (sector e) = header_at d (sector e)) as Hh
    by (unfold header_at; rewrite H; [done|by apply elem_of_cons; left]).
  split; [done|]. unfold file_sectors, contents. rewrite Hh. split; [done|]. apply file_bytes_frame.
  intros s Hs. apply H. by apply elem_of_cons; right.
Qed.

Lemma system_disjoint fs d : fs_ok fs d ->
  (forall s, s ∈ used (hdr (directoryFile fs)) -> (s ∉ used (hdr (freeMapFile fs)))) /\
  (forall s, s ∈ [FreeMapSector; DirectorySector] -> (s ∉ used (hdr (freeMapFile fs))) /\ (s ∉ used (hdr (directoryFile fs)))).
Proof.
  intros [_ _ _ _ _ Ho _ _]. unfold owned in Ho. apply NoDup_app in Ho as (Ho & _ & _). unfold system_sectors in Ho.
  change (FreeMapSector :: DirectorySector :: used (hdr (freeMapFile fs)) ++ used (hdr (directoryFile fs)))
    with ([FreeMapSector; DirectorySector] ++ used (hdr (freeMapFile fs)) ++ used (hdr (directoryFile fs))) in Ho.
  apply NoDup_app in Ho as (_ & H1 & Ho). apply NoDup_app in Ho as (_ & H2 & _). split.
  - intros s Hs Hs'. by apply (H2 s Hs').
  - intros s Hs. specialize (H1 s Hs). rewrite elem_of_app in H1. tauto.
Qed.

(** The sectors of one entry apart from those of the others. *)
Lemma owned_split fs d d' t r e : live t ≡ₚ e :: r -> (forall e', e' ∈ r -> file_sectors d' e' = file_sectors d e') ->
  owned fs d t ≡ₚ file_sectors d e ++ system_sectors fs ++ (r ≫= file_sectors d').
Proof.
  intros Hp Hf. unfold owned. rewrite Hp. change ((e :: r) ≫= file_sectors d) with (file_sectors d e ++ (r ≫= file_sectors d)).
  replace (r ≫= file_sectors d') with (r ≫= file_sectors d).
  - rewrite !app_assoc. apply Permutation_app_tail, Permutation_app_comm.
  - apply list_bind_ext_in. intros x Hx. symmetry. by apply Hf.
Qed.

Lemma fs_ok_after fs d d' ss : fs_ok fs d -> disk_ok d' ->
  (forall s, s ∈ [FreeMapSector; DirectorySector] -> Files.sector d' s = Files.sector d s) ->
  Forall (fun e => header_ok (header_at d' (sector e))) (live (table_of fs d')) -> NoDup (keys (table_of fs d')) ->
  owned fs d' (table_of fs d') ≡ₚ ss -> NoDup ss -> Forall (fun s => 0 <= s < NumSectors) ss -> marks (bits (map_of fs d')) ss ->
  fs_ok fs d'.
Proof.
  intros HF Hd' Hsys Hf Hn Hp Hnd Hr Hm. pose proof HF as [_ Hsm Hsd _ _ _ _ _]. split; try done.
  - eapply system_kept; [|exact Hsm]. apply Hsys. set_solver.
  - eapply system_kept; [|exact Hsd]. apply Hsys. set_solver.
  - by rewrite Hp.
  - by rewrite Hp.
  - eapply marks_perm; [exact Hm|by rewrite Hp].
Qed.

Section Update.
  Context (fs : FileSystem) (d : disk) (HF : fs_ok fs d).

Lemma system_owned s : s ∈ system_sectors fs -> s ∈ owned fs d (table_of fs d).
Proof. intros Hs. unfold owned. apply elem_of_app. by left. Qed.

Lemma in_system s : s = FreeMapSector \/ s = DirectorySector \/ s ∈ used (hdr (freeMapFile fs)) \/ s ∈ used (hdr (directoryFile fs)) <->
  s ∈ system_sectors fs.
Proof. unfold system_sectors. set_solver. Qed.

(** The header, the directory and the bitmap of a new file reach the disk. *)
Lemma create_writes g1 g2 s h b l t' : s ∉ system_sectors fs -> 0 <= s < NumSectors -> header_ok h ->
  dir_ok (mkDirectory NumDirEntries t') -> rep b l -> Z.of_nat (length l) = NumSectors ->
  exists d1 d2 d', Header_WriteBack h d s = Ok d1 /\
    Directory.WriteBack g1 (mkDirectory NumDirEntries t') (hdr (directoryFile fs)) d1 = Ok d2 /\
    BitMap_WriteBack g2 b (freeMapFile fs) d2 = Ok d' /\ disk_ok d' /\ table_of fs d' = t' /\ bits (map_of fs d') = l /\
    Files.sector d' s = header_bytes h /\
    (forall x, x <> s -> (x ∉ used (hdr (directoryFile fs))) -> (x ∉ used (hdr (freeMapFile fs))) -> Files.sector d' x = Files.sector d x).
Proof.
  intros Hs Hsr HH HD' Hb Hl. rewrite <-in_system in Hs.
  assert (FreeMapSector <> s /\ DirectorySector <> s) as [Hne0 Hne1] by (split; intros Hx; symmetry in Hx; tauto). pose proof HF as [Hd Hsm Hsd _ _ _ _ _].
  destruct (system_disjoint fs d HF) as [Hdis Hsys]. destruct (header_read_back h HH) as (_ & _ & Hlh).
  rewrite (Header_WriteBack_ok h d s Hsr). exists (<[s := header_bytes h]> d).
  assert (disk_ok (<[s := header_bytes h]> d)) as Hd1 by (by apply disk_ok_write).
  assert (forall x, x <> s -> Files.sector (<[s := header_bytes h]> d) x = Files.sector d x) as Hfr1
    by (intros x Hx; unfold Files.sector; by rewrite lookup_insert_ne).
  assert (system_file (directoryFile fs) DirectoryFileSize DirectorySector (<[s := header_bytes h]> d)) as Hsd1
    by (eapply system_kept; [|exact Hsd]; apply Hfr1; tauto).
  destruct (Directory_WriteBack_ok g1 fs _ t' Hsd1 Hd1 HD') as (d2 & Hw2 & Hd2 & Ht2 & Hfr2).
  assert (system_file (freeMapFile fs) FreeMapFileSize FreeMapSector d2) as Hsm2.
  { eapply system_kept; [|exact Hsm]. rewrite Hfr2, Hfr1; [done|tauto|]. apply Hsys. by apply elem_of_cons; left. }
  destruct (BitMap_WriteBack_ok g2 b l fs d2 Hsm2 Hd2 Hb Hl) as (d' & Hw3 & Hd' & Hb3 & Hfr3).
  exists d2, d'. split_and!; try done.
  - rewrite <-Ht2. apply table_frame. intros x Hx. apply Hfr3. by apply Hdis.
  - rewrite Hfr3, Hfr2 by tauto. unfold Files.sector. by rewrite lookup_insert_eq.
  - intros x Hx1 Hx2 Hx3. by rewrite Hfr3, Hfr2, Hfr1.
Qed.

(** The disk holds one more file. *)
Lemma create_view d' i e s h nm : let e' := mkEntry true s nm (padding e) in
  table_of fs d !! i = Some e -> unused e -> key nm ∉ keys (table_of fs d) -> header_ok h ->
  Forall (fun x => 0 <= x < NumSectors) (s :: used h) -> NoDup ((s :: used h) ++ owned fs d (table_of fs d)) ->
  disk_ok d' -> table_of fs d' = <[i := e']> (table_of fs d) ->
  bits (map_of fs d') = set_bits true (s :: used h) (bits (map_of fs d)) -> Files.sector d' s = header_bytes h ->
  (forall x, x <> s -> (x ∉ used (hdr (directoryFile fs))) -> (x ∉ used (hdr (freeMapFile fs))) -> Files.sector d' x = Files.sector d x) ->
  fs_ok fs d' /\ exists c, Z.of_nat (length c) = numBytes h /\ files fs d' = <[key nm := c]> (files fs d).
Proof.
  intros e' Hi Hu Hk HH Hrg Hnd Hd' Ht' Hb' Hs' Hfr. pose proof HF as [Hd Hsm Hsd Hf Hn Ho Hr Hm].
  destruct (header_read_back h HH) as (HH' & [Hsz Hus] & _). set (t := table_of fs d) in *.
  assert (s ∉ owned fs d t) as Hso by (cbn [app] in Hnd; apply NoDup_cons in Hnd as [Hnd' _]; by apply not_elem_of_app in Hnd' as [_ ?]).
  assert (header_at d' s = bytes_header (header_bytes h)) as Hhs by (unfold header_at; by rewrite Hs').
  assert (file_sectors d' e' = s :: used h) as Hfe by (unfold file_sectors, e'; cbn [sector]; by rewrite Hhs, Hus).
  assert (forall x, x ∈ live t -> header_at d' (sector x) = header_at d (sector x) /\ file_sectors d' x = file_sectors d x /\
    contents d' x = contents d x) as Hold.
  { intros x Hx. apply file_frame. intros y Hy. destruct (live_owned fs d HF x Hx) as (_ & _ & _ & Hsys).
    pose proof (Hsys y Hy) as Hys. rewrite <-in_system in Hys. apply Hfr; [intros ->|tauto|tauto]. apply Hso. unfold owned.
    apply elem_of_app. right. apply list_elem_of_bind. eauto. }
  pose proof (live_put t i e e' Hi Hu eq_refl) as Hp.
  destruct (view_put (contents d') t i e e' Hn Hi Hu eq_refl Hk) as [Hn' Hv'].
  assert (owned fs d' (<[i := e']> t) ≡ₚ (s :: used h) ++ owned fs d t) as Hown.
  { rewrite (owned_split fs d' d (<[i := e']> t) (live t) e' Hp), Hfe; [done|]. intros x Hx. symmetry. by apply Hold. }
  split.
  - apply (fs_ok_after fs d d' ((s :: used h) ++ owned fs d t) HF Hd'); rewrite ?Ht', ?Hb'; try done.
    + intros x Hx. apply Hfr.
      * intros ->. apply Hso, system_owned, in_system. apply elem_of_cons in Hx as [->|Hx]; [by left|].
        apply list_elem_of_singleton in Hx as ->. by right; left.
      * by apply (system_disjoint fs d HF).
      * by apply (system_disjoint fs d HF).
    + rewrite Hp. constructor; [by cbn [sector e']; rewrite Hhs|]. eapply Forall_impl_in; [exact Hf|].
      intros x Hx Hxh. by rewrite (proj1 (Hold x Hx)).
    + apply Forall_app. by split.
    + apply marks_add; [by rewrite map_length|exact Hm|done].
  - exists (contents d' e'). split.
    + unfold contents, e'. cbn [sector]. rewrite Hhs, file_bytes_length by done. rewrite Hsz. pose proof (ho_bytes h HH). lia.
    + unfold files. rewrite Ht', Hv'. cbn [name e']. f_equal. apply view_ext. intros x Hx. by apply Hold.
Qed.

Lemma map_rep : rep (map_of fs d) (bits (map_of fs d)).
Proof. by split; [apply map_of_wf|]. Qed.

Lemma clear_unowned s : 0 <= s -> bits (map_of fs d) !! Z.to_nat s = Some false ->
  0 <= s < NumSectors /\ (s ∉ owned fs d (table_of fs d)).
Proof.
  intros Hs Hc. pose proof HF as [_ _ _ _ _ _ Hr Hm]. split; [|by eapply marks_clear].
  apply lookup_lt_Some in Hc. pose proof (map_length fs d). lia.
Qed.

(** A full directory has as many files as entries. *)
Lemma files_size : size (files fs d) = length (live (table_of fs d)).
Proof. apply view_size. apply HF. Qed.

Lemma table_length : length (table_of fs d) = 10%nat.
Proof. unfold table_of. by rewrite bytes_table_length. Qed.

(** What the call does up to the point where it allocates the data sectors. *)
Lemma Create_until_Allocate garbage nm size : readable (Z.to_nat FileNameMaxLen) nm -> 0 <= size ->
  (~ can_create (files fs d) (key nm) size /\ Create garbage fs d nm size = Ok (d, false)) \/
  exists i e s nm' b, list_find unused (table_of fs d) = Some (i, e) /\ length nm' = 10%nat /\ key nm' = key nm /\
    (key nm ∉ keys (table_of fs d)) /\ (files fs d !! key nm = None) /\ Z.of_nat (base.size (files fs d)) < NumDirEntries /\
    0 <= s < NumSectors /\ (s ∉ owned fs d (table_of fs d)) /\ rep b (<[Z.to_nat s := true]> (bits (map_of fs d))) /\
    count_clear (<[Z.to_nat s := true]> (bits (map_of fs d))) = free_sectors (files fs d) - 1 /\
    Create garbage fs d nm size =
      let* '(h, freeMap, ok) := Allocate (Header_new (garbage 2%nat)) b size in
      if negb ok then Ok (d, false)
      else
        let* d1 := Header_WriteBack h d s in
        let* d2 := Directory.WriteBack (garbage 3%nat)
          (mkDirectory NumDirEntries (<[i := mkEntry true s nm' (padding e)]> (table_of fs d))) (hdr (directoryFile fs)) d1 in
        let* d3 := BitMap_WriteBack (garbage 4%nat) freeMap (freeMapFile fs) d2 in
        Ok (d3, true).
Proof.
  intros Hnm Hsz. pose proof HF as [Hd Hsm Hsd _ _ _ _ _]. pose proof (divRoundUp_bounds size SectorSize Hsz ltac:(done)).
  destruct (Find_name fs d HF (garbage 0%nat) nm Hnm) as (Hfe & HD & Hfi & Hl). unfold Create. rewrite Hfe. cbn [rbind].
  rewrite Hfi. cbn [rbind]. destruct (list_find (uses (key nm)) (table_of fs d)) as [[i0 e0]|] eqn:Hf.
  { left. split; [intros [Hc _]; congruence|]. destruct (found_live fs d nm i0 e0 Hf) as (_ & He0 & _).
    destruct (live_owned fs d HF e0 He0) as (_ & ? & _). by rewrite decide_True by lia. }
  rewrite decide_False by tauto. destruct (fresh_map (garbage 1%nat)) as (b0 & -> & _ & Hb1 & Hb2 & Hb3). cbn [rbind].
  rewrite (BitMap_FetchFrom_ok b0 fs d Hsm Hd Hb1 Hb2 Hb3). cbn [rbind].
  pose proof (free_sectors_ok fs d HF) as Hfree. pose proof (Find_rep (map_of fs d) _ map_rep) as HFi.
  destruct (first_clear (bits (map_of fs d))) as [n|] eqn:Hfc.
  2: { left. rewrite HFi. cbn [rbind]. rewrite decide_True by done. split; [|done]. intros (_ & _ & Hc).
    destruct (decide (0 < count_clear (bits (map_of fs d)))) as [Hp|Hp]; [destruct (first_clear_count _ Hp); congruence|].
    unfold SectorSize in *. lia. }
  destruct HFi as (b & -> & Hb). cbn [rbind]. rewrite decide_False by lia.
  destruct (first_clear_Some _ _ Hfc) as [Hn _]. pose proof (Add_ok _ HD nm Hnm (Z.of_nat n) Hf) as Ha. cbn [table tableSize] in Ha.
  destruct (list_find unused (table_of fs d)) as [[i e]|] eqn:Hu.
  2: { left. rewrite Ha. cbn [rbind negb]. split; [|done]. intros (_ & Hc & _). rewrite files_size in Hc.
    apply unused_None in Hu. rewrite table_length in Hu. unfold NumDirEntries in Hc. lia. }
  destruct Ha as (nm' & Hnl & Hnk & _ & ->). cbn [rbind negb]. right. exists i, e, (Z.of_nat n), nm', b.
  destruct (clear_unowned (Z.of_nat n)) as [Hr Ho]; [lia|by rewrite Nat2Z.id|]. rewrite Nat2Z.id.
  split_and!; try done; try lia.
  - by apply uses_None.
  - rewrite files_size. pose proof (live_length (table_of fs d)). rewrite table_length in *. unfold NumDirEntries.
    destruct (decide (length (live (table_of fs d)) = 10%nat)) as [Hl10|]; [|lia].
    rewrite <-table_length in Hl10. apply unused_None in Hl10. congruence.
  - rewrite count_clear_insert by done. lia.
Qed.

Lemma Create_ok garbage nm size : readable (Z.to_nat FileNameMaxLen) nm -> 0 <= size <= MaxFileSize ->
  exists d' b, Create garbage fs d nm size = Ok (d', b) /\ b = bool_decide (can_create (files fs d) (key nm) size) /\ fs_ok fs d' /\
    if b then exists c, Z.of_nat (length c) = size /\ files fs d' = <[key nm := c]> (files fs d) else d' = d.
Proof.
  intros Hnm Hsz. destruct (Create_until_Allocate garbage nm size Hnm) as [[Hc ->]|H]; [lia| |].
  { exists d, false. split; [done|]. by rewrite bool_decide_eq_false_2. }
  destruct H as (i & e & s & nm' & b & Hu & Hnl & Hnk & Hk & Hl & Hsize & Hs & Hso & Hb & Hcc & ->).
  set (l := <[Z.to_nat s := true]> (bits (map_of fs d))) in *.
  assert (Z.of_nat (length l) = NumSectors) as Hll by (unfold l; rewrite length_insert; apply map_length).
  destruct (decide (count_clear l < divRoundUp size SectorSize)) as [Hlt|Hge].
  { destruct (Allocate_full (BA := BitMap_allocator) (Header_new (garbage 2%nat)) b l size Hb Hlt) as (h & Ha). cbn in Ha. rewrite Ha. cbn [rbind negb].
    exists d, false. split; [done|]. rewrite bool_decide_eq_false_2; [done|]. intros (_ & _ & ?). lia. }
  destruct (Allocate_ok (BA := BitMap_allocator) (Header_new (garbage 2%nat)) b l size Hb Hll (Header_new_table _) Hsz) as (h & b2 & Ha & HH & Hnb & Hcl & Hb2); [lia|].
  rewrite Ha. cbn [rbind negb]. apply list_find_Some in Hu as (Hi & Hun & _).
  pose proof HF as [Hd Hsm Hsd Hf Hn Ho Hr Hm]. pose proof (table_of_ok fs d Hsd Hd) as HD.
  assert (forall x, x ∈ used h -> x <> s /\ 0 <= x < NumSectors /\ (x ∉ owned fs d (table_of fs d))) as Hused.
  { intros x Hx. pose proof (proj1 (Forall_forall _ _) (ho_range h HH) x Hx) as Hxr. pose proof (proj1 (Forall_forall _ _) Hcl x Hx) as Hxc.
    cbn in Hxr, Hxc. unfold l in Hxc. destruct (decide (x = s)) as [->|Hne].
    - rewrite list_lookup_insert_eq in Hxc by (pose proof (map_length fs d); lia). done.
    - rewrite list_lookup_insert_ne in Hxc by lia. destruct (clear_unowned x) as [_ ?]; [lia|done|done]. }
  assert (s ∉ used h) as Hsu by (intros Hx; by destruct (Hused s Hx) as [? _]).
  assert (NoDup ((s :: used h) ++ owned fs d (table_of fs d))) as Hnd.
  { apply NoDup_app. split; [apply NoDup_cons; by split; [|apply HH]|]. split; [|done].
    intros x Hx. apply elem_of_cons in Hx as [->|Hx]; [done|]. by apply Hused. }
  assert (dir_ok (mkDirectory NumDirEntries (<[i := mkEntry true s nm' (padding e)]> (table_of fs d)))) as HD'.
  { apply (Add_keeps (mkDirectory NumDirEntries (table_of fs d))); [done|].
    pose proof (proj1 (Forall_lookup _ _) (do_entries _ HD) i e Hi) as [? ? ?].
    split; cbn [sector name padding]; [|done..]. unfold NumSectors in Hs. unfold in_i32. lia. }
  destruct (create_writes (garbage 3%nat) (garbage 4%nat) s h b2 (set_bits true (used h) l)
              (<[i := mkEntry true s nm' (padding e)]> (table_of fs d))) as (d1 & d2 & d' & -> & Hw2 & Hw3 & Hd' & Ht' & Hb' & Hs' & Hfr);
    try done; [intros Hx; by apply Hso, system_owned|by rewrite set_bits_length|].
  cbn [rbind]. rewrite Hw2. cbn [rbind]. rewrite Hw3. cbn [rbind]. exists d', true. split; [done|].
  rewrite bool_decide_eq_true_2 by (split_and!; [done|done|lia]). split; [done|].
  destruct (create_view d' i e s h nm') as [HF' (c & Hc & Hv)]; rewrite ?Hnk; try done.
  { apply Forall_cons. split; [done|apply HH]. }
  split; [done|]. exists c. split; [by rewrite Hc|]. by rewrite <-Hnk.
Qed.

(** The bitmap and the directory without a file reach the disk. *)
Lemma remove_writes g1 g2 b l t' : dir_ok (mkDirectory NumDirEntries t') -> rep b l -> Z.of_nat (length l) = NumSectors ->
  exists d1 d', BitMap_WriteBack g1 b (freeMapFile fs) d = Ok d1 /\
    Directory.WriteBack g2 (mkDirectory NumDirEntries t') (hdr (directoryFile fs)) d1 = Ok d' /\
    disk_ok d' /\ table_of fs d' = t' /\ bits (map_of fs d') = l /\
    (forall x, (x ∉ used (hdr (directoryFile fs))) -> (x ∉ used (hdr (freeMapFile fs))) -> Files.sector d' x = Files.sector d x).
Proof.
  intros HD' Hb Hl. pose proof HF as [Hd Hsm Hsd _ _ _ _ _]. destruct (system_disjoint fs d HF) as [Hdis Hsys].
  destruct (BitMap_WriteBack_ok g1 b l fs d Hsm Hd Hb Hl) as (d1 & Hw1 & Hd1 & Hb1 & Hfr1).
  assert (system_file (directoryFile fs) DirectoryFileSize DirectorySector d1) as Hsd1.
  { eapply system_kept; [|exact Hsd]. apply Hfr1, Hsys. by apply elem_of_cons; right; apply elem_of_cons; left. }
  destruct (Directory_WriteBack_ok g2 fs d1 t' Hsd1 Hd1 HD') as (d' & Hw2 & Hd' & Ht2 & Hfr2).
  exists d1, d'. split_and!; try done.
  - rewrite <-Hb1. f_equal. apply map_frame. intros x Hx. apply Hfr2. intros Hx'. by apply (Hdis x Hx').
  - intros x Hx1 Hx2. by rewrite Hfr2, Hfr1.
Qed.

(** The entry of a file and the other files. *)
Lemma live_split e : e ∈ live (table_of fs d) -> exists r, live (table_of fs d) ≡ₚ e :: r /\
  (forall x, x ∈ r -> x ∈ live (table_of fs d)) /\
  (forall x y, x ∈ r -> y ∈ file_sectors d x -> (y ∉ file_sectors d e)) /\
  files fs d = <[key (name e) := contents d e]> (list_to_map ((fun e => (key (name e), contents d e)) <$> r)).
Proof.
  intros He. pose proof HF as [_ _ _ _ Hn Ho _ _]. apply elem_of_Permutation in He as [r Hp]. exists r. split; [done|]. split_and!.
  - intros x Hx. rewrite Hp. by apply elem_of_cons; right.
  - intros x y Hx Hy Hye. rewrite (owned_split fs d d _ r e Hp (fun _ _ => eq_refl)) in Ho. apply NoDup_app in Ho as (_ & Ho & _).
    apply (Ho y Hye). apply elem_of_app. right. apply list_elem_of_bind. eauto.
  - unfold files. by rewrite (view_perm _ _ _ Hn Hp).
Qed.

Lemma unwritten x y : x ∈ live (table_of fs d) -> y ∈ file_sectors d x ->
  (y ∉ used (hdr (directoryFile fs))) /\ (y ∉ used (hdr (freeMapFile fs))).
Proof.
  intros Hx Hy. destruct (live_owned fs d HF x Hx) as (_ & _ & _ & Hsys). pose proof (Hsys y Hy) as Hys.
  rewrite <-in_system in Hys. tauto.
Qed.

(** The disk holds one file less. *)
Lemma remove_view d' i e : let e' := mkEntry false (sector e) (name e) (padding e) in let h := header_at d (sector e) in
  table_of fs d !! i = Some e -> inUse e = true -> disk_ok d' -> table_of fs d' = <[i := e']> (table_of fs d) ->
  bits (map_of fs d') = set_bits false (used h ++ [sector e]) (bits (map_of fs d)) ->
  (forall x, (x ∉ used (hdr (directoryFile fs))) -> (x ∉ used (hdr (freeMapFile fs))) -> Files.sector d' x = Files.sector d x) ->
  fs_ok fs d' /\ files fs d' = delete (key (name e)) (files fs d).
Proof.
  intros e' h Hi Hu Hd' Ht' Hb' Hfr. pose proof HF as [Hd Hsm Hsd Hf Hn Ho Hr Hm]. set (t := table_of fs d) in *.
  pose proof (live_drop t i e e' Hi Hu eq_refl) as Hp.
  assert (forall x, x ∈ live (<[i := e']> t) -> x ∈ live t) as Hsub by (intros x Hx; rewrite Hp; by apply elem_of_cons; right).
  assert (forall x, x ∈ live t -> header_at d' (sector x) = header_at d (sector x) /\ file_sectors d' x = file_sectors d x /\
    contents d' x = contents d x) as Hold.
  { intros x Hx. apply file_frame. intros y Hy. by apply Hfr; eapply unwritten. }
  destruct (view_drop (contents d') t i e e' Hn Hi Hu eq_refl) as [Hn' Hv'].
  assert (owned fs d t ≡ₚ (used h ++ [sector e]) ++ owned fs d' (<[i := e']> t)) as Hown.
  { rewrite (owned_split fs d d' t (live (<[i := e']> t)) e Hp) by (intros x Hx; by apply Hold, Hsub).
    apply Permutation_app_tail. apply Permutation_cons_append. }
  pose proof Ho as Hnd. rewrite Hown in Hnd. pose proof Hr as Hrg. rewrite Hown, Forall_app in Hrg. split.
  - apply (fs_ok_after fs d d' (owned fs d' (<[i := e']> t)) HF Hd'); rewrite ?Ht', ?Hb'; try done.
    + intros x Hx. by apply Hfr; apply (system_disjoint fs d HF).
    + apply Forall_forall. intros x Hx. rewrite (proj1 (Hold x (Hsub x Hx))). rewrite Forall_forall in Hf. by apply Hf, Hsub.
    + by apply NoDup_app in Hnd as (_ & _ & ?).
    + apply Hrg.
    + apply marks_remove; [by rewrite map_length| |done|apply Hrg]. by eapply marks_perm.
  - unfold files. rewrite Ht', Hv'. f_equal. apply view_ext. intros x Hx. by apply Hold.
Qed.

Lemma Remove_ok garbage nm : readable (Z.to_nat FileNameMaxLen) nm ->
  exists d' b, Remove garbage fs d nm = Ok (d', b) /\ b = bool_decide (is_Some (files fs d !! key nm)) /\ fs_ok fs d' /\
    files fs d' = delete (key nm) (files fs d) /\ (b = false -> d' = d).
Proof.
  intros Hnm. pose proof HF as [Hd Hsm Hsd Hf Hn Ho Hr Hm].
  destruct (Find_name fs d HF (garbage 0%nat) nm Hnm) as (Hfe & HD & Hfi & Hl). unfold Remove. rewrite Hfe. cbn [rbind].
  rewrite Hfi. cbn [rbind]. destruct (list_find (uses (key nm)) (table_of fs d)) as [[i e]|] eqn:Hfd.
  2: { rewrite decide_True by done. exists d, false. rewrite Hl. split_and!; try done. by rewrite delete_id. }
  destruct (found_live fs d nm i e Hfd) as (Hi & He & Hk & Hu). destruct (live_owned fs d HF e He) as (HH & Hse & _ & _).
  rewrite decide_False by lia. rewrite Header_FetchFrom_ok by done. cbn [rbind]. set (h := header_at d (sector e)) in *.
  destruct (fresh_map (garbage 1%nat)) as (b0 & -> & _ & Hb1 & Hb2 & Hb3). cbn [rbind].
  rewrite (BitMap_FetchFrom_ok b0 fs d Hsm Hd Hb1 Hb2 Hb3). cbn [rbind].
  destruct (Deallocate_ok (BA := BitMap_allocator) h (map_of fs d) _ map_rep HH) as (b1 & Hde & Hr1).
  { eapply Forall_impl_in; [apply HH|]. intros x Hx Hxr. rewrite (Hm x Hxr), bool_decide_eq_true_2; [done|].
    unfold owned. apply elem_of_app. right. apply list_elem_of_bind. exists e. split; [by apply elem_of_cons; right|done]. }
  rewrite Hde. cbn [rbind].
  destruct (Clear_rep b1 _ (sector e) Hr1) as (b2 & -> & Hr2); [rewrite set_bits_length, map_length; done|]. cbn [rbind].
  rewrite (Directory.Remove_entry_ok _ HD nm Hnm). cbn [table tableSize]. rewrite Hfd. cbn [rbind].
  set (e' := mkEntry false (sector e) (name e) (padding e)).
  assert (dir_ok (mkDirectory NumDirEntries (<[i := e']> (table_of fs d)))) as HD'.
  { apply (Add_keeps (mkDirectory NumDirEntries (table_of fs d))); [done|].
    by pose proof (proj1 (Forall_lookup _ _) (do_entries _ HD) i e Hi) as [? ? ?]. }
  destruct (remove_writes (garbage 2%nat) (garbage 3%nat) b2 _ _ HD' Hr2) as (d1 & d' & -> & Hw2 & Hd' & Ht' & Hb' & Hfr).
  { by rewrite length_insert, set_bits_length, map_length. }
  cbn [rbind]. rewrite Hw2. cbn [rbind].
  destruct (remove_view d' i e Hi Hu Hd' Ht') as [HF' Hv]; [|done|].
  { rewrite Hb'. unfold set_bits. by rewrite foldl_app. }
  exists d', true. rewrite Hl. split_and!; try done. by rewrite <-Hk.
Qed.

(** [Open] gives the file, and a transfer through it changes that file only. *)
Lemma Open_ok garbage nm : readable (Z.to_nat FileNameMaxLen) nm ->
  match files fs d !! key nm with
  | None => Open garbage fs d nm = Ok None
  | Some c => exists f, Open garbage fs d nm = Ok (Some f) /\ seekPosition f = 0 /\ header_ok (hdr f) /\ file_bytes (hdr f) d = c /\
      forall d', disk_ok d' -> (forall s, s ∉ used (hdr f) -> Files.sector d' s = Files.sector d s) ->
        fs_ok fs d' /\ files fs d' = <[key nm := file_bytes (hdr f) d']> (files fs d)
  end.
Proof.
  intros Hnm. pose proof HF as [Hd Hsm Hsd Hf Hn Ho Hr Hm].
  destruct (Find_name fs d HF (garbage 0%nat) nm Hnm) as (Hfe & HD & Hfi & Hl). unfold Open. rewrite Hfe. cbn [rbind].
  rewrite Hfi, Hl. cbn [rbind]. destruct (list_find (uses (key nm)) (table_of fs d)) as [[i e]|] eqn:Hfd; [|by rewrite decide_False by lia].
  destruct (found_live fs d nm i e Hfd) as (Hi & He & Hk & Hu). destruct (live_owned fs d HF e He) as (HH & Hse & _ & Hnsys).
  rewrite decide_True by lia. rewrite OpenFile_new_ok by done. cbn [rbind]. eexists. split; [reflexivity|]. cbn [hdr seekPosition].
  split_and!; try done. intros d' Hd' Hfr. destruct (live_split e He) as (r & Hp & Hsub & Hdis & Hfl).
  assert (forall x, x ∈ used (header_at d (sector e)) -> x ∈ file_sectors d e) as Hin by (intros x Hx; by apply elem_of_cons; right).
  assert (forall x, x ∈ system_sectors fs -> Files.sector d' x = Files.sector d x) as Hsys.
  { intros x Hx. apply Hfr. intros Hx'. by apply (Hnsys x (Hin x Hx')). }
  assert (table_of fs d' = table_of fs d) as Ht by (apply table_frame; intros x Hx; apply Hsys, in_system; tauto).
  assert (map_of fs d' = map_of fs d) as Hmp by (apply map_frame; intros x Hx; apply Hsys, in_system; tauto).
  assert (forall x, x ∈ r -> header_at d' (sector x) = header_at d (sector x) /\ file_sectors d' x = file_sectors d x /\
    contents d' x = contents d x) as Hold.
  { intros x Hx. apply file_frame. intros y Hy. apply Hfr. intros Hy'. by apply (Hdis x y Hx Hy), Hin. }
  assert (header_at d' (sector e) = header_at d (sector e)) as Heh.
  { unfold header_at. rewrite Hfr; [done|]. intros Hse'. pose proof Ho as Hnd.
    rewrite (owned_split fs d d _ r e Hp (fun _ _ => eq_refl)) in Hnd. unfold file_sectors in Hnd. cbn [app] in Hnd.
    apply NoDup_cons in Hnd as [Hnd _]. by apply not_elem_of_app in Hnd as [? _]. }
  assert (owned fs d' (table_of fs d') ≡ₚ owned fs d (table_of fs d)) as Hown.
  { rewrite Ht. rewrite (owned_split fs d' d _ r e Hp) by (intros x Hx; symmetry; by apply Hold).
    rewrite (owned_split fs d d _ r e Hp (fun _ _ => eq_refl)). unfold file_sectors at 1. by rewrite Heh. }
  split.
  - apply (fs_ok_after fs d d' (owned fs d (table_of fs d)) HF Hd'); rewrite ?Hmp; try done; try (by rewrite Ht).
    + intros x Hx. apply Hsys, in_system. apply elem_of_cons in Hx as [->|Hx]; [by left|].
      apply list_elem_of_singleton in Hx as ->. by right; left.
    + rewrite Ht, Hp. rewrite Hp in Hf. apply Forall_cons in Hf as [Hfe' Hf]. constructor; [by rewrite Heh|].
      eapply Forall_impl_in; [exact Hf|]. intros x Hx Hxh. by rewrite (proj1 (Hold x Hx)).
  - rewrite Hfl, <-Hk, insert_insert_eq. unfold files. rewrite Ht, (view_perm _ _ _ Hn Hp). cbn [fmap list_fmap list_to_map foldr].
    rewrite <-Heh. change (file_bytes (header_at d' (sector e)) d') with (contents d' e). cbn [fst snd]. f_equal. f_equal.
    apply list_fmap_ext. intros j x Hx. f_equal. by apply Hold; eapply list_elem_of_lookup_2.
Qed.
End Update.

(** ** Starting: a formatted disk, and one that was used before *)

Lemma Directory_new_live garbage : live (table (Directory_new garbage NumDirEntries)) = [].
Proof.
  unfold Directory_new. cbn [table]. generalize (bytes_table (Z.to_nat NumDirEntries) (garbage <$> seq 0 (Z.to_nat (NumDirEntries * entry_size)))).
  intros l. induction l as [|e l IH]; [done|]. cbn [fmap list_fmap]. rewrite live_cons. cbn [inUse app]. exact IH.
Qed.

Lemma system_sizes : (0 <= FreeMapFileSize <= MaxFileSize) /\ (0 <= DirectoryFileSize <= MaxFileSize) /\
  divRoundUp FreeMapFileSize SectorSize = 1 /\ divRoundUp DirectoryFileSize SectorSize = 2.
Proof. by vm_compute. Qed.

(** The bitmap and the headers of a fresh file system. *)
Lemma format_allocates b0 g1 g2 : rep b0 (replicate (Z.to_nat NumSectors) false) -> exists b1 b2 h1 b3 h2 b4, Mark b0 FreeMapSector = Ok b1 /\ Mark b1 DirectorySector = Ok b2 /\
  Allocate (Header_new g1) b2 FreeMapFileSize = Ok (h1, b3, true) /\ header_ok h1 /\ numBytes h1 = FreeMapFileSize /\
  Allocate (Header_new g2) b3 DirectoryFileSize = Ok (h2, b4, true) /\ header_ok h2 /\ numBytes h2 = DirectoryFileSize /\
  exists l, rep b4 l /\ Z.of_nat (length l) = NumSectors /\
    NoDup (used h2 ++ used h1 ++ [DirectorySector; FreeMapSector]) /\ marks l (used h2 ++ used h1 ++ [DirectorySector; FreeMapSector]).
Proof.
  intros Hr0. destruct system_sizes as (_ & _ & Hd1 & Hd2).
  assert (exists l0, l0 = replicate (Z.to_nat NumSectors) false) as [l0 El0] by eauto. rewrite <-El0 in Hr0.
  assert (Z.of_nat (length l0) = NumSectors) as Hl0 by (rewrite El0, length_replicate; by apply Z2Nat.id).
  assert (marks l0 []) as H0.
  { intros s Hs. rewrite El0, lookup_replicate_2 by (apply Z2Nat.inj_lt; lia). rewrite bool_decide_eq_false_2; [done|]. by intros ?%elem_of_nil. }
  clear El0.
  destruct (Mark_rep b0 l0 FreeMapSector Hr0) as (b1 & Hb1 & Hr1); [rewrite Hl0; unfold FreeMapSector, NumSectors; lia|].
  destruct (Mark_rep b1 _ DirectorySector Hr1) as (b2 & Hb2 & Hr2); [rewrite length_insert, Hl0; unfold DirectorySector, NumSectors; lia|].
  change (<[Z.to_nat DirectorySector := true]> (<[Z.to_nat FreeMapSector := true]> l0)) with (set_bits true [FreeMapSector; DirectorySector] l0) in Hr2.
  set (sys := [DirectorySector; FreeMapSector]). set (l2 := set_bits true _ l0) in *.
  assert (Forall (fun s => 0 <= s < NumSectors) sys /\ NoDup sys) as [Hsr Hsn].
  { split; [by repeat constructor|]. unfold sys. apply NoDup_cons. split; [|apply NoDup_singleton]. by intros ?%list_elem_of_singleton. }
  assert (marks l2 sys) as Hm2.
  { eapply marks_perm; [apply (marks_add l0 [] [FreeMapSector; DirectorySector] Hl0 H0); by repeat constructor|]. apply Permutation_swap. }
  assert (Z.of_nat (length l2) = NumSectors) as Hl2 by (unfold l2; by rewrite set_bits_length).
  assert (forall l ss h, Z.of_nat (length l) = NumSectors -> marks l ss -> NoDup ss -> Forall (fun s => 0 <= s < NumSectors) ss -> header_ok h ->
    Forall (fun s => l !! Z.to_nat s = Some false) (used h) -> marks (set_bits true (used h) l) (used h ++ ss) /\ NoDup (used h ++ ss) /\
    Forall (fun s => 0 <= s < NumSectors) (used h ++ ss)) as Hstep.
  { intros l ss h Hl Hm Hnd Hr HH Hc. split; [apply marks_add; [done..|apply HH]|]. split; [|by apply Forall_app; split; [apply HH|]].
    apply NoDup_app. split; [apply HH|]. split; [|done]. intros x Hx.
    apply (marks_clear l ss x Hm Hr); [by apply (proj1 (Forall_forall _ _) (ho_range h HH))|by apply (proj1 (Forall_forall _ _) Hc)]. }
  destruct (Allocate_ok (BA := BitMap_allocator) (Header_new g1) b2 l2 FreeMapFileSize Hr2 Hl2 (Header_new_table _)) as (h1 & b3 & Ha1 & HH1 & Hn1 & Hc1 & Hr3);
    [apply system_sizes|rewrite (count_clear_marks l2 sys Hl2 Hm2 Hsn Hsr), Hd1; unfold sys, NumSectors; cbn [length]; lia|].
  destruct (Hstep l2 sys h1 Hl2 Hm2 Hsn Hsr HH1 Hc1) as (Hm3 & Hnd3 & Hr3'). set (l3 := set_bits true (used h1) l2) in *.
  assert (Z.of_nat (length l3) = NumSectors) as Hl3 by (unfold l3; by rewrite set_bits_length).
  assert (length (used h1) = 1%nat) as Hu1 by (rewrite used_length, (ho_sectors h1 HH1), Hn1, Hd1 by exact HH1; reflexivity).
  destruct (Allocate_ok (BA := BitMap_allocator) (Header_new g2) b3 l3 DirectoryFileSize Hr3 Hl3 (Header_new_table _)) as (h2 & b4 & Ha2 & HH2 & Hn2 & Hc2 & Hr4);
    [apply system_sizes|rewrite (count_clear_marks l3 _ Hl3 Hm3 Hnd3 Hr3'), length_app, Hu1, Hd2; unfold sys, NumSectors; cbn [length]; lia|].
  destruct (Hstep l3 _ h2 Hl3 Hm3 Hnd3 Hr3' HH2 Hc2) as (Hm4 & Hnd4 & _).
  exists b1, b2, h1, b3, h2, b4. split_and!; try done. exists (set_bits true (used h2) l3). split_and!; try done. by rewrite set_bits_length.
Qed.

Lemma format_ok garbage d : disk_ok d ->
  exists d' fs, FileSystem_new garbage true d = Ok (d', fs) /\ fs_ok fs d' /\ files fs d' = ∅.
Proof.
  intros Hd. unfold FileSystem_new.
  destruct (fresh_map (garbage 0%nat)) as (b0 & -> & Hr0 & _).
  destruct (format_allocates b0 (garbage 2%nat) (garbage 3%nat) Hr0) as
    (b1 & b2 & h1 & b3 & h2 & b4 & Hb1 & Hb2 & Ha1 & HH1 & Hn1 & Ha2 & HH2 & Hn2 & l & Hr4 & Hl & Hnd & Hm).
  cbn [rbind]. rewrite Hb1. cbn [rbind]. rewrite Hb2. cbn [rbind]. cbn in Ha1, Ha2. rewrite Ha1. cbn [rbind ASSERT]. rewrite Ha2.
  cbn [rbind ASSERT]. rewrite !Header_WriteBack_ok by done. cbn [rbind]. rewrite Header_WriteBack_ok by done. cbn [rbind].
  destruct (header_read_back h1 HH1) as (HH1' & [Hz1 Hu1] & Hl1). destruct (header_read_back h2 HH2) as (HH2' & [Hz2 Hu2] & Hl2).
  set (d2 := <[DirectorySector := header_bytes h2]> (<[FreeMapSector := header_bytes h1]> d)).
  assert (disk_ok d2) as Hd2 by (by apply disk_ok_write; [apply disk_ok_write|]).
  assert (header_at d2 FreeMapSector = bytes_header (header_bytes h1)) as Hat1
    by (unfold header_at, Files.sector, d2; by rewrite lookup_insert_ne, lookup_insert_eq).
  assert (header_at d2 DirectorySector = bytes_header (header_bytes h2)) as Hat2
    by (unfold header_at, Files.sector, d2; by rewrite lookup_insert_eq).
  rewrite !OpenFile_new_ok by done. cbn [rbind]. rewrite Hat1, Hat2.
  set (fs := mkFileSystem (mkOpenFile (bytes_header (header_bytes h1)) 0) (mkOpenFile (bytes_header (header_bytes h2)) 0)).
  assert (system_file (freeMapFile fs) FreeMapFileSize FreeMapSector d2) as Hsm2.
  { split; cbn [hdr freeMapFile fs]; [done|by rewrite Hz1|by rewrite Hat1; split; [|split]]. }
  assert (system_file (directoryFile fs) DirectoryFileSize DirectorySector d2) as Hsd2.
  { split; cbn [hdr directoryFile fs]; [done|by rewrite Hz2|by rewrite Hat2; split; [|split]]. }
  assert (forall x, x ∈ [DirectorySector; FreeMapSector] -> (x ∉ used (hdr (freeMapFile fs))) /\ (x ∉ used (hdr (directoryFile fs)))) as Hsys.
  { intros x Hx. cbn [hdr freeMapFile directoryFile fs]. rewrite Hu1, Hu2. apply NoDup_app in Hnd as (_ & Hd1 & Hnd).
    apply NoDup_app in Hnd as (_ & Hd0 & _). split; intros Hin; [by apply (Hd0 x Hin)|].
    apply (Hd1 x Hin). apply elem_of_app. by right. }
  assert (forall x, x ∈ used (hdr (freeMapFile fs)) -> x ∉ used (hdr (directoryFile fs))) as Hdis.
  { cbn [hdr freeMapFile directoryFile fs]. rewrite Hu1, Hu2. intros x Hx Hx'. apply NoDup_app in Hnd as (_ & Hd1 & _).
    apply (Hd1 x Hx'). apply elem_of_app. by left. }
  destruct (BitMap_WriteBack_ok (garbage 4%nat) b4 l fs d2 Hsm2 Hd2 Hr4 Hl) as (d3 & Hw3 & Hd3 & Hb3 & Hfr3).
  change (BitMap_WriteBack (garbage 4%nat) b4 (mkOpenFile (bytes_header (header_bytes h1)) 0) d2) with
    (BitMap_WriteBack (garbage 4%nat) b4 (freeMapFile fs) d2). rewrite Hw3. cbn [rbind].
  assert (forall x, x ∈ [DirectorySector; FreeMapSector] -> Files.sector d3 x = Files.sector d2 x) as Hsys3
    by (intros x Hx; by apply Hfr3, Hsys).
  assert (system_file (directoryFile fs) DirectoryFileSize DirectorySector d3) as Hsd3.
  { eapply system_kept; [|exact Hsd2]. apply Hsys3. by apply elem_of_cons; left. }
  pose proof (Directory_new_ok (garbage 1%nat)) as HD. set (dir := Directory_new (garbage 1%nat) NumDirEntries) in *.
  destruct (Directory_WriteBack_ok (garbage 5%nat) fs d3 (table dir) Hsd3 Hd3 HD) as (d' & Hw4 & Hd' & Ht & Hfr4).
  change (Directory.WriteBack (garbage 5%nat) dir (hdr (mkOpenFile (bytes_header (header_bytes h2)) 0)) d3) with
    (Directory.WriteBack (garbage 5%nat) (mkDirectory NumDirEntries (table dir)) (hdr (directoryFile fs)) d3). rewrite Hw4. cbn [rbind].
  exists d', fs. split; [done|].
  assert (forall x, x ∈ [DirectorySector; FreeMapSector] -> Files.sector d' x = Files.sector d2 x) as Hsys4
    by (intros x Hx; rewrite Hfr4 by (by apply Hsys); by apply Hsys3).
  assert (live (table_of fs d') = []) as Hlive by (rewrite Ht; apply Directory_new_live).
  assert (owned fs d' (table_of fs d') ≡ₚ used h2 ++ used h1 ++ [DirectorySector; FreeMapSector]) as Hown.
  { unfold owned. rewrite Hlive. cbn [mbind list_bind]. rewrite app_nil_r. unfold system_sectors. cbn [hdr freeMapFile directoryFile fs].
    rewrite Hu1, Hu2. rewrite app_assoc, (Permutation_app_comm (used h2)). rewrite (Permutation_app_comm (used h1 ++ used h2)).
    apply Permutation_swap. }
  split.
  - split; try done.
    + eapply system_kept; [|exact Hsm2]. apply Hsys4. by apply elem_of_cons; right; apply elem_of_cons; left.
    + eapply system_kept; [|exact Hsd2]. apply Hsys4. by apply elem_of_cons; left.
    + rewrite Hlive. constructor.
    + unfold keys. rewrite Hlive. constructor.
    + by rewrite Hown.
    + rewrite Hown, !Forall_app. split_and!; [apply HH2|apply HH1|by repeat constructor].
    + intros s Hs. replace (map_of fs d') with (map_of fs d3) by (symmetry; apply map_frame; intros x Hx; apply Hfr4; by apply Hdis).
      rewrite Hb3. by apply (marks_perm _ _ _ Hm (symmetry Hown)).
  - unfold files, view. by rewrite Hlive.
Qed.

Lemma mount_ok garbage fs d : fs_ok fs d ->
  exists fs', FileSystem_new garbage false d = Ok (d, fs') /\ fs_ok fs' d /\ files fs' d = files fs d.
Proof.
  intros HF. pose proof HF as [Hd Hsm Hsd Hf Hn Ho Hr Hm]. unfold FileSystem_new. rewrite !OpenFile_new_ok by done. cbn [rbind].
  set (fs' := mkFileSystem _ _). destruct Hsm as [_ Hz1 [HH1 Hs1]], Hsd as [_ Hz2 [HH2 Hs2]]. exists fs'. split; [done|].
  assert (table_of fs' d = table_of fs d) as Ht by (unfold table_of; f_equal; by apply same_file_bytes).
  assert (map_of fs' d = map_of fs d) as Hmp by (unfold map_of; do 2 f_equal; by apply same_file_bytes).
  assert (owned fs' d (table_of fs' d) = owned fs d (table_of fs d)) as Hown.
  { rewrite Ht. unfold owned, system_sectors. cbn [hdr freeMapFile directoryFile fs']. by rewrite (proj2 Hs1), (proj2 Hs2). }
  split; [|unfold files; by rewrite Ht].
  split; rewrite ?Hown, ?Hmp, ?Ht; try done.
  - split; cbn [hdr freeMapFile fs']; [done|by rewrite (proj1 Hs1)|by split; [|split]].
  - split; cbn [hdr directoryFile fs']; [done|by rewrite (proj1 Hs2)|by split; [|split]].
Qed.

(** ** One call refines one step of the map *)

Lemma exec_ok garbage fs d op : fs_ok fs d -> op_ok op ->
  exists d' o, exec garbage fs d op = Ok (d', o) /\ fs_ok fs d' /\ fs_spec (files fs d) op o (files fs d').
Proof.
  intros HF Hop. pose proof (fo_disk fs d HF) as Hd. destruct op as [nm size|nm|nm n pos|nm bytes pos]; cbn [op_ok exec] in *.
  - destruct Hop as [Hnm Hsz]. destruct (Create_ok fs d HF garbage nm size Hnm Hsz) as (d' & b & -> & Hb & HF' & Hv). cbn [rbind].
    exists d', (ODone b). split; [done|]. split; [done|]. destruct b.
    + destruct Hv as (c & Hc & ->). symmetry in Hb. apply bool_decide_eq_true in Hb. by apply spec_create.
    + subst d'. symmetry in Hb. apply bool_decide_eq_false in Hb. by apply spec_create_fails.
  - destruct (Remove_ok fs d HF garbage nm Hop) as (d' & b & -> & -> & HF' & Hv & _). cbn [rbind].
    do 2 eexists. split; [reflexivity|]. split; [done|]. rewrite Hv. apply spec_remove.
  - destruct Hop as (Hnm & Hp & Hn). pose proof (Open_ok fs d HF garbage nm Hnm) as Ho.
    pose proof (spec_read (files fs d) nm n pos) as Hs. destruct (files fs d !! key nm) as [c|].
    + destruct Ho as (f & -> & _ & HH & Hc & _). cbn [rbind]. unfold Files.Read, Seek. cbn [hdr seekPosition].
      rewrite ReadAt_ok by done. cbn [rbind]. do 2 eexists. split; [reflexivity|]. split; [done|]. by rewrite Hc.
    + rewrite Ho. cbn [rbind]. do 2 eexists. split; [reflexivity|]. split; [done|]. exact Hs.
  - destruct Hop as (Hnm & Hp & Hn). pose proof (Open_ok fs d HF garbage nm Hnm) as Ho.
    destruct (files fs d !! key nm) as [c|] eqn:Hk.
    + destruct Ho as (f & -> & _ & HH & Hc & Hfr). cbn [rbind]. unfold Files.Write, Seek. cbn [hdr seekPosition].
      destruct (WriteAt_ok (hdr f) HH (garbage 1%nat) d bytes (Z.of_nat (length bytes)) pos Hd Hp Hn) as (d' & -> & Hd' & Hb & Ho); [done|].
      cbn [rbind]. destruct (Hfr d' Hd' Ho) as [HF' Hv]. do 2 eexists. split; [reflexivity|]. split; [done|]. rewrite Hv, Hb, Hc.
      pose proof (file_bytes_length (hdr f) HH d Hd) as Hfl. rewrite Hc in Hfl. pose proof (ho_bytes _ HH). unfold clamp.
      replace (numBytes (hdr f)) with (Z.of_nat (length c)) by lia.
      replace (Z.to_nat (Z.min (Z.of_nat (length bytes)) (Z.of_nat (length c) - pos))) with
        (Z.to_nat (Z.max 0 (Z.min (Z.of_nat (length bytes)) (Z.of_nat (length c) - pos)))) by lia.
      by apply spec_write.
    + rewrite Ho. cbn [rbind]. do 2 eexists. split; [reflexivity|]. split; [done|]. by apply spec_write_fails.
Qed.

Lemma run_ok garbage fs d ops : fs_ok fs d -> Forall op_ok ops ->
  exists d' os, run garbage fs d ops = Ok (d', os) /\ fs_ok fs d' /\ fs_specs (files fs d) ops os (files fs d').
Proof.
  intros HF Hops. revert d HF. induction Hops as [|op ops Hop _ IH]; intros d HF; cbn [run].
  { exists d, []. split; [done|]. split; [done|constructor]. }
  destruct (exec_ok (garbage (length ops)) fs d op HF Hop) as (d1 & o & -> & HF1 & Hs). cbn [rbind].
  destruct (IH d1 HF1) as (d' & os & -> & HF' & Hss). cbn [rbind]. exists d', (o :: os). split; [done|]. split; [done|].
  by econstructor.
Qed.

(** * Properties *)

(** C2: the file system is a map from names to files. Formatting any disk
    gives the empty map, and from there, whatever fresh memory contains, every
    sequence of calls within the bounds of [op_ok] runs without a fault and
    answers what the map answers. The bounds: a file is created with at most
    [MaxFileSize] bytes (a larger one overruns the header, see
    [Create_overruns_header]), a name is terminated or has the nine characters
    that are compared, and position and length of an access have an [int] sum.
    [Create] adds a file of the given size exactly when the name is new, the
    directory has an entry and the disk the sectors; [Remove] deletes it;
    reads and writes transfer its bytes and no other file changes. The
    sectors of different files and of the system stay disjoint and the bitmap
    marks exactly those in use. Mounting the disk again finds the same files. *)
Theorem file_system_refines_map (garbage : nat -> nat -> nat -> Z) g1 g2 d0 ops : disk_ok d0 -> Forall op_ok ops ->
  exists d fs, FileSystem_new g1 true d0 = Ok (d, fs) /\ files fs d = ∅ /\
    exists d' os, run garbage fs d ops = Ok (d', os) /\ fs_ok fs d' /\ fs_specs ∅ ops os (files fs d') /\
      exists fs', FileSystem_new g2 false d' = Ok (d', fs') /\ fs_ok fs' d' /\ files fs' d' = files fs d'.
Proof.
  intros Hd Hops. destruct (format_ok g1 d0 Hd) as (d & fs & Hnew & HF & Hv). exists d, fs. split; [done|]. split; [done|].
  destruct (run_ok garbage fs d ops HF Hops) as (d' & os & Hr & HF' & Hs). rewrite Hv in Hs. exists d', os.
  split; [done|]. split; [done|]. split; [done|]. by apply mount_ok.
Qed.

(** C37: nothing limits the size of a file to what its header can describe.
    When the disk has the sectors, [Create] with more than [MaxFileSize] bytes
    makes [Allocate] write past the end of the table of the header. *)
Theorem Create_overruns_header garbage fs d nm size : fs_ok fs d -> readable (Z.to_nat FileNameMaxLen) nm ->
  MaxFileSize < size -> can_create (files fs d) (key nm) size -> Create garbage fs d nm size = Fault OutOfBounds.
Proof.
  intros HF Hnm Hsz Hc. destruct (Create_until_Allocate fs d HF garbage nm size Hnm) as [[Hc' _]|H];
    [unfold MaxFileSize, NumDirect, SectorSize in Hsz; lia|done|].
  destruct H as (i & e & s & nm' & b & _ & _ & _ & _ & _ & _ & _ & _ & Hb & Hcc & ->). destruct Hc as (_ & _ & Hfree).
  pose proof (Allocate_too_big (BA := BitMap_allocator) (Header_new (garbage 2%nat)) b _ size Hb (Header_new_table _) Hsz) as Ha.
  cbn in Ha. rewrite Ha by lia. done.
Qed.
End FileSystem.

(** ** Concrete instances *)

(** "ab" is created, written and read on a blank disk. *)
Definition demo_ops : list fs_op :=
  [OpCreate [97; 98; 0] 200; OpWrite [97; 98; 0] [1; 2; 3] 150; OpRead [97; 98; 0] 4 149; OpRemove [97; 98; 0]].
Definition demo_run : res (list fs_out) :=
  let* '(d, fs) := FileSystem_new (fun _ _ => 7) true ∅ in
  let* '(_, os) := run (fun _ _ _ => 7) fs d demo_ops in Ok os.

Lemma blank_disk_ok : disk_ok ∅.
Proof. intros n. unfold Files.sector. by rewrite lookup_empty. Qed.

Lemma demo_name_readable : readable (Z.to_nat FileNameMaxLen) [97; 98; 0].
Proof. left. unfold terminated. set_solver. Qed.

Lemma file_system_refines_map_witness :
  demo_run = Ok [ODone true; OWrite (Some 3); ORead (Some [0; 1; 2; 3]); ODone true] /\
  exists m, fs_specs ∅ demo_ops [ODone true; OWrite (Some 3); ORead (Some [0; 1; 2; 3]); ODone true] m.
Proof.
  assert (demo_run = Ok [ODone true; OWrite (Some 3); ORead (Some [0; 1; 2; 3]); ODone true]) as Hdemo by (by vm_compute).
  split; [exact Hdemo|]. pose proof demo_name_readable as Hnm.
  destruct (file_system_refines_map (fun _ _ _ => 7) (fun _ _ => 7) (fun _ _ => 7) ∅ demo_ops blank_disk_ok) as (d & fs & Hn & _ & d' & os & Hr & _ & Hs & _).
  { repeat constructor; try done; by vm_compute. }
  unfold demo_run in Hdemo. rewrite Hn in Hdemo. cbn [rbind] in Hdemo. rewrite Hr in Hdemo. injection Hdemo as <-. eauto.
Defined.

Lemma Create_overruns_header_witness : exists d fs,
  FileSystem_new (fun _ _ => 7) true ∅ = Ok (d, fs) /\ Create (fun _ _ => 7) fs d [97; 98; 0] 4000 = Fault OutOfBounds.
Proof.
  destruct (format_ok (fun _ _ => 7) ∅ blank_disk_ok) as (d & fs & Hn & HF & Hv). exists d, fs. split; [exact Hn|].
  apply (Create_overruns_header (fun _ _ => 7) fs d [97; 98; 0] 4000 HF demo_name_readable); [reflexivity|].
  rewrite Hv. clear Hn. unfold can_create. rewrite lookup_empty. split; [done|]. by vm_compute.
Defined.
