(* ===== verification/FsTools.v ===== *)
(** * filesys/fstest.cc: copying, printing and timing files

    The three commands of the kernel's command line that exercise the file
    system: [Copy] brings a UNIX file onto the disk, [Print] shows a file, and
    [PerformanceTest] writes and reads a large file. They are clients of
    FileSys and Files: every transfer is at most ten bytes. What they print is
    a list of [said]; a UNIX file is the list of its bytes. *)
From S2P Require Import Prelude CStrings Machine Files Directory FileSys.

Definition TransferSize : Z := 10.

(** One constructor for each [printf]. *)
Inductive said :=
  | CopyNoInput | CopyNoOutput | PrintNoFile | Char (c : Z)
  | TestStart | Stats | WriteStart | NoCreate | NoOpen | NoWrite
  | ReadStart | NoOpenRead | NoRead | NoRemove.

#[global] Instance said_eq_dec : EqDecision said.
Proof. solve_decision. Defined.

Section Tools.
  Context `{HO : HostOrder}.

(** [fread(buffer, 1, TransferSize, fp)]: what it reads and what is left. *)
Definition fread (fp : list Z) : list Z * list Z := (take (Z.to_nat TransferSize) fp, drop (Z.to_nat TransferSize) fp).

(** [while ((amountRead = fread(...)) > 0) openFile->Write(buffer, amountRead);] *)
Fixpoint copy_loop (fuel : nat) (garbage : nat -> nat -> Z) (f : OpenFile) (d : disk) (fp : list Z) : res (OpenFile * disk) :=
  let '(buffer, fp) := fread fp in
  let amountRead := Z.of_nat (length buffer) in
  if bool_decide (amountRead > 0) then
    match fuel with
    | O => Fault OutOfFuel
    | S fuel' =>
        let* '(f, d, _) := Files.Write (garbage fuel') f d buffer amountRead in
        copy_loop fuel' garbage f d fp
    end
  else Ok (f, d).

(** [from] is the UNIX file, when there is one. *)
Definition Copy (g1 g2 g3 : nat -> nat -> Z) (fs : FileSystem) (d : disk) (from : option (list Z)) (to : list Z) : res (disk * list said) :=
  match from with
  | None => Ok (d, [CopyNoInput])
  | Some fp =>
      let fileLength := Z.of_nat (length fp) in
      let* '(d, ok) := Create g1 fs d to fileLength in
      if negb ok then Ok (d, [CopyNoOutput])
      else
        let* openFile := Open g2 fs d to in
        match openFile with
        | None => Fault AssertFail
        | Some f => let* '(_, d) := copy_loop (length fp) g3 f d fp in Ok (d, [])
        end
  end.

(** [while ((amountRead = openFile->Read(buffer, TransferSize)) > 0)] *)
Fixpoint print_loop (fuel : nat) (f : OpenFile) (d : disk) : res (list said) :=
  let* '(f, buffer) := Files.Read f d TransferSize in
  if bool_decide (Z.of_nat (length buffer) > 0) then
    match fuel with
    | O => Fault OutOfFuel
    | S fuel' => let* r := print_loop fuel' f d in Ok ((Char <$> buffer) ++ r)
    end
  else Ok [].

(** The fuel is a round per byte of the file, and more than enough. *)
Definition Print (g : nat -> nat -> Z) (fs : FileSystem) (d : disk) (name : list Z) : res (list said) :=
  let* openFile := Open g fs d name in
  match openFile with
  | None => Ok [PrintNoFile]
  | Some f => print_loop (Z.to_nat (Files.Length f)) f d
  end.

(** ** The performance test *)

(** "TestFile" with its NUL, and "1234567890". *)
Definition FileName : list Z := [84; 101; 115; 116; 70; 105; 108; 101; 0].
Definition Contents : list Z := [49; 50; 51; 52; 53; 54; 55; 56; 57; 48].
Definition ContentSize : Z := Z.of_nat (length Contents).
Definition FileSize : Z := ContentSize * 5000.

(** [n] rounds of the [for] loops are left. *)
Fixpoint write_loop (n : nat) (garbage : nat -> nat -> Z) (f : OpenFile) (d : disk) : res (disk * list said) :=
  match n with
  | O => Ok (d, [])
  | S n =>
      let* '(f, d, numBytes) := Files.Write (garbage n) f d Contents ContentSize in
      if bool_decide (numBytes < 10) then Ok (d, [NoWrite]) else write_loop n garbage f d
  end.

Definition FileWrite (g1 g2 g3 : nat -> nat -> Z) (fs : FileSystem) (d : disk) : res (disk * list said) :=
  let* '(d, ok) := Create g1 fs d FileName 0 in
  if negb ok then Ok (d, [WriteStart; NoCreate])
  else
    let* openFile := Open g2 fs d FileName in
    match openFile with
    | None => Ok (d, [WriteStart; NoOpen])
    | Some f =>
        let* '(d, out) := write_loop (Z.to_nat (FileSize / ContentSize)) g3 f d in
        Ok (d, WriteStart :: out)
    end.

(** [strncmp] is not called when fewer than ten bytes came. *)
Fixpoint read_loop (n : nat) (f : OpenFile) (d : disk) : res (list said) :=
  match n with
  | O => Ok []
  | S n =>
      let* '(f, buffer) := Files.Read f d ContentSize in
      let* bad := (if bool_decide (Z.of_nat (length buffer) < 10) then Ok true
                   else let* eq := strncmp_eq (Z.to_nat ContentSize) buffer Contents in Ok (negb eq)) in
      if bad : bool then Ok [NoRead] else read_loop n f d
  end.

Definition FileRead (g : nat -> nat -> Z) (fs : FileSystem) (d : disk) : res (list said) :=
  let* openFile := Open g fs d FileName in
  match openFile with
  | None => Ok [ReadStart; NoOpenRead]
  | Some f => let* out := read_loop (Z.to_nat (FileSize / ContentSize)) f d in Ok (ReadStart :: out)
  end.

(** [garbage k]: the fresh memory of the [k]-th call. *)
Definition PerformanceTest (garbage : nat -> nat -> nat -> Z) (fs : FileSystem) (d : disk) : res (disk * list said) :=
  let* '(d, o1) := FileWrite (garbage 0%nat) (garbage 1%nat) (garbage 2%nat) fs d in
  let* o2 := FileRead (garbage 3%nat) fs d in
  let* '(d, ok) := FileSys.Remove (garbage 4%nat) fs d FileName in
  Ok (d, TestStart :: Stats :: o1 ++ o2 ++ [if ok : bool then Stats else NoRemove]).

(** * Lemmas *)

(** A file that [Open] returned: its bytes, and what a change to them does. *)
Definition opened (fs : FileSystem) (d : disk) (nm c : list Z) (f : OpenFile) : Prop :=
  disk_ok d /\ header_ok (hdr f) /\ file_bytes (hdr f) d = c /\
  forall d', disk_ok d' -> (forall s, s ∉ used (hdr f) -> Files.sector d' s = Files.sector d s) ->
    fs_ok fs d' /\ files fs d' = <[key nm := file_bytes (hdr f) d']> (files fs d).

Lemma Open_opened fs d g nm c : fs_ok fs d -> readable (Z.to_nat FileNameMaxLen) nm -> files fs d !! key nm = Some c ->
  exists f, Open g fs d nm = Ok (Some f) /\ seekPosition f = 0 /\ opened fs d nm c f.
Proof.
  intros HF Hnm Hk. pose proof (Open_ok fs d HF g nm Hnm) as H. rewrite Hk in H. destruct H as (f & Ho & Hs & HH & Hb & Hfr).
  exists f. split; [done|]. split; [done|]. by split; [apply HF|].
Qed.

Lemma Open_none fs d g nm : fs_ok fs d -> readable (Z.to_nat FileNameMaxLen) nm -> files fs d !! key nm = None ->
  Open g fs d nm = Ok None.
Proof. intros HF Hnm Hk. pose proof (Open_ok fs d HF g nm Hnm) as H. by rewrite Hk in H. Qed.

Lemma opened_size fs d nm c f : opened fs d nm c f -> Z.of_nat (length c) = numBytes (hdr f) /\ Z.of_nat (length c) <= MaxFileSize.
Proof.
  intros (Hd & HH & <- & _). pose proof (ho_bytes _ HH). rewrite file_bytes_length by done. lia.
Qed.

(** One transfer at the position of the file. *)
Lemma opened_read fs d nm c h p n : opened fs d nm c (mkOpenFile h p) -> 0 <= p <= MaxFileSize -> 0 <= n <= 10 ->
  let bs := take (Z.to_nat n) (drop (Z.to_nat p) c) in
  Files.Read (mkOpenFile h p) d n = Ok (mkOpenFile h (p + Z.of_nat (length bs)), bs).
Proof.
  intros (Hd & HH & Hb & _) Hp Hn bs. unfold MaxFileSize, NumDirect, SectorSize in *. unfold Files.Read. cbn [hdr seekPosition] in *.
  rewrite ReadAt_ok by (done || lia). cbn [rbind]. by rewrite Hb.
Qed.

Lemma opened_write fs d nm c h p g bs : opened fs d nm c (mkOpenFile h p) -> 0 <= p -> Z.of_nat (length bs) <= 10 ->
  p + Z.of_nat (length bs) <= Z.of_nat (length c) ->
  exists d', Files.Write g (mkOpenFile h p) d bs (Z.of_nat (length bs)) = Ok (mkOpenFile h (p + Z.of_nat (length bs)), d', Z.of_nat (length bs)) /\
    opened fs d' nm (splice c (Z.to_nat p) bs) (mkOpenFile h (p + Z.of_nat (length bs))) /\
    files fs d' = <[key nm := splice c (Z.to_nat p) bs]> (files fs d).
Proof.
  intros HO' Hp Hn Hc. destruct (opened_size _ _ _ _ _ HO') as [Hs Hm]. destruct HO' as (Hd & HH & Hb & Hfr).
  unfold MaxFileSize, NumDirect, SectorSize in *. cbn [hdr] in *. unfold Files.Write. cbn [hdr seekPosition].
  destruct (WriteAt_ok h HH g d bs (Z.of_nat (length bs)) p Hd Hp) as (d' & -> & Hd' & Hb' & Ho); [lia|lia|].
  assert (clamp h (Z.of_nat (length bs)) p = Z.of_nat (length bs)) as Hcl by (unfold clamp; lia). rewrite Hcl in *.
  rewrite Z.max_r by lia. cbn [rbind]. rewrite take_ge in Hb' by lia. rewrite Hb in Hb'.
  exists d'. split; [done|]. destruct (Hfr d' Hd' Ho) as [HF Hv]. rewrite Hb' in Hv. split; [|done].
  split; [done|]. split; [done|]. split; [done|]. cbn [hdr]. intros d2 Hd2 Ho2.
  destruct (Hfr d2 Hd2) as [HF2 Hv2]; [intros s Hs'; by rewrite Ho2, Ho|]. split; [done|]. by rewrite Hv2, Hv, insert_insert_eq.
Qed.

Lemma fread_length fp : Z.of_nat (length (fread fp).1) <= 10 /\ (fread fp).1 ++ (fread fp).2 = fp.
Proof. cbn. unfold TransferSize. rewrite length_take, take_drop. split; [lia|done]. Qed.

(** The bytes read so far are at the start of the copy. *)
Lemma copy_loop_ok fs nm h g fuel d p c fp : fs_ok fs d -> opened fs d nm c (mkOpenFile h p) -> files fs d !! key nm = Some c ->
  p + Z.of_nat (length fp) = Z.of_nat (length c) -> 0 <= p -> (length fp <= fuel)%nat ->
  exists f d', copy_loop fuel g (mkOpenFile h p) d fp = Ok (f, d') /\ fs_ok fs d' /\
    files fs d' = <[key nm := take (Z.to_nat p) c ++ fp]> (files fs d).
Proof.
  revert d p c fp. induction fuel as [|fuel IH]; intros d p c fp HF HO' Hk Hlen Hp Hfu; cbn [copy_loop fread].
  all: destruct (fread_length fp) as [Hl10 Hsplit]; cbn [fst snd fread] in Hl10, Hsplit.
  all: case_bool_decide as Hn.
  - rewrite length_take in Hn. lia.
  - destruct fp as [|x fp]; [|cbn in Hfu; lia]. do 2 eexists. split; [done|]. split; [done|].
    rewrite app_nil_r, take_ge by (cbn in Hlen; lia). by rewrite insert_id.
  - set (bs := take (Z.to_nat TransferSize) fp) in *. set (fp' := drop (Z.to_nat TransferSize) fp) in *.
    assert (length fp = length bs + length fp')%nat as Hlf by (rewrite <-length_app; by rewrite Hsplit).
    destruct (opened_write fs d nm c h p (g fuel) bs HO' Hp) as (d1 & -> & HO1 & Hv1); [lia|lia|]. cbn [rbind].
    set (c1 := splice c (Z.to_nat p) bs) in *.
    assert (length c1 = length c /\ take (Z.to_nat (p + Z.of_nat (length bs))) c1 = take (Z.to_nat p) c ++ bs) as [Hc1 Ht1].
    { unfold c1, splice. rewrite !length_app, length_take, length_drop. split; [lia|].
      rewrite app_assoc, take_app_le, take_ge; [done|..]; rewrite length_app, length_take; lia. }
    assert (fs_ok fs d1) as HF1 by (destruct HO1 as (Hd1 & _ & _ & Hfr); by apply (Hfr d1 Hd1)).
    destruct (IH d1 (p + Z.of_nat (length bs)) c1 fp' HF1 HO1) as (f & d' & -> & HF' & Hv').
    + by rewrite Hv1, lookup_insert_eq.
    + lia.
    + lia.
    + lia.
    + exists f, d'. split; [done|]. split; [done|]. by rewrite Hv', Hv1, insert_insert_eq, Ht1, <-app_assoc, Hsplit.
  - assert (fp = []) as -> by (rewrite length_take in Hn; unfold TransferSize in Hn; destruct fp; [done|cbn [length] in Hn; lia]). do 2 eexists. split; [done|]. split; [done|].
    rewrite app_nil_r, take_ge by (cbn in Hlen; lia). by rewrite insert_id.
Qed.

Lemma print_loop_ok fs d nm c h fuel p : opened fs d nm c (mkOpenFile h p) -> 0 <= p <= Z.of_nat (length c) ->
  Z.of_nat (length c) - p <= Z.of_nat fuel -> print_loop fuel (mkOpenFile h p) d = Ok (Char <$> drop (Z.to_nat p) c).
Proof.
  revert p. induction fuel as [|fuel IH]; intros p HO' Hp Hfu; cbn [print_loop];
    destruct (opened_size _ _ _ _ _ HO') as [_ Hmx]; rewrite (opened_read fs d nm c) by (done || unfold TransferSize; lia); cbn [rbind];
    set (bs := take (Z.to_nat TransferSize) (drop (Z.to_nat p) c));
    assert (Z.of_nat (length bs) = Z.min 10 (Z.of_nat (length c) - p)) as Hbs
      by (unfold bs, TransferSize; rewrite length_take, length_drop; lia); case_bool_decide as Hn; try lia.
  - by rewrite drop_ge by lia.
  - rewrite IH by (done || lia). cbn [rbind]. f_equal. rewrite <-fmap_app. f_equal.
    rewrite <-(take_drop (Z.to_nat TransferSize) (drop (Z.to_nat p) c)) at 1. fold bs. f_equal. rewrite drop_drop.
    destruct (decide (10 <= Z.of_nat (length c) - p)).
    + f_equal. unfold TransferSize. lia.
    + rewrite !drop_ge by (unfold TransferSize; lia). done.
  - by rewrite drop_ge by lia.
Qed.

(** The rounds of the performance test end early on a file that is too short. *)
Lemma read_loop_stops fs d nm c h n p : opened fs d nm c (mkOpenFile h p) -> 0 <= p <= Z.of_nat (length c) ->
  Z.of_nat (length c) - p < 10 * Z.of_nat n -> read_loop n (mkOpenFile h p) d = Ok [NoRead].
Proof.
  revert p. induction n as [|n IH]; intros p HO' Hp Hn; [lia|]. cbn [read_loop].
  destruct (opened_size _ _ _ _ _ HO') as [_ Hmx]. rewrite (opened_read fs d nm c) by (done || (cbn; lia)). cbn [rbind].
  set (bs := take (Z.to_nat ContentSize) (drop (Z.to_nat p) c)).
  assert (Z.of_nat (length bs) = Z.min 10 (Z.of_nat (length c) - p)) as Hbs
    by (unfold bs; rewrite length_take, length_drop; change (Z.to_nat ContentSize) with 10%nat; lia).
  case_bool_decide as Hs; [done|].
  rewrite strncmp_eq_spec by (right; change (Z.to_nat ContentSize) with 10%nat; cbn [length Contents]; lia). cbn [rbind].
  case_bool_decide; cbn [negb]; [|done]. apply IH; [done|lia|lia].
Qed.

Lemma write_loop_empty fs d nm h n g : opened fs d nm [] (mkOpenFile h 0) -> (0 < n)%nat ->
  exists d', write_loop n g (mkOpenFile h 0) d = Ok (d', [NoWrite]) /\ fs_ok fs d' /\ files fs d' = <[key nm := []]> (files fs d).
Proof.
  intros HO' Hn. destruct n as [|n]; [lia|]. cbn [write_loop]. destruct (opened_size _ _ _ _ _ HO') as [Hs _]. cbn [length hdr] in Hs.
  destruct HO' as (Hd & HH & Hb & Hfr). cbn [hdr] in *. unfold Files.Write. cbn [hdr seekPosition].
  destruct (WriteAt_ok h HH (g n) d Contents ContentSize 0 Hd) as (d' & -> & Hd' & Hb' & Ho); [done..|]. cbn [rbind].
  unfold clamp in *. rewrite bool_decide_eq_true_2 by (cbn; lia). exists d'. split; [done|]. destruct (Hfr d' Hd' Ho) as [HF Hv].
  split; [done|]. rewrite Hv, Hb', Hb. unfold splice. rewrite take_nil, drop_nil, app_nil_r. cbn [app].
  replace (Z.to_nat (Z.min ContentSize (numBytes h - 0))) with 0%nat by (cbn; lia). done.
Qed.

Lemma FileName_readable : readable (Z.to_nat FileNameMaxLen) FileName.
Proof. left. unfold terminated. by apply (bool_decide_unpack (0 ∈ FileName)). Qed.

(** What [FileWrite] leaves: the file is there with the old contents, or empty,
    or it was not there and could not be created. *)
Lemma FileWrite_ok fs d g1 g2 g3 : fs_ok fs d -> let m := files fs d in
  exists d' o, FileWrite g1 g2 g3 fs d = Ok (d', WriteStart :: [o]) /\ fs_ok fs d' /\
    if bool_decide (can_create m (key FileName) 0) then o = NoWrite /\ files fs d' = <[key FileName := []]> m
    else o = NoCreate /\ files fs d' = m.
Proof.
  intros HF m. unfold FileWrite.
  destruct (Create_ok fs d HF g1 FileName 0 FileName_readable) as (d1 & b & -> & -> & HF1 & Hv); [done|]. cbn [rbind].
  fold m in Hv |- *. destruct (bool_decide (can_create m (key FileName) 0)); cbn [negb].
  - destruct Hv as (c & Hc & Hv). assert (c = []) as -> by (destruct c; [done|cbn in Hc; lia]).
    destruct (Open_opened fs d1 g2 FileName [] HF1 FileName_readable) as ([h p] & -> & Hp & HO'); [by rewrite Hv, lookup_insert_eq|].
    cbn in Hp. subst p. cbn [rbind].
    destruct (write_loop_empty fs d1 FileName h (Z.to_nat (FileSize / ContentSize)) g3 HO') as (d' & -> & HF' & Hv'); [by apply Nat.ltb_lt; vm_compute|].
    cbn [rbind]. exists d', NoWrite. split_and!; try done. by rewrite Hv', Hv, insert_insert_eq.
  - subst d1. exists d, NoCreate. by split_and!.
Qed.

Lemma FileRead_ok fs d g : fs_ok fs d ->
  FileRead g fs d = Ok (ReadStart :: [if files fs d !! key FileName is Some _ then NoRead else NoOpenRead]).
Proof.
  intros HF. unfold FileRead. destruct (files fs d !! key FileName) as [c|] eqn:Hk.
  - destruct (Open_opened fs d g FileName c HF FileName_readable Hk) as ([h p] & -> & Hp & HO'). cbn in Hp. subst p. cbn [rbind].
    destruct (opened_size _ _ _ _ _ HO') as [_ Hmx].
    rewrite (read_loop_stops fs d FileName c h _ 0 HO') by (change (Z.of_nat (Z.to_nat (FileSize / ContentSize))) with 5000; unfold MaxFileSize, NumDirect, SectorSize in Hmx; lia).
    done.
  - by rewrite (Open_none fs d g FileName HF FileName_readable Hk).
Qed.

(** * Properties *)

(** C9: [Copy] followed by [Print] shows the UNIX file, for files of at most
    [MaxFileSize] bytes ([Create] does not refuse larger ones and overruns the
    header, see [FileSys.Create_overruns_header]). When the name is new and
    the disk has the room, the copy succeeds silently, the file system then has
    exactly that one more file with the bytes of the UNIX file, every other file
    is untouched, and printing it gives these bytes. Otherwise [Copy] says so
    and changes nothing. *)
Theorem Copy_then_Print g1 g2 g3 g4 fs d fp nm : fs_ok fs d -> readable (Z.to_nat FileNameMaxLen) nm ->
  Z.of_nat (length fp) <= MaxFileSize ->
  exists d' out, Copy g1 g2 g3 fs d (Some fp) nm = Ok (d', out) /\ fs_ok fs d' /\
    if bool_decide (can_create (files fs d) (key nm) (Z.of_nat (length fp)))
    then out = [] /\ files fs d' = <[key nm := fp]> (files fs d) /\ Print g4 fs d' nm = Ok (Char <$> fp)
    else out = [CopyNoOutput] /\ d' = d.
Proof.
  intros HF Hnm Hsz. cbn [Copy].
  destruct (Create_ok fs d HF g1 nm (Z.of_nat (length fp)) Hnm) as (d1 & b & -> & -> & HF1 & Hv); [lia|]. cbn [rbind].
  destruct (bool_decide _); cbn [negb]; [|exists d, [CopyNoOutput]; by subst d1].
  destruct Hv as (c & Hc & Hv). assert (files fs d1 !! key nm = Some c) as Hk by (by rewrite Hv, lookup_insert_eq).
  destruct (Open_opened fs d1 g2 nm c HF1 Hnm Hk) as ([h p] & -> & Hp & HO'). cbn in Hp. subst p. cbn [rbind].
  destruct (copy_loop_ok fs nm h g3 (length fp) d1 0 c fp HF1 HO' Hk) as (f & d' & -> & HF' & Hv'); [lia..|]. cbn [rbind].
  rewrite take_0, Hv, insert_insert_eq in Hv'. cbn [app] in Hv'. exists d', []. split; [done|]. split; [done|]. split; [done|]. split; [done|].
  unfold Print. destruct (Open_opened fs d' g4 nm fp HF' Hnm) as ([h2 p2] & -> & Hp2 & HO2); [by rewrite Hv', lookup_insert_eq|].
  cbn in Hp2. subst p2. cbn [rbind]. destruct (opened_size _ _ _ _ _ HO2) as [Hs2 _]. cbn [hdr] in Hs2.
  rewrite (print_loop_ok fs d' nm fp h2) by (done || lia || (unfold Files.Length, FileLength; cbn [hdr]; lia)). by rewrite drop_0.
Qed.

(** the performance test never gets to its measurement. It creates its file
    with size 0, and a file never grows, so the first [Write] of ten bytes
    transfers none; and no file holds the 50000 bytes it wants to read back, so
    [FileRead] gives up too. Whatever the disk held, it reports a failure of the
    reading phase, and a file of that name is gone afterwards: even one that
    was there before. *)
Theorem PerformanceTest_always_fails g fs d : fs_ok fs d -> let m := files fs d in
  exists d' out, PerformanceTest g fs d = Ok (d', out) /\ fs_ok fs d' /\ files fs d' = delete (key FileName) m /\
    out = TestStart :: Stats :: WriteStart ::
      match m !! key FileName with
      | Some _ => [NoCreate; ReadStart; NoRead; Stats]
      | None => if bool_decide (can_create m (key FileName) 0) then [NoWrite; ReadStart; NoRead; Stats]
                else [NoCreate; ReadStart; NoOpenRead; NoRemove]
      end.
Proof.
  intros HF m. unfold PerformanceTest.
  destruct (FileWrite_ok fs d (g 0%nat) (g 1%nat) (g 2%nat) HF) as (d1 & o & -> & HF1 & Hv). fold m in Hv. cbn [rbind].
  rewrite (FileRead_ok fs d1 (g 3%nat) HF1). cbn [rbind].
  destruct (Remove_ok fs d1 HF1 (g 4%nat) FileName FileName_readable) as (d' & b & -> & -> & HF' & Hv' & _). cbn [rbind].
  do 2 eexists. split; [reflexivity|]. split; [done|]. case_bool_decide as Hc.
  - destruct Hv as [-> Hv]. rewrite Hv', Hv, lookup_insert_eq, delete_insert_eq. rewrite (proj1 Hc). split; [done|].
    by rewrite bool_decide_eq_true_2.
  - destruct Hv as [-> Hv]. rewrite Hv', Hv. fold m. split; [done|].
    destruct (m !! key FileName); [by rewrite bool_decide_eq_true_2|by rewrite bool_decide_eq_false_2 by (by intros [? ?])].
Qed.
End Tools.

(** ** Concrete instances *)

Lemma can_create_first k size : size <= MaxFileSize -> (0 <=? size) = true -> can_create ∅ k size.
Proof.
  intros Hs H0%Z.leb_le. split; [by rewrite lookup_empty|]. split; [by vm_compute|].
  replace (free_sectors ∅) with 1019 by (by vm_compute). unfold MaxFileSize, NumDirect, SectorSize, divRoundUp in *.
  case_bool_decide; ediv.
Qed.

Lemma demo_size : 23 <= MaxFileSize.
Proof. by vm_compute. Qed.

Lemma no_size : 0 <= MaxFileSize.
Proof. by vm_compute. Qed.

Lemma Copy_then_Print_witness : exists d fs d',
  FileSystem_new (fun _ _ => 7) true ∅ = Ok (d, fs) /\
  Copy (fun _ _ => 7) (fun _ _ => 7) (fun _ _ => 7) fs d (Some (seqZ 1 23)) [97; 98; 0] = Ok (d', []) /\
  Print (fun _ _ => 7) fs d' [97; 98; 0] = Ok (Char <$> seqZ 1 23).
Proof.
  destruct (format_ok (fun _ _ => 7) ∅ blank_disk_ok) as (d & fs & Hn & HF & Hv).
  destruct (Copy_then_Print (fun _ _ => 7) (fun _ _ => 7) (fun _ _ => 7) (fun _ _ => 7) fs d (seqZ 1 23) [97; 98; 0] HF demo_name_readable demo_size)
    as (d' & out & Hc & _ & H).
  rewrite Hv in H. change (Z.of_nat (length (seqZ 1 23))) with 23 in H.
  rewrite (bool_decide_eq_true_2 _ (can_create_first (key [97; 98; 0]) 23 demo_size eq_refl)) in H.
  destruct H as (-> & _ & Hp). exists d, fs, d'. split; [exact Hn|]. split; [exact Hc|exact Hp].
Defined.

Lemma PerformanceTest_always_fails_witness : exists d fs d',
  FileSystem_new (fun _ _ => 7) true ∅ = Ok (d, fs) /\
  PerformanceTest (fun _ _ _ => 7) fs d = Ok (d', [TestStart; Stats; WriteStart; NoWrite; ReadStart; NoRead; Stats]).
Proof.
  destruct (format_ok (fun _ _ => 7) ∅ blank_disk_ok) as (d & fs & Hn & HF & Hv).
  destruct (PerformanceTest_always_fails (fun _ _ _ => 7) fs d HF) as (d' & out & Hp & _ & _ & Ho).
  rewrite Hv, lookup_empty, (bool_decide_eq_true_2 _ (can_create_first (key FileName) 0 no_size eq_refl)) in Ho.
  subst out. exists d, fs, d'. split; [exact Hn|exact Hp].
Defined.
