(* ===== verification/Startup.v ===== *)
(** * threads/main.cc, threads/system.cc: the command line

    The kernel reads its command line twice. [Initialize] takes the settings the
    kernel is built with; [main] then goes through the same arguments and calls
    what they ask for, one after the other. Which arguments there are depends on
    the build ([#ifdef]). What a call does is modelled elsewhere (Processes,
    FsTools, Server, ThreadTest, ...); here it is a [command], and [returns]
    says whether it comes back: most end in [Halt]. *)
From Stdlib Require Import String Ascii.
From stdpp Require Import strings pretty.
From S2P Require Import Prelude.
Local Open Scope Z_scope.

(** ** The build *)

Record build := mkBuild { THREADS : bool; USER_PROGRAM : bool; FILESYS : bool; FILESYS_NEEDED : bool; NETWORK : bool }.

(** network/Makefile and filesys/Makefile *)
Definition network_build : build := mkBuild false true false true true.
Definition filesys_build : build := mkBuild true true true true false.

(** ** The C library *)

(** [strcmp(a, s) == 0] *)
Definition streq (a s : string) : bool := bool_decide (a = s).

Definition digit_value (c : ascii) : option Z :=
  let n := Z.of_nat (nat_of_ascii c) in if bool_decide (48 <= n <= 57) then Some (n - 48) else None.
Fixpoint digits (acc : Z) (s : string) : Z :=
  match s with
  | EmptyString => acc
  | String c s => match digit_value c with Some d => digits (10 * acc + d) s | None => acc end
  end.
Definition is_blank (c : ascii) : bool := let n := nat_of_ascii c in (n =? 32)%nat || ((9 <=? n) && (n <=? 13))%nat.
(** [atoi]; a number that does not fit an [int] has no defined value. *)
Fixpoint atoi (s : string) : res Z :=
  match s with
  | EmptyString => Ok 0
  | String c t =>
      if is_blank c then atoi t
      else
        let n := if (nat_of_ascii c =? 45)%nat then - digits 0 t else if (nat_of_ascii c =? 43)%nat then digits 0 t else digits 0 s in
        if bool_decide (- 2 ^ 31 <= n < 2 ^ 31) then Ok n else Fault UndefinedArith
  end.

(** [*(argv + 1)]: the array of arguments ends with NULL. *)
Definition argument (rest : list string) : res string := deref (head rest).

(** ** threads/system.cc: [Initialize] *)

(** The local variables; [rely] is the text that [atof] converts. *)
Record settings := mkSettings {
  debugArgs : string; randomYield : bool; seed : option Z; debugUserProg : bool; format : bool; rely : option string; netname : Z
}.

Definition default_settings : settings := mkSettings "" false None false false None 0.

Definition set_debugArgs (d : string) (s : settings) : settings := mkSettings d (randomYield s) (seed s) (debugUserProg s) (format s) (rely s) (netname s).
Definition set_random (n : Z) (s : settings) : settings := mkSettings (debugArgs s) true (Some n) (debugUserProg s) (format s) (rely s) (netname s).
Definition set_debugUserProg (s : settings) : settings := mkSettings (debugArgs s) (randomYield s) (seed s) true (format s) (rely s) (netname s).
Definition set_format (s : settings) : settings := mkSettings (debugArgs s) (randomYield s) (seed s) (debugUserProg s) true (rely s) (netname s).
Definition set_rely (r : string) (s : settings) : settings := mkSettings (debugArgs s) (randomYield s) (seed s) (debugUserProg s) (format s) (Some r) (netname s).
Definition set_netname (n : Z) (s : settings) : settings := mkSettings (debugArgs s) (randomYield s) (seed s) (debugUserProg s) (format s) (rely s) n.

(** One round of the loop: the new settings, and whether [argCount] is 2. *)
Definition init_arg (b : build) (a : string) (rest : list string) (s : settings) : res (settings * bool) :=
  let* '(s, two) :=
    (if streq a "-d" then
       match rest with
       | [] => Ok (set_debugArgs "+" s, false)
       | v :: _ => Ok (set_debugArgs v s, true)
       end
     else if streq a "-rs" then
       let* _ := ASSERT (negb (bool_decide (rest = []))) in
       let* v := argument rest in let* n := atoi v in Ok (set_random n s, true)
     else Ok (s, false)) in
  let s := if USER_PROGRAM b && streq a "-s" then set_debugUserProg s else s in
  let s := if FILESYS_NEEDED b && streq a "-f" then set_format s else s in
  if NETWORK b then
    if streq a "-l" then
      let* _ := ASSERT (negb (bool_decide (rest = []))) in
      let* v := argument rest in Ok (set_rely v s, true)
    else if streq a "-m" then
      let* _ := ASSERT (negb (bool_decide (rest = []))) in
      let* v := argument rest in let* n := atoi v in Ok (set_netname n s, true)
    else Ok (s, two)
  else Ok (s, two).

Fixpoint init_loop (b : build) (args : list string) (s : settings) : res settings :=
  match args with
  | [] => Ok s
  | a :: rest =>
      let* '(s, two) := init_arg b a rest s in
      match rest with
      | _ :: rest' => if two : bool then init_loop b rest' s else init_loop b rest s
      | [] => Ok s
      end
  end.

(** What the rest of [Initialize] does with the settings: which devices it
    starts, and the name of the swap file, which is made from [myMachineID] in
    an array of ten characters. *)
Record initialised := mkInitialised { options : settings; timer : bool; swapfileName : string }.

Definition sprintf_10 (s : string) : res string := if bool_decide (String.length s < 10)%nat then Ok s else Fault OutOfBounds.

Definition Initialize (b : build) (args : list string) (myMachineID : Z) : res initialised :=
  let* s := init_loop b args default_settings in
  let* name := sprintf_10 ("SwapFile" +:+ pretty myMachineID) in
  Ok (mkInitialised s (randomYield s) name).

(** ** threads/main.cc: [main] *)

Inductive policy := FIFO | RAND.

Inductive command :=
  | CCopyright | CTestSuite | CProblem2
  | CPolicy (p : policy) | CDelay (seconds : Z) | CStartProcess (file : string) | CConsoleTest (files : option (string * string)) | CHalt
  | CCopy (from to : string) | CPrint (file : string) | CRemove (file : string) | CList | CPrintAll | CPerformanceTest
  | CMailTest (farAddr : Z) | CSetServers (n : Z) | CServer | CSetMachine (id : Z).

(** [if(argc > 2)] the argument after the program may be a policy. *)
Definition policy_after (rest : list string) : list command :=
  match rest with
  | _ :: p :: _ => if streq p "-PFIFO" then [CPolicy FIFO] else if streq p "-PRAND" then [CPolicy RAND] else []
  | _ => []
  end.

(** The calls of one argument, and how many arguments it has. *)
Definition user_arg (b : build) (a : string) (rest : list string) : res (list command * nat) :=
  if negb (USER_PROGRAM b) then Ok ([], 0%nat)
  else if streq a "-x" then
    let* _ := ASSERT (negb (bool_decide (rest = []))) in
    let* file := argument rest in
    Ok (policy_after rest ++ (if NETWORK b then [CDelay 3] else []) ++ [CStartProcess file], 1%nat)
  else if streq a "-PFIFO" then Ok ([CPolicy FIFO], 0%nat)
  else if streq a "-c" then
    match rest with
    | [] => Ok ([CConsoleTest None; CHalt], 0%nat)
    | i :: o :: _ => Ok ([CConsoleTest (Some (i, o)); CHalt], 2%nat)
    | _ => Fault AssertFail
    end
  else Ok ([], 0%nat).

Definition filesys_arg (b : build) (a : string) (rest : list string) : res (list command * nat) :=
  if negb (FILESYS b) then Ok ([], 0%nat)
  else if streq a "-cp" then
    match rest with from :: to :: _ => Ok ([CCopy from to], 2%nat) | _ => Fault AssertFail end
  else if streq a "-p" then
    match rest with f :: _ => Ok ([CPrint f], 1%nat) | [] => Fault AssertFail end
  else if streq a "-r" then
    match rest with f :: _ => Ok ([CRemove f], 1%nat) | [] => Fault AssertFail end
  else if streq a "-l" then Ok ([CList], 0%nat)
  else if streq a "-D" then Ok ([CPrintAll], 0%nat)
  else if streq a "-t" then Ok ([CPerformanceTest], 0%nat)
  else Ok ([], 0%nat).

Definition network_arg (b : build) (a : string) (rest : list string) : res (list command * nat) :=
  if negb (NETWORK b) then Ok ([], 0%nat)
  else if streq a "-o" then
    let* _ := ASSERT (negb (bool_decide (rest = []))) in
    let* v := argument rest in let* n := atoi v in Ok ([CDelay 2; CMailTest n], 1%nat)
  else if streq a "-tns" then let* v := argument rest in let* n := atoi v in Ok ([CSetServers n], 1%nat)
  else if streq a "-server" then Ok ([CServer], 0%nat)
  else if streq a "-m" then let* v := argument rest in let* n := atoi v in Ok ([CSetMachine n], 1%nat)
  else Ok ([], 0%nat).

Definition main_arg (b : build) (a : string) (rest : list string) : res (list command * nat) :=
  let always := (if streq a "-z" then [CCopyright] else []) ++
    (if THREADS b then (if streq a "-T" then [CTestSuite] else []) ++ (if streq a "-P2" then [CProblem2] else []) else []) in
  let* '(u, n) := user_arg b a rest in
  let* '(f, n') := filesys_arg b a rest in
  let* '(w, n'') := network_arg b a rest in
  Ok (always ++ u ++ f ++ w, (n + n' + n'')%nat).

(** How [main] ends: [Finish] after the last argument; in a call that does not
    return; or stopped while it reads an argument. *)
Inductive ending := Finished | Away | Stopped (f : fault).

Section Main.
  Context (b : build) (returns : command -> bool).

(** The calls of one argument, up to one that does not return. *)
Fixpoint perform (cs : list command) : list command * bool :=
  match cs with
  | [] => ([], true)
  | c :: cs => if returns c then let '(done, back) := perform cs in (c :: done, back) else ([c], false)
  end.

(** [skip] is how many arguments the last one has taken. *)
Fixpoint main_loop (args : list string) (skip : nat) : list command * ending :=
  match args with
  | [] => ([], Finished)
  | a :: rest =>
      match skip with
      | S skip => main_loop rest skip
      | O =>
          match main_arg b a rest with
          | Fault f => ([], Stopped f)
          | Ok (cs, n) =>
              let '(done, back) := perform cs in
              if back then let '(more, e) := main_loop rest n in (done ++ more, e) else (done, Away)
          end
      end
  end.

(** The kernel: [myMachineID] is a global variable, 0 at first. *)
Definition main (args : list string) : res (initialised * (list command * ending)) :=
  let* i := Initialize b args 0 in Ok (i, main_loop args 0).
End Main.

(** ** Command lines of the network build *)

Inductive request :=
  | RMachine (v : string) (n : Z) | RServers (v : string) (n : Z) | RMail (v : string) (n : Z)
  | RRely (v : string) | RSeed (v : string) (n : Z) | RDebug (v : string)
  | RDebugUser | RFormat | RCopyright | RServer | RFIFO
  | RExec (file : string) (p : option policy).

Definition policy_flag (p : policy) : string := match p with FIFO => "-PFIFO" | RAND => "-PRAND" end.

Definition render (r : request) : list string :=
  match r with
  | RMachine v _ => ["-m"; v] | RServers v _ => ["-tns"; v] | RMail v _ => ["-o"; v]
  | RRely v => ["-l"; v] | RSeed v _ => ["-rs"; v] | RDebug v => ["-d"; v]
  | RDebugUser => ["-s"] | RFormat => ["-f"] | RCopyright => ["-z"] | RServer => ["-server"] | RFIFO => ["-PFIFO"]
  | RExec file p => "-x" :: file :: match p with Some p => [policy_flag p] | None => [] end
  end%string.

(** A value is none of the flags: each pass looks at the values of the flags it
    does not know. *)
Definition flags : list string :=
  ["-d"; "-rs"; "-s"; "-f"; "-l"; "-m"; "-z"; "-x"; "-PFIFO"; "-PRAND"; "-c"; "-o"; "-tns"; "-server"]%string.
Definition plain (v : string) : Prop := v ∉ flags.

Definition request_ok (r : request) : Prop :=
  match r with
  | RMachine v n | RServers v n | RMail v n | RSeed v n => plain v /\ atoi v = Ok n
  | RRely v | RDebug v | RExec v _ => plain v
  | _ => True
  end.

(** A policy behind a program belongs to it. *)
Fixpoint well_formed (rs : list request) : Prop :=
  match rs with
  | [] => True
  | r :: rest => request_ok r /\ (forall f, r = RExec f None -> head rest <> Some RFIFO) /\ well_formed rest
  end.

Definition setting (r : request) : settings -> settings :=
  match r with
  | RMachine _ n => set_netname n | RRely v => set_rely v | RSeed _ n => set_random n | RDebug v => set_debugArgs v
  | RDebugUser => set_debugUserProg | RFormat => set_format
  | _ => id
  end.
Definition calls (r : request) : list command :=
  match r with
  | RMachine _ n => [CSetMachine n] | RServers _ n => [CSetServers n] | RMail _ n => [CDelay 2; CMailTest n]
  | RCopyright => [CCopyright] | RServer => [CServer] | RFIFO => [CPolicy FIFO]
  | RExec f None => [CDelay 3; CStartProcess f]
  | RExec f (Some RAND) => [CPolicy RAND; CDelay 3; CStartProcess f]
  | RExec f (Some FIFO) => [CPolicy FIFO; CDelay 3; CStartProcess f; CPolicy FIFO]
  | _ => []
  end.

Definition line (rs : list request) : list string := rs ≫= render.

(** * Lemmas *)

Lemma plain_streq v f : plain v -> f ∈ flags -> streq v f = false.
Proof. intros Hv Hf. apply bool_decide_eq_false. by intros ->. Qed.

Ltac scan Hv := rewrite !(plain_streq _ _ Hv) by (apply (bool_decide_unpack _); vm_compute; exact I).

Ltac in_network := cbn [THREADS USER_PROGRAM FILESYS FILESYS_NEEDED NETWORK network_build negb andb app].

Lemma init_plain v rest s : plain v -> init_arg network_build v rest s = Ok (s, false).
Proof. intros Hv. unfold init_arg. in_network. scan Hv. done. Qed.

Lemma main_plain v rest : plain v -> main_arg network_build v rest = Ok ([], 0%nat).
Proof. intros Hv. unfold main_arg, user_arg, filesys_arg, network_arg. in_network. scan Hv. done. Qed.

Lemma init_value v rest s : plain v -> init_loop network_build (v :: rest) s = init_loop network_build rest s.
Proof. intros Hv. cbn [init_loop]. rewrite init_plain by done. cbn [rbind]. by destruct rest. Qed.

(** A flag that [Initialize] does not know, and one that it knows. *)
Lemma init_other f rest s : init_arg network_build f rest s = Ok (s, false) -> init_loop network_build (f :: rest) s = init_loop network_build rest s.
Proof. intros Hf. cbn [init_loop]. rewrite Hf. cbn [rbind]. by destruct rest. Qed.
Lemma init_one f rest s s' : init_arg network_build f rest s = Ok (s', false) -> init_loop network_build (f :: rest) s = init_loop network_build rest s'.
Proof. intros Hf. cbn [init_loop]. rewrite Hf. cbn [rbind]. by destruct rest. Qed.
Lemma init_two f v rest s s' : init_arg network_build f (v :: rest) s = Ok (s', true) -> init_loop network_build (f :: v :: rest) s = init_loop network_build rest s'.
Proof. intros Hf. cbn [init_loop]. by rewrite Hf. Qed.

Lemma init_render r rest s : request_ok r -> init_loop network_build (render r ++ rest) s = init_loop network_build rest (setting r s).
Proof.
  intros Hr. destruct r as [v n|v n|v n|v|v n|v| | | | | |f p]; cbn [request_ok render app setting] in *; unfold id;
    try (apply init_one; reflexivity); try (apply init_two; reflexivity).
  - destruct Hr as [_ Hn]. apply init_two. unfold init_arg. cbn. by rewrite Hn.
  - destruct Hr as [Hp _]. rewrite init_other by done. by apply init_value.
  - destruct Hr as [Hp _]. rewrite init_other by done. by apply init_value.
  - destruct Hr as [_ Hn]. apply init_two. unfold init_arg. cbn. by rewrite Hn.
  - rewrite init_other by done. rewrite init_value by done. destruct p as [[]|]; [by apply init_other..|done].
Qed.

Lemma init_line rs : forall s, well_formed rs -> init_loop network_build (line rs) s = Ok (foldl (fun s r => setting r s) s rs).
Proof.
  induction rs as [|r rs IH]; intros s Hw; [done|]. destruct Hw as (Hr & _ & Hw).
  unfold line. cbn [mbind list_bind foldl]. rewrite init_render by done. by apply IH.
Qed.

Section Calls.
  Context (returns : command -> bool).

(** The calls that are made, and how it ends. *)
Definition made (cs : list command) : list command * ending :=
  let '(done, back) := perform returns cs in (done, if back then Finished else Away).

Lemma made_app cs ds : made (cs ++ ds) =
  let '(done, back) := perform returns cs in if back then let '(more, e) := made ds in (done ++ more, e) else (done, Away).
Proof.
  unfold made. induction cs as [|c cs IH]; cbn [app perform]; [by destruct (perform returns ds)|].
  destruct (returns c); [|done]. destruct (perform returns (cs ++ ds)) as [a1 b1], (perform returns cs) as [a2 b2], (perform returns ds) as [a3 b3].
  destruct b2; injection IH as -> ->; done.
Qed.

(** An argument, with the [n] arguments it takes. *)
Lemma main_loop_step f cs n rest ds : main_arg network_build f rest = Ok (cs, n) -> main_loop network_build returns rest n = made ds ->
  main_loop network_build returns (f :: rest) 0 = made (cs ++ ds).
Proof. intros Hf Hr. cbn [main_loop]. rewrite Hf, made_app. destruct (perform returns cs) as [l []]; [by rewrite Hr|reflexivity]. Qed.

Lemma main_value v rest ds : plain v -> main_loop network_build returns rest 0 = made ds -> main_loop network_build returns (v :: rest) 0 = made ds.
Proof. intros Hv Hr. exact (main_loop_step v [] 0 rest ds (main_plain v rest Hv) Hr). Qed.

Lemma main_render r rs ds : request_ok r -> (forall f, r = RExec f None -> head rs <> Some RFIFO) ->
  main_loop network_build returns (line rs) 0 = made ds -> main_loop network_build returns (render r ++ line rs) 0 = made (calls r ++ ds).
Proof.
  intros Hr Hw Hl. destruct r as [v n|v n|v n|v|v n|v| | | | | |f p]; cbn [request_ok render app calls] in *;
    try (apply (main_loop_step _ [] 0); [reflexivity|exact Hl]).
  - destruct Hr as [_ Hn]. apply (main_loop_step _ [CSetMachine n] 1); [|exact Hl]. unfold main_arg, network_arg. cbn. by rewrite Hn.
  - destruct Hr as [_ Hn]. apply (main_loop_step _ [CSetServers n] 1); [|exact Hl]. unfold main_arg, network_arg. cbn. by rewrite Hn.
  - destruct Hr as [_ Hn]. apply (main_loop_step _ [CDelay 2; CMailTest n] 1); [|exact Hl]. unfold main_arg, network_arg. cbn. by rewrite Hn.
  - apply (main_loop_step _ [] 0); [reflexivity|]. by apply main_value.
  - destruct Hr as [Hp _]. apply (main_loop_step _ [] 0); [reflexivity|]. by apply main_value.
  - apply (main_loop_step _ [] 0); [reflexivity|]. by apply main_value.
  - apply (main_loop_step _ [CCopyright] 0); [reflexivity|exact Hl].
  - apply (main_loop_step _ [CServer] 0); [reflexivity|exact Hl].
  - apply (main_loop_step _ [CPolicy FIFO] 0); [reflexivity|exact Hl].
  - destruct p as [[]|].
    + apply (main_loop_step _ [CPolicy FIFO; CDelay 3; CStartProcess f] 1); [reflexivity|]. cbn [main_loop].
      by apply (main_loop_step _ [CPolicy FIFO] 0).
    + apply (main_loop_step _ [CPolicy RAND; CDelay 3; CStartProcess f] 1); [reflexivity|]. cbn [main_loop].
      by apply (main_loop_step _ [] 0).
    + apply (main_loop_step _ [CDelay 3; CStartProcess f] 1); [|exact Hl].
      assert (policy_after (f :: line rs) = []) as Hpol.
      { specialize (Hw f eq_refl). destruct rs as [|[] rs]; try reflexivity. by destruct (Hw eq_refl). }
      unfold main_arg, user_arg, filesys_arg, network_arg. in_network. cbn [streq]. cbn. unfold policy_after in Hpol. cbn in Hpol. by rewrite Hpol.
Qed.

Lemma main_line rs : well_formed rs -> main_loop network_build returns (line rs) 0 = made (rs ≫= calls).
Proof.
  induction rs as [|r rs IH]; intros Hw; [done|]. destruct Hw as (Hr & Hp & Hw).
  change (line (r :: rs)) with (render r ++ line rs). change ((r :: rs) ≫= calls) with (calls r ++ (rs ≫= calls)).
  apply main_render; auto.
Qed.
End Calls.

(** * Properties *)

(** C18: the command line means what the code says of it. In the network build
    [-l] sets the reliability of the network, where the usage comment of main.cc
    has [-n] for it and [-l] for the listing of the directory. For any list
    of requests with their values (none of which is itself a flag), [Initialize]
    has exactly the settings of the requests, the timer runs if and only if a
    seed was given, and [main] makes exactly the calls of the requests, in their
    order, up to the first that does not return. The swap file, however, has the
    same name on every machine: it is made before [main] sets [myMachineID]. *)
Theorem command_line_is_understood (returns : command -> bool) rs : well_formed rs ->
  main network_build returns (line rs) =
    Ok (mkInitialised (foldl (fun s r => setting r s) default_settings rs)
          (randomYield (foldl (fun s r => setting r s) default_settings rs)) "SwapFile0",
        made returns (rs ≫= calls)).
Proof.
  intros Hw. unfold main, Initialize. rewrite init_line by done. cbn [rbind].
  change (sprintf_10 ("SwapFile" +:+ pretty 0)) with (Ok "SwapFile0"%string). cbn [rbind]. by rewrite main_line.
Qed.

(** [nachos -m 3 -rs 42 -l 0.8 -x prog -PRAND]: a program does not return. *)
Definition demo_line : list request := [RMachine "3" 3; RSeed "42" 42; RRely "0.8"; RExec "prog" (Some RAND)]%string.

Lemma command_line_is_understood_witness :
  main network_build (fun c => match c with CStartProcess _ => false | _ => true end) ["-m"; "3"; "-rs"; "42"; "-l"; "0.8"; "-x"; "prog"; "-PRAND"]%string =
    Ok (mkInitialised (mkSettings "" true (Some 42) false false (Some "0.8"%string) 3) true "SwapFile0",
        ([CSetMachine 3; CPolicy RAND; CDelay 3; CStartProcess "prog"], Away)).
Proof.
  exact (command_line_is_understood (fun c => match c with CStartProcess _ => false | _ => true end) demo_line
    ltac:(repeat split; try reflexivity; try (apply (bool_decide_unpack _); vm_compute; exact I); discriminate)).
Defined.
