(* ===== verification/Disk.v ===== *)
(** * machine/disk.cc: the disk device

    A UNIX file holds a magic number and the sectors. A request transfers the
    sector at once, computes how long the real disk would take from where the
    head is, and schedules the interrupt. [UnixFile] is what the code uses of
    the host's files (through machine/sysdep.cc); [now] is
    [stats->totalTicks]. *)
From S2P Require Import Prelude CStrings Machine Files.

Definition SectorsPerTrack : Z := 32.
Definition NumTracks : Z := 32.
Definition RotationTime : Z := 500.
Definition SeekTime : Z := 500.
Definition MagicNumber : Z := 0x456789ab.
Definition MagicSize : Z := 4.
Definition DiskSize : Z := MagicSize + NumSectors * SectorSize.

(** ** The host's files

    [read] and [write] after [lseek] to a position; [write] past the end fills
    the gap with zeros. *)
Class UnixFile (F : Type) := {
  uf_bytes : F -> list Z;
  uf_empty : F;
  uf_read : F -> Z -> Z -> list Z;
  uf_write : F -> Z -> list Z -> F;
  uf_empty_bytes : uf_bytes uf_empty = [];
  uf_read_bytes f pos n : 0 <= pos -> 0 <= n ->
    uf_read f pos n = take (Z.to_nat n) (drop (Z.to_nat pos) (uf_bytes f));
  uf_write_bytes f pos bs : 0 <= pos ->
    uf_bytes (uf_write f pos bs) =
      take (Z.to_nat pos) (uf_bytes f ++ replicate (Z.to_nat pos - length (uf_bytes f)) 0) ++
      bs ++ drop (Z.to_nat pos + length bs) (uf_bytes f)
}.

(** A file as the list of its bytes. *)
#[export] Program Instance list_file : UnixFile (list Z) := {|
  uf_bytes f := f;
  uf_empty := [];
  uf_read f pos n := take (Z.to_nat n) (drop (Z.to_nat pos) f);
  uf_write f pos bs :=
    take (Z.to_nat pos) (f ++ replicate (Z.to_nat pos - length f) 0) ++ bs ++ drop (Z.to_nat pos + length bs) f
|}.
Solve Obligations with done.

(** ** Where the head is *)

(** The time to reach the track of [newSector], and from there to the next
    boundary of a sector. *)
Definition TimeToSeek (lastSector now newSector : Z) : Z * Z :=
  let newTrack := Z.quot newSector SectorsPerTrack in
  let oldTrack := Z.quot lastSector SectorsPerTrack in
  let seek := i32 (Z.abs (newTrack - oldTrack) * SeekTime) in
  let over := i32 (Z.rem (now + seek) RotationTime) in
  (seek, if bool_decide (over > 0) then i32 (RotationTime - over) else 0).

Definition ModuloDiff (to from : Z) : Z :=
  let toOffset := Z.rem to SectorsPerTrack in
  let fromOffset := Z.rem from SectorsPerTrack in
  Z.rem ((toOffset - fromOffset) + SectorsPerTrack) SectorsPerTrack.

Section Disk.
Context {F : Type} `{UF : !UnixFile F} `{HO : HostOrder}.

Record Disk := mkDisk { image : F; active : bool; lastSector : Z; bufferInit : Z }.

(** The sector is in the track buffer. *)
Definition buffered (d : Disk) (timeAfter newSector : Z) : bool :=
  bool_decide (Z.quot (i32 (timeAfter - bufferInit d)) RotationTime >
               ModuloDiff newSector (i32 (Z.quot (bufferInit d) RotationTime))).

Definition ComputeLatency (d : Disk) (now newSector : Z) (writing : bool) : Z :=
  let '(seek, rotation) := TimeToSeek (lastSector d) now newSector in
  let timeAfter := i32 (now + seek + rotation) in
  if negb writing && bool_decide (seek = 0) && buffered d timeAfter newSector then RotationTime
  else
    let rotation := i32 (rotation + ModuloDiff newSector (i32 (Z.quot timeAfter RotationTime)) * RotationTime) in
    i32 (seek + rotation + RotationTime).

Definition UpdateLast (d : Disk) (now newSector : Z) : Disk :=
  let '(seek, rotate) := TimeToSeek (lastSector d) now newSector in
  mkDisk (image d) (active d) newSector (if bool_decide (seek <> 0) then i32 (now + seek + rotate) else bufferInit d).

(** ** Requests *)

(** machine/sysdep.cc: [Read] and [WriteFile] abort on a short transfer. *)
Definition Read (f : F) (pos n : Z) : res (list Z) :=
  let bs := uf_read f pos n in
  let* _ := ASSERT (bool_decide (Z.of_nat (length bs) = n)) in Ok bs.

Definition set_active (b : bool) (d : Disk) : Disk := mkDisk (image d) b (lastSector d) (bufferInit d).
Definition set_image (f : F) (d : Disk) : Disk := mkDisk f (active d) (lastSector d) (bufferInit d).

(** The constructor: [None] when the file does not exist. *)
Definition Disk_new (file : option F) : res Disk :=
  match file with
  | Some f =>
      let* magic := Read f 0 MagicSize in
      let* _ := ASSERT (bool_decide (bytes_int magic = MagicNumber)) in
      Ok (mkDisk f false 0 0)
  | None =>
      let f := uf_write uf_empty 0 (int_bytes MagicNumber) in
      let f := uf_write f (DiskSize - 4) (int_bytes 0) in
      Ok (mkDisk f false 0 0)
  end.

(** The bytes read, and the delay of the interrupt that is scheduled. *)
Definition ReadRequest (now : Z) (d : Disk) (sectorNumber : Z) : res (Disk * list Z * Z) :=
  let ticks := ComputeLatency d now sectorNumber false in
  let* _ := ASSERT (negb (active d)) in
  let* _ := ASSERT (bool_decide (sectorNumber >= 0) && bool_decide (sectorNumber < NumSectors)) in
  let* data := Read (image d) (SectorSize * sectorNumber + MagicSize) SectorSize in
  Ok (UpdateLast (set_active true d) now sectorNumber, data, ticks).

Definition WriteRequest (now : Z) (d : Disk) (sectorNumber : Z) (data : list Z) : res (Disk * Z) :=
  let ticks := ComputeLatency d now sectorNumber true in
  let* _ := ASSERT (negb (active d)) in
  let* _ := ASSERT (bool_decide (sectorNumber >= 0) && bool_decide (sectorNumber < NumSectors)) in
  let d := set_image (uf_write (image d) (SectorSize * sectorNumber + MagicSize) data) d in
  Ok (UpdateLast (set_active true d) now sectorNumber, ticks).

(** [HandleInterrupt], up to the call of the handler. *)
Definition HandleInterrupt (d : Disk) : Disk := set_active false d.

End Disk.
Arguments Disk : clear implicits.

(** * Latency *)

Lemma ModuloDiff_range to from : 0 <= to -> 0 <= ModuloDiff to from < SectorsPerTrack.
Proof.
  unfold ModuloDiff, SectorsPerTrack. intros Ht.
  pose proof (Z.rem_bound_pos to 32). pose proof (Z.rem_bound_abs from 32).
  rewrite Z.rem_mod_nonneg by lia. apply Z.mod_pos_bound. lia.
Qed.

Lemma ModuloDiff_spec to from : 0 <= to -> 0 <= from ->
  (from + ModuloDiff to from) mod SectorsPerTrack = to mod SectorsPerTrack.
Proof.
  unfold ModuloDiff, SectorsPerTrack. intros Ht Hf.
  rewrite (Z.rem_mod_nonneg to), (Z.rem_mod_nonneg from) by lia.
  pose proof (Z.mod_pos_bound to 32). pose proof (Z.mod_pos_bound from 32).
  rewrite Z.rem_mod_nonneg, Zplus_mod_idemp_r by lia.
  replace (from + (to mod 32 - from mod 32 + 32)) with (to mod 32 + (from - from mod 32) + 1 * 32) by lia.
  rewrite Z.mod_add by lia. pose proof (Z.div_mod from 32).
  replace (from - from mod 32) with (from / 32 * 32) by lia.
  rewrite Z.mod_add, Z.mod_mod by lia. done.
Qed.

(** The seek time and the rounding up to a sector boundary. *)
Definition seek_time (last n : Z) : Z := Z.abs (n / SectorsPerTrack - last / SectorsPerTrack) * SeekTime.

Definition on_disk (n : Z) : Prop := 0 <= n < NumSectors.

Lemma seek_time_range last n : on_disk last -> on_disk n -> 0 <= seek_time last n <= 31 * SeekTime.
Proof.
  unfold on_disk, NumSectors, seek_time, SeekTime, SectorsPerTrack. intros Hl Hn.
  assert (0 <= last / 32 <= 31) by (split; [apply Z.div_pos|apply Z.lt_succ_r, Z.div_lt_upper_bound]; lia).
  assert (0 <= n / 32 <= 31) by (split; [apply Z.div_pos|apply Z.lt_succ_r, Z.div_lt_upper_bound]; lia).
  lia.
Qed.

Lemma TimeToSeek_spec last now n : on_disk last -> on_disk n -> 0 <= now ->
  exists rot, TimeToSeek last now n = (seek_time last n, rot) /\
    0 <= rot < RotationTime /\ (now + seek_time last n + rot) mod RotationTime = 0.
Proof.
  intros Hl Hn Hnow. pose proof (seek_time_range last n Hl Hn) as Hs. unfold TimeToSeek.
  unfold on_disk, NumSectors, SeekTime, RotationTime in *.
  rewrite !Z.quot_div_nonneg by (unfold SectorsPerTrack; lia).
  change (Z.abs (n / SectorsPerTrack - last / SectorsPerTrack) * 500) with (seek_time last n).
  rewrite (i32_id (seek_time last n)) by (unfold in_i32; lia).
  set (t := now + seek_time last n). rewrite Z.rem_mod_nonneg by lia.
  pose proof (Z.mod_pos_bound t 500 ltac:(lia)) as Ho. rewrite i32_id by (unfold in_i32; lia).
  case_bool_decide.
  - rewrite i32_id by (unfold in_i32; lia). eexists. split; [done|]. split; [lia|].
    pose proof (Z.div_mod t 500 ltac:(lia)). replace (t + (500 - t mod 500)) with ((t / 500 + 1) * 500) by lia.
    apply Z.mod_mul. lia.
  - eexists. split; [done|]. split; [lia|]. rewrite Z.add_0_r. lia.
Qed.

(** At time [t] the head, on its track, is at the beginning of sector [n]. *)
Definition passes (n t : Z) : Prop :=
  t mod RotationTime = 0 /\ (t / RotationTime) mod SectorsPerTrack = n mod SectorsPerTrack.

(** The first time at or after [t0], a boundary, that the head passes [n]. *)
Lemma first_passage n t0 k : 0 <= n -> 0 <= t0 -> t0 mod RotationTime = 0 ->
  k = ModuloDiff n (t0 / RotationTime) ->
  passes n (t0 + k * RotationTime) /\
  forall t, t0 - RotationTime < t -> passes n t -> t0 + k * RotationTime <= t.
Proof.
  unfold passes, RotationTime. intros Hn Ht0 Hb ->.
  pose proof (ModuloDiff_range n (t0 / 500) Hn) as Hr. set (k := ModuloDiff _ _) in *.
  pose proof (ModuloDiff_spec n (t0 / 500) Hn ltac:(apply Z.div_pos; lia)) as Hk. fold k in Hk.
  pose proof (Z.div_mod t0 500 ltac:(lia)) as Hd. set (q := t0 / 500) in *.
  unfold SectorsPerTrack in *.
  replace (t0 + k * 500) with ((q + k) * 500) by lia. rewrite Z.mod_mul, Z.div_mul by lia.
  split; [done|]. intros t Ht [Hm Hp]. pose proof (Z.div_mod t 500 ltac:(lia)) as Htd. set (p := t / 500) in *.
  assert (q <= p) by lia. apply Z.nlt_ge. intros Hlt.
  assert (0 < q + k - p < 32) by lia. rewrite <-Hk in Hp.
  assert ((q + k - p) mod 32 = 0) as Hz by (rewrite Zminus_mod, <-Hp, Z.sub_diag; done).
  rewrite Z.mod_small in Hz by lia. lia.
Qed.

(** ** Properties of the latency *)

Section Latency.
Context {F : Type}.
Implicit Type d : Disk F.

(** The same track as the last request. *)
Lemma seek_time_zero last n : on_disk last -> on_disk n ->
  seek_time last n = 0 <-> n / SectorsPerTrack = last / SectorsPerTrack.
Proof. intros _ _. unfold seek_time, SeekTime. lia. Qed.

Lemma rotation_range seek rot m : 0 <= seek <= 31 * SeekTime -> 0 <= rot < RotationTime -> 0 <= m < SectorsPerTrack ->
  i32 (rot + m * RotationTime) = rot + m * RotationTime /\
  i32 (seek + (rot + m * RotationTime) + RotationTime) = seek + (rot + m * RotationTime) + RotationTime.
Proof.
  unfold SeekTime, RotationTime, SectorsPerTrack. intros. rewrite !i32_id by (unfold in_i32; lia). done.
Qed.

(** The sector was read into the track buffer since [bufferInit]. *)
Lemma buffered_spec d t n : 0 <= n -> 0 <= bufferInit d < 2 ^ 31 -> bufferInit d mod RotationTime = 0 ->
  0 <= t < 2 ^ 31 -> buffered d t n = true ->
  exists t1, bufferInit d <= t1 /\ t1 + RotationTime <= t /\ passes n t1.
Proof.
  unfold buffered. intros Hn Hb Hm Ht. rewrite i32_id by (unfold in_i32; lia).
  rewrite (Z.quot_div_nonneg (bufferInit d)) by (unfold RotationTime; lia).
  assert (0 <= bufferInit d / RotationTime <= bufferInit d) as Hq
    by (unfold RotationTime; split; [apply Z.div_pos; lia|apply Z.div_le_upper_bound; lia]).
  rewrite i32_id by (unfold in_i32; lia). rewrite bool_decide_eq_true. intros Hlt.
  set (k := ModuloDiff n (bufferInit d / RotationTime)) in *.
  destruct (first_passage n (bufferInit d) k Hn ltac:(lia) Hm eq_refl) as [Hp _].
  pose proof (ModuloDiff_range n (bufferInit d / RotationTime) Hn) as Hk. fold k in Hk.
  exists (bufferInit d + k * RotationTime). unfold RotationTime, SectorsPerTrack in *. split_and!; [lia| |done].
  destruct (decide (0 <= t - bufferInit d)) as [Hd|Hd].
  - rewrite Z.quot_div_nonneg in Hlt by lia. pose proof (Z.mul_div_le (t - bufferInit d) 500). lia.
  - pose proof (Z.quot_opp_l (t - bufferInit d) 500 ltac:(lia)) as Ho.
    assert (0 <= Z.quot (- (t - bufferInit d)) 500) by (apply Z.quot_pos; lia). lia.
Qed.

(** C25: what a request costs is what the rotating disk makes it cost. The
    transfer begins at the first moment after the seek at which the head passes
    the sector, and takes one rotation time; only a read on the current track
    is answered earlier, after one rotation time, and then the whole sector
    passed under the head since the track buffer was started. *)
Theorem latency_is_first_passage d now n writing :
  on_disk (lastSector d) -> on_disk n -> 0 <= now -> now + 2 ^ 15 < 2 ^ 31 ->
  0 <= bufferInit d < 2 ^ 31 -> bufferInit d mod RotationTime = 0 ->
  let start := now + ComputeLatency d now n writing - RotationTime in
  let arrival := now + seek_time (lastSector d) n in
  (passes n start /\ arrival <= start /\ forall t, arrival <= t -> passes n t -> start <= t) \/
  (writing = false /\ n / SectorsPerTrack = lastSector d / SectorsPerTrack /\ start = now /\
   exists t, bufferInit d <= t /\ t + RotationTime < now + RotationTime /\ passes n t).
Proof.
  intros Hl Hn Hnow Hmax Hb Hm. unfold ComputeLatency.
  destruct (TimeToSeek_spec (lastSector d) now n Hl Hn Hnow) as (rot & -> & Hrot & Hbound).
  pose proof (seek_time_range _ _ Hl Hn) as Hs. set (seek := seek_time (lastSector d) n) in *.
  assert (0 <= n) as Hn0 by apply Hn. set (t0 := now + seek + rot) in *.
  assert (0 <= t0 < 2 ^ 31) as Ht0 by (unfold SeekTime, RotationTime in *; lia).
  rewrite (i32_id t0) by (unfold in_i32; lia). cbv zeta.
  destruct (negb writing && bool_decide (seek = 0) && buffered d t0 n) eqn:Hbuf.
  - rewrite !andb_true_iff, negb_true_iff, bool_decide_eq_true in Hbuf. destruct Hbuf as [[-> Hz] Hbf].
    right. destruct (buffered_spec d t0 n Hn0 Hb Hm Ht0 Hbf) as (t & ? & ? & ?).
    split_and!; [done|by apply seek_time_zero|lia|]. exists t. split_and!; [done|lia|done].
  - left. assert (0 <= t0 / RotationTime <= t0) as Hq
      by (unfold RotationTime; split; [apply Z.div_pos; lia|apply Z.div_le_upper_bound; lia]).
    rewrite (Z.quot_div_nonneg t0) by (unfold RotationTime; lia).
    rewrite (i32_id (t0 / RotationTime)) by (unfold in_i32; lia).
    pose proof (ModuloDiff_range n (t0 / RotationTime) Hn0) as Hk.
    destruct (rotation_range seek rot _ Hs Hrot Hk) as [-> ->].
    destruct (first_passage n t0 _ Hn0 ltac:(lia) Hbound eq_refl) as [Hp Hmin].
    set (k := ModuloDiff n (t0 / RotationTime)) in *.
    replace (now + (seek + (rot + k * RotationTime) + RotationTime) - RotationTime)
      with (t0 + k * RotationTime) by lia.
    split_and!; [done|unfold RotationTime in *; lia|]. intros t Ht. apply Hmin. lia.
Qed.

(** The range of the latency, also when the clock no longer fits an [int]. *)
Definition latency_max : Z := (NumTracks - 1) * SeekTime + (SectorsPerTrack + 1) * RotationTime.

Lemma ComputeLatency_range d now n writing :
  on_disk (lastSector d) -> on_disk n -> 0 <= now ->
  RotationTime <= ComputeLatency d now n writing < latency_max.
Proof.
  intros Hl Hn Hnow. unfold ComputeLatency.
  destruct (TimeToSeek_spec (lastSector d) now n Hl Hn Hnow) as (rot & -> & Hrot & _).
  pose proof (seek_time_range _ _ Hl Hn) as Hs. cbv zeta. case_match.
  - unfold latency_max, RotationTime, NumTracks, SeekTime, SectorsPerTrack. lia.
  - pose proof (ModuloDiff_range n (i32 (Z.quot (i32 (now + seek_time (lastSector d) n + rot)) RotationTime))
      ltac:(apply Hn)) as Hk.
    destruct (rotation_range _ rot _ Hs Hrot Hk) as [-> ->].
    unfold latency_max, RotationTime, NumTracks, SeekTime, SectorsPerTrack in *. lia.
Qed.

(** What [UpdateLast] leaves is again a head position and a boundary. *)
Lemma UpdateLast_ok d now n : on_disk (lastSector d) -> on_disk n -> 0 <= now -> now + 2 ^ 15 < 2 ^ 31 ->
  0 <= bufferInit d < 2 ^ 31 -> bufferInit d mod RotationTime = 0 ->
  let d' := UpdateLast d now n in
  lastSector d' = n /\ 0 <= bufferInit d' < 2 ^ 31 /\ bufferInit d' mod RotationTime = 0.
Proof.
  intros Hl Hn Hnow Hmax Hb Hm. unfold UpdateLast.
  destruct (TimeToSeek_spec (lastSector d) now n Hl Hn Hnow) as (rot & -> & Hrot & Hbound).
  pose proof (seek_time_range _ _ Hl Hn) as Hs. cbn [lastSector bufferInit]. case_bool_decide; [|done].
  rewrite i32_id by (unfold in_i32, SeekTime, RotationTime in *; lia). unfold SeekTime, RotationTime in *.
  split_and!; [done|lia|lia|done].
Qed.
End Latency.

(** * Contents: the disk is an array of sectors *)

Section Contents.
Context {F : Type} `{UF : !UnixFile F} `{HO : HostOrder}.
Implicit Type d : Disk F.

Definition offset (n : Z) : nat := Z.to_nat (SectorSize * n + MagicSize).

(** The file holds the magic number and the sectors [m] of [Files]. *)
Record holds_sectors (f : F) (m : disk) : Prop := {
  hs_length : Z.of_nat (length (uf_bytes f)) = DiskSize;
  hs_magic : bytes_int (take 4 (uf_bytes f)) = MagicNumber;
  hs_sector n : on_disk n -> take 128 (drop (offset n) (uf_bytes f)) = sector m n
}.

Lemma offset_bounds n : on_disk n -> (4 <= offset n)%nat /\ Z.of_nat (offset n) + 128 <= DiskSize.
Proof. unfold on_disk, offset, DiskSize, MagicSize, NumSectors, SectorSize. lia. Qed.

Lemma offset_disjoint n k : on_disk n -> on_disk k -> n <> k ->
  (offset n + 128 <= offset k \/ offset k + 128 <= offset n)%nat.
Proof. unfold on_disk, offset, MagicSize, SectorSize. lia. Qed.

(** Reading back around a write. *)
Lemma splice_same (f bs : list Z) p : (p + length bs <= length f)%nat ->
  take (length bs) (drop p (take p f ++ bs ++ drop (p + length bs) f)) = bs.
Proof.
  intros H. rewrite drop_app_length' by (rewrite length_take; lia). by rewrite take_app_length.
Qed.
Lemma splice_before (f bs : list Z) p q n : (q + n <= p)%nat -> (p + length bs <= length f)%nat ->
  take n (drop q (take p f ++ bs ++ drop (p + length bs) f)) = take n (drop q f).
Proof.
  intros H1 H2. rewrite drop_app_le by (rewrite length_take; lia).
  rewrite take_app_le by (rewrite length_drop, length_take; lia).
  rewrite <-(take_drop p f) at 2. rewrite drop_app_le by (rewrite length_take; lia).
  by rewrite take_app_le by (rewrite length_drop, length_take; lia).
Qed.
Lemma splice_after (f bs : list Z) p q n : (p + length bs <= q)%nat -> (p + length bs <= length f)%nat ->
  take n (drop q (take p f ++ bs ++ drop (p + length bs) f)) = take n (drop q f).
Proof.
  intros H1 H2. rewrite app_assoc, drop_app_ge by (rewrite length_app, length_take; lia).
  rewrite drop_drop, length_app, length_take. do 2 f_equal. lia.
Qed.
Lemma splice_length (f bs : list Z) p : (p + length bs <= length f)%nat ->
  length (take p f ++ bs ++ drop (p + length bs) f) = length f.
Proof. intros H. rewrite !length_app, length_take, length_drop. lia. Qed.

(** A write inside the file. *)
Lemma uf_write_inside (f : F) pos bs : 0 <= pos -> pos + Z.of_nat (length bs) <= Z.of_nat (length (uf_bytes f)) ->
  uf_bytes (uf_write f pos bs) =
    take (Z.to_nat pos) (uf_bytes f) ++ bs ++ drop (Z.to_nat pos + length bs) (uf_bytes f).
Proof.
  intros H0 H1. rewrite uf_write_bytes by done.
  replace (Z.to_nat pos - length (uf_bytes f))%nat with O by lia. by rewrite app_nil_r.
Qed.

Lemma read_sector f m n : holds_sectors f m -> on_disk n ->
  Read f (SectorSize * n + MagicSize) SectorSize = Ok (sector m n).
Proof.
  intros [Hl _ Hs] Hn. destruct (offset_bounds n Hn) as [_ Hb]. unfold Read.
  rewrite uf_read_bytes by (unfold on_disk, SectorSize, MagicSize in *; lia).
  fold (offset n). change (Z.to_nat SectorSize) with 128%nat. rewrite (Hs n Hn).
  rewrite bool_decide_eq_true_2; [done|]. rewrite <-(Hs n Hn), length_take, length_drop.
  unfold SectorSize. lia.
Qed.

Lemma write_sector f m n data : holds_sectors f m -> on_disk n -> length data = 128%nat ->
  holds_sectors (uf_write f (SectorSize * n + MagicSize) data) (<[n := data]> m).
Proof.
  intros [Hl Hm Hs] Hn Hd. destruct (offset_bounds n Hn) as [Ho Hb].
  assert (uf_bytes (uf_write f (SectorSize * n + MagicSize) data) =
    take (offset n) (uf_bytes f) ++ data ++ drop (offset n + length data) (uf_bytes f)) as E.
  { apply uf_write_inside; unfold on_disk, offset, SectorSize, MagicSize in *; lia. }
  assert (offset n + length data <= length (uf_bytes f))%nat as Hin by lia.
  split; rewrite E.
  - by rewrite splice_length.
  - rewrite <-Hm. f_equal. apply (splice_before _ _ _ 0); lia.
  - intros k Hk. unfold sector. destruct (decide (k = n)) as [->|Hne].
    + rewrite lookup_insert_eq. cbn [default]. rewrite <-Hd. by apply splice_same.
    + rewrite lookup_insert_ne by done. fold (sector m k). rewrite <-(Hs k Hk).
      destruct (offset_disjoint n k) as [H|H]; [done..| |]; [apply splice_after|apply splice_before]; lia.
Qed.

(** A new disk file: the magic number, then zeros. *)
Lemma new_image_bytes :
  uf_bytes (uf_write (uf_write uf_empty 0 (int_bytes MagicNumber) : F) (DiskSize - 4) (int_bytes 0)) =
  int_bytes MagicNumber ++ replicate (Z.to_nat (DiskSize - 4)) 0.
Proof.
  pose proof (int_bytes_length MagicNumber) as Hl.
  assert (uf_bytes (uf_write uf_empty 0 (int_bytes MagicNumber) : F) = int_bytes MagicNumber) as E.
  { rewrite uf_write_bytes, uf_empty_bytes by done. simpl. by rewrite drop_nil, app_nil_r. }
  rewrite uf_write_bytes by (unfold DiskSize, MagicSize, NumSectors, SectorSize; lia). rewrite E, Hl.
  assert (int_bytes 0 = replicate 4 0) as -> by exact word_bytes_zero. cbn [length replicate].
  set (N := Z.to_nat (DiskSize - 4)).
  assert (8 <= N)%nat as HN by (unfold N, DiskSize, MagicSize, NumSectors, SectorSize; lia).
  rewrite (drop_ge (int_bytes MagicNumber)) by (rewrite Hl; lia).
  change ([0; 0; 0; 0] ++ []) with (replicate 4 0). clearbody N.
  rewrite take_ge by (rewrite length_app, length_replicate, Hl; lia).
  rewrite <-app_assoc, <-replicate_add. do 2 f_equal. lia.
Qed.

Lemma new_image : holds_sectors (uf_write (uf_write uf_empty 0 (int_bytes MagicNumber)) (DiskSize - 4) (int_bytes 0)) ∅.
Proof.
  pose proof (int_bytes_length MagicNumber) as Hl. split; rewrite new_image_bytes.
  - rewrite length_app, length_replicate, Hl. unfold DiskSize, MagicSize, NumSectors, SectorSize. lia.
  - rewrite take_app_length' by done. apply bytes_int_bytes. unfold in_i32, MagicNumber. lia.
  - intros n Hn. destruct (offset_bounds n Hn) as [Ho Hb].
    rewrite drop_app_ge by lia. rewrite Hl, drop_replicate, take_replicate.
    unfold sector. rewrite lookup_empty. cbn [default]. f_equal. unfold SectorSize. lia.
Qed.

Lemma Disk_new_ok (file : option F) m :
  match file with Some f => holds_sectors f m | None => m = ∅ end ->
  exists d, Disk_new file = Ok d /\ holds_sectors (image d) m /\ active d = false /\
    lastSector d = 0 /\ bufferInit d = 0.
Proof.
  destruct file as [f|]; cbn [Disk_new].
  - intros Hf. pose proof Hf as [Hl Hm _]. unfold Read. rewrite uf_read_bytes by (unfold MagicSize; lia).
    rewrite drop_0. change (Z.to_nat MagicSize) with 4%nat.
    rewrite bool_decide_eq_true_2.
    2: { rewrite length_take. unfold DiskSize, MagicSize, NumSectors, SectorSize in *. lia. }
    cbn [ASSERT rbind]. rewrite bool_decide_eq_true_2 by done. by eexists.
  - intros ->. eexists. split; [reflexivity|]. split_and!; [apply new_image|done..].
Qed.
End Contents.

(** ** Requests against the array of sectors *)

Inductive request := Rd (n : Z) | Wr (n : Z) (data : list Z).

(** A buffer holds one sector. *)
Definition request_ok (r : request) : Prop := match r with Rd _ => True | Wr _ data => length data = 128%nat end.
Definition request_sector (r : request) : Z := match r with Rd n => n | Wr n _ => n end.

(** [Files.ReadSector] and [Files.WriteSector]. *)
Definition spec_request (r : request) (m : disk) : res (disk * list Z) :=
  match r with
  | Rd n => let* b := ReadSector m n in Ok (m, b)
  | Wr n data => let* m := WriteSector m n data in Ok (m, [])
  end.

Section Requests.
Context {F : Type} `{UF : !UnixFile F} `{HO : HostOrder}.
Implicit Type d : Disk F.

Definition issue (now : Z) (r : request) (d : Disk F) : res (Disk F * list Z * Z) :=
  match r with
  | Rd n => ReadRequest now d n
  | Wr n data => let* '(d, ticks) := WriteRequest now d n data in Ok (d, [], ticks)
  end.

Record disk_ok (d : Disk F) (m : disk) : Prop := {
  do_image : holds_sectors (image d) m;
  do_last : on_disk (lastSector d)
}.

Lemma UpdateLast_image d now n : image (UpdateLast d now n) = image d /\ active (UpdateLast d now n) = active d /\
  lastSector (UpdateLast d now n) = n.
Proof. unfold UpdateLast. by destruct (TimeToSeek _ _ _). Qed.

(** Both requests, once the ASSERTs hold. *)
Lemma issue_idle now r d m : disk_ok d m -> active d = false -> request_ok r ->
  match spec_request r m with
  | Ok (m', a) => exists d', issue now r d = Ok (d', a, ComputeLatency d now (request_sector r)
      match r with Rd _ => false | Wr _ _ => true end) /\ disk_ok d' m' /\ active d' = true
  | Fault e => issue now r d = Fault e
  end.
Proof.
  intros [Hf Hl] Ha Hr. destruct r as [n|n data]; cbn [issue spec_request request_sector];
    unfold ReadRequest, WriteRequest, ReadSector, WriteSector; rewrite Ha; cbn [negb ASSERT rbind];
    destruct (bool_decide (n >= 0) && bool_decide (n < NumSectors)) eqn:Hb; cbn [ASSERT rbind]; try done;
    rewrite andb_true_iff, !bool_decide_eq_true in Hb;
    (assert (on_disk n) as Hn by (unfold on_disk; lia)).
  - change (image (set_active true d)) with (image d). rewrite (read_sector _ m) by done. cbn [rbind].
    eexists. split; [reflexivity|]. destruct (UpdateLast_image (set_active true d) now n) as (E1 & E2 & E3).
    split; [|by rewrite E2]. split; [by rewrite E1|by rewrite E3].
  - eexists. split; [reflexivity|].
    match goal with |- disk_ok (UpdateLast ?x _ _) _ /\ _ => destruct (UpdateLast_image x now n) as (E1 & E2 & E3) end.
    split; [|by rewrite E2]. split; [rewrite E1; by apply write_sector|by rewrite E3].
Qed.

Lemma issue_busy now r d : active d = true -> issue now r d = Fault AssertFail.
Proof. intros Ha. destruct r; cbn [issue]; unfold ReadRequest, WriteRequest; by rewrite Ha. Qed.

(** Requests one after the other, at the given times, each followed by the
    interrupt. *)
Fixpoint run_requests (rs : list (Z * request)) (d : Disk F) : res (Disk F * list (list Z)) :=
  match rs with
  | [] => Ok (d, [])
  | (now, r) :: rs =>
      let* '(d, a, _) := issue now r d in
      let* '(d, l) := run_requests rs (HandleInterrupt d) in
      Ok (d, a :: l)
  end.
End Requests.

Fixpoint run_spec (rs : list request) (m : disk) : res (disk * list (list Z)) :=
  match rs with
  | [] => Ok (m, [])
  | r :: rs =>
      let* '(m, a) := spec_request r m in
      let* '(m, l) := run_spec rs m in
      Ok (m, a :: l)
  end.

(** * Properties *)

(** C14: the disk is the array of sectors the file system is written for. From
    a new disk file, or one that holds sectors [m], any sequence of requests
    with sector-sized buffers gives the answers of [ReadSector] and
    [WriteSector] of [Files] and leaves the file with their sectors, and it
    stops at an ASSERT exactly where they do. *)
Theorem disk_refines_sectors {F} `{UF : !UnixFile F} `{HO : HostOrder} (file : option F) m rs :
  match file with Some f => holds_sectors f m | None => m = ∅ end ->
  Forall (fun p => request_ok p.2) rs ->
  exists d, Disk_new file = Ok d /\
    match run_spec rs.*2 m with
    | Ok (m', l) => exists d', run_requests rs d = Ok (d', l) /\ holds_sectors (image d') m' /\ active d' = false
    | Fault e => run_requests rs d = Fault e
    end.
Proof.
  intros Hf Hrs. destruct (Disk_new_ok file m Hf) as (d & Hd & Him & Ha & Hl & _). exists d. split; [done|].
  assert (disk_ok d m) as Hok by (split; [done|rewrite Hl; unfold on_disk, NumSectors; lia]).
  clear Hf Hd Him Hl. revert d m Hok Ha. induction Hrs as [|[now r] rs Hr _ IH]; intros d m Hok Ha.
  { cbn. exists d. split_and!; [done|apply Hok|done]. }
  cbn [fmap list_fmap snd run_spec run_requests]. pose proof (issue_idle now r d m Hok Ha Hr) as Hi.
  destruct (spec_request r m) as [[m' a]|e]; cbn [rbind]; [|by rewrite Hi].
  destruct Hi as (d' & -> & [Him' Hl'] & Hact). cbn [rbind].
  assert (disk_ok (HandleInterrupt d') m') as Hok' by by split.
  specialize (IH (HandleInterrupt d') m' Hok' eq_refl).
  destruct (run_spec rs.*2 m') as [[m2 l]|e]; cbn [rbind]; [|by rewrite IH].
  destruct IH as (d2 & -> & ? & ?). cbn [rbind]. by exists d2.
Qed.

(** the device takes one request at a time. While a request is under way a
    second one stops at its ASSERT; an accepted one makes the device busy until
    [HandleInterrupt], and its interrupt is due between one rotation time and a
    full seek and turn later, so it is never due at once. *)
Theorem request_interrupt_pending {F} `{UF : !UnixFile F} `{HO : HostOrder} (d : Disk F) m now r :
  disk_ok d m -> request_ok r -> 0 <= now ->
  (active d = true -> issue now r d = Fault AssertFail) /\
  (forall d' a ticks, issue now r d = Ok (d', a, ticks) ->
     active d = false /\ active d' = true /\ RotationTime <= ticks < latency_max /\
     active (HandleInterrupt d') = false /\ lastSector d' = request_sector r /\ on_disk (request_sector r)).
Proof.
  intros Hok Hr Hnow. split; [apply issue_busy|]. intros d' a ticks Hi.
  destruct (active d) eqn:Ha; [by rewrite issue_busy in Hi|]. split; [done|].
  pose proof (issue_idle now r d m Hok Ha Hr) as H.
  destruct (spec_request r m) as [[m' a']|e] eqn:Hs; [|congruence]. destruct H as (d2 & H & Hok' & Hact).
  rewrite H in Hi. injection Hi as -> -> <-.
  assert (on_disk (request_sector r)) as Hn.
  { destruct r; cbn [spec_request] in Hs; unfold ReadSector, WriteSector in Hs; unfold on_disk, request_sector;
      destruct (bool_decide (n >= 0)) eqn:E1, (bool_decide (n < NumSectors)) eqn:E2; try done;
      rewrite bool_decide_eq_true in E1, E2; lia. }
  split; [done|]. split; [by apply ComputeLatency_range; [apply Hok|..]|]. split; [done|]. split; [|done].
  revert H. destruct r; cbn [issue]; unfold ReadRequest, WriteRequest; rewrite Ha; cbn [negb ASSERT rbind].
  - destruct (_ && _); [cbn [ASSERT rbind]|done]. destruct (Read _ _ _); [cbn [rbind]|done]. intros [= <- _].
    apply UpdateLast_image.
  - destruct (_ && _); [cbn [ASSERT rbind]|done]. intros [= <- _]. apply UpdateLast_image.
Qed.

(** ** Witnesses *)

Definition idle_disk : Disk (list Z) := mkDisk [] false 40 0.

(** From track 1 to sector 70 on track 2, at time 1234. *)
Example latency_is_first_passage_witness :
  ComputeLatency idle_disk 1234 70 true = 2266 /\
  passes 70 (1234 + 2266 - RotationTime) /\ 1234 + seek_time 40 70 <= 1234 + 2266 - RotationTime.
Proof.
  split; [vm_compute; reflexivity|].
  destruct (latency_is_first_passage idle_disk 1234 70 true) as [(Hp & Ha & _)|(Hw & _)].
  - unfold on_disk, NumSectors. cbn. lia.
  - unfold on_disk, NumSectors. lia.
  - lia.
  - lia.
  - cbn. lia.
  - reflexivity.
  - split; [exact Hp|exact Ha].
  - discriminate Hw.
Defined.

Example disk_refines_sectors_witness :
  exists d d' : Disk (list Z), Disk_new None = Ok d /\
    run_requests [(0, Wr 3 (replicate 128 7)); (9000, Rd 3); (20000, Rd 1023)] d =
      Ok (d', [[]; replicate 128 7; replicate 128 0]).
Proof.
  destruct (disk_refines_sectors (F := list Z) None ∅ [(0, Wr 3 (replicate 128 7)); (9000, Rd 3); (20000, Rd 1023)])
    as (d & Hd & H).
  - reflexivity.
  - constructor; [reflexivity|]. constructor; [exact I|]. constructor; [exact I|constructor].
  - assert (exists m, run_spec [Wr 3 (replicate 128 7); Rd 3; Rd 1023] ∅ =
      Ok (m, [[]; replicate 128 7; replicate 128 0])) as [m E] by (eexists; vm_compute; reflexivity).
    cbn [fmap list_fmap snd] in H. rewrite E in H. destruct H as (d' & Hd' & _).
    exists d, d'. split; [exact Hd|exact Hd'].
Defined.

Example request_interrupt_pending_witness :
  exists d : Disk (list Z), active d = true /\ issue 700 (Rd 3) d = Fault AssertFail.
Proof.
  destruct (Disk_new_ok (F := list Z) None ∅ eq_refl) as (d & _ & Him & _ & Hl & _).
  exists (set_active true d). split; [reflexivity|].
  apply (request_interrupt_pending (set_active true d) ∅ 700 (Rd 3)).
  - split; [exact Him|]. cbn [set_active lastSector]. rewrite Hl. unfold on_disk, NumSectors. lia.
  - exact I.
  - lia.
  - reflexivity.
Defined.
