(* ===== verification/Interrupt.v ===== *)
(** * machine/interrupt.cc, machine/timer.cc: the simulated clock

    Interrupts pending on a sorted list, the clock that advances by ticks or, on
    an idle machine, to the next interrupt, and the timer device. A device is
    known by the number of its handler; what the handlers of the devices and
    [Thread::Yield] do is the interface [Devices]. The list is the interface
    [SortedQueue], which the linked list of threads/list.cc implements. Ticks are
    [int64_t], taken as unbounded. *)
From Stdlib Require Import Sorting.Sorted.
From S2P Require Import Prelude LinkedList Machine.

(** ** A list sorted by key, as its clients use it *)
Class SortedQueue (A Q : Type) := {
  sq_rep : Q -> list (Z * A) -> Prop;
  sq_new : Q;
  sq_insert : A -> Z -> ST Q unit;
  sq_remove : ST Q (option (Z * A));
  sq_is_empty : Q -> bool;
  sq_new_rep : sq_rep sq_new [];
  sq_insert_rep : forall q xs x k, sq_rep q xs ->
    exists q', sq_insert x k q = Ok (q', tt) /\ sq_rep q' (sorted_insert k x xs);
  sq_remove_rep : forall q xs, sq_rep q xs ->
    exists q', sq_remove q = Ok (q', head xs) /\ sq_rep q' (tail xs);
  sq_is_empty_rep : forall q xs, sq_rep q xs -> sq_is_empty q = bool_decide (xs = [])
}.

#[export] Program Instance List_SortedQueue (A : Type) : SortedQueue A (gmap nat (ListElement A) * List) := {|
  sq_rep := fun q xs => exists cs, cells q.1 q.2 cs /\ cs.*2 = xs;
  sq_new := (∅, List_new);
  sq_insert := SortedInsert;
  sq_remove := SortedRemove;
  sq_is_empty := fun q => IsEmpty q.2
|}.
Next Obligation. intros A. exists []. split_and!; try done. split_and!; [done|done|constructor]. Qed.
Next Obligation.
  intros A [h L] xs x k (cs & Hc & <-). cbn in *.
  destruct (SortedInsert_cells h L cs x k Hc) as (h' & L' & cs' & Hrun & Hc' & Hx & _).
  exists (h', L'). split; [done|]. by exists cs'.
Qed.
Next Obligation.
  intros A [h L] xs (cs & Hc & <-). cbn in *.
  destruct (SortedRemove_cells h L cs Hc) as (h' & L' & Hrun & Hc' & _).
  exists (h', L'). split; [etrans; [exact Hrun|by destruct cs as [|[? ?] ?]]|]. exists (tail cs). by destruct cs.
Qed.
Next Obligation.
  intros A [h L] xs (cs & Hc & <-). cbn in *. rewrite (IsEmpty_cells h L cs Hc).
  by destruct cs.
Qed.

(** ** State *)

Inductive IntType := TimerInt | DiskInt | ConsoleWriteInt | ConsoleReadInt | NetworkSendInt | NetworkRecvInt.
#[global] Instance IntType_eq_dec : EqDecision IntType.
Proof. solve_decision. Defined.

Record PendingInterrupt := mkPending { handler : nat; arg : Z; when : Z; type : IntType }.

Definition UserTick : Z := 1.
Definition SystemTick : Z := 10.
Definition TimerTicks : Z := 100.

(** Of [Statistics]: the clock. *)
Record Statistics := mkStatistics { totalTicks : Z; idleTicks : Z; systemTicks : Z; userTicks : Z }.

Section Interrupt.
  Context {Q : Type} `{SQ : SortedQueue PendingInterrupt Q} {D : Type}.

(** The members of [Interrupt], the clock and the rest of the machine; [served]
    records the interrupts that were delivered, the last first. It is no member
    of the program's classes. *)
Record Sys := mkSys {
  level : IntStatus;
  pending : Q;
  inHandler : bool;
  yieldOnReturn : bool;
  status : MachineStatus;
  stats : Statistics;
  devices : D;
  served : list PendingInterrupt
}.

Definition set_level (x : IntStatus) (s : Sys) : Sys :=
  mkSys x (pending s) (inHandler s) (yieldOnReturn s) (status s) (stats s) (devices s) (served s).
Definition set_pending (x : Q) (s : Sys) : Sys :=
  mkSys (level s) x (inHandler s) (yieldOnReturn s) (status s) (stats s) (devices s) (served s).
Definition set_inHandler (x : bool) (s : Sys) : Sys :=
  mkSys (level s) (pending s) x (yieldOnReturn s) (status s) (stats s) (devices s) (served s).
Definition set_yieldOnReturn (x : bool) (s : Sys) : Sys :=
  mkSys (level s) (pending s) (inHandler s) x (status s) (stats s) (devices s) (served s).
Definition set_status (x : MachineStatus) (s : Sys) : Sys :=
  mkSys (level s) (pending s) (inHandler s) (yieldOnReturn s) x (stats s) (devices s) (served s).
Definition set_stats (x : Statistics) (s : Sys) : Sys :=
  mkSys (level s) (pending s) (inHandler s) (yieldOnReturn s) (status s) x (devices s) (served s).
Definition set_devices (x : D) (s : Sys) : Sys :=
  mkSys (level s) (pending s) (inHandler s) (yieldOnReturn s) (status s) (stats s) x (served s).
Definition set_served (x : list PendingInterrupt) (s : Sys) : Sys :=
  mkSys (level s) (pending s) (inHandler s) (yieldOnReturn s) (status s) (stats s) (devices s) x.

Definition now (s : Sys) : Z := totalTicks (stats s).

Abbreviation K := (ST Sys).

(** What the interrupt simulation calls: the handlers, [Thread::Yield] and
    [machine->DelayedLoad(0, 0)]. *)
Class Devices := {
  handle : nat -> Z -> K unit;
  Yield : K unit;
  delayed_load : D -> D
}.
End Interrupt.
Arguments Sys : clear implicits.
Arguments Devices : clear implicits.

Section Operations.
  Context {Q : Type} `{SQ : SortedQueue PendingInterrupt Q} {D : Type} `{DV : !Devices Q D}.
  Abbreviation K := (ST (Sys Q D)).
  Implicit Types s : Sys Q D.

Definition Interrupt_new (st : Statistics) (d : D) : Sys Q D :=
  mkSys IntOff sq_new false false SystemMode st d [].

Definition ChangeLevel (old new : IntStatus) : K unit := modify (set_level new).

(** [pending->SortedInsert(toOccur, when)] *)
Definition insert_pending (p : PendingInterrupt) (k : Z) : K unit := fun s =>
  let* '(q, _) := sq_insert p k (pending s) in Ok (set_pending q s, tt).

Definition Schedule (h : nat) (a fromNow : Z) (ty : IntType) : K unit :=
  s <- get ;;
  let w := now s + fromNow in
  let toOccur := mkPending h a w ty in
  lift (ASSERT (bool_decide (fromNow > 0))) ;;;
  insert_pending toOccur w.

Definition YieldOnReturn : K unit :=
  s <- get ;;
  lift (ASSERT (inHandler s)) ;;;
  put (set_yieldOnReturn true s).

(** [Cleanup] never returns. *)
Definition Halt : K unit := fail MachineHalt.

(** The call of the handler at the end of [CheckIfDue]. *)
Definition fire (old : MachineStatus) (p : PendingInterrupt) : K bool :=
  modify (fun s => set_devices (delayed_load (devices s)) s) ;;;
  modify (set_inHandler true) ;;;
  modify (set_status SystemMode) ;;;
  modify (fun s => set_served (p :: served s) s) ;;;
  handle (handler p) (arg p) ;;;
  modify (set_status old) ;;;
  modify (set_inHandler false) ;;;
  sret true.

Definition CheckIfDue (advanceClock : bool) : K bool :=
  s <- get ;;
  let old := status s in
  lift (ASSERT (bool_decide (level s = IntOff))) ;;;
  r <- (fun s => let* '(q, r) := sq_remove (pending s) in Ok (set_pending q s, r)) ;;
  match r with
  | None => sret false
  | Some (w, toOccur) =>
      if negb advanceClock && bool_decide (w > now s) then
        insert_pending toOccur w ;;; sret false
      else
        (if bool_decide (w > now s) then
           modify (fun s => set_stats (mkStatistics w (idleTicks (stats s) + (w - now s))
                                         (systemTicks (stats s)) (userTicks (stats s))) s)
         else sret tt) ;;;
        s <- get ;;
        if bool_decide (status s = IdleMode) && bool_decide (type toOccur = TimerInt) && sq_is_empty (pending s) then
          insert_pending toOccur w ;;; sret false
        else fire old toOccur
  end.

(** [while (CheckIfDue(FALSE));] *)
Fixpoint check_loop (fuel : nat) : K unit :=
  match fuel with
  | O => fail OutOfFuel
  | S fuel => fired <- CheckIfDue false ;; if fired : bool then check_loop fuel else sret tt
  end.

(** [OneTick] up to the test of [yieldOnReturn]. *)
Definition tick (fuel : nat) : K unit :=
  modify (fun s =>
    let t := stats s in
    match status s with
    | SystemMode => set_stats (mkStatistics (totalTicks t + SystemTick) (idleTicks t) (systemTicks t + SystemTick) (userTicks t)) s
    | _ => set_stats (mkStatistics (totalTicks t + UserTick) (idleTicks t) (systemTicks t) (userTicks t + UserTick)) s
    end) ;;;
  ChangeLevel IntOn IntOff ;;;
  check_loop fuel ;;;
  ChangeLevel IntOff IntOn.

Definition OneTick (fuel : nat) : K unit :=
  s <- get ;;
  let old := status s in
  tick fuel ;;;
  s <- get ;;
  if yieldOnReturn s then
    modify (set_yieldOnReturn false) ;;; modify (set_status SystemMode) ;;;
    Yield ;;;
    modify (set_status old)
  else sret tt.

Definition SetLevel (fuel : nat) (new : IntStatus) : K IntStatus :=
  s <- get ;;
  let old := level s in
  lift (ASSERT (bool_decide (new = IntOff) || negb (inHandler s))) ;;;
  ChangeLevel old new ;;;
  (if bool_decide (new = IntOn) && bool_decide (old = IntOff) then OneTick fuel else sret tt) ;;;
  sret old.

Definition Idle (fuel : nat) : K unit :=
  modify (set_status IdleMode) ;;;
  fired <- CheckIfDue true ;;
  if fired : bool then
    check_loop fuel ;;;
    modify (set_yieldOnReturn false) ;;;
    modify (set_status SystemMode)
  else Halt.

End Operations.

(** * Lemmas *)

Section Specification.
  Context {Q : Type} `{SQ : SortedQueue PendingInterrupt Q} {D : Type} `{DV : !Devices Q D}.
  Implicit Types (s : Sys Q D) (xs : list (Z * PendingInterrupt)).

(** The pending interrupts, the earliest first. *)
Definition queue xs s : Prop := sq_rep (pending s) xs /\ StronglySorted key_le xs.

(** Those that are to be delivered by time [t]. *)
Definition due (t : Z) xs : list (Z * PendingInterrupt) := filter (fun p => p.1 <= t) xs.

Definition insert_all (new xs : list (Z * PendingInterrupt)) : list (Z * PendingInterrupt) :=
  foldl (fun l p => sorted_insert p.1 p.2 l) xs new.

(** What a handler may do: schedule interrupts for later, and ask for a yield;
    a handler that [asks] does. *)
Definition handler_ok (asks : Prop) (f : ST (Sys Q D) unit) : Prop :=
  forall s xs, level s = IntOff -> inHandler s = true -> status s = SystemMode -> queue xs s ->
  exists s' new, f s = Ok (s', tt) /\ Forall (fun p => now s < p.1) new /\
    queue (insert_all new xs) s' /\ level s' = IntOff /\ stats s' = stats s /\ served s' = served s /\
    (yieldOnReturn s = true \/ asks -> yieldOnReturn s' = true).

(** The devices whose handlers [yields] says ask for a yield. *)
Class DevicesOK (yields : nat -> Prop) : Prop := {
  handle_ok : forall h a, handler_ok (yields h) (handle h a)
}.

Lemma insert_all_Permutation new xs : Permutation (insert_all new xs) (new ++ xs).
Proof.
  revert xs. induction new as [|[k x] new IH]; intros xs; [done|].
  change (Permutation (insert_all new (sorted_insert k x xs)) ((k, x) :: new ++ xs)).
  rewrite IH, sorted_insert_Permutation. by rewrite <-Permutation_middle.
Qed.

Lemma sorted_insert_due t k x xs : t < k -> due t (sorted_insert k x xs) = due t xs.
Proof.
  intros Hk. induction xs as [|[k' y] xs IH]; cbn [sorted_insert].
  - unfold due. by rewrite filter_cons_False by (cbn; lia).
  - case_decide; unfold due in *.
    + rewrite filter_cons_False by (cbn; lia). done.
    + rewrite !filter_cons, IH. done.
Qed.

Lemma insert_all_due t new xs : Forall (fun p => t < p.1) new -> due t (insert_all new xs) = due t xs.
Proof.
  intros H. revert xs. induction H as [|[k x] new Hk _ IH]; intros xs; [done|].
  change (due t (insert_all new (sorted_insert k x xs)) = due t xs). rewrite IH. by apply sorted_insert_due.
Qed.

Lemma due_later t xs : StronglySorted key_le xs -> (forall p, head xs = Some p -> t < p.1) -> due t xs = [].
Proof.
  intros Hs Hh. destruct Hs as [|[k x] xs Hs HF]; [done|]. specialize (Hh _ eq_refl). cbn in Hh.
  unfold due. rewrite filter_cons_False by (cbn; lia). clear Hs. induction HF as [|[k' y] xs Hk _ IH]; [done|].
  rewrite filter_cons_False; [done|]. unfold key_le in Hk. cbn in *. lia.
Qed.

Lemma insert_pending_ok p k s xs : queue xs s ->
  exists q, insert_pending p k s = Ok (set_pending q s, tt) /\ queue (sorted_insert k p xs) (set_pending q s).
Proof.
  intros [Hr Hs]. destruct (sq_insert_rep (pending s) xs p k Hr) as (q & Hi & Hq).
  exists q. unfold insert_pending. rewrite Hi. split; [done|]. split; [done|by apply sorted_insert_sorted].
Qed.

(** ** One round of [CheckIfDue] *)

Definition advance (adv : bool) (w : Z) s : Sys Q D :=
  if adv && bool_decide (w > now s) then
    set_stats (mkStatistics w (idleTicks (stats s) + (w - now s)) (systemTicks (stats s)) (userTicks (stats s))) s
  else s.

(** The last interrupt is the timer's, and nothing else can happen. *)
Definition only_timer s xs : Prop :=
  status s = IdleMode /\ exists w p, xs = [(w, p)] /\ type p = TimerInt.

(** What delivering [p] leaves, with [xs] pending. *)
Definition fired (yields : nat -> Prop) (p : PendingInterrupt) xs s s' : Prop :=
  exists new, Forall (fun p => now s < p.1) new /\ queue (insert_all new xs) s' /\
    level s' = IntOff /\ stats s' = stats s /\ served s' = p :: served s /\ status s' = status s /\ inHandler s' = false /\
    (yieldOnReturn s = true \/ yields (handler p) -> yieldOnReturn s' = true).

Lemma check_empty adv s : level s = IntOff -> queue [] s ->
  exists s', CheckIfDue adv s = Ok (s', false) /\ queue [] s' /\ s' = set_pending (pending s') s.
Proof.
  intros Hl [Hr Hs]. destruct (sq_remove_rep (pending s) [] Hr) as (q & Hrm & Hq).
  exists (set_pending q s). unfold CheckIfDue, sbind, get, lift. rewrite bool_decide_eq_true_2 by done.
  cbn [ASSERT]. rewrite Hrm. by split_and!.
Qed.

Lemma check_later s w p xs : level s = IntOff -> queue ((w, p) :: xs) s -> now s < w ->
  exists s', CheckIfDue false s = Ok (s', false) /\ queue (sorted_insert w p xs) s' /\ s' = set_pending (pending s') s.
Proof.
  intros Hl [Hr Hs] Hw. destruct (sq_remove_rep (pending s) _ Hr) as (q & Hrm & Hq). cbn [head tail] in *.
  apply StronglySorted_inv in Hs as [Hs _].
  destruct (insert_pending_ok p w (set_pending q s) xs (conj Hq Hs)) as (q' & Hi & Hq').
  exists (set_pending q' s). unfold CheckIfDue, sbind, get, lift. rewrite bool_decide_eq_true_2 by done.
  cbn [ASSERT]. rewrite Hrm. cbn [rbind negb andb]. rewrite bool_decide_eq_true_2 by (change (w > now s); lia).
  rewrite Hi. by split_and!.
Qed.

(** When the first interrupt is due, or the clock moves to it. *)
Lemma check_first adv s w p xs : level s = IntOff -> queue ((w, p) :: xs) s -> adv = true \/ w <= now s ->
  exists q, sq_rep q xs /\ StronglySorted key_le xs /\ CheckIfDue adv s =
    (if bool_decide (status s = IdleMode) && bool_decide (type p = TimerInt) && bool_decide (xs = []) then
       insert_pending p w ;;; sret false else fire (status s) p) (set_pending q (advance adv w s)).
Proof.
  intros Hl [Hr Hs] Hadv. destruct (sq_remove_rep (pending s) _ Hr) as (q & Hrm & Hq). cbn [head tail] in *.
  apply StronglySorted_inv in Hs as [Hs _]. exists q. split; [done|]. split; [done|].
  unfold CheckIfDue, sbind at 1, get at 1. unfold sbind at 1, lift. rewrite bool_decide_eq_true_2 by done.
  cbn [ASSERT]. unfold sbind at 1. rewrite Hrm. cbn [rbind]. change (now (set_pending q s)) with (now s).
  assert (negb adv && bool_decide (w > now s) = false) as ->.
  { destruct adv; [done|]. cbn [negb andb]. apply bool_decide_eq_false_2. destruct Hadv; [done|lia]. }
  assert ((if bool_decide (w > now s) then modify (fun s => set_stats (mkStatistics w (idleTicks (stats s) + (w - now s))
            (systemTicks (stats s)) (userTicks (stats s))) s) else sret tt) (set_pending q s) =
          Ok (set_pending q (advance adv w s), tt)) as HA.
  { unfold advance. destruct (bool_decide (w > now s)) eqn:Hb; [|by rewrite andb_false_r].
    apply bool_decide_eq_true in Hb. destruct Hadv as [->|?]; [|lia]. done. }
  unfold sbind at 1. rewrite HA. unfold sbind at 1, get.
  assert (status (set_pending q (advance adv w s)) = status s) as -> by (unfold advance; by destruct (_ && _)).
  assert (sq_is_empty (pending (set_pending q (advance adv w s))) = bool_decide (xs = [])) as -> by by apply sq_is_empty_rep.
  done.
Qed.

(** ** Delivery *)

Section Delivery.
  Context (yields : nat -> Prop) (DK : DevicesOK yields).

Lemma fire_ok p xs s : level s = IntOff -> queue xs s ->
  exists s', fire (status s) p s = Ok (s', true) /\ fired yields p xs s s'.
Proof.
  intros Hl Hq.
  set (s2 := set_served (p :: served s) (set_status SystemMode (set_inHandler true (set_devices (delayed_load (devices s)) s)))).
  destruct (handle_ok (handler p) (arg p) s2 xs Hl eq_refl eq_refl Hq) as (s3 & new & Hrun & Hnew & Hq3 & Hl3 & Hst & Hsv & Hy).
  exists (set_inHandler false (set_status (status s) s3)). split.
  - unfold fire, sbind, modify. cbv beta iota.
    lazymatch goal with |- context [handle _ _ ?x] => change x with s2 end. by rewrite Hrun.
  - exists new. by split_and!.
Qed.

(** The loop delivers what is due, in order, and keeps the rest. *)
Record delivered (f xs : list (Z * PendingInterrupt)) s (xs' : list (Z * PendingInterrupt)) s' : Prop := {
  delivered_queue : queue xs' s';
  delivered_due : due (now s) xs = f ++ due (now s) xs';
  delivered_kept : exists new, Forall (fun p => now s < p.1) new /\ Permutation (f ++ xs') (new ++ xs);
  delivered_served : served s' = reverse f.*2 ++ served s;
  delivered_stats : stats s' = stats s;
  delivered_level : level s' = level s;
  delivered_status : status s' = status s;
  delivered_inHandler : inHandler s = false -> inHandler s' = false;
  delivered_yield : yieldOnReturn s = true \/ Exists (fun p => yields (handler p.2)) f -> yieldOnReturn s' = true
}.

Lemma delivered_nil xs s xs' s' : queue xs' s' -> due (now s) xs = due (now s) xs' -> Permutation xs' xs ->
  s' = set_pending (pending s') s -> delivered [] xs s xs' s'.
Proof. intros Hq Hd Hp ->. split; try done; [by exists []|]. by intros [?|?%Exists_nil]. Qed.

Lemma delivered_cons w p xs s s1 f xs' s' new : w <= now s -> queue (insert_all new xs) s1 ->
  Forall (fun p => now s < p.1) new -> level s1 = level s -> stats s1 = stats s -> served s1 = p :: served s ->
  status s1 = status s -> inHandler s1 = false ->
  (yieldOnReturn s = true \/ yields (handler p) -> yieldOnReturn s1 = true) ->
  delivered f (insert_all new xs) s1 xs' s' -> delivered ((w, p) :: f) ((w, p) :: xs) s xs' s'.
Proof.
  intros Hw Hq Hnew Hl Hst Hsv Hstat Hin Hy []. assert (now s1 = now s) as Hn by (unfold now; by rewrite Hst).
  rewrite Hn in *. split; try congruence.
  - unfold due in *. rewrite filter_cons_True by done. cbn [app]. f_equal.
    rewrite <-delivered_due0. symmetry. by apply insert_all_due.
  - destruct delivered_kept0 as (new' & Hnew' & HP). exists (new' ++ new). split; [by apply Forall_app|].
    cbn [app]. rewrite HP, insert_all_Permutation, <-app_assoc. by rewrite !Permutation_middle.
  - rewrite delivered_served0, Hsv. cbn [fmap list_fmap]. rewrite reverse_cons, <-app_assoc. done.
  - auto.
  - intros HY. apply delivered_yield0. rewrite Exists_cons in HY. cbn in HY. naive_solver.
Qed.

Lemma check_loop_ok fuel s xs : level s = IntOff -> queue xs s -> (length (due (now s) xs) < fuel)%nat ->
  exists f xs' s', check_loop fuel s = Ok (s', tt) /\ delivered f xs s xs' s' /\
    (due (now s) xs' = [] \/ only_timer s xs').
Proof.
  revert s xs. induction fuel as [|fuel IH]; intros s xs Hl Hq Hlen; [lia|]. cbn [check_loop]. unfold sbind at 1.
  destruct xs as [|[w p] xs].
  { destruct (check_empty false s Hl Hq) as (s' & -> & Hq' & Heq). exists [], [], s'. split; [done|].
    split; [by apply delivered_nil|by left]. }
  destruct (decide (now s < w)) as [Hw|Hw].
  { destruct (check_later s w p xs Hl Hq Hw) as (s' & -> & Hq' & Heq). exists [], (sorted_insert w p xs), s'.
    assert (due (now s) ((w, p) :: xs) = []) as Hd by (apply due_later; [apply Hq|by intros ? [= <-]]).
    assert (due (now s) (sorted_insert w p xs) = []) as Hd'.
    { rewrite sorted_insert_due by done. unfold due in *. rewrite filter_cons_False in Hd by (cbn; lia). done. }
    split; [done|]. split; [|by left]. apply delivered_nil; [done|congruence|apply sorted_insert_Permutation|done]. }
  assert (w <= now s) as Hle by lia.
  destruct (check_first false s w p xs Hl Hq (or_intror Hle)) as (q & Hqr & Hs & ->).
  change (advance false w s) with s.
  destruct (bool_decide (status s = IdleMode) && bool_decide (type p = TimerInt) && bool_decide (xs = [])) eqn:Hlast.
  { rewrite !andb_true_iff, !bool_decide_eq_true in Hlast. destruct Hlast as [[Hid Hty] ->].
    destruct (insert_pending_ok p w (set_pending q s) [] (conj Hqr Hs)) as (q' & Hi & Hq').
    unfold sbind. rewrite Hi. cbn [sorted_insert] in Hq'. exists [], [(w, p)], (set_pending q' s). split; [done|].
    split; [by apply delivered_nil|]. right. split; [done|]. by exists w, p. }
  destruct (fire_ok p xs (set_pending q s) Hl (conj Hqr Hs)) as (s1 & Hf & new & Hnew & Hq1 & Hl1 & Hst1 & Hsv1 & Hstat1 & Hin1 & Hy1).
  change (status (set_pending q s)) with (status s) in *. rewrite Hf. change (now (set_pending q s)) with (now s) in Hnew.
  assert (now s1 = now s) as Hn by (unfold now; by rewrite Hst1).
  destruct (IH s1 (insert_all new xs) Hl1 Hq1) as (f & xs' & s' & Hrun & Hdel & Hend).
  { rewrite Hn, insert_all_due by done. unfold due in *. rewrite filter_cons_True in Hlen by done. cbn in Hlen. lia. }
  exists ((w, p) :: f), xs', s'. split; [done|]. split.
  - eapply delivered_cons; [done|exact Hq1|done|congruence|done..].
  - rewrite Hn in Hend. destruct Hend as [?|[Hid ?]]; [by left|right]. split; [congruence|done].
Qed.
(** ** One tick *)

Definition tick_length (st : MachineStatus) : Z :=
  match st with SystemMode => SystemTick | _ => UserTick end.

Lemma tick_length_pos st : 0 < tick_length st.
Proof. by destruct st. Qed.

(** After a tick everything that was due is delivered, everything else waits. *)
Record ticked (xs : list (Z * PendingInterrupt)) s (xs' : list (Z * PendingInterrupt)) s' : Prop := {
  ticked_now : now s' = now s + tick_length (status s);
  ticked_queue : queue xs' s';
  ticked_served : served s' = reverse (due (now s') xs).*2 ++ served s;
  ticked_rest : due (now s') xs' = [];
  ticked_kept : exists new, Forall (fun p => now s' < p.1) new /\ Permutation (due (now s') xs ++ xs') (new ++ xs);
  ticked_level : level s' = IntOn;
  ticked_status : status s' = status s;
  ticked_inHandler : inHandler s = false -> inHandler s' = false;
  ticked_yield : yieldOnReturn s = true \/ Exists (fun p => yields (handler p.2)) (due (now s') xs) -> yieldOnReturn s' = true
}.

Lemma tick_ok fuel s xs : queue xs s -> status s <> IdleMode ->
  (length (due (now s + tick_length (status s)) xs) < fuel)%nat ->
  exists xs' s', tick fuel s = Ok (s', tt) /\ ticked xs s xs' s'.
Proof.
  intros Hq Hid Hfuel. unfold tick, ChangeLevel, sbind, modify. cbv beta iota.
  lazymatch goal with |- context [check_loop fuel ?x] => set (s1 := x) end.
  assert (now s1 = now s + tick_length (status s)) as Hn by (unfold s1, now, set_level; by destruct (status s)).
  assert (status s1 = status s /\ served s1 = served s /\ pending s1 = pending s /\ inHandler s1 = inHandler s /\
    yieldOnReturn s1 = yieldOnReturn s) as (Hs & Hsv & Hp & Hin & Hy)
    by (unfold s1, set_level; destruct (status s) eqn:Hst; cbn; by rewrite Hst).
  destruct (check_loop_ok fuel s1 xs) as (f & xs' & s' & -> & [] & Hend); [done|unfold queue; by rewrite Hp|by rewrite Hn|].
  exists xs', (set_level IntOn s'). split; [done|]. change (now (set_level IntOn s')) with (now s').
  assert (now s' = now s1) as Hn' by (unfold now; by rewrite delivered_stats0).
  destruct Hend as [Hend|[? _]]; [|congruence]. rewrite Hend, app_nil_r in delivered_due0.
  split; change (now (set_level IntOn s')) with (now s'); rewrite ?Hn'; try done; try congruence.
  - cbn. congruence.
  - by rewrite delivered_due0.
  - cbn. congruence.
  - cbn. by rewrite <-Hin.
  - cbn. by rewrite delivered_due0, <-Hy.
Qed.

(** ** Ticks in a row *)

Inductive ticks : nat -> Sys Q D -> Sys Q D -> Prop :=
  | ticks_O s : ticks 0 s s
  | ticks_S n fuel s s1 s' : tick fuel s = Ok (s1, tt) -> ticks n s1 s' -> ticks (S n) s s'.

(** A pending interrupt whose handler asks for a yield is reached by ticks, and
    none of the ticks before it is lost. *)
Lemma ticks_reach k s xs T p : queue xs s -> status s = UserMode -> (T, p) ∈ xs -> yields (handler p) ->
  now s < T -> T <= now s + Z.of_nat k ->
  exists n s', (0 < n <= k)%nat /\ ticks n s s' /\ yieldOnReturn s' = true /\ status s' = UserMode.
Proof.
  revert s xs. induction k as [|k IH]; intros s xs Hq Hst Hin Hy Hlt Hle; [lia|].
  destruct (tick_ok (S (length (due (now s + tick_length (status s)) xs))) s xs Hq) as (xs' & s1 & Hrun & []); [congruence|lia|].
  rewrite Hst in ticked_now0. cbn in ticked_now0. unfold UserTick in *.
  destruct (yieldOnReturn s1) eqn:Hy1.
  { exists 1%nat, s1. split; [lia|]. split; [|by rewrite ticked_status0]. eapply ticks_S; [done|constructor]. }
  assert (now s1 < T) as Hlt1.
  { apply Z.nle_gt. intros HT. assert (false = true) as Hb; [|done]. apply ticked_yield0. right.
    apply Exists_exists. exists (T, p). split; [|done]. by apply list_elem_of_filter. }
  assert ((T, p) ∈ xs') as Hin'.
  { destruct ticked_kept0 as (new & _ & HP). assert ((T, p) ∈ due (now s1) xs ++ xs') as [Hd|?]%elem_of_app; [|cbn in *|done].
    - rewrite HP. apply elem_of_app. by right.
    - unfold due in Hd. apply list_elem_of_filter in Hd as [Hd _]. cbn in Hd. lia. }
  destruct (IH s1 xs') as (n & s' & Hn & Ht & Hys & Hss); try done; [congruence|lia|].
  exists (S n), s'. split; [lia|]. split; [by eapply ticks_S|done].
Qed.
End Delivery.
End Specification.

Lemma Idle_eq {Q : Type} `{SQ : SortedQueue PendingInterrupt Q} {D} `{DV : !Devices Q D} fuel (s : Sys Q D) :
  Idle fuel s =
    let* '(s1, fired) := CheckIfDue true (set_status IdleMode s) in
    if fired : bool then
      let* '(s2, _) := check_loop fuel s1 in Ok (set_status SystemMode (set_yieldOnReturn false s2), tt)
    else Fault MachineHalt.
Proof.
  unfold Idle, sbind, modify. by destruct (CheckIfDue true _) as [[s1 []]|].
Qed.

(** * The timer *)

Section Timer.
  Context {Q : Type} `{SQ : SortedQueue PendingInterrupt Q}.
  (** [Random()], the values of its calls in order; [randomize] of the timer;
      the handlers of the other devices and [Thread::Yield]. *)
  Context (rand : nat -> Z) (randomize : bool) (other : nat -> Z -> ST (Sys Q nat) unit) (yield : ST (Sys Q nat) unit).

Definition TimeOfNextInterrupt : ST (Sys Q nat) Z := fun s =>
  if randomize then Ok (set_devices (S (devices s)) s, 1 + Z.rem (rand (devices s)) (TimerTicks * 2))
  else Ok (s, TimerTicks).

Definition TimerInterruptHandler : ST (Sys Q nat) unit :=
  s <- get ;;
  if decide (status s <> IdleMode) then YieldOnReturn else sret tt.

(** Handler 0 is [TimerHandler]. *)
Definition TimerExpired : ST (Sys Q nat) unit :=
  t <- TimeOfNextInterrupt ;;
  Schedule 0 0 t TimerInt ;;;
  TimerInterruptHandler.

Definition Timer_new : ST (Sys Q nat) unit :=
  t <- TimeOfNextInterrupt ;; Schedule 0 0 t TimerInt.

Definition Timer_devices : Devices Q nat := {|
  handle := fun h a => match h with O => TimerExpired | S h => other h a end;
  Yield := yield;
  delayed_load := fun d => d
|}.

Lemma TimeOfNextInterrupt_ok (s : Sys Q nat) : (forall n, 0 <= rand n) ->
  exists d t, TimeOfNextInterrupt s = Ok (set_devices d s, t) /\ 0 < t <= 200.
Proof.
  intros Hr. unfold TimeOfNextInterrupt. destruct randomize.
  - eexists _, _. split; [done|]. change (TimerTicks * 2) with 200.
    pose proof (Z.rem_bound_pos (rand (devices s)) 200 (Hr _) ltac:(lia)). lia.
  - exists (devices s), TimerTicks. split; [by destruct s|]. unfold TimerTicks. lia.
Qed.

Lemma Schedule_ok h a t ty (s : Sys Q nat) xs : queue xs s -> 0 < t ->
  exists q, Schedule h a t ty s = Ok (set_pending q s, tt) /\
    queue (sorted_insert (now s + t) (mkPending h a (now s + t) ty) xs) (set_pending q s).
Proof.
  intros Hq Ht. destruct (insert_pending_ok (mkPending h a (now s + t) ty) (now s + t) s xs Hq) as (q & Hi & Hq').
  exists q. unfold Schedule, sbind, get, lift. rewrite bool_decide_eq_true_2 by lia. by cbn [ASSERT].
Qed.

Lemma TimerExpired_ok : (forall n, 0 <= rand n) -> handler_ok True TimerExpired.
Proof.
  intros Hr s xs Hl Hin Hst Hq. destruct (TimeOfNextInterrupt_ok s Hr) as (d & t & Ht & Hpos).
  destruct (Schedule_ok 0 0 t TimerInt (set_devices d s) xs Hq) as (q & Hs & Hq'); [lia|].
  change (now (set_devices d s)) with (now s) in Hq'.
  exists (set_yieldOnReturn true (set_pending q (set_devices d s))), [(now s + t, mkPending 0 0 (now s + t) TimerInt)].
  split_and!; try done; [|repeat constructor; cbn; lia].
  unfold TimerExpired, sbind. rewrite Ht, Hs. unfold TimerInterruptHandler, sbind, get.
  rewrite decide_True by (cbn; by rewrite Hst). unfold YieldOnReturn, sbind, get, lift, put. cbn. by rewrite Hin.
Qed.

Lemma Timer_devices_ok yields : (forall n, 0 <= rand n) -> (forall h a, handler_ok (yields (S h)) (other h a)) ->
  DevicesOK (DV := Timer_devices) yields.
Proof.
  intros Hr Ho. split. intros [|h] a; [|apply Ho].
  intros s xs Hl Hin Hst Hq. destruct (TimerExpired_ok Hr s xs Hl Hin Hst Hq) as (s' & new & H1 & H2 & H3 & H4 & H5 & H6 & H7).
  exists s', new. split_and!; try done. intros _. apply H7. by right.
Qed.
End Timer.

(** * Properties *)

Section Properties.
  Context {Q : Type} `{SQ : SortedQueue PendingInterrupt Q}.

(** C30: A tick delivers exactly what is due. With devices whose handlers only
    schedule interrupts for later and ask for yields, [OneTick] on a machine
    that is not idle ends: the clock has advanced by one tick of the mode, the
    interrupts whose time has come, and no other, have been delivered, in the
    order of their times, everything else is still pending with whatever the
    handlers scheduled, interrupts are on again, and the running thread yields
    if and only if a yield was asked for. *)
Theorem OneTick_delivers_what_is_due {D} `{DV : !Devices Q D} yields (DK : DevicesOK yields) fuel (s : Sys Q D) xs :
  queue xs s -> status s <> IdleMode -> (length (due (now s + tick_length (status s)) xs) < fuel)%nat ->
  exists s1 xs', now s1 = now s + tick_length (status s) /\ queue xs' s1 /\
    served s1 = reverse (due (now s1) xs).*2 ++ served s /\ due (now s1) xs' = [] /\
    (exists new, Forall (fun p => now s1 < p.1) new /\ Permutation (due (now s1) xs ++ xs') (new ++ xs)) /\
    level s1 = IntOn /\ status s1 = status s /\
    OneTick fuel s =
      if yieldOnReturn s1 then
        let* '(s2, _) := Yield (set_status SystemMode (set_yieldOnReturn false s1)) in Ok (set_status (status s) s2, tt)
      else Ok (s1, tt).
Proof.
  intros Hq Hid Hfuel. destruct (tick_ok yields DK fuel s xs Hq Hid Hfuel) as (xs' & s1 & Hrun & []).
  exists s1, xs'. split_and!; try done. unfold OneTick, sbind, get, modify. rewrite Hrun.
  destruct (yieldOnReturn s1); [|done]. by destruct (Yield _) as [[s2 []]|].
Qed.

(** C35: An idle machine jumps to its next interrupt or halts. [Idle] halts the
    machine exactly when nothing is pending but at most one interrupt of the
    timer. Otherwise it ends: the clock has moved to the time of the first
    pending interrupt, never back, the difference is counted as idle time, that
    interrupt is delivered first and then the others that are due, and the
    machine is in system mode without a pending yield; only a last interrupt of
    the timer may be due and still wait. *)
Theorem Idle_jumps_or_halts {D} `{DV : !Devices Q D} yields (DK : DevicesOK yields) fuel (s : Sys Q D) xs :
  level s = IntOff -> queue xs s -> (length xs < fuel)%nat ->
  match xs with
  | [] => Idle fuel s = Fault MachineHalt
  | (w, p) :: rest =>
      if bool_decide (type p = TimerInt) && bool_decide (rest = []) then Idle fuel s = Fault MachineHalt
      else exists s' f xs', Idle fuel s = Ok (s', tt) /\ now s' = Z.max (now s) w /\
        idleTicks (stats s') = idleTicks (stats s) + (now s' - now s) /\
        served s' = reverse (p :: f.*2) ++ served s /\ queue xs' s' /\ due (now s') xs = (w, p) :: f ++ due (now s') xs' /\
        (due (now s') xs' = [] \/ exists w' p', xs' = [(w', p')] /\ type p' = TimerInt) /\
        status s' = SystemMode /\ yieldOnReturn s' = false /\ level s' = IntOff
  end.
Proof.
  intros Hl Hq Hfuel. rewrite Idle_eq. set (s0 := set_status IdleMode s).
  destruct xs as [|[w p] xs].
  { destruct (check_empty true s0 Hl Hq) as (s' & Hc & _). by rewrite Hc. }
  destruct (check_first true s0 w p xs Hl Hq (or_introl eq_refl)) as (q & Hqr & Hs & Hc). rewrite Hc. clear Hc.
  rewrite (bool_decide_eq_true_2 (status s0 = IdleMode)), andb_true_l by done.
  destruct (bool_decide (type p = TimerInt) && bool_decide (xs = [])).
  { destruct (insert_pending_ok p w (set_pending q (advance true w s0)) xs (conj Hqr Hs)) as (q' & Hi & _).
    unfold sbind. by rewrite Hi. }
  set (s1 := set_pending q (advance true w s0)) in *.
  assert (level s1 = IntOff /\ status s1 = IdleMode /\ served s1 = served s /\ now s1 = Z.max (now s) w /\
    idleTicks (stats s1) = idleTicks (stats s) + (now s1 - now s)) as (Hl1 & Hi1 & Hsv1 & Hn1 & Hid1).
  { unfold s1, advance, now. destruct (bool_decide _) eqn:Hb; cbn in Hb |- *.
    - apply bool_decide_eq_true in Hb. unfold now in Hb. cbn in Hb. split_and!; try done; lia.
    - apply bool_decide_eq_false in Hb. unfold now in Hb. cbn in Hb. split_and!; try done; lia. }
  destruct (fire_ok yields DK p xs s1 Hl1 (conj Hqr Hs)) as (s2 & Hf & new & Hnew & Hq2 & Hl2 & Hst2 & Hsv2 & Hstat2 & Hin2 & _).
  rewrite Hi1 in Hf. change (status s0) with IdleMode. rewrite Hf. cbn [rbind]. assert (now s2 = now s1) as Hn2 by (unfold now; by rewrite Hst2).
  destruct (check_loop_ok yields DK fuel s2 (insert_all new xs) Hl2 Hq2) as (f & xs' & s3 & Hrun & [] & Hend).
  { rewrite Hn2, insert_all_due by done. pose proof (length_filter (fun p => p.1 <= now s1) xs). unfold due. cbn in Hfuel. lia. }
  rewrite Hrun. exists (set_status SystemMode (set_yieldOnReturn false s3)), f, xs'. split; [done|].
  lazymatch goal with |- context [now ?x] => assert (now x = now s1) as -> end.
  { rewrite <-Hn2. unfold now. by rewrite <-delivered_stats0. }
  rewrite Hn2, insert_all_due in delivered_due0 by done. rewrite Hn2 in Hend.
  assert (w <= now s1) as Hw by lia. split_and!; try done.
  - cbn. rewrite delivered_stats0, Hst2. done.
  - change (served s3 = reverse (p :: f.*2) ++ served s). rewrite delivered_served0, Hsv2, Hsv1, reverse_cons, <-app_assoc. done.
  - unfold due in *. rewrite filter_cons_True by done. by f_equal.
  - destruct Hend as [?|[_ (w' & p' & ? & ?)]]; [by left|right]. by exists w', p'.
  - cbn. congruence.
Qed.

(** The timer preempts user programs. Whatever else is pending, and whatever
    the handlers of the other devices schedule, within 200 ticks in user mode
    after the timer was started a yield is asked for on the return of an
    interrupt, and the thread that runs gives up the processor. *)
Theorem timer_preempts_user_programs (rand : nat -> Z) randomize other yield yields (s : Sys Q nat) xs :
  (forall n, 0 <= rand n) -> (forall h a, handler_ok (yields (S h)) (other h a)) -> yields 0%nat ->
  queue xs s -> status s = UserMode ->
  exists s1, Timer_new rand randomize s = Ok (s1, tt) /\
    exists n s2, (0 < n <= 200)%nat /\ ticks (DV := Timer_devices rand randomize other yield) n s1 s2 /\
      yieldOnReturn s2 = true /\ status s2 = UserMode.
Proof.
  intros Hr Ho Hy Hq Hst. destruct (TimeOfNextInterrupt_ok rand randomize s Hr) as (d & t & Ht & Hpos).
  destruct (Schedule_ok 0 0 t TimerInt (set_devices d s) xs Hq) as (q & Hs & Hq'); [lia|].
  exists (set_pending q (set_devices d s)). split; [unfold Timer_new, sbind; by rewrite Ht, Hs|].
  apply (ticks_reach (DV := Timer_devices rand randomize other yield) yields
    (Timer_devices_ok rand randomize other yield yields Hr Ho) 200 _ _ (now s + t) (mkPending 0 0 (now s + t) TimerInt) Hq' Hst);
    [|exact Hy|..].
  - rewrite sorted_insert_Permutation. by left.
  - cbn. change (now s < now s + t). lia.
  - change (now s + t <= now s + 200). lia.
Qed.
End Properties.

(** ** A machine with a timer *)
Section Example.
  Abbreviation LQ := (gmap nat (ListElement PendingInterrupt) * List)%type.
  Abbreviation timer := (Timer_devices (Q := LQ) (fun _ => 7) true (fun _ _ => sret tt) (sret tt)).

Definition idle_machine (st : MachineStatus) : Sys LQ nat :=
  set_status st (Interrupt_new (mkStatistics 40 0 0 0) 0%nat).

Lemma idle_machine_queue st : queue [] (idle_machine st).
Proof. split; [exact sq_new_rep|constructor]. Qed.

Lemma quiet_ok : handler_ok (Q := LQ) (D := nat) False (sret tt).
Proof. intros s xs H1 H2 H3 H4. exists s, []. split_and!; try done. by intros [?|[]]. Qed.

Lemma timer_ok : DevicesOK (DV := timer) (fun h => h = 0%nat).
Proof.
  apply Timer_devices_ok; [lia|]. intros h a s xs H1 H2 H3 H4.
  destruct (quiet_ok s xs H1 H2 H3 H4) as (s' & new & ? & ? & ? & ? & ? & ? & Hy).
  exists s', new. split_and!; try done. intros [?|?]; [by apply Hy; left|done].
Qed.

(** The timer pending for tick 41. *)
Definition timer_machine (st : MachineStatus) : Sys LQ nat :=
  match insert_pending (mkPending 0 0 41 TimerInt) 41 (idle_machine st) with Ok (s, _) => s | Fault _ => idle_machine st end.

Lemma timer_machine_queue st : queue [(41, mkPending 0 0 41 TimerInt)] (timer_machine st).
Proof.
  destruct (insert_pending_ok (mkPending 0 0 41 TimerInt) 41 (idle_machine st) [] (idle_machine_queue st)) as (q & Hi & Hq).
  unfold timer_machine. rewrite Hi. exact Hq.
Qed.

Lemma OneTick_delivers_what_is_due_witness : exists s1, now s1 = 41 /\
  served s1 = [mkPending 0 0 41 TimerInt] /\ OneTick (DV := timer) 2 (timer_machine UserMode) =
    if yieldOnReturn s1 then
      let* '(s2, _) := Yield (Devices := timer) (set_status SystemMode (set_yieldOnReturn false s1)) in Ok (set_status UserMode s2, tt)
    else Ok (s1, tt).
Proof.
  destruct (OneTick_delivers_what_is_due (DV := timer) (fun h => h = 0%nat) timer_ok 2 (timer_machine UserMode)
    [(41, mkPending 0 0 41 TimerInt)] (timer_machine_queue UserMode)) as (s1 & xs' & H1 & H2 & H3 & H4 & H5 & H6 & H7 & H8).
  - discriminate.
  - vm_compute. lia.
  - exists s1. split; [exact H1|]. split; [rewrite H3, H1; reflexivity|exact H8].
Defined.

Lemma Idle_jumps_or_halts_witness : Idle (DV := timer) 2 (timer_machine SystemMode) = Fault MachineHalt.
Proof.
  exact (Idle_jumps_or_halts (DV := timer) (fun h => h = 0%nat) timer_ok 2 (timer_machine SystemMode)
    [(41, mkPending 0 0 41 TimerInt)] eq_refl (timer_machine_queue SystemMode) ltac:(simpl; lia)).
Defined.

Lemma timer_preempts_user_programs_witness : exists s1,
  Timer_new (fun _ => 7) true (idle_machine UserMode) = Ok (s1, tt) /\
  exists n s2, (0 < n <= 200)%nat /\ ticks (DV := timer) n s1 s2 /\ yieldOnReturn s2 = true /\ status s2 = UserMode.
Proof.
  apply (timer_preempts_user_programs (fun _ => 7) true (fun _ _ => sret tt) (sret tt) (fun h => h = 0%nat) (idle_machine UserMode) []).
  - lia.
  - intros h a s xs H1 H2 H3 H4. destruct (quiet_ok s xs H1 H2 H3 H4) as (s' & new & ? & ? & ? & ? & ? & ? & Hy).
    exists s', new. split_and!; try done. intros [?|?]; [by apply Hy; left|done].
  - reflexivity.
  - apply idle_machine_queue.
  - reflexivity.
Defined.
End Example.
