(* ===== verification/Threads.v ===== *)
(** * threads/thread.cc, scheduler.cc, synch.cc: threads and synchronisation

    The kernel's threads on one processor. A thread that gave up the processor
    has the kernel routines it is suspended in on its stack: [frame] is the
    return point of each routine that calls [Sleep] or [Run], with the local
    variables it still needs, so a routine runs until it returns ([true]) or
    switches to another thread ([false]). Nothing runs between two switches:
    interrupts are off there. What [SetLevel(IntOn)] may start (an interrupt
    handler, a time slice) is a step of its own in [step].

    Pointers to threads, semaphores, locks and conditions are numbers; a
    deleted object is a number without an entry. [new Thread] may return the
    number of a thread that was deleted. The constructors of [Lock] and
    [Condition] leave a pointer uninitialised: it is any number, or NULL. *)
From stdpp Require Import functions.
From S2P Require Import Prelude.

Inductive ThreadStatus := JUST_CREATED | RUNNING | READY | BLOCKED.
Inductive LockStatus := BUSY | FREE.

#[global] Instance ThreadStatus_eq_dec : EqDecision ThreadStatus.
Proof. solve_decision. Defined.
#[global] Instance LockStatus_eq_dec : EqDecision LockStatus.
Proof. solve_decision. Defined.

Abbreviation tid := nat.
Abbreviation sid := nat.
Abbreviation lid := nat.
Abbreviation cid := nat.

(** Where a suspended thread continues: [ThreadRoot] of a forked thread; after
    [Run] in [Yield]; the test of the loop of [Semaphore::P]; after [Sleep] in
    [Lock::Acquire]; after [Sleep] and after the nested [Acquire] in
    [Condition::Wait]. [Finish] never continues. *)
Inductive frame :=
  | FRoot
  | FYield (oldLevel : IntStatus)
  | FP (s : sid) (oldLevel : IntStatus)
  | FAcquire (l : lid) (oldLevel : IntStatus)
  | FWait (l : lid) (oldLevel : IntStatus)
  | FWaitEnd (l : lid) (oldLevel : IntStatus)
  | FFinish.

Record Thread := mkThread { status : ThreadStatus; frames : list frame }.

Record Semaphore := mkSemaphore { value : Z; squeue : list tid }.

Record Lock := mkLock {
  state : LockStatus;
  lqueue : list tid;
  threadWithPossession : option tid
}.

Record Condition := mkCondition { cqueue : list tid; waitingLock : option lid }.

(** The globals of system.cc the routines share, the interrupt level, and the
    objects. [idle] says that the current thread is in the loop of [Sleep]. *)
Record Sys := mkSys {
  currentThread : tid;
  idle : bool;
  readyList : list tid;
  level : IntStatus;
  threadToBeDestroyed : option tid;
  threads : gmap tid Thread;
  sems : gmap sid Semaphore;
  locks : gmap lid Lock;
  conds : gmap cid Condition
}.

Abbreviation K := (ST Sys).

Definition set_current (t : tid) (s : Sys) : Sys :=
  mkSys t (idle s) (readyList s) (level s) (threadToBeDestroyed s) (threads s) (sems s) (locks s) (conds s).
Definition set_idle (b : bool) (s : Sys) : Sys :=
  mkSys (currentThread s) b (readyList s) (level s) (threadToBeDestroyed s) (threads s) (sems s) (locks s) (conds s).
Definition set_ready (r : list tid) (s : Sys) : Sys :=
  mkSys (currentThread s) (idle s) r (level s) (threadToBeDestroyed s) (threads s) (sems s) (locks s) (conds s).
Definition set_level (i : IntStatus) (s : Sys) : Sys :=
  mkSys (currentThread s) (idle s) (readyList s) i (threadToBeDestroyed s) (threads s) (sems s) (locks s) (conds s).
Definition set_destroyed (d : option tid) (s : Sys) : Sys :=
  mkSys (currentThread s) (idle s) (readyList s) (level s) d (threads s) (sems s) (locks s) (conds s).
Definition set_threads (m : gmap tid Thread) (s : Sys) : Sys :=
  mkSys (currentThread s) (idle s) (readyList s) (level s) (threadToBeDestroyed s) m (sems s) (locks s) (conds s).
Definition set_sems (m : gmap sid Semaphore) (s : Sys) : Sys :=
  mkSys (currentThread s) (idle s) (readyList s) (level s) (threadToBeDestroyed s) (threads s) m (locks s) (conds s).
Definition set_locks (m : gmap lid Lock) (s : Sys) : Sys :=
  mkSys (currentThread s) (idle s) (readyList s) (level s) (threadToBeDestroyed s) (threads s) (sems s) m (conds s).
Definition set_conds (m : gmap cid Condition) (s : Sys) : Sys :=
  mkSys (currentThread s) (idle s) (readyList s) (level s) (threadToBeDestroyed s) (threads s) (sems s) (locks s) m.

(** ** Threads and the scheduler *)

Definition thread_at (t : tid) : K Thread := s <- get ;; lift (deref (threads s !! t)).
Definition set_thread (t : tid) (th : Thread) : K unit := modify (fun s => set_threads (<[t := th]> (threads s)) s).

Definition setStatus (t : tid) (st : ThreadStatus) : K unit :=
  th <- thread_at t ;; set_thread t (mkThread st (frames th)).
Definition set_frames (t : tid) (fs : list frame) : K unit :=
  th <- thread_at t ;; set_thread t (mkThread (status th) fs).

(** [Interrupt::SetLevel]; [OneTick], which it calls when interrupts come on,
    is [step_interrupt] and [OpYield] of the step relation. *)
Definition SetLevel (now : IntStatus) : K IntStatus :=
  old <- gets level ;; modify (set_level now) ;;; sret old.

Definition Thread_new : Thread := mkThread JUST_CREATED [].

Definition ReadyToRun (t : tid) : K unit :=
  setStatus t READY ;;; modify (fun s => set_ready (readyList s ++ [t]) s).

(** [readyList->Remove()] *)
Definition FindNextToRun : K (option tid) :=
  s <- get ;;
  match readyList s with
  | [] => sret None
  | t :: r => put (set_ready r s) ;;; sret (Some t)
  end.

(** [Run] up to [SWITCH]; the next thread continues in [resume]. *)
Definition Run (nextThread : tid) : K unit :=
  modify (set_current nextThread) ;;; setStatus nextThread RUNNING ;;; modify (set_idle false).

(** The loop of [Sleep]: run the next thread, or idle until there is one. *)
Definition dispatch : K unit :=
  next <- FindNextToRun ;;
  match next with
  | Some t => Run t
  | None => modify (set_idle true)
  end.

(** [Sleep], called with [k] on the stack. *)
Definition Sleep (k : list frame) : K unit :=
  s <- get ;;
  lift (ASSERT (bool_decide (level s = IntOff))) ;;;
  setStatus (currentThread s) BLOCKED ;;; set_frames (currentThread s) k ;;;
  dispatch.

(** [Yield]: [true] when no other thread is ready. *)
Definition Yield (k : list frame) : K bool :=
  old <- SetLevel IntOff ;;
  next <- FindNextToRun ;;
  match next with
  | Some t =>
      s <- get ;;
      ReadyToRun (currentThread s) ;;; set_frames (currentThread s) (FYield old :: k) ;;;
      Run t ;;; sret false
  | None => SetLevel old ;;; sret true
  end.

(** [Fork]: the stack of the new thread starts in [ThreadRoot]. *)
Definition Fork (t : tid) : K unit :=
  set_frames t [FRoot] ;;;
  old <- SetLevel IntOff ;; ReadyToRun t ;;; SetLevel old ;;; sret tt.

Definition Finish : K unit :=
  SetLevel IntOff ;;;
  s <- get ;;
  put (set_destroyed (Some (currentThread s)) s) ;;;
  Sleep [FFinish].

(** [delete threadToBeDestroyed] after [SWITCH], with the destructor's
    [ASSERT(this != currentThread)]. *)
Definition destroy_finished : K unit :=
  s <- get ;;
  match threadToBeDestroyed s with
  | None => sret tt
  | Some t =>
      lift (ASSERT (bool_decide (t <> currentThread s))) ;;;
      put (set_destroyed None (set_threads (delete t (threads s)) s))
  end.

(** ** Semaphores *)

Definition Semaphore_new (initialValue : Z) : Semaphore := mkSemaphore initialValue [].

Definition sem_at (i : sid) : K Semaphore := s <- get ;; lift (deref (sems s !! i)).
Definition set_sem (i : sid) (x : Semaphore) : K unit := modify (fun s => set_sems (<[i := x]> (sems s)) s).

(** The body of [P] from the test of its loop on; [k] is the caller's stack. *)
Definition P_loop (i : sid) (old : IntStatus) (k : list frame) : K bool :=
  x <- sem_at i ;;
  if decide (value x = 0) then
    t <- gets currentThread ;;
    set_sem i (mkSemaphore (value x) (squeue x ++ [t])) ;;;
    Sleep (FP i old :: k) ;;; sret false
  else
    set_sem i (mkSemaphore (value x - 1) (squeue x)) ;;;
    SetLevel old ;;; sret true.

Definition P (i : sid) (k : list frame) : K bool :=
  old <- SetLevel IntOff ;; P_loop i old k.

(** [thread = queue->Remove(); if (thread != NULL) ReadyToRun(thread);] *)
Definition V_wake (i : sid) : K unit :=
  x <- sem_at i ;;
  match squeue x with
  | [] => sret tt
  | t :: q => set_sem i (mkSemaphore (value x) q) ;;; ReadyToRun t
  end.

(** [value++] on an [int] at its maximum is undefined. *)
Definition V (i : sid) : K unit :=
  old <- SetLevel IntOff ;;
  V_wake i ;;;
  x <- sem_at i ;;
  (if decide (value x < 2 ^ 31 - 1) then sret tt else fail UndefinedArith) ;;;
  set_sem i (mkSemaphore (value x + 1) (squeue x)) ;;;
  SetLevel old ;;; sret tt.

(** ** Locks *)

(** The constructor does not initialise [threadWithPossession]: [garbage] is
    what the allocation holds there. *)
Definition Lock_new (garbage : option tid) : Lock := mkLock FREE [] garbage.

Definition lock_at (l : lid) : K Lock := s <- get ;; lift (deref (locks s !! l)).
Definition set_lock (l : lid) (x : Lock) : K unit := modify (fun s => set_locks (<[l := x]> (locks s)) s).

Definition isHeldByCurrentThread (l : lid) : K bool :=
  x <- lock_at l ;; s <- get ;;
  sret (bool_decide (threadWithPossession x = Some (currentThread s))).

Definition isBusy (x : Lock) : bool := bool_decide (state x = BUSY).

Definition Acquire (l : lid) (k : list frame) : K bool :=
  old <- SetLevel IntOff ;;
  held <- isHeldByCurrentThread l ;;
  if held : bool then SetLevel old ;;; sret true
  else
    x <- lock_at l ;;
    t <- gets currentThread ;;
    if decide (state x = FREE) then
      set_lock l (mkLock BUSY (lqueue x) (Some t)) ;;;
      SetLevel old ;;; sret true
    else
      set_lock l (mkLock (state x) (lqueue x ++ [t]) (threadWithPossession x)) ;;;
      Sleep (FAcquire l old :: k) ;;; sret false.

Definition Release (l : lid) : K unit :=
  old <- SetLevel IntOff ;;
  held <- isHeldByCurrentThread l ;;
  if negb held then SetLevel old ;;; sret tt
  else
    x <- lock_at l ;;
    match lqueue x with
    | t :: q => set_lock l (mkLock (state x) q (Some t)) ;;; ReadyToRun t
    | [] => set_lock l (mkLock FREE [] None)
    end ;;;
    SetLevel old ;;; sret tt.

(** ** Condition variables *)

(** The constructor does not initialise [waitingLock] either. *)
Definition Condition_new (garbage : option lid) : Condition := mkCondition [] garbage.

Definition cond_at (c : cid) : K Condition := s <- get ;; lift (deref (conds s !! c)).
Definition set_cond (c : cid) (x : Condition) : K unit := modify (fun s => set_conds (<[c := x]> (conds s)) s).

Definition hasWaiting (x : Condition) : bool := negb (bool_decide (cqueue x = [])).

(** [if (waitingLock == NULL) waitingLock = conditionLock;] *)
Definition remember_lock (c : cid) (l : lid) : K unit :=
  x <- cond_at c ;;
  if decide (waitingLock x = None) then set_cond c (mkCondition (cqueue x) (Some l)) else sret tt.

(** [Wait] up to [Sleep]; it continues in [FWait]. *)
Definition Wait (c : cid) (conditionLock : option lid) (k : list frame) : K bool :=
  old <- SetLevel IntOff ;;
  match conditionLock with
  | None => SetLevel old ;;; sret true
  | Some l =>
      remember_lock c l ;;;
      x <- cond_at c ;;
      if decide (Some l <> waitingLock x) then SetLevel old ;;; sret true
      else
        held <- isHeldByCurrentThread l ;;
        if negb held then SetLevel old ;;; sret true
        else
          Release l ;;;
          x <- cond_at c ;;
          t <- gets currentThread ;;
          set_cond c (mkCondition (cqueue x ++ [t]) (waitingLock x)) ;;;
          Sleep (FWait l old :: k) ;;; sret false
  end.

Definition Signal (c : cid) (conditionLock : option lid) : K unit :=
  old <- SetLevel IntOff ;;
  match conditionLock with
  | None => SetLevel old ;;; sret tt
  | Some l =>
      x <- cond_at c ;;
      match cqueue x with
      | [] => SetLevel old ;;; sret tt
      | t :: q =>
          if decide (waitingLock x <> Some l) then SetLevel old ;;; sret tt
          else
            held <- isHeldByCurrentThread l ;;
            if negb held then SetLevel old ;;; sret tt
            else
              set_cond c (mkCondition q (waitingLock x)) ;;;
              ReadyToRun t ;;;
              (if decide (q = []) then set_cond c (mkCondition q None) else sret tt) ;;;
              SetLevel old ;;; sret tt
      end
  end.

(** [while (!queue->IsEmpty()) Signal(conditionLock);] *)
Fixpoint broadcast_loop (fuel : nat) (c : cid) (conditionLock : option lid) : K unit :=
  x <- cond_at c ;;
  match cqueue x with
  | [] => sret tt
  | _ =>
      match fuel with
      | O => fail OutOfFuel
      | S fuel' => Signal c conditionLock ;;; broadcast_loop fuel' c conditionLock
      end
  end.

Definition Broadcast (c : cid) (conditionLock : option lid) : K unit :=
  old <- SetLevel IntOff ;;
  match conditionLock with
  | None => SetLevel old ;;; sret tt
  | Some l =>
      x <- cond_at c ;;
      match cqueue x with
      | [] => SetLevel old ;;; sret tt
      | _ =>
          if decide (waitingLock x <> Some l) then SetLevel old ;;; sret tt
          else
            held <- isHeldByCurrentThread l ;;
            if negb held then SetLevel old ;;; sret tt
            else broadcast_loop (length (cqueue x)) c conditionLock ;;; SetLevel old ;;; sret tt
      end
  end.

(** ** Resumption and steps *)

(** What the current thread does once [SWITCH] returned to it, frame by frame:
    [true] when it is back in the code that called the outermost routine. *)
Fixpoint run_frames (fs : list frame) : K bool :=
  match fs with
  | [] => sret true
  | f :: k =>
      done <- match f with
              | FRoot => SetLevel IntOn ;;; sret true
              | FYield old => SetLevel old ;;; sret true
              | FP i old => P_loop i old k
              | FAcquire _ old => SetLevel old ;;; sret true
              | FWait l old =>
                  done <- Acquire l (FWaitEnd l old :: k) ;;
                  if done : bool then SetLevel old ;;; sret true else sret false
              | FWaitEnd _ old => SetLevel old ;;; sret true
              | FFinish => fail AssertFail
              end ;;
      if done : bool then run_frames k else sret false
  end.

(** [ThreadRoot] is entered by [SWITCH] itself; every other thread returns from
    its call of [SWITCH] in [Run], which deletes the finished thread. *)
Definition resume : K bool :=
  t <- gets currentThread ;;
  th <- thread_at t ;;
  set_frames t [] ;;;
  match frames th with
  | FRoot :: _ => sret tt
  | _ => destroy_finished
  end ;;;
  run_frames (frames th).

Inductive op :=
  | OpP (i : sid) | OpV (i : sid)
  | OpAcquire (l : lid) | OpRelease (l : lid)
  | OpWait (c : cid) (l : option lid)
  | OpSignal (c : cid) (l : option lid) | OpBroadcast (c : cid) (l : option lid)
  | OpYield | OpNew (t : tid) | OpFork (t : tid) | OpFinish.

Definition exec_op (o : op) : K bool :=
  match o with
  | OpP i => P i []
  | OpV i => V i ;;; sret true
  | OpAcquire l => Acquire l []
  | OpRelease l => Release l ;;; sret true
  | OpWait c l => Wait c l []
  | OpSignal c l => Signal c l ;;; sret true
  | OpBroadcast c l => Broadcast c l ;;; sret true
  | OpYield => Yield []
  | OpNew t => set_thread t Thread_new ;;; sret true
  | OpFork t => Fork t ;;; sret true
  | OpFinish => Finish ;;; sret false
  end.

(** ** The clients' view

    [held]: the pairs (t, l) such that the last thing [t] learnt about [l] is
    that [Acquire] or [Wait] returned, and it has not called [Release] or
    [Wait] since. [credit]: the initial value of a semaphore plus the calls of
    [V] minus the returns of [P]. Both change at calls and returns only.
    [stale]: the pairs (t, l) such that the memory of [l] held the address [t]
    where its constructor left [threadWithPossession] uninitialised. *)
Record View := mkView { held : gset (tid * lid); credit : gmap sid Z; stale : gset (tid * lid) }.

Definition hold (t : tid) (l : lid) (v : View) : View := mkView ({[(t, l)]} ∪ held v) (credit v) (stale v).
Definition unhold (t : tid) (l : lid) (v : View) : View := mkView (held v ∖ {[(t, l)]}) (credit v) (stale v).
Definition add_credit (i : sid) (n : Z) (v : View) : View :=
  mkView (held v) (<[i := default 0 (credit v !! i) + n]> (credit v)) (stale v).
Definition new_credit (i : sid) (n : Z) (v : View) : View := mkView (held v) (<[i := n]> (credit v)) (stale v).
Definition add_stale (garbage : option tid) (l : lid) (v : View) : View :=
  mkView (held v) (credit v) (match garbage with Some t => {[(t, l)]} ∪ stale v | None => stale v end).

Definition view_call (t : tid) (o : op) (done : bool) (v : View) : View :=
  match o with
  | OpP i => if done then add_credit i (-1) v else v
  | OpV i => add_credit i 1 v
  | OpAcquire l => if done then hold t l v else v
  | OpRelease l => unhold t l v
  | OpWait _ (Some l) => if done then v else unhold t l v
  | _ => v
  end.

(** The routine that returns when [fs] has been run is its last frame. *)
Definition view_return (t : tid) (fs : list frame) (done : bool) (v : View) : View :=
  if done then
    match last fs with
    | Some (FP i _) => add_credit i (-1) v
    | Some (FAcquire l _ | FWait l _ | FWaitEnd l _) => hold t l v
    | _ => v
    end
  else v.

(** Calls that name existing objects, and fork a thread that was not forked. *)
Definition op_ok (s : Sys) (o : op) : Prop :=
  match o with
  | OpP i | OpV i => is_Some (sems s !! i)
  | OpAcquire l | OpRelease l => is_Some (locks s !! l)
  | OpWait c l | OpSignal c l | OpBroadcast c l =>
      is_Some (conds s !! c) /\ match l with Some l => is_Some (locks s !! l) | None => True end
  | OpYield | OpFinish => True
  | OpNew t => threads s !! t = None
  | OpFork t => exists fs, threads s !! t = Some (mkThread JUST_CREATED fs)
  end.

(** The current thread runs code outside of the routines of this file. *)
Definition in_client (s : Sys) : Prop :=
  idle s = false /\ level s = IntOn /\
  exists th, threads s !! currentThread s = Some th /\ frames th = [].

(** A device handler that calls [V], in [OneTick] or in [Idle]. *)
Definition handler_V (i : sid) : K unit :=
  old <- SetLevel IntOff ;; V i ;;; SetLevel old ;;; sret tt.

Inductive step : Sys * View -> Sys * View -> Prop :=
  | step_call o s s' done v :
      in_client s -> op_ok s o -> exec_op o s = Ok (s', done) ->
      step (s, v) (s', view_call (currentThread s) o done v)
  | step_resume s s' done v th :
      idle s = false -> threads s !! currentThread s = Some th -> frames th <> [] ->
      resume s = Ok (s', done) ->
      step (s, v) (s', view_return (currentThread s) (frames th) done v)
  | step_wake s s' v :
      idle s = true -> dispatch s = Ok (s', tt) -> step (s, v) (s', v)
  | step_interrupt i s s' v :
      in_client s \/ idle s = true -> is_Some (sems s !! i) ->
      handler_V i s = Ok (s', tt) -> step (s, v) (s', add_credit i 1 v)
  | step_new_sem i n s v :
      in_client s -> sems s !! i = None -> 0 <= n < 2 ^ 31 ->
      step (s, v) (set_sems (<[i := Semaphore_new n]> (sems s)) s, new_credit i n v)
  | step_new_lock l garbage s v :
      in_client s -> locks s !! l = None ->
      step (s, v) (set_locks (<[l := Lock_new garbage]> (locks s)) s, add_stale garbage l v)
  | step_new_cond c garbage s v :
      in_client s -> conds s !! c = None ->
      step (s, v) (set_conds (<[c := Condition_new garbage]> (conds s)) s, v).

(** [Initialize]: the main thread runs with interrupts on. *)
Definition boot (main : tid) : Sys :=
  mkSys main false [] IntOn None {[ main := mkThread RUNNING [] ]} ∅ ∅ ∅.

Definition reachable (c : Sys * View) : Prop :=
  exists main, rtc step (boot main, mkView ∅ ∅ ∅) c.

(** * The invariant *)

(** Where a thread is. *)
Inductive place :=
  | Gone | Limbo | Created | Current | Ready
  | OnSem (i : sid) | OnLock (l : lid) | OnCond (c : cid).

#[global] Instance place_eq_dec : EqDecision place.
Proof. solve_decision. Defined.

Definition queued (p : place) : Prop :=
  match p with Ready | OnSem _ | OnLock _ | OnCond _ => True | _ => False end.

Definition members (s : Sys) (p : place) : list tid :=
  match p with
  | Ready => readyList s
  | OnSem i => default [] (squeue <$> sems s !! i)
  | OnLock l => default [] (lqueue <$> locks s !! l)
  | OnCond c => default [] (cqueue <$> conds s !! c)
  | _ => []
  end.

Definition own (s : Sys) (l : lid) : option tid := locks s !! l ≫= threadWithPossession.

(** The owner of a lock that is taken. *)
Definition taken (s : Sys) (l : lid) : option tid :=
  x ← locks s !! l; match state x with BUSY => threadWithPossession x | FREE => None end.

(** The stack of a thread that may be dispatched. *)
Inductive suspended (s : Sys) (t : tid) : list frame -> Prop :=
  | sus_root : suspended s t [FRoot]
  | sus_yield : suspended s t [FYield IntOn]
  | sus_P i : is_Some (sems s !! i) -> suspended s t [FP i IntOn]
  | sus_acquire l : taken s l = Some t -> suspended s t [FAcquire l IntOn]
  | sus_reacquire l : taken s l = Some t -> suspended s t [FAcquire l IntOff; FWaitEnd l IntOn]
  | sus_wait l : is_Some (locks s !! l) -> suspended s t [FWait l IntOn].

Definition thread_ok (s : Sys) (t : tid) (p : place) (th : Thread) : Prop :=
  match p with
  | Gone | Limbo => status th <> JUST_CREATED
  | Created => status th = JUST_CREATED /\ frames th = []
  | Ready => status th = READY /\ suspended s t (frames th)
  | Current => status th = RUNNING /\ (frames th = [] \/ suspended s t (frames th))
  | OnSem i => status th = BLOCKED /\ frames th = [FP i IntOn]
  | OnLock l => status th = BLOCKED /\
      (frames th = [FAcquire l IntOn] \/ frames th = [FAcquire l IntOff; FWaitEnd l IntOn])
  | OnCond c => status th = BLOCKED /\
      exists l, conds s !! c ≫= waitingLock = Some l /\ is_Some (locks s !! l) /\
        frames th = [FWait l IntOn]
  end.

(** A free lock names nobody, or what its memory held. *)
Definition lock_ok (G : gset (tid * lid)) (l : lid) (x : Lock) : Prop :=
  match state x with
  | FREE => lqueue x = [] /\ forall t, threadWithPossession x = Some t -> (t, l) ∈ G
  | BUSY => is_Some (threadWithPossession x)
  end.

Definition Places (pl : tid -> place) (m : place -> list tid) : Prop :=
  forall p, queued p -> NoDup (m p) /\ forall t, t ∈ m p <-> pl t = p.

(** [X] is a thread whose control block is being updated. *)
Record Inv (X : option tid) (pl : tid -> place) (s : Sys) (v : View) : Prop := {
  inv_places : Places pl (members s);
  inv_threads : forall t, pl t <> Gone ->
    exists th, threads s !! t = Some th /\ (Some t <> X -> thread_ok s t (pl t) th);
  inv_created : forall t th, threads s !! t = Some th -> Some t <> X ->
    status th = JUST_CREATED -> pl t = Created;
  inv_current : forall t, pl t = Current -> t = currentThread s;
  inv_destroyed : forall t, threadToBeDestroyed s = Some t -> pl t = Gone /\ is_Some (threads s !! t);
  inv_locks : forall l x, locks s !! l = Some x -> lock_ok (stale v) l x;
  inv_sems : forall i x, sems s !! i = Some x -> 0 <= value x < 2 ^ 31 /\ credit v !! i = Some (value x);
  inv_held : forall t l, (t, l) ∈ held v -> own s l = Some t \/ (t, l) ∈ stale v
}.

(** The current thread runs: client code ([IntOn]) or a routine of this file. *)
Definition running (lv : IntStatus) (pl : tid -> place) (s : Sys) : Prop :=
  idle s = false /\ level s = lv /\ pl (currentThread s) = Current /\
  exists th, threads s !! currentThread s = Some th /\ frames th = [].

(** The processor was given up: the next thread is about to continue, or the
    machine idles. *)
Definition switched (pl : tid -> place) (s : Sys) : Prop :=
  level s = IntOff /\
  ((idle s = true /\ forall t, pl t <> Current) \/
   (idle s = false /\ pl (currentThread s) = Current /\
    exists th, threads s !! currentThread s = Some th /\ frames th <> [])).

Definition Run_inv (lv : IntStatus) (v : View) (s : Sys) : Prop :=
  exists pl, Inv None pl s v /\ running lv pl s.
Definition Sw_inv (v : View) (s : Sys) : Prop :=
  exists pl, Inv None pl s v /\ switched pl s.
Definition Good (v : View) (s : Sys) : Prop := Run_inv IntOn v s \/ Sw_inv v s.

(** * Lemmas *)

(** ** Places *)

Lemma Places_push pl m m' t p :
  Places pl m -> ~ queued (pl t) -> queued p ->
  m' p = m p ++ [t] -> (forall p', p' <> p -> m' p' = m p') ->
  Places (<[t := p]> pl) m'.
Proof.
  intros HP Hq Hp Hm Ho p' Hp'. destruct (HP p' Hp') as [Hnd Hin].
  assert (pl t <> p') as Ht by (by intros <-).
  destruct (decide (p' = p)) as [->|Hne].
  - rewrite Hm. split.
    + apply NoDup_app. split_and!; [done| |apply NoDup_singleton].
      intros t' Ht'%Hin Heq%list_elem_of_singleton. by subst.
    + intros t'. rewrite elem_of_app, list_elem_of_singleton, Hin.
      destruct (decide (t' = t)) as [->|];
        [rewrite fn_lookup_insert|rewrite fn_lookup_insert_ne by done]; naive_solver.
  - rewrite Ho by done. split; [done|]. intros t'. rewrite Hin.
    destruct (decide (t' = t)) as [->|];
      [rewrite fn_lookup_insert|rewrite fn_lookup_insert_ne by done]; naive_solver.
Qed.

Lemma Places_pop pl m m' t q p p2 :
  Places pl m -> queued p -> m p = t :: q -> ~ queued p2 ->
  m' p = q -> (forall p', p' <> p -> m' p' = m p') ->
  Places (<[t := p2]> pl) m'.
Proof.
  intros HP Hp Hm Hp2 Hm' Ho p' Hp'. destruct (HP p' Hp') as [Hnd Hin].
  destruct (HP p Hp) as [Hndp Hinp]. rewrite Hm in Hndp, Hinp.
  assert (pl t = p) as Ht by (apply Hinp; set_solver).
  apply NoDup_cons in Hndp as [Hnin Hndq].
  destruct (decide (p' = p)) as [->|Hne].
  - rewrite Hm'. split; [done|]. intros t'. specialize (Hinp t'). rewrite elem_of_cons in Hinp.
    destruct (decide (t' = t)) as [->|];
      [rewrite fn_lookup_insert|rewrite fn_lookup_insert_ne by done]; [|naive_solver].
    split; [done|]. by intros ->.
  - rewrite Ho by done. split; [done|]. intros t'. rewrite Hin.
    destruct (decide (t' = t)) as [->|];
      [rewrite fn_lookup_insert|rewrite fn_lookup_insert_ne by done]; [|done].
    split; [congruence|]. by intros ->.
Qed.

Lemma Places_move pl m t p :
  Places pl m -> ~ queued (pl t) -> ~ queued p -> Places (<[t := p]> pl) m.
Proof.
  intros HP Ht Hp p' Hp'. destruct (HP p' Hp') as [Hnd Hin]. split; [done|].
  intros t'. rewrite Hin. destruct (decide (t' = t)) as [->|];
    [rewrite fn_lookup_insert|rewrite fn_lookup_insert_ne by done]; [|done].
  split; [by intros <-|by intros <-].
Qed.

Lemma Places_ext pl m m' : Places pl m -> (forall p, m' p = m p) -> Places pl m'.
Proof. intros HP He p Hp. rewrite He. by apply HP. Qed.

(** ** Updates of the state under the invariant *)

Lemma suspended_mono s s' t fs :
  (forall i, is_Some (sems s !! i) -> is_Some (sems s' !! i)) ->
  (forall l, is_Some (locks s !! l) -> is_Some (locks s' !! l)) ->
  (forall l, taken s l = Some t -> taken s' l = Some t) ->
  suspended s t fs -> suspended s' t fs.
Proof. intros Hi Hl Ho. destruct 1; constructor; auto. Qed.

Lemma thread_ok_mono s s' t p th :
  (forall i, is_Some (sems s !! i) -> is_Some (sems s' !! i)) ->
  (forall l, is_Some (locks s !! l) -> is_Some (locks s' !! l)) ->
  (forall l, suspended s t (frames th) -> taken s l = Some t -> taken s' l = Some t) ->
  (forall c l, p = OnCond c -> conds s !! c ≫= waitingLock = Some l ->
     conds s' !! c ≫= waitingLock = Some l) ->
  thread_ok s t p th -> thread_ok s' t p th.
Proof.
  intros Hi Hl Ho Hc. destruct p; simpl; try done.
  - intros [? [?|Hs]]; (split; [done|]); [by left|right]. eapply suspended_mono; eauto.
  - intros [? Hs]. split; [done|]. eapply suspended_mono; eauto.
  - intros (? & l & Hw & ? & ?). split; [done|]. exists l. split_and!; auto.
Qed.

Lemma thread_ok_same s s' t p th :
  sems s' = sems s -> locks s' = locks s -> conds s' = conds s ->
  thread_ok s t p th -> thread_ok s' t p th.
Proof.
  intros Hs Hl Hc. apply thread_ok_mono; unfold taken; rewrite ?Hs, ?Hl, ?Hc; done.
Qed.

Lemma thread_ok_created s t p th : thread_ok s t p th -> status th = JUST_CREATED -> p = Created.
Proof. destruct p; simpl; try done; intros [Hs _]; by rewrite Hs. Qed.

Lemma Inv_open pl s v t : Inv None pl s v -> Inv (Some t) pl s v.
Proof.
  intros []. split; try done.
  - intros t' Ht'.
  destruct (inv_threads0 t' Ht') as (th & ? & Hok). exists th. split; [done|]. intros _. by apply Hok.
  - intros t' th Ht _. by apply inv_created0.
Qed.

Lemma Inv_close pl s v t th :
  Inv (Some t) pl s v -> threads s !! t = Some th -> thread_ok s t (pl t) th ->
  Inv None pl s v.
Proof.
  intros [] Hth Hok. split; try done.
  - intros t' Ht'.
  destruct (inv_threads0 t' Ht') as (th' & ? & Hok'). exists th'. split; [done|]. intros _.
  destruct (decide (t' = t)) as [->|Hne]; [by simplify_eq|]. apply Hok'. congruence.
  - intros t' th' Ht' _ Hs. destruct (decide (t' = t)) as [->|Hne].
    + simplify_eq. by eapply thread_ok_created.
    + eapply inv_created0; [done|congruence|done].
Qed.

Lemma Inv_set_thread pl s v t th m :
  Inv (Some t) pl s v -> is_Some (threads s !! t) -> m = <[t := th]> (threads s) ->
  Inv (Some t) pl (set_threads m s) v.
Proof.
  intros [] Hs ->. split; try done.
  - intros t' Ht'. simpl. destruct (decide (t' = t)) as [->|].
    + rewrite lookup_insert_eq. exists th. by split.
    + rewrite lookup_insert_ne by done.
      destruct (inv_threads0 t' Ht') as (th' & ? & Hok). exists th'. split; [done|].
      intros Hne. by eapply thread_ok_same; [..|apply Hok].
  - intros t' th' Ht' Hne. assert (t' <> t) by congruence.
    eapply inv_created0; [|done]. simpl in Ht'. by rewrite lookup_insert_ne in Ht'.
  - intros t' Ht'. destruct (inv_destroyed0 t' Ht'). split; [done|]. simpl.
    destruct (decide (t' = t)) as [->|]; [by rewrite lookup_insert_eq|by rewrite lookup_insert_ne].
Qed.

(** The clauses that do not mention the current thread. *)
Lemma Inv_same X pl s s' v :
  readyList s' = readyList s -> threads s' = threads s -> sems s' = sems s ->
  locks s' = locks s -> conds s' = conds s ->
  threadToBeDestroyed s' = threadToBeDestroyed s ->
  (forall t, pl t = Current -> currentThread s' = currentThread s) ->
  Inv X pl s v -> Inv X pl s' v.
Proof.
  intros Hr Ht Hs Hl Hc Hd Hcur []. split; unfold own; rewrite ?Ht, ?Hs, ?Hl, ?Hd; try done.
  - eapply Places_ext; [done|]. intros []; simpl; by rewrite ?Hr, ?Hs, ?Hl, ?Hc.
  - intros t' Ht'. destruct (inv_threads0 t' Ht') as (th' & ? & Hok).
    exists th'. split; [done|]. intros Hne. by eapply thread_ok_same, Hok.
  - intros t Hp. rewrite (Hcur t Hp). by apply inv_current0.
Qed.

Lemma Inv_set_level X pl s v lv : Inv X pl s v -> Inv X pl (set_level lv s) v.
Proof. by apply Inv_same. Qed.
Lemma Inv_set_idle X pl s v b : Inv X pl s v -> Inv X pl (set_idle b s) v.
Proof. by apply Inv_same. Qed.

Lemma Inv_set_current X pl s v t :
  (forall t', pl t' <> Current) -> Inv X pl s v -> Inv X pl (set_current t s) v.
Proof. intros Hn. apply Inv_same; try done. intros t' Ht'. by destruct (Hn t'). Qed.

(** Moving [t] between places that are not queues. *)
Lemma Inv_move pl s v t p :
  Inv (Some t) pl s v -> ~ queued (pl t) -> ~ queued p -> pl t <> Gone ->
  (p = Current -> t = currentThread s) ->
  Inv (Some t) (<[t := p]> pl) s v.
Proof.
  intros [] Hq Hp Hg Hc. split; try done.
  - by apply Places_move.
  - intros t'. destruct (decide (t' = t)) as [->|].
    + rewrite fn_lookup_insert. intros _. destruct (inv_threads0 t Hg) as (th & ? & _).
      exists th. by split.
    + rewrite fn_lookup_insert_ne by done. apply inv_threads0.
  - intros t' th Ht' Hne. rewrite fn_lookup_insert_ne by congruence. by apply inv_created0.
  - intros t'. destruct (decide (t' = t)) as [->|].
    + rewrite fn_lookup_insert. apply Hc.
    + rewrite fn_lookup_insert_ne by done. apply inv_current0.
  - intros t' Ht'. destruct (inv_destroyed0 t' Ht'). split; [|done].
    rewrite fn_lookup_insert_ne; [done|]. by intros ->.
Qed.

(** The clauses on places of an update that takes [t] from [pl t] to [p]. *)
Lemma Inv_replace pl s v t p s' v' :
  Inv (Some t) pl s v -> pl t <> Gone -> p <> Current ->
  Places (<[t := p]> pl) (members s') ->
  threads s' = threads s -> currentThread s' = currentThread s ->
  threadToBeDestroyed s' = threadToBeDestroyed s ->
  (forall t' th, t' <> t -> pl t' <> Gone -> threads s !! t' = Some th ->
     thread_ok s t' (pl t') th -> thread_ok s' t' (pl t') th) ->
  (forall l x, locks s' !! l = Some x -> lock_ok (stale v') l x) ->
  (forall i x, sems s' !! i = Some x -> 0 <= value x < 2 ^ 31 /\ credit v' !! i = Some (value x)) ->
  (forall t l, (t, l) ∈ held v' -> own s' l = Some t \/ (t, l) ∈ stale v') ->
  Inv (Some t) (<[t := p]> pl) s' v'.
Proof.
  intros [] Hg Hp HP Ht Hc Hd Hth Hl Hs Hh. split; try done.
  - intros t'. rewrite Ht. destruct (decide (t' = t)) as [->|].
    + intros _. destruct (inv_threads0 t Hg) as (th & ? & _). exists th. by split.
    + rewrite fn_lookup_insert_ne by done. intros Hg'.
      destruct (inv_threads0 t' Hg') as (th & ? & Hok). exists th. split; [done|].
      intros _. eapply Hth; try done. apply Hok. congruence.
  - intros t' th. rewrite Ht. intros Ht' Hne. rewrite fn_lookup_insert_ne by congruence. by apply inv_created0.
  - intros t'. rewrite Hc. destruct (decide (t' = t)) as [->|].
    + by rewrite fn_lookup_insert.
    + rewrite fn_lookup_insert_ne by done. apply inv_current0.
  - intros t'. rewrite Hd, Ht. intros Ht'. destruct (inv_destroyed0 t' Ht'). split; [|done].
    rewrite fn_lookup_insert_ne; [done|]. by intros ->.
Qed.

(** The clauses of [Inv_replace] about components that did not change. *)
Ltac inv_same :=
  try done;
  try (match goal with H : Inv _ _ _ _ |- _ => solve [apply H] end);
  try solve [intros; eapply thread_ok_same; [| | |eassumption]; done].

Lemma Inv_ready_push pl s v t :
  Inv (Some t) pl s v -> ~ queued (pl t) -> pl t <> Gone ->
  Inv (Some t) (<[t := Ready]> pl) (set_ready (readyList s ++ [t]) s) v.
Proof.
  intros HI Hq Hg. eapply Inv_replace; [exact HI|inv_same..].
  eapply Places_push; [apply HI|done..|]. by intros [].
Qed.

Lemma Inv_ready_pop pl s v t q :
  Inv None pl s v -> readyList s = t :: q ->
  pl t = Ready /\ Inv (Some t) (<[t := Limbo]> pl) (set_ready q s) v.
Proof.
  intros HI Hr. assert (pl t = Ready) as Hp.
  { destruct (inv_places _ _ _ _ HI Ready I) as [_ Hin]. apply Hin. simpl. rewrite Hr. set_solver. }
  split; [done|]. eapply Inv_replace; [by apply Inv_open|inv_same..].
  - by rewrite Hp.
  - eapply (Places_pop _ (members s) _ t q Ready); try done;
      first [by apply HI|by intros []].
Qed.

(** ** Queues of semaphores, locks and conditions *)

Lemma members_sem s i x p :
  members (set_sems (<[i := x]> (sems s)) s) p =
  if decide (p = OnSem i) then squeue x else members s p.
Proof.
  destruct p as [| | | | |j|l|c]; simpl; try done. destruct (decide (j = i)) as [->|Hne].
  - by rewrite lookup_insert_eq, decide_True.
  - rewrite lookup_insert_ne, decide_False by congruence. done.
Qed.

Lemma members_lock s l x p :
  members (set_locks (<[l := x]> (locks s)) s) p =
  if decide (p = OnLock l) then lqueue x else members s p.
Proof.
  destruct p as [| | | | |j|j|c]; simpl; try done. destruct (decide (j = l)) as [->|Hne].
  - by rewrite lookup_insert_eq, decide_True.
  - rewrite lookup_insert_ne, decide_False by congruence. done.
Qed.

Lemma members_cond s c x p :
  members (set_conds (<[c := x]> (conds s)) s) p =
  if decide (p = OnCond c) then cqueue x else members s p.
Proof.
  destruct p as [| | | | |j|j|j]; simpl; try done. destruct (decide (j = c)) as [->|Hne].
  - by rewrite lookup_insert_eq, decide_True.
  - rewrite lookup_insert_ne, decide_False by congruence. done.
Qed.

Lemma own_set_lock s l x l' :
  own (set_locks (<[l := x]> (locks s)) s) l' =
  if decide (l' = l) then threadWithPossession x else own s l'.
Proof.
  unfold own. simpl. destruct (decide (l' = l)) as [->|].
  - by rewrite lookup_insert_eq.
  - by rewrite lookup_insert_ne.
Qed.

Lemma taken_set_lock s l x l' :
  taken (set_locks (<[l := x]> (locks s)) s) l' =
  if decide (l' = l) then match state x with BUSY => threadWithPossession x | FREE => None end else taken s l'.
Proof.
  unfold taken. simpl. destruct (decide (l' = l)) as [->|].
  - by rewrite lookup_insert_eq.
  - by rewrite lookup_insert_ne.
Qed.

Lemma taken_own s l t : taken s l = Some t -> own s l = Some t.
Proof. unfold taken, own. destruct (locks s !! l) as [[[] q w]|]; done. Qed.

(** An object that is updated stays. *)
Lemma insert_is_Some {A} (m : gmap nat A) i x j : is_Some (m !! j) -> is_Some (<[i := x]> m !! j).
Proof. intros. rewrite lookup_insert_is_Some. destruct (decide (i = j)); auto. Qed.

(** An update of objects that moves no thread. *)
Lemma Inv_object pl s v s' v' :
  Inv None pl s v ->
  (forall p, members s' p = members s p) ->
  threads s' = threads s -> currentThread s' = currentThread s ->
  threadToBeDestroyed s' = threadToBeDestroyed s ->
  (forall t th, threads s !! t = Some th -> thread_ok s t (pl t) th -> thread_ok s' t (pl t) th) ->
  (forall l x, locks s' !! l = Some x -> lock_ok (stale v') l x) ->
  (forall i x, sems s' !! i = Some x -> 0 <= value x < 2 ^ 31 /\ credit v' !! i = Some (value x)) ->
  (forall t l, (t, l) ∈ held v' -> own s' l = Some t \/ (t, l) ∈ stale v') ->
  Inv None pl s' v'.
Proof.
  intros [] Hm Ht Hc Hd Hth Hl Hs Hh. split; rewrite ?Ht, ?Hc, ?Hd; try done.
  - by eapply Places_ext.
  - intros t Hg. destruct (inv_threads0 t Hg) as (th & ? & Hok). exists th.
    split; [done|]. intros Hn. apply Hth; [done|]. by apply Hok.
Qed.

Lemma sem_update s i x' v :
  0 <= value x' < 2 ^ 31 ->
  (forall j x, sems s !! j = Some x -> 0 <= value x < 2 ^ 31 /\ credit v !! j = Some (value x)) ->
  forall j x, (<[i := x']> (sems s)) !! j = Some x ->
    0 <= value x < 2 ^ 31 /\ (<[i := value x']> (credit v)) !! j = Some (value x).
Proof.
  intros Hx Hs j x. destruct (decide (j = i)) as [->|].
  - rewrite !lookup_insert_eq. intros ?; by simplify_eq.
  - rewrite !lookup_insert_ne by done. apply Hs.
Qed.

Lemma lock_update G s l x' :
  lock_ok G l x' -> (forall j x, locks s !! j = Some x -> lock_ok G j x) ->
  forall j x, (<[l := x']> (locks s)) !! j = Some x -> lock_ok G j x.
Proof.
  intros Hx Hs j x. destruct (decide (j = l)) as [->|].
  - rewrite !lookup_insert_eq. intros ?; by simplify_eq.
  - rewrite !lookup_insert_ne by done. apply Hs.
Qed.

Lemma thread_ok_sem s i x t p th :
  thread_ok s t p th -> thread_ok (set_sems (<[i := x]> (sems s)) s) t p th.
Proof. apply thread_ok_mono; try done. intros j. apply insert_is_Some. Qed.

(** A lock update keeps the threads that do not lose it. *)
Lemma thread_ok_lock s l x t p th :
  (suspended s t (frames th) -> taken s l = Some t -> state x = BUSY /\ threadWithPossession x = Some t) ->
  thread_ok s t p th -> thread_ok (set_locks (<[l := x]> (locks s)) s) t p th.
Proof.
  intros Ho. apply thread_ok_mono; try done.
  - intros j. apply insert_is_Some.
  - intros j Hs Hj. rewrite taken_set_lock. case_decide; [subst|done].
    by destruct (Ho Hs Hj) as [-> ->].
Qed.

Lemma thread_ok_cond s c x t p th :
  (p = OnCond c -> conds s !! c ≫= waitingLock = waitingLock x) ->
  thread_ok s t p th -> thread_ok (set_conds (<[c := x]> (conds s)) s) t p th.
Proof.
  intros Hw. apply thread_ok_mono; try done. intros c' l -> Hc. simpl.
  destruct (decide (c' = c)) as [->|].
  - rewrite lookup_insert_eq. simpl. by rewrite <-Hw.
  - by rewrite lookup_insert_ne.
Qed.

(** ** Scheduling *)

Lemma queue_head pl m p t q : Places pl m -> queued p -> m p = t :: q -> pl t = p.
Proof. intros HP Hp Hm. apply (HP p Hp). rewrite Hm. set_solver. Qed.

Lemma thread_of pl s v t : Inv None pl s v -> pl t <> Gone ->
  exists th, threads s !! t = Some th /\ thread_ok s t (pl t) th.
Proof.
  intros HI Hg. destruct (inv_threads _ _ _ _ HI t Hg) as (th & ? & Hok).
  exists th. split; [done|]. by apply Hok.
Qed.

(** A place that is not a queue. *)
Ltac unqueued :=
  rewrite ?fn_lookup_insert;
  try match goal with H : ?pl ?t = _ |- context [?pl ?t] => rewrite H end;
  solve [done|by intros []].

Lemma Run_Sw pl s v n th :
  Inv None pl s v -> pl n = Limbo -> (forall t, pl t <> Current) -> level s = IntOff ->
  threads s !! n = Some th -> suspended s n (frames th) ->
  exists s', Run n s = Ok (s', tt) /\ Sw_inv v s'.
Proof.
  intros HI Hp Hc Hl Hth Hsus.
  unfold Run, setStatus, thread_at, modify, set_thread, lift, sbind, get, sret. simpl. rewrite Hth. simpl.
  eexists. split; [reflexivity|]. exists (<[n := Current]> pl). split.
  - apply Inv_set_idle. apply (Inv_close _ _ _ n (mkThread RUNNING (frames th))).
    + eapply Inv_set_thread; [|by exists th|done].
      apply Inv_move; try done.
      * by apply Inv_set_current, Inv_open.
      * unqueued.
      * unqueued.
      * by rewrite Hp.
    + simpl. by rewrite lookup_insert_eq.
    + rewrite fn_lookup_insert. split; [done|]. right. by eapply suspended_mono; [..|exact Hsus].
  - split; [done|]. right. split; [done|]. split; [by rewrite fn_lookup_insert|].
    simpl. rewrite lookup_insert_eq. eexists. split; [done|]. simpl. by destruct Hsus.
Qed.

Lemma dispatch_Sw pl s v :
  Inv None pl s v -> (forall t, pl t <> Current) -> level s = IntOff ->
  exists s', dispatch s = Ok (s', tt) /\ Sw_inv v s'.
Proof.
  intros HI Hc Hl. unfold dispatch, FindNextToRun, sbind, get, put, sret.
  destruct (readyList s) as [|n r] eqn:Hr.
  { eexists. split; [done|]. exists pl. split; [by apply Inv_set_idle|]. split; [done|]. by left. }
  destruct (Inv_ready_pop pl s v n r HI Hr) as [Hp HI'].
  destruct (thread_of _ _ _ n HI) as (th & Hth & Hok); [by rewrite Hp|].
  rewrite Hp in Hok. destruct Hok as [Hst Hsus].
  apply (Run_Sw (<[n := Limbo]> pl) (set_ready r s) v n th); try done.
  - apply (Inv_close _ _ _ n th); [done|done|]. rewrite fn_lookup_insert. simpl. by rewrite Hst.
  - by rewrite fn_lookup_insert.
  - intros t. destruct (decide (t = n)) as [->|];
      [by rewrite fn_lookup_insert|by rewrite fn_lookup_insert_ne].
  - by eapply suspended_mono; [..|exact Hsus].
Qed.

Lemma Sleep_Sw pl s v k :
  Inv (Some (currentThread s)) pl s v -> is_Some (threads s !! currentThread s) ->
  (forall t, pl t <> Current) -> level s = IntOff ->
  thread_ok s (currentThread s) (pl (currentThread s)) (mkThread BLOCKED k) ->
  exists s', Sleep k s = Ok (s', tt) /\ Sw_inv v s'.
Proof.
  intros HI [th Hth] Hc Hl Hok.
  unfold Sleep, setStatus, set_frames, thread_at, set_thread, modify, lift, sbind, get, sret.
  simpl. rewrite Hl, bool_decide_eq_true_2 by done. simpl. rewrite Hth. simpl.
  rewrite lookup_insert_eq. simpl.
  apply (dispatch_Sw pl); try done. apply (Inv_close _ _ _ (currentThread s) (mkThread BLOCKED k)).
  - eapply Inv_set_thread; [by eapply Inv_set_thread|apply lookup_insert_is_Some; by left|done].
  - simpl. by rewrite lookup_insert_eq.
  - by eapply thread_ok_same; [..|exact Hok].
Qed.

Lemma ReadyToRun_inv pl s v t th :
  Inv (Some t) pl s v -> pl t = Limbo \/ pl t = Created \/ pl t = Current ->
  threads s !! t = Some th -> suspended s t (frames th) ->
  let s' := set_ready (readyList s ++ [t])
              (set_threads (<[t := mkThread READY (frames th)]> (threads s)) s) in
  ReadyToRun t s = Ok (s', tt) /\ Inv None (<[t := Ready]> pl) s' v.
Proof.
  intros HI Hp Hth Hsus. cbv zeta. split.
  { unfold ReadyToRun, setStatus, thread_at, set_thread, modify, lift, sbind, get. simpl. by rewrite Hth. }
  apply (Inv_close _ _ _ t (mkThread READY (frames th))).
  - apply (Inv_ready_push pl (set_threads _ s)).
    + by eapply Inv_set_thread.
    + destruct Hp as [->|[->| ->]]; naive_solver.
    + destruct Hp as [->|[->| ->]]; naive_solver.
  - simpl. by rewrite lookup_insert_eq.
  - rewrite fn_lookup_insert. split; [done|]. by eapply suspended_mono; [..|exact Hsus].
Qed.

(** ** The operations keep the invariant *)

(** Exposes the accesses to the state that a routine makes. *)
Ltac sys_run :=
  unfold set_sem, set_lock, set_cond, set_thread, sem_at, lock_at, cond_at, thread_at, SetLevel;
  unfold sbind, gets, get, put, modify, lift, sret, deref; cbn beta iota.

(** Components that [set_level] does not change. *)
Ltac sys_proj :=
  repeat match goal with
  | |- context [currentThread (set_level ?a ?s)] => change (currentThread (set_level a s)) with (currentThread s)
  | |- context [locks (set_level ?a ?s)] => change (locks (set_level a s)) with (locks s)
  | |- context [conds (set_level ?a ?s)] => change (conds (set_level a s)) with (conds s)
  end.

(** [c] returns in [Qd], or gives up the processor in [Qs]; it may stop only at
    the overflow of a semaphore. *)
Definition outcome (c : K bool) (Qd Qs : Sys -> Prop) (s : Sys) : Prop :=
  match c s with
  | Ok (s', true) => Qd s'
  | Ok (s', false) => Qs s'
  | Fault f => f = UndefinedArith
  end.

Lemma no_current X pl s v p t :
  Inv X pl s v -> p <> Current -> (<[currentThread s := p]> pl) t <> Current.
Proof.
  intros HI Hp. destruct (decide (t = currentThread s)) as [->|Hne].
  - by rewrite fn_lookup_insert.
  - rewrite fn_lookup_insert_ne by done. intros Hc. apply Hne. by eapply inv_current.
Qed.

Lemma Run_inv_level lv lv' v s : Run_inv lv v s -> Run_inv lv' v (set_level lv' s).
Proof.
  intros (pl & HI & Hi & Hl & Hc & Hth). exists pl. split; [by apply Inv_set_level|]. by split_and!.
Qed.

(** Blocking: the current thread was put at the end of a queue. *)
Lemma block_Sw pl s0 s v p k :
  Inv (Some (currentThread s0)) (<[currentThread s0 := p]> pl) s v -> p <> Current ->
  currentThread s = currentThread s0 -> is_Some (threads s !! currentThread s0) ->
  level s = IntOff -> thread_ok s (currentThread s) p (mkThread BLOCKED k) ->
  exists s', Sleep k s = Ok (s', tt) /\ Sw_inv v s'.
Proof.
  intros HI Hp Hc Hth Hl Hok. rewrite <-Hc in *.
  apply (Sleep_Sw (<[currentThread s := p]> pl)); try done.
  - intros t Ht. assert (t = currentThread s) as -> by (by eapply inv_current).
    by rewrite fn_lookup_insert in Ht.
  - by rewrite fn_lookup_insert.
Qed.

Lemma default_credit v i n m : credit v !! i = Some n ->
  credit (add_credit i m v) = <[i := n + m]> (credit v).
Proof. intros H. unfold add_credit. simpl. by rewrite H. Qed.

Lemma P_loop_inv i v s :
  Run_inv IntOff v s -> is_Some (sems s !! i) ->
  outcome (P_loop i IntOn []) (Run_inv IntOn (add_credit i (-1) v)) (Sw_inv v) s.
Proof.
  intros (pl & HI & Hid & Hl & Hc & th & Hth & Hfr) [x Hx].
  destruct (inv_sems _ _ _ _ HI i x Hx) as [Hv Hcr].
  unfold outcome, P_loop. sys_run.
  rewrite Hx. case_decide as Hz.
  - destruct (block_Sw pl s (set_sems (<[i := mkSemaphore (value x) (squeue x ++ [currentThread s])]> (sems s)) s)
      v (OnSem i) [FP i IntOn]) as (s' & Hs & HQ);
      [|done|done|by exists th|done|done|by rewrite Hs].
    eapply Inv_replace; [by apply Inv_open|inv_same..].
    + by rewrite Hc.
    + eapply (Places_push _ (members s)); [apply HI|by unqueued|done|..].
      * rewrite members_sem, decide_True by done. simpl. by rewrite Hx.
      * intros p' Hp'. by rewrite members_sem, decide_False.
    + intros. by apply thread_ok_sem.
    + intros j y. simpl. destruct (decide (j = i)) as [->|].
      * rewrite lookup_insert_eq. intros ?; simplify_eq. done.
      * rewrite lookup_insert_ne by done. apply HI.
  - apply (Run_inv_level IntOff). exists pl. split; [|by split_and!; try done; exists th].
    eapply Inv_object; [done|inv_same..].
    + intros p. rewrite members_sem. case_decide; [|done]. subst p. simpl. by rewrite Hx.
    + intros. by apply thread_ok_sem.
    + rewrite (default_credit _ _ _ _ Hcr). apply (sem_update s i (mkSemaphore (value x - 1) (squeue x))).
      * simpl. lia.
      * apply HI.
Qed.

(** What a routine that does not give up the processor leaves alone. *)
Record kept (pl : tid -> place) (s : Sys) (pl' : tid -> place) (s' : Sys) : Prop := {
  kept_current : currentThread s' = currentThread s;
  kept_idle : idle s' = idle s;
  kept_place : forall t, pl' t = Current <-> pl t = Current;
  kept_thread : forall t, pl t = Current -> threads s' !! t = threads s !! t
}.

Lemma kept_refl pl s s' :
  currentThread s' = currentThread s -> idle s' = idle s -> threads s' = threads s -> kept pl s pl s'.
Proof. intros H1 H2 H3. split; try done. intros. by rewrite H3. Qed.

Lemma kept_trans pl1 s1 pl2 s2 pl3 s3 :
  kept pl1 s1 pl2 s2 -> kept pl2 s2 pl3 s3 -> kept pl1 s1 pl3 s3.
Proof.
  intros [] []. split; [congruence|congruence|naive_solver|].
  intros t Ht. rewrite kept_thread1 by by apply kept_place0. by apply kept_thread0.
Qed.

Lemma kept_ext pl s1 s1' pl' s2 s2' :
  kept pl s1 pl' s2 ->
  currentThread s1' = currentThread s1 -> idle s1' = idle s1 -> threads s1' = threads s1 ->
  currentThread s2' = currentThread s2 -> idle s2' = idle s2 -> threads s2' = threads s2 ->
  kept pl s1' pl' s2'.
Proof.
  intros [] H1 H2 H3 H4 H5 H6. split; [congruence|congruence|done|].
  intros t Ht. rewrite H6, H3. by apply kept_thread0.
Qed.

Lemma kept_running pl s pl' s' v lv :
  kept pl s pl' s' -> Inv None pl' s' v -> level s' = lv ->
  running (level s) pl s -> Run_inv lv v s'.
Proof.
  intros [Hc Hi Hp Ht] HI Hl (? & _ & Hcur & Hth). exists pl'. split; [done|].
  split; [congruence|]. split; [done|]. rewrite Hc, Hp, Ht by done. done.
Qed.

(** [t] was taken off a queue and becomes ready. *)
Lemma wake_inv pl s1 v t th :
  Inv (Some t) (<[t := Limbo]> pl) s1 v -> pl t <> Current ->
  threads s1 !! t = Some th -> suspended s1 t (frames th) ->
  exists s2, ReadyToRun t s1 = Ok (s2, tt) /\
    Inv None (<[t := Ready]> (<[t := Limbo]> pl)) s2 v /\
    kept pl s1 (<[t := Ready]> (<[t := Limbo]> pl)) s2 /\
    level s2 = level s1 /\ readyList s2 = readyList s1 ++ [t] /\ sems s2 = sems s1 /\ locks s2 = locks s1 /\ conds s2 = conds s1.
Proof.
  intros HI Hc Hth Hsus. destruct (ReadyToRun_inv _ _ _ _ th HI) as [Hr HI']; try done.
  { left. by rewrite fn_lookup_insert. }
  eexists. split; [exact Hr|]. split; [done|]. split; [|done].
  split; try done.
  - intros t'. destruct (decide (t' = t)) as [->|]; [rewrite fn_lookup_insert; naive_solver|].
    by rewrite !fn_lookup_insert_ne by done.
  - intros t' Ht'. simpl. rewrite lookup_insert_ne; [done|]. by intros ->.
Qed.

Lemma head_thread pl s v p t q :
  Inv None pl s v -> queued p -> members s p = t :: q ->
  pl t = p /\ exists th, threads s !! t = Some th /\ thread_ok s t p th.
Proof.
  intros HI Hp Hm. assert (pl t = p) as Hpt by (eapply queue_head; [apply HI|done|done]).
  split; [done|]. destruct (thread_of _ _ _ t HI) as (th & ? & Hok); [rewrite Hpt; by intros ->|].
  rewrite Hpt in Hok. by exists th.
Qed.

Lemma V_wake_inv pl s v i x :
  Inv None pl s v -> sems s !! i = Some x ->
  exists pl' s' q, V_wake i s = Ok (s', tt) /\ Inv None pl' s' v /\ kept pl s pl' s' /\
    level s' = level s /\ sems s' !! i = Some (mkSemaphore (value x) q).
Proof.
  intros HI Hx. unfold V_wake. sys_run.
  rewrite Hx. destruct (squeue x) as [|t q] eqn:Hq.
  { exists pl, s, []. split_and!; [done|done|by apply kept_refl|done|].
    rewrite Hx. destruct x; simpl in *. by subst. }
  destruct (head_thread pl s v (OnSem i) t q HI I) as (Hp & th & Hth & _ & Hfr).
  { simpl. by rewrite Hx. }
  destruct (wake_inv pl (set_sems (<[i := mkSemaphore (value x) q]> (sems s)) s) v t th)
    as (s2 & Hr & HI2 & Hk & Hl & _ & Hs2 & _); try done.
  - apply (Inv_replace pl s v); [by apply Inv_open|inv_same..].
    + by rewrite Hp.
    + apply (Places_pop _ (members s) _ t q (OnSem i)); [apply HI|done| |by intros []|..].
      * simpl. by rewrite Hx.
      * by rewrite members_sem, decide_True.
      * intros p' Hp'. by rewrite members_sem, decide_False.
    + intros. by apply thread_ok_sem.
    + intros j y. simpl. destruct (decide (j = i)) as [->|].
      * rewrite lookup_insert_eq. intros ?; simplify_eq. exact (inv_sems _ _ _ _ HI i x Hx).
      * rewrite lookup_insert_ne by done. apply HI.
  - by rewrite Hp.
  - rewrite Hfr. constructor. eexists. apply lookup_insert_eq.
  - exists (<[t := Ready]> (<[t := Limbo]> pl)), s2, q. split_and!; [done|done| |done|].
    + by eapply kept_ext; [exact Hk|..].
    + rewrite Hs2. apply lookup_insert_eq.
Qed.

Lemma V_inv pl s v i :
  Inv None pl s v -> is_Some (sems s !! i) ->
  match V i s with
  | Ok (s', _) => exists pl', Inv None pl' s' (add_credit i 1 v) /\ kept pl s pl' s' /\ level s' = level s
  | Fault f => f = UndefinedArith
  end.
Proof.
  intros HI [x Hx].
  destruct (V_wake_inv pl (set_level IntOff s) v i x) as (pl' & s' & q & Hw & HI' & Hk & Hl & Hx');
    [by apply Inv_set_level|done|].
  destruct (inv_sems _ _ _ _ HI' i _ Hx') as [Hv Hcr].
  unfold V. sys_run. rewrite Hw, Hx'. simpl. case_decide as Hov; [|done].
  exists pl'. split_and!; [|by eapply kept_ext; [exact Hk|..]|done].
  apply Inv_set_level. eapply Inv_object; [exact HI'|inv_same..].
  - intros p. rewrite members_sem. case_decide; [|done]. subst p. simpl. by rewrite Hx'.
  - intros. by apply thread_ok_sem.
  - rewrite (default_credit _ _ _ _ Hcr). apply (sem_update s' i (mkSemaphore (value x + 1) q)).
    + simpl in *. lia.
    + apply HI'.
Qed.

(** Reading who holds a lock. *)
Lemma held_run l s x :
  locks s !! l = Some x ->
  isHeldByCurrentThread l s = Ok (s, bool_decide (own s l = Some (currentThread s))).
Proof. intros Hx. unfold isHeldByCurrentThread. sys_run. unfold own. by rewrite Hx. Qed.

(** The lock changes hands or becomes free, and moves no thread. *)
Lemma Inv_lock_object pl s v l x x' :
  Inv None pl s v -> locks s !! l = Some x -> lqueue x' = lqueue x -> lock_ok (stale v) l x' ->
  (forall t th, threads s !! t = Some th -> suspended s t (frames th) ->
     taken s l = Some t -> state x' = BUSY /\ threadWithPossession x' = Some t) ->
  (forall t, (t, l) ∈ held v -> threadWithPossession x' = Some t \/ (t, l) ∈ stale v) ->
  Inv None pl (set_locks (<[l := x']> (locks s)) s) v.
Proof.
  intros HI Hx Hq Hok Ho Hh. eapply Inv_object; [exact HI|inv_same..].
  - intros p. rewrite members_lock. case_decide; [|done]. subst p. simpl. by rewrite Hx.
  - intros t th Hth. apply thread_ok_lock. intros Hs Hl. by eapply Ho.
  - apply (lock_update _ s l x'); [done|apply HI].
  - intros t l' Hin. rewrite own_set_lock. case_decide; [subst; auto|]. by apply (inv_held _ _ _ _ HI).
Qed.

Lemma Run_inv_hold lv v s l :
  Run_inv lv v s -> own s l = Some (currentThread s) -> Run_inv lv (hold (currentThread s) l v) s.
Proof.
  intros (pl & HI & Hr) Ho. exists pl. split; [|done]. destruct HI. split; try done.
  intros t l'. simpl. rewrite elem_of_union, elem_of_singleton. intros [[= -> ->]|Hin]; auto.
Qed.

Lemma Inv_unhold X pl s v t l : Inv X pl s v -> Inv X pl s (unhold t l v).
Proof.
  intros []. split; try done. intros t' l'. simpl. rewrite elem_of_difference. intros [? _]. auto.
Qed.

Lemma Acquire_inv l lv k v s :
  Run_inv lv v s -> is_Some (locks s !! l) ->
  (lv = IntOn /\ k = [] \/ lv = IntOff /\ k = [FWaitEnd l IntOn]) ->
  outcome (Acquire l k) (Run_inv lv (hold (currentThread s) l v)) (Sw_inv v) s.
Proof.
  intros (pl & HI & Hid & <- & Hc & th & Hth & Hfr) [x Hx] Hk.
  unfold outcome, Acquire. sys_run. rewrite (held_run l _ x) by done. cbn beta iota.
  case_bool_decide as Ho.
  { change (currentThread s) with (currentThread (set_level (level s) (set_level IntOff s))).
    apply Run_inv_hold; [|done]. apply (Run_inv_level IntOff). apply (Run_inv_level (level s)).
    exists pl. split; [done|]. split_and!; try done. by exists th. }
  change (locks (set_level IntOff s)) with (locks s). rewrite Hx.
  case_decide as Hf.
  - assert (lqueue x = [] /\ taken s l = None /\ forall t, own s l = Some t -> (t, l) ∈ stale v)
      as (Hq & Htk & Hown).
    { pose proof (inv_locks _ _ _ _ HI l x Hx) as Hok. unfold lock_ok in Hok. rewrite Hf in Hok.
      destruct Hok as [? Hp]. unfold own, taken. rewrite Hx. simpl. by rewrite Hf. }
    set (s2 := set_locks _ _).
    change (currentThread s) with (currentThread (set_level (level s) s2)). apply Run_inv_hold.
    + apply (Run_inv_level IntOff). exists pl. split; [|split_and!; try done; by exists th].
      apply (Inv_lock_object pl (set_level IntOff s) v l x); [by apply Inv_set_level|done|done|by eexists| |].
      * intros t ? _ _ Ht. change (taken s l = Some t) in Ht. congruence.
      * intros t [Hin|Hin]%(inv_held _ _ _ _ HI); right; auto.
    + unfold s2, own. simpl. by rewrite lookup_insert_eq.
  - assert (state x = BUSY) as Hb by (destruct (state x); naive_solver).
    destruct (block_Sw pl s (set_locks (<[l := mkLock (state x) (lqueue x ++ [currentThread s])
        (threadWithPossession x)]> (locks s)) (set_level IntOff s)) v (OnLock l) (FAcquire l (level s) :: k))
      as (s' & Hs & HQ); [|done|done|by exists th|done| |by sys_proj; rewrite Hs].
    2: { split; [done|]. simpl. destruct Hk as [[-> ->]|[-> ->]]; auto. }
    apply (Inv_replace pl (set_level IntOff s) v); [by apply Inv_open, Inv_set_level|inv_same..].
    + by rewrite Hc.
    + apply (Places_push _ (members s)); [apply HI|by unqueued|done|..].
      * rewrite (members_lock (set_level IntOff s)), decide_True by done. simpl. by rewrite Hx.
      * intros p' Hp'. by rewrite (members_lock (set_level IntOff s)), decide_False.
    + intros t th' _ _ _. apply (thread_ok_lock (set_level IntOff s)). unfold taken. simpl. rewrite Hx. simpl. by rewrite Hb.
    + apply (lock_update _ (set_level IntOff s)); [|apply HI].
      pose proof (inv_locks _ _ _ _ HI l x Hx) as Hok. unfold lock_ok in *. simpl. by rewrite Hb in *.
    + intros t l' Hin. rewrite (own_set_lock (set_level IntOff s)). case_decide; [subst|].
      * apply (inv_held _ _ _ _ HI) in Hin. unfold own in Hin. by rewrite Hx in Hin.
      * by apply (inv_held _ _ _ _ HI).
Qed.

(** The current thread runs in the routines of this file. *)
Definition active (pl : tid -> place) (s : Sys) : Prop :=
  pl (currentThread s) = Current /\
  exists th, threads s !! currentThread s = Some th /\ frames th = [].

Lemma kept_active pl s pl' s' : kept pl s pl' s' -> active pl s -> active pl' s'.
Proof.
  intros [Hc _ Hp Ht] [Hcur Hth]. unfold active. rewrite Hc. split; [by apply Hp|]. by rewrite Ht.
Qed.

Lemma unheld pl s v l t : Inv None pl s v -> own s l = Some (currentThread s) ->
  (t, l) ∈ held (unhold (currentThread s) l v) -> (t, l) ∈ stale v.
Proof.
  intros HI Ho. simpl. rewrite elem_of_difference, elem_of_singleton. intros [Hin Hne].
  apply (inv_held _ _ _ _ HI) in Hin as [Hin|Hin]; [congruence|done].
Qed.

Lemma Release_inv pl s v l :
  Inv None pl s v -> active pl s -> is_Some (locks s !! l) ->
  exists pl' s', Release l s = Ok (s', tt) /\ Inv None pl' s' (unhold (currentThread s) l v) /\
    kept pl s pl' s' /\ level s' = level s /\ conds s' = conds s /\
    forall j, is_Some (locks s !! j) -> is_Some (locks s' !! j).
Proof.
  intros HI (Hc & th & Hth & Hfr) [x Hx]. unfold Release. sys_run.
  rewrite (held_run l _ x) by done. cbn beta iota. case_bool_decide as Ho; cbn beta iota delta [negb].
  2: { exists pl. eexists. split; [done|]. split_and!; [|by apply kept_refl|done|done|].
       - by apply Inv_set_level, Inv_set_level, Inv_unhold.
       - done. }
  change (own s l = Some (currentThread s)) in Ho.
  apply (Inv_unhold _ _ _ _ (currentThread s) l) in HI as HI'.
  pose proof (fun t => unheld pl s v l t HI Ho) as Hun.
  sys_proj. rewrite Hx. destruct (lqueue x) as [|t q] eqn:Hq.
  - exists pl. eexists. split; [done|]. split_and!; [|by apply kept_refl|done|done|].
    2: { intros j. apply insert_is_Some. }
    apply Inv_set_level. apply (Inv_lock_object pl (set_level IntOff s) _ l x);
      [by apply Inv_set_level|done|done|done| |].
    + intros t th' Ht Hs Hl%taken_own. change (own s l = Some t) in Hl. exfalso.
      assert (t = currentThread s) as -> by congruence. simpl in Ht.
      rewrite Hth in Ht. simplify_eq. rewrite Hfr in Hs. inversion Hs.
    + intros t Hin. right. by apply Hun.
  - destruct (head_thread pl s v (OnLock l) t q HI I) as (Hp & th' & Hth' & _ & Hfr').
    { simpl. by rewrite Hx. }
    assert (t <> currentThread s) as Hne by (intros ->; congruence).
    destruct (wake_inv pl (set_locks (<[l := mkLock (state x) q (Some t)]> (locks s)) (set_level IntOff s))
      (unhold (currentThread s) l v) t th') as (s2 & Hr & HI2 & Hk & Hl & _ & _ & Hl2 & Hc2); try done.
    + apply (Inv_replace pl (set_level IntOff s) (unhold (currentThread s) l v));
        [by apply Inv_open, Inv_set_level|inv_same..].
      * by rewrite Hp.
      * apply (Places_pop _ (members s) _ t q (OnLock l)); [apply HI|done| |by intros []|..].
        -- simpl. by rewrite Hx.
        -- by rewrite (members_lock (set_level IntOff s)), decide_True.
        -- intros p' Hp'. by rewrite (members_lock (set_level IntOff s)), decide_False.
      * intros t2 th2 Hne2 _ Ht2. apply (thread_ok_lock (set_level IntOff s)). intros Hs Hl%taken_own.
        change (own s l = Some t2) in Hl. assert (t2 = currentThread s) as -> by congruence.
        change (threads s !! currentThread s = Some th2) in Ht2. simplify_eq. rewrite Hfr in Hs. inversion Hs.
      * apply (lock_update _ (set_level IntOff s)); [|apply HI].
        pose proof (inv_locks _ _ _ _ HI l x Hx) as Hok. unfold lock_ok in *. simpl.
        destruct (state x); [by exists t|]. destruct Hok; congruence.
      * intros t2 l' Hin. rewrite (own_set_lock (set_level IntOff s)). case_decide; [subst|].
        -- right. by apply Hun.
        -- by apply (inv_held _ _ _ _ HI').
    + by rewrite Hp.
    + assert (taken (set_locks (<[l := mkLock (state x) q (Some t)]> (locks s)) (set_level IntOff s)) l = Some t).
      { rewrite (taken_set_lock (set_level IntOff s)), decide_True by done. simpl.
        pose proof (inv_locks _ _ _ _ HI l x Hx) as Hok. unfold lock_ok in Hok.
        destruct (state x); [done|]. destruct Hok. congruence. }
      destruct Hfr' as [->| ->]; by constructor.
    + exists (<[t := Ready]> (<[t := Limbo]> pl)). eexists.
      split; [sys_proj; rewrite Hr; done|].
      split_and!; [by apply Inv_set_level|by eapply kept_ext; [exact Hk|..]|done|done|].
      intros j Hj. simpl. rewrite Hl2. by apply insert_is_Some.
Qed.

(** A condition's lock is set, or reset once nobody waits. *)
Lemma Inv_cond_object pl s v c x x' :
  Inv None pl s v -> conds s !! c = Some x -> cqueue x' = cqueue x ->
  waitingLock x = None \/ waitingLock x = waitingLock x' \/ cqueue x = [] ->
  Inv None pl (set_conds (<[c := x']> (conds s)) s) v.
Proof.
  intros HI Hx Hq Hw. eapply Inv_object; [exact HI|inv_same..].
  - intros p. rewrite members_cond. case_decide; [|done]. subst p. simpl. by rewrite Hx.
  - intros t th Hth Hok. apply thread_ok_cond; [|done]. intros Hp. rewrite Hp in Hok.
    rewrite Hx. simpl. destruct Hw as [Hw|[Hw|Hw]]; [|done|exfalso].
    + destruct Hok as (_ & l & Hl & _). rewrite Hx in Hl. simpl in Hl. congruence.
    + apply (inv_places _ _ _ _ HI (OnCond c) I) in Hp. simpl in Hp. rewrite Hx in Hp.
      simpl in Hp. rewrite Hw in Hp. by apply not_elem_of_nil in Hp.
Qed.

Lemma remember_lock_inv pl s v c l x :
  Inv None pl s v -> conds s !! c = Some x ->
  exists s1 x1, remember_lock c l s = Ok (s1, tt) /\ Inv None pl s1 v /\ conds s1 !! c = Some x1 /\
    kept pl s pl s1 /\ locks s1 = locks s /\ level s1 = level s.
Proof.
  intros HI Hx. unfold remember_lock. sys_run. rewrite Hx. case_decide as Hw.
  - eexists _, (mkCondition (cqueue x) (Some l)). split; [reflexivity|].
    split; [|split_and!; [apply lookup_insert_eq|by apply kept_refl|done|done]].
    apply (Inv_cond_object pl s v c x); try done. by left.
  - exists s, x. by split_and!.
Qed.

Lemma Wait_inv c ol v s :
  Run_inv IntOn v s -> is_Some (conds s !! c) ->
  match ol with Some l => is_Some (locks s !! l) | None => True end ->
  outcome (Wait c ol []) (Run_inv IntOn v)
    (Sw_inv (match ol with Some l => unhold (currentThread s) l v | None => v end)) s.
Proof.
  intros (pl & HI & Hid & Hl & Hc & th & Hth & Hfr) [x Hx] Hol. unfold outcome, Wait. sys_run.
  rewrite Hl. destruct ol as [l|].
  2: { exists pl. split; [by apply Inv_set_level, Inv_set_level|]. split_and!; try done. by exists th. }
  destruct Hol as [y Hy].
  destruct (remember_lock_inv pl (set_level IntOff s) v c l x)
    as (s1 & x1 & Hs1 & HI1 & Hx1 & Hk1 & Hl1 & Hlv1); [by apply Inv_set_level|done|].
  apply (kept_ext _ _ s _ _ s1) in Hk1; try done.
  rewrite Hs1, Hx1. cbn beta iota.
  assert (Hback : Run_inv IntOn v (set_level IntOn s1)).
  { apply (Run_inv_level (level s1)). eapply kept_running; [exact Hk1|done|done|].
    split_and!; try done. by exists th. }
  case_decide as Hwl; [done|].
  rewrite (held_run l _ y) by by rewrite Hl1. cbn beta iota.
  case_bool_decide as Ho; cbn beta iota delta [negb]; [|done].
  destruct (Release_inv pl s1 v l HI1) as (pl2 & s2 & Hr & HI2 & Hk2 & Hlv2 & Hc2 & Hl2).
  { eapply kept_active; [exact Hk1|]. split; [done|by exists th]. }
  { rewrite Hl1. by exists y. }
  rewrite Hr, Hc2, Hx1. cbn beta iota.
  assert (Hk : kept pl s pl2 s2) by by eapply kept_trans.
  destruct (kept_active _ _ _ _ Hk) as (Hcur & th2 & Hth2 & Hfr2); [split; [done|by exists th]|].
  destruct Hk1 as [Hcu1 _ _ _]. rewrite Hcu1 in HI2. destruct Hk as [Hcu _ _ _].
  destruct (block_Sw pl2 s2 (set_conds (<[c:=mkCondition (cqueue x1 ++ [currentThread s2]) (waitingLock x1)]>
     (conds s2)) s2) (unhold (currentThread s) l v) (OnCond c) [FWait l IntOn])
    as (s' & Hs & HQ); [|done|done|by exists th2|by simpl; rewrite Hlv2, Hlv1| |by rewrite Hs].
  2: { split; [done|]. exists l. split_and!; [|by apply Hl2; rewrite Hl1; exists y|done].
       simpl. by rewrite lookup_insert_eq. }
  apply (Inv_replace pl2 s2 (unhold (currentThread s) l v)); [by apply Inv_open|inv_same..].
  - by rewrite Hcur.
  - apply (Places_push _ (members s2)); [apply HI2|by unqueued|done|..].
    + rewrite members_cond, decide_True by done. simpl. by rewrite Hc2, Hx1.
    + intros p' Hp'. by rewrite members_cond, decide_False.
  - intros t th' _ _ _. apply thread_ok_cond. by rewrite Hc2, Hx1.
Qed.

(** What [Signal] leaves unchanged besides [kept]. *)
Definition quiet (pl : tid -> place) (s : Sys) (pl' : tid -> place) (s' : Sys) (v : View) : Prop :=
  Inv None pl' s' v /\ kept pl s pl' s' /\ level s' = level s /\ locks s' = locks s.

Lemma quiet_trans pl1 s1 pl2 s2 pl3 s3 v :
  quiet pl1 s1 pl2 s2 v -> quiet pl2 s2 pl3 s3 v -> quiet pl1 s1 pl3 s3 v.
Proof.
  intros (_ & Hk1 & Hl1 & Ho1) (HI & Hk2 & Hl2 & Ho2).
  split_and!; [done|by eapply kept_trans|congruence|congruence].
Qed.

Lemma quiet_level pl s v lv : Inv None pl s v -> level s = lv ->
  quiet pl s pl (set_level lv (set_level IntOff s)) v.
Proof.
  intros HI Hl. split_and!; [by apply Inv_set_level, Inv_set_level|by apply kept_refl|done|done].
Qed.

(** [Signal] on a condition with waiters, by the holder of its lock. *)
Lemma Signal_pop pl s v c l t q :
  Inv None pl s v -> conds s !! c = Some (mkCondition (t :: q) (Some l)) ->
  own s l = Some (currentThread s) ->
  exists pl' s', Signal c (Some l) s = Ok (s', tt) /\ quiet pl s pl' s' v /\
    readyList s' = readyList s ++ [t] /\
    conds s' !! c = Some (mkCondition q (if decide (q = []) then None else Some l)).
Proof.
  intros HI Hx Ho. set (x := mkCondition (t :: q) (Some l)) in Hx.
  destruct (head_thread pl s v (OnCond c) t q HI I) as (Hp & th & Hth & _ & l' & Hl' & Hlo & Hfr).
  { simpl. by rewrite Hx. }
  set (s1 := set_conds (<[c := mkCondition q (Some l)]> (conds s)) (set_level IntOff s)).
  destruct (wake_inv pl s1 v t th) as (s2 & Hr & HI2 & Hk & Hlv2 & Hrd & _ & Hl2 & Hc2); try done.
  - apply (Inv_replace pl (set_level IntOff s) v); [by apply Inv_open, Inv_set_level|inv_same..].
    + by rewrite Hp.
    + apply (Places_pop _ (members s) _ t q (OnCond c)); [apply HI|done| |by intros []|..].
      * simpl. by rewrite Hx.
      * unfold s1. by rewrite (members_cond (set_level IntOff s)), decide_True.
      * intros p' Hp'. unfold s1. by rewrite (members_cond (set_level IntOff s)), decide_False.
    + intros t' th' _ _ _. apply (thread_ok_cond (set_level IntOff s)). intros _. simpl. by rewrite Hx.
  - by rewrite Hp.
  - rewrite Hfr. by constructor.
  - set (pl2 := <[t := Ready]> (<[t := Limbo]> pl)) in *.
    assert (conds s2 !! c = Some (mkCondition q (Some l))) as Hx2 by (rewrite Hc2; apply lookup_insert_eq).
    exists pl2. unfold Signal. sys_run. change (conds (set_level IntOff s)) with (conds s). rewrite Hx.
    cbn [cqueue waitingLock x]. rewrite decide_False by naive_solver.
    assert (exists y, locks s !! l = Some y) as [y Hy]
      by (unfold own in Ho; destruct (locks s !! l) as [y|]; [by exists y|done]).
    rewrite (held_run l _ y) by done. cbn beta iota.
    rewrite bool_decide_eq_true_2 by done. cbn beta iota delta [negb].
    change (conds (set_level IntOff s)) with (conds s). fold s1. rewrite Hr.
    assert (Hq : quiet pl s pl2 (set_level (level s) s2) v).
    { split_and!; [by apply Inv_set_level|by eapply kept_ext; [exact Hk|..]|done|done]. }
    case_decide as Hqe.
    + eexists. split; [reflexivity|]. split; [|split; [done|by simpl; rewrite lookup_insert_eq]].
      eapply quiet_trans; [exact Hq|]. split_and!; [|by apply kept_refl|done|done].
      apply Inv_set_level.
      apply (Inv_cond_object pl2 s2 v c (mkCondition q (Some l)) (mkCondition q None)); try done.
      simpl. by right; right.
    + eexists. by split_and!.
Qed.

Lemma Signal_inv pl s v c ol :
  Inv None pl s v -> is_Some (conds s !! c) ->
  match ol with Some l => is_Some (locks s !! l) | None => True end ->
  exists pl' s', Signal c ol s = Ok (s', tt) /\ quiet pl s pl' s' v.
Proof.
  intros HI [x Hx] Hol. pose proof (quiet_level pl s v (level s) HI eq_refl) as Hsame.
  destruct ol as [l|]; [|by exists pl, (set_level (level s) (set_level IntOff s))].
  destruct Hol as [y Hy].
  destruct (decide (cqueue x <> [] /\ waitingLock x = Some l /\ own s l = Some (currentThread s))) as [(Hq & Hw & Ho)|Hn].
  - destruct x as [[|t q] w]; [done|]. simpl in Hw. subst w.
    destruct (Signal_pop pl s v c l t q) as (pl' & s' & ? & ? & _); try done. by exists pl', s'.
  - exists pl, (set_level (level s) (set_level IntOff s)). split; [|done].
    unfold Signal. sys_run. change (conds (set_level IntOff s)) with (conds s). rewrite Hx.
    destruct (cqueue x) eqn:Hq; [done|]. case_decide as Hw; [done|].
    rewrite (held_run l _ y) by done. cbn beta iota.
    rewrite bool_decide_eq_false_2; [done|]. intros Ho. apply Hn.
    by split_and!.
Qed.

(** The loop of [Broadcast] wakes every waiter. *)
Lemma broadcast_loop_inv q : forall pl s v c l w,
  Inv None pl s v -> conds s !! c = Some (mkCondition q w) -> (q <> [] -> w = Some l) ->
  own s l = Some (currentThread s) ->
  exists pl' s', broadcast_loop (length q) c (Some l) s = Ok (s', tt) /\ quiet pl s pl' s' v /\
    readyList s' = readyList s ++ q /\ exists w', conds s' !! c = Some (mkCondition [] w').
Proof.
  induction q as [|t q IH]; intros pl s v c l w HI Hx Hw Ho.
  { exists pl, s. simpl. sys_run. rewrite Hx. simpl.
    split; [done|]. split; [by split_and!; [|apply kept_refl| |]|]. split; [by rewrite app_nil_r|by exists w]. }
  rewrite (Hw ltac:(done)) in Hx.
  destruct (Signal_pop pl s v c l t q) as (pl1 & s1 & Hs & Hq1 & Hr1 & Hx1); try done.
  destruct (IH pl1 s1 v c l (if decide (q = []) then None else Some l))
    as (pl2 & s2 & Hb & Hq2 & Hr2 & Hx2); [apply Hq1|done|intros ?; by rewrite decide_False| |].
  { destruct Hq1 as (_ & [Hc _ _ _] & _ & Hl). unfold own. rewrite Hl, Hc. exact Ho. }
  exists pl2, s2. split; [|split; [by eapply quiet_trans|split; [by rewrite Hr2, Hr1, <-app_assoc|done]]].
  cbn [length broadcast_loop]. sys_run. rewrite Hx. cbn [cqueue]. by rewrite Hs.
Qed.

Lemma Broadcast_inv pl s v c ol :
  Inv None pl s v -> is_Some (conds s !! c) ->
  match ol with Some l => is_Some (locks s !! l) | None => True end ->
  exists pl' s', Broadcast c ol s = Ok (s', tt) /\ quiet pl s pl' s' v.
Proof.
  intros HI [x Hx] Hol. pose proof (quiet_level pl s v (level s) HI eq_refl) as Hsame.
  destruct ol as [l|]; [|by exists pl, (set_level (level s) (set_level IntOff s))].
  destruct Hol as [y Hy]. unfold Broadcast. sys_run. change (conds (set_level IntOff s)) with (conds s).
  rewrite Hx. destruct x as [q w]. cbn [cqueue waitingLock].
  assert (Hskip : exists pl' s', Ok (set_level (level s) (set_level IntOff s), tt) = Ok (s', tt) /\
    quiet pl s pl' s' v) by (by exists pl, (set_level (level s) (set_level IntOff s))).
  destruct q as [|t q]; [done|]. case_decide as Hw; [done|]. subst w.
  rewrite (held_run l _ y) by done. cbn beta iota.
  case_bool_decide as Ho; cbn beta iota delta [negb]; [|done].
  destruct (broadcast_loop_inv (t :: q) pl (set_level IntOff s) v c l (Some l))
    as (pl' & s' & Hb & (HI' & Hk & Hlv & Hl) & _); [by apply Inv_set_level|done|done|done|].
  rewrite Hb. exists pl', (set_level (level s) s'). split; [done|].
  split_and!; [by apply Inv_set_level|by eapply kept_ext; [exact Hk|..]|done|done].
Qed.

Lemma Yield_inv v s :
  Run_inv IntOn v s -> outcome (Yield []) (Run_inv IntOn v) (Sw_inv v) s.
Proof.
  intros (pl & HI & Hid & Hl & Hc & th & Hth & Hfr). unfold outcome, Yield, FindNextToRun. sys_run.
  rewrite Hl. change (readyList (set_level IntOff s)) with (readyList s).
  destruct (readyList s) as [|n r] eqn:Hr.
  { exists pl. split; [by apply Inv_set_level, Inv_set_level|]. split_and!; try done. by exists th. }
  destruct (Inv_ready_pop pl s v n r HI Hr) as [Hp HI1].
  destruct (thread_of _ _ _ n HI) as (thn & Hthn & Hok); [by rewrite Hp|].
  rewrite Hp in Hok. destruct Hok as [Hst Hsus].
  assert (n <> currentThread s) as Hne by (intros ->; congruence).
  apply (Inv_close _ _ _ n thn) in HI1; [|done|rewrite fn_lookup_insert; simpl; by rewrite Hst].
  unfold ReadyToRun, setStatus, set_frames. sys_run. simpl. rewrite Hth. cbn [status frames].
  simpl. rewrite lookup_insert_eq. cbn [status frames].
  match goal with |- context [Run n ?s0] => set (s2 := s0) end.
  destruct (Run_Sw (<[currentThread s := Ready]> (<[n := Limbo]> pl)) s2 v n thn)
    as (s' & -> & HQ); try done.
  - apply (Inv_close _ _ _ (currentThread s) (mkThread READY [FYield IntOn])).
    + eapply Inv_set_thread; [|apply lookup_insert_is_Some; by left|done].
      apply (Inv_ready_push (<[n := Limbo]> pl) (set_threads (<[currentThread s := mkThread READY (frames th)]>
        (threads s)) (set_ready r (set_level IntOff s)))).
      * eapply Inv_set_thread; [|by exists th|done]. by apply Inv_open, (Inv_same _ _ (set_ready r s)).
      * rewrite fn_lookup_insert_ne by done. unqueued.
      * rewrite fn_lookup_insert_ne by done. by rewrite Hc.
    + simpl. by rewrite lookup_insert_eq.
    + rewrite fn_lookup_insert. split; [done|]. constructor.
  - rewrite fn_lookup_insert_ne by done. by rewrite fn_lookup_insert.
  - intros t Ht. assert (t = currentThread s) as ->.
    { destruct (decide (t = currentThread s)); [done|]. rewrite fn_lookup_insert_ne in Ht by done.
      destruct (decide (t = n)) as [->|]; [by rewrite fn_lookup_insert in Ht|].
      rewrite fn_lookup_insert_ne in Ht by done. by eapply inv_current. }
    by rewrite fn_lookup_insert in Ht.
  - simpl. by rewrite !lookup_insert_ne.
  - by eapply suspended_mono; [..|exact Hsus].
Qed.

Lemma Fork_inv pl s v t fs :
  Inv None pl s v -> threads s !! t = Some (mkThread JUST_CREATED fs) -> pl t = Created ->
  exists pl' s', Fork t s = Ok (s', tt) /\ Inv None pl' s' v /\ kept pl s pl' s' /\ level s' = level s.
Proof.
  intros HI Hth Hp. unfold Fork, set_frames. sys_run. rewrite Hth. cbn [status].
  set (s1 := set_level IntOff _).
  destruct (ReadyToRun_inv pl s1 v t (mkThread JUST_CREATED [FRoot])) as [Hr HI2].
  - apply Inv_set_level. eapply Inv_set_thread; [by apply Inv_open|by eexists|done].
  - auto.
  - apply lookup_insert_eq.
  - constructor.
  - rewrite Hr. exists (<[t := Ready]> pl). eexists. split; [reflexivity|].
    split_and!; [by apply Inv_set_level| |done]. split; try done.
    + intros t'. destruct (decide (t' = t)) as [->|]; [rewrite fn_lookup_insert; rewrite Hp; by split|].
      by rewrite fn_lookup_insert_ne.
    + intros t' Ht'. assert (t' <> t) by (intros ->; congruence). simpl.
      by rewrite !lookup_insert_ne.
Qed.

Lemma New_inv pl s v t :
  Inv None pl s v -> threads s !! t = None ->
  let s' := set_threads (<[t := Thread_new]> (threads s)) s in
  Inv None (<[t := Created]> pl) s' v /\ kept pl s (<[t := Created]> pl) s'.
Proof.
  intros HI Hth s'. assert (pl t = Gone) as Hp.
  { destruct (decide (pl t = Gone)) as [|Hg]; [done|].
    destruct (thread_of _ _ _ t HI Hg) as (th & ? & _). congruence. }
  split.
  - destruct HI. split; try done.
    + eapply Places_move; [|unqueued|by intros []].
      by eapply Places_ext; [exact inv_places0|intros []].
    + intros t'. destruct (decide (t' = t)) as [->|Hne].
      * rewrite fn_lookup_insert. intros _. exists Thread_new. simpl. by rewrite lookup_insert_eq.
      * rewrite fn_lookup_insert_ne by done. intros Hg. destruct (inv_threads0 t' Hg) as (th & Ht & Hok).
        exists th. split; [by simpl; rewrite lookup_insert_ne|]. intros Hn.
        by eapply thread_ok_same; [..|by apply Hok].
    + intros t' th' Ht' _ Hs. destruct (decide (t' = t)) as [->|Hne]; [by rewrite fn_lookup_insert|].
      rewrite fn_lookup_insert_ne by done. simpl in Ht'. rewrite lookup_insert_ne in Ht' by done.
      by eapply inv_created0.
    + intros t'. destruct (decide (t' = t)) as [->|Hne]; [by rewrite fn_lookup_insert|].
      rewrite fn_lookup_insert_ne by done. apply inv_current0.
    + intros t' Ht'. destruct (inv_destroyed0 t' Ht') as [Hg Hs].
      assert (t' <> t) by (intros ->; rewrite Hth in Hs; by destruct Hs).
      rewrite fn_lookup_insert_ne by done. split; [done|]. simpl. by rewrite lookup_insert_ne.
  - split; try done.
    + intros t'. destruct (decide (t' = t)) as [->|]; [rewrite fn_lookup_insert, Hp; by split|].
      by rewrite fn_lookup_insert_ne.
    + intros t' Ht'. simpl. rewrite lookup_insert_ne; [done|]. intros ->. congruence.
Qed.

Lemma Finish_inv v s :
  Run_inv IntOn v s -> exists s', Finish s = Ok (s', tt) /\ Sw_inv v s'.
Proof.
  intros (pl & HI & Hid & Hl & Hc & th & Hth & Hfr). unfold Finish. sys_run.
  match goal with |- context [Sleep _ ?s0] => set (s1 := s0) end.
  apply (block_Sw pl s s1 v Gone [FFinish]); [|done|done|by exists th|done|done].
  destruct HI. split; try done.
  - eapply Places_move; [|by unqueued|by intros []].
    by eapply Places_ext; [exact inv_places0|intros []].
  - intros t'. destruct (decide (t' = currentThread s)) as [->|Hne];
      [by rewrite fn_lookup_insert|].
    rewrite fn_lookup_insert_ne by done. intros Hg. destruct (inv_threads0 t' Hg) as (th' & Ht & Hok).
    exists th'. split; [done|]. intros Hn. by eapply thread_ok_same; [..|by apply Hok].
  - intros t' th' Ht' Hne. rewrite fn_lookup_insert_ne by (simpl in *; congruence). by apply (inv_created0 t' th').
  - intros t'. destruct (decide (t' = currentThread s)) as [->|Hne]; [by rewrite fn_lookup_insert|].
    rewrite fn_lookup_insert_ne by done. apply inv_current0.
  - simpl. intros t [= <-]. rewrite fn_lookup_insert. split; [done|by exists th].
Qed.

Lemma destroy_inv pl s v :
  Inv None pl s v -> pl (currentThread s) = Current ->
  exists s', destroy_finished s = Ok (s', tt) /\ Inv None pl s' v /\ kept pl s pl s' /\
    level s' = level s /\ sems s' = sems s /\ locks s' = locks s.
Proof.
  intros HI Hc. unfold destroy_finished. sys_run.
  destruct (threadToBeDestroyed s) as [d|] eqn:Hd.
  2: { exists s. by split_and!; try apply kept_refl. }
  destruct (inv_destroyed _ _ _ _ HI d Hd) as [Hp _].
  assert (d <> currentThread s) by (intros ->; congruence).
  unfold ASSERT. rewrite bool_decide_eq_true_2 by done.
  eexists. split; [reflexivity|]. split; [|split; [|done]].
  - destruct HI. split; try done.
    + intros t Hg. destruct (inv_threads0 t Hg) as (th & Ht & Hok). exists th.
      split; [simpl; rewrite lookup_delete_ne; [done|by intros ->]|]. intros Hn.
      by eapply thread_ok_same; [..|by apply Hok].
    + intros t th Ht Hn Hs. simpl in Ht. apply lookup_delete_Some in Ht as [_ Ht].
      by eapply inv_created0.
  - split; try done. intros t Ht. simpl. rewrite lookup_delete_ne; [done|]. intros ->. congruence.
Qed.

(** The state in which the frames of a dispatched thread start to run. *)
Lemma resume_start pl s v th :
  Inv None pl s v -> level s = IntOff -> idle s = false -> pl (currentThread s) = Current ->
  threads s !! currentThread s = Some th ->
  let s1 := set_threads (<[currentThread s := mkThread (status th) []]> (threads s)) s in
  (exists s2, (match frames th with FRoot :: _ => sret tt | _ => destroy_finished end) s1 = Ok (s2, tt) /\
    Run_inv IntOff v s2 /\ currentThread s2 = currentThread s /\ sems s2 = sems s /\ locks s2 = locks s).
Proof.
  intros HI Hl Hi Hc Hth s1.
  assert (Inv None pl s1 v) as HI1.
  { apply (Inv_close _ _ _ (currentThread s) (mkThread (status th) [])).
    - eapply Inv_set_thread; [by apply Inv_open|by exists th|done].
    - apply lookup_insert_eq.
    - destruct (thread_of _ _ _ (currentThread s) HI) as (th' & Hth' & Hok); [by rewrite Hc|].
      rewrite Hc in *. simplify_eq. simpl in *. destruct Hok as [? _]. auto. }
  assert (running IntOff pl s1) as Hrun.
  { split_and!; try done. eexists. split; [apply lookup_insert_eq|done]. }
  destruct (destroy_inv pl s1 v HI1 Hc) as (s2 & Hd & HI2 & Hk & Hl2 & Hs2 & Ho2).
  assert (Run_inv IntOff v s1) as HR1 by (by exists pl).
  assert (Run_inv IntOff v s2) as HR2.
  { eapply kept_running; [exact Hk|done| |].
    - rewrite Hl2. exact Hl.
    - rewrite (proj1 (proj2 Hrun)). exact Hrun. }
  destruct (frames th) as [|[] fs]; try (exists s1; by split_and!); exists s2;
    (split; [exact Hd|]); destruct Hk as [Hk _ _ _]; by split_and!.
Qed.

Lemma resume_inv pl s v th :
  Inv None pl s v -> level s = IntOff -> idle s = false -> pl (currentThread s) = Current ->
  threads s !! currentThread s = Some th -> frames th <> [] ->
  outcome resume (Run_inv IntOn (view_return (currentThread s) (frames th) true v)) (Sw_inv v) s.
Proof.
  intros HI Hl Hi Hc Hth Hne.
  destruct (thread_of _ _ _ (currentThread s) HI) as (th' & Hth' & Hok); [by rewrite Hc|].
  rewrite Hc in Hok. simplify_eq. destruct Hok as [_ [?|Hsus]]; [done|].
  destruct (resume_start pl s v th HI Hl Hi Hc Hth) as (s2 & Hd & HR & Hc2 & Hs2 & Hl2).
  unfold outcome, resume, set_frames. sys_run. rewrite Hth. cbn [status]. rewrite Hth. cbn beta iota.
  unfold sret in Hd. rewrite Hd. cbn beta iota. clear Hd.
  assert (level s2 = IntOff) as Hlv2 by (by destruct HR as (? & _ & _ & ? & _)).
  assert (HRl : forall lv, Run_inv lv v (set_level lv s2)) by (intros; by eapply Run_inv_level).
  assert (Hhold : forall l lv, own s l = Some (currentThread s) ->
    Run_inv lv (hold (currentThread s) l v) (set_level lv s2)).
  { intros l lv Ho. rewrite <-Hc2. apply (Run_inv_hold lv v (set_level lv s2)); [done|].
    unfold own in *. simpl. by rewrite Hl2, Hc2. }
  destruct Hsus as [| |i Hsi|l Ho%taken_own|l Ho%taken_own|l Hsl]; cbn [run_frames view_return last]; sys_run.
  - apply HRl.
  - apply HRl.
  - pose proof (P_loop_inv i v s2 HR) as HP. rewrite Hs2 in HP. specialize (HP Hsi).
    unfold outcome in HP. by destruct (P_loop i IntOn [] s2) as [[s' []]|].
  - by apply Hhold.
  - change (set_level IntOn (set_level IntOff s2)) with (set_level IntOn s2). by apply Hhold.
  - pose proof (Acquire_inv l IntOff [FWaitEnd l IntOn] v s2 HR) as HP. rewrite Hl2 in HP.
    specialize (HP Hsl (or_intror (conj eq_refl eq_refl))). unfold outcome in HP. rewrite Hc2 in HP.
    destruct (Acquire l [FWaitEnd l IntOn] s2) as [[s' []]|]; [|done|done].
    by eapply Run_inv_level.
Qed.

Lemma client_inv v s : Good v s -> in_client s -> Run_inv IntOn v s.
Proof. intros [HR|(pl & HI & Hl & Hs)] (Hi & Hlv & th & Hth & Hfr); [done|congruence]. Qed.

Lemma outcome_Ok c Qd Qs s s' done :
  outcome c Qd Qs s -> c s = Ok (s', done) -> if done : bool then Qd s' else Qs s'.
Proof. unfold outcome. intros H Hc. rewrite Hc in H. by destruct done. Qed.

Lemma kept_done pl s v pl' s' :
  Inv None pl' s' v -> kept pl s pl' s' -> level s' = level s -> running IntOn pl s ->
  Run_inv IntOn v s'.
Proof.
  intros HI Hk Hl Hr. eapply kept_running; [done|done| |].
  - rewrite Hl. apply Hr.
  - destruct Hr as (? & Hlv & ?). by rewrite Hlv.
Qed.

(** Every call from client code succeeds, up to the overflow of a semaphore. *)
Lemma exec_op_inv o v s :
  Run_inv IntOn v s -> op_ok s o ->
  outcome (exec_op o) (Run_inv IntOn (view_call (currentThread s) o true v))
    (Sw_inv (view_call (currentThread s) o false v)) s.
Proof.
  intros HR Ho. pose proof HR as (pl & HI & Hrun).
  assert (active pl s) as Hact by (destruct Hrun as (_ & _ & ? & ?); done).
  destruct o as [i|i|l|l|c ol|c ol|c ol| |t|t|]; cbn [exec_op view_call op_ok] in *.
  - pose proof (P_loop_inv i v _ (Run_inv_level IntOn IntOff v s HR) Ho) as HP.
    unfold P, outcome in *. sys_run. by destruct Hrun as (_ & -> & _).
  - pose proof (V_inv pl s v i HI Ho) as HV. unfold outcome, sbind, sret.
    destruct (V i s) as [[s' []]|]; [|done]. destruct HV as (pl' & HI' & Hk & Hl).
    by eapply kept_done.
  - apply Acquire_inv; [done|done|by left].
  - destruct (Release_inv pl s v l HI Hact Ho) as (pl' & s' & Hr & HI' & Hk & Hl & _).
    unfold outcome, sbind, sret. rewrite Hr. by eapply kept_done.
  - destruct Ho as [Hc Hl]. pose proof (Wait_inv c ol v s HR Hc Hl) as HW.
    by destruct ol.
  - destruct Ho as [Hc Hl]. destruct (Signal_inv pl s v c ol HI Hc Hl) as (pl' & s' & Hr & HI' & Hk & Hlv & _).
    unfold outcome, sbind, sret. rewrite Hr. by eapply kept_done.
  - destruct Ho as [Hc Hl]. destruct (Broadcast_inv pl s v c ol HI Hc Hl) as (pl' & s' & Hr & HI' & Hk & Hlv & _).
    unfold outcome, sbind, sret. rewrite Hr. by eapply kept_done.
  - by apply Yield_inv.
  - destruct (New_inv pl s v t HI Ho) as [HI' Hk]. unfold outcome. sys_run. by eapply kept_done.
  - destruct Ho as [fs Ht].
    assert (pl t = Created) as Hp by (by eapply (inv_created _ _ _ _ HI)).
    destruct (Fork_inv pl s v t fs HI Ht Hp) as (pl' & s' & Hr & HI' & Hk & Hl).
    unfold outcome, sbind, sret. rewrite Hr. by eapply kept_done.
  - destruct (Finish_inv v s HR) as (s' & Hr & HQ). unfold outcome, sbind, sret. by rewrite Hr.
Qed.

Lemma handler_V_inv pl s v i :
  Inv None pl s v -> is_Some (sems s !! i) ->
  match handler_V i s with
  | Ok (s', _) => exists pl', Inv None pl' s' (add_credit i 1 v) /\ kept pl s pl' s' /\ level s' = level s
  | Fault f => f = UndefinedArith
  end.
Proof.
  intros HI Hi. unfold handler_V. sys_run.
  pose proof (V_inv pl (set_level IntOff s) v i (Inv_set_level _ _ _ _ _ HI) Hi) as HV.
  destruct (V i (set_level IntOff s)) as [[s' []]|]; [|done].
  destruct HV as (pl' & HI' & Hk & Hl). exists pl'.
  split; [by apply Inv_set_level|]. split; [by eapply kept_ext; [exact Hk|..]|done].
Qed.

Lemma kept_idle_Sw pl s v pl' s' :
  Inv None pl' s' v -> kept pl s pl' s' -> level s' = level s -> switched pl s -> idle s = true ->
  Sw_inv v s'.
Proof.
  intros HI [Hc Hi Hp _] Hl [Hlv [[_ Hn]|[? _]]] Hid; [|congruence].
  exists pl'. split; [done|]. split; [congruence|]. left. split; [congruence|].
  intros t Ht%Hp. by destruct (Hn t).
Qed.

(** Creating an object under a number that is free. *)
Lemma fresh_members_nil pl s v p :
  Inv None pl s v -> queued p -> members s p = [] -> forall t, pl t <> p.
Proof.
  intros HI Hq Hm t Ht. apply (inv_places _ _ _ _ HI p Hq) in Ht. rewrite Hm in Ht. set_solver.
Qed.

Lemma new_sem_inv pl s v i n :
  Inv None pl s v -> sems s !! i = None -> 0 <= n < 2 ^ 31 ->
  Inv None pl (set_sems (<[i := Semaphore_new n]> (sems s)) s) (new_credit i n v).
Proof.
  intros HI Hi Hn. eapply Inv_object; [exact HI|inv_same..].
  - intros p. rewrite members_sem. case_decide; [|done]. subst p. simpl. by rewrite Hi.
  - intros. by apply thread_ok_sem.
  - apply (sem_update s i (Semaphore_new n)); [done|apply HI].
Qed.

Lemma new_lock_inv pl s v l g :
  Inv None pl s v -> locks s !! l = None ->
  Inv None pl (set_locks (<[l := Lock_new g]> (locks s)) s) (add_stale g l v).
Proof.
  intros HI Hl.
  assert (forall p, p ∈ stale v -> p ∈ stale (add_stale g l v)) as Hst by (destruct g; simpl; set_solver).
  eapply Inv_object; [exact HI|inv_same..].
  - intros p. rewrite members_lock. case_decide; [|done]. subst p. simpl. by rewrite Hl.
  - intros t th _. apply thread_ok_lock. unfold taken. by rewrite Hl.
  - apply (lock_update _ s l (Lock_new g)).
    + split; [done|]. intros t E. simpl in E. subst g. simpl. set_solver.
    + intros j x Hx. pose proof (inv_locks _ _ _ _ HI j x Hx) as Hok. unfold lock_ok in *.
      destruct (state x); [done|]. naive_solver.
  - intros t l' Hin. rewrite own_set_lock. apply (inv_held _ _ _ _ HI) in Hin as [Hin|Hin]; [|auto].
    case_decide; [subst|by left]. unfold own in Hin. by rewrite Hl in Hin.
Qed.

Lemma new_cond_inv pl s v c g :
  Inv None pl s v -> conds s !! c = None ->
  Inv None pl (set_conds (<[c := Condition_new g]> (conds s)) s) v.
Proof.
  intros HI Hc. eapply Inv_object; [exact HI|inv_same..].
  - intros p. rewrite members_cond. case_decide; [|done]. subst p. simpl. by rewrite Hc.
  - intros t th _. apply thread_ok_mono; try done. intros c' l _ Hw. simpl.
    rewrite lookup_insert_ne; [done|]. intros ->. by rewrite Hc in Hw.
Qed.

Lemma step_Good s v s' v' : Good v s -> step (s, v) (s', v') -> Good v' s'.
Proof.
  intros HG Hst. inversion Hst as [o s0 s1 d v0 Hcl Ho He|s0 s1 d v0 th Hid Hth Hne Hr|s0 s1 v0 Hid Hd|
    i s0 s1 v0 Hcl Hi Hh|i n s0 v0 Hcl Hi Hn|l g s0 v0 Hcl Hl|c g s0 v0 Hcl Hc]; subst.
  - apply (client_inv v s HG) in Hcl. pose proof (exec_op_inv o v s Hcl Ho) as HO.
    apply (outcome_Ok _ _ _ _ _ _ HO) in He. destruct d; [by left|by right].
  - destruct HG as [(pl & _ & _ & _ & _ & th' & Hth' & ?)|(pl & HI & Hl & Hs)]; [by simplify_eq|].
    destruct Hs as [[? _]|(_ & Hc & _)]; [congruence|].
    pose proof (resume_inv pl s v th HI Hl Hid Hc Hth Hne) as HO.
    apply (outcome_Ok _ _ _ _ _ _ HO) in Hr. destruct d; [by left|by right].
  - destruct HG as [(pl & _ & ? & _)|(pl & HI & Hl & Hs)]; [congruence|].
    destruct Hs as [[_ Hn]|[? _]]; [|congruence].
    destruct (dispatch_Sw pl s v' HI Hn Hl) as (s2 & Hd' & HQ). rewrite Hd' in Hd.
    simplify_eq. by right.
  - assert (forall pl, Inv None pl s v -> exists pl', Inv None pl' s' (add_credit i 1 v) /\
      kept pl s pl' s' /\ level s' = level s) as HH.
    { intros pl HI. pose proof (handler_V_inv pl s v i HI Hi) as HV. by rewrite Hh in HV. }
    destruct Hcl as [Hcl|Hid].
    + destruct (client_inv v s HG Hcl) as (pl & HI & Hrun).
      destruct (HH pl HI) as (pl' & HI' & Hk & Hl). left. by eapply kept_done.
    + destruct HG as [(pl & _ & ? & _)|(pl & HI & Hs)]; [congruence|].
      destruct (HH pl HI) as (pl' & HI' & Hk & Hl). right. by eapply kept_idle_Sw.
  - destruct (client_inv v s HG Hcl) as (pl & HI & Hrun). left. exists pl.
    split; [by apply new_sem_inv|done].
  - destruct (client_inv v s HG Hcl) as (pl & HI & Hrun). left. exists pl.
    split; [by apply new_lock_inv|done].
  - destruct (client_inv v' s HG Hcl) as (pl & HI & Hrun). left. exists pl.
    split; [by apply new_cond_inv|done].
Qed.

Lemma boot_Good main : Good (mkView ∅ ∅ ∅) (boot main).
Proof.
  left. exists (fun t => if decide (t = main) then Current else Gone). split.
  - split; try done.
    + intros p Hp. destruct p; simpl; try done; (split; [constructor|]); intros t;
        rewrite elem_of_nil; (split; [done|]); by case_decide.
    + intros t. case_decide as Ht; [|done]. intros _. subst. exists (mkThread RUNNING []).
      split; [apply lookup_singleton_eq|]. intros _. split; [done|by left].
    + intros t th Ht _ Hs. simpl in Ht. apply lookup_singleton_Some in Ht as [_ <-]. done.
    + intros t. by case_decide.
  - split_and!; try done; simpl; [by case_decide|].
    eexists. split; [apply lookup_singleton_eq|done].
Qed.

Lemma reachable_Good s v : reachable (s, v) -> Good v s.
Proof.
  intros [main H]. remember (boot main, mkView ∅ ∅ ∅) as c eqn:Hc.
  assert (Good c.2 c.1) as HG by (subst; apply boot_Good). clear Hc.
  change (Good (s, v).2 (s, v).1). induction H as [|[s1 v1] [s2 v2] c Hst _ IH]; [done|].
  apply IH. by eapply step_Good.
Qed.

Lemma reachable_Inv s v : reachable (s, v) -> exists pl, Inv None pl s v.
Proof. intros [(pl & ? & _)|(pl & ? & _)]%reachable_Good; by exists pl. Qed.

(** * Properties *)


(** C34: the kernel never gets stuck in these routines. In a reachable state
    every call on existing objects returns or blocks, a dispatched thread
    continues, and the idle loop can look for work: no ASSERT fails, no NULL is
    followed, the loop of [Broadcast] ends; only [value++] may overflow. *)
Theorem synch_never_faults s v :
  reachable (s, v) ->
  (in_client s -> forall o, op_ok s o ->
     is_Ok (exec_op o s) \/ exec_op o s = Fault UndefinedArith) /\
  (idle s = false -> forall th, threads s !! currentThread s = Some th -> frames th <> [] ->
     is_Ok (resume s) \/ resume s = Fault UndefinedArith) /\
  (idle s = true -> is_Ok (dispatch s)) /\
  (in_client s \/ (idle s = true) \/
   exists th, idle s = false /\ threads s !! currentThread s = Some th /\ frames th <> []).
Proof.
  intros HG%reachable_Good. split_and!.
  - intros Hc o Ho. pose proof (exec_op_inv o v s (client_inv v s HG Hc) Ho) as HO.
    unfold outcome in HO. destruct (exec_op o s) as [p|f]; [left; by exists p|right; by subst].
  - intros Hid th Hth Hne. destruct HG as [(pl & _ & _ & _ & _ & th' & ? & ?)|(pl & HI & Hl & Hs)]; [by simplify_eq|].
    destruct Hs as [[? _]|(_ & Hc & _)]; [congruence|].
    pose proof (resume_inv pl s v th HI Hl Hid Hc Hth Hne) as HO.
    unfold outcome in HO. destruct (resume s) as [p|f]; [left; by exists p|right; by subst].
  - intros Hid. destruct HG as [(pl & _ & ? & _)|(pl & HI & Hl & Hs)]; [congruence|].
    destruct Hs as [[_ Hn]|[? _]]; [|congruence].
    destruct (dispatch_Sw pl s v HI Hn Hl) as (s2 & -> & _). by eexists.
  - destruct HG as [(pl & _ & ? & ? & _ & ?)|(pl & HI & Hl & Hs)]; [by left|].
    destruct Hs as [[? _]|(? & _ & th & ? & ?)]; [by right; left|]. right. right. by exists th.
Qed.

(** C39: no thread is lost or duplicated. The ready list and the queues of
    semaphores, locks and conditions never hold a thread twice, the threads on
    the ready list are the ones with status READY, those in a queue are
    BLOCKED, and a semaphore's value is its initial value plus the calls of V
    minus the completed calls of P, never negative. *)
Theorem threads_and_semaphores_consistent s v :
  reachable (s, v) ->
  (forall p q t, queued p -> queued q -> t ∈ members s p -> t ∈ members s q -> p = q) /\
  (forall p, queued p -> NoDup (members s p)) /\
  (forall p t, queued p -> t ∈ members s p -> exists th, threads s !! t = Some th /\
     status th = if decide (p = Ready) then READY else BLOCKED) /\
  (forall i x, sems s !! i = Some x -> 0 <= value x /\ credit v !! i = Some (value x)).
Proof.
  intros HG%reachable_Good.
  assert (exists pl, Inv None pl s v) as [pl HI] by (destruct HG as [(pl & ? & _)|(pl & ? & _)]; by exists pl).
  split_and!.
  - intros p q t Hp Hq H1 H2. apply (inv_places _ _ _ _ HI p Hp) in H1.
    apply (inv_places _ _ _ _ HI q Hq) in H2. congruence.
  - intros p Hp. by apply (inv_places _ _ _ _ HI p Hp).
  - intros p t Hp Ht. apply (inv_places _ _ _ _ HI p Hp) in Ht.
    destruct (thread_of _ _ _ t HI) as (th & Hth & Hok); [rewrite Ht; by intros ->|].
    exists th. split; [done|]. rewrite Ht in Hok. destruct p; try done; simpl in Hok; by destruct Hok.
  - intros i x Hx. destruct (inv_sems _ _ _ _ HI i x Hx). split; [lia|done].
Qed.

(** [Broadcast] by the holder of the condition's lock moves every waiter to
    the end of the ready list, in the order they came, and leaves the condition
    empty; the caller keeps the lock. *)
Theorem Broadcast_wakes_all s v c l x :
  reachable (s, v) -> in_client s -> conds s !! c = Some x -> cqueue x <> [] ->
  waitingLock x = Some l -> own s l = Some (currentThread s) ->
  exists s' w, Broadcast c (Some l) s = Ok (s', tt) /\
    readyList s' = readyList s ++ cqueue x /\ conds s' !! c = Some (mkCondition [] w) /\
    own s' l = Some (currentThread s) /\ currentThread s' = currentThread s.
Proof.
  intros HG%reachable_Good Hcl Hx Hne Hw Ho.
  destruct (client_inv v s HG Hcl) as (pl & HI & _). destruct x as [q w]. simpl in *. subst w.
  destruct (broadcast_loop_inv q pl (set_level IntOff s) v c l (Some l))
    as (pl' & s' & Hb & (_ & [Hc _ _ _] & _ & Hl) & Hr & w & Hx'); [by apply Inv_set_level|done|done|done|].
  exists (set_level (level s) s'), w. split_and!; [|done|done| |done].
  - unfold Broadcast. sys_run. change (conds (set_level IntOff s)) with (conds s).
    rewrite Hx. cbn [cqueue waitingLock]. destruct q as [|t q]; [done|].
    rewrite decide_False by naive_solver.
    assert (exists y, locks s !! l = Some y) as [y Hy]
      by (unfold own in Ho; destruct (locks s !! l) as [y|]; [by exists y|done]).
    rewrite (held_run l _ y) by done. cbn beta iota.
    rewrite bool_decide_eq_true_2 by done. cbn beta iota delta [negb]. by rewrite Hb.
  - unfold own. simpl. rewrite Hl. exact Ho.
Qed.

(** [Wait] binds the condition to its argument before it checks that the
    caller holds that lock. After a refused [Wait] on an unused condition, a
    correct [Wait] with another lock returns at once without waiting or
    releasing anything. *)
Theorem refused_Wait_poisons_condition s c l1 l2 x1 x2 :
  level s = IntOn -> conds s !! c = Some (mkCondition [] None) ->
  locks s !! l1 = Some x1 -> locks s !! l2 = Some x2 -> l1 <> l2 ->
  threadWithPossession x1 <> Some (currentThread s) ->
  threadWithPossession x2 = Some (currentThread s) ->
  exists s', Wait c (Some l1) [] s = Ok (s', true) /\
    Wait c (Some l2) [] s' = Ok (s', true) /\
    conds s' !! c = Some (mkCondition [] (Some l1)) /\
    own s' l2 = Some (currentThread s').
Proof.
  intros Hlv Hc H1 H2 Hne Hn1 Hn2.
  set (s1 := set_conds (<[c := mkCondition [] (Some l1)]> (conds s)) s).
  assert (Hx1 : conds s1 !! c = Some (mkCondition [] (Some l1))) by apply lookup_insert_eq.
  assert (Hs : forall s0, level s0 = IntOn -> set_level IntOn (set_level IntOff s0) = s0)
    by (intros [] E; simpl in E; by subst).
  exists s1. split_and!; [| |done|].
  - unfold Wait, remember_lock. sys_run. change (conds (set_level IntOff s)) with (conds s).
    rewrite Hc. cbn [waitingLock cqueue]. rewrite decide_True by done.
    simpl conds at 1. rewrite lookup_insert_eq. cbn [waitingLock].
    rewrite decide_False by tauto. rewrite (held_run l1 _ x1) by done. cbn beta iota.
    rewrite bool_decide_eq_false_2. 
    2: { unfold own. simpl. rewrite H1. exact Hn1. }
    cbn beta iota delta [negb]. rewrite Hlv. by destruct s; simpl in *; subst.
  - unfold Wait, remember_lock. sys_run. change (conds (set_level IntOff s1)) with (conds s1).
    rewrite Hx1. cbn [waitingLock]. rewrite decide_False by done.
    change (conds (set_level IntOff s1)) with (conds s1). rewrite Hx1. cbn [waitingLock].
    rewrite decide_True by congruence. change (level s1) with (level s). rewrite Hlv.
    by rewrite Hs.
  - unfold own. simpl. rewrite H2. exact Hn2.
Qed.

(** ** Concrete schedules *)

Inductive label :=
  | LCall (o : op) | LResume | LWake | LSem (i : sid) (n : Z)
  | LLock (l : lid) (garbage : option tid) | LCond (c : cid) (garbage : option lid).

#[global] Instance op_ok_dec s o : Decision (op_ok s o).
Proof.
  destruct o as [i|i|l|l|c [l|]|c [l|]|c [l|]| |t|t|]; try solve [simpl; apply _].
  simpl. destruct (threads s !! t) as [[[] fs]|];
    [left; by exists fs|right; by intros [? [=]]..].
Defined.

Definition in_clientb (s : Sys) : bool :=
  match threads s !! currentThread s with
  | Some (mkThread _ []) => negb (idle s) && bool_decide (level s = IntOn)
  | _ => false
  end.

Lemma in_clientb_spec s : in_clientb s = true -> in_client s.
Proof.
  unfold in_clientb, in_client. destruct (threads s !! currentThread s) as [[st [|? ?]]|]; try done.
  rewrite andb_true_iff, negb_true_iff, bool_decide_eq_true. intros [? ?].
  split_and!; try done. by eexists.
Qed.

(** One labelled step, when it is enabled. *)
Definition run_label (b : label) (c : Sys * View) : option (Sys * View) :=
  let '(s, v) := c in
  match b with
  | LCall o =>
      if in_clientb s && bool_decide (op_ok s o) then
        match exec_op o s with
        | Ok (s', done) => Some (s', view_call (currentThread s) o done v)
        | Fault _ => None
        end
      else None
  | LResume =>
      match threads s !! currentThread s with
      | Some th =>
          if negb (idle s) && negb (bool_decide (length (frames th) = O)) then
            match resume s with
            | Ok (s', done) => Some (s', view_return (currentThread s) (frames th) done v)
            | Fault _ => None
            end
          else None
      | None => None
      end
  | LWake =>
      if idle s then match dispatch s with Ok (s', _) => Some (s', v) | Fault _ => None end else None
  | LSem i n =>
      if in_clientb s && bool_decide (sems s !! i = None) && bool_decide (0 <= n < 2 ^ 31)
      then Some (set_sems (<[i := Semaphore_new n]> (sems s)) s, new_credit i n v)
      else None
  | LLock l g =>
      if in_clientb s && bool_decide (locks s !! l = None)
      then Some (set_locks (<[l := Lock_new g]> (locks s)) s, add_stale g l v) else None
  | LCond i g =>
      if in_clientb s && bool_decide (conds s !! i = None)
      then Some (set_conds (<[i := Condition_new g]> (conds s)) s, v) else None
  end.

Fixpoint run_labels (bs : list label) (c : Sys * View) : option (Sys * View) :=
  match bs with
  | [] => Some c
  | b :: bs => match run_label b c with Some c' => run_labels bs c' | None => None end
  end.

Lemma run_label_step b c c' : run_label b c = Some c' -> step c c'.
Proof.
  destruct c as [s v], b as [o| | |i n|l g|i g]; simpl.
  - destruct (in_clientb s) eqn:Hc; [|done]. case_bool_decide; [|done]. simpl.
    destruct (exec_op o s) as [[s' d]|] eqn:He; [|done]. intros [= <-].
    constructor; [by apply in_clientb_spec|done|done].
  - destruct (threads s !! currentThread s) as [th|] eqn:Ht; [|done].
    destruct (idle s) eqn:Hi; [done|]. case_bool_decide as Hf; [done|]. simpl.
    destruct (resume s) as [[s' d]|] eqn:He; [|done]. intros [= <-].
    constructor; try done. intros Hn. by rewrite Hn in Hf.
  - destruct (idle s) eqn:Hi; [|done].
    destruct (dispatch s) as [[s' []]|] eqn:He; [|done]. intros [= <-]. by constructor.
  - destruct (in_clientb s) eqn:Hc; [|done]. do 2 (case_bool_decide; [|done]). simpl.
    intros [= <-]. constructor; [by apply in_clientb_spec|done|done].
  - destruct (in_clientb s) eqn:Hc; [|done]. case_bool_decide; [|done]. simpl.
    intros [= <-]. constructor; [by apply in_clientb_spec|done].
  - destruct (in_clientb s) eqn:Hc; [|done]. case_bool_decide; [|done]. simpl.
    intros [= <-]. constructor; [by apply in_clientb_spec|done].
Qed.

Lemma run_labels_reachable bs main c :
  run_labels bs (boot main, mkView ∅ ∅ ∅) = Some c -> reachable c.
Proof.
  intros H. exists main. revert H. generalize (boot main, mkView ∅ ∅ ∅).
  induction bs as [|b bs IH]; simpl; intros c0 H; [by simplify_eq|].
  destruct (run_label b c0) as [c1|] eqn:Hb; [|done].
  eapply rtc_l; [by eapply run_label_step|by apply IH].
Qed.

(** Thread 1 waits on condition 0 with lock 0, then thread 0 takes the lock. *)
Definition sample_schedule : list label :=
  [LLock 0 (Some 5%nat); LCond 0 None; LSem 0 1; LCall (OpNew 1); LCall (OpFork 1); LCall OpYield; LResume;
   LCall (OpAcquire 0); LCall (OpWait 0 (Some 0%nat)); LResume; LCall (OpAcquire 0); LCall (OpP 0)].

Definition sample : Sys * View :=
  default (boot 0, mkView ∅ ∅ ∅) (run_labels sample_schedule (boot 0, mkView ∅ ∅ ∅)).

Lemma sample_reachable : reachable (sample.1, sample.2).
Proof. rewrite <-(surjective_pairing sample). apply (run_labels_reachable sample_schedule 0). vm_compute. reflexivity. Qed.


(** The memory of lock 0 held the address of thread 1. Thread 0 makes the lock
    and takes it while thread 1 is inside: [Acquire] returned for thread 1
    without taking the lock. *)
Definition stale_schedule : list label :=
  [LLock 0 (Some 1%nat); LCall (OpNew 1); LCall (OpFork 1); LCall OpYield; LResume;
   LCall (OpAcquire 0); LCall OpYield; LResume; LCall (OpAcquire 0)].

(** the uninitialised [threadWithPossession] breaks mutual exclusion: both
    threads' calls of [Acquire] on the lock have returned, and neither has
    called [Release]. *)
Theorem stale_lock_admits_two_threads : exists s v,
  reachable (s, v) /\ (0%nat, 0%nat) ∈ held v /\ (1%nat, 0%nat) ∈ held v.
Proof.
  destruct (run_labels stale_schedule (boot 0, mkView ∅ ∅ ∅)) as [[s v]|] eqn:Hrun;
    [|by vm_compute in Hrun].
  exists s, v. split; [by apply (run_labels_reachable stale_schedule 0)|].
  revert Hrun. vm_compute. intros [= _ <-]. split; apply (bool_decide_unpack _); vm_compute; exact I.
Qed.

Example synch_never_faults_witness :
  is_Ok (exec_op (OpRelease 0) sample.1) \/ exec_op (OpRelease 0) sample.1 = Fault UndefinedArith.
Proof.
  apply (synch_never_faults sample.1 sample.2 sample_reachable).
  - apply in_clientb_spec. vm_compute. reflexivity.
  - exists (mkLock BUSY [] (Some 0%nat)). vm_compute. reflexivity.
Defined.

Example threads_and_semaphores_consistent_witness :
  NoDup (members sample.1 (OnCond 0)) /\ members sample.1 (OnCond 0) = [1%nat].
Proof.
  split; [|vm_compute; reflexivity].
  apply (threads_and_semaphores_consistent sample.1 sample.2 sample_reachable). exact I.
Defined.

Example Broadcast_wakes_all_witness :
  exists s', Broadcast 0 (Some 0%nat) sample.1 = Ok (s', tt) /\ readyList s' = [1%nat].
Proof.
  destruct (Broadcast_wakes_all sample.1 sample.2 0 0 (mkCondition [1%nat] (Some 0%nat)))
    as (s' & w & Hb & Hr & _).
  - exact sample_reachable.
  - apply in_clientb_spec. vm_compute. reflexivity.
  - vm_compute. reflexivity.
  - discriminate.
  - reflexivity.
  - vm_compute. reflexivity.
  - exists s'. split; [exact Hb|]. rewrite Hr. vm_compute. reflexivity.
Defined.

(** Two locks, the second held by thread 0, and a fresh condition. *)
Definition sample2 : Sys :=
  (default (boot 0, mkView ∅ ∅ ∅)
     (run_labels [LLock 0 None; LLock 1 None; LCond 0 None; LCall (OpAcquire 1)] (boot 0, mkView ∅ ∅ ∅))).1.

Example refused_Wait_poisons_condition_witness :
  exists s', Wait 0 (Some 0%nat) [] sample2 = Ok (s', true) /\
    Wait 0 (Some 1%nat) [] s' = Ok (s', true).
Proof.
  destruct (refused_Wait_poisons_condition sample2 0 0 1 (mkLock FREE [] None) (mkLock BUSY [] (Some 0%nat)))
    as (s' & H1 & H2 & _).
  - vm_compute. reflexivity.
  - vm_compute. reflexivity.
  - vm_compute. reflexivity.
  - vm_compute. reflexivity.
  - discriminate.
  - discriminate.
  - vm_compute. reflexivity.
  - exists s'. split; [exact H1|exact H2].
Defined.
