(* ===== verification/ThreadTest.v ===== *)
(** * threads/threadtest.cc: the tests of threads, locks and conditions

    [ThreadTest] and the five tests of [TestSuite], as programs of calls to the
    routines of Threads and lines of output. The kernel gives the processor away
    only in those calls, and where a time slice ends ([slice]); without the
    [-rs] flag there is no timer and no time slice. The objects of the tests are
    global variables, so their uninitialised members start as NULL. What the
    routines of synch.cc print is [messages], and what [Interrupt::Idle] and
    [Halt] print is [halting]; the statistics that [Halt] prints last are left
    out, as are the loops without a body. The simulation of a supermarket that
    follows in the file is commented out. *)
From Stdlib Require Import String Ascii.
From stdpp Require Import strings pmap.
From S2P Require Import Prelude Threads.
Local Open Scope Z_scope.

Inductive act := Say (line : string) | Call (o : op).

Definition quiet (l : list act) : list op := omap (fun a => match a with Call o => Some o | Say _ => None end) l.

(** [t = new Thread(name); t->Fork(function, 0);] *)
Definition fork (t : tid) : list act := [Call (OpNew t); Call (OpFork t)].

Fixpoint times {A} (n : nat) (l : list A) : list A := match n with O => [] | S n => l ++ times n l end.

(** ** ThreadTest *)

Definition digit (n : nat) : string := String (ascii_of_nat (48 + n)) EmptyString.

Definition SimpleThread (which : nat) : list act :=
  seq 0 5 ≫= fun num => [Say ("*** thread " +:+ digit which +:+ " looped " +:+ digit num +:+ " times"); Call OpYield].

Definition ThreadTest : list act := fork 1 ++ SimpleThread 0.

(** ** Test 1 *)

Definition t1_s1 : sid := 11.
Definition t1_s2 : sid := 12.
Definition t1_s3 : sid := 13.
Definition t1_done : sid := 14.
Definition t1_l1 : lid := 11.

Definition t1_t1 : list act :=
  [Call (OpAcquire t1_l1); Call (OpV t1_s1);
   Say "t1_t1: Acquired Lock t1_l1, waiting for t3"; Call (OpP t1_s3);
   Say "t1_t1: working in CS"; Say "t1_t1: Releasing Lock t1_l1";
   Call (OpRelease t1_l1); Call (OpV t1_done)].

Definition t1_t2 : list act :=
  [Call (OpP t1_s1); Call (OpV t1_s2);
   Say "t1_t2: trying to acquire lock t1_l1"; Call (OpAcquire t1_l1);
   Say "t1_t2: Acquired Lock t1_l1, working in CS"; Say "t1_t2: Releasing Lock t1_l1";
   Call (OpRelease t1_l1); Call (OpV t1_done)].

Definition t1_t3 : list act :=
  [Call (OpP t1_s2); Call (OpV t1_s3)] ++
  times 3 [Say "t1_t3: Trying to release Lock t1_l1"; Call (OpRelease t1_l1)].

(** ** Test 2 *)

Definition t2_l1 : lid := 21.
Definition t2_c1 : cid := 21.
Definition t2_s1 : sid := 21.
Definition t2_done : sid := 22.

Definition t2_t1 : list act :=
  [Call (OpAcquire t2_l1); Say "t2_t1: Lock t2_l1 acquired, signalling t2_c1";
   Call (OpSignal t2_c1 (Some t2_l1)); Say "t2_t1: Releasing Lock t2_l1";
   Call (OpRelease t2_l1); Call (OpV t2_s1); Call (OpV t2_done)].

Definition t2_t2 : list act :=
  [Call (OpP t2_s1); Call (OpAcquire t2_l1); Say "t2_t2: Lock t2_l1 acquired, waiting on t2_c1";
   Call (OpWait t2_c1 (Some t2_l1)); Say "t2_t2: Releasing Lock t2_l1"; Call (OpRelease t2_l1)].

(** ** Test 3 *)

Definition t3_l1 : lid := 31.
Definition t3_c1 : cid := 31.
Definition t3_s1 : sid := 31.
Definition t3_done : sid := 32.

Definition t3_waiter (name : string) : list act :=
  [Call (OpAcquire t3_l1); Call (OpV t3_s1);
   Say (name +:+ ": Lock t3_l1 acquired, waiting on t3_c1"); Call (OpWait t3_c1 (Some t3_l1));
   Say (name +:+ ": freed from t3_c1"); Call (OpRelease t3_l1); Call (OpV t3_done)].

Definition t3_signaller : list act :=
  times 5 [Call (OpP t3_s1)] ++
  [Call (OpAcquire t3_l1); Say "t3_signaller: Lock t3_l1 acquired, signalling t3_c1";
   Call (OpSignal t3_c1 (Some t3_l1)); Say "t3_signaller: Releasing t3_l1";
   Call (OpRelease t3_l1); Call (OpV t3_done)].

(** ** Test 4 *)

Definition t4_l1 : lid := 41.
Definition t4_c1 : cid := 41.
Definition t4_s1 : sid := 41.
Definition t4_done : sid := 42.

Definition t4_waiter (name : string) : list act :=
  [Call (OpAcquire t4_l1); Call (OpV t4_s1);
   Say (name +:+ ": Lock t4_l1 acquired, waiting on t4_c1"); Call (OpWait t4_c1 (Some t4_l1));
   Say (name +:+ ": freed from t4_c1"); Call (OpRelease t4_l1); Call (OpV t4_done)].

Definition t4_signaller : list act :=
  times 5 [Call (OpP t4_s1)] ++
  [Call (OpAcquire t4_l1); Say "t4_signaller: Lock t4_l1 acquired, broadcasting t4_c1";
   Call (OpBroadcast t4_c1 (Some t4_l1)); Say "t4_signaller: Releasing t4_l1";
   Call (OpRelease t4_l1); Call (OpV t4_done)].

(** ** Test 5 *)

Definition t5_l1 : lid := 51.
Definition t5_l2 : lid := 52.
Definition t5_c1 : cid := 51.
Definition t5_s1 : sid := 51.

Definition t5_t1 : list act :=
  [Call (OpAcquire t5_l1); Call (OpV t5_s1);
   Say "t5_t1: Lock t5_l1 acquired, waiting on t5_c1"; Call (OpWait t5_c1 (Some t5_l1));
   Say "t5_t1: Releasing Lock t5_l1"; Call (OpRelease t5_l1)].

Definition t5_t2 : list act :=
  [Call (OpP t5_s1); Call (OpAcquire t5_l1); Call (OpAcquire t5_l2);
   Say "t5_t2: Lock t5_l2 acquired, signalling t5_c1"; Call (OpSignal t5_c1 (Some t5_l2));
   Say "t5_t2: Releasing Lock t5_l2"; Call (OpRelease t5_l2);
   Say "t5_t2: Releasing Lock t5_l1"; Call (OpRelease t5_l1)].

(** ** TestSuite

    The threads are numbered in the order in which they are forked, from 1; 0 is
    the thread that runs [TestSuite]. *)

Definition Test_1 : list act := [Say "Starting Test 1"] ++ (seq 1 3 ≫= fork) ++ times 2 [Call (OpP t1_done)].
Definition Test_2 : list act :=
  [Say "Starting Test 2.  Note that it is an error if thread t2_t2"; Say "completes"] ++ (seq 4 2 ≫= fork) ++ [Call (OpP t2_done)].
Definition Test_3 : list act := [Say "Starting Test 3"] ++ (seq 6 6 ≫= fork) ++ times 2 [Call (OpP t3_done)].
Definition Test_4 : list act := [Say "Starting Test 4"] ++ (seq 12 6 ≫= fork) ++ times 6 [Call (OpP t4_done)].
Definition Test_5 : list act :=
  [Say "Starting Test 5.  Note that it is an error if thread t5_t1"; Say "completes"] ++ (seq 18 2 ≫= fork).

Definition TestSuite : list act := Test_1 ++ Test_2 ++ Test_3 ++ Test_4 ++ Test_5.

(** The function each thread runs; thread 0 the one given. *)
Definition functions (main : list act) (t : tid) : list act :=
  match t with
  | 0 => main
  | 1 => t1_t1 | 2 => t1_t2 | 3 => t1_t3
  | 4 => t2_t1 | 5 => t2_t2
  | 6 | 7 | 8 | 9 | 10 => t3_waiter ("t3_waiter" +:+ digit (t - 6)) | 11 => t3_signaller
  | 12 | 13 | 14 | 15 | 16 => t4_waiter ("t4_waiter" +:+ digit (t - 12)) | 17 => t4_signaller
  | 18 => t5_t1 | 19 => t5_t2
  | _ => []
  end%nat.

(** ** What the kernel prints

    The names of the threads, locks and conditions of the tests. *)
Definition thread_name (t : tid) : string :=
  (match t with
   | 0 => "main"
   | 1 => "t1_t1" | 2 => "t1_t2" | 3 => "t1_t3"
   | 4 => "t2_t1" | 5 => "t2_t2"
   | 6 | 7 | 8 | 9 | 10 => "t3_waiter" +:+ digit (t - 6) | 11 => "t3_signaller"
   | 12 | 13 | 14 | 15 | 16 => "t4_waiter" +:+ digit (t - 12) | 17 => "t4_signaller"
   | 18 => "t5_t1" | 19 => "t5_t2"
   | _ => ""
   end%nat)%string.

Definition lock_name (l : lid) : string :=
  (match l with
   | 11 => "t1_l1" | 21 => "t2_l1" | 31 => "t3_l1" | 41 => "t4_l1" | 51 => "t5_l1" | 52 => "t5_l2" | _ => ""
   end%nat)%string.

Definition condition_name (c : cid) : string :=
  (match c with 21 => "t2_c1" | 31 => "t3_c1" | 41 => "t4_c1" | 51 => "t5_c1" | _ => "" end%nat)%string.

Definition holds_lock (s : Sys) (l : lid) : bool := bool_decide (own s l = Some (currentThread s)).

Definition lacks_lock (s : Sys) (call kind name : string) : string :=
  ("Thread " +:+ thread_name (currentThread s) +:+ " calling " +:+ call +:+ "() on " +:+ kind +:+ " " +:+ name +:+
   " does not have lock")%string.

(** What a call of [Lock::Release], [Condition::Wait], [Signal] or [Broadcast]
    prints when it refuses to do its work; nothing otherwise. *)
Definition messages (o : op) (s : Sys) : list string :=
  (match o with
   | OpRelease l => if holds_lock s l then [] else [lacks_lock s "Release" "Lock" (lock_name l)]
   | OpWait _ None => ["Argument passed to Condition::Wait() was null, returning without performing wait"]
   | OpWait c (Some l) =>
       if bool_decide (default l (conds s !! c ≫= waitingLock) <> l) then
         ["Argument passed to Condition::Wait() for Condition " +:+ condition_name c +:+
          " was the incorrect lock, returning without performing wait"]
       else if holds_lock s l then [] else [lacks_lock s "Wait" "Condition" (condition_name c)]
   | OpSignal _ None => ["Argument passed to Condition::Signal() was null, returning without performing wait"]
   | OpSignal c (Some l) =>
       if bool_decide (default [] (cqueue <$> conds s !! c) = []) then []
       else if bool_decide (conds s !! c ≫= waitingLock <> Some l) then
         ["Argument passed to Condition::Signal() for Condition " +:+ condition_name c +:+
          " was the incorrect lock, returning without performing wait"]
       else if holds_lock s l then [] else [lacks_lock s "Signal" "Condition" (condition_name c)]
   | OpBroadcast _ None => ["Argument passed to Condition::Broadcast() was null, returning without performing operation"]
   | OpBroadcast c (Some l) =>
       if bool_decide (default [] (cqueue <$> conds s !! c) = []) then []
       else if bool_decide (conds s !! c ≫= waitingLock <> Some l) then
         ["Argument passed to Condition::Broadcast() for condition " +:+ condition_name c +:+
          " was the incorrect lock, returning without performing opeartion"]
       else if holds_lock s l then [] else [lacks_lock s "Signal" "Condition" (condition_name c)]
   | _ => []
   end)%string.

(** What [Idle] and [Halt] print. *)
Definition halting : list string :=
  ["No threads ready or runnable, and no pending interrupts."; "Assuming the program completed."; "Machine halting!"; ""]%string.

(** ** Running the tests *)

(** The kernel, and how many actions of its function each thread has begun. *)
Record Conf := mkConf { sys : Sys; pos : gmap tid nat }.

Section Run.
  Context (prog : tid -> list act).

Definition done_of (c : Conf) (t : tid) : nat := default O (pos c !! t).
Definition begun (t : tid) (c : Conf) (s : Sys) : Conf := mkConf s (<[t := S (done_of c t)]> (pos c)).

(** The current thread goes on: [None] when all threads are blocked and no
    interrupt is pending ([Interrupt::Idle] halts). A thread whose function has
    returned calls [Finish], in [ThreadRoot] or at the end of [main]. *)
Definition advance (c : Conf) : res (option (Conf * list string)) :=
  let s := sys c in
  let t := currentThread s in
  if idle s then
    match readyList s with
    | [] => Ok None
    | _ => let* '(s, _) := dispatch s in Ok (Some (mkConf s (pos c), []))
    end
  else
    let* th := deref (threads s !! t) in
    match frames th with
    | _ :: _ => let* '(s, _) := resume s in Ok (Some (mkConf s (pos c), []))
    | [] =>
        match prog t !! done_of c t with
        | None => let* '(s, _) := Finish s in Ok (Some (mkConf s (pos c), []))
        | Some (Say line) => Ok (Some (begun t c s, [line]))
        | Some (Call o) => let* '(s', _) := exec_op o s in Ok (Some (begun t c s', messages o s))
        end
    end.

(** The end of a time slice, when the current thread is not in the kernel. *)
Definition slice (c : Conf) : res Conf :=
  let s := sys c in
  if idle s then Ok c
  else
    let* th := deref (threads s !! currentThread s) in
    match frames th with
    | _ :: _ => Ok c
    | [] => let* '(s, _) := Yield [] s in Ok (mkConf s (pos c))
    end.

(** Each round goes on, or is [true] when a time slice ends there. The result
    says whether the machine has halted, and what was printed. *)
Fixpoint run (rounds : list bool) (c : Conf) : res (bool * Conf * list string) :=
  match rounds with
  | [] => Ok (false, c, [])
  | true :: rounds => let* c := slice c in run rounds c
  | false :: rounds =>
      let* r := advance c in
      match r with
      | None => Ok (true, c, halting)
      | Some (c, out) => let* '(halted, c, out') := run rounds c in Ok (halted, c, out ++ out')
      end
  end.
End Run.

(** The global variables, and the main thread. *)
Definition objects {A} (x : A) (l : list nat) : gmap nat A := list_to_map ((fun i => (i, x)) <$> l).
Definition start (ss ls cs : list nat) : Conf :=
  mkConf (set_conds (objects (Condition_new None) cs) (set_locks (objects (Lock_new None) ls)
    (set_sems (objects (Semaphore_new 0) ss) (boot 0%nat)))) ∅.

(** ** All schedules

    The configurations that the rounds of a program can reach, each under a key
    that finds it again. The keys are only for speed: a configuration counts as
    found when it is the one that is stored. *)

#[export] Instance frame_eq_dec : EqDecision frame.
Proof. solve_decision. Defined.
#[export] Instance Thread_eq_dec : EqDecision Thread.
Proof. solve_decision. Defined.
#[export] Instance Semaphore_eq_dec : EqDecision Semaphore.
Proof. solve_decision. Defined.
#[export] Instance Lock_eq_dec : EqDecision Lock.
Proof. solve_decision. Defined.
#[export] Instance Condition_eq_dec : EqDecision Condition.
Proof. solve_decision. Defined.
#[export] Instance Sys_eq_dec : EqDecision Sys.
Proof. solve_decision. Defined.
#[export] Instance Conf_eq_dec : EqDecision Conf.
Proof. solve_decision. Defined.

Definition key_of_list (l : list nat) : list nat := length l :: l.
Definition key_of_option (o : option nat) : nat := match o with Some n => S n | None => O end.
Definition key_of_frame (f : frame) : nat :=
  match f with FRoot => 1 | FYield _ => 2 | FP _ _ => 3 | FAcquire _ _ => 4 | FWait _ _ => 5 | FWaitEnd _ _ => 6 | FFinish => 0 end%nat.

Definition key_list (c : Conf) : list nat :=
  let s := sys c in
  currentThread s :: (if idle s then 1 else 0)%nat :: key_of_option (threadToBeDestroyed s) :: key_of_list (readyList s) ++
  (map_to_list (threads s) ≫= fun '(_, th) => key_of_list (key_of_frame <$> frames th)) ++
  (snd <$> map_to_list (pos c)) ++
  (map_to_list (sems s) ≫= fun '(_, x) => Z.to_nat (value x) :: key_of_list (squeue x)) ++
  (map_to_list (locks s) ≫= fun '(_, x) => key_of_option (threadWithPossession x) :: key_of_list (lqueue x)) ++
  (map_to_list (conds s) ≫= fun '(_, x) => (if waitingLock x then 1 else 0)%nat :: key_of_list (cqueue x)).
Definition key (c : Conf) : positive := foldr (fun n p => Nat.iter n xO (xI p)) 1%positive (key_list c).

Abbreviation found := (Pmap Conf).

Section Explore.
  Context (prog : tid -> list act).

(** What one round makes of a configuration: [None] when the kernel faults. *)
Definition successors (c : Conf) : option (list Conf) :=
  match advance prog c, slice c with
  | Ok a, Ok b => Some (b :: match a with Some (c', _) => [c'] | None => [] end)
  | _, _ => None
  end.

Definition insert_new (c : Conf) (a : found * list Conf) : found * list Conf :=
  let k := key c in
  match a.1 !! k with Some _ => a | None => (<[k := c]> a.1, c :: a.2) end.

Fixpoint explore (fuel : nat) (f : found) (todo : list Conf) : found :=
  match fuel, todo with
  | S fuel, c :: todo =>
      let '(f, todo) := foldr insert_new (f, todo) (default [] (successors c)) in explore fuel f todo
  | _, _ => f
  end.
End Explore.

(** ** What the exploration shows *)

Section Sound.
  Context (prog : tid -> list act).

Definition has (f : found) (c : Conf) : bool := bool_decide (f !! key c = Some c).

(** No round leads out of [f] or faults. *)
Definition closed (f : found) : bool :=
  forallb (fun '(_, c) => match successors prog c with Some l => forallb (has f) l | None => false end) (map_to_list f).

(** How many rounds it takes to halt when no time slice ends, for [c] and the
    configurations on the way. *)
Abbreviation ranks := (Pmap nat).
Fixpoint rank (fuel : nat) (c : Conf) (m : ranks) : ranks * nat :=
  match m !! key c with
  | Some n => (m, n)
  | None =>
      match fuel, advance prog c with
      | S fuel, Ok (Some (c', _)) => let '(m, n) := rank fuel c' m in (<[key c := S n]> m, S n)
      | _, _ => (<[key c := O]> m, O)
      end
  end.
Definition rank_of (m : ranks) (c : Conf) : nat := default O (m !! key c).

(** A round without a time slice comes closer to the end, which [final]
    accepts. *)
Definition closer (m : ranks) (final : Conf -> bool) (c : Conf) : bool :=
  match advance prog c with
  | Ok None => final c
  | Ok (Some (c', _)) => bool_decide (rank_of m c' < rank_of m c)%nat
  | Fault _ => false
  end.

(** [safe] holds everywhere, and everything leads to a good end. *)
Definition verified (fuel n : nat) (safe final : Conf -> bool) (s : Conf) : bool :=
  let f := explore prog fuel {[ key s := s ]} [s] in
  let m := foldr (fun '(_, c) m => (rank n c m).1) ∅ (map_to_list f) in
  has f s && closed f && forallb (fun '(_, c) => safe c && closer m final c) (map_to_list f).

Lemma closed_successors f c : closed f = true -> has f c = true -> exists l, successors prog c = Some l /\ Forall (fun c' => has f c' = true) l.
Proof.
  intros Hc Hf. unfold has in Hf. apply bool_decide_eq_true in Hf. unfold closed in Hc. rewrite forallb_forall in Hc.
  specialize (Hc (key c, c)). cbn in Hc. assert (In (key c, c) (map_to_list f)) as Hin by (by apply list_elem_of_In, elem_of_map_to_list).
  specialize (Hc Hin). destruct (successors prog c) as [l|]; [|done]. exists l. split; [done|].
  rewrite forallb_forall in Hc. apply Forall_forall. intros c' Hc'. apply Hc. by apply list_elem_of_In.
Qed.

(** The rounds of a program that [closed] covers never fault and stay in [f]. *)
Lemma run_closed f rounds : closed f = true -> forall c, has f c = true -> exists h c' out,
  run prog rounds c = Ok (h, c', out) /\ has f c' = true /\ (h = true -> advance prog c' = Ok None).
Proof.
  intros Hcl. induction rounds as [|b rounds IH]; intros c Hc; [by exists false, c, []|].
  destruct (closed_successors f c Hcl Hc) as (l & Hs & Hl). unfold successors in Hs. cbn [run].
  destruct (advance prog c) as [a|] eqn:Ea; [|done]. destruct (slice c) as [c1|] eqn:Eb; [|done]. injection Hs as <-.
  apply Forall_cons in Hl as [H1 Hl]. destruct b; cbn [rbind].
  - apply IH, H1.
  - destruct a as [[c2 out]|]; cbn [rbind]; [|by exists true, c, halting].
    apply Forall_cons in Hl as [H2 _]. destruct (IH c2 H2) as (h & c' & out' & -> & Hc' & Hh). cbn [rbind]. eauto 10.
Qed.

Lemma run_app r1 : forall r2 c, run prog (r1 ++ r2) c =
  let* '(h, c, out) := run prog r1 c in
  if h : bool then Ok (true, c, out) else let* '(h, c, out') := run prog r2 c in Ok (h, c, out ++ out').
Proof.
  induction r1 as [|b r1 IH]; intros r2 c; cbn [app run rbind].
  - by destruct (run prog r2 c) as [[[h c'] out]|].
  - destruct b; cbn [rbind].
    + destruct (slice c) as [c1|]; cbn [rbind]; [apply IH|done].
    + destruct (advance prog c) as [[[c1 out]|]|]; cbn [rbind]; [|done|done]. rewrite IH.
      destruct (run prog r1 c1) as [[[h c2] out1]|]; cbn [rbind]; [|done]. destruct h; cbn [rbind]; [done|].
      destruct (run prog r2 c2) as [[[h c3] out2]|]; cbn [rbind]; [|done]. by rewrite app_assoc.
Qed.

(** Without time slices a covered machine halts. *)
Lemma closer_halts f m final : closed f = true -> (forall c, has f c = true -> closer m final c = true) ->
  forall n c, has f c = true -> (rank_of m c < n)%nat -> exists c' out, run prog (replicate n false) c = Ok (true, c', out) /\ final c' = true.
Proof.
  intros Hcl Hm. induction n as [|n IH]; intros c Hc Hn; [lia|]. pose proof (Hm c Hc) as Hr. unfold closer in Hr. cbn [replicate run].
  destruct (closed_successors f c Hcl Hc) as (l & Hs & Hl). unfold successors in Hs.
  destruct (advance prog c) as [[[c1 out]|]|]; [|by exists c, halting|done]. cbn [rbind].
  destruct (slice c) as [c2|]; [|done]. injection Hs as <-. apply Forall_cons in Hl as [_ [H1 _]%Forall_cons].
  apply bool_decide_eq_true in Hr. destruct (IH c1 H1) as (c' & out' & -> & Hf); [lia|]. cbn [rbind]. by exists c', (out ++ out').
Qed.

(** Whatever time slices there are at first: the machine gets to a
    configuration that [safe] accepts, and when they stop it halts well. *)
Lemma verified_sound fuel n safe final s rounds : verified fuel n safe final s = true ->
  (exists h c out, run prog rounds s = Ok (h, c, out) /\ safe c = true) /\
  (exists n c out, run prog (rounds ++ replicate n false) s = Ok (true, c, out) /\ final c = true).
Proof.
  unfold verified. set (f := explore prog fuel _ _). set (m := foldr _ _ _). clearbody f m. intros Hv.
  apply andb_prop in Hv as [[Hs Hcl]%andb_prop Hall]. rewrite forallb_forall in Hall.
  assert (forall c, has f c = true -> safe c = true /\ closer m final c = true) as Hsc.
  { intros c Hc. apply bool_decide_eq_true in Hc. specialize (Hall (key c, c)). cbn in Hall. apply andb_prop.
    by apply Hall, list_elem_of_In, elem_of_map_to_list. }
  destruct (run_closed f rounds Hcl s Hs) as (h & c & out & Hr & Hc & Hh). destruct (Hsc c Hc) as [Hsafe Hcloser].
  split; [by exists h, c, out|]. exists (S (rank_of m c)). rewrite run_app, Hr. cbn [rbind]. destruct h.
  - exists c, out. split; [done|]. unfold closer in Hcloser. by rewrite (Hh eq_refl) in Hcloser.
  - destruct (closer_halts f m final Hcl (fun c H => proj2 (Hsc c H)) (S (rank_of m c)) c Hc ltac:(lia)) as (c' & out' & -> & Hf).
    cbn [rbind]. by exists c', (out ++ out').
Qed.
End Sound.

(** ** The tests one by one *)

(** The thread got to the end of its function. *)
Definition finished (prog : tid -> list act) (c : Conf) (t : tid) : bool := bool_decide (done_of c t = length (prog t)).

(** A test without its output, run by thread 0; [printf] does not enter the
    kernel. *)
Definition silent (main : list act) (t : tid) : list act := Call <$> quiet (functions main t).
Definition threadtest (t : tid) : list act := Call <$> quiet (match t with 0 => ThreadTest | 1 => SimpleThread 1 | _ => [] end)%nat.

Definition start_1 : Conf := start [t1_s1; t1_s2; t1_s3; t1_done] [t1_l1] [].
Definition start_2 : Conf := start [t2_s1; t2_done] [t2_l1] [t2_c1].
Definition start_5 : Conf := start [t5_s1] [t5_l1; t5_l2] [t5_c1].

(** The lock is never with the thread that does not acquire it, and not with the
    second before the first has released it. *)
Definition lock_is_kept (c : Conf) : bool :=
  match own (sys c) t1_l1 with
  | Some 3 => false
  | Some 2 => bool_decide (4 <= done_of c 1)
  | _ => true
  end%nat.
(** The threads with a number below [n] that get to the end of their function:
    all of them but those listed. *)
Definition all_but (ts : list tid) (prog : tid -> list act) (n : nat) (c : Conf) : bool :=
  forallb (fun t => Bool.eqb (finished prog c t) (negb (bool_decide (t ∈ ts)))) (seq 0 n).
Definition forked (prog : tid -> list act) (ts fs : list tid) (c : Conf) : bool :=
  forallb (fun t => finished prog c t) fs && forallb (fun t => negb (finished prog c t)) ts.

(** A test passes if, whatever time slices there are, no configuration is
    unsafe, and when no more time slices end the machine halts as it should. *)
Definition passes (main : tid -> list act) (s : Conf) (safe final : Conf -> bool) : Prop :=
  forall rounds,
    (exists h c out, run main rounds s = Ok (h, c, out) /\ safe c = true) /\
    (exists n c out, run main (rounds ++ replicate n false) s = Ok (true, c, out) /\ final c = true).

Lemma verified_passes prog fuel n safe final s : verified prog fuel n safe final s = true -> passes prog s safe final.
Proof. intros Hv rounds. exact (verified_sound prog fuel n safe final s rounds Hv). Qed.

Definition thread_2_waits (c : Conf) : bool := negb (finished (silent Test_2) c 5).
Definition thread_1_waits (c : Conf) : bool := negb (finished (silent Test_5) c 18).

Lemma test_1 : verified (silent Test_1) 8000 80 lock_is_kept (forked (silent Test_1) [] [0; 1; 2; 3]%nat) start_1 = true.
Proof. vm_compute. reflexivity. Qed.
Lemma test_2 : verified (silent Test_2) 1000 60 thread_2_waits (forked (silent Test_2) [5%nat] [0; 4]%nat) start_2 = true.
Proof. vm_compute. reflexivity. Qed.
Lemma test_5 : verified (silent Test_5) 1000 60 thread_1_waits (forked (silent Test_5) [18%nat] [0; 19]%nat) start_5 = true.
Proof. vm_compute. reflexivity. Qed.
Lemma thread_test : verified threadtest 1000 60 (fun _ => true) (forked threadtest [] [0; 1]%nat) (start [] [] []) = true.
Proof. vm_compute. reflexivity. Qed.

(** ** The whole suite *)

Definition start_all : Conf :=
  start [t1_s1; t1_s2; t1_s3; t1_done; t2_s1; t2_done; t3_s1; t3_done; t4_s1; t4_done; t5_s1]
    [t1_l1; t2_l1; t3_l1; t4_l1; t5_l1; t5_l2] [t2_c1; t3_c1; t4_c1; t5_c1].

Definition transcript : list string := [
  "Starting Test 1";
  "t1_t1: Acquired Lock t1_l1, waiting for t3";
  "t1_t2: trying to acquire lock t1_l1";
  "t1_t3: Trying to release Lock t1_l1";
  "Thread t1_t3 calling Release() on Lock t1_l1 does not have lock";
  "t1_t3: Trying to release Lock t1_l1";
  "Thread t1_t3 calling Release() on Lock t1_l1 does not have lock";
  "t1_t3: Trying to release Lock t1_l1";
  "Thread t1_t3 calling Release() on Lock t1_l1 does not have lock";
  "t1_t1: working in CS";
  "t1_t1: Releasing Lock t1_l1";
  "t1_t2: Acquired Lock t1_l1, working in CS";
  "t1_t2: Releasing Lock t1_l1";
  "Starting Test 2.  Note that it is an error if thread t2_t2";
  "completes";
  "t2_t1: Lock t2_l1 acquired, signalling t2_c1";
  "t2_t1: Releasing Lock t2_l1";
  "t2_t2: Lock t2_l1 acquired, waiting on t2_c1";
  "Starting Test 3";
  "t3_waiter0: Lock t3_l1 acquired, waiting on t3_c1";
  "t3_waiter1: Lock t3_l1 acquired, waiting on t3_c1";
  "t3_waiter2: Lock t3_l1 acquired, waiting on t3_c1";
  "t3_waiter3: Lock t3_l1 acquired, waiting on t3_c1";
  "t3_waiter4: Lock t3_l1 acquired, waiting on t3_c1";
  "t3_signaller: Lock t3_l1 acquired, signalling t3_c1";
  "t3_signaller: Releasing t3_l1";
  "t3_waiter0: freed from t3_c1";
  "Starting Test 4";
  "t4_waiter0: Lock t4_l1 acquired, waiting on t4_c1";
  "t4_waiter1: Lock t4_l1 acquired, waiting on t4_c1";
  "t4_waiter2: Lock t4_l1 acquired, waiting on t4_c1";
  "t4_waiter3: Lock t4_l1 acquired, waiting on t4_c1";
  "t4_waiter4: Lock t4_l1 acquired, waiting on t4_c1";
  "t4_signaller: Lock t4_l1 acquired, broadcasting t4_c1";
  "t4_signaller: Releasing t4_l1";
  "t4_waiter0: freed from t4_c1";
  "t4_waiter1: freed from t4_c1";
  "t4_waiter2: freed from t4_c1";
  "t4_waiter3: freed from t4_c1";
  "t4_waiter4: freed from t4_c1";
  "Starting Test 5.  Note that it is an error if thread t5_t1";
  "completes";
  "t5_t1: Lock t5_l1 acquired, waiting on t5_c1";
  "t5_t2: Lock t5_l2 acquired, signalling t5_c1";
  "Argument passed to Condition::Signal() for Condition t5_c1 was the incorrect lock, returning without performing wait";
  "t5_t2: Releasing Lock t5_l2";
  "t5_t2: Releasing Lock t5_l1";
  "No threads ready or runnable, and no pending interrupts.";
  "Assuming the program completed.";
  "Machine halting!";
  ""]%string.

Definition suite_result : bool :=
  match run (functions TestSuite) (replicate 1000 false) start_all with
  | Ok (true, c, out) => bool_decide (out = transcript) && all_but [5; 7; 8; 9; 10; 18]%nat (functions TestSuite) 20 c
  | _ => false
  end.

Lemma suite : suite_result = true.
Proof. vm_compute. reflexivity. Qed.

(** * Properties *)

(** C17: the tests end, and show what they are to show. Without time slices the
    whole suite prints its transcript, with the refusals of synch.cc and all that
    [Idle] and [Halt] print before the statistics, and the machine halts with
    every thread at the end of its function but the one that waits for a signal
    that came before it (test 2), four of the five waiters when one is signalled
    (test 3) and the one that is signalled with another lock (test 5). The
    threads whose [Release] or [Signal] is refused, t1_t3 and t5_t2, get to the
    end of their functions too, although the comment of [TestSuite] says that
    fatal errors terminate the thread. With time slices
    that end at any points, [ThreadTest] and the tests 1, 2 and 5 halt in the
    same way when no more end; the lock of test 1 is only handed over by its
    owner, and the waiters of the tests 2 and 5 never complete. *)
Theorem the_tests_pass :
  (exists n c, run (functions TestSuite) (replicate n false) start_all = Ok (true, c, transcript) /\
    forall t, (t < 20)%nat -> finished (functions TestSuite) c t = true <-> t ∉ [5; 7; 8; 9; 10; 18]%nat) /\
  passes (silent Test_1) start_1 lock_is_kept (forked (silent Test_1) [] [0; 1; 2; 3]%nat) /\
  passes (silent Test_2) start_2 thread_2_waits (forked (silent Test_2) [5%nat] [0; 4]%nat) /\
  passes (silent Test_5) start_5 thread_1_waits (forked (silent Test_5) [18%nat] [0; 19]%nat) /\
  passes threadtest (start [] [] []) (fun _ => true) (forked threadtest [] [0; 1]%nat).
Proof.
  split; [|split; [exact (verified_passes _ _ _ _ _ _ test_1)|split; [exact (verified_passes _ _ _ _ _ _ test_2)|
    split; [exact (verified_passes _ _ _ _ _ _ test_5)|exact (verified_passes _ _ _ _ _ _ thread_test)]]]].
  pose proof suite as Hs. unfold suite_result in Hs. destruct (run _ _ _) as [[[[] c] out]|] eqn:E; [|done|done].
  apply andb_prop in Hs as [Ho Hf]. apply bool_decide_eq_true in Ho as ->. exists 1000%nat, c. split; [exact E|].
  unfold all_but in Hf. rewrite forallb_forall in Hf. intros t Ht. specialize (Hf t). rewrite in_seq in Hf. specialize (Hf ltac:(lia)).
  apply eqb_prop in Hf as ->. rewrite negb_true_iff, bool_decide_eq_false. done.
Qed.
