(* ===== verification/Monitors.v ===== *)
(** * Monitors: routines that use one lock, on top of threads

    The drivers and shared lists of the kernel (filesys/synchdisk.cc,
    userprog/synchconsole.cc, network/post.cc, threads/synchlist.cc) are
    routines between [Acquire] and [Release] of a lock, with a semaphore that an
    interrupt handler signals or a condition. Here the program text of such
    routines runs in the threads of [Threads], interleaved with every other
    thread, time slices and device interrupts; the laws of class [MonitorOK]
    about single steps give an invariant of the whole machine. *)
From S2P Require Import Prelude Threads.

(** ** What the kernel routines change

    The stacks, and which objects exist. *)

Definition stacks (s : Sys) : gmap tid (list frame) := frames <$> threads s.

Record Shape := mkShape { sh_stacks : gmap tid (list frame); sh_destroyed : option tid }.

Definition shape (s : Sys) : Shape := mkShape (stacks s) (threadToBeDestroyed s).

Definition with_stack (t : tid) (fs : list frame) (h : Shape) : Shape :=
  mkShape (<[t := fs]> (sh_stacks h)) (sh_destroyed h).

(** No object disappears. *)
Record grows (s s' : Sys) : Prop := {
  grows_sems i : is_Some (sems s !! i) -> is_Some (sems s' !! i);
  grows_locks l : is_Some (locks s !! l) -> is_Some (locks s' !! l);
  grows_conds c : is_Some (conds s !! c) -> is_Some (conds s' !! c)
}.

#[global] Instance grows_preorder : PreOrder grows.
Proof. split; [by split|]. intros s1 s2 s3 [] []. split; auto. Qed.

(** [c] leaves the shape and the current thread alone. *)
Definition keeps {A} (c : K A) : Prop :=
  forall s s' a, c s = Ok (s', a) ->
    shape s' = shape s /\ currentThread s' = currentThread s /\ grows s s'.

(** [c] leaves the shape alone and may switch to another thread. *)
Definition switches {A} (c : K A) : Prop :=
  forall s s' a, c s = Ok (s', a) -> shape s' = shape s /\ grows s s'.

(** [c] returns with the shape as it was, or gives up the processor with [fs]
    on the stack of the thread that called it. *)
Definition runs (c : K bool) (fs : list frame) : Prop :=
  forall s s' b, c s = Ok (s', b) ->
    shape s' = (if b then shape s else with_stack (currentThread s) fs (shape s)) /\ grows s s'.

Lemma sbind_Ok {A B} (m : K A) (k : A -> K B) s s' b : sbind m k s = Ok (s', b) ->
  exists s1 a, m s = Ok (s1, a) /\ k a s1 = Ok (s', b).
Proof. unfold sbind. destruct (m s) as [[s1 a]|]; [|done]. by exists s1, a. Qed.

Lemma keeps_ret {A} (a : A) : keeps (sret a).
Proof. intros s s' b. unfold sret. by intros [= -> ->]. Qed.
Lemma keeps_stuck {A} (f : fault) : keeps (fail f : K A).
Proof. by intros s s' b. Qed.
Lemma keeps_then {A B} (m : K A) (k : A -> K B) : keeps m -> (forall a, keeps (k a)) -> keeps (sbind m k).
Proof.
  intros Hm Hk s s' b (s1 & a & H1 & H2)%sbind_Ok.
  apply Hk in H2 as (-> & -> & ?). apply Hm in H1 as (-> & -> & ?).
  split_and!; [done|done|by etransitivity].
Qed.
Lemma keeps_get : keeps get.
Proof. intros s s' b. unfold get. by intros [= -> ->]. Qed.
Lemma keeps_gets {A} (f : Sys -> A) : keeps (gets f).
Proof. intros s s' b. unfold gets. by intros [= -> _]. Qed.
Lemma keeps_lifted {A} (r : res A) : keeps (lift r).
Proof. intros s s' b. unfold lift. destruct r; [|done]. by intros [= -> _]. Qed.
Lemma keeps_modify f :
  (forall s, shape (f s) = shape s /\ currentThread (f s) = currentThread s /\ grows s (f s)) -> keeps (modify f).
Proof. intros Hf s s' b. unfold modify. by intros [= <- _]. Qed.

Create HintDb shape.
#[export] Hint Resolve keeps_ret keeps_stuck keeps_then keeps_get keeps_gets keeps_lifted : shape.

Lemma insert_grows {A} (m : gmap nat A) i x j : is_Some (m !! j) -> is_Some (<[i := x]> m !! j).
Proof. rewrite lookup_insert_is_Some'. by right. Qed.

Lemma keeps_SetLevel lv : keeps (SetLevel lv).
Proof.
  unfold SetLevel. apply keeps_then; [apply keeps_gets|intros old].
  apply keeps_then; [|intros; apply keeps_ret]. apply keeps_modify. intros s. by split_and!; [..|split].
Qed.
Lemma keeps_set_sem i x : keeps (set_sem i x).
Proof. apply keeps_modify. intros s. split_and!; [done|done|]. split; [apply insert_grows|done|done]. Qed.
Lemma keeps_set_lock i x : keeps (set_lock i x).
Proof. apply keeps_modify. intros s. split_and!; [done|done|]. split; [done|apply insert_grows|done]. Qed.
Lemma keeps_set_cond i x : keeps (set_cond i x).
Proof. apply keeps_modify. intros s. split_and!; [done|done|]. split; [done|done|apply insert_grows]. Qed.

Lemma keeps_setStatus t st : keeps (setStatus t st).
Proof.
  unfold setStatus, thread_at, set_thread. intros s s' b. sys_run.
  destruct (threads s !! t) as [th|] eqn:Ht; [|done]. intros [= <- _]. split_and!; [|done|by split].
  unfold shape, stacks. simpl. f_equal. rewrite fmap_insert, insert_id; [done|].
  by rewrite lookup_fmap, Ht.
Qed.

#[export] Hint Resolve keeps_SetLevel keeps_set_sem keeps_set_lock keeps_set_cond keeps_setStatus : shape.

(** Reads an object, branches and calls routines that keep the shape. *)
Ltac keeps_tac :=
  repeat first
    [ solve [eauto 2 with shape]
    | apply keeps_then; [|intros ?]
    | apply keeps_modify; intros ?; by split_and!; [..|split]
    | match goal with |- keeps (match ?x with _ => _ end) => destruct x end ].

Lemma keeps_ReadyToRun t : keeps (ReadyToRun t).
Proof. unfold ReadyToRun. keeps_tac. Qed.
#[export] Hint Resolve keeps_ReadyToRun : shape.
Lemma keeps_held l : keeps (isHeldByCurrentThread l).
Proof. unfold isHeldByCurrentThread, lock_at. keeps_tac. Qed.
#[export] Hint Resolve keeps_held : shape.
Lemma keeps_V i : keeps (V i).
Proof. unfold V, V_wake, sem_at. keeps_tac. Qed.
Lemma keeps_Release l : keeps (Release l).
Proof. unfold Release, lock_at. keeps_tac. Qed.
Lemma keeps_remember c l : keeps (remember_lock c l).
Proof. unfold remember_lock, cond_at. keeps_tac. Qed.
Lemma keeps_Signal c l : keeps (Signal c l).
Proof. unfold Signal, cond_at. keeps_tac. Qed.
#[export] Hint Resolve keeps_V keeps_Release keeps_remember keeps_Signal : shape.
Lemma keeps_broadcast_loop fuel c l : keeps (broadcast_loop fuel c l).
Proof. induction fuel; simpl; unfold cond_at; keeps_tac. Qed.
#[export] Hint Resolve keeps_broadcast_loop : shape.
Lemma keeps_Broadcast c l : keeps (Broadcast c l).
Proof. unfold Broadcast, cond_at. keeps_tac. Qed.
#[export] Hint Resolve keeps_Broadcast : shape.

(** ** Routines that give up the processor *)

Lemma switches_keeps {A} (c : K A) : keeps c -> switches c.
Proof. intros H s s' a (? & _ & ?)%H. done. Qed.
Lemma switches_bind {A B} (m : K A) (k : A -> K B) :
  switches m -> (forall a, switches (k a)) -> switches (sbind m k).
Proof.
  intros Hm Hk s s' b (s1 & a & H1 & H2)%sbind_Ok.
  apply Hk in H2 as (-> & ?). apply Hm in H1 as (-> & ?). split; [done|by etransitivity].
Qed.

Lemma switches_Run t : switches (Run t).
Proof.
  unfold Run. apply switches_bind.
  - intros s s' a. unfold modify. intros [= <- _]. split; [done|by split].
  - intros _. apply switches_keeps. keeps_tac.
Qed.

Lemma switches_dispatch : switches dispatch.
Proof.
  unfold dispatch. apply switches_bind.
  - intros s s' a. unfold FindNextToRun. sys_run. destruct (readyList s); intros [= <- _]; split; by try split.
  - intros [t|]; [apply switches_Run|apply switches_keeps; keeps_tac].
Qed.

Lemma set_frames_shape t fs s s' a : set_frames t fs s = Ok (s', a) ->
  shape s' = with_stack t fs (shape s) /\ currentThread s' = currentThread s /\ grows s s'.
Proof.
  unfold set_frames. sys_run. destruct (threads s !! t) as [th|] eqn:Ht; [|done]. intros [= <- _].
  split_and!; [|done|by split]. unfold shape, with_stack, stacks. simpl. by rewrite fmap_insert.
Qed.

Lemma switch_away t fs (sw : K unit) s s' a :
  switches sw -> (set_frames t fs ;;; sw) s = Ok (s', a) -> shape s' = with_stack t fs (shape s) /\ grows s s'.
Proof.
  intros Hsw (s1 & ? & (E1 & _ & ?)%set_frames_shape & (-> & ?)%Hsw)%sbind_Ok. split; [done|by etransitivity].
Qed.

(** [m] keeps the shape, then the current thread gives up the processor. *)
Lemma leaves_cpu {A} (m : K A) fs (sw : K unit) s s' a :
  keeps m -> switches sw -> (m ;;; set_frames (currentThread s) fs ;;; sw) s = Ok (s', a) ->
  shape s' = with_stack (currentThread s) fs (shape s) /\ grows s s'.
Proof.
  intros Hm Hsw (s1 & ? & (E1 & E2 & ?)%Hm & H2)%sbind_Ok.
  apply switch_away in H2 as [-> ?]; [|done]. rewrite E1. split; [done|by etransitivity].
Qed.

Lemma Sleep_shape k s s' a : Sleep k s = Ok (s', a) ->
  shape s' = with_stack (currentThread s) k (shape s) /\ grows s s'.
Proof.
  unfold Sleep. intros (s1 & s0 & [= -> ->] & H)%sbind_Ok.
  apply sbind_Ok in H as (s1 & [] & H1 & H2).
  assert (s1 = s0) as -> by (unfold lift in H1; destruct (ASSERT _); [by simplify_eq|done]).
  eapply leaves_cpu; [|apply switches_dispatch|exact H2]. auto with shape.
Qed.

Lemma runs_seq {A} (m : K A) (k : A -> K bool) fs : keeps m -> (forall a, runs (k a) fs) -> runs (sbind m k) fs.
Proof.
  intros Hm Hk s s' b (s1 & a & (E1 & E2 & ?)%Hm & [-> ?]%Hk)%sbind_Ok. rewrite E1, E2.
  split; [done|by etransitivity].
Qed.
Lemma runs_keeps (m : K unit) fs : keeps m -> runs (m ;;; sret true) fs.
Proof. intros Hm s s' b (s1 & a & (E1 & E2 & ?)%Hm & [= -> <-])%sbind_Ok. done. Qed.
Lemma runs_true fs : runs (sret true) fs.
Proof. by intros s s' b [= -> <-]. Qed.
Lemma runs_Sleep fs : runs (Sleep fs ;;; sret false) fs.
Proof. intros s s' b (s1 & a & [E ?]%Sleep_shape & [= -> <-])%sbind_Ok. done. Qed.
Lemma runs_fail e fs : runs (fail e) fs.
Proof. by intros s s' b. Qed.

Lemma runs_SetLevel lv (k : IntStatus -> K bool) fs s s' b :
  (forall old, level s = old -> runs (k old) fs) -> (old <- SetLevel lv ;; k old) s = Ok (s', b) ->
  shape s' = (if b then shape s else with_stack (currentThread s) fs (shape s)) /\ grows s s'.
Proof.
  intros Hk (s1 & old & H1 & H2)%sbind_Ok. pose proof H1 as (E1 & E2 & ?)%keeps_SetLevel.
  revert H1. unfold SetLevel. sys_run. intros [= <- <-]. specialize (Hk _ eq_refl).
  apply Hk in H2 as [-> ?]. split; [done|by etransitivity].
Qed.

Ltac runs_tac :=
  repeat first
    [ apply runs_Sleep | apply runs_true | apply runs_fail
    | apply runs_keeps; solve [keeps_tac]
    | apply runs_seq; [solve [keeps_tac]|intros ?]
    | match goal with |- runs (match ?x with _ => _ end) _ => destruct x end ].

Lemma runs_P_loop i old k : runs (P_loop i old k) (FP i old :: k).
Proof. unfold P_loop, sem_at. runs_tac. Qed.

Lemma P_shape i k s s' b : P i k s = Ok (s', b) ->
  shape s' = (if b then shape s else with_stack (currentThread s) (FP i (level s) :: k) (shape s)) /\ grows s s'.
Proof. unfold P. apply runs_SetLevel. intros old ->. apply runs_P_loop. Qed.

Lemma Acquire_shape l k s s' b : Acquire l k s = Ok (s', b) ->
  shape s' = (if b then shape s else with_stack (currentThread s) (FAcquire l (level s) :: k) (shape s)) /\ grows s s'.
Proof. unfold Acquire, lock_at. apply runs_SetLevel. intros old ->. runs_tac. Qed.

(** [Wait] without a lock returns at once. *)
Lemma Wait_shape c ol k s s' b : Wait c ol k s = Ok (s', b) ->
  (b = false -> exists l, ol = Some l) /\
  shape s' = (if b then shape s else
    with_stack (currentThread s) (FWait (default O ol) (level s) :: k) (shape s)) /\ grows s s'.
Proof.
  intros H. split; revert H.
  - unfold Wait. destruct ol as [l|]; [by exists l|]. unfold SetLevel. sys_run. by intros [= _ <-].
  - unfold Wait, cond_at. apply runs_SetLevel. intros old ->. runs_tac.
Qed.

Lemma runs_switch fs (sw : K unit) s s' b : switches sw ->
  (set_frames (currentThread s) fs ;;; sw ;;; sret false) s = Ok (s', b) ->
  shape s' = (if b then shape s else with_stack (currentThread s) fs (shape s)) /\ grows s s'.
Proof.
  intros Hsw (s1 & ? & (E1 & _ & ?)%set_frames_shape & (s2 & ? & (E2 & ?)%Hsw & [= -> <-])%sbind_Ok)%sbind_Ok.
  rewrite E2, E1.
  split; [done|by etransitivity].
Qed.

Lemma keeps_FindNextToRun : keeps FindNextToRun.
Proof.
  unfold FindNextToRun. intros s s' a. sys_run.
  destruct (readyList s); intros [= <- _]; split_and!; by try split.
Qed.
#[export] Hint Resolve keeps_FindNextToRun : shape.

Lemma Yield_shape k s s' b : Yield k s = Ok (s', b) ->
  shape s' = (if b then shape s else with_stack (currentThread s) (FYield (level s) :: k) (shape s)) /\ grows s s'.
Proof.
  unfold Yield. apply runs_SetLevel. intros old ->.
  apply runs_seq; [auto with shape|intros [t|]; [|by runs_tac]].
  intros s1 s2 c (s3 & s4 & [= -> ->] & (s5 & ? & (E1 & E2 & ?)%keeps_ReadyToRun & Hr)%sbind_Ok)%sbind_Ok.
  rewrite <-E2 in Hr. apply runs_switch in Hr as [-> ?]; [|apply switches_Run].
  rewrite E1, E2. split; [done|by etransitivity].
Qed.

(** ** Calls *)

(** Where a thread that a call blocked is suspended. *)
Definition blocked (o : op) : list frame :=
  match o with
  | OpP i => [FP i IntOn]
  | OpAcquire l => [FAcquire l IntOn]
  | OpWait _ (Some l) => [FWait l IntOn]
  | OpYield => [FYield IntOn]
  | _ => []
  end.

(** Calls other than of [Thread::Fork], [Thread::Thread] and [Finish]. *)
Definition stays (o : op) : Prop := match o with OpNew _ | OpFork _ | OpFinish => False | _ => True end.

#[export] Instance stays_dec o : Decision (stays o).
Proof. destruct o; simpl; apply _. Defined.

Lemma exec_op_shape o s s' b : stays o -> level s = IntOn -> exec_op o s = Ok (s', b) ->
  shape s' = (if b then shape s else with_stack (currentThread s) (blocked o) (shape s)) /\ grows s s'.
Proof.
  intros Ho Hl. destruct o as [i|i|l|l|c [l|]|c l|c l| |t|t|]; try done; cbn [exec_op blocked].
  - intros H%P_shape. by rewrite Hl in H.
  - by apply runs_keeps, keeps_V.
  - intros H%Acquire_shape. by rewrite Hl in H.
  - by apply runs_keeps, keeps_Release.
  - intros [_ H]%Wait_shape. by rewrite Hl in H.
  - intros [Hb H]%Wait_shape. destruct b; [done|]. by destruct Hb.
  - by apply runs_keeps, keeps_Signal.
  - by apply runs_keeps, keeps_Broadcast.
  - intros H%Yield_shape. by rewrite Hl in H.
Qed.

Lemma New_shape t s s' b : exec_op (OpNew t) s = Ok (s', b) ->
  shape s' = with_stack t [] (shape s) /\ grows s s' /\ b = true.
Proof.
  cbn [exec_op]. sys_run. intros [= <- <-]. split_and!; [|by split|done].
  unfold shape, with_stack, stacks. simpl. by rewrite fmap_insert.
Qed.

Lemma Fork_shape t s s' b : exec_op (OpFork t) s = Ok (s', b) ->
  shape s' = with_stack t [FRoot] (shape s) /\ grows s s' /\ b = true.
Proof.
  cbn [exec_op]. unfold Fork. intros (s1 & ? & H & [= -> <-])%sbind_Ok.
  apply sbind_Ok in H as (s2 & ? & (E & _ & ?)%set_frames_shape & Hr). rewrite <-E.
  assert (keeps (old <- SetLevel IntOff;; ReadyToRun t;;; SetLevel old;;; sret tt)) as Hk by keeps_tac.
  apply Hk in Hr as (-> & _ & ?). split_and!; [done|by etransitivity|done].
Qed.

Lemma Finish_shape s s' b : exec_op OpFinish s = Ok (s', b) ->
  shape s' = mkShape (<[currentThread s := [FFinish]]> (stacks s)) (Some (currentThread s)) /\ grows s s' /\ b = false.
Proof.
  cbn [exec_op]. unfold Finish. intros (s1 & ? & H & [= -> <-])%sbind_Ok.
  apply sbind_Ok in H as (s2 & ? & H1 & H). revert H1. unfold SetLevel. sys_run. intros [= <- _].
  apply sbind_Ok in H as (s2 & s3 & [= <- <-] & H).
  apply sbind_Ok in H as (s2 & ? & [= <- _] & [-> Hg]%Sleep_shape). split_and!; [done| |done].
  etransitivity; [|exact Hg]. by split.
Qed.

(** ** Resumption *)

(** What the routine a thread is suspended in waits for. *)
Inductive waits := NoWait | WaitLock (l : lid) | WaitSem (i : sid) | WaitEnd.

Definition waits_for (fs : list frame) : waits :=
  match last fs with
  | Some (FP i _) => WaitSem i
  | Some (FAcquire l _ | FWait l _ | FWaitEnd l _) => WaitLock l
  | Some FFinish => WaitEnd
  | _ => NoWait
  end.

(** [k] keeps the shape and returns [true]. *)
Definition ends (k : K bool) : Prop := forall s s' b, k s = Ok (s', b) -> b = true /\ shape s' = shape s /\ grows s s'.

Lemma ends_true : ends (sret true).
Proof. by intros s s' b [= -> <-]. Qed.
Lemma ends_SetLevel lv : ends (SetLevel lv ;;; sret true).
Proof. intros s s' b (s1 & ? & (E & _ & ?)%keeps_SetLevel & [= -> <-])%sbind_Ok. done. Qed.

Lemma runs_then (m k : K bool) fs s s' b :
  (forall s' b, m s = Ok (s', b) ->
    shape s' = (if b then shape s else with_stack (currentThread s) fs (shape s)) /\ grows s s') ->
  ends k -> (done <- m ;; if done : bool then k else sret false) s = Ok (s', b) ->
  shape s' = (if b then shape s else with_stack (currentThread s) fs (shape s)) /\ grows s s'.
Proof.
  intros Hm Hk (s1 & [] & [E ?]%Hm & H2)%sbind_Ok.
  - apply Hk in H2 as (-> & -> & ?). split; [done|by etransitivity].
  - revert H2. by intros [= -> <-].
Qed.

Lemma ends_runs (m k : K bool) : ends m -> ends k -> ends (done <- m ;; if done : bool then k else sret false).
Proof.
  intros Hm Hk s s' b (s1 & c & (-> & E & ?)%Hm & (-> & -> & ?)%Hk)%sbind_Ok.
  split_and!; [done|done|by etransitivity].
Qed.

Lemma run_frames_shape s0 t fs s s' b :
  suspended s0 t fs -> run_frames fs s = Ok (s', b) ->
  exists fs', waits_for fs' = waits_for fs /\
    shape s' = (if b then shape s else with_stack (currentThread s) fs' (shape s)) /\ grows s s'.
Proof.
  assert (forall m : K bool, ends m -> run_frames fs s = Ok (s', b) ->
    run_frames fs = (done <- m ;; if done : bool then run_frames [] else sret false) ->
    exists fs', waits_for fs' = waits_for fs /\
      shape s' = (if b then shape s else with_stack (currentThread s) fs' (shape s)) /\ grows s s') as Hend.
  { intros m Hm H E. rewrite E in H. apply ends_runs in H as (-> & ? & ?); [by exists fs|done|apply ends_true]. }
  intros Hs H. destruct Hs as [| |i|l|l|l].
  - apply (Hend _ (ends_SetLevel IntOn) H eq_refl).
  - apply (Hend _ (ends_SetLevel IntOn) H eq_refl).
  - exists [FP i IntOn]. split; [done|]. cbn [run_frames] in H.
    eapply runs_then; [apply runs_P_loop|apply ends_true|exact H].
  - apply (Hend _ (ends_SetLevel IntOn) H eq_refl).
  - assert (ends (run_frames [FAcquire l IntOff; FWaitEnd l IntOn])) as He.
    { cbn [run_frames]. repeat apply ends_runs; try apply ends_SetLevel. apply ends_true. }
    apply He in H as (-> & ? & ?). by exists [FWaitEnd l IntOn].
  - exists [FAcquire l (level s); FWaitEnd l IntOn]. split; [done|]. cbn [run_frames] in H.
    eapply runs_then; [|apply ends_true|exact H]. intros s1 c H1.
    eapply runs_then; [|apply ends_SetLevel|exact H1]. apply Acquire_shape.
Qed.

(** The finished thread, if any, is deleted. *)
Definition reap (h : Shape) : Shape :=
  match sh_destroyed h with None => h | Some d => mkShape (delete d (sh_stacks h)) None end.

Lemma destroy_shape s s' a : destroy_finished s = Ok (s', a) ->
  shape s' = reap (shape s) /\ threadToBeDestroyed s <> Some (currentThread s) /\
  currentThread s' = currentThread s /\ grows s s'.
Proof.
  unfold destroy_finished, reap. sys_run. simpl. destruct (threadToBeDestroyed s) as [d|] eqn:Hd.
  - unfold ASSERT. case_bool_decide; [|done]. intros [= <- _]. split_and!; [|congruence|done|by split].
    unfold shape, stacks. simpl. by rewrite fmap_delete.
  - intros [= <- _]. by split_and!.
Qed.

Lemma resume_shape s th s' b : threads s !! currentThread s = Some th ->
  suspended s (currentThread s) (frames th) -> resume s = Ok (s', b) ->
  exists h fs', (h = shape s \/ h = reap (shape s) /\ threadToBeDestroyed s <> Some (currentThread s)) /\
    waits_for fs' = (if b then NoWait else waits_for (frames th)) /\
    shape s' = with_stack (currentThread s) fs' h /\ grows s s'.
Proof.
  intros Ht Hs. unfold resume. intros (s1 & t & [= <- <-] & H)%sbind_Ok.
  apply sbind_Ok in H as (s1 & th' & H1 & H). revert H1. unfold thread_at. sys_run. rewrite Ht. intros [= <- <-].
  apply sbind_Ok in H as (s1 & ? & (E1 & E1' & G1)%set_frames_shape & H).
  apply sbind_Ok in H as (s2 & ? & H2 & H3).
  apply (run_frames_shape s (currentThread s)) in H3 as (fs' & Hw & E3 & G3); [|done].
  set (t := currentThread s) in *.
  assert (exists h, (h = shape s \/ h = reap (shape s) /\ threadToBeDestroyed s <> Some t) /\
    shape s2 = with_stack t [] h /\ currentThread s2 = t /\ grows s1 s2) as (h & Hh & E2 & E2' & G2).
  { destruct (frames th) as [|[] k]; try (revert H2; intros [= <- _]; exists (shape s); split_and!; [by left|done|done|done]).
    all: apply destroy_shape in H2 as (E & Hne & E' & G); rewrite E1' in *.
    all: assert (threadToBeDestroyed s1 = threadToBeDestroyed s) as Hd
           by (change (sh_destroyed (shape s1) = sh_destroyed (shape s)); by rewrite E1); rewrite Hd in Hne.
    all: exists (reap (shape s)); split_and!; [by right| |done|done].
    all: rewrite E, E1; unfold reap, with_stack; simpl.
    all: destruct (threadToBeDestroyed s) as [d|] eqn:Hd2; simpl; [|by rewrite Hd2].
    all: f_equal; rewrite delete_insert_ne; [done|congruence]. }
  exists h, (if b then [] else fs'). split_and!; [done|by destruct b| |by repeat (etransitivity; [eassumption|])].
  rewrite E3, E2, E2'. destruct b; [done|]. unfold with_stack. simpl. by rewrite insert_insert_eq.
Qed.

(** ** Program texts

    A routine is a transition system over program points [PC], which carry the
    arguments and local variables: a call of a kernel routine, a stretch of
    plain code on the data [D] the monitor protects, or the return. Nothing
    runs between the beginning and the end of plain code: a thread gives up the
    processor, and interrupts are taken, in calls and between stretches. *)

Inductive action (D PC : Type) :=
  | Sync (o : op) (next : PC)
  | Plain (f : D -> res (D * PC))
  | Return.
Arguments Sync {D PC}.
Arguments Plain {D PC}.
Arguments Return {D PC}.

(** [entry]: where callers start. [env]: what the device does on its own, and
    the clock. [irq]: the device's interrupt, when one is due; its handler ends
    with [V] on [m_sem]. *)
Class Monitor (D PC : Type) := {
  m_lock : lid;
  m_sem : sid;
  m_cond : cid;
  code : PC -> action D PC;
  entry : PC -> Prop;
  env : D -> D -> Prop;
  irq : D -> option D
}.

Record MState (D PC : Type) := mkMState {
  m_sys : Sys;
  m_view : View;
  m_data : D;
  m_pc : gmap tid PC
}.
Arguments mkMState {D PC}.
Arguments m_sys {D PC}.
Arguments m_view {D PC}.
Arguments m_data {D PC}.
Arguments m_pc {D PC}.

Section Machine.
Context {D PC : Type} `{M : !Monitor D PC}.

(** The constructor of the monitor's lock leaves [threadWithPossession] as its
    memory was: [garbage]. Calls by code outside of the monitor do not use its
    objects, and no thread is allocated at the address in [garbage]. *)
Definition foreign (garbage : option tid) (o : op) : Prop :=
  match o with
  | OpP i | OpV i => i <> m_sem
  | OpAcquire l | OpRelease l => l <> m_lock
  | OpWait c l | OpSignal c l | OpBroadcast c l => c <> m_cond /\ l <> Some m_lock
  | OpNew t => garbage <> Some t
  | _ => True
  end.

Inductive mstep (garbage : option tid) : MState D PC -> MState D PC -> Prop :=
  | m_outside o s s' b v d m :
      in_client s -> m !! currentThread s = None -> foreign garbage o -> op_ok s o -> exec_op o s = Ok (s', b) ->
      mstep garbage (mkMState s v d m) (mkMState s' (view_call (currentThread s) o b v) d m)
  | m_preempt s s' b v d m :
      in_client s -> exec_op OpYield s = Ok (s', b) ->
      mstep garbage (mkMState s v d m) (mkMState s' v d m)
  | m_resume s s' b v d m th :
      idle s = false -> threads s !! currentThread s = Some th -> frames th <> [] -> resume s = Ok (s', b) ->
      mstep garbage (mkMState s v d m) (mkMState s' (view_return (currentThread s) (frames th) b v) d m)
  | m_wake s s' v d m :
      idle s = true -> dispatch s = Ok (s', tt) ->
      mstep garbage (mkMState s v d m) (mkMState s' v d m)
  | m_other_irq i s s' v d m :
      in_client s \/ idle s = true -> i <> m_sem -> is_Some (sems s !! i) -> handler_V i s = Ok (s', tt) ->
      mstep garbage (mkMState s v d m) (mkMState s' (add_credit i 1 v) d m)
  | m_irq s s' v d d' m :
      in_client s \/ idle s = true -> irq d = Some d' -> handler_V m_sem s = Ok (s', tt) ->
      mstep garbage (mkMState s v d m) (mkMState s' (add_credit m_sem 1 v) d' m)
  | m_env s v d d' m : env d d' -> mstep garbage (mkMState s v d m) (mkMState s v d' m)
  | m_new_sem i n s v d m :
      in_client s -> sems s !! i = None -> 0 <= n < 2 ^ 31 ->
      mstep garbage (mkMState s v d m)
        (mkMState (set_sems (<[i := Semaphore_new n]> (sems s)) s) (new_credit i n v) d m)
  | m_new_lock l g s v d m :
      in_client s -> locks s !! l = None ->
      mstep garbage (mkMState s v d m) (mkMState (set_locks (<[l := Lock_new g]> (locks s)) s) (add_stale g l v) d m)
  | m_new_cond c g s v d m :
      in_client s -> conds s !! c = None ->
      mstep garbage (mkMState s v d m) (mkMState (set_conds (<[c := Condition_new g]> (conds s)) s) v d m)
  | m_enter pc s v d m :
      in_client s -> m !! currentThread s = None -> entry pc ->
      mstep garbage (mkMState s v d m) (mkMState s v d (<[currentThread s := pc]> m))
  | m_call o next pc s s' b v d m :
      in_client s -> m !! currentThread s = Some pc -> code pc = Sync o next -> exec_op o s = Ok (s', b) ->
      mstep garbage (mkMState s v d m)
        (mkMState s' (view_call (currentThread s) o b v) d (<[currentThread s := next]> m))
  | m_plain f next pc s v d d' m :
      in_client s -> m !! currentThread s = Some pc -> code pc = Plain f -> f d = Ok (d', next) ->
      mstep garbage (mkMState s v d m) (mkMState s v d' (<[currentThread s := next]> m))
  | m_return pc s v d m :
      in_client s -> m !! currentThread s = Some pc -> code pc = Return ->
      mstep garbage (mkMState s v d m) (mkMState s v d (delete (currentThread s) m)).

(** The main thread has made the monitor's objects: [garbage] and [gwait] are
    what the constructors of its lock and its condition left. *)
Definition mstart (main : tid) (garbage : option tid) (gwait : option lid) (d : D) : MState D PC :=
  mkMState
    (mkSys main false [] IntOn None {[ main := mkThread RUNNING [] ]}
       {[ m_sem := Semaphore_new 0 ]} {[ m_lock := Lock_new garbage ]} {[ m_cond := Condition_new gwait ]})
    (add_stale garbage m_lock (mkView ∅ {[ m_sem := 0 ]} ∅)) d ∅.

Definition mreachable (d0 : D) (c : MState D PC) : Prop :=
  exists main garbage gwait, garbage <> Some main /\ rtc (mstep garbage) (mstart main garbage gwait d0) c.

(** ** Laws

    [valid pc]: points that can be reached from [entry]. [holds pc]: a thread
    at [pc] is between [Acquire] and [Release]. The invariant [J] relates the
    data and the semaphore's value to where the thread inside is: nowhere, at
    [pc], or in [P] that will return to [pc]. *)
Inductive where_ := Nobody | At (pc : PC) | InP (pc : PC).

Class MonitorOK (valid : PC -> Prop) (holds : PC -> bool) (J : where_ -> D -> Z -> Prop) : Prop := {
  ok_entry pc : entry pc -> valid pc /\ holds pc = false;
  ok_sync pc o next : valid pc -> code pc = Sync o next -> valid next /\
    match o with
    | OpAcquire l => l = m_lock /\ holds pc = false /\ holds next = true /\
        forall d c, J Nobody d c -> J (At next) d c
    | OpRelease l => l = m_lock /\ holds pc = true /\ holds next = false /\
        forall d c, J (At pc) d c -> J Nobody d c
    | OpP i => i = m_sem /\ holds pc = true /\ holds next = true /\
        (forall d c, J (At pc) d c -> J (InP next) d c) /\
        (forall d c, 0 < c -> J (InP next) d c -> J (At next) d (c - 1))
    | OpV i => i = m_sem /\ holds pc = true /\ holds next = true /\
        forall d c, J (At pc) d c -> J (At next) d (c + 1)
    | OpWait c (Some l) => c = m_cond /\ l = m_lock /\ holds pc = true /\ holds next = true /\
        (forall d c, J (At pc) d c -> J Nobody d c) /\
        (forall d c, J Nobody d c -> J (At next) d c)
    | OpSignal c (Some l) | OpBroadcast c (Some l) =>
        c = m_cond /\ l = m_lock /\ holds pc = true /\ holds next = true /\
        forall d c, J (At pc) d c -> J (At next) d c
    | _ => False
    end;
  ok_plain pc f : valid pc -> code pc = Plain f ->
    if holds pc then
      forall d c, J (At pc) d c ->
        exists d' next, f d = Ok (d', next) /\ valid next /\ holds next = true /\ J (At next) d' c
    else
      forall d, exists next, f d = Ok (d, next) /\ valid next /\ holds next = false;
  ok_return pc : valid pc -> code pc = Return -> holds pc = false;
  ok_env w d d' c : env d d' -> J w d c -> J w d' c;
  ok_irq w d d' c : irq d = Some d' -> J w d c -> J w d' (c + 1)
}.

(** ** The invariant of the machine *)

Section Safety.
Context (valid : PC -> Prop) (holds : PC -> bool) (J : where_ -> D -> Z -> Prop) `{OK : !MonitorOK valid holds J}.

Definition stack_of (h : Shape) (t : tid) : list frame := default [] (sh_stacks h !! t).
Definition waiting (s : Sys) (t : tid) : waits := waits_for (stack_of (shape s) t).
Definition holder (v : View) (t : tid) : Prop := (t, m_lock) ∈ held v.
Definition count (v : View) : Z := default 0 (credit v !! m_sem).

(** How the point of a thread, the routine it is suspended in, and the lock
    go together. *)
Definition tracked (pc : option PC) (w : waits) (h : Prop) : Prop :=
  match pc with
  | None => ~ h /\ w <> WaitLock m_lock /\ w <> WaitSem m_sem
  | Some pc =>
      match w with
      | NoWait => h <-> holds pc = true
      | WaitLock l => l = m_lock /\ holds pc = true /\ ~ h /\ forall d c, J Nobody d c -> J (At pc) d c
      | WaitSem i => i = m_sem /\ holds pc = true /\ h /\
          forall d c, 0 < c -> J (InP pc) d c -> J (At pc) d (c - 1)
      | WaitEnd => False
      end
  end.

Definition spot (pc : option PC) (w : waits) : where_ :=
  match pc, w with
  | Some pc, WaitSem _ => InP pc
  | Some pc, _ => At pc
  | None, _ => Nobody
  end.

(** No thread, the main thread included, is at the address that the memory of
    the monitor's lock held. *)
Section Garbage.
Context (garbage : option tid).

Definition Fresh (s : Sys) (v : View) : Prop :=
  (forall t, (t, m_lock) ∈ stale v -> garbage = Some t) /\
  (forall t, garbage = Some t -> threads s !! t = None /\ ~ holder v t).

Definition settled (c : Sys * View) : Prop := reachable c /\ Fresh c.1 c.2.

Record MInv (x : MState D PC) : Prop := {
  mi_reach : settled (m_sys x, m_view x);
  mi_sem : is_Some (sems (m_sys x) !! m_sem);
  mi_lock : is_Some (locks (m_sys x) !! m_lock);
  mi_cond : is_Some (conds (m_sys x) !! m_cond);
  mi_valid t pc : m_pc x !! t = Some pc -> valid pc;
  mi_tracked t : tracked (m_pc x !! t) (waiting (m_sys x) t) (holder (m_view x) t);
  mi_end t : threadToBeDestroyed (m_sys x) = Some t -> waiting (m_sys x) t = WaitEnd;
  mi_nobody : (forall t, ~ holder (m_view x) t) -> J Nobody (m_data x) (count (m_view x));
  mi_inside t : holder (m_view x) t ->
    J (spot (m_pc x !! t) (waiting (m_sys x) t)) (m_data x) (count (m_view x))
}.

Lemma holder_unique s v t1 t2 : settled (s, v) -> holder v t1 -> holder v t2 -> t1 = t2.
Proof.
  intros [[pl HI]%reachable_Inv [Hs Hf]] H1 H2. simpl in *.
  assert (forall t, holder v t -> own s m_lock = Some t) as Ho.
  { intros t Ht. apply (inv_held _ _ _ _ HI) in Ht as Hh. destruct Hh as [|Hg%Hs]; [done|].
    by destruct (Hf t Hg) as [_ ?]. }
  apply Ho in H1, H2. congruence.
Qed.

(** A step that leaves the points and the holders alone. *)
Lemma MInv_quiet s v d m s' v' d' :
  MInv (mkMState s v d m) -> settled (s', v') -> grows s s' ->
  (forall t, holder v' t <-> holder v t) ->
  (forall t, waiting s' t = waiting s t \/
     m !! t = None /\ waiting s' t <> WaitLock m_lock /\ waiting s' t <> WaitSem m_sem) ->
  (forall t, threadToBeDestroyed s' = Some t -> waiting s' t = WaitEnd) ->
  (forall w, J w d (count v) -> J w d' (count v')) ->
  MInv (mkMState s' v' d' m).
Proof.
  intros [] HR [] Hh Hw Hd HJ. simpl in *. split; simpl; auto.
  - intros t. specialize (mi_tracked0 t). specialize (Hh t). destruct (Hw t) as [E|(E & ? & ?)].
    + rewrite E. destruct (m !! t); simpl in *; [|tauto].
      destruct (waiting s t); simpl in *; tauto.
    + rewrite E in *. simpl in *. tauto.
  - intros Hn. apply HJ, mi_nobody0. intros t Ht. by apply (Hn t), Hh.
  - intros t Ht. apply Hh in Ht as Ht'. apply HJ. destruct (Hw t) as [->|(E & _)]; [by apply mi_inside0|].
    specialize (mi_tracked0 t). rewrite E in mi_tracked0. simpl in mi_tracked0. tauto.
Qed.

(** A step of one thread [t]. *)
Lemma MInv_move t s v d m s' v' d' m' :
  MInv (mkMState s v d m) -> settled (s', v') -> grows s s' ->
  (forall t', t' <> t -> m' !! t' = m !! t' /\ (holder v' t' <-> holder v t') /\
     (waiting s' t' = waiting s t' \/ waiting s t' = WaitEnd /\ waiting s' t' = NoWait)) ->
  (forall t', threadToBeDestroyed s' = Some t' -> waiting s' t' = WaitEnd) ->
  tracked (m' !! t) (waiting s' t) (holder v' t) -> (forall pc, m' !! t = Some pc -> valid pc) ->
  (~ holder v t -> ~ holder v' t -> d' = d /\ count v' = count v) ->
  (~ holder v t -> holder v' t -> J Nobody d (count v) -> J (spot (m' !! t) (waiting s' t)) d' (count v')) ->
  (holder v t -> J (spot (m !! t) (waiting s t)) d (count v) ->
     (holder v' t -> J (spot (m' !! t) (waiting s' t)) d' (count v')) /\
     (~ holder v' t -> J Nobody d' (count v'))) ->
  MInv (mkMState s' v' d' m').
Proof.
  intros HI HR [] Ho Hd Htr Hv H00 H01 H1. pose proof HI as []. simpl in *.
  assert (forall t', t' <> t -> waiting s t' = WaitEnd -> m !! t' = None) as Hend.
  { intros t' _ E. specialize (mi_tracked0 t'). rewrite E in mi_tracked0. by destruct (m !! t'). }
  assert (forall v0 t', Decision (holder v0 t')) as Hdec by (intros; unfold holder; apply _).
  split; simpl; auto.
  - intros t' pc. destruct (decide (t' = t)) as [->|Hne]; [apply Hv|].
    destruct (Ho t' Hne) as (-> & _). apply mi_valid0.
  - intros t'. destruct (decide (t' = t)) as [->|Hne]; [done|].
    destruct (Ho t' Hne) as (-> & Hh & Hw). specialize (mi_tracked0 t'). destruct Hw as [E|[E E']].
    + rewrite E. destruct (m !! t'); simpl in *; [|tauto]. destruct (waiting s t'); simpl in *; tauto.
    + rewrite (Hend t' Hne E) in *. rewrite E'. simpl in *. split_and!; [tauto|done|done].
  - intros Hn. destruct (decide (holder v t)) as [Ht|Ht].
    + apply H1; [done|by apply mi_inside0|apply Hn].
    + destruct (H00 Ht (Hn t)) as [-> ->]. apply mi_nobody0. intros t' Ht'.
      destruct (decide (t' = t)) as [->|Hne]; [done|]. by apply (Hn t'), (Ho t' Hne).
  - intros t' Ht'. destruct (decide (t' = t)) as [->|Hne].
    + destruct (decide (holder v t)) as [Ht|Ht]; [by apply H1; [|apply mi_inside0|]|].
      apply H01; [done|done|]. apply mi_nobody0. intros t2 H2.
      destruct (decide (t2 = t)) as [->|Hne]; [done|]. apply Hne.
      apply (holder_unique s' v'); [done| |done]. by apply (Ho t2 Hne).
    + destruct (Ho t' Hne) as (-> & Hh & Hw). apply Hh in Ht' as Hv2.
      assert (~ holder v t) as Ht by (intros Ht; apply Hne; by apply (holder_unique s v)).
      destruct (decide (holder v' t)) as [Ht2|Ht2]; [destruct Hne; by apply (holder_unique s' v')|].
      destruct (H00 Ht Ht2) as [-> ->]. destruct Hw as [->|[E _]]; [by apply mi_inside0|].
      specialize (mi_tracked0 t'). rewrite (Hend t' Hne E) in mi_tracked0. simpl in *. tauto.
Qed.

(** *** Stacks and views after a step *)

Lemma waiting_same s s' t : shape s' = shape s -> waiting s' t = waiting s t.
Proof. unfold waiting. by intros ->. Qed.

Lemma waiting_stack s' t fs h : shape s' = with_stack t fs h -> waiting s' t = waits_for fs.
Proof. unfold waiting, stack_of. intros ->. simpl. by rewrite lookup_insert_eq. Qed.
Lemma waiting_stack_ne s s' t fs t' : t' <> t -> shape s' = with_stack t fs (shape s) -> waiting s' t' = waiting s t'.
Proof. unfold waiting, stack_of. intros ? ->. simpl. by rewrite lookup_insert_ne. Qed.

Lemma waiting_th s t th : threads s !! t = Some th -> waiting s t = waits_for (frames th).
Proof. unfold waiting, stack_of, shape, stacks. simpl. intros H. by rewrite lookup_fmap, H. Qed.
Lemma waiting_none s t : threads s !! t = None -> waiting s t = NoWait.
Proof. unfold waiting, stack_of, shape, stacks. simpl. intros H. by rewrite lookup_fmap, H. Qed.

Lemma in_client_waiting s : in_client s -> waiting s (currentThread s) = NoWait.
Proof. intros (_ & _ & th & Hth & Hfr). by rewrite (waiting_th _ _ _ Hth), Hfr. Qed.

Lemma destroyed_same s s' : shape s' = shape s -> threadToBeDestroyed s' = threadToBeDestroyed s.
Proof. intros H. change (sh_destroyed (shape s') = sh_destroyed (shape s)). by rewrite H. Qed.
Lemma destroyed_stack s s' t fs : shape s' = with_stack t fs (shape s) -> threadToBeDestroyed s' = threadToBeDestroyed s.
Proof. intros H. change (sh_destroyed (shape s') = sh_destroyed (shape s)). by rewrite H. Qed.

Lemma count_add v i n : count (add_credit i n v) = if decide (i = m_sem) then count v + n else count v.
Proof.
  unfold count, add_credit. simpl. case_decide as E; [subst i; by rewrite lookup_insert_eq|].
  by rewrite lookup_insert_ne.
Qed.

Lemma holder_hold t l v t' : holder (hold t l v) t' <-> holder v t' \/ t' = t /\ l = m_lock.
Proof. unfold holder, hold. simpl. set_solver. Qed.
Lemma holder_unhold t l v t' : holder (unhold t l v) t' <-> holder v t' /\ ~ (t' = t /\ l = m_lock).
Proof. unfold holder, unhold. simpl. set_solver. Qed.

Lemma holder_hold_self t v : holder (hold t m_lock v) t <-> True.
Proof. rewrite holder_hold. tauto. Qed.
Lemma holder_unhold_self t v : holder (unhold t m_lock v) t <-> False.
Proof. rewrite holder_unhold. tauto. Qed.
Lemma holder_add i n v t : holder (add_credit i n v) t <-> holder v t.
Proof. done. Qed.
Lemma count_hold t l v : count (hold t l v) = count v.
Proof. done. Qed.
Lemma count_unhold t l v : count (unhold t l v) = count v.
Proof. done. Qed.

(** Calls of the rest of the kernel do not touch the monitor's lock and
    semaphore. *)
Lemma foreign_view t o b v : foreign garbage o ->
  (forall t', holder (view_call t o b v) t' <-> holder v t') /\ count (view_call t o b v) = count v.
Proof.
  assert (forall l, l <> m_lock -> (forall t', holder (hold t l v) t' <-> holder v t') /\
    (forall t', holder (unhold t l v) t' <-> holder v t')) as Hl.
  { intros l Hl. split; intros t'; [rewrite holder_hold|rewrite holder_unhold]; tauto. }
  assert (forall i n, i <> m_sem -> (forall t', holder (add_credit i n v) t' <-> holder v t') /\
    count (add_credit i n v) = count v) as Hs.
  { intros i n Hi. split; [done|]. rewrite count_add. by rewrite decide_False. }
  destruct o as [i|i|l|l|c [l|]|c [l|]|c [l|]| |t'|t'|]; cbn [view_call foreign]; intros Hf; try done.
  - destruct b; [by apply Hs|done].
  - by apply Hs.
  - destruct b; [|done]. split; [by apply Hl|done].
  - split; [by apply Hl|done].
  - destruct b; [done|]. split; [apply Hl; naive_solver|done].
Qed.

(** The only thing a call changes for other threads is nothing. *)
Lemma view_call_other t o b v t' : t' <> t -> holder (view_call t o b v) t' <-> holder v t'.
Proof.
  intros Hne. destruct o as [i|i|l|l|c [l|]|c ol|c ol| |t2|t2|]; cbn [view_call]; try done;
    try (destruct b; try done); rewrite ?holder_hold, ?holder_unhold; tauto.
Qed.

Lemma view_return_other t fs b v t' : t' <> t -> holder (view_return t fs b v) t' <-> holder v t'.
Proof.
  intros Hne. unfold view_return. destruct b; [|done].
  destruct (last fs) as [[]|]; try done; rewrite holder_hold; tauto.
Qed.

Lemma waiting_reaped s h t' :
  (forall t, threadToBeDestroyed s = Some t -> waiting s t = WaitEnd) ->
  h = shape s \/ h = reap (shape s) ->
  waits_for (stack_of h t') = waiting s t' \/ waiting s t' = WaitEnd /\ waits_for (stack_of h t') = NoWait.
Proof.
  intros Hd [->| ->]; [by left|]. unfold reap. simpl.
  destruct (threadToBeDestroyed s) as [d|]; [|by left]. unfold stack_of. simpl.
  destruct (decide (t' = d)) as [->|Hne]; [|left; by rewrite lookup_delete_ne].
  right. rewrite lookup_delete_eq. by split; [apply Hd|].
Qed.

(** A dispatched thread was suspended in one of the routines. *)
Lemma current_suspended s v th : reachable (s, v) -> idle s = false ->
  threads s !! currentThread s = Some th -> frames th <> [] -> suspended s (currentThread s) (frames th).
Proof.
  intros HG%reachable_Good Hi Hth Hne.
  destruct HG as [(pl & _ & _ & _ & _ & th' & ? & ?)|(pl & HI & Hl & [[? _]|(_ & Hc & _)])]; [by simplify_eq|congruence|].
  destruct (inv_threads _ _ _ _ HI (currentThread s)) as (th' & E & Hok); [by rewrite Hc|].
  assert (th' = th) as -> by congruence. rewrite Hc in Hok. by destruct (Hok ltac:(done)) as (_ & [?|?]).
Qed.

(** The semaphore's value is never negative. *)
Lemma count_nonneg s v : reachable (s, v) -> is_Some (sems s !! m_sem) -> 0 <= count v.
Proof.
  intros HG%reachable_Good [x Hx].
  assert (exists pl, Inv None pl s v) as [pl HI] by (destruct HG as [(pl & ? & _)|(pl & ? & _)]; by exists pl).
  destruct (inv_sems _ _ _ _ HI _ _ Hx) as [? E]. unfold count. rewrite E. simpl. lia.
Qed.

(** *** Every step keeps the invariant *)

Lemma reachable_step s v s' v' : reachable (s, v) -> step (s, v) (s', v') -> reachable (s', v').
Proof. intros [main H] Hs. exists main. by eapply rtc_r. Qed.

(** The calls of a routine name the monitor's objects. *)
Lemma sync_ok pc o next s : valid pc -> code pc = Sync o next ->
  is_Some (sems s !! m_sem) -> is_Some (locks s !! m_lock) -> is_Some (conds s !! m_cond) ->
  op_ok s o /\ stays o.
Proof.
  intros Hv Hc ? ? ?. destruct (ok_sync pc o next Hv Hc) as [_ Hc']. clear Hc. rename Hc' into Hc. destruct o as [i|i|l|l|c [l|]|c [l|]|c [l|]| |t'|t'|]; simpl in *; try done;
    destruct Hc as (-> & Hc); try done; by destruct Hc as (-> & _).
Qed.

Lemma handler_V_keeps i : keeps (handler_V i).
Proof. unfold handler_V. keeps_tac. Qed.

Lemma present_shape s t : is_Some (threads s !! t) <-> is_Some (sh_stacks (shape s) !! t).
Proof. unfold shape, stacks. simpl. by rewrite lookup_fmap, fmap_is_Some. Qed.

Lemma present_client s : in_client s -> is_Some (threads s !! currentThread s).
Proof. intros (_ & _ & th & ? & _). by exists th. Qed.

(** A step after which there are no new threads, but for one at another
    address, and no new holders, but for a thread that exists. *)
Lemma Fresh_step s v s' v' :
  Fresh s v -> (forall t, (t, m_lock) ∈ stale v' -> (t, m_lock) ∈ stale v) ->
  (forall t, is_Some (threads s' !! t) -> is_Some (threads s !! t) \/ garbage <> Some t) ->
  (forall t, holder v' t -> holder v t \/ is_Some (threads s !! t)) ->
  Fresh s' v'.
Proof.
  intros [Hs Hf] Hst Ht Hh. split; [auto|]. intros t Hg. destruct (Hf t Hg) as [Hn Hnh]. split.
  - apply eq_None_not_Some. intros Hp. destruct (Ht t Hp) as [[th E]|?]; [congruence|done].
  - intros [?|[th E]]%Hh; [done|congruence].
Qed.

Lemma present_stack s s' t0 fs h t :
  is_Some (threads s !! t0) -> h = shape s \/ h = reap (shape s) -> shape s' = with_stack t0 fs h ->
  is_Some (threads s' !! t) -> is_Some (threads s !! t).
Proof.
  intros Ht0 Hh Hs. rewrite (present_shape s' t), Hs. simpl. rewrite lookup_insert_is_Some'.
  intros [->|Ht]; [done|]. apply present_shape. destruct Hh as [->| ->]; [done|]. revert Ht.
  unfold reap. destruct (sh_destroyed (shape s)); [|done]. simpl.
  rewrite lookup_delete_is_Some. tauto.
Qed.

Lemma present_same s s' t : shape s' = shape s -> is_Some (threads s' !! t) -> is_Some (threads s !! t).
Proof. intros E. by rewrite !present_shape, E. Qed.

Lemma present_stays o s s' b t : stays o -> in_client s -> exec_op o s = Ok (s', b) ->
  is_Some (threads s' !! t) -> is_Some (threads s !! t).
Proof.
  intros Ho Hc [E _]%exec_op_shape; [|done|apply Hc]. destruct b; [by apply present_same|].
  eapply present_stack; [by apply present_client|by left|exact E].
Qed.

Lemma present_foreign o s s' b t : foreign garbage o -> op_ok s o -> in_client s ->
  exec_op o s = Ok (s', b) -> is_Some (threads s' !! t) -> is_Some (threads s !! t) \/ garbage <> Some t.
Proof.
  intros Hf Ho Hc He. destruct (decide (stays o)) as [Hs|Hs]; [left; by eapply present_stays|].
  destruct o as [i|i|l|l|c l|c l|c l| |t'|t'|]; try (by destruct Hs); rewrite (present_shape s' t).
  - apply New_shape in He as (-> & _). simpl. rewrite lookup_insert_is_Some'.
    intros [->|?]; [by right|left; by apply present_shape].
  - apply Fork_shape in He as (-> & _). simpl. rewrite lookup_insert_is_Some'. destruct Ho as [fs ?].
    intros [->|?]; left; [by eexists|by apply present_shape].
  - apply Finish_shape in He as (-> & _). simpl. rewrite lookup_insert_is_Some'.
    intros [<-|?]; left; [by apply present_client|by apply present_shape].
Qed.

Lemma view_call_stale t o b v : stale (view_call t o b v) = stale v.
Proof. destruct o as [i|i|l|l|c [l|]|c l|c l| |t2|t2|]; cbn [view_call]; try done; by destruct b. Qed.

Lemma view_return_stale t fs b v : stale (view_return t fs b v) = stale v.
Proof. unfold view_return. destruct b; [|done]. by destruct (last fs) as [[]|]. Qed.

Lemma view_call_present s o b v t : is_Some (threads s !! currentThread s) ->
  holder (view_call (currentThread s) o b v) t -> holder v t \/ is_Some (threads s !! t).
Proof.
  intros Hp. destruct (decide (t = currentThread s)) as [->|Hne]; [by right|].
  intros H. left. by apply (view_call_other (currentThread s) o b v t).
Qed.

Lemma view_return_present s fs b v t : is_Some (threads s !! currentThread s) ->
  holder (view_return (currentThread s) fs b v) t -> holder v t \/ is_Some (threads s !! t).
Proof.
  intros Hp. destruct (decide (t = currentThread s)) as [->|Hne]; [by right|].
  intros H. left. by apply (view_return_other (currentThread s) fs b v t).
Qed.

Lemma mstep_Fresh x x' : MInv x -> mstep garbage x x' -> Fresh (m_sys x') (m_view x').
Proof.
  intros [[mi_reach0 HF]] H. simpl in *.
  destruct H; simpl in *; try done; apply (Fresh_step s v); try done; rewrite ?view_call_stale, ?view_return_stale;
    try done; try (intros; left; done).
  - intros t. by apply (present_foreign o s s' b).
  - intros t. apply view_call_present. by apply present_client.
  - intros t Ht. left. by apply (present_stays OpYield s s' b t).
  - intros t Ht. left. assert (is_Some (threads s !! currentThread s)) as Hp by by eexists.
    destruct (resume_shape s th s' b) as (h & fs & Hh & _ & E & _); [done|by eapply current_suspended|done|].
    eapply present_stack; [exact Hp| |exact E|done]. destruct Hh as [?|[? _]]; auto.
  - intros t. apply view_return_present. by eexists.
  - intros t Ht. left. apply switches_dispatch in H0 as [E _]. by eapply present_same.
  - intros t Ht. left. apply handler_V_keeps in H2 as (E & _). by eapply present_same.
  - intros t Ht. left. apply handler_V_keeps in H1 as (E & _). by eapply present_same.
  - intros t Ht. destruct g as [t'|]; [|done]. simpl in Ht. apply elem_of_union in Ht as [Ht|Ht]; [|done].
    apply elem_of_singleton in Ht. injection Ht as <- <-. destruct mi_lock0. simpl in *. congruence.
  - intros t Ht. left. destruct (sync_ok pc o next s) as [_ Hst]; try done; [by eapply mi_valid0|].
    by apply (present_stays o s s' b t).
  - intros t. apply view_call_present. by apply present_client.
Qed.

Lemma mstep_reach x x' : MInv x -> mstep garbage x x' -> settled (m_sys x', m_view x').
Proof.
  intros HI H. split; [|by eapply mstep_Fresh].
  destruct HI as [[mi_reach0 _]]. destruct H; simpl in *; try done; (eapply reachable_step; [exact mi_reach0|]).
  - by apply step_call.
  - by apply (step_call OpYield s s' b v).
  - by eapply step_resume.
  - by apply step_wake.
  - by apply step_interrupt.
  - by apply step_interrupt.
  - by apply step_new_sem.
  - by apply step_new_lock.
  - by apply step_new_cond.
  - apply step_call; [done| |done]. eapply sync_ok; try done. by eapply mi_valid0.
Qed.

Lemma outside_inv o s s' b v d m :
  MInv (mkMState s v d m) -> in_client s -> m !! currentThread s = None -> foreign garbage o -> op_ok s o ->
  exec_op o s = Ok (s', b) -> settled (s', view_call (currentThread s) o b v) ->
  MInv (mkMState s' (view_call (currentThread s) o b v) d m).
Proof.
  intros HI Hc Hm Hf Ho He HR. destruct (foreign_view (currentThread s) o b v Hf) as [Hh Hn].
  pose proof HI as []. simpl in *. pose proof (in_client_waiting s Hc) as Hw.
  assert (grows s s' /\ (forall t, waiting s' t = waiting s t \/
     m !! t = None /\ waiting s' t <> WaitLock m_lock /\ waiting s' t <> WaitSem m_sem) /\
    (forall t, threadToBeDestroyed s' = Some t -> waiting s' t = WaitEnd)) as (Hg & Hs & Hd);
    [|by apply (MInv_quiet s v d m); try done; intros w; rewrite Hn].
  destruct (decide (stays o)) as [Hst|Hst].
  - apply exec_op_shape in He as [Hsh Hg]; [|done|apply Hc]. split; [done|]. destruct b.
    { split; [intros t; left; by apply waiting_same|]. intros t. rewrite (destroyed_same _ _ Hsh), (waiting_same _ _ t Hsh).
      apply mi_end0. }
    split.
    + intros t. destruct (decide (t = currentThread s)) as [->|Hne].
      * right. rewrite (waiting_stack _ _ _ _ Hsh). split; [done|].
        destruct o as [i|i|l|l|c [l|]|c [l|]|c [l|]| |t'|t'|]; simpl in *; try done; unfold waits_for; simpl; naive_solver.
      * left. by eapply waiting_stack_ne.
    + intros t Ht. rewrite (destroyed_stack _ _ _ _ Hsh) in Ht. apply mi_end0 in Ht as Hwe.
      rewrite <-Hwe. eapply waiting_stack_ne; [|exact Hsh]. intros ->. congruence.
  - destruct o as [i|i|l|l|c l|c l|c l| |t'|t'|]; try (by destruct Hst).
    + apply New_shape in He as (Hsh & Hg & ->). split; [done|].
      assert (forall t, waiting s' t = waiting s t) as E.
      { intros t. destruct (decide (t = t')) as [->|]; [|by eapply waiting_stack_ne].
        rewrite (waiting_stack _ _ _ _ Hsh). symmetry. by apply waiting_none. }
      split; [intros t; by left|]. intros t. rewrite E, (destroyed_stack _ _ _ _ Hsh). apply mi_end0.
    + apply Fork_shape in He as (Hsh & Hg & ->). split; [done|]. destruct Ho as [fs Hth].
      assert (waiting s t' = NoWait) as E0.
      { destruct (reachable_Inv _ _ (proj1 mi_reach0)) as [pl HP].
        assert (pl t' = Created) as Hp by (by eapply (inv_created _ _ _ _ HP)).
        destruct (inv_threads _ _ _ _ HP t') as (th & Ht & Hok); [by rewrite Hp|].
        rewrite (waiting_th _ _ _ Ht). rewrite Hp in Hok. destruct (Hok ltac:(done)) as [_ ->]. done. }
      assert (forall t, waiting s' t = waiting s t) as E.
      { intros t. destruct (decide (t = t')) as [->|]; [|by eapply waiting_stack_ne].
        by rewrite (waiting_stack _ _ _ _ Hsh), E0. }
      split; [intros t; by left|]. intros t. rewrite E, (destroyed_stack _ _ _ _ Hsh). apply mi_end0.
    + apply Finish_shape in He as (Hsh & Hg & ->). split; [done|].
      assert (waiting s' (currentThread s) = WaitEnd) as E
        by (unfold waiting, stack_of; rewrite Hsh; simpl; by rewrite lookup_insert_eq).
      split.
      * intros t. destruct (decide (t = currentThread s)) as [->|Hne]; [right; by rewrite E|left].
        unfold waiting, stack_of. rewrite Hsh. simpl. by rewrite lookup_insert_ne.
      * intros t Ht. change (sh_destroyed (shape s') = Some t) in Ht. rewrite Hsh in Ht. simpl in Ht. by simplify_eq.
Qed.

(** A step that changes no stack. *)
Lemma MInv_flat s v d m s' v' d' :
  MInv (mkMState s v d m) -> settled (s', v') -> shape s' = shape s -> grows s s' ->
  (forall t, holder v' t <-> holder v t) ->
  (forall w, J w d (count v) -> J w d' (count v')) ->
  MInv (mkMState s' v' d' m).
Proof.
  intros HI HR Hsh Hg Hh HJ. pose proof HI as []. apply (MInv_quiet s v d m); try done.
  - intros t. left. by apply waiting_same.
  - intros t. rewrite (destroyed_same _ _ Hsh), (waiting_same _ _ t Hsh). apply mi_end0.
Qed.

Lemma preempt_inv s s' b v d m :
  MInv (mkMState s v d m) -> in_client s -> exec_op OpYield s = Ok (s', b) -> settled (s', v) ->
  MInv (mkMState s' v d m).
Proof.
  intros HI Hc He HR. pose proof HI as []. simpl in *.
  apply (exec_op_shape OpYield) in He as [Hsh Hg]; [|done|apply Hc]. destruct b; [by apply (MInv_flat s v d m)|].
  assert (forall t, waiting s' t = waiting s t) as E.
  { intros t. destruct (decide (t = currentThread s)) as [->|]; [|by eapply waiting_stack_ne].
    by rewrite (waiting_stack _ _ _ _ Hsh), (in_client_waiting s Hc). }
  apply (MInv_quiet s v d m); try done; [intros t; by left|].
  intros t. rewrite E, (destroyed_stack _ _ _ _ Hsh). apply mi_end0.
Qed.

(** What the caller learns when its routine returns. *)
Definition learnt (w : waits) (t : tid) (v : View) : View :=
  match w with WaitLock l => hold t l v | WaitSem i => add_credit i (-1) v | _ => v end.

Lemma view_return_learnt t fs b v : view_return t fs b v = if b then learnt (waits_for fs) t v else v.
Proof. unfold view_return, waits_for. destruct b; [|done]. by destruct (last fs) as [[]|]. Qed.

Lemma resume_step_inv s s' b v d m th :
  MInv (mkMState s v d m) -> idle s = false -> threads s !! currentThread s = Some th ->
  frames th <> [] -> resume s = Ok (s', b) ->
  settled (s', view_return (currentThread s) (frames th) b v) ->
  MInv (mkMState s' (view_return (currentThread s) (frames th) b v) d m).
Proof.
  intros HI Hi Hth Hne He HR. pose proof HI as []. simpl in *. set (t := currentThread s) in *.
  pose proof (current_suspended _ _ _ (proj1 mi_reach0) Hi Hth Hne) as Hsus.
  destruct (resume_shape s th s' b Hth Hsus He) as (h & fs' & Hh & Hw' & Hsh & Hg). fold t in Hsh, Hsus.
  pose proof (waiting_stack _ _ _ _ Hsh) as Hwt. rewrite Hw' in Hwt.
  pose proof (waiting_th _ _ _ Hth) as Hw. fold t in Hw.
  pose proof (mi_tracked0 t) as Htr. rewrite Hw in Htr.
  apply (MInv_move t s v d m); try done.
  - intros t' Hne'. split_and!; [done|by apply view_return_other|].
    assert (waiting s' t' = waits_for (stack_of h t')) as ->
      by (unfold waiting, stack_of; rewrite Hsh; simpl; by rewrite lookup_insert_ne).
    apply (waiting_reaped s h t' mi_end0). tauto.
  - intros t' Ht'. change (sh_destroyed (shape s') = Some t') in Ht'. rewrite Hsh in Ht'. simpl in Ht'.
    destruct Hh as [->|[-> Hd]];
      [|unfold reap in Ht'; simpl in Ht'; destruct (threadToBeDestroyed s) eqn:E; simpl in Ht'; congruence].
    simpl in Ht'. assert (t' <> t) as Hne2.
    { intros ->. apply mi_end0 in Ht'. rewrite Hw in Ht'. by destruct Hsus. }
    rewrite (waiting_stack_ne _ _ _ _ _ Hne2 Hsh). by apply mi_end0.
  - rewrite Hwt, view_return_learnt. destruct b; [|done]. revert Htr.
    destruct (waits_for (frames th)), (m !! t); simpl; rewrite ?holder_hold; naive_solver.
  - intros pc. apply mi_valid0.
  - intros Hn Hn'. split; [done|]. revert Hn'. rewrite view_return_learnt. destruct b; [|done]. revert Htr.
    destruct (waits_for (frames th)), (m !! t); simpl; rewrite ?holder_hold, ?count_add; try tauto.
    intros (_ & _ & Hn2) _. rewrite decide_False; [done|]. naive_solver.
  - intros Hn Hh2 HJ. revert Hh2. rewrite Hwt, view_return_learnt. destruct b; [|done]. revert Htr.
    destruct (waits_for (frames th)), (m !! t) as [pc|]; simpl; rewrite ?holder_hold; naive_solver.
  - intros Hin HJ. rewrite Hw in HJ. rewrite Hwt. rewrite view_return_learnt in HR |- *. destruct b; [|by split].
    assert (0 <= count (learnt (waits_for (frames th)) t v)) as Hc by (apply (count_nonneg s'); [apply HR|by apply Hg]).
    revert Htr HJ Hc. destruct (waits_for (frames th)), (m !! t) as [pc|]; simpl; rewrite ?holder_hold, ?count_add;
      try tauto.
    intros (-> & _ & _ & Hp) HJ. rewrite decide_True by done. intros Hc. split; [|tauto]. intros _.
    replace (count v + -1) with (count v - 1) by lia. apply Hp; [lia|done].
Qed.

(** A step of client code that calls nothing. *)
Lemma MInv_local s v d m d' m' :
  MInv (mkMState s v d m) -> in_client s ->
  (forall t, t <> currentThread s -> m' !! t = m !! t) ->
  tracked (m' !! currentThread s) NoWait (holder v (currentThread s)) ->
  (forall pc, m' !! currentThread s = Some pc -> valid pc) ->
  (~ holder v (currentThread s) -> d' = d) ->
  (holder v (currentThread s) -> J (spot (m !! currentThread s) NoWait) d (count v) ->
     J (spot (m' !! currentThread s) NoWait) d' (count v)) ->
  MInv (mkMState s v d' m').
Proof.
  intros HI Hc Hm Htr Hv Hd HJ. pose proof HI as []. simpl in *. pose proof (in_client_waiting s Hc) as Hw.
  apply (MInv_move (currentThread s) s v d m); rewrite ?Hw; try done; [| |tauto].
  - intros t Ht. split_and!; [by apply Hm|done|by left].
  - intros Hn. split; [by apply Hd|done].
Qed.

Lemma client_tracked s v d m pc : MInv (mkMState s v d m) -> in_client s -> m !! currentThread s = Some pc ->
  holder v (currentThread s) <-> holds pc = true.
Proof.
  intros [] Hc Hm. specialize (mi_tracked0 (currentThread s)). simpl in *.
  by rewrite (in_client_waiting s Hc), Hm in mi_tracked0.
Qed.

Lemma call_inv o next pc s s' b v d m :
  MInv (mkMState s v d m) -> in_client s -> m !! currentThread s = Some pc -> code pc = Sync o next ->
  exec_op o s = Ok (s', b) -> settled (s', view_call (currentThread s) o b v) ->
  MInv (mkMState s' (view_call (currentThread s) o b v) d (<[currentThread s := next]> m)).
Proof.
  intros HI Hc Hm Hcode He HR. pose proof (client_tracked _ _ _ _ _ HI Hc Hm) as Htr.
  pose proof HI as []. simpl in *. 
  assert (valid pc) as Hpc by (by eapply mi_valid0).
  destruct (sync_ok pc o next s) as [_ Hst]; [done..|].
  apply exec_op_shape in He as [Hsh Hg]; [|done|apply Hc]. destruct (ok_sync pc o next Hpc Hcode) as [Hnv Hok].
  pose proof (in_client_waiting s Hc) as Hw. set (t := currentThread s) in *.
  assert (waiting s' t = if b then NoWait else waits_for (blocked o)) as Hw'.
  { destruct b; [by rewrite (waiting_same _ _ _ Hsh)|by eapply waiting_stack]. }
  assert (0 <= count (view_call t o b v)) as Hc0 by (apply (count_nonneg s'); [apply HR|by apply Hg]).
  apply (MInv_move t s v d m); try done; rewrite ?lookup_insert_eq, ?Hw', ?Hw, ?Hm; simpl spot.
  1: { intros t' Hne. rewrite lookup_insert_ne by done. split_and!; [done|by apply view_call_other|left].
    destruct b; [by apply waiting_same|by eapply waiting_stack_ne]. }
  1: { intros t' Ht'. assert (threadToBeDestroyed s = Some t') as Hd
      by (destruct b; [by rewrite <-(destroyed_same _ _ Hsh)|by rewrite <-(destroyed_stack _ _ _ _ Hsh)]).
    apply mi_end0 in Hd as Hwe. assert (t' <> t) by (intros ->; congruence).
    rewrite <-Hwe. destruct b; [by apply waiting_same|by eapply waiting_stack_ne]. }
  2: { by intros ? [= <-]. }
  all: destruct o as [i|i|l|l|c [l|]|c [l|]|c [l|]| |t'|t'|]; simpl in Hok; try done; destruct_and? Hok; subst.
  all: revert Hc0; destruct b; cbn [view_call blocked tracked]; unfold waits_for; simpl;
    rewrite ?holder_hold_self, ?holder_unhold_self, ?count_add, ?count_hold, ?count_unhold, ?decide_True by done.
  all: intros Hc0; try (replace (count v + -1) with (count v - 1) in * by lia;
    assert (0 < count v) by lia); clear Hc0; try tauto.
  all: clear mi_valid0 mi_tracked0 mi_nobody0 mi_inside0 mi_end0 mi_reach0 mi_sem0 mi_lock0 mi_cond0 HI HR Hsh Hg Hw Hw' Hc Hm;
    rewrite ?holder_add; intuition (congruence || eauto).
Qed.

Lemma mstep_MInv x x' : MInv x -> mstep garbage x x' -> MInv x'.
Proof.
  intros HI Hst. pose proof (mstep_reach x x' HI Hst) as HR. destruct Hst; simpl in HR.
  - by apply (outside_inv o s s' b).
  - by eapply preempt_inv.
  - by eapply resume_step_inv.
  - apply switches_dispatch in H0 as [? ?]. by apply (MInv_flat s v d m).
  - apply handler_V_keeps in H2 as (? & _ & ?). apply (MInv_flat s v d m); try done.
    intros w. by rewrite count_add, decide_False.
  - apply handler_V_keeps in H1 as (? & _ & ?). apply (MInv_flat s v d m); try done.
    intros w. rewrite count_add, decide_True by done. by apply ok_irq.
  - apply (MInv_flat s v d m); try done. intros w. by apply ok_env.
  - assert (i <> m_sem) by (intros ->; destruct (mi_sem _ HI) as [? E]; simpl in E; congruence).
    apply (MInv_flat s v d m); try done.
    + split; simpl; [apply insert_grows|done|done].
    + intros w. unfold count. simpl. by rewrite lookup_insert_ne.
  - apply (MInv_flat s v d m); try done. split; simpl; [done|apply insert_grows|done].
  - apply (MInv_flat s v d m); try done. split; simpl; [done|done|apply insert_grows].
  - pose proof (mi_tracked _ HI (currentThread s)) as Htr. simpl in Htr. rewrite H0 in Htr. destruct Htr as (Hnh & _).
    apply (MInv_local s v d m); rewrite ?lookup_insert_eq; try done.
    + intros t Ht. by rewrite lookup_insert_ne.
    + simpl. rewrite (proj2 (ok_entry pc H1)). split; [tauto|done].
    + intros ? [= <-]. exact (proj1 (ok_entry pc H1)).
  - by eapply call_inv.
  - pose proof (client_tracked _ _ _ _ _ HI H H0) as Htr. assert (valid pc) as Hpc by (by eapply (mi_valid _ HI)). pose proof (ok_plain pc f Hpc H1) as Hok.
    assert (holds pc = true -> J (At pc) d (count v)) as HJ.
    { intros Hp. pose proof (mi_inside _ HI (currentThread s)) as HJ. simpl in HJ.
      rewrite H0, (in_client_waiting s H) in HJ. apply HJ. by apply Htr. }
    apply (MInv_local s v d m); rewrite ?lookup_insert_eq; try done.
    + intros t Ht. by rewrite lookup_insert_ne.
    + simpl. rewrite Htr. destruct (holds pc) eqn:Hp.
      * destruct (Hok _ _ (HJ eq_refl)) as (? & n & E & _ & Hn & _). assert (next = n) as -> by congruence. by rewrite Hn.
      * destruct (Hok d) as (n & E & _ & Hn). assert (next = n) as -> by congruence. by rewrite Hn.
    + intros ? [= <-]. destruct (holds pc) eqn:Hp.
      * destruct (Hok _ _ (HJ eq_refl)) as (? & n & E & Hn & _). by assert (next = n) as -> by congruence.
      * destruct (Hok d) as (n & E & Hn & _). by assert (next = n) as -> by congruence.
    + intros Hn. rewrite Htr in Hn. apply not_true_is_false in Hn. rewrite Hn in Hok.
      destruct (Hok d) as (? & E & _). congruence.
    + rewrite H0, Htr. intros Hp HJ2. rewrite Hp in Hok. destruct (Hok _ _ HJ2) as (d2 & n2 & E & _ & _ & HJ3).
      simpl. congruence.
  - pose proof (client_tracked _ _ _ _ _ HI H H0) as Htr. rewrite (ok_return pc) in Htr; [|by eapply (mi_valid _ HI)|done].
    assert (~ holder v (currentThread s)) by (rewrite Htr; done).
    apply (MInv_local s v d m); rewrite ?lookup_delete_eq; try done.
    intros t Ht. by rewrite lookup_delete_ne.
Qed.

(** *** The start *)

Lemma mstart_reachable main gwait d :
  reachable (m_sys (mstart main garbage gwait d), m_view (mstart main garbage gwait d)).
Proof.
  exists main.
  eapply rtc_l; [apply (step_new_sem m_sem 0); [|done|done]|].
  { split_and!; [done|done|]. exists (mkThread RUNNING []). split; [apply lookup_singleton_eq|done]. }
  eapply rtc_l; [apply (step_new_lock m_lock garbage); [|done]|].
  { split_and!; [done|done|]. exists (mkThread RUNNING []). split; [apply lookup_singleton_eq|done]. }
  eapply rtc_l; [apply (step_new_cond m_cond gwait); [|done]|].
  { split_and!; [done|done|]. exists (mkThread RUNNING []). split; [apply lookup_singleton_eq|done]. }
  apply rtc_refl.
Qed.

Lemma mstart_Fresh main gwait d : garbage <> Some main ->
  Fresh (m_sys (mstart main garbage gwait d)) (m_view (mstart main garbage gwait d)).
Proof.
  intros Hg. split; simpl.
  - intros t. destruct garbage as [t'|]; [|set_solver]. intros Ht. f_equal. set_solver.
  - intros t Ht. rewrite lookup_singleton_ne by congruence. split; [done|]. unfold holder. simpl. set_solver.
Qed.

Lemma mstart_MInv main gwait d : garbage <> Some main -> J Nobody d 0 -> MInv (mstart main garbage gwait d).
Proof.
  intros Hg HJ. assert (forall t, waiting (m_sys (mstart main garbage gwait d)) t = NoWait) as Hw.
  { intros t. unfold waiting, stack_of, shape, stacks. simpl. rewrite map_fmap_singleton.
    destruct (decide (t = main)) as [->|]; [by rewrite lookup_singleton_eq|by rewrite lookup_singleton_ne]. }
  split; simpl.
  - split; [apply (mstart_reachable main gwait d)|by apply (mstart_Fresh main gwait d)].
  - rewrite lookup_singleton_eq. by eexists.
  - rewrite lookup_singleton_eq. by eexists.
  - rewrite lookup_singleton_eq. by eexists.
  - intros t pc. by rewrite lookup_empty.
  - intros t. rewrite Hw, lookup_empty. simpl. split_and!; [|done|done]. unfold holder. simpl. set_solver.
  - done.
  - intros _. unfold count. simpl. by rewrite lookup_singleton_eq.
  - intros t Ht. unfold holder in Ht. simpl in Ht. set_solver.
Qed.

End Garbage.

Lemma mreachable_MInv d0 x : J Nobody d0 0 -> mreachable d0 x -> exists garbage, MInv garbage x.
Proof.
  intros HJ (main & garbage & gwait & Hg & H). exists garbage.
  pose proof (mstart_MInv garbage main gwait d0 Hg HJ) as HI. revert HI.
  induction H as [|x y z Hst _ IH]; [done|]. intros HI. apply IH. by eapply mstep_MInv.
Qed.

(** ** What clients of this file use *)

(** The thread inside, when it runs, is where the invariant says. *)
Lemma monitor_at d0 x pc : J Nobody d0 0 -> mreachable d0 x -> in_client (m_sys x) ->
  m_pc x !! currentThread (m_sys x) = Some pc -> holds pc = true -> J (At pc) (m_data x) (count (m_view x)).
Proof.
  intros HJ Hr Hc Hm Hp. destruct (mreachable_MInv d0 x HJ Hr) as [garbage HI]. destruct x as [s v d m]. simpl in *.
  pose proof (client_tracked _ _ _ _ _ _ HI Hc Hm) as Htr.
  pose proof (mi_inside _ _ HI (currentThread s)) as Hin. simpl in Hin.
  rewrite Hm, (in_client_waiting s Hc) in Hin. apply Hin. by apply Htr.
Qed.

(** At every point of the program text the thread can go on: plain code does
    not fail, and a call returns or blocks (only a semaphore can overflow). *)
Lemma monitor_progress d0 x pc : J Nobody d0 0 -> mreachable d0 x -> in_client (m_sys x) ->
  m_pc x !! currentThread (m_sys x) = Some pc ->
  match code pc with
  | Sync o _ => is_Ok (exec_op o (m_sys x)) \/ exec_op o (m_sys x) = Fault UndefinedArith
  | Plain f => exists d' next, f (m_data x) = Ok (d', next)
  | Return => True
  end.
Proof.
  intros HJ Hr Hc Hm. destruct (mreachable_MInv d0 x HJ Hr) as [garbage HI].
  destruct (code pc) as [o next|f|] eqn:Hcode; [| |done].
  - destruct HI. destruct (sync_ok pc o next (m_sys x)) as [Hok _]; try done; [by eapply mi_valid0|].
    pose proof (exec_op_inv o (m_view x) (m_sys x)
      (client_inv _ _ (reachable_Good _ _ (proj1 mi_reach0)) Hc) Hok) as HO.
    unfold outcome in HO. destruct (exec_op o (m_sys x)) as [p|f]; [left; by exists p|right; by subst].
  - pose proof (ok_plain pc f (mi_valid _ _ HI _ _ Hm) Hcode) as Hok. destruct (holds pc) eqn:Hp.
    + destruct (Hok (m_data x) (count (m_view x))) as (d' & n & ? & _); [|by exists d', n].
      by apply (monitor_at d0 x pc).
    + destruct (Hok (m_data x)) as (n & ? & _). by exists (m_data x), n.
Qed.

(** While nobody is inside, the data are as between two routines. *)
Lemma monitor_outside d0 x : J Nobody d0 0 -> mreachable d0 x -> (forall t, ~ holder (m_view x) t) ->
  J Nobody (m_data x) (count (m_view x)).
Proof. intros HJ Hr. destruct (mreachable_MInv d0 x HJ Hr) as [garbage HI]. by apply (mi_nobody _ _ HI). Qed.

Lemma monitor_valid d0 x t pc : J Nobody d0 0 -> mreachable d0 x -> m_pc x !! t = Some pc -> valid pc.
Proof. intros HJ Hr. destruct (mreachable_MInv d0 x HJ Hr) as [garbage HI]. by apply (mi_valid _ _ HI). Qed.

(** Wherever the thread inside is, if there is one, the data satisfy [J]. *)
Lemma monitor_some d0 x : J Nobody d0 0 -> mreachable d0 x -> exists w, J w (m_data x) (count (m_view x)).
Proof.
  intros HJ Hr. destruct (mreachable_MInv d0 x HJ Hr) as [garbage []].
  destruct (decide (set_Exists (fun p => p.2 = m_lock) (held (m_view x)))) as [([t l] & Ht & E)|Hn].
  - simpl in E. subst l. eexists. by apply (mi_inside0 t).
  - exists Nobody. apply mi_nobody0. intros t Ht. apply Hn. by exists (t, m_lock).
Qed.

(** One thread at a time is inside. *)
Lemma monitor_exclusive d0 x t1 t2 pc1 pc2 : J Nobody d0 0 -> mreachable d0 x ->
  m_pc x !! t1 = Some pc1 -> m_pc x !! t2 = Some pc2 -> holds pc1 = true -> holds pc2 = true ->
  waiting (m_sys x) t1 <> WaitLock m_lock -> waiting (m_sys x) t2 <> WaitLock m_lock -> t1 = t2.
Proof.
  intros HJ Hr H1 H2 P1 P2 W1 W2. destruct (mreachable_MInv d0 x HJ Hr) as [garbage []].
  assert (forall t pc, m_pc x !! t = Some pc -> holds pc = true -> waiting (m_sys x) t <> WaitLock m_lock ->
    holder (m_view x) t) as Hh.
  { intros t pc Ht Hp Hw. specialize (mi_tracked0 t). rewrite Ht in mi_tracked0. simpl in mi_tracked0.
    destruct (waiting (m_sys x) t); try tauto. by destruct mi_tracked0 as (-> & _). }
  eapply holder_unique; [exact mi_reach0|by eapply Hh|by eapply Hh].
Qed.

End Safety.

(** ** Runs *)

(** [MStep]: the current thread takes the next step of its routine; the other
    labels are the rules of the same name. *)
Inductive mlabel :=
  | MOutside (o : op) | MPreempt | MResume | MWake | MIrq | MEnter (pc : PC) | MStep.

#[global] Instance foreign_dec garbage o : Decision (foreign garbage o).
Proof. destruct o; simpl; apply _. Defined.

Definition run_mlabel (garbage : option tid) (b : mlabel) (x : MState D PC) : option (MState D PC) :=
  let '(mkMState s v d m) := x in
  let t := currentThread s in
  match b with
  | MOutside o =>
      if in_clientb s && bool_decide (m !! t = None) && bool_decide (foreign garbage o) && bool_decide (op_ok s o) then
        match exec_op o s with Ok (s', b) => Some (mkMState s' (view_call t o b v) d m) | Fault _ => None end
      else None
  | MPreempt =>
      if in_clientb s then
        match exec_op OpYield s with Ok (s', _) => Some (mkMState s' v d m) | Fault _ => None end
      else None
  | MResume =>
      match threads s !! t with
      | Some th =>
          if negb (idle s) && negb (bool_decide (length (frames th) = O)) then
            match resume s with
            | Ok (s', b) => Some (mkMState s' (view_return t (frames th) b v) d m)
            | Fault _ => None
            end
          else None
      | None => None
      end
  | MWake => if idle s then match dispatch s with Ok (s', _) => Some (mkMState s' v d m) | Fault _ => None end else None
  | MIrq =>
      if in_clientb s || idle s then
        match irq d with
        | Some d' =>
            match handler_V m_sem s with
            | Ok (s', _) => Some (mkMState s' (add_credit m_sem 1 v) d' m)
            | Fault _ => None
            end
        | None => None
        end
      else None
  | MEnter pc =>
      if in_clientb s && bool_decide (m !! t = None) then Some (mkMState s v d (<[t := pc]> m)) else None
  | MStep =>
      if in_clientb s then
        match m !! t with
        | Some pc =>
            match code pc with
            | Sync o next =>
                match exec_op o s with
                | Ok (s', b) => Some (mkMState s' (view_call t o b v) d (<[t := next]> m))
                | Fault _ => None
                end
            | Plain f =>
                match f d with Ok (d', next) => Some (mkMState s v d' (<[t := next]> m)) | Fault _ => None end
            | Return => Some (mkMState s v d (delete t m))
            end
        | None => None
        end
      else None
  end.

Fixpoint run_mlabels (garbage : option tid) (bs : list mlabel) (x : MState D PC) : option (MState D PC) :=
  match bs with
  | [] => Some x
  | b :: bs => match run_mlabel garbage b x with Some x' => run_mlabels garbage bs x' | None => None end
  end.

(** The points entered are entry points. *)
Definition enters (b : mlabel) : Prop := match b with MEnter pc => entry pc | _ => True end.

Lemma run_mlabel_step garbage b x x' : enters b -> run_mlabel garbage b x = Some x' -> mstep garbage x x'.
Proof.
  destruct x as [s v d m]. destruct b as [o| | | | |pc|]; simpl; intros Hen.
  - destruct (in_clientb s) eqn:Hc; [|done]. do 3 (case_bool_decide; [|done]). simpl.
    destruct (exec_op o s) as [[s' b]|] eqn:He; [|done]. intros [= <-].
    constructor; try done. by apply in_clientb_spec.
  - destruct (in_clientb s) eqn:Hc; [|done]. destruct (Yield [] s) as [[s' b]|] eqn:He; [|done].
    intros [= <-]. eapply m_preempt; [by apply in_clientb_spec|done].
  - destruct (threads s !! currentThread s) as [th|] eqn:Ht; [|done].
    destruct (idle s) eqn:Hi; [done|]. case_bool_decide as Hf; [done|]. simpl.
    destruct (resume s) as [[s' b]|] eqn:He; [|done]. intros [= <-].
    constructor; try done. intros E. by rewrite E in Hf.
  - destruct (idle s) eqn:Hi; [|done]. destruct (dispatch s) as [[s' []]|] eqn:He; [|done].
    intros [= <-]. by constructor.
  - destruct (in_clientb s || idle s) eqn:Hc; [|done]. destruct (irq d) as [d'|] eqn:Hd; [|done].
    destruct (handler_V m_sem s) as [[s' []]|] eqn:He; [|done]. intros [= <-].
    apply m_irq; try done. apply orb_true_iff in Hc as [Hc|Hc]; [left; by apply in_clientb_spec|by right].
  - destruct (in_clientb s) eqn:Hc; [|done]. case_bool_decide; [|done]. simpl. intros [= <-].
    apply m_enter; try done. by apply in_clientb_spec.
  - destruct (in_clientb s) eqn:Hc; [|done]. apply in_clientb_spec in Hc. destruct (m !! currentThread s) as [pc|] eqn:Hm; [|done].
    destruct (code pc) as [o next|f|] eqn:Hcode.
    + destruct (exec_op o s) as [[s' b]|] eqn:He; [|done]. intros [= <-]. by eapply m_call.
    + destruct (f d) as [[d' next]|] eqn:He; [|done]. intros [= <-]. by eapply m_plain.
    + intros [= <-]. by eapply m_return.
Qed.

Lemma run_mlabels_reachable garbage gwait bs main d x : garbage <> Some main -> Forall enters bs ->
  run_mlabels garbage bs (mstart main garbage gwait d) = Some x -> mreachable d x.
Proof.
  intros Hg Hen H. exists main, garbage, gwait. split; [done|]. revert Hen H. generalize (mstart main garbage gwait d).
  induction bs as [|b bs IH]; simpl; intros x0 Hen H; [by simplify_eq|]. apply Forall_cons in Hen as [? ?].
  destruct (run_mlabel garbage b x0) as [x1|] eqn:Hb; [|done].
  eapply rtc_l; [by eapply run_mlabel_step|by apply IH].
Qed.

(** The state after a run in which no thread ever has the number that the
    lock's memory held: that of a thread
    deleted before the run. *)
Definition mrun (bs : list mlabel) (main : tid) (d : D) : MState D PC :=
  let x := mstart main (Some (main + 100)%nat) None d in
  default x (run_mlabels (Some (main + 100)%nat) bs x).

Lemma mrun_reachable bs main d : Forall enters bs -> mreachable d (mrun bs main d).
Proof.
  intros Hen. unfold mrun. assert (Some (main + 100)%nat <> Some main) as Hg by (intros [=]; lia).
  destruct (run_mlabels _ bs _) as [x|] eqn:Hx.
  - by eapply run_mlabels_reachable.
  - exists main, (Some (main + 100)%nat), None. split; [done|]. apply rtc_refl.
Qed.

End Machine.
