(* ===== verification/Post.v ===== *)
(** * network/post.cc, network/post.h, machine/network.cc: the post office

    Sending wraps a message in a mail header and a packet header and hands it
    to the network; the postal worker takes each packet that arrived, in order,
    and puts the message in the mailbox its header names. The socket is not
    modelled: [Wire] is what is written to it and read from it. A mailbox is the
    list of its messages here; SynchList has the waiting for it, and Drivers the
    pacing of [Send] by the network's interrupts. *)
From S2P Require Import Prelude.

(** [NetworkAddress] and [MailBoxAddress] are ints; lengths are unsigned. *)
Record PacketHeader := mkPacketHeader { pkt_to : Z; pkt_from : Z; pkt_length : Z }.
Record MailHeader := mkMailHeader { mail_to : Z; mail_from : Z; mail_length : Z }.

Definition MaxWireSize : Z := 64.
(** [sizeof] a header of three 4-byte members. *)
Definition sizeof_header : Z := 12.
Definition MaxPacketSize : Z := MaxWireSize - sizeof_header.
Definition MaxMailSize : Z := MaxPacketSize - sizeof_header.

(** A packet in a socket: its header, then the mail header and the data. *)
Record Wire := mkWire { w_pkt : PacketHeader; w_mail : MailHeader; w_data : list Z }.

Record Mail := mkMail { pktHdr : PacketHeader; mailHdr : MailHeader; mdata : list Z }.

(** [bcopy] of [n] bytes out of a buffer. *)
Definition bcopy (src : list Z) (n : Z) : res (list Z) :=
  if decide (0 <= n <= Z.of_nat (length src)) then Ok (take (Z.to_nat n) src) else Fault OutOfBounds.

(** The constructor of [Mail]. *)
Definition Mail_new (pktH : PacketHeader) (mailH : MailHeader) (msgData : list Z) : res Mail :=
  let* _ := ASSERT (bool_decide (mail_length mailH <= MaxMailSize)) in
  let* d := bcopy msgData (mail_length mailH) in
  Ok (mkMail pktH mailH d).

(** [Network::Send], with the device idle: the packet it writes. *)
Definition Network_Send (hdr : PacketHeader) (mailH : MailHeader) (d : list Z) : res Wire :=
  let* _ := ASSERT (bool_decide (pkt_length hdr > 0) && bool_decide (pkt_length hdr <= MaxPacketSize)) in
  Ok (mkWire hdr mailH d).

(** [PostOffice::Send] on an office with [numBoxes] mailboxes. *)
Definition PostOffice_Send (numBoxes : Z) (pktH : PacketHeader) (mailH : MailHeader) (d : list Z) : res Wire :=
  let* _ := ASSERT (bool_decide (mail_length mailH <= MaxMailSize)) in
  let* _ := ASSERT (bool_decide (0 <= mail_to mailH) && bool_decide (mail_to mailH < numBoxes)) in
  let* payload := bcopy d (mail_length mailH) in
  Network_Send (mkPacketHeader (pkt_to pktH) (pkt_from pktH) (mail_length mailH + sizeof_header)) mailH payload.

(** A machine's office: its address, its mailboxes and the packet the network
    device buffers ([inHdr.length <> 0]). *)
Record PostOffice := mkPostOffice {
  netAddr : Z;
  numBoxes : Z;
  boxes : list (list Mail);
  inbox : option Wire
}.

Definition PostOffice_new (addr nBoxes : Z) : PostOffice :=
  mkPostOffice addr nBoxes (replicate (Z.to_nat nBoxes) []) None.

(** [Network::CheckPktAvail] with the packets waiting in the socket: [true]
    when the office is told that a packet arrived. *)
Definition CheckPktAvail (po : PostOffice) (socket : list Wire) : res (PostOffice * list Wire * bool) :=
  match inbox po, socket with
  | Some _, _ => Ok (po, socket, false)
  | None, [] => Ok (po, [], false)
  | None, w :: rest =>
      let* _ := ASSERT (bool_decide (pkt_to (w_pkt w) = netAddr po) &&
                        bool_decide (pkt_length (w_pkt w) <= MaxPacketSize)) in
      Ok (mkPostOffice (netAddr po) (numBoxes po) (boxes po) (Some w), rest, true)
  end.

(** [MailBox::Put] *)
Definition Put (po : PostOffice) (box : Z) (m : Mail) : res PostOffice :=
  let* b := arr_get (boxes po) box in
  let* bs := arr_set (boxes po) box (b ++ [m]) in
  Ok (mkPostOffice (netAddr po) (numBoxes po) bs (inbox po)).

(** One round of the loop of [PostOffice::PostalDelivery]. *)
Definition PostalDelivery (po : PostOffice) : res PostOffice :=
  let* w := deref (inbox po) in
  let po := mkPostOffice (netAddr po) (numBoxes po) (boxes po) None in
  let* _ := ASSERT (bool_decide (0 <= mail_to (w_mail w)) && bool_decide (mail_to (w_mail w) < numBoxes po)) in
  let* _ := ASSERT (bool_decide (mail_length (w_mail w) <= MaxMailSize)) in
  let* m := Mail_new (w_pkt w) (w_mail w) (w_data w) in
  Put po (mail_to (w_mail w)) m.

(** [MailBox::Get] and [PostOffice::Receive]: [None] when the reader waits. *)
Definition Receive (po : PostOffice) (box : Z) : res (PostOffice * option Mail) :=
  let* _ := ASSERT (bool_decide (box >= 0) && bool_decide (box < numBoxes po)) in
  let* b := arr_get (boxes po) box in
  match b with
  | [] => Ok (po, None)
  | m :: b' =>
      let* bs := arr_set (boxes po) box b' in
      let* _ := ASSERT (bool_decide (mail_length (mailHdr m) <= MaxMailSize)) in
      Ok (mkPostOffice (netAddr po) (numBoxes po) bs (inbox po), Some m)
  end.

(** Polling and delivering every packet of a socket, in turn. *)
Fixpoint deliver_all (po : PostOffice) (socket : list Wire) : res PostOffice :=
  match socket with
  | [] => Ok po
  | _ :: rest =>
      let* '(po, _, _) := CheckPktAvail po socket in
      let* po := PostalDelivery po in
      deliver_all po rest
  end.

(** * Lemmas *)

(** The messages sent to one machine, as its mailboxes should show them. *)
Definition to_mail (w : Wire) : Mail := mkMail (w_pkt w) (w_mail w) (w_data w).

(** A packet [PostOffice_Send] can produce. *)
Record legal (n : Z) (w : Wire) : Prop := {
  legal_box : 0 <= mail_to (w_mail w) < n;
  legal_len : 0 <= mail_length (w_mail w) <= MaxMailSize;
  legal_data : Z.of_nat (length (w_data w)) = mail_length (w_mail w);
  legal_pkt : pkt_length (w_pkt w) = mail_length (w_mail w) + sizeof_header
}.

Ltac sizes_lia := unfold MaxMailSize, MaxPacketSize, MaxWireSize, sizeof_header in *; lia.

Lemma Send_legal n pktH mailH d :
  0 <= mail_length mailH -> mail_length mailH <= Z.of_nat (length d) ->
  (mail_length mailH <= MaxMailSize /\ 0 <= mail_to mailH < n) ->
  exists w, PostOffice_Send n pktH mailH d = Ok w /\ legal n w /\
    pkt_to (w_pkt w) = pkt_to pktH /\ pkt_from (w_pkt w) = pkt_from pktH /\
    w_mail w = mailH /\ w_data w = take (Z.to_nat (mail_length mailH)) d.
Proof.
  intros H0 Hd [Hl Hb]. unfold PostOffice_Send.
  rewrite !bool_decide_eq_true_2 by lia. cbn [ASSERT andb rbind]. unfold bcopy.
  rewrite decide_True by lia. cbn [rbind]. unfold Network_Send. cbn [pkt_length].
  rewrite !bool_decide_eq_true_2 by sizes_lia.
  eexists. split; [reflexivity|]. split; [|done].
  split; simpl; try lia. rewrite length_take. lia.
Qed.

Lemma deliver_one po w :
  legal (numBoxes po) w -> pkt_to (w_pkt w) = netAddr po -> inbox po = None ->
  Z.of_nat (length (boxes po)) = numBoxes po ->
  exists po', (let* '(po, _, _) := CheckPktAvail po [w] in PostalDelivery po) = Ok po' /\
    netAddr po' = netAddr po /\ numBoxes po' = numBoxes po /\ inbox po' = None /\
    length (boxes po') = length (boxes po) /\
    forall b, 0 <= b < numBoxes po -> exists q, arr_get (boxes po) b = Ok q /\
      arr_get (boxes po') b = Ok (q ++ if decide (b = mail_to (w_mail w)) then [to_mail w] else []).
Proof.
  intros [Hb Hl Hd Hp] Hto Hin Hlen. unfold CheckPktAvail. rewrite Hin, Hto, Hp.
  rewrite !bool_decide_eq_true_2 by (done || sizes_lia).
  cbn [ASSERT andb rbind]. unfold PostalDelivery. cbn [inbox deref rbind numBoxes netAddr boxes].
  rewrite !bool_decide_eq_true_2 by lia. cbn [ASSERT andb rbind].
  unfold Mail_new. rewrite bool_decide_eq_true_2 by lia. cbn [ASSERT rbind].
  unfold bcopy. rewrite decide_True by lia. cbn [rbind]. unfold Put. cbn [boxes].
  destruct (arr_get_in (boxes po) (mail_to (w_mail w))) as (q & Hq & _); [lia|].
  rewrite Hq. cbn [rbind]. rewrite arr_set_in by lia. cbn [rbind].
  eexists. split; [reflexivity|]. cbn [netAddr numBoxes inbox boxes].
  rewrite length_insert. split_and!; try done.
  intros b Hbb. destruct (arr_get_in (boxes po) b) as (qb & Hqb & _); [lia|].
  exists qb. split; [done|]. apply arr_get_lookup; [lia|]. case_decide as Heq.
  - subst b. rewrite list_lookup_insert_eq by lia. f_equal.
    rewrite firstn_all2 by lia. unfold to_mail. congruence.
  - rewrite list_lookup_insert_ne by lia. rewrite app_nil_r. by apply arr_get_Ok.
Qed.

Lemma deliver_all_boxes ws po :
  Forall (legal (numBoxes po)) ws -> Forall (fun w => pkt_to (w_pkt w) = netAddr po) ws ->
  inbox po = None -> Z.of_nat (length (boxes po)) = numBoxes po ->
  exists po', deliver_all po ws = Ok po' /\ netAddr po' = netAddr po /\ numBoxes po' = numBoxes po /\
    inbox po' = None /\ length (boxes po') = length (boxes po) /\
    forall b, 0 <= b < numBoxes po -> exists q, arr_get (boxes po) b = Ok q /\
      arr_get (boxes po') b =
        Ok (q ++ (to_mail <$> filter (fun w => mail_to (w_mail w) = b) ws)).
Proof.
  revert po. induction ws as [|w ws IH]; intros po Hl Ht Hi Hb; simpl.
  { exists po. split_and!; [done..|]. intros b Hbb. destruct (arr_get_in (boxes po) b) as (q & Hq & _); [lia|].
    exists q. by rewrite app_nil_r. }
  apply Forall_cons in Hl as [Hl Hls]. apply Forall_cons in Ht as [Ht Hts].
  destruct (deliver_one po w Hl Ht Hi Hb) as (po1 & Hd & Hn & Hm & Hi1 & Hlen & Hbox).
  destruct (IH po1) as (po2 & Hd2 & Hn2 & Hm2 & Hi2 & Hlen2 & Hbox2); [by rewrite Hm|by rewrite Hn|done|by rewrite Hlen, Hm|].
  exists po2. split; [|split_and!; try congruence].
  - unfold CheckPktAvail in *. rewrite Hi in *.
    destruct (ASSERT _) as [[]|]; [|done]. cbn [rbind] in *. rewrite Hd. cbn [rbind]. done.
  - intros b Hbb. destruct (Hbox b Hbb) as (q & Hq & Hq1). exists q. split; [done|].
    destruct (Hbox2 b) as (q2 & Hq2 & Hq3); [by rewrite Hm|]. rewrite Hq1 in Hq2. simplify_eq.
    rewrite Hq3, filter_cons. f_equal. rewrite <-app_assoc. f_equal.
    destruct (decide (b = mail_to (w_mail w))) as [->|Hne].
    + by rewrite decide_True.
    + rewrite decide_False by congruence. done.
Qed.

(** * Properties *)

(** the post office delivers what was sent: a message that satisfies the
    ASSERTs of [Send] reaches the mailbox its header names with its headers and
    exactly [mail_length] bytes of data, and the messages of one mailbox keep
    the order in which they were sent. *)
Theorem mail_is_delivered_in_order addr n ms :
  0 <= n ->
  Forall (fun '(pktH, mailH, d) => pkt_to pktH = addr /\
    0 <= mail_length mailH <= MaxMailSize /\ mail_length mailH <= Z.of_nat (length d) /\
    0 <= mail_to mailH < n) ms ->
  exists ws po, Forall2 (fun '(pktH, mailH, d) w => PostOffice_Send n pktH mailH d = Ok w) ms ws /\
    deliver_all (PostOffice_new addr n) ws = Ok po /\
    forall b, 0 <= b < n -> exists q, arr_get (boxes po) b = Ok q /\
      (fun m => (mailHdr m, mdata m)) <$> q =
      (fun m => (m.1.2, take (Z.to_nat (mail_length m.1.2)) m.2)) <$>
        filter (fun m => mail_to m.1.2 = b) ms.
Proof.
  intros Hn Hms.
  assert (exists ws, Forall2 (fun '(pktH, mailH, d) w => PostOffice_Send n pktH mailH d = Ok w) ms ws /\
    Forall (legal n) ws /\ Forall (fun w => pkt_to (w_pkt w) = addr) ws /\
    forall b, (fun w => (w_mail w, w_data w)) <$> filter (fun w => mail_to (w_mail w) = b) ws =
      (fun m => (m.1.2, take (Z.to_nat (mail_length m.1.2)) m.2)) <$> filter (fun m => mail_to m.1.2 = b) ms)
    as (ws & Hs & Hl & Ht & Hf).
  { induction Hms as [|[[pktH mailH] d] ms (Ha & Hl & Hd & Hb) _ (ws & H2 & HF & HT & Hf)].
    { exists []. by split_and!. }
    destruct (Send_legal n pktH mailH d) as (w & Hw & Hlw & Hto & _ & Hm & Hdat); [lia|done|lia|].
    exists (w :: ws). split_and!; [by constructor|by constructor|constructor; [congruence|done]|].
    intros b. rewrite !filter_cons. cbn [fst snd]. rewrite Hm.
    case_decide; csimpl; rewrite Hf; [|done]. by rewrite Hm, Hdat. }
  destruct (deliver_all_boxes ws (PostOffice_new addr n)) as (po & Hd & _ & _ & _ & _ & Hbox); [done|done|done| |].
  { simpl. rewrite length_replicate. lia. }
  exists ws, po. split_and!; [done|done|]. intros b Hb.
  destruct (Hbox b Hb) as (q & Hq & Hq'). eexists. split; [exact Hq'|].
  apply arr_get_Ok in Hq as [_ Hq]. apply lookup_replicate in Hq as [-> _].
  rewrite app_nil_l, <-Hf, <-list_fmap_compose. done.
Qed.

Example mail_is_delivered_in_order_witness :
  exists ws po, Forall2 (fun '(pktH, mailH, d) w => PostOffice_Send 10 pktH mailH d = Ok w)
    [(mkPacketHeader 0 1 0, mkMailHeader 2 5 3, [1; 2; 3; 4])] ws /\
    deliver_all (PostOffice_new 0 10) ws = Ok po.
Proof.
  destruct (mail_is_delivered_in_order 0 10 [(mkPacketHeader 0 1 0, mkMailHeader 2 5 3, [1; 2; 3; 4])])
    as (ws & po & Hs & Hd & _).
  - lia.
  - constructor; [|constructor]. cbn. sizes_lia.
  - exists ws, po. split; [exact Hs|exact Hd].
Defined.
