(* ===== verification/Drivers.v ===== *)
(** * Drivers: one request at a time

    filesys/synchdisk.cc, [SynchConsole::WriteLine] of userprog/synchconsole.cc
    and [PostOffice::Send] of network/post.cc have one shape: take the lock;
    for each request, hand it to the device and wait on the semaphore that the
    device's interrupt handler signals; release the lock. [Device] is what they
    rely on of a device, and the driver is proved once against it, in every
    interleaving of threads, time slices and interrupts. *)
From S2P Require Import Prelude CStrings Machine Threads Monitors Files Disk Post.

(** ** Devices

    [V]: the state of the device; [M]: what it is for, with the effect of a
    request on it. [dev_busy]: the interrupt that ends the request is due. *)
Class Device (V Req Ans M : Type) := {
  dev_request : Req -> V -> res (V * Ans);
  dev_busy : V -> bool;
  dev_done : V -> V;
  dev_env : V -> V -> Prop;
  dev_rep : V -> M -> Prop;
  dev_apply : Req -> M -> M * Ans;
  dev_legal : Req -> Prop
}.

Class DeviceOK (V Req Ans M : Type) `{DV : !Device V Req Ans M} : Prop := {
  dev_request_ok r v m : dev_legal r -> dev_rep v m -> dev_busy v = false ->
    exists v', dev_request r v = Ok (v', (dev_apply r m).2) /\
      dev_rep v' (dev_apply r m).1 /\ dev_busy v' = true;
  dev_done_ok v m : dev_rep v m -> dev_rep (dev_done v) m /\ dev_busy (dev_done v) = false;
  dev_env_ok v v' m : dev_env v v' -> dev_rep v m -> dev_rep v' m /\ dev_busy v' = dev_busy v
}.

Section Driver.
Context {V Req Ans M : Type} `{DV : !Device V Req Ans M}.
Context (lock : lid) (sem : sid) (cond : cid).

(** A routine is the list [args] of its requests; a point carries the requests
    left and those made, with their answers. *)
Inductive dpc :=
  | DStart (args : list Req)
  | DLoop (args todo : list Req) (made : list (Req * Ans))
  | DWait (args todo : list Req) (made : list (Req * Ans))
  | DRelease (args : list Req) (made : list (Req * Ans))
  | DDone (args : list Req) (made : list (Req * Ans)).

(** The device, with the log of what it was asked: the routines that are
    through and the one under way. *)
Record DData := mkDData {
  dev : V;
  through : list (list (Req * Ans));
  under_way : list (Req * Ans)
}.

Definition driver_code (pc : dpc) : action DData dpc :=
  match pc with
  | DStart args => Sync (OpAcquire lock) (DLoop args args [])
  | DLoop args [] made => Plain (fun d => Ok (mkDData (dev d) (through d ++ [made]) [], DRelease args made))
  | DLoop args (r :: todo) made => Plain (fun d =>
      let* '(v, a) := dev_request r (dev d) in
      Ok (mkDData v (through d) (made ++ [(r, a)]), DWait args todo (made ++ [(r, a)])))
  | DWait args todo made => Sync (OpP sem) (DLoop args todo made)
  | DRelease args made => Sync (OpRelease lock) (DDone args made)
  | DDone _ _ => Return
  end.

#[local] Instance driver : Monitor DData dpc := {|
  m_lock := lock;
  m_sem := sem;
  m_cond := cond;
  code := driver_code;
  entry pc := match pc with DStart args => Forall dev_legal args | _ => False end;
  env d d' := exists v, dev_env (dev d) v /\ d' = mkDData v (through d) (under_way d);
  irq d := if dev_busy (dev d) then Some (mkDData (dev_done (dev d)) (through d) (under_way d)) else None
|}.

(** The answers [l] are those of the requests made one after the other from [m]. *)
Fixpoint answered (m : M) (l : list (Req * Ans)) (m' : M) : Prop :=
  match l with
  | [] => m' = m
  | (r, a) :: l => a = (dev_apply r m).2 /\ answered (dev_apply r m).1 l m'
  end.

Lemma answered_app m1 l1 l2 m3 :
  answered m1 (l1 ++ l2) m3 <-> exists m2, answered m1 l1 m2 /\ answered m2 l2 m3.
Proof.
  revert m1. induction l1 as [|[r a] l1 IH]; intros m1; simpl; [naive_solver|]. rewrite IH. naive_solver.
Qed.

Definition driver_valid (pc : dpc) : Prop :=
  match pc with
  | DStart args => Forall dev_legal args
  | DLoop args todo made | DWait args todo made => Forall dev_legal todo /\ args = made.*1 ++ todo
  | DRelease args made | DDone args made => args = made.*1
  end.
Definition driver_holds (pc : dpc) : bool :=
  match pc with DLoop _ _ _ | DWait _ _ _ | DRelease _ _ => true | _ => false end.

(** The device is what its log says. *)
Definition logged (m0 : M) (d : DData) : Prop :=
  exists m, answered m0 (concat (through d) ++ under_way d) m /\ dev_rep (dev d) m.

Definition driver_J (m0 : M) (w : where_) (d : DData) (c : Z) : Prop :=
  logged m0 d /\
  match w with
  | Nobody => under_way d = [] /\ dev_busy (dev d) = false /\ c = 0
  | At (DLoop _ _ made) => under_way d = made /\ dev_busy (dev d) = false /\ c = 0
  | At (DWait _ _ made) | InP (DLoop _ _ made) =>
      under_way d = made /\ c = if dev_busy (dev d) then 0 else 1
  | At (DRelease _ made) => under_way d = [] /\ dev_busy (dev d) = false /\ c = 0 /\ last (through d) = Some made
  | _ => False
  end.

Context `{DK : !DeviceOK V Req Ans M}.

#[local] Instance driver_ok m0 : MonitorOK driver_valid driver_holds (driver_J m0).
Proof.
  split.
  - by intros [] H.
  - intros [args|args [|r todo] made|args todo made|args made|args made] o next; simpl; intros Hv;
      intros [= <- <-]; simpl; unfold driver_J.
    + split_and!; try done; naive_solver.
    + split_and!; try done; try apply Hv. intros d c Hc (? & ? & E).
      split_and!; try done; destruct (dev_busy (dev d)); (lia || done).
    + split_and!; try done; naive_solver.
  - intros [args|args [|r todo] made|args todo made|args made|args made] f; simpl; intros Hv; intros [= <-];
      unfold driver_J.
    + intros d c ((m & Ha & Hr) & Hu & Hb & ->). eexists _, _. split; [done|]. destruct Hv as [_ Hv]. rewrite app_nil_r in Hv. split_and!; try done; simpl.
      * exists m. split; [|done]. cbn [through under_way]. rewrite concat_app. simpl. by rewrite !app_nil_r, <-Hu.
      * by rewrite last_snoc.
    + intros d c ((m & Ha & Hr) & Hu & Hb & ->). destruct Hv as [[Hl Hv]%Forall_cons ->].
      destruct (dev_request_ok r (dev d) m Hl Hr Hb) as (v & -> & Hr' & Hb'). cbn [rbind].
      eexists _, _. split; [done|]. split_and!; try done; simpl; [by rewrite fmap_app, <-app_assoc| |by rewrite Hb'].
      exists (dev_apply r m).1. split; [|done]. cbn [through under_way]. rewrite app_assoc. apply answered_app. exists m.
      by rewrite <-Hu.
  - by intros [?|? [|??] ?|? ? ?|? ?|? ?] Hv H.
  - intros w d d' c (v & He & ->) [(m & Ha & Hr) HJ].
    destruct (dev_env_ok _ _ _ He Hr) as [Hr' Hb]. split; [by exists m|].
    destruct w as [|[]|[]]; simpl; by rewrite ?Hb.
  - intros w d d' c Hi [(m & Ha & Hr) HJ]. simpl in Hi. destruct (dev_busy (dev d)) eqn:Hb; [|done].
    injection Hi as <-. destruct (dev_done_ok _ _ Hr) as [Hr' Hb']. split; [by exists m|].
    destruct w as [|[]|[]]; simpl; try naive_solver; destruct HJ as [? ->]; by rewrite Hb'.
Qed.

(** *** What holds of every driver *)

Definition driver_start (v : V) : DData := mkDData v [] [].

Lemma driver_start_J v m0 : dev_rep v m0 -> dev_busy v = false -> driver_J m0 Nobody (driver_start v) 0.
Proof. intros Hr Hb. split; [by exists m0|done]. Qed.

Lemma driver_logged v m0 x : dev_rep v m0 -> dev_busy v = false -> mreachable (driver_start v) x -> logged m0 (m_data x).
Proof.
  intros Hr Hb Hx.
  destruct (monitor_some driver_valid driver_holds (driver_J m0) _ x (driver_start_J v m0 Hr Hb) Hx) as [w Hw].
  apply Hw.
Qed.

(** The thread inside: its requests never find the device busy, and when it is
    about to release the lock its own answers are the last of the log. *)
Lemma driver_inside v m0 x pc : dev_rep v m0 -> dev_busy v = false -> mreachable (driver_start v) x ->
  in_client (m_sys x) -> m_pc x !! currentThread (m_sys x) = Some pc ->
  match pc with
  | DLoop _ (r :: _) _ => dev_busy (dev (m_data x)) = false /\ is_Ok (dev_request r (dev (m_data x)))
  | DRelease args made =>
      dev_busy (dev (m_data x)) = false /\ args = made.*1 /\ last (through (m_data x)) = Some made /\
      under_way (m_data x) = []
  | _ => True
  end.
Proof.
  intros Hr Hb Hx Hc Hm. pose proof (driver_start_J v m0 Hr Hb) as HJ.
  pose proof (monitor_progress driver_valid driver_holds (driver_J m0) _ x pc HJ Hx Hc Hm) as Hp.
  pose proof (monitor_at driver_valid driver_holds (driver_J m0) _ x pc HJ Hx Hc Hm) as Hat.
  pose proof (monitor_valid driver_valid driver_holds (driver_J m0) _ x _ pc HJ Hx Hm) as Hv.
  destruct pc as [args|args [|r todo] made|args todo made|args made|args made]; try done.
  - destruct (Hat eq_refl) as (_ & _ & ? & _). split; [done|]. simpl in Hp. destruct Hp as (d' & next & Hp).
    destruct (dev_request r (dev (m_data x))) as [p|]; [by exists p|done].
  - by destruct (Hat eq_refl) as (_ & ? & ? & _ & ?).
Qed.

(** The threads that wait for the device or run inside are at most one. *)
Lemma driver_exclusive v m0 x t1 t2 pc1 pc2 : dev_rep v m0 -> dev_busy v = false -> mreachable (driver_start v) x ->
  m_pc x !! t1 = Some pc1 -> m_pc x !! t2 = Some pc2 -> driver_holds pc1 = true -> driver_holds pc2 = true ->
  waiting (m_sys x) t1 <> WaitLock lock -> waiting (m_sys x) t2 <> WaitLock lock -> t1 = t2.
Proof.
  intros Hr Hb Hx. exact (monitor_exclusive driver_valid driver_holds (driver_J m0)
    (driver_start v) x t1 t2 pc1 pc2 (driver_start_J v m0 Hr Hb) Hx).
Qed.

End Driver.
Arguments dpc : clear implicits.
Arguments DData : clear implicits.

(** ** SynchDisk *)

Section SynchDisk.
Context {F : Type} `{UF : !UnixFile F} `{HO : HostOrder}.

(** The disk and [stats->totalTicks]. *)
Record DiskDev := mkDiskDev { dd_disk : Disk F; dd_now : Z }.

#[export] Instance disk_device : Device DiskDev request (list Z) disk := {|
  dev_request r v := let* '(d, a, _) := issue (dd_now v) r (dd_disk v) in Ok (mkDiskDev d (dd_now v), a);
  dev_busy v := active (dd_disk v);
  dev_done v := mkDiskDev (HandleInterrupt (dd_disk v)) (dd_now v);
  dev_env v v' := dd_disk v' = dd_disk v /\ dd_now v <= dd_now v';
  dev_rep v m := disk_ok (dd_disk v) m;
  dev_apply r m :=
    match r with Rd n => (m, sector m n) | Wr n data => (<[n := data]> m, []) end;
  dev_legal r := request_ok r /\ on_disk (request_sector r)
|}.

(** [dev_apply] is [Files.ReadSector] and [Files.WriteSector] on their domain. *)
Lemma disk_apply_spec r m : on_disk (request_sector r) -> spec_request r m = Ok (dev_apply r m).
Proof.
  intros Hn. destruct r; cbn [spec_request request_sector] in *; unfold ReadSector, WriteSector, on_disk in *;
    by rewrite !bool_decide_eq_true_2 by lia.
Qed.

#[export] Instance disk_device_ok : DeviceOK DiskDev request (list Z) disk.
Proof.
  split.
  - intros r [d now] m [Hr Hn] Hrep Hb. cbn [dev_request dev_rep dev_busy disk_device dd_disk dd_now] in *.
    pose proof (issue_idle now r d m Hrep Hb Hr) as Hi. rewrite (disk_apply_spec r m Hn) in Hi.
    destruct (dev_apply r m) as [m' a]. destruct Hi as (d' & -> & ? & ?). by eexists.
  - intros [d now] m [? ?]. by split.
  - intros [d now] [d' now'] m [E _]. simpl in *. by subst.
Qed.

(** [SynchDisk::ReadSector] and [WriteSector]; the constructor makes the lock,
    the semaphore and the disk. *)
Definition ReadSector_routine (n : Z) : dpc request (list Z) := DStart [Rd n].
Definition WriteSector_routine (n : Z) (data : list Z) : dpc request (list Z) := DStart [Wr n data].
Definition SynchDisk_new (file : option F) : res (DData DiskDev request (list Z)) :=
  let* d := Disk_new file in Ok (driver_start (mkDiskDev d 0)).

End SynchDisk.
Arguments DiskDev : clear implicits.

(** ** Console output *)

(** machine/console.cc. [keyboard]: the characters of the host's file that were
    not read; [display]: those written. [putBusy] is set exactly while the write
    interrupt is due. [EOF] is -1, and [char] is signed. *)
Record Console := mkConsole { putBusy : bool; display : list Z; incoming : Z; keyboard : list Z }.

Definition EOF : Z := -1.

Definition Console_new (typed : list Z) : Console := mkConsole false [] EOF typed.

Definition PutChar (ch : Z) (k : Console) : res Console :=
  let* _ := ASSERT (bool_decide (putBusy k = false)) in
  Ok (mkConsole true (display k ++ [ch]) (incoming k) (keyboard k)).

(** [Console::WriteDone], up to the call of the handler. *)
Definition WriteDone (k : Console) : Console := mkConsole false (display k) (incoming k) (keyboard k).

Definition GetChar (k : Console) : Console * Z :=
  (mkConsole (putBusy k) (display k) EOF (keyboard k), incoming k).

(** [true]: the handler is called. The poll itself is due for ever. *)
Definition CheckCharAvail (k : Console) : Console * bool :=
  match keyboard k with
  | c :: rest =>
      if bool_decide (incoming k <> EOF) then (k, false)
      else (mkConsole (putBusy k) (display k) (i8 c) rest, true)
  | [] => (k, false)
  end.

(** The output half as a device; the input half changes on its own. *)
#[export] Instance console_device : Device Console Z unit (list Z) := {|
  dev_request ch k := let* k := PutChar ch k in Ok (k, tt);
  dev_busy := putBusy;
  dev_done := WriteDone;
  dev_env k k' := putBusy k' = putBusy k /\ display k' = display k;
  dev_rep k out := display k = out;
  dev_apply ch out := (out ++ [ch], tt);
  dev_legal _ := True
|}.

#[export] Instance console_device_ok : DeviceOK Console Z unit (list Z).
Proof.
  split.
  - intros ch k out _ Hr Hb. simpl in *. unfold PutChar. rewrite bool_decide_eq_true_2 by done. cbn [ASSERT rbind].
    eexists. split; [reflexivity|]. by rewrite Hr.
  - done.
  - intros k k' out [? ?]. simpl. by intros <-.
Qed.

(** [SynchConsole::WriteLine] *)
Definition WriteLine_routine (line : list Z) : dpc Z unit := DStart line.

Lemma fst_concat {A B} (ls : list (list (A * B))) : (concat ls).*1 = concat ((fun l : list (A * B) => l.*1) <$> ls).
Proof. induction ls as [|l ls IH]; [done|]. csimpl. by rewrite fmap_app, IH. Qed.

(** The characters of the answers to [PutChar]. *)
Lemma console_answered out l out' : answered out l out' -> out' = out ++ l.*1.
Proof.
  revert out. induction l as [|[c []] l IH]; simpl; intros out; [intros ->; by rewrite app_nil_r|].
  intros [_ ->%IH]. by rewrite <-app_assoc.
Qed.

(** ** Sending packets *)

(** machine/network.cc. [lost] and [accepts]: the outcomes of [Random() % 100 >=
    chanceToWork * 100] and of [SendToSocket] at the n-th call of [Send].
    [pending]: scheduled send interrupts. [sendBusy] is never set. *)
Record NetDev := mkNetDev { sendBusy : bool; pending : nat; sends : nat; wire : list Wire }.

Section Network.
Context (lost accepts : nat -> bool).

Definition Send (w : Wire) (v : NetDev) : res (NetDev * bool) :=
  let* _ := ASSERT (bool_decide (sendBusy v = false) && bool_decide (pkt_length (w_pkt w) > 0) &&
                    bool_decide (pkt_length (w_pkt w) <= MaxPacketSize)) in
  let k := sends v in
  if lost k then Ok (mkNetDev (sendBusy v) (S (pending v)) (S k) (wire v), true)
  else if accepts k then Ok (mkNetDev (sendBusy v) (S (pending v)) (S k) (wire v ++ [w]), true)
  else Ok (mkNetDev (sendBusy v) (S (pending v)) (S k) (wire v), false).

Definition SendDone (v : NetDev) : NetDev := mkNetDev false (pred (pending v)) (sends v) (wire v).

(** The packets that went out, and the number of calls. *)
#[export] Instance net_device : Device NetDev Wire bool (nat * list Wire) := {|
  dev_request := Send;
  dev_busy v := negb (bool_decide (pending v = O));
  dev_done := SendDone;
  dev_env v v' := v' = v;
  dev_rep v m := sendBusy v = false /\ (pending v <= 1)%nat /\ m = (sends v, wire v);
  dev_apply w m :=
    ((S m.1, if lost m.1 then m.2 else if accepts m.1 then m.2 ++ [w] else m.2),
     lost m.1 || accepts m.1);
  dev_legal w := 0 < pkt_length (w_pkt w) <= MaxPacketSize
|}.

#[export] Instance net_device_ok : DeviceOK NetDev Wire bool (nat * list Wire).
Proof.
  split.
  - intros w v m Hl (Hs & Hp & ->) Hb. cbn [dev_legal dev_busy dev_request dev_rep dev_apply net_device] in *.
    rewrite negb_false_iff, bool_decide_eq_true in Hb. unfold Send. rewrite Hs, Hb.
    rewrite !bool_decide_eq_true_2 by (done || lia). cbn [andb ASSERT rbind fst snd].
    destruct (lost (sends v)); [|destruct (accepts (sends v))]; eexists; (split; [reflexivity|]); split_and!;
      simpl; (done || lia).
  - intros v m (Hs & Hp & ->). simpl. split_and!; [done|lia|done|].
    rewrite negb_false_iff, bool_decide_eq_true. lia.
  - intros v v' m ->. done.
Qed.

(** What is on the wire after the calls [l], from call number [k] on. *)
Lemma net_answered l k out m' : answered (DV := net_device) (k, out) l m' ->
  m'.1 = (k + length l)%nat /\
  m'.2 = out ++ ((fst ∘ snd) <$> filter (fun p => lost p.1 = false /\ accepts p.1 = true) (zip (seq k (length l)) l)).
Proof.
  revert k out. induction l as [|[w b] l IH]; intros k out; simpl.
  - intros ->. by rewrite Nat.add_0_r, app_nil_r.
  - intros (_ & [E1 E2]%IH). split; [lia|]. rewrite E2, filter_cons. simpl.
    destruct (lost k) eqn:Hl; [by rewrite decide_False by (intros [??]; congruence)|].
    destruct (accepts k) eqn:Hac; [|by rewrite decide_False by (intros [??]; congruence)].
    rewrite decide_True by done. simpl. by rewrite <-app_assoc.
Qed.

(** [PostOffice::Send]: the checks and the concatenation are [PostOffice_Send]
    of [Post], before the lock is taken. *)
Definition PostSend_routine (numBoxes : Z) (pktH : PacketHeader) (mailH : MailHeader) (d : list Z) : res (dpc Wire bool) :=
  let* w := PostOffice_Send numBoxes pktH mailH d in Ok (DStart [w]).

Lemma PostSend_legal n pktH mailH d w : 0 <= mail_length mailH ->
  PostOffice_Send n pktH mailH d = Ok w -> dev_legal w.
Proof.
  unfold PostOffice_Send. intros H0. destruct (ASSERT _) as [[]|]; [cbn [rbind]|done].
  destruct (ASSERT _) as [[]|]; [cbn [rbind]|done]. destruct (bcopy _ _) as [p|]; [cbn [rbind]|done].
  unfold Network_Send. destruct (bool_decide _) eqn:E1; [|done]. destruct (bool_decide (pkt_length _ <= _)) eqn:E2; [|done].
  cbn [andb ASSERT rbind]. intros [= <-]. rewrite bool_decide_eq_true in E1, E2. simpl in *. lia.
Qed.
End Network.

(** * Properties

    In all of them [x] is any state that threads, time slices and device
    interrupts reach, with [lock], [sem] and [cond] the objects of the driver. *)

(** C5: threads that use the disk through [SynchDisk] see one array of sectors.
    The requests the disk served, in the order it served them, got the answers
    of [Files.ReadSector] and [WriteSector] from the sectors the disk began
    with, and the disk file holds the sectors they leave; a request never finds
    the disk active and never stops at an ASSERT; and when a routine gives the
    lock back, the disk is idle and its own requests are the last ones served.
    It holds whatever the constructors leave in the pointers they do not
    initialise, but for the address of a thread in the owner of a new lock
    (see [Threads.stale_lock_admits_two_threads]). *)
Theorem SynchDisk_serializes lock sem cond {F} `{UF : !UnixFile F} `{HO : HostOrder}
    (file : option F) m0 d0 (x : MState (DData (DiskDev F) request (list Z)) (dpc request (list Z))) :
  match file with Some f => holds_sectors f m0 | None => m0 = ∅ end ->
  SynchDisk_new file = Ok d0 ->
  mreachable (M := driver (DV := disk_device) lock sem cond) d0 x ->
  (exists m, answered (DV := disk_device) m0 (concat (through (m_data x)) ++ under_way (m_data x)) m /\
     holds_sectors (image (dd_disk (dev (m_data x)))) m) /\
  forall pc, in_client (m_sys x) -> m_pc x !! currentThread (m_sys x) = Some pc ->
    match pc with
    | DLoop _ (r :: _) _ =>
        active (dd_disk (dev (m_data x))) = false /\
        is_Ok (dev_request (Device := disk_device) r (dev (m_data x)))
    | DRelease args made =>
        active (dd_disk (dev (m_data x))) = false /\ args = made.*1 /\
        last (through (m_data x)) = Some made /\ under_way (m_data x) = []
    | _ => True
    end.
Proof.
  intros Hf Hd Hx. destruct (Disk_new_ok file m0 Hf) as (d & Hn & Him & Ha & Hl & _).
  unfold SynchDisk_new in Hd. rewrite Hn in Hd. cbn [rbind] in Hd. injection Hd as <-.
  assert (disk_ok d m0) as Hok by (split; [done|rewrite Hl; unfold on_disk, NumSectors; lia]).
  split.
  - destruct (driver_logged (DV := disk_device) lock sem cond (mkDiskDev d 0) m0 x Hok Ha Hx) as (m & ? & [? _]).
    by exists m.
  - intros pc. by apply (driver_inside (DV := disk_device) lock sem cond (mkDiskDev d 0) m0 x pc).
Qed.

(** C26: lines written by different threads do not mix. The display shows the
    lines of the finished calls of [WriteLine], each whole and contiguous, in
    the order they finished, then what the call under way has written; the
    ASSERT of [PutChar] never fails; and when a call gives the lock back, its
    line is the last one on the display.
    It holds whatever the constructors leave in the pointers they do not
    initialise, but for the address of a thread in the owner of a new lock
    (see [Threads.stale_lock_admits_two_threads]). *)
Theorem WriteLine_lines_are_whole lock sem cond typed (x : MState (DData Console Z unit) (dpc Z unit)) :
  mreachable (M := driver (DV := console_device) lock sem cond) (driver_start (Console_new typed)) x ->
  display (dev (m_data x)) = concat ((fun made => made.*1) <$> through (m_data x)) ++ (under_way (m_data x)).*1 /\
  forall pc, in_client (m_sys x) -> m_pc x !! currentThread (m_sys x) = Some pc ->
    match pc with
    | DLoop _ (ch :: _) _ => is_Ok (PutChar ch (dev (m_data x)))
    | DRelease line _ => putBusy (dev (m_data x)) = false /\ under_way (m_data x) = [] /\
        exists made, last (through (m_data x)) = Some made /\ line = made.*1
    | _ => True
    end.
Proof.
  intros Hx. split.
  - destruct (driver_logged (DV := console_device) lock sem cond (Console_new typed) [] x eq_refl eq_refl Hx)
      as (out & Ha & Hr). simpl in Hr. rewrite Hr. apply console_answered in Ha. rewrite Ha. simpl.
    by rewrite fmap_app, fst_concat.
  - intros pc Hc Hm.
    pose proof (driver_inside (DV := console_device) lock sem cond (Console_new typed) [] x pc eq_refl eq_refl Hx Hc Hm) as H.
    destruct pc as [|args [|ch todo] made| |args made|]; try done.
    + destruct H as [_ H]. simpl in H. by destruct (PutChar ch _) as [k|]; [exists k|destruct H].
    + destruct H as (? & ? & ? & ?). split_and!; try done. by exists made.
Qed.

(** [PostOffice::Send] from several threads puts whole packets on the
    network one after the other: the wire carries, in the order of the calls of
    [Network::Send], those that were neither lost nor refused, a second send
    interrupt is never scheduled while one is due, and no ASSERT of
    [Network::Send] fails. *)
Theorem PostOffice_Send_serializes lock sem cond lost accepts
    (x : MState (DData NetDev Wire bool) (dpc Wire bool)) :
  mreachable (M := driver (DV := net_device lost accepts) lock sem cond) (driver_start (mkNetDev false 0 0 [])) x ->
  let sent := concat (through (m_data x)) ++ under_way (m_data x) in
  sends (dev (m_data x)) = length sent /\
  wire (dev (m_data x)) = (fst ∘ snd) <$> filter (fun p => lost p.1 = false /\ accepts p.1 = true) (zip (seq 0 (length sent)) sent) /\
  (pending (dev (m_data x)) <= 1)%nat /\
  forall pc, in_client (m_sys x) -> m_pc x !! currentThread (m_sys x) = Some pc ->
    match pc with
    | DLoop _ (w :: _) _ => is_Ok (Send lost accepts w (dev (m_data x)))
    | DRelease args made => args = made.*1 /\ pending (dev (m_data x)) = O /\ last (through (m_data x)) = Some made
    | _ => True
    end.
Proof.
  intros Hx. set (DV := net_device lost accepts). set (v0 := mkNetDev false 0 0 []).
  assert (dev_rep (Device := DV) v0 (O, [])) as H0 by (split_and!; simpl; (done || lia)).
  destruct (driver_logged lock sem cond v0 (O, []) x H0 eq_refl Hx) as ([k out] & Ha & Hs & Hp & [= -> ->]).
  cbv zeta. apply (net_answered lost accepts) in Ha as [Hk Hw]. simpl in Hk, Hw.
  split_and!; [lia|by rewrite Hw|done|]. intros pc Hc Hm.
  pose proof (driver_inside lock sem cond v0 (O, []) x pc H0 eq_refl Hx Hc Hm) as H.
  destruct pc as [|args [|ch todo] made| |args made|]; try done; [by apply H|].
  destruct H as (Hb & ? & ? & _). split_and!; try done.
  simpl in Hb. by rewrite negb_false_iff, bool_decide_eq_true in Hb.
Qed.

(** ** Concrete schedules *)

(** Thread 0 takes the lock with routine [r0], is preempted by thread 1, which
    blocks on the lock with [r1]; then thread 0 runs [more]. *)
Definition contend {Req Ans} (r0 r1 : list Req) (more : list (mlabel (PC := dpc Req Ans))) : list mlabel :=
  [MOutside (OpNew 1); MOutside (OpFork 1); MEnter (DStart r0); MStep; MPreempt; MResume;
   MEnter (DStart r1); MStep; MResume] ++ more.

Lemma contend_enters {V Req Ans M} `{DV : !Device V Req Ans M} lock sem cond (r0 r1 : list Req) more :
  Forall dev_legal r0 -> Forall dev_legal r1 -> Forall (enters (M := driver lock sem cond)) more ->
  Forall (enters (M := driver lock sem cond)) (contend r0 r1 more).
Proof. intros H0 H1 Hm. unfold contend. repeat constructor; done. Qed.

Definition disk_run : MState (DData (DiskDev (list Z)) request (list Z)) (dpc request (list Z)) :=
  mrun (M := driver (DV := disk_device) 0 0 0) (contend [Rd 5] [Wr 5 (replicate 128 7)] []) 0
    (default (driver_start (mkDiskDev (mkDisk [] true 0 0) 0))
       (match SynchDisk_new (F := list Z) None with Ok d => Some d | Fault _ => None end)).

Lemma disk_run_reachable d0 : SynchDisk_new None = Ok d0 ->
  mreachable (M := driver (DV := disk_device) 0 0 0) d0 disk_run.
Proof.
  intros Hd. unfold disk_run. rewrite Hd. cbn [default]. apply mrun_reachable. apply contend_enters.
  - constructor; [|constructor]. split; [exact I|]. unfold on_disk, NumSectors. cbn. lia.
  - constructor; [|constructor]. split; [reflexivity|]. unfold on_disk, NumSectors. cbn. lia.
  - constructor.
Qed.

Example SynchDisk_serializes_witness :
  exists d0, SynchDisk_new (F := list Z) None = Ok d0 /\
    active (dd_disk (dev (m_data disk_run))) = false /\
    is_Ok (dev_request (Device := disk_device) (Rd 5) (dev (m_data disk_run))).
Proof.
  destruct (Disk_new_ok (F := list Z) None ∅ eq_refl) as (d & Hn & _).
  assert (SynchDisk_new (F := list Z) None = Ok (driver_start (mkDiskDev d 0))) as Hs
    by (unfold SynchDisk_new; rewrite Hn; reflexivity).
  exists (driver_start (mkDiskDev d 0)). split; [exact Hs|].
  destruct (SynchDisk_serializes 0 0 0 None ∅ _ disk_run eq_refl Hs (disk_run_reachable _ Hs)) as [_ H].
  apply (H (DLoop [Rd 5] [Rd 5] [])).
  - apply in_clientb_spec. vm_compute. reflexivity.
  - vm_compute. reflexivity.
Defined.

(** Thread 0 writes one character and its line is through. *)
Definition console_run : MState (DData Console Z unit) (dpc Z unit) :=
  mrun (M := driver (DV := console_device) 0 0 0)
    (contend [97] [98; 99] [MStep; MStep; MIrq; MWake; MResume; MStep]) 0 (driver_start (Console_new [])).

Example WriteLine_lines_are_whole_witness :
  display (dev (m_data console_run)) = [97] /\ putBusy (dev (m_data console_run)) = false /\
  under_way (m_data console_run) = [].
Proof.
  assert (mreachable (M := driver (DV := console_device) 0 0 0) (driver_start (Console_new [])) console_run) as Hr.
  { apply mrun_reachable, contend_enters.
    - constructor; [exact I|constructor].
    - constructor; [exact I|]. constructor; [exact I|constructor].
    - repeat constructor. }
  destruct (WriteLine_lines_are_whole 0 0 0 [] console_run Hr) as [Hd H].
  assert (putBusy (dev (m_data console_run)) = false /\ under_way (m_data console_run) = [] /\
    exists made, last (through (m_data console_run)) = Some made /\ [97] = made.*1) as (H1 & H2 & _).
  { apply (H (DRelease [97] [(97, tt)])).
    - apply in_clientb_spec. vm_compute. reflexivity.
    - vm_compute. reflexivity. }
  split; [rewrite Hd; vm_compute; reflexivity|]. split; [exact H1|exact H2].
Defined.

(** The second of three packets is lost. *)
Definition some_wire (n : Z) : Wire := mkWire (mkPacketHeader 0 1 13) (mkMailHeader 2 5 1) [n].
Definition post_run : MState (DData NetDev Wire bool) (dpc Wire bool) :=
  mrun (M := driver (DV := net_device (fun k => k =? 1)%nat (fun _ => true)) 0 0 0)
    (contend [some_wire 1; some_wire 2; some_wire 3] [some_wire 4]
       [MStep; MStep; MIrq; MWake; MResume; MStep; MStep; MIrq; MWake; MResume; MStep; MStep; MIrq; MWake; MResume])
    0 (driver_start (mkNetDev false 0 0 [])).

Example PostOffice_Send_serializes_witness :
  wire (dev (m_data post_run)) = [some_wire 1; some_wire 3] /\ (pending (dev (m_data post_run)) <= 1)%nat.
Proof.
  assert (mreachable (M := driver (DV := net_device (fun k => k =? 1)%nat (fun _ => true)) 0 0 0)
    (driver_start (mkNetDev false 0 0 [])) post_run) as Hr.
  { apply mrun_reachable, contend_enters.
    - repeat constructor; discriminate.
    - repeat constructor; discriminate.
    - repeat constructor. }
  destruct (PostOffice_Send_serializes 0 0 0 (fun k => k =? 1)%nat (fun _ => true) post_run Hr) as (_ & Hw & Hp & _).
  split; [rewrite Hw; vm_compute; reflexivity|exact Hp].
Defined.
