(* ===== verification/ConsoleInput.v ===== *)
(** * userprog/synchconsole.cc: reading lines

    [SynchConsole::ReadLine] takes the input lock and, character by character,
    waits on the semaphore that the handler of the read interrupt signals and
    takes the character out of the device's buffer. The device polls the host's
    file and reads a character when its buffer is empty. *)
From S2P Require Import Prelude Threads Monitors Drivers.

(** The console, all that was ever typed, the lines of the finished calls, and
    what the call under way has read. *)
Record RData := mkRData {
  r_console : Console;
  r_typed : list Z;
  r_lines : list (list Z);
  r_partial : list Z
}.

Inductive rpc :=
  | RStart (size : Z)
  | RLoop (size : Z) (line : list Z)
  | RWait (size : Z) (line : list Z)
  | RGet (size : Z) (line : list Z)
  | RRelease (size : Z) (line : list Z)
  | RDone (size : Z) (line : list Z).

Definition newline : Z := 10.

(** [c != '\n' && num_read < size]; [c] is 0 before the first character. *)
Definition more (size : Z) (line : list Z) : bool :=
  negb (bool_decide (default 0 (last line) = newline)) && bool_decide (Z.of_nat (length line) < size).

Section ReadLine.
Context (lock : lid) (sem : sid) (cond : cid).

Definition ReadLine_code (pc : rpc) : action RData rpc :=
  match pc with
  | RStart size => Sync (OpAcquire lock) (RLoop size [])
  | RLoop size line => Plain (fun d =>
      if more size line then Ok (d, RWait size line)
      else Ok (mkRData (r_console d) (r_typed d) (r_lines d ++ [line]) [], RRelease size line))
  | RWait size line => Sync (OpP sem) (RGet size line)
  | RGet size line => Plain (fun d =>
      let '(k, c) := GetChar (r_console d) in
      Ok (mkRData k (r_typed d) (r_lines d) (line ++ [c]), RLoop size (line ++ [c])))
  | RRelease size line => Sync (OpRelease lock) (RDone size line)
  | RDone _ _ => Return
  end.

(** A character whose value is not that of [EOF]. *)
Definition not_eof (c : Z) : Prop := i8 c <> EOF.

(** Someone types, or the output half works. *)
Definition typing (d d' : RData) : Prop :=
  exists cs b out, Forall not_eof cs /\
    d' = mkRData (mkConsole b out (incoming (r_console d)) (keyboard (r_console d) ++ cs))
           (r_typed d ++ cs) (r_lines d) (r_partial d).

#[local] Instance reader : Monitor RData rpc := {|
  m_lock := lock;
  m_sem := sem;
  m_cond := cond;
  code := ReadLine_code;
  entry pc := match pc with RStart _ => True | _ => False end;
  env := typing;
  irq d :=
    match CheckCharAvail (r_console d) with
    | (k, true) => Some (mkRData k (r_typed d) (r_lines d) (r_partial d))
    | (_, false) => None
    end
|}.

(** A line [ReadLine] may return: it stops at its first newline or when the
    buffer is full. *)
Definition line_of (size : Z) (line : list Z) : Prop :=
  more size line = false /\
  (line = [] \/ exists l c, line = l ++ [c] /\ Forall (fun x => x <> newline) l /\ Z.of_nat (length l) < size).

Definition unfinished (size : Z) (line : list Z) : Prop :=
  Forall (fun x => x <> newline) line /\ Z.of_nat (length line) < size.

Definition reader_valid (pc : rpc) : Prop :=
  match pc with
  | RStart _ => True
  | RLoop size line => line = [] \/ exists l c, line = l ++ [c] /\ unfinished size l
  | RWait size line | RGet size line => unfinished size line
  | RRelease size line | RDone size line => line_of size line
  end.
Definition reader_holds (pc : rpc) : bool :=
  match pc with RLoop _ _ | RWait _ _ | RGet _ _ | RRelease _ _ => true | _ => false end.

(** The character in the device's buffer. *)
Definition buffer (k : Console) : list Z := if decide (incoming k = EOF) then [] else [incoming k].

(** Nothing that was typed is lost, repeated or reordered. *)
Definition accounted (d : RData) : Prop :=
  concat (r_lines d) ++ r_partial d ++ buffer (r_console d) ++ (i8 <$> keyboard (r_console d)) =
    i8 <$> r_typed d /\ Forall not_eof (r_typed d).

Definition reader_J (w : where_) (d : RData) (c : Z) : Prop :=
  accounted d /\
  match w with
  | Nobody => r_partial d = [] /\ c = Z.of_nat (length (buffer (r_console d)))
  | At (RLoop _ line) | At (RWait _ line) | InP (RGet _ line) =>
      r_partial d = line /\ c = Z.of_nat (length (buffer (r_console d)))
  | At (RGet _ line) => r_partial d = line /\ incoming (r_console d) <> EOF /\ c = 0
  | At (RRelease _ line) =>
      r_partial d = [] /\ c = Z.of_nat (length (buffer (r_console d))) /\ last (r_lines d) = Some line
  | _ => False
  end.

Lemma poll_accounted d k : CheckCharAvail (r_console d) = (k, true) -> accounted d ->
  accounted (mkRData k (r_typed d) (r_lines d) (r_partial d)) /\
  buffer (r_console d) = [] /\ length (buffer k) = 1%nat.
Proof.
  unfold CheckCharAvail, accounted, buffer. intros Hc [Ha Hf]. cbn [r_console r_typed r_lines r_partial].
  destruct (keyboard (r_console d)) as [|ch rest] eqn:Hk; [done|].
  case_bool_decide as He; [done|]. injection Hc as <-. cbn [incoming keyboard].
  assert (incoming (r_console d) = EOF) as Hi by (destruct (decide (incoming (r_console d) = EOF)); [done|by destruct He]).
  rewrite (decide_True (P := incoming (r_console d) = EOF)) in Ha |- * by done.
  assert (i8 ch <> EOF) as Hne.
  { assert (i8 ch ∈ i8 <$> r_typed d) as Hin.
    { rewrite <-Ha. rewrite !elem_of_app. right. right. right. csimpl. apply list_elem_of_here. }
    apply list_elem_of_fmap in Hin as (y & -> & Hy). by apply (proj1 (Forall_forall _ _) Hf). }
  rewrite decide_False by done. done.
Qed.

#[local] Instance reader_ok : MonitorOK reader_valid reader_holds reader_J.
Proof.
  split.
  - by intros [] H.
  - intros [] o next; simpl; intros Hv; intros [= <- <-]; simpl; unfold reader_J.
    + split_and!; try done; naive_solver.
    + split_and!; try done; try apply Hv. intros d c Hc (Ha & Hp & E). split_and!; try done.
      * unfold buffer in E. destruct (decide (incoming (r_console d) = EOF)); [simpl in E; lia|done].
      * unfold buffer in E. destruct (decide _); simpl in E; lia.
    + split_and!; try done; try apply Hv; naive_solver.
  - intros [] f; simpl; intros Hv; intros [= <-]; unfold reader_J.
    + intros d c (Ha & Hp & Hc). destruct (more size line) eqn:Hm; eexists _, _; (split; [done|]); simpl.
      * split_and!; try done.
        unfold more in Hm. rewrite andb_true_iff, negb_true_iff, bool_decide_eq_false, bool_decide_eq_true in Hm.
        destruct Hm as [Hm Hs]. split; [|done]. destruct Hv as [->|(l & ch & -> & Hl & _)]; [done|].
        rewrite last_snoc in Hm. apply Forall_app. by repeat constructor.
      * split_and!; try done.
        -- unfold accounted in *. cbn [r_console r_typed r_lines r_partial]. rewrite Hp in Ha.
           rewrite concat_app, <-app_assoc. simpl. by rewrite app_nil_r.
        -- by rewrite last_snoc.
    + intros d c (Ha & Hp & Hi & ->). eexists _, _. split; [done|]. split_and!; try done.
      * right. by exists line, (incoming (r_console d)).
      * unfold accounted, buffer in *. cbn [r_console r_typed r_lines r_partial incoming keyboard].
        rewrite decide_False in Ha by done. rewrite decide_True by done. rewrite Hp in Ha.
        by rewrite <-app_assoc.
  - by intros [] Hv H.
  - intros w d d' c (cs & b & out & Hcs & ->) [[Ha Hf] HJ]. split.
    + split; cbn [r_console r_typed r_lines r_partial incoming keyboard].
      * unfold buffer in *. cbn [incoming]. by rewrite !fmap_app, <-Ha, <-!app_assoc.
      * by apply Forall_app.
    + by destruct w as [|[]|[]].
  - intros w d d' c Hi [Ha HJ]. simpl in Hi. destruct (CheckCharAvail (r_console d)) as [k []] eqn:Hc; [|done].
    injection Hi as <-. destruct (poll_accounted d k Hc Ha) as (Ha' & Hb & Hl). split; [done|].
    assert (incoming (r_console d) = EOF) as He by (unfold buffer in Hb; by destruct (decide _)).
    destruct w as [|[]|[]]; simpl in *; rewrite ?Hl, ?Hb in *; simpl in *; naive_solver lia.
Qed.

End ReadLine.

Definition reader_start (typed : list Z) : RData := mkRData (Console_new typed) typed [] [].

(** * Properties *)

(** C27: threads that call [ReadLine] get what was typed, in order, if no
    typed character is 255, whose value as a [char] is that of [EOF]
    ([char_255_is_overtaken] shows what becomes of one). In every
    interleaving with typing, polls, output and other threads, the lines of the
    finished calls, what the call under way has read, the character in the
    device and the characters not yet read are together exactly what was typed;
    and a call that gives the lock back returns the last of those lines, cut at
    its first newline or at its size.
    It holds whatever the constructors leave in the pointers they do not
    initialise, but for the address of a thread in the owner of a new lock
    (see [Threads.stale_lock_admits_two_threads]). *)
Theorem ReadLine_returns_what_was_typed lock sem cond typed (x : MState RData rpc) :
  Forall not_eof typed ->
  mreachable (M := reader lock sem cond) (reader_start typed) x ->
  concat (r_lines (m_data x)) ++ r_partial (m_data x) ++ buffer (r_console (m_data x)) ++
    (i8 <$> keyboard (r_console (m_data x))) = i8 <$> r_typed (m_data x) /\
  forall size line, in_client (m_sys x) -> m_pc x !! currentThread (m_sys x) = Some (RRelease size line) ->
    last (r_lines (m_data x)) = Some line /\ line_of size line /\ Z.of_nat (length line) <= Z.max 0 size.
Proof.
  intros Hty Hx.
  assert (reader_J Nobody (reader_start typed) 0) as HJ by (split; [split|split]; done).
  pose proof (reader_ok lock sem cond) as OK. split.
  - destruct (monitor_some (M := reader lock sem cond) reader_valid reader_holds reader_J _ x HJ Hx) as [w Hw].
    apply Hw.
  - intros size line Hc Hm.
    pose proof (monitor_at (M := reader lock sem cond) reader_valid reader_holds reader_J _ x _ HJ Hx Hc Hm eq_refl)
      as (_ & _ & _ & Hl).
    pose proof (monitor_valid (M := reader lock sem cond) reader_valid reader_holds reader_J _ x _ _ HJ Hx Hm) as Hv.
    split; [done|]. split; [exact Hv|]. destruct Hv as [_ [->|(l & c & -> & _ & Hs)]]; [simpl; lia|].
    rewrite length_app. simpl. lia.
Qed.

(** A character with the value of [EOF] counts as no character: the next poll
    overwrites it, both polls signal the semaphore, and the reader gets the
    second character first. *)
Example char_255_is_overtaken :
  let '(k1, b1) := CheckCharAvail (Console_new [255; 97]) in
  let '(k2, b2) := CheckCharAvail k1 in
  let '(k3, c1) := GetChar k2 in
  let '(k4, c2) := GetChar k3 in
  b1 = true /\ b2 = true /\ c1 = 97 /\ c2 = i8 255.
Proof. vm_compute. done. Qed.

(** Two characters and a newline, read with room for ten. *)
Definition reader_run : MState RData rpc :=
  mrun (M := reader 0 0 0)
    ([MEnter (RStart 10); MStep; MStep; MIrq; MStep; MStep; MIrq; MStep; MStep; MStep; MStep; MIrq; MStep; MStep; MStep])
    0 (reader_start [104; 105; 10; 33]).

Example ReadLine_returns_what_was_typed_witness :
  in_client (m_sys reader_run) /\ r_lines (m_data reader_run) = [[104; 105; 10]] /\ line_of 10 [104; 105; 10].
Proof.
  assert (in_client (m_sys reader_run)) as Hc by (apply in_clientb_spec; vm_compute; reflexivity).
  split; [exact Hc|].
  destruct (ReadLine_returns_what_was_typed 0 0 0 [104; 105; 10; 33] reader_run) as [_ H].
  - repeat constructor; discriminate.
  - apply mrun_reachable. repeat constructor.
  - destruct (H 10 [104; 105; 10] Hc) as (_ & Hl & _); [vm_compute; reflexivity|].
    split; [vm_compute; reflexivity|exact Hl].
Defined.
