(* ===== verification/SynchList.v ===== *)
(** * threads/synchlist.cc: synchronized lists

    [SynchList] puts a lock around the lists of [LinkedList] and lets [Remove]
    wait on a condition while the list is empty. Mailboxes (network/post.cc) are
    such lists. Items are pointers other than NULL. *)
From S2P Require Import Prelude LinkedList Threads Monitors.

Section SynchList.
Context {A : Type}.
Context (lock : lid) (sem : sid) (listEmpty : cid).

(** The list on the heap; the items that were appended and removed so far. *)
Record SData := mkSData {
  heap : gmap nat (ListElement A);
  list_ : List;
  appended : list A;
  removed : list A
}.

Inductive spc :=
  | AStart (x : A) | AAppend (x : A) | ASignal | ARelease | ADone
  | RmStart | RmTest | RmWait | RmRemove | RmRelease (x : A) | RmDone (x : A)
  | MStart | MWalk | MRelease (ys : list A) | MDone (ys : list A).

(** [SynchList::SynchList] *)
Definition SynchList_new : SData := mkSData ∅ List_new [] [].

(** The plain code between the calls: [list->Append(item)], the test of the loop
    of [Remove], its end with the ASSERT, and [list->Mapcar(func)]. *)
Definition do_append (x : A) (d : SData) : res (SData * spc) :=
  let* '(h, l, _) := Append x (heap d, list_ d) in
  Ok (mkSData h l (appended d ++ [x]) (removed d), ASignal).
Definition do_test (d : SData) : res (SData * spc) := Ok (d, if IsEmpty (list_ d) then RmWait else RmRemove).
Definition do_remove (d : SData) : res (SData * spc) :=
  let* '(h, l, item) := Remove (heap d, list_ d) in
  match item with
  | Some x => Ok (mkSData h l (appended d) (removed d ++ [x]), RmRelease x)
  | None => Fault AssertFail
  end.
Definition do_mapcar (d : SData) : res (SData * spc) :=
  let* ys := Mapcar (heap d) (list_ d) in Ok (d, MRelease ys).

Definition SynchList_code (pc : spc) : action SData spc :=
  match pc with
  (* Append *)
  | AStart x => Sync (OpAcquire lock) (AAppend x)
  | AAppend x => Plain (do_append x)
  | ASignal => Sync (OpSignal listEmpty (Some lock)) ARelease
  | ARelease => Sync (OpRelease lock) ADone
  | ADone => Return
  (* Remove *)
  | RmStart => Sync (OpAcquire lock) RmTest
  | RmTest => Plain do_test
  | RmWait => Sync (OpWait listEmpty (Some lock)) RmTest
  | RmRemove => Plain do_remove
  | RmRelease x => Sync (OpRelease lock) (RmDone x)
  | RmDone _ => Return
  (* Mapcar *)
  | MStart => Sync (OpAcquire lock) MWalk
  | MWalk => Plain do_mapcar
  | MRelease ys => Sync (OpRelease lock) (MDone ys)
  | MDone _ => Return
  end.

#[local] Instance synchlist : Monitor SData spc := {|
  m_lock := lock;
  m_sem := sem;
  m_cond := listEmpty;
  code := SynchList_code;
  entry pc := match pc with AStart _ | RmStart | MStart => True | _ => False end;
  env _ _ := False;
  irq _ := None
|}.

Definition synchlist_holds (pc : spc) : bool :=
  match pc with AStart _ | ADone | RmStart | RmDone _ | MStart | MDone _ => false | _ => true end.

(** The list holds [xs], which are the items appended and not yet removed. *)
Definition contents (d : SData) (xs : list A) : Prop :=
  (exists cs, cells (heap d) (list_ d) cs /\ cs.*2.*2 = xs) /\ appended d = removed d ++ xs.

Definition synchlist_J (w : where_) (d : SData) (c : Z) : Prop :=
  exists xs, contents d xs /\
  match w with
  | At RmRemove => xs <> []
  | At (RmRelease x) => list.last (removed d) = Some x
  | At (MRelease ys) => ys = xs
  | _ => True
  end.

Lemma append_contents d x xs : contents d xs ->
  exists h l, Append x (heap d, list_ d) = Ok (h, l, tt) /\
    contents (mkSData h l (appended d ++ [x]) (removed d)) (xs ++ [x]).
Proof.
  intros [(cs & Hc & <-) Ha]. destruct (Append_cells _ _ cs x Hc) as (h & l & a & -> & Hc' & _).
  eexists _, _. split; [reflexivity|]. split; simpl.
  - eexists. split; [exact Hc'|]. by rewrite !fmap_app.
  - by rewrite Ha, <-app_assoc.
Qed.

Lemma remove_contents d xs : contents d xs -> xs <> [] ->
  exists h l x xs', Remove (heap d, list_ d) = Ok (h, l, Some x) /\ xs = x :: xs' /\
    contents (mkSData h l (appended d) (removed d ++ [x])) xs'.
Proof.
  intros [(cs & Hc & <-) Ha] Hne. destruct cs as [|[a [k x]] cs]; [done|]. unfold Remove.
  destruct (SortedRemove_cells _ _ _ Hc) as (h & l & -> & Hc' & _). cbn [rbind].
  eexists _, _, x, cs.*2.*2. split; [reflexivity|]. split; [done|]. split; simpl.
  - by exists cs.
  - rewrite Ha. simpl. by rewrite <-app_assoc.
Qed.

Lemma empty_contents d xs : contents d xs -> IsEmpty (list_ d) = bool_decide (xs = []).
Proof. intros [(cs & Hc & <-) _]. rewrite (IsEmpty_cells _ _ _ Hc). by destruct cs. Qed.

Lemma mapcar_contents d xs : contents d xs -> Mapcar (heap d) (list_ d) = Ok xs.
Proof.
  intros [(cs & Hc & <-) _]. destruct Hc as (Hs & _ & Hnd). unfold Mapcar.
  apply mapcar_walk_seg; [by eapply seg_size|done].
Qed.

#[local] Instance synchlist_ok : MonitorOK (fun _ => True) synchlist_holds synchlist_J.
Proof.
  split.
  - by intros [] H.
  - intros [] o next _ [= <- <-]; simpl; unfold synchlist_J; split_and!; try done; naive_solver.
  - intros [] f _ [= <-]; cbn [synchlist_holds]; unfold synchlist_J, do_append, do_test, do_remove, do_mapcar; intros d c (xs & Hc & HJ).
    + destruct (append_contents d x xs Hc) as (h & l & -> & Hc'). cbn [rbind].
      eexists _, _. split; [reflexivity|]. split_and!; [done|done|]. by eexists.
    + rewrite (empty_contents d xs Hc). case_bool_decide; eexists _, _; (split; [reflexivity|]);
        split_and!; try done; by exists xs.
    + destruct (remove_contents d xs Hc HJ) as (h & l & x & xs' & -> & -> & Hc'). cbn [rbind].
      eexists _, _. split; [reflexivity|]. split_and!; [done|done|]. exists xs'. split; [done|]. simpl.
      apply last_snoc.
    + rewrite (mapcar_contents d xs Hc). cbn [rbind]. eexists _, _. split; [reflexivity|].
      split_and!; [done|done|]. by exists xs.
  - by intros [] _ H.
  - by intros w d d' c [].
  - by intros w d d' c [=].
Qed.

Lemma synchlist_start : synchlist_J Nobody SynchList_new 0.
Proof. exists []. split; [|done]. split; [|done]. exists []. split; [|done]. split_and!; [done|done|constructor]. Qed.

End SynchList.
Arguments SData : clear implicits.
Arguments spc : clear implicits.
Arguments SynchList_new {A}.

(** * Properties *)

(** C13: a synchronized list is a FIFO queue for any number of threads. In every
    reachable state the items removed so far, followed by those in the list,
    are the items appended so far, in that order, so each item is taken once
    and first come, first served; the list code never touches a bad pointer,
    [Remove] never finds the list empty (its ASSERT holds), and the thread that
    gives the lock back has the item removed last.
    It holds whatever the constructors leave in the pointers they do not
    initialise, but for the address of a thread in the owner of a new lock
    (see [Threads.stale_lock_admits_two_threads]). *)
Theorem SynchList_is_a_queue lock sem listEmpty {A} (x : MState (SData A) (spc A)) :
  mreachable (M := synchlist lock sem listEmpty) SynchList_new x ->
  (exists xs, contents (m_data x) xs) /\
  forall pc, in_client (m_sys x) -> m_pc x !! currentThread (m_sys x) = Some pc ->
    match SynchList_code lock listEmpty pc with
    | Plain f => is_Ok (f (m_data x))
    | Sync o _ => is_Ok (exec_op o (m_sys x)) \/ exec_op o (m_sys x) = Fault UndefinedArith
    | Return => True
    end /\
    (forall y, pc = RmRelease y -> list.last (removed (m_data x)) = Some y).
Proof.
  intros Hx. pose proof (synchlist_ok (A := A) lock sem listEmpty) as OK. split.
  - destruct (monitor_some (M := synchlist lock sem listEmpty) (fun _ => True) synchlist_holds synchlist_J _ x
      synchlist_start Hx) as (w & xs & Hc & _). by exists xs.
  - intros pc Hc Hm. split.
    + pose proof (monitor_progress (M := synchlist lock sem listEmpty) (fun _ => True) synchlist_holds synchlist_J _ x pc
        synchlist_start Hx Hc Hm) as Hp. simpl in Hp.
      destruct (SynchList_code lock listEmpty pc) as [|f|]; [done| |done].
      destruct Hp as (d' & next & Hp). by eexists.
    + intros y ->. by destruct (monitor_at (M := synchlist lock sem listEmpty) (fun _ => True) synchlist_holds synchlist_J
        _ x _ synchlist_start Hx Hc Hm eq_refl) as (xs & _ & Hl).
Qed.

(** Thread 0 waits in [Remove]; thread 1 appends 7 and 8; thread 0 is woken and
    takes 7. *)
Definition synchlist_run : MState (SData nat) (spc nat) :=
  mrun (M := synchlist 0 0 0)
    [MOutside (OpNew 1); MOutside (OpFork 1); MEnter RmStart; MStep; MStep; MStep; MResume;
     MEnter (AStart 7%nat); MStep; MStep; MStep; MStep; MStep;
     MEnter (AStart 8%nat); MStep; MStep; MStep; MStep; MStep; MPreempt; MResume; MStep; MStep]
    0 SynchList_new.

Example SynchList_is_a_queue_witness :
  appended (m_data synchlist_run) = [7%nat; 8%nat] /\ list.last (removed (m_data synchlist_run)) = Some 7%nat.
Proof.
  split; [vm_compute; reflexivity|].
  assert (in_client (m_sys synchlist_run)) as Hc by (apply in_clientb_spec; vm_compute; reflexivity).
  destruct (SynchList_is_a_queue 0 0 0 synchlist_run) as [_ H].
  - apply mrun_reachable. repeat constructor.
  - apply (H (RmRelease 7%nat) Hc); [vm_compute; reflexivity|reflexivity].
Defined.
