(* ===== verification/Syscalls.v ===== *)
(** * userprog/exception.cc without NETWORK: locks, conditions and queues of
      user programs

    The kernel keeps two tables, of the locks and of the conditions that user
    programs created, with a bitmap of the entries in use and the address space
    an entry belongs to. A system call checks its indices and then calls the
    kernel's [Lock] and [Condition] of [Threads]; the tables are globals next to
    the globals of [Threads]. A call that gave up the processor has a rest to do
    when it gets it back: [tail]. Interrupts are off from the first to the last
    statement of all calls but the two that create objects, so these are the
    only ones a time slice can interrupt: after [Acquire] and after [Release] of
    the lock of the table, where interrupts come on ([sliced]).

    Address spaces are numbers ([None] is a null pointer), the locks
    [lockTableLock] and [conditionTableLock] of system.cc are parameters, as is
    the memory that [new] leaves uninitialised. *)
From S2P Require Import Prelude BitMap Threads.

Definition MAX_LOCKS_CONDITIONS : Z := 500.

Record LockEntry := mkLockEntry { le_lock : option lid; lockSpace : option Z; le_isToBeDeleted : bool; acquireCount : Z }.
Record ConditionEntry := mkConditionEntry { ce_condition : option cid; conditionSpace : option Z; ce_isToBeDeleted : bool }.

(** What a system call still does when the kernel routine it called returns
    after another thread ran. *)
Inductive tail :=
  | TCreateLock
  | TFillLock (nextFreeIndex : Z)
  | TCreateCondition
  | TFillCondition (nextFreeIndex : Z)
  | TAcquire (oldLevel : IntStatus)
  | TWait (conditionIndex : Z) (oldLevel : IntStatus).

Section Syscalls.
  Context {B : Type} `{BA : BitAllocator B}.
  Context (lockTableLock conditionTableLock : lid).
  (** Fresh bitmap words, lock owners, condition locks, table entries. *)
  Context (gwords : nat -> Z) (gowner : option tid) (gwait : option lid) (glock : LockEntry) (gcond : ConditionEntry).

(** [spaces]: the [space] of each thread. [nextLock] and [nextCondition] are the
    numbers the next [new] returns. *)
Record Kern := mkKern {
  sys : Sys;
  spaces : gmap tid Z;
  lockTable : list LockEntry;
  lockMap : option B;
  lockArraySize : Z;
  conditionTable : list ConditionEntry;
  conditionMap : option B;
  conditionArraySize : Z;
  tails : gmap tid tail;
  nextLock : lid;
  nextCondition : cid
}.

Abbreviation KK := (ST Kern).

Definition set_sys (x : Sys) (k : Kern) : Kern :=
  mkKern x (spaces k) (lockTable k) (lockMap k) (lockArraySize k) (conditionTable k) (conditionMap k)
    (conditionArraySize k) (tails k) (nextLock k) (nextCondition k).
Definition set_lock_table (t : list LockEntry) (m : option B) (n : Z) (k : Kern) : Kern :=
  mkKern (sys k) (spaces k) t m n (conditionTable k) (conditionMap k)
    (conditionArraySize k) (tails k) (nextLock k) (nextCondition k).
Definition set_condition_table (t : list ConditionEntry) (m : option B) (n : Z) (k : Kern) : Kern :=
  mkKern (sys k) (spaces k) (lockTable k) (lockMap k) (lockArraySize k) t m n (tails k) (nextLock k) (nextCondition k).
Definition set_tails (t : gmap tid tail) (k : Kern) : Kern :=
  mkKern (sys k) (spaces k) (lockTable k) (lockMap k) (lockArraySize k) (conditionTable k) (conditionMap k)
    (conditionArraySize k) t (nextLock k) (nextCondition k).
Definition set_next (l : lid) (c : cid) (k : Kern) : Kern :=
  mkKern (sys k) (spaces k) (lockTable k) (lockMap k) (lockArraySize k) (conditionTable k) (conditionMap k)
    (conditionArraySize k) (tails k) l c.

(** A routine of [Threads]. *)
Definition on_sys {A} (c : ST Sys A) : KK A := fun k =>
  let* '(x, a) := c (sys k) in Ok (set_sys x k, a).

Definition current : KK tid := gets (fun k => currentThread (sys k)).
(** [currentThread->space] *)
Definition current_space : KK (option Z) := gets (fun k => spaces k !! currentThread (sys k)).

Definition put_tail (t : tid) (tl : tail) : KK unit := modify (fun k => set_tails (<[t := tl]> (tails k)) k).

(** ** Entries of the tables *)

Definition lock_entry (i : Z) : KK LockEntry := fun k => let* e := arr_get (lockTable k) i in Ok (k, e).
Definition set_lock_entry (i : Z) (e : LockEntry) : KK unit := fun k =>
  let* t := arr_set (lockTable k) i e in Ok (set_lock_table t (lockMap k) (lockArraySize k) k, tt).
Definition condition_entry (i : Z) : KK ConditionEntry := fun k => let* e := arr_get (conditionTable k) i in Ok (k, e).
Definition set_condition_entry (i : Z) (e : ConditionEntry) : KK unit := fun k =>
  let* t := arr_set (conditionTable k) i e in Ok (set_condition_table t (conditionMap k) (conditionArraySize k) k, tt).

Definition clear_lock_slot (i : Z) : KK unit := fun k =>
  let* b := deref (lockMap k) in let* b := ba_clear b i in
  Ok (set_lock_table (lockTable k) (Some b) (lockArraySize k) k, tt).
Definition clear_condition_slot (i : Z) : KK unit := fun k =>
  let* b := deref (conditionMap k) in let* b := ba_clear b i in
  Ok (set_condition_table (conditionTable k) (Some b) (conditionArraySize k) k, tt).

(** [delete] of a pointer: nothing for a null one, a fault for one that was
    deleted before. *)
Definition delete_lock (p : option lid) : KK unit := fun k =>
  match p with
  | None => Ok (k, tt)
  | Some l => let* _ := deref (locks (sys k) !! l) in Ok (set_sys (set_locks (delete l (locks (sys k))) (sys k)) k, tt)
  end.
Definition delete_condition (p : option cid) : KK unit := fun k =>
  match p with
  | None => Ok (k, tt)
  | Some c => let* _ := deref (conds (sys k) !! c) in Ok (set_sys (set_conds (delete c (conds (sys k))) (sys k)) k, tt)
  end.

(** ** The checks at the head of the calls: [false] when the call returns *)

Definition check_lock (i : Z) : KK bool := fun k =>
  if decide (i < 0 \/ i > lockArraySize k - 1) then Ok (k, false)
  else
    let* b := deref (lockMap k) in
    let* used := ba_test b i in
    if negb used then Ok (k, false)
    else
      let* e := arr_get (lockTable k) i in
      Ok (k, bool_decide (lockSpace e = spaces k !! currentThread (sys k))).

Definition check_condition (i : Z) : KK bool := fun k =>
  if decide (i < 0 \/ i > conditionArraySize k - 1) then Ok (k, false)
  else
    let* b := deref (conditionMap k) in
    let* used := ba_test b i in
    if negb used then Ok (k, false)
    else
      let* e := arr_get (conditionTable k) i in
      Ok (k, bool_decide (conditionSpace e = spaces k !! currentThread (sys k))).

(** A call that runs [body] with interrupts off if [check] allows it. *)
Definition checked (check : KK bool) (body : IntStatus -> KK bool) : KK bool :=
  oldLevel <- on_sys (SetLevel IntOff) ;;
  ok <- check ;;
  if ok : bool then body oldLevel else on_sys (SetLevel oldLevel) ;;; sret true.

Definition check_both (conditionIndex lockIndex : Z) : KK bool :=
  c <- check_condition conditionIndex ;;
  if c : bool then check_lock lockIndex else sret false.

(** ** The system calls: [true] when they return, [false] when they wait *)

Definition Acquire_Syscall (lockIndex : Z) : KK bool := checked (check_lock lockIndex) (fun oldLevel =>
  e <- lock_entry lockIndex ;;
  set_lock_entry lockIndex (mkLockEntry (le_lock e) (lockSpace e) (le_isToBeDeleted e) (i32 (acquireCount e + 1))) ;;;
  l <- lift (deref (le_lock e)) ;;
  t <- current ;;
  done <- on_sys (Acquire l []) ;;
  if done : bool then on_sys (SetLevel oldLevel) ;;; sret true
  else put_tail t (TAcquire oldLevel) ;;; sret false).

Definition Release_Syscall (lockIndex : Z) : KK bool := checked (check_lock lockIndex) (fun oldLevel =>
  e <- lock_entry lockIndex ;;
  let e := mkLockEntry (le_lock e) (lockSpace e) (le_isToBeDeleted e) (i32 (acquireCount e - 1)) in
  set_lock_entry lockIndex e ;;;
  l <- lift (deref (le_lock e)) ;;
  on_sys (Release l) ;;;
  (if le_isToBeDeleted e && bool_decide (acquireCount e = 0) then
     x <- on_sys (lock_at l) ;;
     if negb (isBusy x) then delete_lock (Some l) ;;; clear_lock_slot lockIndex else sret tt
   else sret tt) ;;;
  on_sys (SetLevel oldLevel) ;;; sret true).

Definition Signal_Syscall (conditionIndex lockIndex : Z) : KK bool :=
  checked (check_both conditionIndex lockIndex) (fun oldLevel =>
  e <- condition_entry conditionIndex ;;
  le <- lock_entry lockIndex ;;
  c <- lift (deref (ce_condition e)) ;;
  on_sys (Signal c (le_lock le)) ;;;
  on_sys (SetLevel oldLevel) ;;; sret true).

Definition Broadcast_Syscall (conditionIndex lockIndex : Z) : KK bool :=
  checked (check_both conditionIndex lockIndex) (fun oldLevel =>
  e <- condition_entry conditionIndex ;;
  le <- lock_entry lockIndex ;;
  c <- lift (deref (ce_condition e)) ;;
  on_sys (Broadcast c (le_lock le)) ;;;
  on_sys (SetLevel oldLevel) ;;; sret true).

(** The rest of [Wait_Syscall]. *)
Definition after_wait (conditionIndex : Z) (oldLevel : IntStatus) : KK bool :=
  e <- condition_entry conditionIndex ;;
  (if ce_isToBeDeleted e then
     c <- lift (deref (ce_condition e)) ;;
     x <- on_sys (cond_at c) ;;
     if negb (hasWaiting x) then delete_condition (Some c) ;;; clear_condition_slot conditionIndex else sret tt
   else sret tt) ;;;
  on_sys (SetLevel oldLevel) ;;; sret true.

Definition Wait_Syscall (conditionIndex lockIndex : Z) : KK bool :=
  checked (check_both conditionIndex lockIndex) (fun oldLevel =>
  e <- condition_entry conditionIndex ;;
  le <- lock_entry lockIndex ;;
  c <- lift (deref (ce_condition e)) ;;
  t <- current ;;
  done <- on_sys (Wait c (le_lock le) []) ;;
  if done : bool then after_wait conditionIndex oldLevel
  else put_tail t (TWait conditionIndex oldLevel) ;;; sret false).

Definition DestroyLock_Syscall (lockIndex : Z) : KK bool := checked (check_lock lockIndex) (fun oldLevel =>
  e <- lock_entry lockIndex ;;
  l <- lift (deref (le_lock e)) ;;
  x <- on_sys (lock_at l) ;;
  (if negb (isBusy x && bool_decide (acquireCount e = 0)) then delete_lock (Some l) ;;; clear_lock_slot lockIndex
   else set_lock_entry lockIndex (mkLockEntry (le_lock e) (lockSpace e) true (acquireCount e))) ;;;
  on_sys (SetLevel oldLevel) ;;; sret true).

Definition DestroyCondition_Syscall (conditionIndex : Z) : KK bool :=
  checked (check_condition conditionIndex) (fun oldLevel =>
  e <- condition_entry conditionIndex ;;
  c <- lift (deref (ce_condition e)) ;;
  x <- on_sys (cond_at c) ;;
  (if negb (hasWaiting x) then delete_condition (Some c) ;;; clear_condition_slot conditionIndex
   else set_condition_entry conditionIndex (mkConditionEntry (ce_condition e) (conditionSpace e) true)) ;;;
  on_sys (SetLevel oldLevel) ;;; sret true).

(** ** Creating *)

(** [if (lockArraySize == 0)] *)
Definition init_locks : KK unit := fun k =>
  if decide (lockArraySize k = 0) then
    let* b := ba_new MAX_LOCKS_CONDITIONS gwords in
    Ok (set_lock_table (replicate (Z.to_nat MAX_LOCKS_CONDITIONS) glock) (Some b) MAX_LOCKS_CONDITIONS k, tt)
  else Ok (k, tt).
Definition init_conditions : KK unit := fun k =>
  if decide (conditionArraySize k = 0) then
    let* b := ba_new MAX_LOCKS_CONDITIONS gwords in
    Ok (set_condition_table (replicate (Z.to_nat MAX_LOCKS_CONDITIONS) gcond) (Some b) MAX_LOCKS_CONDITIONS k, tt)
  else Ok (k, tt).

(** [Find]; a full table halts the machine. *)
Definition find_lock_slot : KK Z := fun k =>
  let* b := deref (lockMap k) in
  let* '(b, i) := ba_find b in
  if decide (i = -1) then Fault MachineHalt
  else Ok (set_lock_table (lockTable k) (Some b) (lockArraySize k) k, i).
Definition find_condition_slot : KK Z := fun k =>
  let* b := deref (conditionMap k) in
  let* '(b, i) := ba_find b in
  if decide (i = -1) then Fault MachineHalt
  else Ok (set_condition_table (conditionTable k) (Some b) (conditionArraySize k) k, i).

(** [new Lock(name)], [new Condition(name)] *)
Definition new_lock : KK lid := fun k =>
  let l := nextLock k in
  Ok (set_next (S l) (nextCondition k) (set_sys (set_locks (<[l := Lock_new gowner]> (locks (sys k))) (sys k)) k), l).
Definition new_condition : KK cid := fun k =>
  let c := nextCondition k in
  Ok (set_next (nextLock k) (S c) (set_sys (set_conds (<[c := Condition_new gwait]> (conds (sys k))) (sys k)) k), c).

(** Interrupts came on. When [slice], the time slice of the thread is over
    ([OneTick] calls [Yield]): [rest] runs once it gets the processor back. *)
Definition sliced {A} (slice : bool) (tl : tail) (rest : KK (option A)) : KK (option A) :=
  if slice then
    t <- current ;;
    done <- on_sys (Yield []) ;;
    if done : bool then rest else put_tail t tl ;;; sret None
  else rest.

(** From [lockTable[nextFreeIndex].lock = new Lock(name)] on. *)
Definition fill_lock (nextFreeIndex : Z) : KK (option Z) :=
  l <- new_lock ;;
  space <- current_space ;;
  set_lock_entry nextFreeIndex (mkLockEntry (Some l) space false 0) ;;;
  sret (Some nextFreeIndex).

Definition fill_condition (nextFreeIndex : Z) : KK (option Z) :=
  c <- new_condition ;;
  space <- current_space ;;
  set_condition_entry nextFreeIndex (mkConditionEntry (Some c) space false) ;;;
  sret (Some nextFreeIndex).

(** From the return of [lockTableLock->Acquire()] on. *)
Definition create_lock (slice : bool) : KK (option Z) :=
  init_locks ;;;
  nextFreeIndex <- find_lock_slot ;;
  on_sys (Release lockTableLock) ;;;
  sliced slice (TFillLock nextFreeIndex) (fill_lock nextFreeIndex).

Definition create_condition (slice : bool) : KK (option Z) :=
  init_conditions ;;;
  nextFreeIndex <- find_condition_slot ;;
  on_sys (Release conditionTableLock) ;;;
  sliced slice (TFillCondition nextFreeIndex) (fill_condition nextFreeIndex).

(** The index, or [None] when the call gave up the processor. The time slice
    may be over after [Acquire] ([slice1]) and after [Release] ([slice2]). *)
Definition CreateLock_Syscall (slice1 slice2 : bool) : KK (option Z) :=
  t <- current ;;
  done <- on_sys (Acquire lockTableLock []) ;;
  if done : bool then sliced slice1 TCreateLock (create_lock slice2)
  else put_tail t TCreateLock ;;; sret None.

Definition CreateCondition_Syscall (slice1 slice2 : bool) : KK (option Z) :=
  t <- current ;;
  done <- on_sys (Acquire conditionTableLock []) ;;
  if done : bool then sliced slice1 TCreateCondition (create_condition slice2)
  else put_tail t TCreateCondition ;;; sret None.

(** ** The thread that got the processor goes on *)

Definition returned {A} (c : KK (option A)) : KK bool := r <- c ;; sret (match r with Some _ => true | None => false end).

Definition run_tail (slice1 slice2 : bool) (t : tail) : KK bool :=
  match t with
  | TCreateLock => returned (sliced slice1 TCreateLock (create_lock slice2))
  | TFillLock i => returned (sliced slice1 (TFillLock i) (fill_lock i))
  | TCreateCondition => returned (sliced slice1 TCreateCondition (create_condition slice2))
  | TFillCondition i => returned (sliced slice1 (TFillCondition i) (fill_condition i))
  | TAcquire oldLevel => on_sys (SetLevel oldLevel) ;;; sret true
  | TWait conditionIndex oldLevel => after_wait conditionIndex oldLevel
  end.

Definition resume_call (slice1 slice2 : bool) : KK bool :=
  t <- current ;;
  done <- on_sys resume ;;
  if done : bool then
    k <- get ;;
    match tails k !! t with
    | None => sret true
    | Some tl => put (set_tails (delete t (tails k)) k) ;;; run_tail slice1 slice2 tl
    end
  else sret false.

(** ** What [Exit_Syscall] does to the tables for the last thread of a process *)

Fixpoint exit_locks (n : nat) (i : Z) (space : option Z) : KK unit :=
  match n with
  | O => sret tt
  | S n =>
      e <- lock_entry i ;;
      (if decide (lockSpace e = space) then
         set_lock_entry i (mkLockEntry (le_lock e) None false (acquireCount e)) ;;;
         delete_lock (le_lock e) ;;; clear_lock_slot i
       else sret tt) ;;;
      exit_locks n (i + 1) space
  end.

Fixpoint exit_conditions (n : nat) (i : Z) (space : option Z) : KK unit :=
  match n with
  | O => sret tt
  | S n =>
      e <- condition_entry i ;;
      (if decide (conditionSpace e = space) then
         set_condition_entry i (mkConditionEntry (ce_condition e) None false) ;;;
         delete_condition (ce_condition e) ;;; clear_condition_slot i
       else sret tt) ;;;
      exit_conditions n (i + 1) space
  end.

Definition exit_tables : KK unit :=
  space <- current_space ;;
  n <- gets (fun k => Z.to_nat (lockArraySize k)) ;;
  exit_locks n 0 space ;;;
  n <- gets (fun k => Z.to_nat (conditionArraySize k)) ;;
  exit_conditions n 0 space.
End Syscalls.

(** * Lemmas *)

(** ** Routines of [Threads] that cannot fail

    Every thread in a queue has its control block and did not finish. The
    routines below keep this, and create and delete no object. *)
Definition live (s : Sys) (t : tid) : Prop := is_Some (threads s !! t) /\ threadToBeDestroyed s <> Some t.

Record alive (s : Sys) : Prop := {
  al_current : live s (currentThread s);
  al_ready : Forall (live s) (readyList s);
  al_locks : forall l x, locks s !! l = Some x -> Forall (live s) (lqueue x);
  al_conds : forall c x, conds s !! c = Some x -> Forall (live s) (cqueue x)
}.

Definition same_objects (s s' : Sys) : Prop :=
  (forall t, live s' t <-> live s t) /\
  (forall l, is_Some (locks s' !! l) <-> is_Some (locks s !! l)) /\
  (forall c, is_Some (conds s' !! c) <-> is_Some (conds s !! c)).

(** [c] runs from [s] to a value and a state of which [Q] holds. *)
Definition runs {S A} (c : ST S A) (s : S) (Q : A -> S -> Prop) : Prop := exists s' a, c s = Ok (s', a) /\ Q a s'.

Section Runs.
  Context {S : Type}.
Lemma runs_bind {A C} (c : ST S A) (f : A -> ST S C) s (R : A -> S -> Prop) Q :
  runs c s R -> (forall a s', R a s' -> runs (f a) s' Q) -> runs (sbind c f) s Q.
Proof.
  intros (s1 & a & H1 & HR) Hf. destruct (Hf a s1 HR) as (s2 & b & H2 & HQ).
  exists s2, b. unfold sbind. by rewrite H1.
Qed.
Lemma runs_ret {A} (a : A) s (Q : A -> S -> Prop) : Q a s -> runs (sret a) s Q.
Proof. intros. by exists s, a. Qed.
Lemma runs_conseq {A} (c : ST S A) s (Q Q' : A -> S -> Prop) : runs c s Q' -> (forall a s', Q' a s' -> Q a s') -> runs c s Q.
Proof. intros (s' & a & Hc & HQ) H. exists s', a. split; [done|by apply H]. Qed.
End Runs.

Lemma objects_refl s : same_objects s s.
Proof. by split_and!. Qed.
Lemma objects_trans s1 s2 s3 : same_objects s1 s2 -> same_objects s2 s3 -> same_objects s1 s3.
Proof. intros (A1 & B1 & C1) (A2 & B2 & C2). split_and!; intros x; rewrite ?A2, ?B2, ?C2; auto. Qed.

(** What a routine of [Threads] guarantees here. *)
Definition fine (s : Sys) (s' : Sys) : Prop := alive s' /\ same_objects s s'.

Lemma fine_refl s : alive s -> fine s s.
Proof. intros. split; [done|apply objects_refl]. Qed.
Lemma fine_trans s1 s2 s3 : fine s1 s2 -> fine s2 s3 -> fine s1 s3.
Proof. intros [_ H1] [? H2]. split; [done|by eapply objects_trans]. Qed.

Lemma insert_same {A} (m : gmap nat A) i x j : is_Some (m !! i) -> is_Some (<[i := x]> m !! j) <-> is_Some (m !! j).
Proof.
  intros Hi. destruct (decide (j = i)) as [->|]; [rewrite lookup_insert_eq|by rewrite lookup_insert_ne].
  split; [done|by eexists].
Qed.

Lemma insert_is_Some' {A} (m : gmap nat A) i x j : is_Some (<[i := x]> m !! j) <-> j = i \/ is_Some (m !! j).
Proof.
  destruct (decide (j = i)) as [->|]; [rewrite lookup_insert_eq; naive_solver|rewrite lookup_insert_ne by done; naive_solver].
Qed.

Lemma alive_threads s m : alive s -> (forall t, is_Some (m !! t) <-> is_Some (threads s !! t)) -> fine s (set_threads m s).
Proof.
  intros [Hc Hr Hl Hcd] Hm.
  assert (forall t, live (set_threads m s) t <-> live s t) as Hlv by (intros t; unfold live; cbn; by rewrite Hm).
  split; [|by split_and!]. split; cbn.
  - by apply Hlv.
  - eapply Forall_impl; [exact Hr|]. intros t Ht. by apply Hlv.
  - intros l x Hx. eapply Forall_impl; [by eapply Hl|]. intros t Ht. by apply Hlv.
  - intros c x Hx. eapply Forall_impl; [by eapply Hcd|]. intros t Ht. by apply Hlv.
Qed.

(** The parts that are not objects. *)
Lemma fine_intro s s' : alive s -> threads s' = threads s -> threadToBeDestroyed s' = threadToBeDestroyed s ->
  locks s' = locks s -> conds s' = conds s -> live s (currentThread s') -> Forall (live s) (readyList s') -> fine s s'.
Proof.
  intros [] Ht Hd Hl Hc Hcu Hr.
  assert (forall t, live s' t <-> live s t) as Hlv by (intros t; unfold live; by rewrite Ht, Hd).
  assert (forall q, Forall (live s) q -> Forall (live s') q) as Hq
    by (intros q; rewrite !Forall_forall; intros H t Hin; by apply Hlv, H).
  split; [split|split_and!]; rewrite ?Hl, ?Hc; try done; eauto. by apply Hlv.
Qed.

Lemma fine_level lv s : alive s -> fine s (set_level lv s).
Proof. intros Ha. apply fine_intro; try done; apply Ha. Qed.

Lemma SetLevel_fine lv s : alive s -> runs (SetLevel lv) s (fun old s' => fine s s' /\ old = level s /\ level s' = lv /\ currentThread s' = currentThread s).
Proof. intros [? ? ? ?]. eexists _, _. split; [reflexivity|]. by split_and!. Qed.

Lemma setStatus_fine t st s : alive s -> live s t ->
  runs (setStatus t st) s (fun _ s' => fine s s' /\ level s' = level s /\ currentThread s' = currentThread s).
Proof.
  intros Ha [[th Ht] _]. unfold runs, setStatus. sys_run. rewrite Ht.
  eexists _, _. split; [reflexivity|]. split; [|done]. apply alive_threads; [done|]. intros t'. apply insert_same. by eexists.
Qed.

Lemma set_frames_fine t fs s : alive s -> live s t ->
  runs (set_frames t fs) s (fun _ s' => fine s s' /\ level s' = level s /\ currentThread s' = currentThread s).
Proof.
  intros Ha [[th Ht] _]. unfold runs, set_frames. sys_run. rewrite Ht.
  eexists _, _. split; [reflexivity|]. split; [|done]. apply alive_threads; [done|]. intros t'. apply insert_same. by eexists.
Qed.

Lemma ReadyToRun_fine t s : alive s -> live s t ->
  runs (ReadyToRun t) s (fun _ s' => fine s s' /\ level s' = level s /\ currentThread s' = currentThread s).
Proof.
  intros Ha Ht. eapply runs_bind; [by apply setStatus_fine|]. intros [] s1 ([[Hc Hr Hl Hcd] Hs] & Hlv & Hcu).
  eexists _, _. split; [reflexivity|]. split; [|done]. split; [|done]. split; cbn; try done.
  apply Forall_app. split; [done|]. apply Forall_singleton. by apply Hs.
Qed.

Lemma Run_fine t s : alive s -> live s t -> runs (Run t) s (fun _ s' => fine s s').
Proof.
  intros Ha Ht. unfold Run. assert (fine s (set_current t s)) as H1 by (apply fine_intro; try done; apply Ha).
  apply (runs_bind _ _ _ (fun _ s' => s' = set_current t s)); [by eexists _, _|]. intros [] s1 ->.
  eapply runs_bind; [apply setStatus_fine; [apply H1|done]|]. intros [] s2 (H2 & _ & _).
  eexists _, _. split; [reflexivity|]. eapply fine_trans; [exact H1|]. eapply fine_trans; [exact H2|].
  apply (fine_intro s2); try done; [apply H2|apply (al_current _ (proj1 H2))|apply (al_ready _ (proj1 H2))].
Qed.

Lemma dispatch_fine s : alive s -> runs dispatch s (fun _ s' => fine s s').
Proof.
  intros Ha. unfold runs, dispatch, FindNextToRun, sbind, get. destruct (readyList s) as [|t r] eqn:Hrl.
  - eexists _, _. split; [reflexivity|]. apply fine_intro; try done; [apply Ha|apply Ha].
  - pose proof (al_ready s Ha) as Hr. rewrite Hrl in Hr. apply Forall_cons in Hr as [Ht Hr].
    assert (fine s (set_ready r s)) as H1 by (apply fine_intro; try done; apply Ha).
    destruct (Run_fine t (set_ready r s)) as (s2 & a & H2 & Hf); [apply H1|done|].
    exists s2, a. split; [exact H2|]. exact (fine_trans _ _ _ H1 Hf).
Qed.

Lemma Sleep_fine k s : alive s -> level s = IntOff -> runs (Sleep k) s (fun _ s' => fine s s').
Proof.
  intros Ha Hl. unfold Sleep. apply (runs_bind _ _ _ (fun a s' => a = s /\ s' = s)); [by eexists _, _|]. intros ? ? [-> ->].
  rewrite Hl, bool_decide_eq_true_2 by done. apply (runs_bind _ _ _ (fun _ s' => s' = s)); [by eexists _, _|]. intros ? ? ->.
  eapply runs_bind; [apply setStatus_fine; [done|apply Ha]|]. intros [] s1 (H1 & _ & Hc1).
  eapply runs_bind; [apply set_frames_fine; [apply H1|]|].
  { apply H1, Ha. }
  intros [] s2 (H2 & _ & _). eapply runs_conseq; [apply dispatch_fine, H2|]. intros [] s3 H3.
  exact (fine_trans _ _ _ H1 (fine_trans _ _ _ H2 H3)).
Qed.

(** Objects with a new queue of live threads. *)
Lemma set_lock_fine l x s : alive s -> is_Some (locks s !! l) -> Forall (live s) (lqueue x) ->
  runs (set_lock l x) s (fun _ s' => fine s s' /\ level s' = level s /\ currentThread s' = currentThread s).
Proof.
  intros [Hc Hr Hl Hcd] Hi Hx. eexists _, _. split; [reflexivity|]. split; [|done]. split.
  - split; cbn; try done. intros l' x'. destruct (decide (l' = l)) as [->|]; [rewrite lookup_insert_eq; by intros [= <-]|].
    rewrite lookup_insert_ne by done. apply Hl.
  - split_and!; cbn; try done. intros l'. by apply insert_same.
Qed.

Lemma set_cond_fine c x s : alive s -> is_Some (conds s !! c) -> Forall (live s) (cqueue x) ->
  runs (set_cond c x) s (fun _ s' => fine s s' /\ level s' = level s /\ currentThread s' = currentThread s).
Proof.
  intros [Hc Hr Hl Hcd] Hi Hx. eexists _, _. split; [reflexivity|]. split; [|done]. split.
  - split; cbn; try done. intros c' x'. destruct (decide (c' = c)) as [->|]; [rewrite lookup_insert_eq; by intros [= <-]|].
    rewrite lookup_insert_ne by done. apply Hcd.
  - split_and!; cbn; try done. intros c'. by apply insert_same.
Qed.

Lemma lock_at_runs l s : is_Some (locks s !! l) -> runs (lock_at l) s (fun x s' => s' = s /\ locks s !! l = Some x).
Proof. intros [x Hx]. exists s, x. unfold lock_at. sys_run. by rewrite Hx. Qed.
Lemma cond_at_runs c s : is_Some (conds s !! c) -> runs (cond_at c) s (fun x s' => s' = s /\ conds s !! c = Some x).
Proof. intros [x Hx]. exists s, x. unfold cond_at. sys_run. by rewrite Hx. Qed.
Lemma held_runs l s : is_Some (locks s !! l) -> runs (isHeldByCurrentThread l) s (fun b s' => s' = s /\ b = bool_decide (own s l = Some (currentThread s))).
Proof. intros [x Hx]. eexists _, _. split; [by apply (held_run l s x)|done]. Qed.
Lemma gets_runs {A} (f : Sys -> A) s : runs (gets f) s (fun a s' => s' = s /\ a = f s).
Proof. by eexists _, _. Qed.

(** One step of a routine, with what it guarantees. *)
Ltac step_with H := eapply runs_bind; [eapply H|].

Lemma restore_fine {A} (a : A) old s s' : fine s s' -> runs (SetLevel old ;;; sret a) s' (fun _ s2 => fine s s2).
Proof.
  intros Hf. step_with SetLevel_fine; [apply Hf|]. intros b s2 (H2 & _). apply runs_ret. exact (fine_trans _ _ _ Hf H2).
Qed.

(** A routine that returns has the processor. *)
Definition stayed (s : Sys) (b : bool) (s' : Sys) : Prop :=
  fine s s' /\ (b = true -> currentThread s' = currentThread s).

Lemma restore_stayed old s s' : fine s s' -> currentThread s' = currentThread s ->
  runs (SetLevel old ;;; sret true) s' (stayed s).
Proof.
  intros Hf Hc. step_with SetLevel_fine; [apply Hf|]. intros b s2 (H2 & _ & _ & Hc2). apply runs_ret.
  split; [exact (fine_trans _ _ _ Hf H2)|]. intros _. congruence.
Qed.

Lemma left_stayed s s' : fine s s' -> runs (sret false) s' (stayed s).
Proof. intros Hf. by apply runs_ret. Qed.

Lemma Acquire_fine l k s : alive s -> is_Some (locks s !! l) -> runs (Acquire l k) s (stayed s).
Proof.
  intros Ha Hl. unfold Acquire. step_with SetLevel_fine; [done|]. intros old s1 (H1 & _ & Hlv & Hcu).
  assert (is_Some (locks s1 !! l)) as Hl1 by (by apply H1).
  step_with held_runs; [done|]. intros held s2 [-> _]. destruct held; [by apply restore_stayed|].
  step_with lock_at_runs; [done|]. intros x s2 [-> Hx]. step_with @gets_runs. intros t s2 [-> ->].
  pose proof (al_locks _ (proj1 H1) l x Hx) as Hq. case_decide.
  - step_with set_lock_fine; [apply H1|done|done|]. intros [] s2 (H2 & _ & Hc2). apply restore_stayed; [exact (fine_trans _ _ _ H1 H2)|congruence].
  - step_with set_lock_fine; [apply H1|done| |].
    { apply Forall_app. split; [done|]. apply Forall_singleton. apply (al_current _ (proj1 H1)). }
    intros [] s2 (H2 & Hlv2 & _). step_with Sleep_fine; [apply H2|congruence|]. intros [] s3 H3. apply left_stayed.
    exact (fine_trans _ _ _ H1 (fine_trans _ _ _ H2 H3)).
Qed.

(** The level on entry is restored by the routines that do not block. *)
Lemma Release_fine l s : alive s -> is_Some (locks s !! l) ->
  runs (Release l) s (fun _ s' => fine s s' /\ level s' = level s /\ currentThread s' = currentThread s).
Proof.
  intros Ha Hl. unfold Release. step_with SetLevel_fine; [done|]. intros old s1 (H1 & -> & Hlv & Hcu).
  assert (forall s2, fine s s2 -> currentThread s2 = currentThread s ->
    runs (SetLevel (level s) ;;; sret tt) s2 (fun _ s' => fine s s' /\ level s' = level s /\ currentThread s' = currentThread s)) as Hend.
  { intros s2 H2 Hc2. step_with SetLevel_fine; [apply H2|]. intros ? s3 (H3 & _ & Hlv3 & Hcu3). apply runs_ret.
    split; [exact (fine_trans _ _ _ H2 H3)|]. split; congruence. }
  assert (is_Some (locks s1 !! l)) as Hl1 by (by apply H1).
  step_with held_runs; [done|]. intros held s2 [-> _]. destruct (negb held); [by apply Hend|].
  step_with lock_at_runs; [done|]. intros x s2 [-> Hx].
  pose proof (al_locks _ (proj1 H1) l x Hx) as Hq.
  apply (runs_bind _ _ _ (fun _ s' => fine s1 s' /\ currentThread s' = currentThread s1)).
  - destruct (lqueue x) as [|t q].
    + eapply runs_conseq; [apply set_lock_fine; [apply H1|done|constructor]|]. naive_solver.
    + apply Forall_cons in Hq as [Ht Hq]. step_with set_lock_fine; [apply H1|done|done|]. intros [] s2 (H2 & _ & Hc2).
      eapply runs_conseq; [apply ReadyToRun_fine; [apply H2|by apply H2]|]. intros [] s3 (H3 & _ & Hc3).
      split; [exact (fine_trans _ _ _ H2 H3)|congruence].
  - intros [] s2 (H2 & Hc2). apply Hend; [exact (fine_trans _ _ _ H1 H2)|congruence].
Qed.

(** [Signal] and [Broadcast] do not block. *)
Definition restored (s s' : Sys) : Prop := fine s s' /\ level s' = level s /\ currentThread s' = currentThread s.

Lemma restore_level s s2 : fine s s2 -> currentThread s2 = currentThread s ->
  runs (SetLevel (level s) ;;; sret tt) s2 (fun _ s' => restored s s').
Proof.
  intros H2 Hc2. step_with SetLevel_fine; [apply H2|]. intros ? s3 (H3 & _ & Hlv3 & Hcu3). apply runs_ret.
  split; [exact (fine_trans _ _ _ H2 H3)|]. split; congruence.
Qed.

Definition lock_exists (s : Sys) (ol : option lid) : Prop := match ol with Some l => is_Some (locks s !! l) | None => True end.

Lemma lock_exists_fine s s' ol : fine s s' -> lock_exists s ol -> lock_exists s' ol.
Proof. intros [_ (_ & Hl & _)]. destruct ol as [l|]; [apply Hl|done]. Qed.

Lemma Signal_fine c ol s : alive s -> is_Some (conds s !! c) -> lock_exists s ol ->
  runs (Signal c ol) s (fun _ s' => restored s s').
Proof.
  intros Ha Hc Hol. unfold Signal. step_with SetLevel_fine; [done|]. intros old s1 (H1 & -> & Hlv & Hcu).
  destruct ol as [l|]; [|by apply restore_level]. apply (lock_exists_fine _ _ (Some l) H1) in Hol.
  step_with cond_at_runs; [by apply H1|]. intros x s2 [-> Hx]. pose proof (al_conds _ (proj1 H1) c x Hx) as Hq.
  destruct (cqueue x) as [|t q]; [by apply restore_level|]. apply Forall_cons in Hq as [Ht Hq].
  case_decide; [by apply restore_level|]. step_with held_runs; [done|]. intros held s2 [-> _].
  destruct (negb held); [by apply restore_level|].
  step_with set_cond_fine; [apply H1|by apply H1|done|]. intros [] s2 (H2 & _ & Hc2).
  step_with ReadyToRun_fine; [apply H2|by apply H2|]. intros [] s3 (H3 & _ & Hc3).
  apply (runs_bind _ _ _ (fun _ s' => fine s3 s' /\ currentThread s' = currentThread s3)).
  - case_decide; [|apply runs_ret; split; [apply fine_refl, H3|done]]. subst q.
    eapply runs_conseq; [apply set_cond_fine; [apply H3|by apply H3, H2, H1|constructor]|]. naive_solver.
  - intros [] s4 (H4 & Hc4). apply restore_level; [|congruence].
    exact (fine_trans _ _ _ H1 (fine_trans _ _ _ H2 (fine_trans _ _ _ H3 H4))).
Qed.

(** A successful [Signal] shortens the queue by its head, so the loop of
    [Broadcast] ends within its length. *)
Lemma Signal_pops c l s x t q : alive s -> conds s !! c = Some x -> cqueue x = t :: q -> waitingLock x = Some l ->
  (exists y, locks s !! l = Some y /\ threadWithPossession y = Some (currentThread s)) ->
  runs (Signal c (Some l)) s (fun _ s' => restored s s' /\ locks s' = locks s /\
    exists x', conds s' !! c = Some x' /\ cqueue x' = q /\ (q <> [] -> waitingLock x' = Some l)).
Proof.
  intros Ha Hx Hq Hw (y & Hy & Ho). destruct (Signal_fine c (Some l) s Ha) as (s' & [] & Hs & Hr); [by eexists|by eexists|].
  exists s', tt. split; [done|]. split; [done|]. pose proof (al_conds _ Ha c x Hx) as Ht. rewrite Hq in Ht.
  apply Forall_cons in Ht as [[[th Hth] _] _]. revert Hs. unfold Signal. sys_run. change (conds (set_level IntOff s)) with (conds s).
  rewrite Hx, Hq. rewrite decide_False by congruence. rewrite (held_run l _ y) by done.
  unfold own. change (locks (set_level IntOff s)) with (locks s). rewrite Hy. cbn [mbind option_bind].
  rewrite bool_decide_eq_true_2 by done. cbn [negb]. unfold ReadyToRun, setStatus. sys_run.
  change (threads (set_conds _ _)) with (threads s). rewrite Hth. case_decide as Hqn; intros [= <-].
  - split; [done|]. eexists. split; [apply lookup_insert_eq|]. by split.
  - split; [done|]. eexists. split; [apply lookup_insert_eq|]. split; [done|]. by intros _.
Qed.

Lemma broadcast_loop_fine c l q : forall s x, alive s -> conds s !! c = Some x -> cqueue x = q -> (q <> [] -> waitingLock x = Some l) ->
  (exists y, locks s !! l = Some y /\ threadWithPossession y = Some (currentThread s)) ->
  runs (broadcast_loop (length q) c (Some l)) s (fun _ s' => restored s s').
Proof.
  induction q as [|t q IH]; intros s x Ha Hx Hq Hw Hy; cbn [length broadcast_loop];
    (step_with cond_at_runs; [by eexists|]; intros x' s2 [-> Hx']; simplify_eq; rewrite Hq).
  - apply runs_ret. split; [by apply fine_refl|done].
  - eapply runs_bind; [apply (Signal_pops c l s x t q); try done; by apply Hw|].
    intros [] s2 (H2 & Hl2 & x' & Hx2 & Hq2 & Hw2). destruct H2 as (H2 & Hlv2 & Hc2).
    eapply runs_conseq; [apply (IH s2 x'); [apply H2|done|done|done|by rewrite Hl2, Hc2]|].
    intros [] s3 (H3 & Hlv3 & Hc3). split; [exact (fine_trans _ _ _ H2 H3)|]. split; congruence.
Qed.

Lemma Broadcast_fine c ol s : alive s -> is_Some (conds s !! c) -> lock_exists s ol ->
  runs (Broadcast c ol) s (fun _ s' => restored s s').
Proof.
  intros Ha Hc Hol. unfold Broadcast. step_with SetLevel_fine; [done|]. intros old s1 (H1 & -> & Hlv & Hcu).
  destruct ol as [l|]; [|by apply restore_level]. apply (lock_exists_fine _ _ (Some l) H1) in Hol.
  step_with cond_at_runs; [by apply H1|]. intros x s2 [-> Hx].
  destruct (cqueue x) as [|t q] eqn:Hq; [by apply restore_level|].
  case_decide as Hw; [by apply restore_level|]. destruct Hol as [y Hy].
  step_with held_runs; [by eexists|]. intros held s2 [-> ->]. case_bool_decide as Ho; cbn [negb]; [|by apply restore_level].
  assert (waitingLock x = Some l) as Hwl by (destruct (decide (waitingLock x = Some l)); done).
  eapply runs_bind; [apply (broadcast_loop_fine c l (t :: q) s1 x); try done; [apply H1|]|].
  - exists y. split; [done|]. unfold own in Ho. by rewrite Hy in Ho.
  - intros [] s2 (H2 & Hlv2 & Hc2). apply restore_level; [exact (fine_trans _ _ _ H1 H2)|congruence].
Qed.

Lemma Wait_fine c ol k s : alive s -> is_Some (conds s !! c) -> lock_exists s ol ->
  runs (Wait c ol k) s (fun _ s' => fine s s').
Proof.
  intros Ha Hc Hol. unfold Wait. step_with SetLevel_fine; [done|]. intros old s1 (H1 & _ & Hlv & Hcu).
  destruct ol as [l|]; [|by apply restore_fine]. apply (lock_exists_fine _ _ (Some l) H1) in Hol.
  apply (runs_bind _ _ _ (fun _ s' => fine s1 s' /\ level s' = level s1)).
  { unfold remember_lock. step_with cond_at_runs; [by apply H1|]. intros x s2 [-> Hx]. case_decide.
    - eapply runs_conseq; [apply set_cond_fine; [apply H1|by apply H1|by apply (al_conds _ (proj1 H1) c x)]|]. naive_solver.
    - apply runs_ret. split; [apply fine_refl, H1|done]. }
  intros [] s2 (H2 & Hlv2). pose proof (fine_trans _ _ _ H1 H2) as H12.
  step_with cond_at_runs; [by apply H12|]. intros x s3 [-> Hx]. case_decide; [by apply restore_fine|].
  apply (lock_exists_fine _ _ (Some l) H2) in Hol. step_with held_runs; [done|]. intros held s3 [-> _].
  destruct (negb held); [by apply restore_fine|].
  step_with Release_fine; [apply H2|done|]. intros [] s3 (H3 & Hlv3 & Hc3).
  step_with cond_at_runs; [by apply H3, H12|]. intros x3 s4 [-> Hx3]. step_with @gets_runs. intros t s4 [-> ->].
  step_with set_cond_fine; [apply H3|by apply H3, H12| |].
  { apply Forall_app. split; [by apply (al_conds _ (proj1 H3) c x3)|]. apply Forall_singleton, (al_current _ (proj1 H3)). }
  intros [] s4 (H4 & Hlv4 & _). step_with Sleep_fine; [apply H4|congruence|]. intros [] s5 H5. apply runs_ret.
  exact (fine_trans _ _ _ H12 (fine_trans _ _ _ H3 (fine_trans _ _ _ H4 H5))).
Qed.

Lemma Yield_fine k s : alive s -> runs (Yield k) s (stayed s).
Proof.
  intros Ha. unfold Yield. step_with SetLevel_fine; [done|]. intros old s1 (H1 & _ & _ & Hcu).
  unfold FindNextToRun. eapply (runs_bind _ _ _ (fun a s' => fine s s' /\ currentThread s' = currentThread s /\ match a with Some t => live s' t | None => True end)).
  { destruct (readyList s1) as [|t r] eqn:Hr.
    - eexists _, _. unfold sbind, get. rewrite Hr. split; [reflexivity|]. by split.
    - eexists _, _. unfold sbind, get. rewrite Hr. split; [reflexivity|].
      pose proof (al_ready _ (proj1 H1)) as Hl. rewrite Hr in Hl. apply Forall_cons in Hl as [Ht Hl].
      assert (fine s1 (set_ready r s1)) as H2 by (apply fine_intro; try done; [apply H1|apply (al_current _ (proj1 H1))]).
      split; [exact (fine_trans _ _ _ H1 H2)|]. split; [done|by apply H2]. }
  intros [t|] s2 (H2 & Hc2 & Ht); [|by apply restore_stayed].
  apply (runs_bind _ _ _ (fun a s' => a = s2 /\ s' = s2)); [by eexists _, _|]. intros ? ? [-> ->].
  step_with ReadyToRun_fine; [apply H2|apply (al_current _ (proj1 H2))|]. intros [] s3 (H3 & _ & Hc3).
  step_with set_frames_fine; [apply H3|rewrite <-Hc3; apply (al_current _ (proj1 H3))|]. intros [] s4 (H4 & _).
  step_with Run_fine; [apply H4|by apply H4, H3|]. intros [] s5 H5. apply left_stayed.
  exact (fine_trans _ _ _ H2 (fine_trans _ _ _ H3 (fine_trans _ _ _ H4 H5))).
Qed.

(** The stacks of threads that [dispatch] may choose, whose objects still
    exist. *)
Definition resumable (s : Sys) (fs : list frame) : Prop :=
  match fs with
  | [FRoot] | [FYield _] | [FAcquire _ _] | [FAcquire _ _; FWaitEnd _ _] => True
  | [FP i _] => is_Some (sems s !! i) /\ level s = IntOff
  | [FWait l _] => is_Some (locks s !! l)
  | _ => False
  end.

Lemma P_loop_fine i old k s : alive s -> is_Some (sems s !! i) -> level s = IntOff ->
  runs (P_loop i old k) s (stayed s).
Proof.
  intros Ha [x Hx] Hl. unfold P_loop.
  apply (runs_bind _ _ _ (fun a s' => s' = s)); [eexists _, _; unfold sem_at; sys_run; by rewrite Hx|].
  intros y s1 ->.
  assert (forall y, fine s (set_sems (<[i := y]> (sems s)) s)) as Hset
    by (intros z; apply fine_intro; try done; apply Ha).
  case_decide.
  - apply (runs_bind _ _ _ (fun _ s' => s' = s)); [by eexists _, _|]. intros t ? ->.
    eapply (runs_bind _ _ _ (fun _ s' => fine s s' /\ level s' = IntOff)); [by eexists _, _|].
    intros [] s2 [H2 Hl2]. step_with Sleep_fine; [apply H2|done|]. intros [] s3 H3. apply left_stayed.
    exact (fine_trans _ _ _ H2 H3).
  - eapply (runs_bind _ _ _ (fun _ s' => fine s s' /\ currentThread s' = currentThread s)); [by eexists _, _|].
    intros [] s2 [H2 Hc2]. by apply restore_stayed.
Qed.

Lemma destroy_fine s : alive s ->
  runs destroy_finished s (fun _ s' => fine s s' /\ level s' = level s /\ sems s' = sems s /\ currentThread s' = currentThread s).
Proof.
  intros Ha. pose proof (al_current s Ha) as [_ Hne]. unfold runs, destroy_finished. sys_run.
  destruct (threadToBeDestroyed s) as [d|] eqn:Hd.
  2: { eexists _, _. split; [reflexivity|]. split; [by apply fine_refl|done]. }
  unfold ASSERT. rewrite bool_decide_eq_true_2 by congruence. eexists _, _. split; [reflexivity|]. split; [|done].
  assert (forall t, live (set_destroyed None (set_threads (delete d (threads s)) s)) t <-> live s t) as Hlv.
  { intros t. unfold live. cbn. rewrite lookup_delete_is_Some, Hd. naive_solver. }
  assert (forall q, Forall (live s) q -> Forall (live (set_destroyed None (set_threads (delete d (threads s)) s))) q) as Hq
    by (intros q; rewrite !Forall_forall; intros H t Hin; by apply Hlv, H).
  destruct Ha. split; [split; cbn; eauto; by apply Hlv|by split_and!].
Qed.

Lemma resume_fine s th : alive s -> threads s !! currentThread s = Some th -> resumable s (frames th) ->
  runs resume s (stayed s).
Proof.
  intros Ha Hth Hr. unfold resume.
  apply (runs_bind _ _ _ (fun t s' => t = currentThread s /\ s' = s)); [by eexists _, _|]. intros ? ? [-> ->].
  apply (runs_bind _ _ _ (fun x s' => x = th /\ s' = s)); [eexists _, _; unfold thread_at; sys_run; by rewrite Hth|].
  intros ? ? [-> ->].
  apply (runs_bind _ _ _ (fun _ s' => fine s s' /\ level s' = level s /\ sems s' = sems s /\ currentThread s' = currentThread s)).
  { unfold runs, set_frames. sys_run. rewrite Hth. eexists _, _. split; [reflexivity|]. split; [|done].
    apply alive_threads; [done|]. intros t. apply insert_same. by eexists. }
  intros [] s1 (H1 & Hl1 & Hs1 & Hc1).
  apply (runs_bind _ _ _ (fun _ s' => fine s s' /\ level s' = level s /\ sems s' = sems s /\ currentThread s' = currentThread s)).
  { assert (runs destroy_finished s1 (fun _ s' => fine s s' /\ level s' = level s /\ sems s' = sems s /\ currentThread s' = currentThread s)) as Hd.
    { eapply runs_conseq; [apply destroy_fine, H1|]. intros [] s2 (H2 & Hl2 & Hs2 & Hc2).
      split; [exact (fine_trans _ _ _ H1 H2)|]. split_and!; congruence. }
    destruct (frames th) as [|[] fs]; try exact Hd. by apply runs_ret. }
  intros [] s2 (H2 & Hl2 & Hs2 & Hc2). clear s1 H1 Hl1 Hs1 Hc1.
  assert (forall lv, runs (SetLevel lv ;;; sret true) s2 (stayed s)) as Hend
    by (intros; by apply restore_stayed).
  assert (forall (c : K bool), runs c s2 (stayed s) ->
    runs (done <- c ;; if done : bool then sret true else sret false) s2 (stayed s)) as Hlast.
  { intros c Hc. eapply runs_bind; [exact Hc|]. intros [] s3 H3; by apply runs_ret. }
  destruct (frames th) as [|[|old|i old|l old|l old|l old|] [|f fs]]; try done; cbn [run_frames]; try (apply Hlast).
  - by apply Hend.
  - by apply Hend.
  - destruct Hr as [Hi Hl]. eapply runs_conseq; [apply P_loop_fine; [apply H2|by rewrite Hs2|congruence]|].
    intros b s3 [H3 Hc3]. split; [exact (fine_trans _ _ _ H2 H3)|]. intros ->. rewrite <-Hc2. by apply Hc3.
  - by apply Hend.
  - destruct f as [| | | | |l2 old2|]; try done. destruct fs; [|done]. cbn [run_frames].
    eapply runs_bind; [by apply Hend|]. intros [] s3 H3; [|by apply runs_ret].
    eapply runs_bind; [by apply (restore_stayed old2 s s3); apply H3|]. intros [] s4 H4; by apply runs_ret.
  - eapply runs_bind; [apply Acquire_fine; [apply H2|by apply H2]|]. intros b s3 [H3 Hc3].
    pose proof (fine_trans _ _ _ H2 H3). destruct b; [|by apply left_stayed].
    apply restore_stayed; [done|]. rewrite <-Hc2. by apply Hc3.
Qed.

(** ** The tables *)

Section Tables.
  Context {B : Type} `{BA : BitAllocator B}.
  Context (lockTableLock conditionTableLock : lid).
  Context (gwords : nat -> Z) (gowner : option tid) (gwait : option lid) (glock : LockEntry) (gcond : ConditionEntry).
  Implicit Types (k : Kern (B := B)) (bl bc : list bool).

(** [bl] and [bc] are the bits of the maps (none before the first create). *)
Definition map_ok (m : option B) (bits : list bool) : Prop :=
  (bits = [] /\ m = None) \/ (length bits = 500%nat /\ exists b, m = Some b /\ ba_rep b bits).

(** Entries that a create took and did not fill yet. *)
Definition reserved_lock k (i : Z) : Prop := exists t, tails k !! t = Some (TFillLock i).
Definition reserved_condition k (i : Z) : Prop := exists t, tails k !! t = Some (TFillCondition i).

Definition filled_lock k bl (i : nat) : Prop := bl !! i = Some true /\ ~ reserved_lock k (Z.of_nat i).
Definition filled_condition k bc (i : nat) : Prop := bc !! i = Some true /\ ~ reserved_condition k (Z.of_nat i).

(** The entries the threads inside calls go on with exist. *)
Definition tail_ok bl bc (tl : tail) : Prop :=
  match tl with
  | TFillLock i => 0 <= i < Z.of_nat (length bl)
  | TFillCondition i | TWait i _ => 0 <= i < Z.of_nat (length bc)
  | _ => True
  end.

Record tables_ok k bl bc : Prop := {
  tk_alive : alive (sys k);
  tk_lmap : map_ok (lockMap k) bl;
  tk_lsize : lockArraySize k = Z.of_nat (length bl);
  tk_ltable : length (lockTable k) = length bl;
  tk_lentry : forall i, filled_lock k bl i ->
    exists e l, lockTable k !! i = Some e /\ le_lock e = Some l /\ is_Some (locks (sys k) !! l) /\
      l <> lockTableLock /\ l <> conditionTableLock;
  tk_linj : forall i j e e', filled_lock k bl i -> filled_lock k bl j -> lockTable k !! i = Some e ->
    lockTable k !! j = Some e' -> le_lock e = le_lock e' -> i = j;
  tk_cmap : map_ok (conditionMap k) bc;
  tk_csize : conditionArraySize k = Z.of_nat (length bc);
  tk_ctable : length (conditionTable k) = length bc;
  tk_centry : forall i, filled_condition k bc i ->
    exists e c, conditionTable k !! i = Some e /\ ce_condition e = Some c /\ is_Some (conds (sys k) !! c);
  tk_cinj : forall i j e e', filled_condition k bc i -> filled_condition k bc j -> conditionTable k !! i = Some e ->
    conditionTable k !! j = Some e' -> ce_condition e = ce_condition e' -> i = j;
  tk_kernel : is_Some (locks (sys k) !! lockTableLock) /\ is_Some (locks (sys k) !! conditionTableLock);
  tk_next : (forall l, is_Some (locks (sys k) !! l) -> (l < nextLock k)%nat) /\
            (forall c, is_Some (conds (sys k) !! c) -> (c < nextCondition k)%nat);
  tk_tails : forall t tl, tails k !! t = Some tl -> tail_ok bl bc tl
}.

Lemma tables_ok_sys k bl bc x : tables_ok k bl bc -> fine (sys k) x -> tables_ok (set_sys x k) bl bc.
Proof.
  intros [] [Hx (Ht & Hl & Hc)]. split; cbn; try done.
  - intros i Hi. destruct (tk_lentry0 i Hi) as (e & l & ? & ? & ? & ?). exists e, l. rewrite Hl. done.
  - intros i Hi. destruct (tk_centry0 i Hi) as (e & c & ? & ? & ?). exists e, c. rewrite Hc. done.
  - by rewrite !Hl.
  - split; [intros l; rewrite Hl|intros c; rewrite Hc]; apply tk_next0.
Qed.

Lemma on_sys_runs {A} (c : ST Sys A) k bl bc (R : A -> Sys -> Prop) : tables_ok k bl bc ->
  runs c (sys k) (fun a x => fine (sys k) x /\ R a x) ->
  runs (on_sys c) k (fun a k' => k' = set_sys (sys k') k /\ tables_ok k' bl bc /\ fine (sys k) (sys k') /\ R a (sys k')).
Proof.
  intros Hk (x & a & Hc & Hf & HR). exists (set_sys x k), a. unfold on_sys. rewrite Hc. split; [done|].
  split; [done|]. split; [by apply tables_ok_sys|done].
Qed.

Lemma set_level_runs k bl bc lv : tables_ok k bl bc ->
  runs (on_sys (SetLevel lv)) k (fun _ k' => k' = set_sys (sys k') k /\ tables_ok k' bl bc).
Proof.
  intros Hk. eapply runs_conseq; [apply (on_sys_runs _ k bl bc (fun _ _ => True) Hk)|].
  - eapply runs_conseq; [apply SetLevel_fine, Hk|]. intros ? ? [? _]. done.
  - intros ? ? (? & ? & _). done.
Qed.

(** The end of a call. *)
Lemma finish_runs k bl bc lv : tables_ok k bl bc ->
  runs (on_sys (SetLevel lv) ;;; sret true) k (fun _ k' => exists bl' bc', tables_ok k' bl' bc').
Proof.
  intros Hk. eapply runs_bind; [by apply set_level_runs|]. intros [] k' [_ Hk']; apply runs_ret; eauto.
Qed.

(** *** Entries in use *)

Definition uses (bits : list bool) (i : Z) : bool :=
  bool_decide (0 <= i) && match bits !! Z.to_nat i with Some b => b | None => false end.

(** The objects the current thread may name. *)
Definition owns_lock k bl (i : Z) : bool :=
  uses bl i && match lockTable k !! Z.to_nat i with
               | Some e => bool_decide (lockSpace e = spaces k !! currentThread (sys k)) | None => false end.
Definition owns_condition k bc (i : Z) : bool :=
  uses bc i && match conditionTable k !! Z.to_nat i with
               | Some e => bool_decide (conditionSpace e = spaces k !! currentThread (sys k)) | None => false end.

Lemma uses_true bits i : uses bits i = true -> 0 <= i /\ bits !! Z.to_nat i = Some true.
Proof.
  unfold uses. rewrite andb_true_iff, bool_decide_eq_true. intros [Hi Hb]. split; [done|].
  destruct (bits !! Z.to_nat i) as [[]|]; done.
Qed.

Lemma map_test_ok m bits i : map_ok m bits -> ~ (i < 0 \/ i > Z.of_nat (length bits) - 1) ->
  exists b, m = Some b /\ ba_test b i = Ok (uses bits i).
Proof.
  intros Hm Hi. destruct Hm as [[-> ->]|[Hl (b & -> & Hr)]]; [cbn in Hi; lia|]. exists b. split; [done|].
  destruct (lookup_lt_is_Some_2 bits (Z.to_nat i)) as [x Hx]; [lia|].
  rewrite (ba_test_in b bits i x Hr) by (lia || done). unfold uses. rewrite Hx, bool_decide_eq_true_2 by lia. done.
Qed.

Lemma uses_out bits i : i < 0 \/ i > Z.of_nat (length bits) - 1 -> uses bits i = false.
Proof.
  intros Hi. unfold uses. destruct (decide (0 <= i)); [|by rewrite bool_decide_eq_false_2].
  rewrite lookup_ge_None_2 by lia. by rewrite andb_false_r.
Qed.

Lemma check_lock_ok k bl bc i : tables_ok k bl bc -> check_lock i k = Ok (k, owns_lock k bl i).
Proof.
  intros Hk. unfold check_lock, owns_lock. rewrite (tk_lsize _ _ _ Hk). case_decide as Hi.
  { by rewrite uses_out. }
  destruct (map_test_ok _ _ i (tk_lmap _ _ _ Hk) Hi) as (b & -> & Ht). cbn [deref rbind]. rewrite Ht. cbn [rbind].
  destruct (uses bl i) eqn:Hu; [|done]. apply uses_true in Hu as [H0 Hu]. cbn [negb andb].
  destruct (lookup_lt_is_Some_2 (lockTable k) (Z.to_nat i)) as [e He].
  { rewrite (tk_ltable _ _ _ Hk). by eapply lookup_lt_Some. }
  rewrite (arr_get_lookup _ _ e), He by done. done.
Qed.

Lemma check_condition_ok k bl bc i : tables_ok k bl bc -> check_condition i k = Ok (k, owns_condition k bc i).
Proof.
  intros Hk. unfold check_condition, owns_condition. rewrite (tk_csize _ _ _ Hk). case_decide as Hi.
  { by rewrite uses_out. }
  destruct (map_test_ok _ _ i (tk_cmap _ _ _ Hk) Hi) as (b & -> & Ht). cbn [deref rbind]. rewrite Ht. cbn [rbind].
  destruct (uses bc i) eqn:Hu; [|done]. apply uses_true in Hu as [H0 Hu]. cbn [negb andb].
  destruct (lookup_lt_is_Some_2 (conditionTable k) (Z.to_nat i)) as [e He].
  { rewrite (tk_ctable _ _ _ Hk). by eapply lookup_lt_Some. }
  rewrite (arr_get_lookup _ _ e), He by done. done.
Qed.

Lemma check_both_ok k bl bc c l : tables_ok k bl bc ->
  check_both c l k = Ok (k, owns_condition k bc c && owns_lock k bl l).
Proof.
  intros Hk. unfold check_both, sbind. rewrite (check_condition_ok k bl bc) by done.
  destruct (owns_condition k bc c); [by apply (check_lock_ok k bl bc)|done].
Qed.

(** A refused call leaves everything as it was. *)
Lemma checked_refused check body k : (forall k', k' = set_sys (set_level IntOff (sys k)) k -> check k' = Ok (k', false)) ->
  checked check body k = Ok (k, true).
Proof.
  intros Hc. unfold checked, on_sys, SetLevel, sbind, gets, modify, sret. cbn [rbind].
  rewrite Hc by done. cbn [rbind]. destruct k as [[] ]. done.
Qed.

(** A call that passes its check is its body. *)
Lemma checked_passed check body k : check (set_sys (set_level IntOff (sys k)) k) = Ok (set_sys (set_level IntOff (sys k)) k, true) ->
  checked check body k = body (level (sys k)) (set_sys (set_level IntOff (sys k)) k).
Proof.
  intros Hc. unfold checked, on_sys, SetLevel, sbind, gets, modify, sret. cbn [rbind]. rewrite Hc. done.
Qed.

Lemma tables_ok_level k bl bc lv : tables_ok k bl bc -> tables_ok (set_sys (set_level lv (sys k)) k) bl bc.
Proof. intros Hk. apply tables_ok_sys; [done|]. by apply fine_level, Hk. Qed.

(** A call that passes its checks runs its body with interrupts off. *)
Lemma checked_runs check body k bl bc (Q : bool -> Kern (B := B) -> Prop) : tables_ok k bl bc ->
  (forall k', k' = set_sys (sys k') k -> currentThread (sys k') = currentThread (sys k) -> tables_ok k' bl bc ->
     exists b, check k' = Ok (k', b) /\ (b = true -> forall lv, runs (body lv) k' Q)) ->
  (forall k', tables_ok k' bl bc -> Q true k') ->
  runs (checked check body) k Q.
Proof.
  intros Hk Hc HQ. unfold checked.
  eapply (runs_bind _ _ _ (fun _ k' => k' = set_sys (sys k') k /\ currentThread (sys k') = currentThread (sys k) /\ tables_ok k' bl bc)).
  { eexists _, _. split; [reflexivity|]. split; [done|]. split; [done|]. apply tables_ok_sys; [done|].
    by apply fine_level, Hk. }
  intros old k1 (He1 & Hc1 & Hk1). destruct (Hc k1 He1 Hc1 Hk1) as (b & Hb & Hbody).
  eapply (runs_bind _ _ _ (fun a s' => a = b /\ s' = k1)); [by eexists _, _|]. intros ? ? [-> ->].
  destruct b; [by apply Hbody|]. eapply runs_bind; [by apply set_level_runs|]. intros ? k2 [_ Hk2]. apply runs_ret. by apply HQ.
Qed.

(** An entry that a call may use. *)
Definition ready_lock k bl i : Prop := uses bl i = true /\ ~ reserved_lock k i.
Definition ready_condition k bc i : Prop := uses bc i = true /\ ~ reserved_condition k i.

Lemma ready_lock_filled k bl i : ready_lock k bl i -> 0 <= i /\ filled_lock k bl (Z.to_nat i).
Proof. intros [[Hi Hb]%uses_true Hr]. unfold filled_lock. by rewrite Z2Nat.id. Qed.
Lemma ready_condition_filled k bc i : ready_condition k bc i -> 0 <= i /\ filled_condition k bc (Z.to_nat i).
Proof. intros [[Hi Hb]%uses_true Hr]. unfold filled_condition. by rewrite Z2Nat.id. Qed.

Lemma lock_entry_runs k bl bc i : tables_ok k bl bc -> ready_lock k bl i ->
  runs (lock_entry i) k (fun e k' => k' = k /\ lockTable k !! Z.to_nat i = Some e /\
    exists l, le_lock e = Some l /\ is_Some (locks (sys k) !! l)).
Proof.
  intros Hk [H0 Hu]%ready_lock_filled. destruct (tk_lentry _ _ _ Hk _ Hu) as (e & l & He & Hl & Hlk & _).
  exists k, e. unfold lock_entry. rewrite (arr_get_lookup _ _ e) by done. split; [done|]. split; [done|]. split; [done|]. by exists l.
Qed.

Lemma condition_entry_runs k bl bc i : tables_ok k bl bc -> ready_condition k bc i ->
  runs (condition_entry i) k (fun e k' => k' = k /\ conditionTable k !! Z.to_nat i = Some e /\
    exists c, ce_condition e = Some c /\ is_Some (conds (sys k) !! c)).
Proof.
  intros Hk [H0 Hu]%ready_condition_filled. destruct (tk_centry _ _ _ Hk _ Hu) as (e & c & He & Hc & Hck).
  exists k, e. unfold condition_entry. rewrite (arr_get_lookup _ _ e) by done. split; [done|]. split; [done|]. split; [done|]. by exists c.
Qed.

(** Rewriting an entry without changing its object. *)
Lemma set_lock_entry_runs k bl bc i e e' : tables_ok k bl bc -> 0 <= i -> lockTable k !! Z.to_nat i = Some e -> le_lock e' = le_lock e ->
  runs (set_lock_entry i e') k (fun _ k' => tables_ok k' bl bc /\ sys k' = sys k /\ tails k' = tails k /\ lockTable k' = <[Z.to_nat i := e']> (lockTable k)).
Proof.
  intros Hk Hi He Hl. pose proof (lookup_lt_Some _ _ _ He). unfold runs, set_lock_entry. rewrite arr_set_in by lia. cbn [rbind].
  eexists _, _. split; [reflexivity|]. split; [|done]. destruct Hk. split; cbn; try done.
  - by rewrite length_insert.
  - intros j Hj. destruct (tk_lentry0 j Hj) as (ej & l & Hej & ? & ? & ?). destruct (decide (j = Z.to_nat i)) as [->|Hne].
    + exists e', l. rewrite list_lookup_insert_eq by done. simplify_eq. clear gwords gowner gwait glock gcond. split_and!; naive_solver congruence.
    + exists ej, l. by rewrite list_lookup_insert_ne.
  - assert (forall j ej, <[Z.to_nat i := e']> (lockTable k) !! j = Some ej -> exists ej0, lockTable k !! j = Some ej0 /\ le_lock ej = le_lock ej0) as Hsame.
    { intros j ej. rewrite list_lookup_insert. case_decide as Hd; [|eauto]. intros [= <-]. destruct Hd as [<- _]. eauto. }
    intros j1 j2 e1 e2 H1 H2 (f1 & F1 & G1)%Hsame (f2 & F2 & G2)%Hsame Heq. apply (tk_linj0 j1 j2 f1 f2 H1 H2); congruence.
Qed.

Lemma set_condition_entry_runs k bl bc i e e' : tables_ok k bl bc -> 0 <= i -> conditionTable k !! Z.to_nat i = Some e ->
  ce_condition e' = ce_condition e -> runs (set_condition_entry i e') k (fun _ k' => tables_ok k' bl bc /\ sys k' = sys k).
Proof.
  intros Hk Hi He Hl. pose proof (lookup_lt_Some _ _ _ He). unfold runs, set_condition_entry. rewrite arr_set_in by lia. cbn [rbind].
  eexists _, _. split; [reflexivity|]. split; [|done]. destruct Hk. split; cbn; try done.
  - by rewrite length_insert.
  - intros j Hj. destruct (tk_centry0 j Hj) as (ej & l & Hej & ? & ?). destruct (decide (j = Z.to_nat i)) as [->|Hne].
    + exists e', l. rewrite list_lookup_insert_eq by done. simplify_eq. clear gwords gowner gwait glock gcond. split_and!; naive_solver congruence.
    + exists ej, l. by rewrite list_lookup_insert_ne.
  - assert (forall j ej, <[Z.to_nat i := e']> (conditionTable k) !! j = Some ej -> exists ej0, conditionTable k !! j = Some ej0 /\ ce_condition ej = ce_condition ej0) as Hsame.
    { intros j ej. rewrite list_lookup_insert. case_decide as Hd; [|eauto]. intros [= <-]. destruct Hd as [<- _]. eauto. }
    intros j1 j2 e1 e2 H1 H2 (f1 & F1 & G1)%Hsame (f2 & F2 & G2)%Hsame Heq. apply (tk_cinj0 j1 j2 f1 f2 H1 H2); congruence.
Qed.

(** Deleting an object and freeing its entry. *)
Lemma insert_false_true (bits : list bool) (i j : nat) : <[i := false]> bits !! j = Some true -> bits !! j = Some true /\ j <> i.
Proof.
  rewrite list_lookup_insert. case_decide as Hd; [done|]. intros Hj. split; [done|]. intros ->.
  apply Hd. split; [done|]. by eapply lookup_lt_Some.
Qed.

Lemma map_clear_ok m bits i : map_ok m bits -> bits !! Z.to_nat i = Some true -> 0 <= i ->
  exists b b', m = Some b /\ ba_clear b i = Ok b' /\ map_ok (Some b') (<[Z.to_nat i := false]> bits).
Proof.
  intros [[-> _]|[Hl (b & -> & Hr)]] Hi H0; [done|]. pose proof (lookup_lt_Some _ _ _ Hi).
  destruct (ba_clear_in b bits i Hr) as (b' & Hc & Hr'); [lia|]. exists b, b'. split; [done|]. split; [done|].
  right. rewrite length_insert. split; [done|]. by exists b'.
Qed.

Lemma cleared_lock k bl (i j : nat) k' : tails k' = tails k -> filled_lock k' (<[i := false]> bl) j ->
  filled_lock k bl j /\ j <> i.
Proof. unfold filled_lock, reserved_lock. intros -> [[? ?]%insert_false_true ?]. done. Qed.
Lemma cleared_condition k bc (i j : nat) k' : tails k' = tails k -> filled_condition k' (<[i := false]> bc) j ->
  filled_condition k bc j /\ j <> i.
Proof. unfold filled_condition, reserved_condition. intros -> [[? ?]%insert_false_true ?]. done. Qed.

Lemma tail_ok_length bl bc bl' bc' tl : length bl' = length bl -> length bc' = length bc -> tail_ok bl bc tl -> tail_ok bl' bc' tl.
Proof. intros H1 H2. unfold tail_ok. by rewrite H1, H2. Qed.

Lemma delete_lock_runs k bl bc i e l : tables_ok k bl bc -> 0 <= i -> filled_lock k bl (Z.to_nat i) ->
  lockTable k !! Z.to_nat i = Some e -> le_lock e = Some l ->
  runs (delete_lock (Some l) ;;; clear_lock_slot i) k (fun _ k' => tables_ok k' (<[Z.to_nat i := false]> bl) bc).
Proof.
  intros Hk Hi Hu He Hl. destruct (tk_lentry _ _ _ Hk _ Hu) as (e1 & l1 & He1 & Hl1 & [x Hx] & Hne & Hne2). simplify_eq.
  destruct (map_clear_ok _ _ i (tk_lmap _ _ _ Hk) (proj1 Hu) Hi) as (b & b' & Hb & Hc & Hm).
  unfold runs, sbind, delete_lock, clear_lock_slot. rewrite Hx. cbn [deref rbind]. cbn [lockMap set_sys].
  rewrite Hb. cbn [deref rbind]. rewrite Hc. cbn [rbind]. eexists _, _. split; [reflexivity|].
  pose proof (tk_linj _ _ _ Hk) as Hinj. destruct Hk. split; cbn; try done.
  - destruct tk_alive0. split; cbn; try done. intros l' x' [? Hx']%lookup_delete_Some. by eapply al_locks0.
  - by rewrite length_insert.
  - by rewrite length_insert.
  - intros j [Hj Hji]%(cleared_lock k); [|done]. destruct (tk_lentry0 j Hj) as (ej & lj & Hej & Hlj & Hsj & ? & ?).
    exists ej, lj. split_and!; try done. rewrite lookup_delete_ne; [done|]. intros ->. apply Hji.
    apply (Hinj j (Z.to_nat i) ej e); congruence.
  - intros j1 j2 e2 e3 [? _]%(cleared_lock k) [? _]%(cleared_lock k); try done. by apply tk_linj0.
  - by rewrite !lookup_delete_ne by congruence.
  - split; [|apply tk_next0]. intros l' [y [_ Hy]%lookup_delete_Some]. apply tk_next0. by exists y.
  - intros t tl Ht. eapply tail_ok_length; [by rewrite length_insert|done|by eapply tk_tails0].
Qed.

Lemma delete_condition_runs k bl bc i e c : tables_ok k bl bc -> 0 <= i -> filled_condition k bc (Z.to_nat i) ->
  conditionTable k !! Z.to_nat i = Some e -> ce_condition e = Some c ->
  runs (delete_condition (Some c) ;;; clear_condition_slot i) k (fun _ k' => tables_ok k' bl (<[Z.to_nat i := false]> bc)).
Proof.
  intros Hk Hi Hu He Hl. destruct (tk_centry _ _ _ Hk _ Hu) as (e1 & l1 & He1 & Hl1 & [x Hx]). simplify_eq.
  destruct (map_clear_ok _ _ i (tk_cmap _ _ _ Hk) (proj1 Hu) Hi) as (b & b' & Hb & Hc & Hm).
  unfold runs, sbind, delete_condition, clear_condition_slot. rewrite Hx. cbn [deref rbind]. cbn [conditionMap set_sys].
  rewrite Hb. cbn [deref rbind]. rewrite Hc. cbn [rbind]. eexists _, _. split; [reflexivity|].
  pose proof (tk_cinj _ _ _ Hk) as Hinj. destruct Hk. split; cbn; try done.
  - destruct tk_alive0. split; cbn; try done. intros l' x' [? Hx']%lookup_delete_Some. by eapply al_conds0.
  - by rewrite length_insert.
  - by rewrite length_insert.
  - intros j [Hj Hji]%(cleared_condition k); [|done]. destruct (tk_centry0 j Hj) as (ej & lj & Hej & Hlj & Hsj).
    exists ej, lj. split_and!; try done. rewrite lookup_delete_ne; [done|]. intros ->. apply Hji.
    apply (Hinj j (Z.to_nat i) ej e); congruence.
  - intros j1 j2 e2 e3 [? _]%(cleared_condition k) [? _]%(cleared_condition k); try done. by apply tk_cinj0.
  - split; [apply tk_next0|]. intros l' [y [_ Hy]%lookup_delete_Some]. apply tk_next0. by exists y.
  - intros t tl Ht. eapply tail_ok_length; [done|by rewrite length_insert|by eapply tk_tails0].
Qed.

(** *** The calls *)

Definition some_ok k : Prop := exists bl bc, tables_ok k bl bc.

Lemma owns_uses_lock k bl i : owns_lock k bl i = true -> uses bl i = true.
Proof. unfold owns_lock. by intros [? _]%andb_true_iff. Qed.
Lemma owns_uses_condition k bc i : owns_condition k bc i = true -> uses bc i = true.
Proof. unfold owns_condition. by intros [? _]%andb_true_iff. Qed.

(** More entries may be reserved, not fewer. *)
Lemma tables_ok_tails k bl bc m : tables_ok k bl bc ->
  (forall i, reserved_lock k i -> reserved_lock (set_tails m k) i) ->
  (forall i, reserved_condition k i -> reserved_condition (set_tails m k) i) ->
  (forall t tl, m !! t = Some tl -> tail_ok bl bc tl) -> tables_ok (set_tails m k) bl bc.
Proof.
  intros [] Hl Hc Ht.
  assert (forall i, filled_lock (set_tails m k) bl i -> filled_lock k bl i) as Hfl by (intros i [? ?]; split; auto).
  assert (forall i, filled_condition (set_tails m k) bc i -> filled_condition k bc i) as Hfc by (intros i [? ?]; split; auto).
  split; cbn; eauto.
Qed.

(** The current thread is not inside a system call. *)
Definition outside k : Prop := tails k !! currentThread (sys k) = None.

Lemma put_tail_ok k bl bc t tl : tables_ok k bl bc -> tails k !! t = None -> tail_ok bl bc tl ->
  tables_ok (set_tails (<[t := tl]> (tails k)) k) bl bc.
Proof.
  intros Hk Ht Htl. apply tables_ok_tails; [done|..].
  - intros i [t' Ht']. exists t'. cbn. rewrite lookup_insert_ne by congruence. done.
  - intros i [t' Ht']. exists t'. cbn. rewrite lookup_insert_ne by congruence. done.
  - intros t' tl' [[_ <-]|[_ H]]%lookup_insert_Some; [done|]. by apply (tk_tails _ _ _ Hk t').
Qed.

Lemma put_tail_runs {A} (a : A) k bl bc t tl : tables_ok k bl bc -> tails k !! t = None -> tail_ok bl bc tl ->
  runs (put_tail t tl ;;; sret a) k (fun _ => some_ok).
Proof. intros Hk Ht Htl. eexists _, _. split; [reflexivity|]. exists bl, bc. by apply put_tail_ok. Qed.

Lemma finish_some k bl bc lv : tables_ok k bl bc -> runs (on_sys (SetLevel lv) ;;; sret true) k (fun _ k' => some_ok k').
Proof. apply finish_runs. Qed.

Lemma lift_deref_runs {A} (a : A) k : runs (lift (deref (Some a))) k (fun a' k' => k' = k /\ a' = a).
Proof. by eexists _, _. Qed.

Lemma current_runs k : runs current k (fun t k' => k' = k /\ t = currentThread (sys k)).
Proof. by eexists _, _. Qed.

(** What the checks of a call look at. *)
Lemma owns_lock_sys k k' bl i : k' = set_sys (sys k') k -> currentThread (sys k') = currentThread (sys k) ->
  owns_lock k' bl i = owns_lock k bl i.
Proof. intros -> Hc. unfold owns_lock. cbn in *. by rewrite Hc. Qed.
Lemma owns_condition_sys k k' bc i : k' = set_sys (sys k') k -> currentThread (sys k') = currentThread (sys k) ->
  owns_condition k' bc i = owns_condition k bc i.
Proof. intros -> Hc. unfold owns_condition. cbn in *. by rewrite Hc. Qed.
Lemma outside_sys k k' : k' = set_sys (sys k') k -> currentThread (sys k') = currentThread (sys k) -> outside k -> outside k'.
Proof. intros -> Hc. unfold outside. cbn in *. by rewrite Hc. Qed.

(** The call names no entry that a create of another thread has yet to fill. *)
Definition lock_named k bl i : Prop := owns_lock k bl i = true -> ~ reserved_lock k i.
Definition condition_named k bc i : Prop := owns_condition k bc i = true -> ~ reserved_condition k i.

Lemma reserved_lock_sys k k' i : k' = set_sys (sys k') k -> reserved_lock k' i -> reserved_lock k i.
Proof. by intros ->. Qed.
Lemma reserved_condition_sys k k' i : k' = set_sys (sys k') k -> reserved_condition k' i -> reserved_condition k i.
Proof. by intros ->. Qed.

Lemma checked_lock_runs i body k bl bc : tables_ok k bl bc -> outside k -> lock_named k bl i ->
  (forall k', tables_ok k' bl bc -> outside k' -> ready_lock k' bl i -> forall lv, runs (body lv) k' (fun _ => some_ok)) ->
  runs (checked (check_lock i) body) k (fun _ => some_ok).
Proof.
  intros Hk Ho Hn Hb. apply (checked_runs _ _ k bl bc); [done| |by intros k' Hk'; exists bl, bc].
  intros k' He Hc Hk'. eexists. split; [by apply (check_lock_ok k' bl bc)|]. intros Hown. apply Hb; [done|by eapply outside_sys|].
  split; [by eapply owns_uses_lock|]. intros Hr%(reserved_lock_sys k); [|done]. revert Hr. apply Hn. by rewrite <-(owns_lock_sys k k').
Qed.

Lemma checked_condition_runs i body k bl bc : tables_ok k bl bc -> outside k -> condition_named k bc i ->
  (forall k', tables_ok k' bl bc -> outside k' -> ready_condition k' bc i -> forall lv, runs (body lv) k' (fun _ => some_ok)) ->
  runs (checked (check_condition i) body) k (fun _ => some_ok).
Proof.
  intros Hk Ho Hn Hb. apply (checked_runs _ _ k bl bc); [done| |by intros k' Hk'; exists bl, bc].
  intros k' He Hc Hk'. eexists. split; [by apply (check_condition_ok k' bl bc)|]. intros Hown. apply Hb; [done|by eapply outside_sys|].
  split; [by eapply owns_uses_condition|]. intros Hr%(reserved_condition_sys k); [|done]. revert Hr. apply Hn.
  by rewrite <-(owns_condition_sys k k').
Qed.

(** The two entries of a call on a condition. *)
Definition both_named k bl bc c i : Prop := owns_condition k bc c = true -> owns_lock k bl i = true ->
  ~ reserved_condition k c /\ ~ reserved_lock k i.

Lemma checked_both_runs c i body k bl bc : tables_ok k bl bc -> outside k -> both_named k bl bc c i ->
  (forall k' e le d l lv, tables_ok k' bl bc -> outside k' -> ready_condition k' bc c ->
     conditionTable k' !! Z.to_nat c = Some e -> ce_condition e = Some d ->
     is_Some (conds (sys k') !! d) -> le_lock le = Some l -> is_Some (locks (sys k') !! l) ->
     runs (body lv e le) k' (fun _ => some_ok)) ->
  runs (checked (check_both c i) (fun lv => e <- condition_entry c ;; le <- lock_entry i ;; body lv e le)) k (fun _ => some_ok).
Proof.
  intros Hk Ho Hn Hb. apply (checked_runs _ _ k bl bc); [done| |by intros k' Hk'; exists bl, bc].
  intros k' Hke Hcu Hk'. eexists. split; [by apply (check_both_ok k' bl bc)|].
  intros [Hc Hl]%andb_true_iff lv. pose proof (outside_sys k k' Hke Hcu Ho).
  destruct Hn as [Hnc Hnl]; [by rewrite <-(owns_condition_sys k k')|by rewrite <-(owns_lock_sys k k')|].
  assert (ready_condition k' bc c) as Hrc by (split; [by eapply owns_uses_condition|by intros ?%(reserved_condition_sys k)]).
  assert (ready_lock k' bl i) as Hrl by (split; [by eapply owns_uses_lock|by intros ?%(reserved_lock_sys k)]).
  step_with condition_entry_runs; [done..|]. intros e k1 (-> & He & d & Hd & Hdk).
  step_with lock_entry_runs; [done..|]. intros le k1 (-> & Hle & l & Hll & Hlk). by eapply Hb.
Qed.

Lemma Acquire_Syscall_ok i k bl bc : tables_ok k bl bc -> outside k -> lock_named k bl i ->
  runs (Acquire_Syscall i) k (fun _ => some_ok).
Proof.
  intros Hk Ho Hn. apply (checked_lock_runs i _ k bl bc Hk Ho Hn). clear k Hk Ho Hn. intros k Hk Ho Hu lv.
  pose proof (ready_lock_filled _ _ _ Hu) as [Hi _].
  step_with lock_entry_runs; [done..|]. intros e k1 (-> & He & l & Hl & Hlk).
  eapply runs_bind; [by apply (set_lock_entry_runs k bl bc i e)|]. intros [] k1 (Hk1 & Hs1 & Ht1 & _).
  rewrite Hl. step_with @lift_deref_runs. intros ? k2 [-> ->]. step_with current_runs. intros t k2 [-> ->].
  eapply runs_bind; [apply (on_sys_runs _ k1 bl bc (fun _ _ => True) Hk1)|].
  { eapply runs_conseq; [apply Acquire_fine; [apply Hk1|by rewrite Hs1]|]. intros ? ? Hr. split; [apply Hr|done]. }
  intros done k2 (He2 & Hk2 & _). destruct done; [by apply (finish_some _ bl bc)|].
  apply (put_tail_runs false _ bl bc); [done| |done]. rewrite He2, Hs1. cbn. by rewrite Ht1.
Qed.

Lemma Release_Syscall_ok i k bl bc : tables_ok k bl bc -> outside k -> lock_named k bl i ->
  runs (Release_Syscall i) k (fun _ => some_ok).
Proof.
  intros Hk Ho Hn. apply (checked_lock_runs i _ k bl bc Hk Ho Hn). clear k Hk Ho Hn. intros k Hk Ho Hu lv.
  pose proof (ready_lock_filled _ _ _ Hu) as [Hi Hb].
  step_with lock_entry_runs; [done..|]. intros e k1 (-> & He & l & Hl & Hlk). cbv zeta. set (e' := mkLockEntry _ _ _ _).
  eapply runs_bind; [by apply (set_lock_entry_runs k bl bc i e e')|]. intros [] k1 (Hk1 & Hs1 & Htl1 & Ht1).
  change (le_lock e') with (le_lock e). rewrite Hl. step_with @lift_deref_runs. intros ? k2 [-> ->].
  eapply runs_bind; [apply (on_sys_runs _ k1 bl bc (fun _ _ => True) Hk1)|].
  { eapply runs_conseq; [apply Release_fine; [apply Hk1|by rewrite Hs1]|]. intros ? ? Hr. split; [apply Hr|done]. }
  intros [] k2 (He2 & Hk2 & Hf2 & _).
  assert (lockTable k2 !! Z.to_nat i = Some e') as Hent.
  { rewrite He2. cbn. rewrite Ht1, list_lookup_insert_eq; [done|]. by eapply lookup_lt_Some. }
  assert (filled_lock k2 bl (Z.to_nat i)) as Hb2.
  { revert Hb. unfold filled_lock, reserved_lock. rewrite He2. cbn. by rewrite Htl1. }
  eapply (runs_bind _ _ _ (fun _ => some_ok)); [|intros [] k3 (bl3 & bc3 & Hk3); by apply (finish_some _ bl3 bc3)].
  destruct (_ && _); [|apply runs_ret; by exists bl, bc].
  eapply runs_bind; [apply (on_sys_runs _ k2 bl bc (fun _ x => x = sys k2) Hk2)|].
  { eapply runs_conseq; [apply lock_at_runs; apply Hf2; by rewrite Hs1|]. intros x s' [-> _]. split; [apply fine_refl, Hk2|done]. }
  intros x k3 (He3 & Hk3 & _ & Hs3). assert (k3 = k2) as -> by (rewrite He3, Hs3; by destruct k2).
  destruct (negb _); [|apply runs_ret; by exists bl, bc].
  eapply runs_conseq; [by apply (delete_lock_runs k2 bl bc i e' l)|]. intros [] k4 Hk4. by eexists _, _.
Qed.

Lemma Signal_Syscall_ok c i k bl bc : tables_ok k bl bc -> outside k -> both_named k bl bc c i ->
  runs (Signal_Syscall c i) k (fun _ => some_ok).
Proof.
  intros Hk Ho Hn. apply (checked_both_runs c i _ k bl bc Hk Ho Hn). clear k Hk Ho Hn. intros k e le d l lv Hk Ho Hu He Hd Hdk Hl Hlk.
  rewrite Hd. step_with @lift_deref_runs. intros ? k2 [-> ->].
  eapply runs_bind; [apply (on_sys_runs _ k bl bc (fun _ _ => True) Hk)|].
  { eapply runs_conseq; [apply Signal_fine; [apply Hk|done|by rewrite Hl]|]. intros [] s' [? _]. done. }
  intros [] k2 (_ & Hk2 & _). by apply (finish_some _ bl bc).
Qed.

Lemma Broadcast_Syscall_ok c i k bl bc : tables_ok k bl bc -> outside k -> both_named k bl bc c i ->
  runs (Broadcast_Syscall c i) k (fun _ => some_ok).
Proof.
  intros Hk Ho Hn. apply (checked_both_runs c i _ k bl bc Hk Ho Hn). clear k Hk Ho Hn. intros k e le d l lv Hk Ho Hu He Hd Hdk Hl Hlk.
  rewrite Hd. step_with @lift_deref_runs. intros ? k2 [-> ->].
  eapply runs_bind; [apply (on_sys_runs _ k bl bc (fun _ _ => True) Hk)|].
  { eapply runs_conseq; [apply Broadcast_fine; [apply Hk|done|by rewrite Hl]|]. intros [] s' [? _]. done. }
  intros [] k2 (_ & Hk2 & _). by apply (finish_some _ bl bc).
Qed.

(** The rest of a wait, on a condition that is still there. *)
Lemma after_wait_ok c k bl bc lv : tables_ok k bl bc -> ready_condition k bc c -> runs (after_wait c lv) k (fun _ => some_ok).
Proof.
  intros Hk Hu. pose proof (ready_condition_filled _ _ _ Hu) as [Hi Hb]. unfold after_wait.
  step_with condition_entry_runs; [done..|]. intros e k1 (-> & He & d & Hd & Hdk).
  eapply (runs_bind _ _ _ (fun _ => some_ok)); [|intros [] k3 (bl3 & bc3 & Hk3); by apply (finish_some _ bl3 bc3)].
  destruct (ce_isToBeDeleted e); [|apply runs_ret; by exists bl, bc].
  rewrite Hd. step_with @lift_deref_runs. intros ? k2 [-> ->].
  eapply runs_bind; [apply (on_sys_runs _ k bl bc (fun _ x => x = sys k) Hk)|].
  { eapply runs_conseq; [by apply cond_at_runs|]. intros x s' [-> _]. split; [apply fine_refl, Hk|done]. }
  intros x k3 (He3 & Hk3 & _ & Hs3). assert (k3 = k) as -> by (rewrite He3, Hs3; by destruct k).
  destruct (negb _); [|apply runs_ret; by exists bl, bc].
  eapply runs_conseq; [by apply (delete_condition_runs k bl bc c e d)|]. intros [] k4 Hk4. by eexists _, _.
Qed.

Lemma Wait_Syscall_ok c i k bl bc : tables_ok k bl bc -> outside k -> both_named k bl bc c i ->
  runs (Wait_Syscall c i) k (fun _ => some_ok).
Proof.
  intros Hk Ho Hn. apply (checked_both_runs c i _ k bl bc Hk Ho Hn). clear k Hk Ho Hn. intros k e le d l lv Hk Ho Hu He Hd Hdk Hl Hlk.
  rewrite Hd. step_with @lift_deref_runs. intros ? k2 [-> ->]. step_with current_runs. intros t k2 [-> ->].
  eapply runs_bind; [apply (on_sys_runs _ k bl bc (fun _ _ => True) Hk)|].
  { eapply runs_conseq; [apply Wait_fine; [apply Hk|done|by rewrite Hl]|]. intros b s' ?. done. }
  intros b k2 (He2 & Hk2 & _). destruct b.
  - apply (after_wait_ok _ _ bl bc); [done|]. destruct Hu as [Hu Hr]. split; [done|].
    intros Hr2%(reserved_condition_sys k); done.
  - apply (put_tail_runs false _ bl bc); [done|by rewrite He2|].
    pose proof (uses_true _ _ (proj1 Hu)) as [? ?%lookup_lt_Some]. cbn. lia.
Qed.

Lemma DestroyLock_Syscall_ok i k bl bc : tables_ok k bl bc -> outside k -> lock_named k bl i ->
  runs (DestroyLock_Syscall i) k (fun _ => some_ok).
Proof.
  intros Hk Ho Hn. apply (checked_lock_runs i _ k bl bc Hk Ho Hn). clear k Hk Ho Hn. intros k Hk Ho Hu lv.
  pose proof (ready_lock_filled _ _ _ Hu) as [Hi Hb].
  step_with lock_entry_runs; [done..|]. intros e k1 (-> & He & l & Hl & Hlk). rewrite Hl.
  step_with @lift_deref_runs. intros ? k2 [-> ->].
  eapply runs_bind; [apply (on_sys_runs _ k bl bc (fun _ x => x = sys k) Hk)|].
  { eapply runs_conseq; [by apply lock_at_runs|]. intros x s' [-> _]. split; [apply fine_refl, Hk|done]. }
  intros x k3 (He3 & Hk3 & _ & Hs3). assert (k3 = k) as -> by (rewrite He3, Hs3; by destruct k).
  eapply (runs_bind _ _ _ (fun _ => some_ok)); [|intros [] k4 (bl3 & bc3 & Hk4); by apply (finish_some _ bl3 bc3)].
  destruct (negb _).
  - eapply runs_conseq; [by apply (delete_lock_runs k bl bc i e l)|]. intros [] k4 Hk4. by eexists _, _.
  - eapply runs_conseq; [by apply (set_lock_entry_runs k bl bc i e)|]. intros [] k4 [Hk4 _]. by exists bl, bc.
Qed.

Lemma DestroyCondition_Syscall_ok i k bl bc : tables_ok k bl bc -> outside k -> condition_named k bc i ->
  runs (DestroyCondition_Syscall i) k (fun _ => some_ok).
Proof.
  intros Hk Ho Hn. apply (checked_condition_runs i _ k bl bc Hk Ho Hn). clear k Hk Ho Hn. intros k Hk Ho Hu lv.
  pose proof (ready_condition_filled _ _ _ Hu) as [Hi Hb].
  step_with condition_entry_runs; [done..|]. intros e k1 (-> & He & l & Hl & Hlk). rewrite Hl.
  step_with @lift_deref_runs. intros ? k2 [-> ->].
  eapply runs_bind; [apply (on_sys_runs _ k bl bc (fun _ x => x = sys k) Hk)|].
  { eapply runs_conseq; [by apply cond_at_runs|]. intros x s' [-> _]. split; [apply fine_refl, Hk|done]. }
  intros x k3 (He3 & Hk3 & _ & Hs3). assert (k3 = k) as -> by (rewrite He3, Hs3; by destruct k).
  eapply (runs_bind _ _ _ (fun _ => some_ok)); [|intros [] k4 (bl3 & bc3 & Hk4); by apply (finish_some _ bl3 bc3)].
  destruct (negb _).
  - eapply runs_conseq; [by apply (delete_condition_runs k bl bc i e l)|]. intros [] k4 Hk4. by eexists _, _.
  - eapply runs_conseq; [by apply (set_condition_entry_runs k bl bc i e)|]. intros [] k4 [Hk4 _]. by exists bl, bc.
Qed.

(** *** Creating *)

Lemma no_true : length (replicate (Z.to_nat MAX_LOCKS_CONDITIONS) false) = 500%nat /\
  forall i, replicate (Z.to_nat MAX_LOCKS_CONDITIONS) false !! i <> Some true.
Proof. split; [apply length_replicate|]. by intros i [? _]%lookup_replicate. Qed.

Lemma tail_ok_grow bl bc bl' bc' tl : (length bl <= length bl')%nat -> (length bc <= length bc')%nat ->
  tail_ok bl bc tl -> tail_ok bl' bc' tl.
Proof. intros H1 H2. unfold tail_ok. destruct tl; lia. Qed.

Lemma init_locks_ok k bl bc : tables_ok k bl bc ->
  runs (init_locks gwords glock) k (fun _ k' => exists bl', tables_ok k' bl' bc /\ sys k' = sys k /\ length bl' = 500%nat /\ tails k' = tails k /\ (bl <> [] -> bl' = bl) /\ (bl = [] -> ~ Forall (eq true) bl')).
Proof.
  intros Hk. unfold runs, init_locks. rewrite (tk_lsize _ _ _ Hk).
  destruct (tk_lmap _ _ _ Hk) as [[-> Hm]|[Hl _]].
  - rewrite decide_True by done.
    destruct (ba_new_clear MAX_LOCKS_CONDITIONS gwords) as (b & -> & Hr); [by vm_compute|]. cbn [rbind].
    destruct no_true as [Hl0 Hf0]. revert Hr Hl0 Hf0. generalize (replicate (Z.to_nat MAX_LOCKS_CONDITIONS) false). intros bits Hr Hl0 Hf0.
    assert (length (replicate (Z.to_nat MAX_LOCKS_CONDITIONS) glock) = 500%nat) as Ht0 by apply length_replicate.
    revert Ht0. generalize (replicate (Z.to_nat MAX_LOCKS_CONDITIONS) glock). intros tbl Ht0.
    eexists _, _. split; [reflexivity|]. exists bits. split; [|split_and!; [done|done|done|done|]].
    2: { intros _ Hall. destruct bits as [|x bits]; [done|]. apply Forall_cons in Hall as [<- _]. by apply (Hf0 0%nat). }
    destruct Hk. split; cbn; try done; try lia.
    + right. split; [done|]. by exists b.
    + by rewrite Hl0.
    + intros i [Hi _]. by apply Hf0 in Hi.
    + intros i j e e' [Hi _]. by apply Hf0 in Hi.
    + intros t tl Ht. eapply tail_ok_grow; [| |by eapply tk_tails0]; cbn; lia.
  - rewrite decide_False by lia. exists k, tt. split; [done|]. exists bl. split_and!; try done. by intros ->.
Qed.

Lemma init_conditions_ok k bl bc : tables_ok k bl bc ->
  runs (init_conditions gwords gcond) k (fun _ k' => exists bc', tables_ok k' bl bc' /\ sys k' = sys k /\ length bc' = 500%nat /\ tails k' = tails k /\ (bc <> [] -> bc' = bc) /\ (bc = [] -> ~ Forall (eq true) bc')).
Proof.
  intros Hk. unfold runs, init_conditions. rewrite (tk_csize _ _ _ Hk).
  destruct (tk_cmap _ _ _ Hk) as [[-> Hm]|[Hl _]].
  - rewrite decide_True by done.
    destruct (ba_new_clear MAX_LOCKS_CONDITIONS gwords) as (b & -> & Hr); [by vm_compute|]. cbn [rbind].
    destruct no_true as [Hl0 Hf0]. revert Hr Hl0 Hf0. generalize (replicate (Z.to_nat MAX_LOCKS_CONDITIONS) false). intros bits Hr Hl0 Hf0.
    assert (length (replicate (Z.to_nat MAX_LOCKS_CONDITIONS) gcond) = 500%nat) as Ht0 by apply length_replicate.
    revert Ht0. generalize (replicate (Z.to_nat MAX_LOCKS_CONDITIONS) gcond). intros tbl Ht0.
    eexists _, _. split; [reflexivity|]. exists bits. split; [|split_and!; [done|done|done|done|]].
    2: { intros _ Hall. destruct bits as [|x bits]; [done|]. apply Forall_cons in Hall as [<- _]. by apply (Hf0 0%nat). }
    destruct Hk. split; cbn; try done; try lia.
    + right. split; [done|]. by exists b.
    + by rewrite Hl0.
    + intros i [Hi _]. by apply Hf0 in Hi.
    + intros i j e e' [Hi _]. by apply Hf0 in Hi.
    + intros t tl Ht. eapply tail_ok_grow; [| |by eapply tk_tails0]; cbn; lia.
  - rewrite decide_False by lia. exists k, tt. split; [done|]. exists bc. split_and!; try done. by intros ->.
Qed.

Lemma alive_new_lock x l : alive x -> alive (set_locks (<[l := Lock_new gowner]> (locks x)) x).
Proof.
  intros []. split; cbn; try done. intros l' y. destruct (decide (l' = l)) as [->|].
  - rewrite lookup_insert_eq. intros [= <-]. constructor.
  - rewrite lookup_insert_ne by done. apply al_locks0.
Qed.
Lemma alive_new_cond x c : alive x -> alive (set_conds (<[c := Condition_new gwait]> (conds x)) x).
Proof.
  intros []. split; cbn; try done. intros l' y. destruct (decide (l' = c)) as [->|].
  - rewrite lookup_insert_eq. intros [= <-]. constructor.
  - rewrite lookup_insert_ne by done. apply al_conds0.
Qed.

(** The thread [t] is about to fill the entry [i], which its create took. *)
Definition filling_lock (t : tid) (i : Z) k bl bc : Prop :=
  tails k !! t = None /\ tables_ok (set_tails (<[t := TFillLock i]> (tails k)) k) bl bc.

Lemma filling_lock_sys t i k bl bc x : filling_lock t i k bl bc -> fine (sys k) x -> filling_lock t i (set_sys x k) bl bc.
Proof. intros [Ht Hk] Hf. split; [done|]. exact (tables_ok_sys _ bl bc x Hk Hf). Qed.

Lemma take_lock_ok t k bl bc n b : tables_ok k bl bc -> tails k !! t = None -> bl !! n = Some false ->
  ba_rep b (<[n := true]> bl) -> length bl = 500%nat ->
  filling_lock t (Z.of_nat n) (set_lock_table (lockTable k) (Some b) (lockArraySize k) k) (<[n := true]> bl) bc.
Proof.
  intros Hk Ht Hn Hr Hl. split; [done|]. set (k' := set_tails _ _).
  pose proof (lookup_lt_Some _ _ _ Hn) as Hnl.
  assert (forall j, filled_lock k' (<[n := true]> bl) j -> filled_lock k bl j) as Hfl.
  { intros j [Hj Hres]. assert (j <> n) as Hne.
    { intros ->. apply Hres. exists t. apply lookup_insert_eq. }
    rewrite list_lookup_insert_ne in Hj by done. split; [done|]. intros [t' Ht']. apply Hres. exists t'.
    cbn. rewrite lookup_insert_ne by congruence. done. }
  assert (forall j, filled_condition k' bc j -> filled_condition k bc j) as Hfc.
  { intros j [Hj Hres]. split; [done|]. intros [t' Ht']. apply Hres. exists t'.
    cbn. rewrite lookup_insert_ne by congruence. done. }
  destruct Hk. split; cbn; rewrite ?length_insert; eauto.
  - right. rewrite length_insert. split; [done|]. by exists b.
  - intros t' tl [[_ <-]|[_ H]]%lookup_insert_Some; [cbn; rewrite length_insert; lia|].
    eapply tail_ok_length; [by rewrite length_insert|done|by eapply tk_tails0].
Qed.

Lemma fill_lock_ok t i k bl bc : filling_lock t i k bl bc ->
  exists k', fill_lock gowner i k = Ok (k', Some i) /\ tables_ok k' bl bc.
Proof.
  intros [Ht Hk]. pose proof (tk_tails _ _ _ Hk t (TFillLock i) (lookup_insert_eq _ _ _)) as Hi. cbn in Hi.
  pose proof (tk_ltable _ _ _ Hk) as Hlt. cbn in Hlt.
  unfold fill_lock, new_lock, current_space, gets, set_lock_entry, sbind, sret. cbn [sys set_sys set_next lockTable nextLock nextCondition].
  rewrite arr_set_in by lia. cbn [rbind]. eexists. split; [reflexivity|]. set (l := nextLock k). set (n := Z.to_nat i).
  assert (forall l', is_Some (locks (sys k) !! l') -> (l' < l)%nat) as Hlow by apply (tk_next _ _ _ Hk).
  match goal with |- tables_ok ?x _ _ => set (k' := x) end.
  assert (forall j, filled_lock k' bl j -> j <> n -> filled_lock (set_tails (<[t := TFillLock i]> (tails k)) k) bl j) as Hold.
  { intros j [Hj Hres] Hne. split; [done|]. intros [t' Ht']. cbn in Ht'.
    apply lookup_insert_Some in Ht' as [[_ [= E]]|[_ Ht']]; [|by apply Hres; exists t'].
    apply Hne. unfold n. lia. }
  assert (forall j, filled_condition k' bc j -> filled_condition (set_tails (<[t := TFillLock i]> (tails k)) k) bc j) as Holdc.
  { intros j [Hj Hres]. split; [done|]. intros [t' Ht']. cbn in Ht'.
    apply lookup_insert_Some in Ht' as [[_ [= E]]|[_ Ht']]. by apply Hres; exists t'. }
  destruct Hk. cbn in *. split; cbn; eauto.
  - by apply alive_new_lock.
  - by rewrite length_insert.
  - intros j Hj. destruct (decide (j = n)) as [->|Hne].
    + eexists _, l. rewrite list_lookup_insert_eq by lia. split; [done|]. split; [done|].
      split; [apply insert_is_Some'; by left|]. destruct tk_kernel0 as [H1 H2]. apply Hlow in H1, H2. lia.
    + destruct (tk_lentry0 j) as (e & l' & ? & ? & ? & ?); [by apply Hold|]. exists e, l'.
      rewrite list_lookup_insert_ne by done. split; [done|]. split; [done|]. split; [apply insert_is_Some'; by right|done].
  - assert (forall j e, filled_lock k' bl j -> j <> n -> lockTable k !! j = Some e -> le_lock e <> Some l) as Hfr.
    { intros j e Hj Hne He. destruct (tk_lentry0 j) as (e1 & l1 & He1 & Hl1 & Hs1 & _); [by apply Hold|].
      simplify_eq. rewrite Hl1. intros [= ->]. apply Hlow in Hs1. lia. }
    intros j1 j2 e1 e2 H1 H2 E1 E2 Heq.
    destruct (decide (j1 = n)) as [->|N1], (decide (j2 = n)) as [->|N2]; [done|..];
      rewrite ?list_lookup_insert_eq in E1 by lia; rewrite ?list_lookup_insert_eq in E2 by lia;
      rewrite ?list_lookup_insert_ne in E1 by done; rewrite ?list_lookup_insert_ne in E2 by done.
    + injection E1 as <-. exfalso. apply (Hfr j2 e2 H2 N2 E2). by rewrite <-Heq.
    + injection E2 as <-. exfalso. apply (Hfr j1 e1 H1 N1 E1). by rewrite Heq.
    + apply (tk_linj0 j1 j2 e1 e2); [by apply Hold|by apply Hold|done..].
  - destruct tk_kernel0. split; apply insert_is_Some'; by right.
  - split; [|by apply tk_next0]. intros l' Hl'%insert_is_Some'. destruct Hl' as [->|Hl']; [lia|]. apply Hlow in Hl'. lia.
  - intros t' tl Ht'. apply (tk_tails0 t'). rewrite lookup_insert_ne by congruence. done.
Qed.

Definition filling_condition (t : tid) (i : Z) k bl bc : Prop :=
  tails k !! t = None /\ tables_ok (set_tails (<[t := TFillCondition i]> (tails k)) k) bl bc.

Lemma filling_condition_sys t i k bl bc x : filling_condition t i k bl bc -> fine (sys k) x -> filling_condition t i (set_sys x k) bl bc.
Proof. intros [Ht Hk] Hf. split; [done|]. exact (tables_ok_sys _ bl bc x Hk Hf). Qed.

Lemma take_condition_ok t k bl bc n b : tables_ok k bl bc -> tails k !! t = None -> bc !! n = Some false ->
  ba_rep b (<[n := true]> bc) -> length bc = 500%nat ->
  filling_condition t (Z.of_nat n) (set_condition_table (conditionTable k) (Some b) (conditionArraySize k) k) bl (<[n := true]> bc).
Proof.
  intros Hk Ht Hn Hr Hl. split; [done|]. set (k' := set_tails _ _).
  pose proof (lookup_lt_Some _ _ _ Hn) as Hnl.
  assert (forall j, filled_condition k' (<[n := true]> bc) j -> filled_condition k bc j) as Hfc.
  { intros j [Hj Hres]. assert (j <> n) as Hne.
    { intros ->. apply Hres. exists t. apply lookup_insert_eq. }
    rewrite list_lookup_insert_ne in Hj by done. split; [done|]. intros [t' Ht']. apply Hres. exists t'.
    cbn. rewrite lookup_insert_ne by congruence. done. }
  assert (forall j, filled_lock k' bl j -> filled_lock k bl j) as Hfl.
  { intros j [Hj Hres]. split; [done|]. intros [t' Ht']. apply Hres. exists t'.
    cbn. rewrite lookup_insert_ne by congruence. done. }
  destruct Hk. split; cbn; rewrite ?length_insert; eauto.
  - right. rewrite length_insert. split; [done|]. by exists b.
  - intros t' tl [[_ <-]|[_ H]]%lookup_insert_Some; [cbn; rewrite length_insert; lia|].
    eapply tail_ok_length; [done|by rewrite length_insert|by eapply tk_tails0].
Qed.

Lemma fill_condition_ok t i k bl bc : filling_condition t i k bl bc ->
  exists k', fill_condition gwait i k = Ok (k', Some i) /\ tables_ok k' bl bc.
Proof.
  intros [Ht Hk]. pose proof (tk_tails _ _ _ Hk t (TFillCondition i) (lookup_insert_eq _ _ _)) as Hi. cbn in Hi.
  pose proof (tk_ctable _ _ _ Hk) as Hlt. cbn in Hlt.
  unfold fill_condition, new_condition, current_space, gets, set_condition_entry, sbind, sret.
  cbn [sys set_sys set_next conditionTable nextLock nextCondition].
  rewrite arr_set_in by lia. cbn [rbind]. eexists. split; [reflexivity|]. set (l := nextCondition k). set (n := Z.to_nat i).
  assert (forall l', is_Some (conds (sys k) !! l') -> (l' < l)%nat) as Hlow by apply (tk_next _ _ _ Hk).
  match goal with |- tables_ok ?x _ _ => set (k' := x) end.
  assert (forall j, filled_condition k' bc j -> j <> n -> filled_condition (set_tails (<[t := TFillCondition i]> (tails k)) k) bc j) as Hold.
  { intros j [Hj Hres] Hne. split; [done|]. intros [t' Ht']. cbn in Ht'.
    apply lookup_insert_Some in Ht' as [[_ [= E]]|[_ Ht']]; [|by apply Hres; exists t'].
    apply Hne. unfold n. lia. }
  assert (forall j, filled_lock k' bl j -> filled_lock (set_tails (<[t := TFillCondition i]> (tails k)) k) bl j) as Holdl.
  { intros j [Hj Hres]. split; [done|]. intros [t' Ht']. cbn in Ht'.
    apply lookup_insert_Some in Ht' as [[_ [= E]]|[_ Ht']]. by apply Hres; exists t'. }
  destruct Hk. cbn in *. split; cbn; eauto.
  - by apply alive_new_cond.
  - by rewrite length_insert.
  - intros j Hj. destruct (decide (j = n)) as [->|Hne].
    + eexists _, l. rewrite list_lookup_insert_eq by lia. split; [done|]. split; [done|]. apply insert_is_Some'; by left.
    + destruct (tk_centry0 j) as (e & l' & ? & ? & ?); [by apply Hold|]. exists e, l'.
      rewrite list_lookup_insert_ne by done. split; [done|]. split; [done|]. apply insert_is_Some'; by right.
  - assert (forall j e, filled_condition k' bc j -> j <> n -> conditionTable k !! j = Some e -> ce_condition e <> Some l) as Hfr.
    { intros j e Hj Hne He. destruct (tk_centry0 j) as (e1 & l1 & He1 & Hl1 & Hs1); [by apply Hold|].
      simplify_eq. rewrite Hl1. intros [= ->]. apply Hlow in Hs1. lia. }
    intros j1 j2 e1 e2 H1 H2 E1 E2 Heq.
    destruct (decide (j1 = n)) as [->|N1], (decide (j2 = n)) as [->|N2]; [done|..];
      rewrite ?list_lookup_insert_eq in E1 by lia; rewrite ?list_lookup_insert_eq in E2 by lia;
      rewrite ?list_lookup_insert_ne in E1 by done; rewrite ?list_lookup_insert_ne in E2 by done.
    + injection E1 as <-. exfalso. apply (Hfr j2 e2 H2 N2 E2). by rewrite <-Heq.
    + injection E2 as <-. exfalso. apply (Hfr j1 e1 H1 N1 E1). by rewrite Heq.
    + apply (tk_cinj0 j1 j2 e1 e2); [by apply Hold|by apply Hold|done..].
  - split; [by apply tk_next0|]. intros l' Hl'%insert_is_Some'. destruct Hl' as [->|Hl']; [lia|]. apply Hlow in Hl'. lia.
  - intros t' tl Ht'. apply (tk_tails0 t'). rewrite lookup_insert_ne by congruence. done.
Qed.

(** What happens to a call: consistent tables, when it ends or gives up the
    processor; or the machine halts, which [full] explains. *)
Definition survives {A} (full : Prop) (r : res (Kern (B := B) * A)) : Prop :=
  (exists k' a, r = Ok (k', a) /\ some_ok k') \/ (r = Fault MachineHalt /\ full).

Definition full (bits : list bool) : Prop := bits <> [] /\ Forall (eq true) bits.

Lemma survives_runs {A} (c : ST (Kern (B := B)) A) k F : runs c k (fun _ => some_ok) -> survives F (c k).
Proof. intros (k' & a & Hc & Hk). left. by exists k', a. Qed.

Lemma survives_ok {A} F k (a : A) : some_ok k -> survives F (Ok (k, a)).
Proof. intros Hk. left. by exists k, a. Qed.

Lemma returned_survives {A} F (c : ST (Kern (B := B)) (option A)) k : survives F (c k) -> survives F (returned c k).
Proof.
  intros [(k' & a & Hc & Hk)|[Hc HF]]; unfold returned, sbind; rewrite Hc; [|by right]. by apply survives_ok.
Qed.

(** A time slice that may be over. *)
Lemma sliced_survives {A} F slice tl (rest : ST (Kern (B := B)) (option A)) k : alive (sys k) ->
  (forall x, fine (sys k) x -> currentThread x = currentThread (sys k) -> survives F (rest (set_sys x k))) ->
  (forall x, fine (sys k) x -> some_ok (set_tails (<[currentThread (sys k) := tl]> (tails k)) (set_sys x k))) ->
  survives F (sliced slice tl rest k).
Proof.
  intros Ha Hr Hp. unfold sliced. destruct slice.
  - destruct (Yield_fine [] (sys k) Ha) as (x & b & Hy & Hf & Hc).
    unfold sbind, current, gets, on_sys. rewrite Hy. cbn [rbind]. destruct b; [by apply Hr, Hc|].
    apply survives_ok. by apply Hp.
  - specialize (Hr (sys k) (fine_refl _ Ha) eq_refl). by destruct k.
Qed.

Lemma fill_lock_survives F slice i k bl bc : filling_lock (currentThread (sys k)) i k bl bc ->
  survives F (sliced slice (TFillLock i) (fill_lock gowner i) k).
Proof.
  intros Hf. apply sliced_survives; [apply Hf| |].
  - intros x Hx _. destruct (fill_lock_ok (currentThread (sys k)) i (set_sys x k) bl bc) as (k' & -> & Hk');
      [by apply filling_lock_sys|]. apply survives_ok. by exists bl, bc.
  - intros x Hx. exists bl, bc. apply (filling_lock_sys _ _ _ _ _ x Hf Hx).
Qed.

Lemma fill_condition_survives F slice i k bl bc : filling_condition (currentThread (sys k)) i k bl bc ->
  survives F (sliced slice (TFillCondition i) (fill_condition gwait i) k).
Proof.
  intros Hf. apply sliced_survives; [apply Hf| |].
  - intros x Hx _. destruct (fill_condition_ok (currentThread (sys k)) i (set_sys x k) bl bc) as (k' & -> & Hk');
      [by apply filling_condition_sys|]. apply survives_ok. by exists bl, bc.
  - intros x Hx. exists bl, bc. apply (filling_condition_sys _ _ _ _ _ x Hf Hx).
Qed.

(** Creating halts the machine on a full table only. *)
Lemma create_lock_survives slice k bl bc : tables_ok k bl bc -> outside k ->
  survives (full bl) (create_lock lockTableLock gwords gowner glock slice k).
Proof.
  intros Hk Ho. unfold create_lock. destruct (init_locks_ok k bl bc Hk) as (k1 & [] & H1 & bl1 & Hk1 & Hs1 & Hl1 & Ht1 & Hold & Hnew).
  destruct (tk_lmap _ _ _ Hk1) as [[-> _]|[Hl500 (b & Hb & Hr)]]; [done|].
  unfold sbind at 1. rewrite H1. unfold sbind at 1, find_lock_slot. rewrite Hb. cbn [deref rbind].
  destruct (first_clear bl1) as [n|] eqn:Hfc.
  2: { rewrite (ba_find_none b bl1 Hr Hfc). cbn [rbind]. right. split; [done|]. apply first_clear_None in Hfc.
       destruct (decide (bl = [])) as [E|Hne]; [by destruct (Hnew E)|]. rewrite (Hold Hne) in Hfc. by split. }
  destruct (ba_find_some b bl1 n Hr Hfc) as (b' & -> & Hr'). apply first_clear_Some in Hfc as [Hn _].
  cbn [rbind]. rewrite decide_False by lia.
  assert (filling_lock (currentThread (sys k)) (Z.of_nat n) (set_lock_table (lockTable k1) (Some b') (lockArraySize k1) k1)
    (<[n := true]> bl1) bc) as Hf by (apply take_lock_ok; try done; by rewrite Ht1).
  assert (sys (set_lock_table (lockTable k1) (Some b') (lockArraySize k1) k1) = sys k) as Hs2 by done.
  revert Hf Hs2. generalize (set_lock_table (lockTable k1) (Some b') (lockArraySize k1) k1). intros k2 Hf Hs2.
  assert (is_Some (locks (sys k2) !! lockTableLock)) as Hlk by (rewrite Hs2; apply Hk).
  destruct (Release_fine lockTableLock (sys k2)) as (x & [] & Hrel & Hfx & _ & Hcu); [apply Hf|done|].
  unfold sbind at 1, on_sys. rewrite Hrel. cbn [rbind]. apply (fill_lock_survives _ _ _ (set_sys x k2) (<[n := true]> bl1) bc).
  cbn. rewrite Hcu, Hs2. by apply filling_lock_sys.
Qed.

Lemma create_condition_survives slice k bl bc : tables_ok k bl bc -> outside k ->
  survives (full bc) (create_condition conditionTableLock gwords gwait gcond slice k).
Proof.
  intros Hk Ho. unfold create_condition. destruct (init_conditions_ok k bl bc Hk) as (k1 & [] & H1 & bc1 & Hk1 & Hs1 & Hl1 & Ht1 & Hold & Hnew).
  destruct (tk_cmap _ _ _ Hk1) as [[-> _]|[Hl500 (b & Hb & Hr)]]; [done|].
  unfold sbind at 1. rewrite H1. unfold sbind at 1, find_condition_slot. rewrite Hb. cbn [deref rbind].
  destruct (first_clear bc1) as [n|] eqn:Hfc.
  2: { rewrite (ba_find_none b bc1 Hr Hfc). cbn [rbind]. right. split; [done|]. apply first_clear_None in Hfc.
       destruct (decide (bc = [])) as [E|Hne]; [by destruct (Hnew E)|]. rewrite (Hold Hne) in Hfc. by split. }
  destruct (ba_find_some b bc1 n Hr Hfc) as (b' & -> & Hr'). apply first_clear_Some in Hfc as [Hn _].
  cbn [rbind]. rewrite decide_False by lia.
  assert (filling_condition (currentThread (sys k)) (Z.of_nat n) (set_condition_table (conditionTable k1) (Some b') (conditionArraySize k1) k1)
    bl (<[n := true]> bc1)) as Hf by (apply take_condition_ok; try done; by rewrite Ht1).
  assert (sys (set_condition_table (conditionTable k1) (Some b') (conditionArraySize k1) k1) = sys k) as Hs2 by done.
  revert Hf Hs2. generalize (set_condition_table (conditionTable k1) (Some b') (conditionArraySize k1) k1). intros k2 Hf Hs2.
  assert (is_Some (locks (sys k2) !! conditionTableLock)) as Hlk by (rewrite Hs2; apply Hk).
  destruct (Release_fine conditionTableLock (sys k2)) as (x & [] & Hrel & Hfx & _ & Hcu); [apply Hf|done|].
  unfold sbind at 1, on_sys. rewrite Hrel. cbn [rbind]. apply (fill_condition_survives _ _ _ (set_sys x k2) bl (<[n := true]> bc1)).
  cbn. rewrite Hcu, Hs2. by apply filling_condition_sys.
Qed.

Lemma CreateLock_Syscall_survives slice1 slice2 k bl bc : tables_ok k bl bc -> outside k ->
  survives (full bl) (CreateLock_Syscall lockTableLock gwords gowner glock slice1 slice2 k).
Proof.
  intros Hk Ho. destruct (Acquire_fine lockTableLock [] (sys k)) as (x & b & Ha & Hf & Hc); [apply Hk|apply Hk|].
  unfold CreateLock_Syscall, sbind at 1, current, gets. unfold sbind at 1, on_sys. rewrite Ha. cbn [rbind].
  pose proof (tables_ok_sys k bl bc x Hk Hf) as Hk1. destruct b.
  - apply sliced_survives; [apply Hk1| |]; cbn; rewrite Hc by done.
    + intros y Hy Hcy. apply (create_lock_survives _ _ bl bc); [by apply (tables_ok_sys (set_sys x k))|]. unfold outside. cbn. by rewrite Hcy.
    + intros y Hy. exists bl, bc. apply (put_tail_ok (set_sys y k)); try done. by apply (tables_ok_sys (set_sys x k)).
  - apply survives_runs. by apply (put_tail_runs _ _ bl bc).
Qed.

Lemma CreateCondition_Syscall_survives slice1 slice2 k bl bc : tables_ok k bl bc -> outside k ->
  survives (full bc) (CreateCondition_Syscall conditionTableLock gwords gwait gcond slice1 slice2 k).
Proof.
  intros Hk Ho. destruct (Acquire_fine conditionTableLock [] (sys k)) as (x & b & Ha & Hf & Hc); [apply Hk|apply Hk|].
  unfold CreateCondition_Syscall, sbind at 1, current, gets. unfold sbind at 1, on_sys. rewrite Ha. cbn [rbind].
  pose proof (tables_ok_sys k bl bc x Hk Hf) as Hk1. destruct b.
  - apply sliced_survives; [apply Hk1| |]; cbn; rewrite Hc by done.
    + intros y Hy Hcy. apply (create_condition_survives _ _ bl bc); [by apply (tables_ok_sys (set_sys x k))|]. unfold outside. cbn. by rewrite Hcy.
    + intros y Hy. exists bl, bc. apply (put_tail_ok (set_sys y k)); try done. by apply (tables_ok_sys (set_sys x k)).
  - apply survives_runs. by apply (put_tail_runs _ _ bl bc).
Qed.

(** *** The rest of a call *)

(** The condition a thread waited on was not destroyed, or its entry is still
    in use. *)
Definition wait_ok k bc (tl : tail) : Prop :=
  match tl with
  | TWait i _ => forall e, conditionTable k !! Z.to_nat i = Some e -> ce_isToBeDeleted e = true -> ready_condition k bc i
  | _ => True
  end.

Lemma after_wait_survives F i lv k bl bc : tables_ok k bl bc -> tail_ok bl bc (TWait i lv) -> wait_ok k bc (TWait i lv) ->
  survives F (after_wait i lv k).
Proof.
  intros Hk Hi Hw. cbn in Hi. destruct (lookup_lt_is_Some_2 (conditionTable k) (Z.to_nat i)) as [e He].
  { rewrite (tk_ctable _ _ _ Hk). lia. }
  apply survives_runs. destruct (ce_isToBeDeleted e) eqn:Hd; [apply (after_wait_ok i k bl bc lv Hk); by apply (Hw e)|].
  unfold after_wait. apply (runs_bind _ _ _ (fun a k' => a = e /\ k' = k)).
  { exists k, e. unfold condition_entry. rewrite (arr_get_lookup _ _ e) by (lia || done). done. }
  intros ? ? [-> ->]. rewrite Hd. apply (runs_bind _ _ _ (fun _ k' => k' = k)); [by apply runs_ret|].
  intros [] ? ->. by apply (finish_some _ bl bc).
Qed.

(** Leaving [tails] again. *)
Lemma tables_ok_leave k bl bc t tl : tables_ok k bl bc -> tails k !! t = Some tl ->
  (forall i, tl <> TFillLock i) -> (forall i, tl <> TFillCondition i) ->
  tables_ok (set_tails (delete t (tails k)) k) bl bc.
Proof.
  intros Hk Ht Hl Hc. apply tables_ok_tails; [done|..].
  - intros i [t' Ht']. exists t'. cbn. rewrite lookup_delete_ne; [done|]. intros ->. naive_solver.
  - intros i [t' Ht']. exists t'. cbn. rewrite lookup_delete_ne; [done|]. intros ->. naive_solver.
  - intros t' tl' [_ H]%lookup_delete_Some. by apply (tk_tails _ _ _ Hk t').
Qed.

Lemma set_tails_back k t tl : tails k !! t = Some tl ->
  set_tails (<[t := tl]> (tails (set_tails (delete t (tails k)) k))) (set_tails (delete t (tails k)) k) = k.
Proof. intros Ht. unfold set_tails. cbn. rewrite insert_delete_id by done. by destruct k. Qed.

Lemma run_tail_survives slice1 slice2 tl k bl bc : tables_ok k bl bc -> tails k !! currentThread (sys k) = Some tl ->
  wait_ok k bc tl ->
  survives (match tl with TCreateLock => full bl | TCreateCondition => full bc | _ => False end)
    (run_tail lockTableLock conditionTableLock gwords gowner gwait glock gcond slice1 slice2 tl
       (set_tails (delete (currentThread (sys k)) (tails k)) k)).
Proof.
  intros Hk Ht Hw. set (k' := set_tails _ _). assert (outside k') as Ho by apply lookup_delete_eq.
  pose proof (tables_ok_leave k bl bc _ tl Hk Ht) as Hleave. fold k' in Hleave.
  assert (filling_lock (currentThread (sys k')) (match tl with TFillLock i => i | _ => 0 end) k' bl bc \/
    forall i, tl <> TFillLock i) as Hfl.
  { destruct tl; try (by right). left. split; [exact Ho|]. unfold k'. cbn [sys set_tails]. by rewrite set_tails_back. }
  assert (filling_condition (currentThread (sys k')) (match tl with TFillCondition i => i | _ => 0 end) k' bl bc \/
    forall i, tl <> TFillCondition i) as Hfc.
  { destruct tl; try (by right). left. split; [exact Ho|]. unfold k'. cbn [sys set_tails]. by rewrite set_tails_back. }
  pose proof (tk_tails _ _ _ Hk _ _ Ht) as Hok.
  destruct tl as [|i| |i|lv|i lv]; cbn [run_tail]; try apply returned_survives.
  - assert (tables_ok k' bl bc) as Hk' by by apply Hleave.
    apply sliced_survives; [apply Hk'| |].
    + intros y Hy Hcy. apply (create_lock_survives _ _ bl bc); [by apply (tables_ok_sys k')|]. unfold outside. cbn. rewrite Hcy. exact Ho.
    + intros y Hy. exists bl, bc. apply (put_tail_ok (set_sys y k')); try done. by apply (tables_ok_sys k').
  - destruct Hfl as [Hfl|H]; [|by destruct (H i)]. by eapply fill_lock_survives.
  - assert (tables_ok k' bl bc) as Hk' by by apply Hleave.
    apply sliced_survives; [apply Hk'| |].
    + intros y Hy Hcy. apply (create_condition_survives _ _ bl bc); [by apply (tables_ok_sys k')|]. unfold outside. cbn. rewrite Hcy. exact Ho.
    + intros y Hy. exists bl, bc. apply (put_tail_ok (set_sys y k')); try done. by apply (tables_ok_sys k').
  - destruct Hfc as [Hfc|H]; [|by destruct (H i)]. by eapply fill_condition_survives.
  - apply survives_runs. apply (finish_some _ bl bc). by apply Hleave.
  - apply (after_wait_survives _ _ _ _ bl bc); [by apply Hleave|done|].
    intros e He Hd. destruct (Hw e He Hd) as [Hu Hr]. split; [done|]. intros [t Htl]. apply Hr. exists t.
    cbn in Htl. by apply lookup_delete_Some in Htl as [_ Htl].
Qed.

Lemma resume_call_survives slice1 slice2 k bl bc th : tables_ok k bl bc ->
  threads (sys k) !! currentThread (sys k) = Some th -> resumable (sys k) (frames th) ->
  (forall tl, tails k !! currentThread (sys k) = Some tl -> wait_ok k bc tl) ->
  survives (match tails k !! currentThread (sys k) with
            | Some TCreateLock => full bl | Some TCreateCondition => full bc | _ => False end)
    (resume_call lockTableLock conditionTableLock gwords gowner gwait glock gcond slice1 slice2 k).
Proof.
  intros Hk Hth Hr Hw. destruct (resume_fine (sys k) th) as (x & b & Hx & Hf & Hc); [apply Hk|done|done|].
  unfold resume_call. unfold sbind at 1, current, gets. unfold sbind at 1, on_sys. rewrite Hx. cbn [rbind].
  pose proof (tables_ok_sys k bl bc x Hk Hf) as Hk1.
  destruct b; [|apply survives_ok; by exists bl, bc].
  unfold sbind at 1, get. cbn [tails set_sys]. destruct (tails k !! currentThread (sys k)) as [tl|] eqn:Htl.
  - unfold sbind at 1, put. rewrite <-(Hc eq_refl).
    pose proof (run_tail_survives slice1 slice2 tl (set_sys x k) bl bc Hk1) as Hrun. cbn [tails set_sys sys] in Hrun.
    rewrite (Hc eq_refl) in Hrun |- *. specialize (Hrun Htl (Hw tl eq_refl)). by destruct tl.
  - apply survives_ok. by exists bl, bc.
Qed.

(** *** Exit *)

Lemma exit_locks_dangling n : forall (j : nat) k bl sp i e l,
  map_ok (lockMap k) bl -> length (lockTable k) = length bl -> (j + n = length bl)%nat -> (j <= i < j + n)%nat ->
  lockTable k !! i = Some e -> lockSpace e = sp -> le_lock e = Some l -> locks (sys k) !! l = None ->
  exit_locks n (Z.of_nat j) sp k = Fault NullPointer.
Proof.
  induction n as [|n IH]; intros j k bl sp i e l Hm Ht Hn Hi He Hsp Hl Hd; [lia|]. cbn [exit_locks].
  destruct (lookup_lt_is_Some_2 (lockTable k) j) as [ej Hej]; [lia|].
  unfold sbind at 1, lock_entry. rewrite (arr_get_lookup _ _ ej) by (rewrite ?Nat2Z.id; done || lia). cbn [rbind].
  replace (Z.of_nat j + 1) with (Z.of_nat (S j)) by lia. unfold sbind at 1. case_decide as Hs.
  2: { unfold sret. apply (IH (S j) k bl sp i e l); try done; [lia|]. destruct (decide (i = j)) as [->|]; [congruence|lia]. }
  unfold sbind at 1, set_lock_entry. rewrite arr_set_in by lia. cbn [rbind]. rewrite Nat2Z.id.
  unfold sbind at 1, delete_lock. cbn [sys set_lock_table].
  destruct (decide (i = j)) as [->|Hne]; [simplify_eq; by rewrite Hl, Hd|].
  destruct (le_lock ej) as [lj|] eqn:Hlj.
  - destruct (locks (sys k) !! lj) as [y|] eqn:Hy; [|done]. cbn [deref rbind].
    destruct Hm as [[-> _]|[Hl500 (b & Hb & Hr)]]; [cbn in Hn; lia|].
    unfold clear_lock_slot. cbn [lockMap set_sys set_lock_table]. rewrite Hb. cbn [deref rbind].
    destruct (ba_clear_in b bl (Z.of_nat j) Hr) as (b' & -> & Hr'); [lia|]. cbn [rbind].
    apply (IH (S j) _ (<[Z.to_nat (Z.of_nat j) := false]> bl) sp i e l); cbn; rewrite ?length_insert; try done; try lia.
    + right. rewrite length_insert. split; [done|]. by exists b'.
    + by rewrite list_lookup_insert_ne by lia.
    + apply lookup_delete_None. by right.
  - destruct Hm as [[-> _]|[Hl500 (b & Hb & Hr)]]; [cbn in Hn; lia|].
    unfold clear_lock_slot. cbn [lockMap set_sys set_lock_table]. rewrite Hb. cbn [deref rbind].
    destruct (ba_clear_in b bl (Z.of_nat j) Hr) as (b' & -> & Hr'); [lia|]. cbn [rbind].
    apply (IH (S j) _ (<[Z.to_nat (Z.of_nat j) := false]> bl) sp i e l); cbn; rewrite ?length_insert; try done; try lia.
    + right. rewrite length_insert. split; [done|]. by exists b'.
    + by rewrite list_lookup_insert_ne by lia.
Qed.
End Tables.

(** * Properties *)

Section Properties.
  Context {B : Type} `{BA : BitAllocator B}.
  Context (lockTableLock conditionTableLock : lid).
  Context (gwords : nat -> Z) (gowner : option tid) (gwait : option lid) (glock : LockEntry) (gcond : ConditionEntry).
  Implicit Types (k : Kern (B := B)) (bl bc : list bool).

Inductive call :=
  | CCreateLock | CCreateCondition
  | CAcquire (i : Z) | CRelease (i : Z) | CDestroyLock (i : Z)
  | CSignal (c l : Z) | CBroadcast (c l : Z) | CWait (c l : Z) | CDestroyCondition (c : Z).

(** [slice1], [slice2]: whether the time slice is over where interrupts come on
    in the middle of a create. *)
Definition exec_call (slice1 slice2 : bool) (c : call) : ST (Kern (B := B)) bool :=
  match c with
  | CCreateLock => returned (CreateLock_Syscall lockTableLock gwords gowner glock slice1 slice2)
  | CCreateCondition => returned (CreateCondition_Syscall conditionTableLock gwords gwait gcond slice1 slice2)
  | CAcquire i => Acquire_Syscall i
  | CRelease i => Release_Syscall i
  | CDestroyLock i => DestroyLock_Syscall i
  | CSignal c l => Signal_Syscall c l
  | CBroadcast c l => Broadcast_Syscall c l
  | CWait c l => Wait_Syscall c l
  | CDestroyCondition c => DestroyCondition_Syscall c
  end.

Abbreviation resume_any := (resume_call lockTableLock conditionTableLock gwords gowner gwait glock gcond).

(** No entry that the call passes the checks with is one that a create of
    another thread has taken and not yet filled. *)
Definition names_filled k bl bc (c : call) : Prop :=
  match c with
  | CCreateLock | CCreateCondition => True
  | CAcquire i | CRelease i | CDestroyLock i => lock_named k bl i
  | CSignal c l | CBroadcast c l | CWait c l => both_named k bl bc c l
  | CDestroyCondition c => condition_named k bc c
  end.

(** The call names an object the current thread's process does not own. *)
Definition foreign k bl bc (c : call) : Prop :=
  match c with
  | CCreateLock | CCreateCondition => False
  | CAcquire i | CRelease i | CDestroyLock i => owns_lock k bl i = false
  | CSignal c l | CBroadcast c l | CWait c l => owns_condition k bc c && owns_lock k bl l = false
  | CDestroyCondition c => owns_condition k bc c = false
  end.

(** C11: the tables of user locks and conditions stay consistent, when time
    slices end inside the calls that create objects too. Take a kernel whose
    threads have control blocks, whose bitmaps agree with the tables and whose
    entries in use that are filled hold distinct live objects. Every system call
    on a lock or condition by a thread that is in no other call, with whatever
    indices, ends or gives up the processor without a fault and leaves such a
    kernel; and so does a thread that gets the processor back inside a call. The
    exceptions, which are faults of the code: an index of an entry that another
    create has taken and not filled yet ([names_filled]; see
    [a_taken_entry_is_used_before_it_is_filled]), a lock destroyed under a
    thread that waits in a condition ([resumable]), and the end of a [Wait] on a
    condition that was destroyed and that an earlier waiter deleted ([wait_ok];
    see [two_waiters_use_a_freed_condition]). Only a create on a table with all
    500 entries in use halts the machine. *)
Theorem tables_stay_consistent slice1 slice2 k bl bc :
  tables_ok lockTableLock conditionTableLock k bl bc ->
  (forall c, outside k -> names_filled k bl bc c ->
     survives lockTableLock conditionTableLock
       (match c with CCreateLock => full bl | CCreateCondition => full bc | _ => False end) (exec_call slice1 slice2 c k)) /\
  (forall th, threads (sys k) !! currentThread (sys k) = Some th -> resumable (sys k) (frames th) ->
     (forall tl, tails k !! currentThread (sys k) = Some tl -> wait_ok k bc tl) ->
     survives lockTableLock conditionTableLock
       (match tails k !! currentThread (sys k) with
        | Some TCreateLock => full bl | Some TCreateCondition => full bc | _ => False end) (resume_any slice1 slice2 k)).
Proof.
  intros Hk. split; [|intros th; by apply resume_call_survives].
  intros c Ho Hn. destruct c; cbn [exec_call names_filled] in *.
  - apply returned_survives. by apply (CreateLock_Syscall_survives _ _ _ _ _ _ _ _ _ bc).
  - apply returned_survives. by apply (CreateCondition_Syscall_survives _ _ _ _ _ _ _ _ bl).
  - apply survives_runs. by apply (Acquire_Syscall_ok _ _ _ _ bl bc).
  - apply survives_runs. by apply (Release_Syscall_ok _ _ _ _ bl bc).
  - apply survives_runs. by apply (DestroyLock_Syscall_ok _ _ _ _ bl bc).
  - apply survives_runs. by apply (Signal_Syscall_ok _ _ _ _ _ bl bc).
  - apply survives_runs. by apply (Broadcast_Syscall_ok _ _ _ _ _ bl bc).
  - apply survives_runs. by apply (Wait_Syscall_ok _ _ _ _ _ bl bc).
  - apply survives_runs. by apply (DestroyCondition_Syscall_ok _ _ _ _ bl bc).
Qed.

(** C21: processes cannot touch each other's locks and conditions. A call with
    an index out of range, of a free entry, or of an entry that belongs to
    another address space, in any of its arguments, returns at once and leaves
    the whole kernel as it was. *)
Theorem foreign_objects_are_untouched slice1 slice2 k bl bc (c : call) :
  tables_ok lockTableLock conditionTableLock k bl bc -> foreign k bl bc c -> exec_call slice1 slice2 c k = Ok (k, true).
Proof.
  intros Hk Hf. assert (forall k', k' = set_sys (set_level IntOff (sys k)) k -> tables_ok lockTableLock conditionTableLock k' bl bc) as Hk'.
  { intros k' ->. apply tables_ok_sys; [done|]. by apply fine_level, Hk. }
  destruct c as [| |i|i|i|c l|c l|c l|c]; cbn [exec_call foreign] in *; try done; apply checked_refused; intros k' ->.
  - erewrite check_lock_ok by by apply Hk'. exact (f_equal (fun b => Ok (_, b)) Hf).
  - erewrite check_lock_ok by by apply Hk'. exact (f_equal (fun b => Ok (_, b)) Hf).
  - erewrite check_lock_ok by by apply Hk'. exact (f_equal (fun b => Ok (_, b)) Hf).
  - erewrite check_both_ok by by apply Hk'. exact (f_equal (fun b => Ok (_, b)) Hf).
  - erewrite check_both_ok by by apply Hk'. exact (f_equal (fun b => Ok (_, b)) Hf).
  - erewrite check_both_ok by by apply Hk'. exact (f_equal (fun b => Ok (_, b)) Hf).
  - erewrite check_condition_ok by by apply Hk'. exact (f_equal (fun b => Ok (_, b)) Hf).
Qed.

(** destroying a lock that a thread holds frees it at once. The test that
    should defer the deletion reads [!(busy && acquireCount == 0)]; a held lock
    has a positive count, so the object goes, the threads queued on it stay
    queued nowhere and are not made ready, the holder's [Release] is refused,
    and, since the entry keeps its address space, the exit of the process
    deletes the object a second time. *)
Theorem DestroyLock_frees_a_held_lock k bl bc i e l x :
  tables_ok lockTableLock conditionTableLock k bl bc -> owns_lock k bl i = true -> ~ reserved_lock k i ->
  lockTable k !! Z.to_nat i = Some e -> le_lock e = Some l -> locks (sys k) !! l = Some x ->
  state x = BUSY -> acquireCount e <> 0 ->
  exists k', DestroyLock_Syscall i k = Ok (k', true) /\
    locks (sys k') !! l = None /\ readyList (sys k') = readyList (sys k) /\
    Release_Syscall i k' = Ok (k', true) /\ exit_tables k' = Fault NullPointer.
Proof.
  intros Hk Hown Hres He Hl Hx Hbusy Hcount. pose proof (uses_true _ _ (owns_uses_lock _ _ _ Hown)) as [Hi Hb].
  set (k0 := set_sys (set_level IntOff (sys k)) k). assert (tables_ok lockTableLock conditionTableLock k0 bl bc) as Hk0 by by apply tables_ok_level.
  destruct (delete_lock_runs lockTableLock conditionTableLock k0 bl bc i e l) as (k1 & [] & Hdel & Hk1); try done.
  { split; [done|]. by rewrite Z2Nat.id. }
  assert (lockTable k1 = lockTable k /\ spaces k1 = spaces k /\ locks (sys k1) !! l = None /\
    readyList (sys k1) = readyList (sys k) /\ currentThread (sys k1) = currentThread (sys k)) as (Ht1 & Hsp & Hnone & Hready & Hcur).
  { revert Hdel. unfold sbind, delete_lock, clear_lock_slot. cbn [sys set_sys set_level locks k0]. rewrite Hx. cbn [deref rbind].
    destruct (deref (lockMap _)) as [b|]; [|done]. cbn [rbind]. destruct (ba_clear b i) as [b'|]; [|done]. cbn [rbind].
    intros [= <-]. split_and!; try done. cbn. apply lookup_delete_None. by left. }
  set (k2 := set_sys (set_level (level (sys k)) (sys k1)) k1). exists k2.
  assert (tables_ok lockTableLock conditionTableLock k2 (<[Z.to_nat i := false]> bl) bc) as Hk2 by by apply tables_ok_level.
  assert (uses (<[Z.to_nat i := false]> bl) i = false) as Hfree.
  { unfold uses. rewrite list_lookup_insert_eq by (by eapply lookup_lt_Some). apply andb_false_r. }
  split_and!; [|done|done| |].
  - unfold DestroyLock_Syscall. rewrite checked_passed.
    2: { erewrite check_lock_ok by exact Hk0. exact (f_equal (fun b => Ok (_, b)) Hown). }
    fold k0. unfold sbind at 1, lock_entry. rewrite (arr_get_lookup _ _ e) by done. cbn [rbind]. rewrite Hl.
    unfold sbind at 1, lift. cbn [deref rbind].
    assert (on_sys (lock_at l) k0 = Ok (k0, x)) as Hla.
    { unfold on_sys, lock_at, gets, sbind, lift. cbn. by rewrite Hx. }
    unfold sbind at 1. rewrite Hla. cbn [rbind].
    unfold isBusy. rewrite Hbusy, bool_decide_eq_true_2, bool_decide_eq_false_2 by done. cbn [andb negb].
    unfold sbind at 1. rewrite Hdel. done.
  - apply checked_refused. intros k' ->. erewrite check_lock_ok by (by apply tables_ok_level).
    unfold owns_lock. by rewrite Hfree.
  - unfold exit_tables, current_space, gets. unfold sbind at 1. unfold sbind at 1. rewrite (tk_lsize _ _ _ _ _ Hk2), Nat2Z.id.
    unfold sbind at 1. erewrite (exit_locks_dangling _ 0); [done| | | | | | | |].
    + apply Hk2.
    + apply Hk2.
    + reflexivity.
    + rewrite length_insert. pose proof (lookup_lt_Some _ _ _ Hb). split; [lia|exact H].
    + change (lockTable k2) with (lockTable k1). rewrite Ht1. exact He.
    + change (lockSpace e = spaces k1 !! currentThread (sys k1)). rewrite Hsp, Hcur. revert Hown. unfold owns_lock. rewrite He.
      intros [_ Hs%bool_decide_eq_true]%andb_true_iff. exact Hs.
    + exact Hl.
    + exact Hnone.
Qed.
End Properties.

(** ** A process with three threads *)

(** Threads 0, 1 and 2 of address space 7; locks 0 and 1 are the kernel's. *)
Definition first_kernel : Kern (B := BitMap) :=
  mkKern (set_locks {[ 0%nat := Lock_new None; 1%nat := Lock_new None ]} (boot 0%nat)) {[ 0%nat := 7; 1%nat := 7; 2%nat := 7 ]}
    [] None 0 [] None 0 ∅ 2%nat 0%nat.

Definition no_lock : LockEntry := mkLockEntry None None false 0.
Definition no_condition : ConditionEntry := mkConditionEntry None None false.

(** What the current thread does next; in [CallSliced] the time slice is over
    when a create lets go of the lock of its table. *)
Inductive action :=
  | Call (c : call)
  | CallSliced (c : call)
  | Client (o : op)
  | Resume.

Definition act (a : action) : ST (Kern (B := BitMap)) bool :=
  match a with
  | Call c => exec_call 0%nat 1%nat (fun _ => 0) None None no_lock no_condition false false c
  | CallSliced c => exec_call 0%nat 1%nat (fun _ => 0) None None no_lock no_condition false true c
  | Client o => on_sys (exec_op o)
  | Resume => resume_call 0%nat 1%nat (fun _ => 0) None None no_lock no_condition false false
  end.

Fixpoint run_actions (l : list action) : ST (Kern (B := BitMap)) bool :=
  match l with
  | [] => sret true
  | a :: l => act a ;;; run_actions l
  end.

(** Threads 1 and 2 wait on the condition; thread 0 destroys it, wakes both
    and lets go of the lock. *)
Definition two_waiters : list action :=
  [Client (OpNew 1); Client (OpFork 1); Client (OpNew 2); Client (OpFork 2);
   Call CCreateLock; Call CCreateCondition; Client OpYield;
   Resume; Call (CAcquire 0); Call (CWait 0 0);
   Resume; Call (CAcquire 0); Call (CWait 0 0);
   Resume; Call (CAcquire 0); Call (CDestroyCondition 0); Call (CBroadcast 0 0); Call (CRelease 0); Client OpYield].

(** What the first waiter does when it wakes up: it gets the lock, deletes the
    condition, lets go of the lock and leaves. *)
Definition first_waiter : list action := [Resume; Call (CRelease 0); Client OpFinish].

Lemma kernel_locks_low (l : lid) :
  is_Some (({[ 0%nat := Lock_new None; 1%nat := Lock_new None ]} : gmap lid Lock) !! l) -> (l < 2)%nat.
Proof. intros [x Hx]. apply elem_of_dom_2 in Hx. set_unfold in Hx. lia. Qed.

Lemma kernel_locks_empty (l : lid) x :
  ({[ 0%nat := Lock_new None; 1%nat := Lock_new None ]} : gmap lid Lock) !! l = Some x -> lqueue x = [].
Proof. by intros [[_ <-]|[_ [_ <-]%lookup_singleton_Some]]%lookup_insert_Some. Qed.

(** A kernel without objects but the locks of the tables. *)
Lemma fresh_kernel_ok s m : locks s = {[ 0%nat := Lock_new None; 1%nat := Lock_new None ]} -> conds s = ∅ ->
  live s (currentThread s) -> Forall (live s) (readyList s) ->
  tables_ok 0%nat 1%nat (mkKern (B := BitMap) s m [] None 0 [] None 0 ∅ 2%nat 0%nat) [] [].
Proof.
  intros Hl Hc Hcu Hr. split; cbn; rewrite ?Hl, ?Hc; try done.
  - split; [done|done| |]; rewrite ?Hl, ?Hc; [|done]. by intros l x ->%kernel_locks_empty.
  - by left.
  - by intros i [[=] _].
  - by left.
  - by intros i [[=] _].
  - split; [|by intros c [x Hx]]. apply kernel_locks_low.
Qed.

Lemma first_kernel_ok : tables_ok 0%nat 1%nat first_kernel [] [].
Proof. by apply fresh_kernel_ok. Qed.

(** a condition that is destroyed while several threads wait on it is
    deleted by the first of them that wakes up; the second then asks the deleted
    object whether it has waiters, a use after free. *)
Theorem two_waiters_use_a_freed_condition :
  exists k1 k2, run_actions two_waiters first_kernel = Ok (k1, true) /\ is_Some (conds (sys k1) !! 0%nat) /\
    run_actions first_waiter k1 = Ok (k2, true) /\ conds (sys k2) !! 0%nat = None /\
    tails k2 !! currentThread (sys k2) = Some (TWait 0 IntOn) /\ act Resume k2 = Fault NullPointer.
Proof.
  destruct (run_actions two_waiters first_kernel) as [[k1 b1]|] eqn:H1; [|by vm_compute in H1].
  destruct (run_actions first_waiter k1) as [[k2 b2]|] eqn:H2.
  2: { exfalso. revert H2. vm_compute in H1. injection H1 as <- <-. vm_compute. discriminate. }
  exists k1, k2. vm_compute in H1. injection H1 as <- <-. vm_compute in H2. injection H2 as <- <-.
  split_and!; try reflexivity; try by eexists.
Qed.

(** Thread 0 creates a lock and destroys it, and starts to create another one:
    it gets the same entry, and its time slice ends before it fills it. *)
Definition stale_entry : list action :=
  [Client (OpNew 1); Client (OpFork 1); Call CCreateLock; Call (CDestroyLock 0); CallSliced CCreateLock; Resume].

(** between [lockTableLock->Release()] and the assignments to
    [lockTable[nextFreeIndex]] the bitmap says that the entry is in use while it
    still names the lock that was deleted: another thread of the process passes
    the checks with the old index and uses freed memory. *)
Theorem a_taken_entry_is_used_before_it_is_filled :
  exists k, run_actions stale_entry first_kernel = Ok (k, true) /\ currentThread (sys k) = 1%nat /\
    tails k !! 0%nat = Some (TFillLock 0) /\ act (Call (CAcquire 0)) k = Fault NullPointer.
Proof.
  destruct (run_actions stale_entry first_kernel) as [[k b]|] eqn:H; [|by vm_compute in H].
  exists k. vm_compute in H. injection H as <- <-. split_and!; reflexivity.
Qed.

(** ** Witnesses *)

(** Thread 0 has created a lock and holds it. *)
Definition holding : Kern (B := BitMap) :=
  match run_actions [Call CCreateLock; Call (CAcquire 0)] first_kernel with Ok (k, _) => k | Fault _ => first_kernel end.

Lemma holding_ok : exists bl bc, tables_ok 0%nat 1%nat holding bl bc /\ owns_lock holding bl 0 = true.
Proof.
  destruct (CreateLock_Syscall_survives 0%nat 1%nat (fun _ => 0) None no_lock false false first_kernel [] [] first_kernel_ok)
    as [(k1 & a & H1 & bl1 & bc1 & Hk1)|[_ [Hne _]]]; [done| |done].
  assert (exists k, act (Call CCreateLock) first_kernel = Ok (k, true) /\ k = k1) as (k0 & Hc & ->).
  { exists k1. split; [|done]. unfold act, exec_call, returned, sbind. rewrite H1. unfold sret.
    destruct a as [i|]; [done|]. exfalso. revert H1. vm_compute. discriminate. }
  assert (tails k1 = ∅ /\ forall i, ~ reserved_lock k1 i) as [Ht Hres].
  { assert (tails k1 = ∅) as Ht.
    { assert (tails k1 = match act (Call CCreateLock) first_kernel with Ok (k, _) => tails k | _ => ∅ end) as -> by by rewrite Hc.
      vm_compute. reflexivity. }
    split; [done|]. intros i [t E]. by rewrite Ht in E. }
  destruct (Acquire_Syscall_ok 0%nat 1%nat 0 k1 bl1 bc1 Hk1) as (k2 & b & H2 & bl & bc & Hk2).
  { unfold outside. by rewrite Ht. }
  { intros _. apply Hres. }
  assert (k2 = holding) as ->.
  { unfold holding, run_actions. unfold sbind at 1. rewrite Hc. unfold sbind at 1. unfold act at 1, exec_call. by rewrite H2. }
  exists bl, bc. split; [done|]. pose proof (check_lock_ok _ _ _ _ _ 0 Hk2) as Hcl.
  assert (check_lock 0 holding = Ok (holding, true)) as Hto by (vm_compute; reflexivity). rewrite Hto in Hcl.
  symmetry. exact (f_equal (fun r => match r with Ok (_, b) => b | Fault _ => true end) Hcl).
Qed.

(** Thread 0 runs and thread 1 is ready, in the same process. *)
Definition two_threads : Kern (B := BitMap) :=
  mkKern (mkSys 0%nat false [1%nat] IntOn None {[ 0%nat := mkThread RUNNING []; 1%nat := mkThread READY [FRoot] ]} ∅
    {[ 0%nat := Lock_new None; 1%nat := Lock_new None ]} ∅) {[ 0%nat := 7; 1%nat := 7 ]} [] None 0 [] None 0 ∅ 2%nat 0%nat.

Lemma two_threads_ok : tables_ok 0%nat 1%nat two_threads [] [].
Proof.
  apply fresh_kernel_ok; try done. apply Forall_singleton. split; [by eexists|done].
Qed.

(** The time slice of thread 0 ends in its create; thread 1 runs. *)
Example tables_stay_consistent_witness : exists k,
  exec_call 0%nat 1%nat (fun _ => 0) None None no_lock no_condition false true CCreateLock two_threads = Ok (k, false) /\
  tails k !! 0%nat = Some (TFillLock 0) /\ survives 0%nat 1%nat False (act Resume k).
Proof.
  destruct (proj1 (tables_stay_consistent 0%nat 1%nat (fun _ => 0) None None no_lock no_condition false true two_threads [] []
    two_threads_ok) CCreateLock eq_refl I) as [(k & b & H & bl & bc & Hk)|[H _]]; [|exfalso; vm_compute in H; discriminate].
  set (r := exec_call _ _ _ _ _ _ _ _ _ _ _) in H |- *.
  assert (b = false) as ->.
  { assert (b = match r with Ok (_, b) => b | Fault _ => b end) as -> by (rewrite H; reflexivity). vm_compute. reflexivity. }
  assert (k = match r with Ok (k, _) => k | Fault _ => k end) as Hkr by (rewrite H; reflexivity).
  assert (threads (sys k) !! currentThread (sys k) = Some (mkThread RUNNING [FRoot])) as Hth
    by (rewrite Hkr; vm_compute; reflexivity).
  assert (tails k !! currentThread (sys k) = None) as Hnone by (rewrite Hkr; vm_compute; reflexivity).
  exists k. split; [exact H|]. split; [rewrite Hkr; vm_compute; reflexivity|].
  pose proof (proj2 (tables_stay_consistent 0%nat 1%nat (fun _ => 0) None None no_lock no_condition false false k bl bc Hk)
    _ Hth I) as Hs.
  rewrite Hnone in Hs. apply Hs. intros tl Htl. discriminate.
Defined.

Example foreign_objects_are_untouched_witness : act (Call (CDestroyLock 5)) first_kernel = Ok (first_kernel, true).
Proof.
  apply (foreign_objects_are_untouched 0%nat 1%nat (fun _ => 0) None None no_lock no_condition false false first_kernel [] [] (CDestroyLock 5) first_kernel_ok).
  reflexivity.
Defined.

Example DestroyLock_frees_a_held_lock_witness :
  exists k', DestroyLock_Syscall 0 holding = Ok (k', true) /\ locks (sys k') !! 2%nat = None /\ exit_tables k' = Fault NullPointer.
Proof.
  destruct holding_ok as (bl & bc & Hk & Ho).
  destruct (DestroyLock_frees_a_held_lock 0%nat 1%nat holding bl bc 0 (mkLockEntry (Some 2%nat) (Some 7) false 1) 2%nat
    (mkLock BUSY [] (Some 0%nat)) Hk Ho) as (k' & H1 & H2 & _ & _ & H3).
  - intros [t Ht]. vm_compute in Ht. discriminate.
  - vm_compute. reflexivity.
  - reflexivity.
  - vm_compute. reflexivity.
  - reflexivity.
  - discriminate.
  - exists k'. split; [exact H1|]. split; [exact H2|exact H3].
Defined.
