(* ===== verification/UserQueues.v ===== *)
(** * userprog/exception.cc: the queues of user programs and the packing of two
      numbers into one

    [CreateQueue_Syscall] to [QueueSize_Syscall] (lines 1179 to 1243) share eight
    [std::queue<int>] among all processes. A call on a bad number prints a
    warning and goes on, so what happens next is decided by the assertion inside
    [BitMap::Test] and by the standard library; the warnings are part of the
    state here. [NEncode2to1_Syscall] and [decode2to1] pack numbers for [NPrint]. *)
From S2P Require Import Prelude BitMap.

(** What a call printed. *)
Inductive warning :=
  | OutOfBoundsQueue (queueNum : Z)
  | NoSuchQueue (queueNum : Z).

Section Queues.
  Context {B : Type} `{BA : BitAllocator B}.
  (** The words of a fresh bitmap. *)
  Context (gwords : nat -> Z).

(** [queueTable], [queueMap], [queueArraySize]. *)
Record Queues := mkQueues { queueTable : list (list Z); queueMap : option B; queueArraySize : Z; warnings : list warning }.

Definition set_queues (t : list (list Z)) (s : Queues) : Queues := mkQueues t (queueMap s) (queueArraySize s) (warnings s).
Definition print (w : warning) : ST Queues unit := modify (fun s => mkQueues (queueTable s) (queueMap s) (queueArraySize s) (warnings s ++ [w])).

Definition CreateQueue_Syscall : ST Queues Z := fun s =>
  let* s := (if decide (queueArraySize s = 0) then
               let* b := ba_new 8 gwords in Ok (mkQueues (replicate 8 []) (Some b) 8 (warnings s))
             else Ok s) in
  let* b := deref (queueMap s) in
  let* '(b, nextFreeIndex) := ba_find b in
  if decide (nextFreeIndex = -1) then Fault MachineHalt
  else Ok (mkQueues (queueTable s) (Some b) (queueArraySize s) (warnings s), nextFreeIndex).

(** The two tests at the head of each call. *)
Definition check_queue (queueNum : Z) : ST Queues unit :=
  s <- get ;;
  (if decide (queueNum < 0 \/ queueNum > queueArraySize s) then print (OutOfBoundsQueue queueNum) else sret tt) ;;;
  b <- lift (deref (queueMap s)) ;;
  used <- lift (ba_test b queueNum) ;;
  if used : bool then sret tt else print (NoSuchQueue queueNum).

Definition queue_at (queueNum : Z) : ST Queues (list Z) := fun s => let* q := arr_get (queueTable s) queueNum in Ok (s, q).
Definition set_queue (queueNum : Z) (q : list Z) : ST Queues unit := fun s =>
  let* t := arr_set (queueTable s) queueNum q in Ok (set_queues t s, tt).

(** [front] and [pop] of an empty [std::queue] are undefined. *)
Definition front (q : list Z) : res Z := match q with [] => Fault OutOfBounds | x :: _ => Ok x end.
Definition pop (q : list Z) : res (list Z) := match q with [] => Fault OutOfBounds | _ :: q => Ok q end.

Definition QueuePush_Syscall (queueNum whatToPush : Z) : ST Queues unit :=
  check_queue queueNum ;;; q <- queue_at queueNum ;; set_queue queueNum (q ++ [whatToPush]).
Definition QueueFront_Syscall (queueNum : Z) : ST Queues Z :=
  check_queue queueNum ;;; q <- queue_at queueNum ;; lift (front q).
Definition QueuePop_Syscall (queueNum : Z) : ST Queues unit :=
  check_queue queueNum ;;; q <- queue_at queueNum ;; q <- lift (pop q) ;; set_queue queueNum q.
Definition QueueEmpty_Syscall (queueNum : Z) : ST Queues Z :=
  check_queue queueNum ;;; q <- queue_at queueNum ;; sret (match q with [] => 1 | _ => 0 end).
Definition QueueSize_Syscall (queueNum : Z) : ST Queues Z :=
  check_queue queueNum ;;; q <- queue_at queueNum ;; sret (i32 (Z.of_nat (length q))).

(** The calls of the user programs, and what they return. *)
Inductive queue_call : Set :=
  | QCreate | QPush (queueNum x : Z) | QFront (queueNum : Z) | QPop (queueNum : Z) | QEmpty (queueNum : Z) | QSize (queueNum : Z).

Definition exec_queue (c : queue_call) : ST Queues Z :=
  match c with
  | QCreate => CreateQueue_Syscall
  | QPush n x => QueuePush_Syscall n x ;;; sret 0
  | QFront n => QueueFront_Syscall n
  | QPop n => QueuePop_Syscall n ;;; sret 0
  | QEmpty n => QueueEmpty_Syscall n
  | QSize n => QueueSize_Syscall n
  end.

(** The calls of a run, each with what it returned. *)
Fixpoint run_queues (l : list queue_call) : ST Queues (list (queue_call * Z)) :=
  match l with
  | [] => sret []
  | c :: l => r <- exec_queue c ;; log <- run_queues l ;; sret ((c, r) :: log)
  end.

(** ** The promise: eight sequences, first in, first out *)

(** [bits]: the numbers in use; none before the first create. *)
Definition queues_rep (s : Queues) (bits : list bool) (qs : list (list Z)) : Prop :=
  queueTable s = qs /\
  ((bits = [] /\ qs = [] /\ queueMap s = None /\ queueArraySize s = 0) \/
   (length bits = 8%nat /\ length qs = 8%nat /\ queueArraySize s = 8 /\ exists b, queueMap s = Some b /\ ba_rep b bits)).

Definition on_queue (qs : list (list Z)) (n : Z) (f : list Z -> res (list Z * Z)) : res (list (list Z) * Z) :=
  match qs with
  | [] => Fault NullPointer
  | _ => if decide (0 <= n) then
           match qs !! Z.to_nat n with
           | Some q => let* '(q, r) := f q in Ok (<[Z.to_nat n := q]> qs, r)
           | None => Fault AssertFail
           end
         else Fault AssertFail
  end.

Definition fifo_call (c : queue_call) (bits : list bool) (qs : list (list Z)) : res (list bool * list (list Z) * Z) :=
  match c with
  | QCreate =>
      let bits := match bits with [] => replicate 8 false | _ => bits end in
      let qs := match qs with [] => replicate 8 [] | _ => qs end in
      match first_clear bits with
      | Some n => Ok (<[n := true]> bits, qs, Z.of_nat n)
      | None => Fault MachineHalt
      end
  | QPush n x => let* '(qs, r) := on_queue qs n (fun q => Ok (q ++ [x], 0)) in Ok (bits, qs, r)
  | QFront n => let* '(qs, r) := on_queue qs n (fun q => match q with x :: _ => Ok (q, x) | [] => Fault OutOfBounds end) in Ok (bits, qs, r)
  | QPop n => let* '(qs, r) := on_queue qs n (fun q => match q with _ :: q => Ok (q, 0) | [] => Fault OutOfBounds end) in Ok (bits, qs, r)
  | QEmpty n => let* '(qs, r) := on_queue qs n (fun q => Ok (q, if decide (q = []) then 1 else 0)) in Ok (bits, qs, r)
  | QSize n => let* '(qs, r) := on_queue qs n (fun q => Ok (q, i32 (Z.of_nat (length q)))) in Ok (bits, qs, r)
  end.
End Queues.

#[global] Instance queue_call_eq_dec : EqDecision queue_call.
Proof. solve_decision. Defined.

(** ** Packing *)

Definition NEncode2to1_Syscall (v1 v2 : Z) : Z := Z.lor (i32 (Z.shiftl v2 16)) (Z.land v1 0xffff).

(** [v & 0xffff0000] is unsigned, so the shift fills with zeroes. *)
Definition decode2to1 (v : Z) : Z * Z := (Z.land v 0xffff, Z.shiftr (Z.land (u32 v) 0xffff0000) 16).

(** * Lemmas *)

Section Lemmas.
  Context {B : Type} `{BA : BitAllocator B} (gwords : nat -> Z).
  Implicit Types (s : Queues (B := B)) (bits : list bool) (qs : list (list Z)).

Lemma check_queue_none s n bits qs : queues_rep s bits qs -> qs = [] -> check_queue n s = Fault NullPointer.
Proof.
  intros [_ [(_ & _ & Hm & _)|(_ & Hl & _)]] ->; [|done]. unfold check_queue, get. unfold sbind at 1.
  unfold sbind at 1. case_decide; cbn; unfold sbind, lift; by rewrite Hm.
Qed.

(** A number below eight passes the tests, used or not. *)
Lemma check_queue_some s n bits qs : queues_rep s bits qs -> qs <> [] ->
  (0 <= n < 8 /\ exists s', check_queue n s = Ok (s', tt) /\ queues_rep s' bits qs) \/
  (~ 0 <= n < 8 /\ check_queue n s = Fault AssertFail).
Proof.
  intros [Ht [(_ & ? & _)|(Hl & Hq & Hs & b & Hm & Hr)]] Hne; [done|].
  assert (forall s0 m, queues_rep (mkQueues (queueTable s0) (queueMap s0) (queueArraySize s0) m) bits qs <-> queues_rep s0 bits qs) as Hw by done.
  destruct (decide (0 <= n < 8)) as [Hn|Hn]; [left|right]; (split; [done|]).
  - destruct (lookup_lt_is_Some_2 bits (Z.to_nat n)) as [x Hx]; [lia|].
    unfold check_queue, get, sbind, lift. rewrite Hs, decide_False by lia. cbn [sret]. rewrite Hm. cbn [deref].
    rewrite (ba_test_in b bits n x) by (done || lia). cbn. assert (queues_rep s bits qs) as Hok by (split; [done|right; split_and!; try done; by exists b]).
    destruct x; [by exists s|]. unfold print, modify. eexists. split; [done|]. by apply Hw.
  - unfold check_queue, get, sbind, lift. rewrite Hs. case_decide; cbn; rewrite Hm; cbn [deref]; by rewrite (ba_test_out b bits n) by (done || lia).
Qed.

(** A call on a queue, from what it does once the queue is read. *)
Lemma on_queue_refines {A} (body : list Z -> ST (Queues (B := B)) A) (f : list Z -> res (list Z * Z)) (g : A -> Z) n s bits qs :
  queues_rep s bits qs ->
  (forall q s', queues_rep s' bits qs -> 0 <= n < 8 -> qs !! Z.to_nat n = Some q ->
     match f q with
     | Ok (q', r) => exists s'' a, body q s' = Ok (s'', a) /\ g a = r /\ queues_rep s'' bits (<[Z.to_nat n := q']> qs)
     | Fault e => body q s' = Fault e
     end) ->
  match on_queue qs n f with
  | Ok (qs', r) => exists s'' a, (check_queue n ;;; q <- queue_at n ;; body q) s = Ok (s'', a) /\ g a = r /\ queues_rep s'' bits qs'
  | Fault e => (check_queue n ;;; q <- queue_at n ;; body q) s = Fault e
  end.
Proof.
  intros Hs Hb. set (m := (check_queue n ;;; q <- queue_at n ;; body q) s).
  assert (m = match check_queue n s with Ok (s', _) => (q <- queue_at n ;; body q) s' | Fault e => Fault e end) as Hm by done.
  clearbody m. destruct (decide (qs = [])) as [->|Hne].
  { rewrite (check_queue_none s n bits []) in Hm by done. by rewrite Hm. }
  assert (length qs = 8%nat) as Hl8 by (destruct Hs as [_ [(? & ? & ?)|(? & ? & ?)]]; congruence).
  assert (on_queue qs n f = if decide (0 <= n) then match qs !! Z.to_nat n with
    | Some q => let* '(q, r) := f q in Ok (<[Z.to_nat n := q]> qs, r) | None => Fault AssertFail end else Fault AssertFail) as -> by by destruct qs.
  destruct (check_queue_some s n bits qs Hs Hne) as [(Hn & s' & Hck & Hs')|[Hn Hck]]; rewrite Hck in Hm; subst m.
  - rewrite decide_True by lia. destruct (lookup_lt_is_Some_2 qs (Z.to_nat n)) as [q Hq]; [lia|]. rewrite Hq.
    specialize (Hb q s' Hs' Hn Hq). unfold sbind, queue_at. destruct Hs' as [Ht' _]. rewrite Ht', (arr_get_lookup _ _ q) by (lia || done).
    cbn [rbind]. destruct (f q) as [[q' r]|e]; cbn [rbind]; exact Hb.
  - case_decide; [|done]. by rewrite lookup_ge_None_2 by lia.
Qed.

Lemma queues_rep_insert s bits qs n q : queues_rep s bits qs -> 0 <= n < 8 -> qs <> [] ->
  exists s', set_queue n q s = Ok (s', tt) /\ queues_rep s' bits (<[Z.to_nat n := q]> qs).
Proof.
  intros [Ht [(_ & ? & _)|(Hl & Hq & Hs & Hm)]] Hn Hne; [done|]. unfold set_queue. rewrite Ht, arr_set_in by lia. cbn.
  eexists. split; [done|]. split; [done|]. right. by rewrite length_insert.
Qed.

Lemma exec_queue_refines c s bits qs : queues_rep s bits qs ->
  match fifo_call c bits qs with
  | Ok (bits', qs', r) => exists s', exec_queue gwords c s = Ok (s', r) /\ queues_rep s' bits' qs'
  | Fault e => exec_queue gwords c s = Fault e
  end.
Proof.
  intros Hs.
  assert (forall A (m : ST Queues A) (g : A -> Z) n f, (match on_queue qs n f with
    | Ok (qs', r) => exists s'' a, m s = Ok (s'', a) /\ g a = r /\ queues_rep s'' bits qs'
    | Fault e => m s = Fault e end) ->
    match (let* '(qs, r) := on_queue qs n f in Ok (bits, qs, r)) with
    | Ok (bits', qs', r) => exists s', (a <- m ;; sret (g a)) s = Ok (s', r) /\ queues_rep s' bits' qs'
    | Fault e => (a <- m ;; sret (g a)) s = Fault e end) as Hlift.
  { intros A m g n f Hm. unfold sbind. destruct (on_queue qs n f) as [[qs' r]|e]; cbn [rbind] in *; [|by rewrite Hm].
    destruct Hm as (s'' & a & -> & <- & ?). by exists s''. }
  assert (forall (m : ST Queues Z) n f, (match on_queue qs n f with
    | Ok (qs', r) => exists s'' a, m s = Ok (s'', a) /\ id a = r /\ queues_rep s'' bits qs'
    | Fault e => m s = Fault e end) ->
    match (let* '(qs, r) := on_queue qs n f in Ok (bits, qs, r)) with
    | Ok (bits', qs', r) => exists s', m s = Ok (s', r) /\ queues_rep s' bits' qs'
    | Fault e => m s = Fault e end) as Hlift2.
  { intros m n f Hm. apply Hlift in Hm. unfold sbind, sret, id in Hm. by destruct (m s) as [[]|]. }
  assert (forall n q q', 0 <= n < 8 -> qs !! Z.to_nat n = Some q' -> forall s', queues_rep s' bits qs ->
    exists s'', set_queue n q s' = Ok (s'', tt) /\ queues_rep s'' bits (<[Z.to_nat n := q]> qs)) as Hset.
  { intros n q q' Hn Hq s' Hs'. apply queues_rep_insert; [done..|]. by destruct qs. }
  destruct c as [|n x|n|n|n|n]; cbn [fifo_call exec_queue].
  - destruct Hs as [Ht [(-> & -> & Hm & Hz)|(Hl & Hq & Hz & b & Hm & Hr)]]; unfold CreateQueue_Syscall; rewrite Hz.
    + destruct (ba_new_clear 8 gwords) as (b & Hb & Hr); [lia|]. rewrite decide_True by done. rewrite Hb. cbn [rbind deref queueMap].
      destruct (ba_find_some b _ 0 Hr) as (b' & Hf & Hr'); [done|]. rewrite Hf. cbn [rbind].
      eexists. split; [done|]. split; [done|]. right. split_and!; try done. by exists b'.
    + rewrite decide_False by done. cbn [rbind]. rewrite Hm. cbn [deref rbind].
      replace (match bits with [] => _ | _ => bits end) with bits by by destruct bits.
      replace (match qs with [] => _ | _ => qs end) with qs by by destruct qs.
      destruct (first_clear bits) as [n|] eqn:Hf.
      * destruct (ba_find_some b bits n Hr Hf) as (b' & -> & Hr'). cbn [rbind]. rewrite decide_False by lia.
        eexists. split; [done|]. split; [done|]. right. rewrite length_insert. split_and!; try done. by exists b'.
      * by rewrite (ba_find_none b bits Hr Hf).
  - apply (Hlift unit _ (fun _ => 0)). apply on_queue_refines; [done|]. intros q s' Hs' Hn Hq.
    destruct (Hset n (q ++ [x]) q Hn Hq s' Hs') as (s'' & ? & ?). by exists s'', tt.
  - apply Hlift2. apply on_queue_refines; [done|]. intros [|y q] s' Hs' Hn Hq; [done|].
    exists s', y. by rewrite list_insert_id.
  - apply (Hlift unit _ (fun _ => 0)). apply on_queue_refines; [done|]. intros [|y q] s' Hs' Hn Hq; [done|].
    destruct (Hset n q (y :: q) Hn Hq s' Hs') as (s'' & ? & ?). by exists s'', tt.
  - apply Hlift2. apply on_queue_refines; [done|]. intros q s' Hs' Hn Hq.
    eexists s', _. rewrite list_insert_id by done. split; [done|]. split; [|done]. by destruct q.
  - apply Hlift2. apply on_queue_refines; [done|]. intros q s' Hs' Hn Hq.
    eexists s', _. by rewrite list_insert_id.
Qed.

(** What was pushed on a queue, what was popped from it. *)
Definition pushed (n : Z) (log : list (queue_call * Z)) : list Z :=
  omap (fun cr => match cr.1 with QPush m x => if decide (m = n) then Some x else None | _ => None end) log.

Definition popped (n : Z) (log : list (queue_call * Z)) : nat :=
  length (filter (fun cr => cr.1 = QPop n) log).

Definition queue_of qs (n : Z) : list Z := default [] (qs !! Z.to_nat n).

Lemma on_queue_Ok qs m f qs' r : on_queue qs m f = Ok (qs', r) ->
  exists q q', 0 <= m /\ qs !! Z.to_nat m = Some q /\ f q = Ok (q', r) /\ qs' = <[Z.to_nat m := q']> qs.
Proof.
  intros H. unfold on_queue in H. destruct qs as [|q0 qs0] eqn:E; [done|]. rewrite <-E in *. clear E.
  case_decide; [|done]. destruct (qs !! Z.to_nat m) as [q|]; [|done].
  destruct (f q) as [[q' r']|] eqn:Hf; [|done]. cbn in H. injection H as <- <-. by exists q, q'.
Qed.

Lemma queue_of_insert qs m n q q' : 0 <= m -> 0 <= n -> qs !! Z.to_nat m = Some q ->
  queue_of (<[Z.to_nat m := q']> qs) n = if decide (n = m) then q' else queue_of qs n.
Proof.
  intros Hm Hn Hq. unfold queue_of. case_decide as H.
  - subst. by rewrite list_lookup_insert_eq by (by eapply lookup_lt_Some).
  - by rewrite list_lookup_insert_ne by lia.
Qed.

(** One call: what is taken from the front, what is left. *)
Lemma fifo_call_step c bits qs bits' qs' r n : 0 <= n -> fifo_call c bits qs = Ok (bits', qs', r) ->
  exists h, queue_of qs n ++ pushed n [(c, r)] = h ++ queue_of qs' n /\ length h = popped n [(c, r)] /\
    (c = QFront n -> queue_of qs n !! 0%nat = Some r).
Proof.
  intros Hn. assert (forall n, queue_of [] n = []) as Hnil by (intros; unfold queue_of; by rewrite lookup_nil).
  assert (forall n : Z, queue_of (replicate 8 []) n = []) as Hrep.
  { intros k. unfold queue_of. destruct (replicate 8 ([] : list Z) !! Z.to_nat k) as [q|] eqn:E; [|done].
    by apply lookup_replicate in E as [-> _]. }
  destruct c as [|m x|m|m|m|m]; cbn [fifo_call].
  - destruct (first_clear _); [|done]. intros [= <- <- <-]. exists []. cbn. rewrite app_nil_r. split_and!; try done.
    destruct qs; [by rewrite Hnil, Hrep|done].
  - destruct (on_queue _ _ _) as [[qs1 r1]|] eqn:E; [|done]. intros [= <- <- <-]. apply on_queue_Ok in E as (q & q' & Hm & Hq & [= <- <-] & ->).
    exists []. rewrite (queue_of_insert qs m n q) by done. cbn. case_decide as H; subst; cbn; split_and!; try done.
    + rewrite decide_True by done. unfold queue_of. by rewrite Hq.
    + rewrite decide_False by done. by rewrite app_nil_r.
  - destruct (on_queue _ _ _) as [[qs1 r1]|] eqn:E; [|done]. intros [= <- <- <-]. apply on_queue_Ok in E as (q & q' & Hm & Hq & Hf & ->).
    destruct q as [|y q]; [done|]. injection Hf as <- <-. exists []. rewrite list_insert_id by done. cbn. rewrite app_nil_r.
    split_and!; try done. intros [= <-]. unfold queue_of. by rewrite Hq.
  - destruct (on_queue _ _ _) as [[qs1 r1]|] eqn:E; [|done]. intros [= <- <- <-]. apply on_queue_Ok in E as (q & q' & Hm & Hq & Hf & ->).
    destruct q as [|y q]; [done|]. injection Hf as <- <-. exists (if decide (n = m) then [y] else []).
    rewrite (queue_of_insert qs m n (y :: q)) by done. cbn. rewrite app_nil_r. case_decide as H; subst; split_and!; try done.
    + unfold queue_of. by rewrite Hq.
    + unfold popped. cbn. by rewrite decide_True.
    + unfold popped. cbn. rewrite decide_False by congruence. done.
  - destruct (on_queue _ _ _) as [[qs1 r1]|] eqn:E; [|done]. intros [= <- <- <-]. apply on_queue_Ok in E as (q & q' & Hm & Hq & [= <- <-] & ->).
    exists []. rewrite list_insert_id by done. cbn. by rewrite app_nil_r.
  - destruct (on_queue _ _ _) as [[qs1 r1]|] eqn:E; [|done]. intros [= <- <- <-]. apply on_queue_Ok in E as (q & q' & Hm & Hq & [= <- <-] & ->).
    exists []. rewrite list_insert_id by done. cbn. by rewrite app_nil_r.
Qed.

Lemma run_queues_fifo l : forall s bits qs s' log n x l1 l2, queues_rep s bits qs -> 0 <= n ->
  run_queues gwords l s = Ok (s', log) -> log = l1 ++ (QFront n, x) :: l2 ->
  (queue_of qs n ++ pushed n l1) !! popped n l1 = Some x.
Proof.
  induction l as [|c l IH]; intros s bits qs s' log n x l1 l2 Hs Hn; cbn.
  { intros [= <- <-]. by destruct l1. }
  unfold sbind, sret. pose proof (exec_queue_refines c s bits qs Hs) as Hc.
  destruct (fifo_call c bits qs) as [[[bits1 qs1] r]|e] eqn:Hf; [|by rewrite Hc].
  destruct Hc as (s1 & -> & Hs1). destruct (run_queues gwords l s1) as [[s2 log2]|] eqn:Hrun; [|done].
  destruct (fifo_call_step c bits qs bits1 qs1 r n Hn Hf) as (h & Hh & Hlen & Hfront).
  intros [= <- <-]. destruct l1 as [|cr l1]; intros [= Hcr Hlog].
  - subst c r. cbn. rewrite app_nil_r. by apply Hfront.
  - subst cr. specialize (IH s1 bits1 qs1 s2 log2 n x l1 l2 Hs1 Hn Hrun Hlog).
    change ((c, r) :: l1) with ([(c, r)] ++ l1). unfold pushed, popped in *. rewrite omap_app, filter_app, length_app, (assoc_L (++)), Hh.
    rewrite <-Hlen, <-(assoc_L (++)), lookup_app_r by lia. rewrite (Nat.add_comm (length h)), Nat.add_sub. exact IH.
Qed.
End Lemmas.

Lemma i32_testbit x m : 0 <= m < 32 -> Z.testbit (i32 x) m = Z.testbit x m.
Proof.
  intros Hm. pose proof (u32_testbit (i32 x) m) as H. rewrite u32_i32, u32_testbit in H by lia.
  destruct (Z.ltb_spec m 32); [|lia]. symmetry. apply H. lia.
Qed.

(** * Properties *)

Section Properties.
  Context {B : Type} `{BA : BitAllocator B} (gwords : nat -> Z).

(** the queues of the user programs are first in, first out. In any run of
    queue calls of all processes, a [QueueFront_Syscall] on a queue, after some
    values were pushed on it and some calls popped it, returns the value that
    was pushed in that position, those that were in the queue at the start
    coming first: no call on another queue, and no create, changes it. *)
Theorem queues_are_fifo (s s' : Queues (B := B)) bits qs l log l1 l2 n x :
  queues_rep s bits qs -> run_queues gwords l s = Ok (s', log) -> log = l1 ++ (QFront n, x) :: l2 -> 0 <= n ->
  (queue_of qs n ++ pushed n l1) !! popped n l1 = Some x.
Proof. intros. by eapply run_queues_fifo. Qed.

(** what each queue call does, on every branch. Before the first create a
    call follows a null pointer; a number outside the eight queues prints a
    warning and then stops the machine in the assertion of [BitMap::Test]; a
    queue that was never created works like any other; the front of an empty
    queue is undefined; a ninth create halts; otherwise the call is that of a
    list. *)
Theorem queue_calls_refine_lists c (s : Queues (B := B)) bits qs : queues_rep s bits qs ->
  match fifo_call c bits qs with
  | Ok (bits', qs', r) => exists s', exec_queue gwords c s = Ok (s', r) /\ queues_rep s' bits' qs'
  | Fault e => exec_queue gwords c s = Fault e
  end.
Proof. apply exec_queue_refines. Qed.

(** a program gets back the two numbers it packed for [NPrint] if they fit
    in 16 unsigned bits, and their low 16 bits otherwise: a negative number
    comes back positive. *)
Theorem decode_of_encode v1 v2 :
  decode2to1 (NEncode2to1_Syscall v1 v2) = (v1 mod 2 ^ 16, v2 mod 2 ^ 16).
Proof.
  unfold decode2to1, NEncode2to1_Syscall. change 0xffff0000 with (Z.shiftl (Z.ones 16) 16). change 0xffff with (Z.ones 16).
  f_equal; apply Z.bits_inj'; intros m Hm.
  - rewrite Z.land_spec, Z.lor_spec, Z.land_spec. destruct (decide (m < 16)).
    + rewrite i32_testbit, Z.shiftl_spec_low, Z.ones_spec_low, Z.mod_pow2_bits_low by lia. by rewrite !andb_true_r.
    + rewrite Z.ones_spec_high, Z.mod_pow2_bits_high by lia. by rewrite !andb_false_r.
  - rewrite Z.shiftr_spec, Z.land_spec, u32_testbit, Z.shiftl_spec, Z.lor_spec, Z.land_spec by lia.
    replace (m + 16 - 16) with m by lia. rewrite (Z.ones_spec_high 16 (m + 16)) by lia. rewrite andb_false_r, orb_false_r.
    destruct (decide (m < 16)).
    + rewrite i32_testbit, Z.shiftl_spec, Z.ones_spec_low, Z.mod_pow2_bits_low by lia. replace (m + 16 - 16) with m by lia.
      destruct (Z.ltb_spec (m + 16) 32); [|lia]. by rewrite andb_true_r.
    + rewrite Z.ones_spec_high, Z.mod_pow2_bits_high by lia. by rewrite andb_false_r.
Qed.
End Properties.

(** ** Witnesses *)

Definition no_queues : Queues (B := BitMap) := mkQueues [] None 0 [].

Lemma no_queues_rep : queues_rep no_queues [] [].
Proof. split; [done|by left]. Qed.

(** Two queues, filled by turns. *)
Definition two_queues : list queue_call :=
  [QCreate; QCreate; QPush 0 5; QPush 1 6; QPush 0 7; QPop 0; QPop 1; QPush 0 8; QFront 0; QSize 0].

Example queues_are_fifo_witness :
  exists s' log, run_queues (fun _ => 0) two_queues no_queues = Ok (s', log) /\
    (queue_of [] 0 ++ pushed 0 (take 8 log)) !! popped 0 (take 8 log) = Some 7.
Proof.
  destruct (run_queues (fun _ => 0) two_queues no_queues) as [[s' log]|] eqn:E; [|vm_compute in E; discriminate E].
  exists s', log. split; [reflexivity|].
  apply (queues_are_fifo (fun _ => 0) no_queues s' [] [] two_queues log (take 8 log) (drop 9 log) 0 7 no_queues_rep E); [|lia].
  vm_compute in E. injection E as <- <-. reflexivity.
Defined.

Example queue_calls_refine_lists_witness :
  exec_queue (fun _ => 0) (QFront 0) no_queues = Fault NullPointer.
Proof. exact (queue_calls_refine_lists (fun _ => 0) (QFront 0) no_queues [] [] no_queues_rep). Defined.
