(* ===== verification/Exceptions.v ===== *)
(** * userprog/exception.cc: the entry point of the kernel

    [ExceptionHandler] (lines 1452 to 1623) decides from register 2 which system
    call a program makes, runs it and moves the program on to its next
    instruction. The calls that stay within one process, and do not wait for
    others, run here on the whole state of that process: files ([FileCalls]),
    queues ([UserQueues]), printing, reading a number, random numbers and the
    time. Those that create, switch or synchronise threads, or ask a lock
    server, are modelled in Syscalls, Process and Clients; here they are a
    parameter ([shared]). *)
From Stdlib Require Import String Ascii.
From S2P Require Import Prelude BitMap Machine Mips VM PageFault UserMemory FileCalls Preserve UserQueues.

(** ** The calls, with their arguments: userprog/syscall.h

    A constructor per code that [ExceptionHandler] serves. *)
Inductive syscall :=
  | SC_Halt
  | SC_Exit (status : Z)
  | SC_Exec (fileName filenameLength nameIndex nameLength : Z)
  | SC_Create (vaddr len : Z)
  | SC_Open (vaddr len : Z)
  | SC_Read (vaddr len id : Z)
  | SC_Write (vaddr len id : Z)
  | SC_Close (fd : Z)
  | SC_Fork (vaddr nameIndex length : Z)
  | SC_Yield
  | SC_CreateLock (nameIndex length : Z)
  | SC_CreateCondition (nameIndex length : Z)
  | SC_Acquire (lockIndex : Z)
  | SC_Release (lockIndex : Z)
  | SC_Signal (conditionIndex lockIndex : Z)
  | SC_Broadcast (conditionIndex lockIndex : Z)
  | SC_DestroyLock (lockIndex : Z)
  | SC_DestroyCondition (conditionIndex : Z)
  | SC_Wait (conditionIndex lockIndex : Z)
  | SC_NPrint (outputString length encodedVal1 encodedVal2 : Z)
  | SC_NEncode2to1 (v1 v2 : Z)
  | SC_CreateQueue
  | SC_QueuePush (queueNum whatToPush : Z)
  | SC_QueueFront (queueNum : Z)
  | SC_QueuePop (queueNum : Z)
  | SC_QueueEmpty (queueNum : Z)
  | SC_QueueSize (queueNum : Z)
  | SC_NTime
  | SC_NRand
  | SC_NSrand (seed : Z)
  | SC_ReadInt (vaddr size : Z)
  | SC_RandInt
  | SC_CreateMV (nameIndex length numArrayEntries initialValue : Z)
  | SC_DestroyMV (arrIndex : Z)
  | SC_SetMV (arrIndex indexInArray value : Z)
  | SC_GetMV (arrIndex varIndex : Z).

(** The [switch (type)]: [None] is its default case. [NETWORK]: whether the
    kernel is built with it. *)
Definition select (NETWORK : bool) (type r4 r5 r6 r7 : Z) : option syscall :=
  match type with
  | 0 => Some SC_Halt
  | 1 => Some (SC_Exit r4)
  | 2 => Some (SC_Exec r4 r5 r6 r7)
  | 4 => Some (SC_Create r4 r5)
  | 5 => Some (SC_Open r4 r5)
  | 6 => Some (SC_Read r4 r5 r6)
  | 7 => Some (SC_Write r4 r5 r6)
  | 8 => Some (SC_Close r4)
  | 9 => Some (SC_Fork r4 r5 r6)
  | 10 => Some SC_Yield
  | 11 => Some (SC_CreateLock r4 r5)
  | 12 => Some (SC_CreateCondition r4 r5)
  | 13 => Some (SC_Acquire r4)
  | 14 => Some (SC_Release r4)
  | 15 => Some (SC_Signal r4 r5)
  | 16 => Some (SC_Broadcast r4 r5)
  | 17 => Some (SC_DestroyLock r4)
  | 18 => Some (SC_DestroyCondition r4)
  | 19 => Some (SC_Wait r4 r5)
  | 24 => Some (SC_NPrint r4 r5 r6 r7)
  | 25 => Some (SC_NEncode2to1 r4 r5)
  | 27 => Some SC_CreateQueue
  | 29 => Some (SC_QueuePush r4 r5)
  | 30 => Some (SC_QueueFront r4)
  | 31 => Some (SC_QueuePop r4)
  | 32 => Some (SC_QueueEmpty r4)
  | 33 => Some (SC_QueueSize r4)
  | 34 => Some SC_NTime
  | 35 => Some SC_NRand
  | 36 => Some (SC_NSrand r4)
  | 37 => Some (SC_ReadInt r4 r5)
  | 38 => Some SC_RandInt
  | 39 => if NETWORK then Some (SC_CreateMV r4 r5 r6 r7) else None
  | 40 => if NETWORK then Some (SC_DestroyMV r4) else None
  | 41 => if NETWORK then Some (SC_SetMV r4 r5 r6) else None
  | 42 => if NETWORK then Some (SC_GetMV r4 r5) else None
  | _ => None
  end.

(** ** [printf] and [cin] *)

Definition text (s : string) : list Z := (fun c => Z.of_nat (nat_of_ascii c)) <$> list_ascii_of_string s.

(** [%d]: the decimal digits. *)
Fixpoint digits (fuel : nat) (n : Z) : list Z :=
  match fuel with
  | O => []
  | S fuel => if decide (n < 10) then [48 + n] else digits fuel (n / 10) ++ [48 + n mod 10]
  end.

Definition decimal (n : Z) : list Z := if decide (n < 0) then 45 :: digits 10 (- n) else digits 10 n.

(** [printf] with arguments of type [int], as far as the programs of test/ use
    it: text, [%d] and [%%]. What another directive does with the rest of the
    format is [other_directive]. *)
Fixpoint printf (other_directive : list Z -> list Z -> res (list Z)) (format args : list Z) : res (list Z) :=
  match format with
  | [] => Ok []
  | 37 :: 100 :: format =>
      match args with
      | [] => Fault OutOfBounds
      | a :: args => let* out := printf other_directive format args in Ok (decimal a ++ out)
      end
  | 37 :: 37 :: format => let* out := printf other_directive format args in Ok (37 :: out)
  | 37 :: _ => other_directive format args
  | c :: format => let* out := printf other_directive format args in Ok (c :: out)
  end.

Definition is_digit (c : Z) : bool := (48 <=? c) && (c <=? 57).

Fixpoint take_digits (l : list Z) : list Z * list Z :=
  match l with
  | c :: l' => if is_digit c then let '(ds, rest) := take_digits l' in (c :: ds, rest) else ([], l)
  | [] => ([], [])
  end.

Definition value_of (ds : list Z) : Z := foldl (fun acc d => 10 * acc + (d - 48)) 0 ds.

Definition split_sign (l : list Z) : bool * list Z :=
  match l with 45 :: l' => (true, l') | 43 :: l' => (false, l') | _ => (false, l) end.

(** [cin >> choice]: white space, a sign, digits. [None] sets the fail bit: at
    the end of the input, without a digit, or for a number too large. *)
Definition extract_int (l : list Z) : option Z * list Z :=
  let '(negative, l) := split_sign (skip_space l) in
  let '(ds, rest) := take_digits l in
  match ds with
  | [] => (None, rest)
  | _ => let v := if negative : bool then - value_of ds else value_of ds in
         (if decide (- 2 ^ 31 <= v < 2 ^ 31) then Some v else None, rest)
  end.

(** [cin.ignore(n, '\n')] *)
Fixpoint ignore (n : nat) (l : list Z) : list Z :=
  match n, l with
  | S n, c :: l => if decide (c = 10) then l else ignore n l
  | _, _ => l
  end.

Section Kernel.
  Context {B : Type} `{BA : BitAllocator B}.
  (** [rand()], as in [VM], and the place in its sequence at which [srand]
      restarts it; the directives of [printf] left to the host. *)
  Context (rand : nat -> Z) (srand : Z -> nat) (other_directive : list Z -> list Z -> res (list Z)).
  (** Rounds of the search for a page to evict, of a read that traps, and of
      questions to the user; what fresh memory holds. *)
  Context (fuel : nat) (garbage gwords : nat -> Z).

(** The state of a process and the kernel it runs on; [now]: the host's clock. *)
Record Kern := mkKern { vm : VM B; io : Io B; queues : Queues (B := B); now : Z }.

Abbreviation W := (Machine * Kern)%type.
Abbreviation F := (ST ((Machine * VM B) * Io B)).

(** The kernel while it copies from and to user memory: an exception other than
    a page fault stops it. *)
#[local] Instance pager : Machine.Kernel (VM B) := VM_Kernel rand (fun _ => fail MachineHalt) fuel.

Definition on_files {A} (c : F A) : ST W A := fun '(m, k) =>
  let* '((m, v, i), a) := c ((m, vm k), io k) in Ok ((m, mkKern v i (queues k) (now k)), a).
Definition on_queues {A} (c : ST (Queues (B := B)) A) : ST W A := fun '(m, k) =>
  let* '(q, a) := c (queues k) in Ok ((m, mkKern (vm k) (io k) q (now k)), a).
Definition on_vm {A} (c : ST (VM B) A) : ST W A := fun '(m, k) =>
  let* '(v, a) := c (vm k) in Ok ((m, mkKern v (io k) (queues k) (now k)), a).

(** ** Printing and reading numbers

    [ioLock] keeps the terminal to one process at a time; it is free when it is
    asked for here. *)

Definition print_out (l : list Z) : F unit := on_io (fun s => Ok (mkIo (fileTable s) (fileSystem s) (console s ++ l) (keyboard s), tt)).

(** [buf] has [length + 1] bytes; [buf[length] = NULL] is outside of it for a
    negative [length]. *)
Definition NPrint_Syscall (outputString length encodedVal1 encodedVal2 : Z) : F unit :=
  new_buffer length ;;;
  r <- on_memory (copyin fuel outputString length) ;;
  let t1 := decode2to1 encodedVal1 in
  let t2 := decode2to1 encodedVal2 in
  out <- lift (printf other_directive (c_string r.2) [t1.1; t1.2; t2.1; t2.2]) ;;
  print_out out.

(** [printf("%s", buf)] stops at the first NUL, which is the program's. *)
Definition terminated (l : list Z) : res (list Z) := if decide (0 ∈ l) then Ok (c_string l) else Fault OutOfBounds.

Definition try_again : list Z := text "Not a valid integer option. Please try again: ".

Fixpoint read_choice (n : nat) : F Z :=
  match n with
  | O => fail OutOfFuel
  | S n =>
      choice <- on_io (fun s => let '(v, rest) := extract_int (keyboard s) in
                                Ok (mkIo (fileTable s) (fileSystem s) (console s) rest, v)) ;;
      match choice with
      | Some v => sret v
      | None =>
          on_io (fun s => Ok (mkIo (fileTable s) (fileSystem s) (console s) (ignore 100 (keyboard s)), tt)) ;;;
          print_out try_again ;;;
          read_choice n
      end
  end.

Definition ReadInt_Syscall (vaddr size : Z) : F Z :=
  new_buffer size ;;;
  r <- on_memory (copyin fuel vaddr size) ;;
  out <- lift (terminated r.2) ;;
  print_out out ;;;
  read_choice fuel.

Definition NRand_Syscall : ST (VM B) Z := fun s => Ok (set_rands (S (rands s)) s, rand (rands s)).
Definition RandInt_Syscall : ST (VM B) Z := NRand_Syscall.
Definition NSrand_Syscall (seed : Z) : ST (VM B) unit := fun s => Ok (set_rands (srand (u32 seed)) s, tt).
(** The time is a [time_t], what is returned an [int]. *)
Definition NTime_Syscall : ST W Z := gets (fun w => i32 (now w.2)).

(** ** [ExceptionHandler] *)

Section Dispatch.
  Context (NETWORK : bool) (shared : syscall -> ST W Z).

(** What a case of the [switch] calls, with [rv]: 0 unless it assigns it. *)
Definition serve (c : syscall) : ST W Z :=
  match c with
  | SC_Halt => fail MachineHalt
  | SC_Create a n => on_files (Create_Syscall fuel a n) ;;; sret 0
  | SC_Open a n => on_files (Open_Syscall fuel a n)
  | SC_Write a n id => on_files (Write_Syscall fuel a n id) ;;; sret 0
  | SC_Read a n id => on_files (Read_Syscall garbage a n id)
  | SC_Close fd => on_files (Close_Syscall fd) ;;; sret 0
  | SC_NPrint a n v1 v2 => on_files (NPrint_Syscall a n v1 v2) ;;; sret 0
  | SC_NEncode2to1 v1 v2 => sret (NEncode2to1_Syscall v1 v2)
  | SC_ReadInt a n => on_files (ReadInt_Syscall a n)
  | SC_RandInt => on_vm RandInt_Syscall
  | SC_CreateQueue => on_queues (CreateQueue_Syscall gwords)
  | SC_QueuePush q x => on_queues (QueuePush_Syscall q x) ;;; sret 0
  | SC_QueueFront q => on_queues (QueueFront_Syscall q)
  | SC_QueuePop q => on_queues (QueuePop_Syscall q) ;;; sret 0
  | SC_QueueEmpty q => on_queues (QueueEmpty_Syscall q)
  | SC_QueueSize q => on_queues (QueueSize_Syscall q)
  | SC_NRand => on_vm NRand_Syscall
  | SC_NTime => NTime_Syscall
  | SC_NSrand seed => on_vm (NSrand_Syscall seed) ;;; sret 0
  | c => shared c
  end.

(** The machine as the kernel accesses it. *)
Definition kread (num : Z) : ST W Z := fun '(m, k) => let* v := ReadRegister m num in Ok ((m, k), v).
Definition kwrite (num value : Z) : ST W unit := fun '(m, k) => let* m := WriteRegister m num value in Ok ((m, k), tt).

(** "Put in the return value and increment the PC". *)
Definition return_to_user (rv : Z) : ST W unit :=
  kwrite 2 rv ;;;
  pc <- kread PCReg ;; kwrite PrevPCReg pc ;;;
  next <- kread NextPCReg ;; kwrite PCReg next ;;;
  pc <- kread PCReg ;; kwrite NextPCReg (i32 (pc + 4)).

Definition HandlePageFault_here : ST W unit := fun '(m, k) =>
  let* '((m, v), _) := Machine.ExceptionHandler PageFaultException (m, vm k) in
  Ok ((m, mkKern v (io k) (queues k) (now k)), tt).

(** The arguments are read together, before the [switch]; reading a register
    changes nothing. [rv] is an [int]. *)
Definition ExceptionHandler (which : ExceptionType) : ST W unit :=
  type <- kread 2 ;;
  match which with
  | SyscallException =>
      r4 <- kread 4 ;; r5 <- kread 5 ;; r6 <- kread 6 ;; r7 <- kread 7 ;;
      match select NETWORK type r4 r5 r6 r7 with
      | Some c => rv <- serve c ;; return_to_user (i32 rv)
      | None => fail MachineHalt
      end
  | PageFaultException => HandlePageFault_here
  | _ => fail MachineHalt
  end.

Definition Nachos : Machine.Kernel Kern := {| Machine.ExceptionHandler := ExceptionHandler |}.
End Dispatch.

(** The calls that [shared] answers. *)
Definition is_shared (c : syscall) : bool :=
  match c with
  | SC_Exit _ | SC_Exec _ _ _ _ | SC_Fork _ _ _ | SC_Yield | SC_CreateLock _ _ | SC_CreateCondition _ _ | SC_Acquire _ | SC_Release _
  | SC_Signal _ _ | SC_Broadcast _ _ | SC_DestroyLock _ | SC_DestroyCondition _ | SC_Wait _ _
  | SC_CreateMV _ _ _ _ | SC_DestroyMV _ | SC_SetMV _ _ _ | SC_GetMV _ _ => true
  | _ => false
  end.
End Kernel.

(** * Lemmas *)

(** ** What the calls of this file preserve *)

Section Calls.
  Context {B : Type} `{BA : BitAllocator B}.
  Context (rand : nat -> Z) (srand : Z -> nat) (other_directive : list Z -> list Z -> res (list Z)).
  Context (fuel : nat) (garbage gwords : nat -> Z) (shared : syscall -> ST (Machine * Kern (B := B)) Z).
  Context (I : Machine * VM B -> Prop) `{!ByteInvariant (KK := pager rand fuel) I}.
  Context (Hrands : forall m v n, I (m, v) -> I (m, set_rands n v)).
  Abbreviation serve := (serve rand srand other_directive fuel garbage gwords shared).

(** [I] of the machine and its memory, in the state of the process. *)
Definition within (w : Machine * Kern (B := B)) : Prop := I (w.1, vm w.2).

Lemma kept_print_out l : preserves (beside I) (print_out (B := B) l).
Proof. apply kept_on_io. Qed.
#[local] Hint Resolve kept_print_out : preserves.

Lemma kept_NPrint a n v1 v2 : preserves (beside I) (NPrint_Syscall rand other_directive fuel a n v1 v2).
Proof. unfold NPrint_Syscall. preserve_steps. Qed.
Lemma kept_read_choice n : preserves (beside I) (read_choice (B := B) n).
Proof. induction n as [|n IH]; cbn [read_choice]; preserve_steps. Qed.
#[local] Hint Resolve kept_read_choice : preserves.
Lemma kept_ReadInt a n : preserves (beside I) (ReadInt_Syscall rand fuel a n).
Proof. unfold ReadInt_Syscall. preserve_steps. Qed.

Lemma kept_on_files {A} (c : ST ((Machine * VM B) * Io B) A) : preserves (beside I) c -> preserves within (on_files c).
Proof. intros Hc [m k] Hm. unfold on_files. specialize (Hc ((m, vm k), io k) Hm). by destruct (c _) as [[[[m' v] i] a]|]. Qed.
Lemma kept_on_queues {A} (c : ST (Queues (B := B)) A) : preserves within (on_queues c).
Proof. intros [m k] Hm. unfold on_queues. by destruct (c _) as [[q a]|]. Qed.
Lemma kept_NRand : preserves within (on_vm (NRand_Syscall rand)).
Proof. intros [m k] Hm. by apply Hrands. Qed.
Lemma kept_RandInt : preserves within (on_vm (RandInt_Syscall rand)).
Proof. apply kept_NRand. Qed.
Lemma kept_NSrand seed : preserves within (on_vm (NSrand_Syscall srand seed)).
Proof. intros [m k] Hm. by apply Hrands. Qed.
#[local] Hint Resolve kept_NPrint kept_ReadInt kept_on_files kept_on_queues kept_NRand kept_RandInt kept_NSrand : preserves.

(** A call of this file preserves what reading and writing bytes does. *)
Lemma kept_serve c : is_shared c = false -> preserves within (serve c).
Proof. intros Hc. destruct c; try done; cbn [Exceptions.serve]; preserve_steps. by intros [m k]. Qed.
End Calls.

(** ** The registers of the program while the kernel works *)

Section HandlerRegisters.
  Context {B : Type} `{BA : BitAllocator B} (R : list Z).

Definition with_regs (s : VM B) : Prop := registers (machine s) = R.

(** A page fault reads and writes memory and tables only. *)
#[export] Instance with_regs_invariant : VMInvariant with_regs.
Proof. split; done. Qed.
End HandlerRegisters.

(** What the copying routines need of a kernel: its handler of the exceptions
    they cause leaves the registers. *)
Class KeepsRegisters (K : Type) `{KK : !Machine.Kernel K} :=
  handler_regs R ex : triple (fun w : Machine * K => registers w.1 = R) (Machine.ExceptionHandler ex) (fun _ w => registers w.1 = R) (fun _ => True).

#[export] Instance pager_keeps_registers {B} `{BA : BitAllocator B} rand fuel :
  KeepsRegisters (VM B) (KK := pager rand fuel).
Proof.
  intros R ex [m k] Hm. cbn [Machine.ExceptionHandler VM_Kernel pager]. unfold PageFault.ExceptionHandler.
  pose proof (kept_HandlePageFault rand (with_regs R) fuel (set_machine m k) Hm) as H. destruct ex; try done.
  destruct (HandlePageFault rand fuel _) as [[s []]|]; [|done]. exact H.
Qed.

(** No load is pending: what a trap finds after its own [DelayedLoad]. *)
Definition calm (R : list Z) : Prop := length R = 40%nat /\ R !! 37%nat = Some 0 /\ R !! 38%nat = Some 0 /\ R !! 0%nat = Some 0.

(** The registers, but for the address of the last fault. *)
Definition same_regs (R R' : list Z) : Prop := length R' = length R /\ forall i, i <> 39%nat -> R' !! i = R !! i.
Definition regs_at {K} (R : list Z) (w : Machine * K) : Prop := same_regs R (registers w.1).

Lemma same_regs_refl R : same_regs R R.
Proof. done. Qed.
Lemma calm_same R R' : calm R -> same_regs R R' -> calm R'.
Proof. intros (H1 & H2 & H3 & H4) [Hl Hi]. unfold calm. rewrite Hl, !Hi by lia. done. Qed.

Lemma same_regs_insert R R' i x : same_regs R R' -> (i = 39%nat \/ R !! i = Some x) -> same_regs R (<[i := x]> R').
Proof.
  intros [Hl Hi] Hx. split; [by rewrite length_insert|]. intros j Hj. rewrite list_lookup_insert. case_decide as Hd; [|by apply Hi].
  destruct Hd as [E Hd]; subst i. by destruct Hx as [E|E].
Qed.

Section Copying.
  Context {K : Type} `{KK : !Machine.Kernel K} `{!KeepsRegisters K} (R : list Z) (HR : calm R).
  Abbreviation quiet := (preserves (regs_at (K := K) R)).

Lemma quiet_machine {A} (f : Machine -> res (Machine * A)) :
  (forall m m' a, f m = Ok (m', a) -> registers m' = registers m) -> quiet (on_machine f).
Proof.
  intros Hf [m k] Hm. unfold on_machine. destruct (f m) as [[m' a]|] eqn:E; [|done]. change (same_regs R (registers m')). by rewrite (Hf _ _ _ E).
Qed.

Lemma reg_set_same m i x : same_regs R (registers m) -> 0 <= i < 40 -> (i = 39 \/ R !! Z.to_nat i = Some x) ->
  exists m', reg_set m i x = Ok m' /\ same_regs R (registers m').
Proof.
  intros Hm Hi Hx. unfold reg_set. rewrite arr_set_in by (destruct Hm as [-> _], HR as [-> _]; lia). cbn [rbind]. eexists. split; [done|].
  apply same_regs_insert; [done|]. destruct Hx as [->|?]; [by left|by right].
Qed.

Lemma calm_DelayedLoad m : same_regs R (registers m) -> exists m', DelayedLoad m 0 0 = Ok m' /\ same_regs R (registers m').
Proof.
  intros Hm. pose proof (calm_same _ _ HR Hm) as (Hl & H37 & H38 & H0). destruct HR as (_ & R37 & R38 & R0).
  unfold DelayedLoad, reg_get. rewrite (arr_get_lookup _ LoadReg 0), (arr_get_lookup _ LoadValueReg 0) by done. cbn [rbind].
  destruct (reg_set_same m 0 0) as (m1 & -> & H1); [done|lia|by right|]. cbn [rbind].
  destruct (reg_set_same m1 LoadReg 0) as (m2 & -> & H2); [done|done|by right|]. cbn [rbind].
  destruct (reg_set_same m2 LoadValueReg 0) as (m3 & -> & H3); [done|done|by right|]. cbn [rbind].
  apply (reg_set_same m3 0 0); [done|lia|by right].
Qed.

Lemma quiet_RaiseException ex a : quiet (RaiseException ex a).
Proof.
  unfold RaiseException. apply preserves_bind; [|intros _; apply preserves_bind; [|intros _; apply preserves_bind; [|intros _; apply preserves_bind; [|intros _]]]].
  - intros [m k] Hm. unfold on_machine_. destruct (reg_set_same m BadVAddrReg a Hm) as (m' & -> & ?); [done|by left|done].
  - intros [m k] Hm. unfold on_machine_. destruct (calm_DelayedLoad m Hm) as (m' & -> & ?). done.
  - by intros [m k] Hm.
  - intros [m k] Hm. pose proof (handler_regs (registers m) ex (m, k) eq_refl) as H.
    destruct (Machine.ExceptionHandler ex (m, k)) as [[[m' k'] []]|]; [|done]. change (same_regs R (registers m')). cbn in H. by rewrite H.
  - by intros [m k] Hm.
Qed.

Lemma quiet_ReadMem a n : quiet (ReadMem a n).
Proof.
  apply preserves_bind; [apply quiet_machine; intros *; apply Translate_regs|]. intros [ex|pa]; apply preserves_bind; try (intros; apply preserves_ret).
  - apply quiet_RaiseException.
  - apply quiet_machine. intros m m' v E. unfold ReadMem_at in E. inv_res E. by simplify_eq.
Qed.

Lemma quiet_WriteMem a n v : quiet (WriteMem a n v).
Proof.
  apply preserves_bind; [apply quiet_machine; intros *; apply Translate_regs|]. intros [ex|pa]; apply preserves_bind; try (intros; apply preserves_ret).
  - apply quiet_RaiseException.
  - intros [m k] Hm. unfold on_machine_, WriteMem_at. by destruct (mem_write _ _ _ _).
Qed.

#[export] Instance regs_bytes : ByteInvariant (regs_at (K := K) R).
Proof. split; intros; [apply quiet_ReadMem|apply quiet_WriteMem]. Qed.
End Copying.

(** ** From the trap to the next instruction *)

Definition reg (m : Machine) (i : nat) : Z := default 0 (registers m !! i).

(** The registers once the load under way has landed. *)
Definition landed (R : list Z) : list Z :=
  <[0%nat := 0]> (<[38%nat := 0]> (<[37%nat := 0]> (<[Z.to_nat (default 0 (R !! 37%nat)) := default 0 (R !! 38%nat)]> R))).

(** The machine when the kernel starts to serve a call, and when it returns. *)
Definition trapped (m : Machine) : Machine := set_status (set_registers m (landed (<[39%nat := 0]> (registers m)))) SystemMode.

Definition resumed (m : Machine) (rv : Z) : Machine :=
  set_registers m (<[35%nat := i32 (reg m 35 + 4)]> (<[34%nat := reg m 35]> (<[36%nat := reg m 34]> (<[2%nat := rv]> (registers m))))).

(** The word at the program counter is [raw]; reading it gives [m']. *)
Definition at_instruction (m : Machine) (raw : Z) (m' : Machine) : Prop :=
  exists m1 pa, Translate m (reg m 34) 4 false = Ok (m1, inr pa) /\ ReadMem_at m1 pa 4 = Ok (m', raw).

Lemma reg_lookup m i : (i < length (registers m))%nat -> registers m !! i = Some (reg m i).
Proof. intros Hi. unfold reg. by destruct (lookup_lt_is_Some_2 (registers m) i) as [x ->]. Qed.

Lemma reg_get_reg m i : length (registers m) = 40%nat -> 0 <= i < 40 -> reg_get m i = Ok (reg m (Z.to_nat i)).
Proof. intros Hl Hi. unfold reg_get. apply arr_get_lookup; [lia|]. apply reg_lookup. lia. Qed.

Lemma regs_ok_load m : regs_ok m -> length (registers m) = 40%nat /\ 0 <= default 0 (registers m !! 37%nat) < 32.
Proof. intros [Hl (r & Hr & H)]. split; [done|]. by rewrite Hr. Qed.

Lemma landed_length R : length (landed R) = length R.
Proof. unfold landed. by rewrite !length_insert. Qed.

Lemma landed_calm R : length R = 40%nat -> calm (landed R).
Proof.
  intros Hl. split; [by rewrite landed_length|]. unfold landed.
  split_and!; rewrite ?list_lookup_insert_ne by done; rewrite list_lookup_insert_eq by (rewrite !length_insert; lia); done.
Qed.

Lemma trap_lands m : regs_ok m ->
  (m1 ← reg_set m BadVAddrReg 0; m2 ← DelayedLoad m1 0 0; Ok (set_status m2 SystemMode)) = Ok (trapped m).
Proof.
  intros Hm. destruct (regs_ok_load m Hm) as [Hl Hr].
  unfold reg_set at 1. rewrite arr_set_in by (unfold BadVAddrReg; lia). cbn [rbind mbind res_bind].
  unfold trapped. change (Z.to_nat BadVAddrReg) with 39%nat. set (R := <[39%nat := 0]> (registers m)).
  assert (length R = 40%nat /\ R !! 37%nat = registers m !! 37%nat /\ R !! 38%nat = registers m !! 38%nat) as (Rl & R37 & R38).
  { subst R. rewrite length_insert. by rewrite !list_lookup_insert_ne by lia. }
  destruct (registers m !! 37%nat) as [r|] eqn:E37; [|apply lookup_ge_None in E37; lia].
  destruct (registers m !! 38%nat) as [v|] eqn:E38; [|apply lookup_ge_None in E38; lia]. cbn in Hr.
  unfold DelayedLoad, reg_get. cbn [registers set_registers].
  rewrite (arr_get_lookup R LoadReg r), (arr_get_lookup R LoadValueReg v) by done. cbn [rbind].
  unfold reg_set, landed. rewrite R37, R38. cbn [default].
  repeat (cbn [rbind registers set_registers]; rewrite arr_set_in by (rewrite ?length_insert; unfold LoadReg, LoadValueReg; lia)).
  cbn [rbind registers set_registers]. done.
Qed.

Section Dispatch.
  Context {B : Type} `{BA : BitAllocator B}.
  Context (rand : nat -> Z) (srand : Z -> nat) (other_directive : list Z -> list Z -> res (list Z)).
  Context (fuel : nat) (garbage gwords : nat -> Z) (NETWORK : bool) (shared : syscall -> ST (Machine * Kern (B := B)) Z).
  Abbreviation serve := (serve rand srand other_directive fuel garbage gwords shared).
  Abbreviation ExceptionHandler := (ExceptionHandler rand srand other_directive fuel garbage gwords NETWORK shared).
#[local] Instance nachos : Machine.Kernel (Kern (B := B)) := Nachos rand srand other_directive fuel garbage gwords NETWORK shared.

Lemma kread_reg i m (k : Kern (B := B)) : length (registers m) = 40%nat -> 0 <= i < 40 -> kread i (m, k) = Ok ((m, k), reg m (Z.to_nat i)).
Proof.
  intros Hl Hi. unfold kread, ReadRegister, ASSERT. rewrite !bool_decide_eq_true_2 by (unfold NumTotalRegs; lia). cbn [andb rbind].
  by rewrite (arr_get_lookup _ _ (reg m (Z.to_nat i))) by (apply reg_lookup || idtac; lia).
Qed.

Lemma kwrite_reg i v m (k : Kern (B := B)) : length (registers m) = 40%nat -> 0 <= i < 40 ->
  kwrite i v (m, k) = Ok ((set_registers m (<[Z.to_nat i := v]> (registers m)), k), tt).
Proof.
  intros Hl Hi. unfold kwrite, WriteRegister, ASSERT. rewrite !bool_decide_eq_true_2 by (unfold NumTotalRegs; lia). cbn [andb rbind].
  by rewrite arr_set_in by lia.
Qed.

Lemma return_to_user_ok rv m (k : Kern (B := B)) : length (registers m) = 40%nat -> return_to_user rv (m, k) = Ok ((resumed m rv, k), tt).
Proof.
  intros Hl. unfold return_to_user, sbind.
  repeat (rewrite kread_reg || rewrite kwrite_reg); try (cbn; rewrite ?length_insert; lia); try (unfold PCReg, NextPCReg, PrevPCReg; lia).
  cbn [registers set_registers]. unfold resumed, PCReg, NextPCReg, PrevPCReg, reg. cbn [registers set_registers].
  change (Z.to_nat 34) with 34%nat. change (Z.to_nat 35) with 35%nat. change (Z.to_nat 36) with 36%nat. change (Z.to_nat 2) with 2%nat.
  rewrite (list_lookup_insert_ne _ 2 34), (list_lookup_insert_ne _ 36 35), (list_lookup_insert_ne _ 2 35) by done.
  rewrite list_lookup_insert_eq by (rewrite !length_insert; lia). done.
Qed.

Lemma resumed_registers m rv : length (registers m) = 40%nat -> let m' := set_status (resumed m rv) UserMode in
  reg m' 2 = rv /\ reg m' 36 = reg m 34 /\ reg m' 34 = reg m 35 /\ reg m' 35 = i32 (reg m 35 + 4) /\
  forall i, i ∉ [2; 34; 35; 36]%nat -> registers m' !! i = registers m !! i.
Proof.
  intros Hl m'. subst m'. unfold reg at 1 2 4 6, resumed. cbn [registers set_status set_registers].
  split_and!; [| | | |intros i Hi; by rewrite !list_lookup_insert_ne by set_solver].
  all: rewrite ?list_lookup_insert_ne by done; by rewrite list_lookup_insert_eq by (rewrite ?length_insert; lia).
Qed.

(** What [ExceptionHandler] does with a system call. *)
Lemma handler_serves m k : length (registers m) = 40%nat ->
  match select NETWORK (reg m 2) (reg m 4) (reg m 5) (reg m 6) (reg m 7) with
  | None => ExceptionHandler SyscallException (m, k) = Fault MachineHalt
  | Some c => match serve c (m, k) with
              | Ok ((m', k'), rv) => length (registers m') = 40%nat -> ExceptionHandler SyscallException (m, k) = Ok ((resumed m' (i32 rv), k'), tt)
              | Fault f => ExceptionHandler SyscallException (m, k) = Fault f
              end
  end.
Proof.
  intros Hl.
  assert (ExceptionHandler SyscallException (m, k) = match select NETWORK (reg m 2) (reg m 4) (reg m 5) (reg m 6) (reg m 7) with
    | Some c => (rv <- serve c ;; return_to_user (i32 rv)) (m, k) | None => Fault MachineHalt end) as ->.
  { unfold Exceptions.ExceptionHandler. unfold sbind at 1. rewrite kread_reg by (done || lia).
    do 4 (unfold sbind at 1; rewrite kread_reg by (done || lia)). by destruct (select _ _ _ _ _ _). }
  destruct (select _ _ _ _ _ _) as [c|]; [|done]. unfold sbind. destruct (serve c (m, k)) as [[[m' k'] rv]|f]; [|done].
  intros Hl'. by apply return_to_user_ok.
Qed.

Lemma decode_syscall : exists i, Decode (u32 12) = Ok i /\ opCode i = OP_SYSCALL.
Proof. eexists. split; [by vm_compute|done]. Qed.

(** A system call instruction enters the handler. *)
Lemma trap_run m k m1 m0 pa : regs_ok m1 -> registers m1 = registers m ->
  Translate m (reg m 34) 4 false = Ok (m0, inr pa) -> ReadMem_at m0 pa 4 = Ok (m1, 12) ->
  OneInstruction (m, k) =
    (let* '((m, k), _) := ExceptionHandler SyscallException (trapped m1, k) in Ok ((set_status m UserMode, k), tt)).
Proof.
  intros Hok Hr Ht Hread. destruct (regs_ok_load m1 Hok) as [Hl _]. rewrite Hr in Hl.
  destruct decode_syscall as (i & Hdec & Hop).
  unfold OneInstruction. unfold sbind at 1, rget at 1. rewrite reg_get_reg by (done || unfold PCReg; lia). cbn [rbind].
  unfold sbind at 1, ReadMem. change (Z.to_nat PCReg) with 34%nat. unfold sbind at 1, on_machine at 1. rewrite Ht. cbn [rbind].
  unfold sbind at 1, on_machine at 1. rewrite Hread. cbn [rbind sret]. unfold sbind at 1, lift. rewrite Hdec.
  unfold sbind at 1, rget at 1. rewrite reg_get_reg by (unfold NextPCReg; congruence || lia). cbn [rbind].
  unfold sbind at 1, exec_op. rewrite Hop. unfold trap. unfold sbind at 1, RaiseException.
  pose proof (trap_lands m1 Hok) as Htc. unfold sbind, on_machine_ at 1.
  destruct (reg_set m1 BadVAddrReg 0) as [m2|]; [|done]. cbn [rbind mbind res_bind] in *. unfold on_machine_ at 1.
  destruct (DelayedLoad m2 0 0) as [m3|]; [|done]. cbn [rbind mbind res_bind] in *. unfold on_machine_ at 1. cbn [rbind].
  assert (set_status m3 SystemMode = trapped m1) as -> by congruence. cbn [Machine.ExceptionHandler nachos Nachos].
  by destruct (ExceptionHandler SyscallException (trapped m1, k)) as [[[m4 k4] []]|].
Qed.
End Dispatch.

(** ** Formats and numbers *)

(** A format with at most these directives, and what it prints. *)
Inductive piece :=
  | Text (l : list Z)
  | Number
  | Percent.

#[global] Instance piece_eq_dec : EqDecision piece.
Proof. solve_decision. Defined.

Definition format_of (ps : list piece) : list Z :=
  ps ≫= fun p => match p with Text l => l | Number => [37; 100] | Percent => [37; 37] end.

Fixpoint rendered (ps : list piece) (args : list Z) : list Z :=
  match ps, args with
  | [], _ => []
  | Text l :: ps, _ => l ++ rendered ps args
  | Percent :: ps, _ => 37 :: rendered ps args
  | Number :: ps, a :: args => decimal a ++ rendered ps args
  | Number :: ps, [] => []
  end.

Definition numbers (ps : list piece) : nat := length (filter (fun p => p = Number) ps).

(** The characters of a text: no NUL, no per cent sign. *)
Definition text_char (c : Z) : Prop := 0 < c < 128 /\ c <> 37.
Definition plain (p : piece) : Prop := match p with Text l => Forall text_char l | _ => True end.

Lemma printf_text od l f args : Forall text_char l ->
  printf od (l ++ f) args = (let* out := printf od f args in Ok (l ++ out)).
Proof.
  induction 1 as [|c l [Hc H37] _ IH]; cbn [app]; [by destruct (printf od f args)|].
  assert (printf od (c :: l ++ f) args = (let* out := printf od (l ++ f) args in Ok (c :: out))) as ->.
  { destruct c as [|p|p]; try lia. do 6 (destruct p as [p|p|]; try done). }
  rewrite IH. by destruct (printf od f args).
Qed.

Lemma printf_format od ps args : Forall plain ps -> (numbers ps <= length args)%nat -> printf od (format_of ps) args = Ok (rendered ps args).
Proof.
  intros Hps. revert args. induction Hps as [|p ps Hp Hps IH]; intros args Hn; [done|].
  change (format_of (p :: ps)) with ((match p with Text l => l | Number => [37; 100] | Percent => [37; 37] end) ++ format_of ps).
  unfold numbers in *. rewrite filter_cons in Hn. destruct p as [l| |]; cbn [rendered app] in *.
  - rewrite printf_text by done. by rewrite IH.
  - rewrite decide_True in Hn by done. destruct args as [|a args]; cbn in Hn; [lia|]. cbn [printf]. by rewrite IH by (cbn in Hn; lia).
  - cbn [printf]. by rewrite IH.
Qed.

Lemma format_chars ps : Forall plain ps -> Forall (fun c => 0 < c < 128) (format_of ps).
Proof.
  intros Hps. apply Forall_bind, (Forall_impl _ _ _ Hps). intros [l| |] Hl; [|repeat constructor; lia..].
  apply (Forall_impl _ _ _ Hl). by intros c [? _].
Qed.

(** A C string in memory, as the kernel gets it. *)
Lemma c_string_ascii l : Forall (fun c => 0 < c < 128) l -> c_string (i8 <$> l ++ [0]) = l.
Proof.
  induction 1 as [|c l Hc _ IH]; [done|]. cbn [app fmap list_fmap c_string].
  assert (i8 c = c) as -> by (unfold i8; rewrite Z.mod_small; lia). rewrite decide_False by lia. by f_equal.
Qed.

(** Reading digits back. *)
Lemma value_app ds d : value_of (ds ++ [d]) = 10 * value_of ds + (d - 48).
Proof. unfold value_of. by rewrite foldl_app. Qed.

Lemma digits_value fuel n : 0 <= n < 10 ^ Z.of_nat fuel -> (fuel <> 0)%nat ->
  value_of (digits fuel n) = n /\ Forall (fun c => is_digit c = true) (digits fuel n) /\ digits fuel n <> [].
Proof.
  revert n. induction fuel as [|fuel IH]; intros n Hn Hf; [done|]. cbn [digits].
  assert (forall d, 0 <= d < 10 -> is_digit (48 + d) = true) as Hdig by (intros d Hd; unfold is_digit; lia).
  case_decide.
  - split_and!; [cbn; lia|repeat constructor; apply Hdig; lia|done].
  - rewrite Nat2Z.inj_succ, Z.pow_succ_r in Hn by lia. pose proof (Z.mod_pos_bound n 10). pose proof (Z.div_mod n 10).
    assert (0 <= n / 10 < 10 ^ Z.of_nat fuel) as Hd by (split; [apply Z.div_pos|apply Z.div_lt_upper_bound]; lia).
    assert (fuel <> 0%nat) as Hf0 by (intros ->; cbn in Hn; lia).
    destruct (IH (n / 10) Hd Hf0) as (Hv & Ha & Hne).
    split_and!; [rewrite value_app, Hv; lia|apply Forall_app_2; [done|repeat constructor; apply Hdig; lia]|].
    by destruct (digits fuel (n / 10)).
Qed.

(** The input goes on with something that is not a digit. *)
Definition ends_number (rest : list Z) : Prop := match rest with c :: _ => is_digit c = false | [] => True end.

Lemma take_digits_app ds rest : Forall (fun c => is_digit c = true) ds -> ends_number rest -> take_digits (ds ++ rest) = (ds, rest).
Proof.
  intros Hds Hr. induction Hds as [|c ds Hc _ IH]; cbn [app take_digits].
  - destruct rest as [|c rest]; cbn in *; [done|]. by rewrite Hr.
  - by rewrite Hc, IH.
Qed.

Lemma skip_space_app sp l : Forall (fun c => is_space c = true) sp -> skip_space (sp ++ l) = skip_space l.
Proof. induction 1 as [|c sp Hc _ IH]; cbn [app skip_space]; [done|]. by rewrite Hc. Qed.

Lemma split_sign_none c l : c <> 45 -> c <> 43 -> split_sign (c :: l) = (false, c :: l).
Proof. intros H1 H2. destruct c as [|p|p]; try done. do 6 (destruct p as [p|p|]; try done). Qed.

(** [n] written out after white space. *)
Lemma extract_decimal sp n rest : Forall (fun c => is_space c = true) sp -> - 2 ^ 31 <= n < 2 ^ 31 -> ends_number rest ->
  extract_int (sp ++ decimal n ++ rest) = (Some n, rest).
Proof.
  intros Hsp Hn Hr. unfold extract_int. rewrite skip_space_app by done. unfold decimal. case_decide.
  - destruct (digits_value 10 (- n)) as (Hv & Ha & Hne); [cbn; lia|done|]. cbn [app skip_space].
    change (is_space 45) with false. cbn [split_sign]. rewrite take_digits_app by done.
    destruct (digits 10 (- n)) as [|c ds] eqn:E; [done|]. rewrite Hv, Z.opp_involutive. by rewrite decide_True.
  - destruct (digits_value 10 n) as (Hv & Ha & Hne); [cbn; lia|done|].
    destruct (digits 10 n) as [|c ds] eqn:E; [done|]. cbn [app skip_space].
    assert (is_digit c = true) as Hc by by inversion Ha. unfold is_digit in Hc.
    assert (is_space c = false) as -> by (unfold is_space; lia). rewrite split_sign_none by lia.
    rewrite app_comm_cons, take_digits_app by done. rewrite Hv. by rewrite decide_True.
Qed.

(** ** Answers that are not numbers *)

Definition starts_number (l : list Z) : bool :=
  let '(_, l) := split_sign l in match l with c :: _ => is_digit c | [] => false end.

(** White space, then a line that does not start with a number and is short
    enough for [cin.ignore(100, '\n')]. *)
Record wrong (a : list Z * list Z) : Prop := {
  wrong_space : Forall (fun c => is_space c = true) a.1;
  wrong_text : match a.2 with c :: _ => is_space c = false | [] => False end;
  wrong_number : starts_number a.2 = false;
  wrong_line : 10 ∉ a.2;
  wrong_length : (length a.2 < 100)%nat
}.

Definition typed (answers : list (list Z * list Z)) : list Z := answers ≫= fun a => a.1 ++ a.2 ++ [10].

Lemma ignore_line n l rest : 10 ∉ l -> (length l < n)%nat -> ignore n (l ++ 10 :: rest) = rest.
Proof.
  revert n. induction l as [|c l IH]; intros [|n] Hl Hn; cbn in *; try lia; [done|].
  rewrite decide_False by set_solver. apply IH; [set_solver|lia].
Qed.

Lemma no_digits l rest : match l with c :: _ => is_digit c = false | [] => True end -> take_digits (l ++ 10 :: rest) = ([], l ++ 10 :: rest).
Proof. destruct l as [|c l]; [done|]. intros Hc. cbn [app take_digits]. by rewrite Hc. Qed.

Lemma extract_wrong a rest : wrong a -> exists l, extract_int (a.1 ++ a.2 ++ 10 :: rest) = (None, l) /\ ignore 100 l = rest.
Proof.
  destruct a as [sp body]. intros [Hsp Ht Hn Hl Hlen]. cbn [fst snd] in *. destruct body as [|c body]; [done|].
  unfold extract_int. rewrite skip_space_app by done. cbn [app skip_space]. rewrite Ht. unfold starts_number in Hn.
  cbn [length] in Hlen. destruct (decide (c = 45)) as [->|H45]; [|destruct (decide (c = 43)) as [->|H43]].
  1, 2: cbn [split_sign] in *; rewrite no_digits by (by destruct body); eexists; (split; [done|]); apply ignore_line; [set_solver|lia].
  rewrite split_sign_none in Hn |- * by done. rewrite app_comm_cons, no_digits by done.
  eexists. split; [done|]. apply ignore_line; [set_solver|cbn; lia].
Qed.

Section Questions.
  Context {B : Type} `{BA : BitAllocator B}.
  Implicit Types (w : Machine * VM B) (s : Io B).

Definition with_input (out input : list Z) s : Io B := mkIo (fileTable s) (fileSystem s) out input.

Lemma read_choice_wrong n w s a rest : wrong a -> keyboard s = a.1 ++ a.2 ++ 10 :: rest ->
  read_choice (S n) (w, s) = read_choice n (w, with_input (console s ++ try_again) rest s).
Proof.
  intros Ha Hk. destruct (extract_wrong a rest Ha) as (l & He & Hi). cbn [read_choice].
  unfold sbind at 1, on_io at 1. rewrite Hk, He. cbn [rbind]. unfold sbind at 1, on_io at 1. cbn [rbind keyboard].
  rewrite Hi. by unfold sbind at 1, print_out, on_io.
Qed.

Lemma read_choice_lines answers : forall n w s rest, Forall wrong answers -> keyboard s = typed answers ++ rest ->
  read_choice (length answers + n) (w, s) = read_choice n (w, with_input (console s ++ concat (replicate (length answers) try_again)) rest s).
Proof.
  induction answers as [|a answers IH]; intros n w s rest Ha Hk.
  { cbn in *. rewrite app_nil_r. by destruct s as [? ? ? k]; cbn in *; subst k. }
  inversion Ha; subst. unfold typed in Hk. cbn [mbind list_bind] in Hk. rewrite <-!app_assoc in Hk. cbn [app length Nat.add] in *.
  rewrite (read_choice_wrong _ _ _ a (typed answers ++ rest)) by done. rewrite (IH n _ _ rest) by done.
  unfold with_input. cbn. by rewrite <-app_assoc.
Qed.

Lemma read_choice_number n w s v rest : extract_int (keyboard s) = (Some v, rest) ->
  read_choice (S n) (w, s) = Ok ((w, with_input (console s) rest s), v).
Proof. intros He. cbn [read_choice]. unfold sbind at 1, on_io at 1. rewrite He. done. Qed.

(** At the end of the input there is no answer. *)
Lemma read_choice_end n : forall w s, Forall (fun c => is_space c = true) (keyboard s) -> read_choice n (w, s) = Fault OutOfFuel.
Proof.
  induction n as [|n IH]; intros w s Hk; [done|]. cbn [read_choice]. unfold sbind at 1, on_io at 1.
  assert (extract_int (keyboard s) = (None, [])) as ->.
  { unfold extract_int. rewrite <-(app_nil_r (keyboard s)), skip_space_app by done. done. }
  cbn [rbind]. unfold sbind at 1, on_io at 1. cbn [rbind keyboard]. unfold sbind at 1, print_out, on_io. cbn [rbind]. by apply IH.
Qed.
End Questions.

Section CopyWhole.
  Context {B : Type} `{BA : BitAllocator B} (rand : nat -> Z).

(** A buffer of the program that is in memory is copied whole. *)
Lemma copyin_whole n m (k : VM B) t bl sl va bytes :
  regs_ok m -> Inv None None (joined m k) t bl sl -> listed None k -> small_pages k ->
  0 <= va -> va + Z.of_nat (length bytes) <= 2 ^ 31 -> (forall i x, bytes !! i = Some x -> user_byte m k t (va + Z.of_nat i) x) ->
  exists m' k' t', undisturbed m k t m' k' t' bl sl /\
    forall A s (extra : Z) (c : Z * list Z -> ST ((Machine * VM B) * Io B) A), 0 <= extra ->
      (new_buffer extra ;;; r <- on_memory (copyin (Kernel0 := pager rand (S (S n))) (S (S n)) va (Z.of_nat (length bytes))) ;; c r) ((m, k), s) =
      c (Z.of_nat (length bytes), i8 <$> bytes) ((m', k'), s).
Proof.
  intros Hregs HI HL Hsm Hva Hend Hbytes.
  destruct (copyin_loop_ok rand (fun _ => fail MachineHalt) (S n) n bytes m k t bl sl va Hregs HI HL Hsm Hva Hend Hbytes) as (m' & k' & t' & Hcopy & Hud).
  exists m', k', t'. split; [done|]. intros A s extra c He. unfold sbind at 1, new_buffer. rewrite decide_True by lia. cbn [sret].
  unfold sbind at 1, on_memory, copyin. unfold sbind at 1. rewrite Nat2Z.id. unfold paging in Hcopy. unfold pager. by rewrite Hcopy.
Qed.
End CopyWhole.

Lemma served_spec (NETWORK : bool) type r4 r5 r6 r7 :
  type ∈ [0; 1; 2; 4; 5; 6; 7; 8; 9; 10; 11; 12; 13; 14; 15; 16; 17; 18; 19; 24; 25; 27; 29; 30; 31; 32; 33; 34; 35; 36; 37; 38] ++
    (if NETWORK then [39; 40; 41; 42] else []) <-> is_Some (select NETWORK type r4 r5 r6 r7).
Proof.
  split.
  - rewrite elem_of_app. intros [H|H]; [|destruct NETWORK]; repeat (apply elem_of_cons in H as [->|H]; [done|]); by apply elem_of_nil in H.
  - destruct (decide (0 <= type <= 42)) as [Hr|Hr].
    + assert (type ∈ seqZ 0 43) as H by (apply elem_of_seqZ; lia). let l := eval vm_compute in (seqZ 0 43) in change (type ∈ l) in H.
      repeat (apply elem_of_cons in H as [->|H]; [destruct NETWORK; intros Hs; first [by destruct Hs|by (refine (bool_decide_unpack _ _); vm_compute)]|]). by apply elem_of_nil in H.
    + intros [c Hc]. exfalso. unfold select in Hc. destruct type as [|p|p]; [lia| |done]. do 6 (destruct p as [p|p|]; try done; try lia).
Qed.

(** * Properties *)

Section Properties.
  Context {B : Type} `{BA : BitAllocator B}.
  Context (rand : nat -> Z) (srand : Z -> nat) (other_directive : list Z -> list Z -> res (list Z)).
  Context (fuel : nat) (garbage gwords : nat -> Z) (NETWORK : bool) (shared : syscall -> ST (Machine * Kern (B := B)) Z).
  Abbreviation serve := (serve rand srand other_directive fuel garbage gwords shared).
  Abbreviation ExceptionHandler := (ExceptionHandler rand srand other_directive fuel garbage gwords NETWORK shared).

(** C6: a system call instruction is a call of a kernel procedure. When the
    load under way has landed, with the code of a call in register 2 and its
    arguments in registers 4 to 7, the instruction runs that call, for every
    code that has a case. When the call stops the machine, so does the
    instruction; and when it returns, the program that runs then goes on at its
    next instruction, delay slot included, with the result in register 2 and
    its other registers as the call left them. The calls served in this
    file leave them as they were, but for the address of the last fault. The
    seventeen that other parts of the kernel serve, among them [Exit], [Fork]
    and [Yield], which may go on with the registers of another thread, are the
    parameter [shared]. *)
Theorem syscall_instruction_is_a_call m k m1 c : regs_ok m -> at_instruction m 12 m1 ->
  let R := landed (<[39%nat := 0]> (registers m)) in
  let now i := default 0 (R !! i) in
  select NETWORK (now 2%nat) (now 4%nat) (now 5%nat) (now 6%nat) (now 7%nat) = Some c ->
  let one := OneInstruction (Kernel0 := nachos rand srand other_directive fuel garbage gwords NETWORK shared) (m, k) in
  match serve c (trapped m1, k) with
  | Fault f => one = Fault f
  | Ok ((m2, k'), rv) =>
      (is_shared c = false -> same_regs R (registers m2)) /\
      (length (registers m2) = 40%nat -> exists m', one = Ok ((m', k'), tt) /\ mainMemory m' = mainMemory m2 /\
        reg m' 2 = i32 rv /\ reg m' 36 = reg m2 34 /\ reg m' 34 = reg m2 35 /\ reg m' 35 = i32 (reg m2 35 + 4) /\
        forall i, i ∉ [2; 34; 35; 36]%nat -> registers m' !! i = registers m2 !! i)
  end.
Proof.
  intros Hok (m0 & pa & Ht & Hread) R now Hsel one. destruct (regs_ok_load m Hok) as [Hl _].
  assert (registers m1 = registers m) as Hr1.
  { rewrite <-(Translate_regs _ _ _ _ _ _ Ht). unfold ReadMem_at in Hread. inv_res Hread. by simplify_eq. }
  assert (registers (trapped m1) = R) as Hregs by (subst R; unfold trapped; cbn; by rewrite Hr1).
  assert (length R = 40%nat) as HR by (subst R; by rewrite landed_length, length_insert).
  assert (forall i, reg (trapped m1) i = now i) as Hnow by (intros i; unfold reg; by rewrite Hregs).
  assert (calm R) as Hcalm by (apply landed_calm; by rewrite length_insert).
  subst one. rewrite (trap_run rand srand other_directive fuel garbage gwords NETWORK shared m k m1 m0 pa) by (done || by unfold regs_ok in *; rewrite Hr1).
  pose proof (handler_serves rand srand other_directive fuel garbage gwords NETWORK shared (trapped m1) k) as Hh.
  rewrite !Hnow, Hsel, Hregs in Hh. specialize (Hh HR).
  destruct (serve c (trapped m1, k)) as [[[m2 k'] rv]|f] eqn:Hserve; [|by rewrite Hh]. split.
  - intros Hsh. pose proof (kept_serve rand srand other_directive fuel garbage gwords shared (regs_at R)
      (ByteInvariant0 := regs_bytes (KK := pager rand fuel) _ Hcalm) (fun _ _ _ H => H) c Hsh (trapped m1, k)) as Hq.
    rewrite Hserve in Hq. apply Hq. change (same_regs R (registers (trapped m1))). rewrite Hregs. apply same_regs_refl.
  - intros Hl2. rewrite (Hh Hl2). cbn [rbind]. eexists. split; [done|]. split; [done|]. by apply resumed_registers.
Qed.

(** The codes of userprog/syscall.h with a case of their own; the last four
    only with NETWORK. *)
Definition served : list Z :=
  [0; 1; 2; 4; 5; 6; 7; 8; 9; 10; 11; 12; 13; 14; 15; 16; 17; 18; 19; 24; 25; 27; 29; 30; 31; 32; 33; 34; 35; 36; 37; 38] ++
  (if NETWORK then [39; 40; 41; 42] else []).

(** an exception that is not a page fault, and a system call whose code has
    no case, stop the machine. Among the latter are calls that syscall.h
    declares and for which user programs have a stub: [Join] (3), the
    semaphores (20 to 23), [DestroyQueue] (28), and the monitor variables
    without NETWORK. Every other code has a case. *)
Theorem unserved_codes_halt m k which : length (registers m) = 40%nat ->
  (which <> SyscallException -> which <> PageFaultException -> ExceptionHandler which (m, k) = Fault MachineHalt) /\
  (which = SyscallException -> if decide (reg m 2 ∈ served)
     then is_Some (select NETWORK (reg m 2) (reg m 4) (reg m 5) (reg m 6) (reg m 7))
     else ExceptionHandler which (m, k) = Fault MachineHalt).
Proof.
  intros Hl. split.
  { intros H1 H2. unfold Exceptions.ExceptionHandler. unfold sbind at 1. rewrite kread_reg by (done || lia). by destruct which. }
  intros ->. pose proof (handler_serves rand srand other_directive fuel garbage gwords NETWORK shared m k Hl) as H.
  assert (reg m 2 ∈ served <-> is_Some (select NETWORK (reg m 2) (reg m 4) (reg m 5) (reg m 6) (reg m 7))) as Hs.
  { apply served_spec. }
  case_decide as Hd; [by apply Hs|]. destruct (select _ _ _ _ _ _); [by destruct Hd; apply Hs|done].
Qed.
End Properties.

Section Printing.
  Context {B : Type} `{BA : BitAllocator B} (rand : nat -> Z) (other_directive : list Z -> list Z -> res (list Z)).

(** [NPrint] prints up to four numbers packed by [NEncode2to1]. With the
    format, of text, [%d] and [%%], in the program's memory, the console gets
    the text with the low 16 bits of the numbers in decimal; the memory of every
    program stays. *)
Theorem NPrint_prints_packed_numbers n m (k : VM B) t bl sl va ps a b c d (s : Io B) :
  regs_ok m -> Inv None None (joined m k) t bl sl -> listed None k -> small_pages k ->
  let bytes := format_of ps ++ [0] in
  0 <= va -> va + Z.of_nat (length bytes) <= 2 ^ 31 -> (forall i x, bytes !! i = Some x -> user_byte m k t (va + Z.of_nat i) x) ->
  Forall plain ps -> (numbers ps <= 4)%nat ->
  exists m' k' t', undisturbed m k t m' k' t' bl sl /\
    NPrint_Syscall rand other_directive (S (S n)) va (Z.of_nat (length bytes)) (NEncode2to1_Syscall a b) (NEncode2to1_Syscall c d) ((m, k), s) =
      Ok (((m', k'), with_input (console s ++ rendered ps ((fun x => x mod 2 ^ 16) <$> [a; b; c; d])) (keyboard s) s), tt).
Proof.
  cbv zeta. intros Hregs HI HL Hsm Hva Hend Hbytes Hps Hn.
  destruct (copyin_whole rand n m k t bl sl va (format_of ps ++ [0])) as (m' & k' & t' & Hud & Hcopy); [done..|].
  exists m', k', t'. split; [done|]. unfold NPrint_Syscall. rewrite Hcopy by lia. cbn [snd].
  rewrite c_string_ascii by by apply format_chars. rewrite !decode_of_encode. cbn [fst snd].
  unfold sbind at 1, lift. rewrite printf_format by done. done.
Qed.

(** C28: [ReadInt] returns the number the user types. The prompt, a string in
    the program's memory, is printed; answers that are not numbers, on lines of
    fewer than a hundred characters (the [cin.ignore(100)] of the code; a longer
    line is read in pieces), are thrown away line by line, each with a message;
    the first number, written in decimal
    as [NPrint] writes it, is what the call returns, and the input goes on
    behind it. At the end of the input the call does not return, however long
    it runs. *)
Theorem ReadInt_returns_the_number n m (k : VM B) t bl sl va prompt answers sp v rest (s : Io B) :
  regs_ok m -> Inv None None (joined m k) t bl sl -> listed None k -> small_pages k ->
  let bytes := prompt ++ [0] in
  0 <= va -> va + Z.of_nat (length bytes) <= 2 ^ 31 -> (forall i x, bytes !! i = Some x -> user_byte m k t (va + Z.of_nat i) x) ->
  Forall (fun c => 0 < c < 128) prompt -> Forall wrong answers -> Forall (fun c => is_space c = true) sp -> (length answers <= n)%nat ->
  - 2 ^ 31 <= v < 2 ^ 31 -> ends_number rest ->
  exists m' k' t', undisturbed m k t m' k' t' bl sl /\
    let out := console s ++ prompt ++ concat (replicate (length answers) try_again) in
    (keyboard s = typed answers ++ sp ++ decimal v ++ rest ->
     ReadInt_Syscall rand (S (S n)) va (Z.of_nat (length bytes)) ((m, k), s) = Ok (((m', k'), with_input out rest s), v)) /\
    (keyboard s = typed answers ++ sp ->
     ReadInt_Syscall rand (S (S n)) va (Z.of_nat (length bytes)) ((m, k), s) = Fault OutOfFuel).
Proof.
  cbv zeta. intros Hregs HI HL Hsm Hva Hend Hbytes Hprompt Hans Hsp Hn Hv Hrest.
  destruct (copyin_whole rand n m k t bl sl va (prompt ++ [0])) as (m' & k' & t' & Hud & Hcopy); [done..|].
  exists m', k', t'. split; [done|].
  assert (forall P, ReadInt_Syscall rand (S (S n)) va (Z.of_nat (length (prompt ++ [0]))) ((m, k), s) = P <->
    read_choice (S (S n)) ((m', k'), with_input (console s ++ prompt) (keyboard s) s) = P) as Hrun.
  { intros P. unfold ReadInt_Syscall. rewrite Hcopy by lia. cbn [snd]. unfold terminated.
    rewrite decide_True by (rewrite fmap_app; apply elem_of_app; right; by left). by rewrite c_string_ascii. }
  rewrite !Hrun. replace (S (S n)) with (length answers + S (S n - length answers))%nat by lia.
  set (s' := with_input _ _ s).
  split; intros Hk; rewrite (read_choice_lines answers _ _ s' _ Hans Hk).
  - rewrite (read_choice_number _ _ _ v rest) by by apply extract_decimal. unfold with_input. cbn. by rewrite <-app_assoc.
  - by apply read_choice_end.
Qed.
End Printing.

(** ** Witnesses: programs whose first page is in memory *)

Definition some_kern (text : list Z) : Kern (B := BitMap) :=
  mkKern (full_of text 0) some_io (mkQueues [] None 0 []) 0.

Lemma text_bytes text : (length text <= 128)%nat -> forall i x, text !! i = Some x ->
  user_byte (machine_of text 0) (full_of text 0) full_tlb (0 + Z.of_nat i) x.
Proof.
  intros Hl i x Hx. assert (i < length text)%nat by by eapply lookup_lt_Some. exists 0%nat, text.
  assert (u32 (0 + Z.of_nat i) = Z.of_nat i) as Hu by (rewrite u32_id; unfold in_u32; lia).
  assert (vpn_of (0 + Z.of_nat i) = 0) as Hv by (unfold vpn_of; rewrite Hu; apply Z.div_small; unfold PageSize, SectorSize; lia).
  rewrite Hu, Hv. split_and!.
  - apply (full_resident 0 0). unfold NumPhysPages. lia.
  - by apply full_content_0.
  - rewrite Z.mod_small by (unfold PageSize, SectorSize; lia). by rewrite Nat2Z.id.
Qed.

(** Code 25 with 3 and 1, the latter still being loaded: [NEncode2to1 (3, 1)]. *)
Definition at_syscall : Machine :=
  set_registers (machine_of [12; 0; 0; 0] 0) (<[2%nat := 25]> (<[4%nat := 3]> (<[37%nat := 5]> (<[38%nat := 1]> (<[35%nat := 4]> (replicate 40 0)))))).

Definition no_calls : syscall -> ST (Machine * Kern (B := BitMap)) Z := fun _ => fail AssertFail.

Example syscall_instruction_is_a_call_witness : exists m',
  OneInstruction (Kernel0 := nachos (fun _ => 0) (fun _ => 0%nat) (fun _ _ => Ok []) 2 (fun _ => 0) (fun _ => 0) true no_calls)
    (at_syscall, some_kern [12; 0; 0; 0]) = Ok ((m', some_kern [12; 0; 0; 0]), tt) /\ reg m' 2 = 65539 /\ reg m' 34 = 4 /\ reg m' 35 = 8.
Proof.
  pose proof (syscall_instruction_is_a_call (fun _ => 0) (fun _ => 0%nat) (fun _ _ => Ok []) 2 (fun _ => 0) (fun _ => 0) true no_calls
    at_syscall (some_kern [12; 0; 0; 0]) (set_tlb (stamp at_syscall 0) (Some (<[0%nat := touch (frame_entry 0) false]> full_tlb)))
    (SC_NEncode2to1 3 1)) as H.
  destruct H as (_ & m' & H1 & _ & H2 & _ & H3 & H4 & _).
  - split; [reflexivity|]. exists 5. split; [reflexivity|lia].
  - eexists _, 0. split; [vm_compute; reflexivity|]. vm_compute. reflexivity.
  - reflexivity.
  - reflexivity.
  - exists m'. split; [exact H1|]. split; [exact H2|]. split; [exact H3|exact H4].
Defined.

(** [Join] asks for code 3. *)
Example unserved_codes_halt_witness :
  ExceptionHandler (fun _ => 0) (fun _ => 0%nat) (fun _ _ => Ok []) 2 (fun _ => 0) (fun _ => 0) true no_calls SyscallException
    (set_registers at_syscall (<[2%nat := 3]> (registers at_syscall)), some_kern []) = Fault MachineHalt.
Proof.
  destruct (unserved_codes_halt (fun _ => 0) (fun _ => 0%nat) (fun _ _ => Ok []) 2 (fun _ => 0) (fun _ => 0) true no_calls
    (set_registers at_syscall (<[2%nat := 3]> (registers at_syscall))) (some_kern []) SyscallException) as [_ H].
  - reflexivity.
  - exact (H eq_refl).
Defined.

(** ["n=%d"] with 42 and 7 packed. *)
Definition format_text : list piece := [Text [110; 61]; Number; Text [10]].

Example NPrint_prints_packed_numbers_witness : exists w,
  NPrint_Syscall (fun _ => 0) (fun _ _ => Ok []) 2 0 6 (NEncode2to1_Syscall 42 7) 0
    ((machine_of (format_of format_text ++ [0]) 0, full_of (format_of format_text ++ [0]) 0), some_io) =
    Ok ((w, with_input [110; 61; 52; 50; 10] [] some_io), tt).
Proof.
  destruct (NPrint_prints_packed_numbers (fun _ => 0) (fun _ _ => Ok []) 0 (machine_of (format_of format_text ++ [0]) 0)
    (full_of (format_of format_text ++ [0]) 0) full_tlb all_taken swap_free 0 format_text 42 7 0 0 some_io) as (m' & k' & t' & _ & H).
  - apply full_regs.
  - apply full_inv. cbn. lia.
  - apply full_listed.
  - apply full_small.
  - lia.
  - cbn. lia.
  - apply text_bytes. cbn. lia.
  - repeat constructor; lia.
  - vm_compute. lia.
  - exists (m', k'). etrans; [exact H|]. reflexivity.
Defined.

(** The user types [x], then 42; the prompt is ["?"]. *)
Example ReadInt_returns_the_number_witness : exists w,
  ReadInt_Syscall (fun _ => 0) 3 0 2 ((machine_of [63; 0] 0, full_of [63; 0] 0), with_input [] [120; 10; 52; 50; 10] some_io) =
    Ok ((w, with_input (63 :: try_again) [10] some_io), 42).
Proof.
  destruct (ReadInt_returns_the_number (fun _ => 0) 1 (machine_of [63; 0] 0) (full_of [63; 0] 0) full_tlb all_taken swap_free 0 [63]
    [([], [120])] [] 42 [10] (with_input [] [120; 10; 52; 50; 10] some_io)) as (m' & k' & t' & _ & H & _).
  - apply full_regs.
  - apply full_inv. cbn. lia.
  - apply full_listed.
  - apply full_small.
  - lia.
  - cbn. lia.
  - apply (text_bytes [63; 0]). cbn. lia.
  - repeat constructor; lia.
  - constructor; [|constructor]. constructor; cbn; [constructor|done|done|set_solver|lia].
  - constructor.
  - cbn. lia.
  - lia.
  - reflexivity.
  - exists (m', k'). etrans; [exact (H eq_refl)|]. reflexivity.
Defined.
