(* ===== verification/Safety.v ===== *)
(** * The machine on the kernel: what user programs cannot break

    [Mips] proves that an instruction keeps the machine in shape on any kernel
    that does. Here the kernel of [Exceptions], with the paging of [VM], is shown
    to be such a kernel: its own invariant is that executables and the swap file
    consist of bytes. The composition is the type safety of the simulator: as
    long as it runs, registers are [int]s, R0 is zero, memory consists of bytes
    and there is one table. A run is followed as far as the program makes none of
    the calls that switch threads or ask a server; that the calls of the rest of
    the kernel do not matter until then, and that a stop is one of the handler,
    is shown by running an instruction under two kernels. *)
From S2P Require Import Prelude BitMap Machine Mips VM PageFault UserMemory FileCalls Preserve UserQueues Exceptions.

Definition byte (b : Z) : Prop := 0 <= b < 256.

(** The instruction loop of [Machine::Run], without the clock. *)
Fixpoint run_instructions {K} `{KK : !Machine.Kernel K} (n : nat) : ST (Machine * K) unit :=
  match n with O => sret tt | S n => OneInstruction ;;; run_instructions n end.

(** * Lemmas *)

(** ** Files and frames are bytes *)

Lemma byte_WriteAt f bs p g : Forall byte f -> Forall byte bs -> WriteAt f bs p = Ok g -> Forall byte g.
Proof.
  intros Hf Hb H. unfold WriteAt in H. inv_res H. injection H as <-.
  assert (Forall byte (f ++ replicate (Z.to_nat p - length f) 0)) as Hp by (apply Forall_app_2; [done|apply Forall_replicate; unfold byte; lia]).
  apply Forall_app_2; [by apply Forall_take|]. apply Forall_app_2; [done|by apply Forall_drop].
Qed.

Lemma byte_ReadAt f n p bs : Forall byte f -> ReadAt f n p = Ok bs -> Forall byte bs.
Proof. intros Hf H. unfold ReadAt in H. inv_res H. injection H as <-. by apply Forall_take, Forall_drop. Qed.

Lemma byte_read_frame mem p : mem_ok mem -> Forall byte (read_frame mem p).
Proof.
  intros Hm. unfold read_frame. apply Forall_fmap, Forall_forall. intros i _. cbn.
  destruct (mem !! (p * PageSize + i)) as [b|] eqn:E; cbn; [by apply (Hm _ _ E)|unfold byte; lia].
Qed.

Lemma byte_copy_to bs : forall mem a, mem_ok mem -> Forall byte bs -> mem_ok (copy_to mem a bs).
Proof.
  induction bs as [|b bs IH]; intros mem a Hm Hb; cbn [copy_to]; [done|]. apply Forall_cons in Hb as [Hb Hbs].
  apply IH; [|done]. by apply map_Forall_insert_2.
Qed.

(** ** The page fault handler *)

Section Handler.
  Context {B : Type} `{BA : BitAllocator B}.
  Implicit Types s : VM B.

Definition files_ok s : Prop := Forall byte (swapFile s) /\ map_Forall (fun _ sp => Forall byte (executable sp)) (spaces s).
Definition shape s : Prop := user_ok (machine s) /\ files_ok s.

#[export] Instance shape_invariant : VMInvariant shape.
Proof.
  split; try done.
  - intros s t t' [[[] ?] ?] Ht Hl. split; [|done]. split; [|done]. split; try done.
    unfold tables_ok in *. cbn. rewrite Ht in mo_tables. by rewrite Hl.
  - intros s a sp t [? [Hsw Hsp]] Ha. split; [done|]. split; [done|]. cbn. apply map_Forall_insert_2; [|done]. cbn. by apply (Hsp a).
  - intros s f n o bs a [[[] ?] [Hsw Hsp]] Hf Hr. split; [|done]. split; [|done]. split; try done. cbn. apply byte_copy_to; [done|].
    eapply byte_ReadAt; [|done]. destruct Hf as [-> |(b & sp & Hb & ->)]; [done|by apply (Hsp b)].
  - intros s p o f [Hu [Hsw Hsp]] Hw. split; [done|]. split; [|done]. cbn. eapply byte_WriteAt; [exact Hsw|apply byte_read_frame, Hu|done].
Qed.

#[export] Program Instance pager_safe rand fuel : KernelSafe (VM B) (Kernel0 := pager rand fuel) := {|
  kernel_inv := files_ok;
  kernel_faults := fun _ => True
|}.
Next Obligation.
  intros rand fuel ex [m k] [Hm Hk]. cbn [Machine.ExceptionHandler pager VM_Kernel]. unfold PageFault.ExceptionHandler.
  pose proof (kept_HandlePageFault rand shape fuel (set_machine m k) (conj Hm Hk)) as H. destruct ex; try done.
  by destruct (HandlePageFault rand fuel _) as [[s []]|].
Qed.
End Handler.

(** ** Bytes read and written *)

Section Bytes.
  Context {K : Type} `{KK : !Machine.Kernel K} `{!KernelSafe K}.
  Abbreviation ok := (UOK (K := K)).

#[export] Instance ok_bytes : ByteInvariant ok.
Proof.
  split.
  - intros a [m k] Hw. pose proof (triple_read (fun _ => True) (i32 a) 1 as_size1 (i32_range a) (fun _ _ => I) (m, k) (UOK_MOK _ Hw)) as H.
    destruct (ReadMem (i32 a) 1 (m, k)) as [[[m' k'] [v|]]|] eqn:E; [|exact H|done]. destruct H as [[Hm Hk] _]. split; [|done]. split; [done|].
    cbn. rewrite (ReadMem_regs _ _ _ _ _ _ _ E). apply Hw.
  - intros a v [m k] Hw. pose proof (triple_write (fun _ => True) (i32 a) 1 v as_size1 (i32_range a) (fun _ _ => I) (m, k) (UOK_MOK _ Hw)) as H.
    destruct (WriteMem (i32 a) 1 v (m, k)) as [[[m' k'] [|]]|] eqn:E; [|exact H|done]. destruct H as [Hm Hk]. split; [|done]. split; [done|].
    cbn. rewrite (WriteMem_regs _ _ _ _ _ _ _ E). apply Hw.
Qed.
End Bytes.

(** ** The kernel *)

Lemma resumed_ok m rv : user_ok m -> in_i32 rv -> user_ok (resumed m rv).
Proof.
  intros [Hm H0] Hv. pose proof (mo_len m Hm) as Hl. assert (forall i, in_i32 (reg m i)) as Hr.
  { intros i. unfold reg. destruct (registers m !! i) as [x|] eqn:E; cbn; [|unfold in_i32; lia]. by apply (proj1 (Forall_forall _ _) (mo_int m Hm) x), list_elem_of_lookup_2 with i. }
  split; [|unfold resumed; cbn; by rewrite !list_lookup_insert_ne]. unfold resumed. apply machine_ok_set_registers; [done|by rewrite !length_insert| |].
  - repeat apply Forall_insert; try done; [apply Hm|apply i32_range].
  - intros r. rewrite !list_lookup_insert_ne by done. apply Hm.
Qed.

(** ** An instruction under two kernels

    The second kernel answers like the first where that does not stop; where it
    stops, the second may do anything ([strict = false]), or returns. An
    instruction raises one exception at most, and does nothing after it. *)

Section TwoKernels.
  Context {K : Type} (K1 K2 : Machine.Kernel K) (strict : bool).
  Abbreviation world := (Machine * K)%type.

Definition near {A} (z : A) (c1 c2 : ST world A) : Prop := forall w,
  c2 w = c1 w \/ exists f, c1 w = Fault f /\ (strict = true -> exists w', c2 w = Ok (w', z)).

Lemma near_refl {A} (z : A) c : near z c c.
Proof. by left. Qed.

Lemma near_bind {A C} (z : A) (y : C) c1 c2 f1 f2 : near z c1 c2 -> (forall a, near y (f1 a) (f2 a)) ->
  (forall w, exists w', f2 z w = Ok (w', y)) -> near y (sbind c1 f1) (sbind c2 f2).
Proof.
  intros Hc Hf Hz w. unfold sbind. destruct (Hc w) as [->|(f & -> & H)].
  - destruct (c1 w) as [[w' a]|f]; [apply Hf|by left].
  - right. exists f. split; [done|]. intros Hs. destruct (H Hs) as [w' ->]. apply Hz.
Qed.

Lemma near_same_bind {A C} (y : C) (c : ST world A) f1 f2 : (forall a, near y (f1 a) (f2 a)) -> near y (sbind c f1) (sbind c f2).
Proof. intros Hf w. unfold sbind. destruct (c w) as [[w' a]|]; [apply Hf|by left]. Qed.

Context (Hh : forall ex, near tt (Machine.ExceptionHandler (Kernel := K1) ex) (Machine.ExceptionHandler (Kernel := K2) ex)).

Lemma near_RaiseException ex a : near tt (RaiseException (Kernel0 := K1) ex a) (RaiseException (Kernel0 := K2) ex a).
Proof.
  unfold RaiseException. do 3 (apply near_same_bind; intros _). eapply near_bind; [apply Hh|intros []; apply near_refl|].
  intros [m k]. by eexists.
Qed.

Lemma near_trap ex a : near None (trap (Kernel0 := K1) ex a) (trap (Kernel0 := K2) ex a).
Proof. unfold trap. eapply near_bind; [apply near_RaiseException|intros []; apply near_refl|by eexists]. Qed.

Lemma near_ReadMem a n : near None (ReadMem (Kernel0 := K1) a n) (ReadMem (Kernel0 := K2) a n).
Proof.
  unfold ReadMem. apply near_same_bind. intros [ex|pa]; [|apply near_refl].
  eapply near_bind; [apply near_RaiseException|intros []; apply near_refl|by eexists].
Qed.

Lemma near_WriteMem a n v : near false (WriteMem (Kernel0 := K1) a n v) (WriteMem (Kernel0 := K2) a n v).
Proof.
  unfold WriteMem. apply near_same_bind. intros [ex|pa]; [|apply near_refl].
  eapply near_bind; [apply near_RaiseException|intros []; apply near_refl|by eexists].
Qed.

Ltac near_steps := repeat first
  [ apply near_refl | apply near_trap
  | match goal with
    | |- near _ (sbind (ReadMem _ _) _) _ => eapply near_bind; [apply near_ReadMem|intros [?|]|by eexists]
    | |- near _ (sbind (WriteMem _ _ _) _) _ => eapply near_bind; [apply near_WriteMem|intros [|]|by eexists]
    | |- near _ (sbind _ _) _ => apply near_same_bind; intros ?
    | |- near _ (if ?b then _ else _) _ => destruct b
    | |- near _ (let '(_, _) := ?p in _) _ => destruct p
    end ].

Lemma near_exec_op i pc : near None (exec_op (Kernel0 := K1) i pc) (exec_op (Kernel0 := K2) i pc).
Proof.
  unfold exec_op, exec_store, exec_lb, exec_lh, exec_lw, exec_lwx, exec_swx, exec_add, exec_addi, exec_sub.
  destruct (opCode i); cbv zeta; near_steps.
Qed.

Lemma near_OneInstruction : near tt (OneInstruction (Kernel0 := K1)) (OneInstruction (Kernel0 := K2)).
Proof.
  unfold OneInstruction. near_steps. eapply near_bind; [apply near_exec_op|intros [[[]]|]; apply near_refl|by eexists].
Qed.

(** A run that does not stop is the same under the second kernel. *)
Lemma same_run n : forall w r, run_instructions (KK := K1) n w = Ok r -> run_instructions (KK := K2) n w = Ok r.
Proof.
  induction n as [|n IH]; intros w r Hr; [done|]. cbn [run_instructions] in *. unfold sbind in *.
  destruct (near_OneInstruction w) as [->|(f & E & _)]; [|by rewrite E in Hr].
  destruct (OneInstruction (Kernel0 := K1) w) as [[w' []]|]; [by apply IH|done].
Qed.
End TwoKernels.

(** ** Where an instruction stops *)

(** The instruction at the program counter is [i]. *)
Definition fetched (m : Machine) (i : Instruction) : Prop := exists raw m', at_instruction m raw m' /\ Decode (u32 raw) = Ok i.

Section Stops.
  Context {K : Type} `{KK : !Machine.Kernel K} `{!KernelSafe K}.

Lemma read_at_instruction m k m1 k1 raw : ReadMem (reg m 34) 4 (m, k) = Ok ((m1, k1), Some raw) -> at_instruction m raw m1.
Proof.
  unfold ReadMem, sbind, on_machine. intros E. destruct (Translate m _ _ _) as [[m0 [ex|pa]]|] eqn:Et; [| |done]; cbn [rbind] in E.
  - by destruct (RaiseException _ _ _) as [[? []]|].
  - exists m0, pa. split; [done|]. destruct (ReadMem_at m0 pa 4) as [[m2 v]|]; [|done]. cbn [rbind] in E. unfold sret in E. by simplify_eq.
Qed.

(** On an error of its own, or in the handler. *)
Lemma OneInstruction_stops m (k : K) f : user_ok m -> kernel_inv k -> OneInstruction (m, k) = Fault f ->
  kernel_faults f \/ exists i, fetched m i /\ op_faults (opCode i) f.
Proof.
  intros Hm Hk. pose proof (mo_len m (proj1 Hm)) as Hl. pose proof (reg_get_reg m PCReg Hl ltac:(done)) as Hpc.
  destruct (reg_get_ok m PCReg (proj1 Hm) ltac:(done)) as (pc & Hpc' & _ & Hi). rewrite Hpc in Hpc'. injection Hpc' as Epc.
  unfold OneInstruction. unfold sbind at 1, rget at 1. rewrite Hpc, Epc. cbn [rbind].
  assert (MOK (m, k)) as Hmok by (split; [apply Hm|done]).
  pose proof (triple_read kernel_faults pc 4 (or_intror (or_intror eq_refl)) Hi (fun _ H => H) (m, k) Hmok) as Hr.
  unfold sbind at 1. destruct (ReadMem pc 4 (m, k)) as [[[m1 k1] [raw|]]|] eqn:E; [|done|by intros [= ->]; left].
  destruct Hr as [Hmok1 Hraw]. destruct (Decode_ok (u32 raw)) as (i & HD & Hiok). rewrite HD. unfold sbind at 1, lift.
  intros Hf. assert (step_faults (K := K) (opCode i) f) as [H|H]; [|by left|].
  - assert (triple MOK (next <- rget NextPCReg ;; o <- exec_op i (i32 (next + 4)) ;;
      match o with None => sret tt | Some (pcAfter, lr, lv) => finish_instruction pcAfter lr lv end) (fun _ => UOK) (step_faults (opCode i))) as Ht.
    { eapply triple_bind; [apply triple_rget; done|].
      intros next. apply triple_pre. intros Hnext. eapply triple_bind; [apply (triple_exec_op i); [done|apply i32_range]|].
      intros [[[pc' lr] lv]|]; [|by apply triple_ret]. intros w (Hw & Hpc' & Hlr & Hlv). by apply triple_finish. }
    specialize (Ht (m1, k1) Hmok1). by rewrite Hf in Ht.
  - right. exists i. split; [|done]. exists raw, m1. split; [|done]. rewrite <-Epc in E. by eapply read_at_instruction.
Qed.
End Stops.

Section Nachos.
  Context {B : Type} `{BA : BitAllocator B}.
  Context (rand : nat -> Z) (srand : Z -> nat) (other_directive : list Z -> list Z -> res (list Z)).
  Context (fuel : nat) (garbage gwords : nat -> Z) (NETWORK : bool).

(** The kernel with the calls of other parts given as [shared]; [elsewhere]
    ends the run with such a call. *)
Definition nachos_with (shared : syscall -> ST (Machine * Kern (B := B)) Z) : Machine.Kernel (Kern (B := B)) :=
  nachos rand srand other_directive fuel garbage gwords NETWORK shared.
Definition elsewhere (c : syscall) : ST (Machine * Kern (B := B)) Z := fail MachineHalt.

(** The same kernel, but its handler returns where it would stop. *)
Definition lenient : Machine.Kernel (Kern (B := B)) := {|
  Machine.ExceptionHandler ex w :=
    match Machine.ExceptionHandler (Kernel := nachos_with elsewhere) ex w with Ok r => Ok r | Fault _ => Ok (w, tt) end
|}.

(** The machine in shape, and the files of the kernel. *)
Definition in_shape (w : Machine * Kern (B := B)) : Prop := user_ok w.1 /\ files_ok (vm w.2).

Lemma serve_in_shape c : preserves in_shape (serve rand srand other_directive fuel garbage gwords elsewhere c).
Proof.
  destruct (is_shared c) eqn:Hc; [by destruct c; try done; apply preserves_fail|].
  pose proof (kept_serve rand srand other_directive fuel garbage gwords elsewhere (UOK (K := VM B)) (ByteInvariant0 := ok_bytes (KK := pager rand fuel))
    (fun _ _ _ H => H) c Hc) as H. exact H.
Qed.

Lemma handler_in_shape ex : preserves in_shape (Machine.ExceptionHandler (Kernel := nachos_with elsewhere) ex).
Proof.
  intros [m k] [Hm Hk]. cbn in Hm, Hk. cbn [Machine.ExceptionHandler nachos_with nachos Nachos]. destruct (decide (ex = PageFaultException)) as [->|Hpf].
  - unfold ExceptionHandler. unfold sbind at 1. rewrite kread_reg by (done || apply Hm). unfold HandlePageFault_here.
    pose proof (handler_ok (K := VM B) (Kernel0 := pager rand fuel) PageFaultException (m, vm k) (conj Hm Hk)) as H.
    destruct (Machine.ExceptionHandler PageFaultException (m, vm k)) as [[[m' v] []]|] eqn:E; [exact H|done].
  - destruct (decide (ex = SyscallException)) as [->|Hsc].
    2: { unfold ExceptionHandler. unfold sbind at 1. rewrite kread_reg by (done || apply Hm). by destruct ex. }
    pose proof (handler_serves rand srand other_directive fuel garbage gwords NETWORK elsewhere m k (mo_len m (proj1 Hm))) as H.
    destruct (select _ _ _ _ _ _) as [c|]; [|by rewrite H].
    pose proof (serve_in_shape c (m, k) (conj Hm Hk)) as Hs.
    destruct (serve _ _ _ _ _ _ _ c (m, k)) as [[[m' k'] rv]|f]; [|by rewrite H]. destruct Hs as [Hm' Hk'].
    rewrite H by apply Hm'. split; [|done]. apply resumed_ok; [done|apply i32_range].
Qed.

#[local] Program Instance lenient_safe : KernelSafe (Kern (B := B)) (Kernel0 := lenient) := {|
  kernel_inv k := files_ok (vm k);
  kernel_faults _ := False
|}.
Next Obligation.
  intros ex w Hw. pose proof (handler_in_shape ex w Hw) as H. cbn [Machine.ExceptionHandler lenient].
  by destruct (Machine.ExceptionHandler ex w) as [[w' []]|f].
Qed.

Lemma near_lenient ex : near true tt (Machine.ExceptionHandler (Kernel := nachos_with elsewhere) ex) (Machine.ExceptionHandler (Kernel := lenient) ex).
Proof. intros w. cbn [Machine.ExceptionHandler lenient]. destruct (Machine.ExceptionHandler ex w) as [r|f]; [by left|]. right. by eauto. Qed.

Lemma near_shared shared ex :
  near false tt (Machine.ExceptionHandler (Kernel := nachos_with elsewhere) ex) (Machine.ExceptionHandler (Kernel := nachos_with shared) ex).
Proof.
  cbn [Machine.ExceptionHandler nachos_with nachos Nachos]. unfold ExceptionHandler. apply near_same_bind. intros type.
  destruct ex; try apply near_refl. do 4 (apply near_same_bind; intros ?). destruct (select _ _ _ _ _ _) as [c|]; [|apply near_refl].
  intros w. unfold sbind. destruct (is_shared c) eqn:Hc; [|left; by destruct c].
  right. exists MachineHalt. split; [by destruct c|done].
Qed.

Lemma instruction_in_shape w : in_shape w ->
  match OneInstruction (Kernel0 := nachos_with elsewhere) w with
  | Ok (w', _) => in_shape w'
  | Fault f => (exists i, fetched w.1 i /\ op_faults (opCode i) f) \/
      exists w', OneInstruction (Kernel0 := lenient) w = Ok (w', tt) /\ in_shape w'
  end.
Proof.
  destruct w as [m k]. intros [Hm Hk]. pose proof (triple_OneInstruction (Kernel0 := lenient) (m, k) (conj Hm Hk)) as H.
  destruct (near_OneInstruction (nachos_with elsewhere) lenient true near_lenient (m, k)) as [E|(f & -> & E)].
  - rewrite E in H. destruct (OneInstruction _) as [[w' []]|f] eqn:E'; [exact H|]. left.
    destruct (OneInstruction_stops (KK := lenient) (KernelSafe0 := lenient_safe) m k f Hm Hk E) as [[]|Hi]. exact Hi.
  - right. destruct (E eq_refl) as [w' Ew]. rewrite Ew in H. by exists w'.
Qed.

Lemma run_in_shape n : forall w, in_shape w ->
  match run_instructions (KK := nachos_with elsewhere) n w with
  | Ok (w', _) => in_shape w'
  | Fault f => exists j w', (j < n)%nat /\ run_instructions (KK := nachos_with elsewhere) j w = Ok (w', tt) /\ in_shape w' /\
      OneInstruction (Kernel0 := nachos_with elsewhere) w' = Fault f
  end.
Proof.
  induction n as [|n IH]; intros w Hw; [exact Hw|]. cbn [run_instructions]. unfold sbind.
  pose proof (instruction_in_shape w Hw) as H. destruct (OneInstruction w) as [[w1 []]|f] eqn:E.
  - specialize (IH w1 H). destruct (run_instructions n w1) as [[w2 []]|f]; [done|]. destruct IH as (j & w' & Hj & Hrun & Hw' & Hf).
    exists (S j), w'. split; [lia|]. split; [|done]. cbn [run_instructions]. unfold sbind. by rewrite E.
  - exists 0%nat, w. split; [lia|done].
Qed.

(** C15: the simulated machine is type safe under Nachos. From a machine in
    shape, with executables and a swap file made of bytes, take any number of
    instructions of a user program, with the page faults and the system calls
    they cause, as far as the program makes none of the calls that switch
    threads or ask a server (the seventeen of [is_shared]: a run of
    [elsewhere] ends with them). A run that does not stop is the run of the
    whole kernel, whatever those calls do, and it leaves a machine in shape:
    40 [int] registers with R0 = 0, a pending load of a real register, memory
    of bytes, one table. A run that stops does so in the instruction after some
    [j], which finds the machine in shape. Either that instruction is one of the
    unaligned accesses that are not implemented, or a division, and stops for
    that reason; or it stops in the handler of the exception it raises, for with
    a handler that returns instead ([lenient]) the same instruction completes.
    It never stops on an access outside the memory, the registers or the tables
    of the machine. *)
Theorem user_programs_keep_the_machine_in_shape n m k : user_ok m -> files_ok (vm k) ->
  match run_instructions (KK := nachos_with elsewhere) n (m, k) with
  | Ok ((m', k'), _) => user_ok m' /\ files_ok (vm k') /\
      forall shared, run_instructions (KK := nachos_with shared) n (m, k) = Ok ((m', k'), tt)
  | Fault f => exists j w, (j < n)%nat /\ run_instructions (KK := nachos_with elsewhere) j (m, k) = Ok (w, tt) /\ in_shape w /\
      OneInstruction (Kernel0 := nachos_with elsewhere) w = Fault f /\
      ((exists i, fetched w.1 i /\ op_faults (opCode i) f) \/
       exists w', OneInstruction (Kernel0 := lenient) w = Ok (w', tt) /\ in_shape w')
  end.
Proof.
  intros Hm Hk. pose proof (run_in_shape n (m, k) (conj Hm Hk)) as H.
  destruct (run_instructions n (m, k)) as [[[m' k'] []]|f] eqn:E.
  - split; [apply H|]. split; [apply H|]. intros shared. by apply (same_run _ _ false (near_shared shared)).
  - destruct H as (j & w & Hj & Hrun & Hw & Hf). exists j, w. do 4 (split; [done|]). pose proof (instruction_in_shape w Hw) as Hi. by rewrite Hf in Hi.
Qed.
End Nachos.

(** ** Witness: a system call, and the instruction behind it *)

Lemma syscall_ok : user_ok at_syscall.
Proof.
  split; [|reflexivity]. split; [reflexivity| | | |reflexivity].
  - unfold at_syscall. cbn [registers set_registers]. repeat (apply Forall_insert; [|unfold in_i32; lia]). apply Forall_replicate. unfold in_i32. lia.
  - intros r H. vm_compute in H. injection H as <-. lia.
  - apply (byte_copy_to [12; 0; 0; 0]); [apply map_Forall_empty|]. repeat constructor; unfold byte; lia.
Qed.

Definition example_kernel : (syscall -> ST (Machine * Kern (B := BitMap)) Z) -> Machine.Kernel (Kern (B := BitMap)) :=
  nachos_with (fun _ => 0) (fun _ => 0%nat) (fun _ _ => Ok []) 2 (fun _ => 0) (fun _ => 0) true.

Example user_programs_keep_the_machine_in_shape_witness : exists w,
  run_instructions (KK := example_kernel elsewhere) 2 (at_syscall, some_kern [12; 0; 0; 0]) = Ok (w, tt) /\
  run_instructions (KK := example_kernel no_calls) 2 (at_syscall, some_kern [12; 0; 0; 0]) = Ok (w, tt) /\ user_ok w.1 /\ reg w.1 34 = 8.
Proof.
  assert (forall n m k, user_ok m -> files_ok (vm k) ->
    match run_instructions (KK := example_kernel elsewhere) n (m, k) with Ok (w, _) => reg w.1 34 =? 8 | Fault _ => false end = true ->
    exists w, run_instructions (KK := example_kernel elsewhere) n (m, k) = Ok (w, tt) /\
      run_instructions (KK := example_kernel no_calls) n (m, k) = Ok (w, tt) /\ user_ok w.1 /\ reg w.1 34 = 8) as H.
  { intros n m k Hm Hk. unfold example_kernel.
    pose proof (user_programs_keep_the_machine_in_shape (fun _ => 0) (fun _ => 0%nat) (fun _ _ => Ok []) 2 (fun _ => 0) (fun _ => 0) true n m k Hm Hk) as H.
    destruct (run_instructions _ _) as [[[m' k'] []]|]; [|discriminate]. destruct H as (Hm' & _ & Hall). intros Hpc.
    exists (m', k'). split; [reflexivity|]. split; [exact (Hall no_calls)|]. split; [exact Hm'|]. apply Z.eqb_eq. exact Hpc. }
  apply H; [exact syscall_ok| |vm_compute; reflexivity].
  split; [constructor|]. apply map_Forall_singleton. repeat constructor; unfold byte; lia.
Defined.
