(* ===== verification/ServerSync.v ===== *)
(** * threads/synch.h, threads/synch.cc: the server's locks and conditions

    On the lock server a client is a machine and a mailbox; [Acquire], [Release],
    [Wait] and [Signal] never block but return the request to answer, with
    [respond] saying whether to answer it. The objects behind the
    [ClientRequest] pointers are never changed after they are stored, except
    [respond], which is set again whenever one is returned: they are values
    here. A lock is refined to the queue of its holder and its waiters. *)
From S2P Require Import Prelude Threads.

Record ClientRequest := mkRequest { machineID : Z; mailboxNumber : Z; respond : bool }.

Definition ClientRequest_new (m mb : Z) : ClientRequest := mkRequest m mb false.
Definition set_respond (b : bool) (cr : ClientRequest) : ClientRequest :=
  mkRequest (machineID cr) (mailboxNumber cr) b.

(** [name] is a C string in a [char] array. *)
Record ServerLock := mkServerLock {
  sl_name : list Z;
  sl_state : LockStatus;
  sl_queue : list ClientRequest;
  currentClientRequest : option ClientRequest
}.

Definition ServerLock_new (debugName : list Z) : ServerLock := mkServerLock debugName FREE [] None.

Definition getOwner (L : ServerLock) : option ClientRequest := currentClientRequest L.

Definition isHeldByRequester (L : ServerLock) (cr : ClientRequest) : bool :=
  match currentClientRequest L with
  | None => false
  | Some o => bool_decide (machineID cr = machineID o) && bool_decide (mailboxNumber cr = mailboxNumber o)
  end.

Definition sl_isBusy (L : ServerLock) : bool := bool_decide (sl_state L = BUSY).

Definition sl_Acquire (L : ServerLock) (cr : ClientRequest) : ServerLock * ClientRequest :=
  if isHeldByRequester L cr then (L, set_respond true cr)
  else if decide (sl_state L = FREE) then
    let cr := set_respond true cr in
    (mkServerLock (sl_name L) BUSY (sl_queue L) (Some cr), cr)
  else
    let cr := set_respond false cr in
    (mkServerLock (sl_name L) (sl_state L) (sl_queue L ++ [cr]) (currentClientRequest L), cr).

Definition sl_Release (L : ServerLock) (cr : ClientRequest) : ServerLock * ClientRequest :=
  if negb (isHeldByRequester L cr) then (L, set_respond false cr)
  else
    match sl_queue L with
    | c :: q =>
        let c := set_respond true c in
        (mkServerLock (sl_name L) (sl_state L) q (Some c), c)
    | [] => (mkServerLock (sl_name L) FREE [] None, set_respond false cr)
    end.

(** [waitingLock] is a lock number, -1 for none. *)
Record ServerCondition := mkServerCondition {
  sc_name : list Z;
  sc_queue : list ClientRequest;
  sc_waitingLock : Z
}.

Definition ServerCondition_new (debugName : list Z) : ServerCondition := mkServerCondition debugName [] (-1).

Definition sc_hasWaiting (C : ServerCondition) : bool := negb (bool_decide (length (sc_queue C) = O)).

Definition sc_Wait (C : ServerCondition) (serverConditionLock : Z) (cr : ClientRequest) :
    ServerCondition * ClientRequest :=
  let C := if decide (sc_waitingLock C = -1)
           then mkServerCondition (sc_name C) (sc_queue C) serverConditionLock else C in
  if decide (serverConditionLock <> sc_waitingLock C) then (C, set_respond true cr)
  else (mkServerCondition (sc_name C) (sc_queue C ++ [cr]) (sc_waitingLock C), cr).

Definition sc_Signal (C : ServerCondition) (serverConditionLock : Z) (cr : ClientRequest) :
    ServerCondition * ClientRequest :=
  match sc_queue C with
  | [] => (C, set_respond false cr)
  | c :: q =>
      if decide (sc_waitingLock C <> serverConditionLock) then (C, set_respond false cr)
      else (mkServerCondition (sc_name C) q (if decide (q = []) then -1 else sc_waitingLock C),
            set_respond true c)
  end.

#[global] Instance ClientRequest_eq_dec : EqDecision ClientRequest.
Proof. solve_decision. Defined.

(** ** Abstract specification: a lock is a queue of clients, the holder first *)
Definition client : Type := Z * Z.
Definition client_of (cr : ClientRequest) : client := (machineID cr, mailboxNumber cr).

Inductive lock_op := LAcquire (c : client) | LRelease (c : client).

(** The new queue and the client that is told it holds the lock, if any. *)
Definition lock_spec (o : lock_op) (q : list client) : list client * option client :=
  match o with
  | LAcquire c =>
      match q with
      | [] => ([c], Some c)
      | h :: _ => if decide (c = h) then (q, Some c) else (q ++ [c], None)
      end
  | LRelease c =>
      match q with
      | h :: q' => if decide (c = h) then (q', head q') else (q, None)
      | [] => (q, None)
      end
  end.

(** The same request on the object. *)
Definition lock_exec (o : lock_op) (L : ServerLock) : ServerLock * option client :=
  let '(L', cr) := match o with
    | LAcquire c => sl_Acquire L (ClientRequest_new c.1 c.2)
    | LRelease c => sl_Release L (ClientRequest_new c.1 c.2)
    end in
  (L', if respond cr then Some (client_of cr) else None).

Fixpoint lock_run {S} (f : lock_op -> S -> S * option client) (os : list lock_op) (s : S) :
    S * list (option client) :=
  match os with
  | [] => (s, [])
  | o :: os => let '(s', r) := f o s in let '(s2, rs) := lock_run f os s' in (s2, r :: rs)
  end.

Definition lock_rep (L : ServerLock) (q : list client) : Prop :=
  match q with
  | [] => sl_state L = FREE /\ sl_queue L = [] /\ currentClientRequest L = None
  | h :: ws => sl_state L = BUSY /\ client_of <$> sl_queue L = ws /\ client_of <$> currentClientRequest L = Some h
  end.

(** * Lemmas *)

Lemma held_rep L q cr : lock_rep L q ->
  isHeldByRequester L cr = bool_decide (head q = Some (client_of cr)).
Proof.
  unfold isHeldByRequester. destruct q as [|h ws]; simpl.
  - intros (_ & _ & ->). done.
  - intros (_ & _ & Ho). destruct (currentClientRequest L) as [o|]; simplify_eq/=.
    unfold client_of. symmetry. destruct o, cr; simpl.
    repeat case_bool_decide; naive_solver.
Qed.

Lemma lock_exec_spec o L q : lock_rep L q ->
  lock_rep (lock_exec o L).1 (lock_spec o q).1 /\ (lock_exec o L).2 = (lock_spec o q).2.
Proof.
  intros HR. destruct o as [[m b]|[m b]]; unfold lock_exec, sl_Acquire, sl_Release;
    rewrite (held_rep L q) by done; cbn [fst snd];
    change (client_of (ClientRequest_new m b)) with (m, b); destruct q as [|h ws]; cbn [head lock_rep lock_spec] in *.
  - destruct HR as (Hs & Hq & Ho). rewrite Hs, Hq. by vm_compute.
  - destruct HR as (Hs & Hq & Ho). case_bool_decide as Hh.
    + simplify_eq. rewrite decide_True by done. by split.
    + rewrite !decide_False by congruence. rewrite Hs. split; [|done].
      change (BUSY = BUSY /\ client_of <$> (sl_queue L ++ [ClientRequest_new m b]) = ws ++ [(m, b)] /\
        client_of <$> currentClientRequest L = Some h). by rewrite fmap_app, Hq.
  - by destruct HR as (Hs & Hq & Ho).
  - destruct HR as (Hs & Hq & Ho). case_bool_decide as Hh; simpl.
    + simplify_eq. rewrite decide_True by done. destruct (sl_queue L) as [|c q]; by split_and!.
    + rewrite decide_False by congruence. by split.
Qed.

Lemma lock_run_spec os L q : lock_rep L q ->
  lock_rep (lock_run lock_exec os L).1 (lock_run lock_spec os q).1 /\
  (lock_run lock_exec os L).2 = (lock_run lock_spec os q).2.
Proof.
  revert L q. induction os as [|o os IH]; intros L q HR; simpl; [done|].
  pose proof (lock_exec_spec o L q HR) as [HR' Hr].
  destruct (lock_exec o L) as [L' r], (lock_spec o q) as [q' r']; simpl in *. subst.
  pose proof (IH L' q' HR') as [HR2 Hr2].
  destruct (lock_run lock_exec os L') as [L2 rs], (lock_run lock_spec os q') as [q2 rs2]; simpl in *.
  by subst.
Qed.

(** The condition's waiters all wait with the lock it remembers. *)
Definition cond_wf (C : ServerCondition) : Prop := sc_waitingLock C = -1 -> sc_queue C = [].

(** * Properties *)

(** the server's lock is a first-come first-served queue. Whatever
    sequence of Acquire and Release requests clients send, from a new lock, the
    object behaves as the queue of its holder and waiters: a request is granted
    at once only when nobody else holds the lock, a release hands it to the
    longest waiter, a release by anybody else changes nothing, and the replies
    are the ones of the queue. *)
Theorem ServerLock_refines_fifo os name :
  lock_rep (lock_run lock_exec os (ServerLock_new name)).1 (lock_run lock_spec os []).1 /\
  (lock_run lock_exec os (ServerLock_new name)).2 = (lock_run lock_spec os []).2.
Proof. by apply lock_run_spec. Qed.

(** server conditions. A Wait with the condition's lock (or on a condition
    that has none) queues the request at the end, with another lock it is
    answered and not queued; a Signal with the condition's lock returns the
    longest waiter and forgets the lock with the last one, with another lock or
    no waiter it changes nothing and nobody is answered; a condition with
    waiters always remembers a lock. *)
Theorem ServerCondition_wait_signal C l cr :
  cond_wf C -> l <> -1 ->
  (sc_waitingLock C = -1 \/ sc_waitingLock C = l ->
     sc_queue (sc_Wait C l cr).1 = sc_queue C ++ [cr] /\ sc_waitingLock (sc_Wait C l cr).1 = l /\
     sc_queue (sc_Signal (sc_Wait C l cr).1 l cr).1 = tail (sc_queue C ++ [cr]) /\
     Some (client_of (sc_Signal (sc_Wait C l cr).1 l cr).2) = head (client_of <$> (sc_queue C ++ [cr])) /\
     respond (sc_Signal (sc_Wait C l cr).1 l cr).2 = true) /\
  (sc_waitingLock C <> -1 -> sc_waitingLock C <> l ->
     sc_Wait C l cr = (C, set_respond true cr) /\ sc_Signal C l cr = (C, set_respond false cr)) /\
  cond_wf (sc_Wait C l cr).1 /\ cond_wf (sc_Signal C l cr).1.
Proof.
  intros Hwf Hl. unfold cond_wf in *. split_and!.
  - intros Hw.
    assert (sc_Wait C l cr = (mkServerCondition (sc_name C) (sc_queue C ++ [cr]) l, cr)) as ->.
    { unfold sc_Wait. destruct (decide (sc_waitingLock C = -1)) as [Hn|Hn]; cbn [sc_waitingLock sc_name sc_queue].
      - rewrite (decide_False (P := l <> l)) by exact (fun H => H eq_refl). done.
      - destruct Hw as [?|Hw]; [done|]. rewrite Hw, (decide_False (P := l <> l)) by exact (fun H => H eq_refl). done. }
    cbn [fst]. split_and!; try done; unfold sc_Signal; cbn [sc_queue sc_waitingLock];
      destruct (sc_queue C) as [|c q]; cbn [app]; rewrite (decide_False (P := l <> l)) by exact (fun H => H eq_refl); done.
  - intros H1 H2. unfold sc_Wait, sc_Signal. cbv zeta. rewrite (decide_False (P := sc_waitingLock C = -1)) by done.
    rewrite (decide_True (P := l <> sc_waitingLock C)) by congruence.
    split; [done|]. destruct (sc_queue C); [done|]. by rewrite decide_True.
  - unfold sc_Wait. repeat case_decide; simpl in *; try done; try tauto; congruence.
  - unfold sc_Signal. destruct (sc_queue C) as [|c q] eqn:Hq; simpl.
    + by rewrite Hq.
    + case_decide; simpl; [by rewrite Hq|]. case_decide; [done|].
      intros Hn. apply Hwf in Hn. done.
Qed.

Example ServerCondition_wait_signal_witness :
  let C := ServerCondition_new [67; 0] in
  sc_queue (sc_Wait C 7 (ClientRequest_new 3 4)).1 = [ClientRequest_new 3 4].
Proof.
  intros C. destruct (ServerCondition_wait_signal C 7 (ClientRequest_new 3 4)) as [H _].
  - intros _. reflexivity.
  - discriminate.
  - destruct H as [H _]; [left; reflexivity|]. exact H.
Defined.
