(* ===== verification/ServerTables.v ===== *)
(** * network/server.cc: the tables of the lock server

    Locks, condition variables and arrays of monitor variables of one server:
    the global tables with their bitmaps, the [Server...] operations on them,
    the encoding of object numbers and of integers in messages. Printing is
    left out. Global pointers start NULL, so a bitmap is an [option]; an entry's
    [lock], [condition] or [mvEntries] is [None] before it is assigned and after
    it is deleted, and following it then faults. *)
From S2P Require Import Prelude CStrings BitMap Post Threads ServerSync.

Definition MAX_SERVER_LOCKS : Z := 500.
Definition MAX_SERVER_CVS : Z := 500.
Definition MAX_SERVER_MV_ARRAYS : Z := 500.
Definition MAX_SERVER_ENTRIES_PER_MV_ARRAY : Z := 500.

Record ServerLockEntry := mkLockEntry {
  le_lock : option ServerLock;
  le_isToBeDeleted : bool;
  le_acquireCount : Z
}.

Record ServerConditionEntry := mkCondEntry {
  ce_condition : option ServerCondition;
  ce_isToBeDeleted : bool
}.

Record ServerMVEntry := mkMVEntry {
  mv_entries : option (list Z);
  mv_numEntries : Z;
  mv_name : list Z
}.

(** The answers collected for the current request. *)
Record ServerResponse := mkResponse { toMachine : Z; toMailbox : Z; resp_data : Z }.

(** ** Integers in [char] arrays *)

(** [extractInt(buf + off)]: most significant byte first. [0xff000000] is an
    [unsigned int], so [a] is converted back to [int]. *)
Definition extractInt (buf : list Z) (off : Z) : res Z :=
  let* b0 := arr_get buf off in
  let* b1 := arr_get buf (off + 1) in
  let* b2 := arr_get buf (off + 2) in
  let* b3 := arr_get buf (off + 3) in
  let a := i32 (Z.land (u32 (Z.shiftl b0 24)) 0xff000000) in
  let b := Z.land (Z.shiftl b1 16) 0x00ff0000 in
  let c := Z.land (Z.shiftl b2 8) 0x0000ff00 in
  let d := Z.land b3 0x000000ff in
  Ok (i32 (a + b + c + d)).

(** The four bytes [compressInt] stores, and storing them at [dest + off]. *)
Definition compressed (x : Z) : list Z :=
  [i8 (Z.land (Z.shiftr x 24) 0xff); i8 (Z.land (Z.shiftr x 16) 0xff);
   i8 (Z.land (Z.shiftr x 8) 0xff); i8 (Z.land x 0xff)].

Fixpoint store (dest : list Z) (off : Z) (bs : list Z) : res (list Z) :=
  match bs with
  | [] => Ok dest
  | b :: bs => let* d := arr_set dest off b in store d (off + 1) bs
  end.

Definition compressInt (x : Z) (dest : list Z) (off : Z) : res (list Z) := store dest off (compressed x).

(** ** Object numbers *)
Definition encodeIndex (myMachineID internalIndex : Z) : Z := myMachineID * MAX_SERVER_LOCKS + internalIndex.
Definition decodeIndex (myMachineID encodedIndex : Z) : Z := encodedIndex - myMachineID * MAX_SERVER_LOCKS.
Definition decodeMachineIDFromLockNumber (lockNum : Z) : Z := Z.quot lockNum MAX_SERVER_LOCKS.
Definition decodeMachineIDFromCVNumber (cvNum : Z) : Z := Z.quot cvNum MAX_SERVER_CVS.
Definition decodeMachineIDFromMVNumber (mvNum : Z) : Z := Z.quot mvNum MAX_SERVER_MV_ARRAYS.

Section Tables.
  Context {B : Type} `{BA : BitAllocator B} (garbage : nat -> Z).

Record Tables := mkTables {
  serverLockMap : option B;
  serverLockArraySize : Z;
  serverLockTable : list ServerLockEntry;
  serverConditionMap : option B;
  serverConditionArraySize : Z;
  serverConditionTable : list ServerConditionEntry;
  serverMVMap : option B;
  serverMVArraySize : Z;
  serverMVTable : list ServerMVEntry
}.

Definition Tables_init : Tables := mkTables None 0 [] None 0 [] None 0 [].

Abbreviation T := (ST Tables).

Definition set_locks (m : option B) (n : Z) (t : list ServerLockEntry) (s : Tables) : Tables :=
  mkTables m n t (serverConditionMap s) (serverConditionArraySize s) (serverConditionTable s)
    (serverMVMap s) (serverMVArraySize s) (serverMVTable s).
Definition set_conds (m : option B) (n : Z) (t : list ServerConditionEntry) (s : Tables) : Tables :=
  mkTables (serverLockMap s) (serverLockArraySize s) (serverLockTable s) m n t
    (serverMVMap s) (serverMVArraySize s) (serverMVTable s).
Definition set_mvs (m : option B) (n : Z) (t : list ServerMVEntry) (s : Tables) : Tables :=
  mkTables (serverLockMap s) (serverLockArraySize s) (serverLockTable s)
    (serverConditionMap s) (serverConditionArraySize s) (serverConditionTable s) m n t.

Definition map_test (m : option B) (i : Z) : res bool := let* b := deref m in ba_test b i.
Definition map_clear (m : option B) (i : Z) : res (option B) :=
  let* b := deref m in let* b' := ba_clear b i in Ok (Some b').
Definition map_find (m : option B) : res (option B * Z) :=
  let* b := deref m in let* '(b', i) := ba_find b in Ok (Some b', i).

(** What the entries' names are. *)
Definition lock_at (s : Tables) (i : Z) : res ServerLock :=
  let* e := arr_get (serverLockTable s) i in deref (le_lock e).
Definition cond_at (s : Tables) (i : Z) : res ServerCondition :=
  let* e := arr_get (serverConditionTable s) i in deref (ce_condition e).
Definition lock_name (s : Tables) (i : Z) : res (list Z) := let* l := lock_at s i in Ok (sl_name l).
Definition cond_name (s : Tables) (i : Z) : res (list Z) := let* c := cond_at s i in Ok (sc_name c).
Definition mv_name_at (s : Tables) (i : Z) : res (list Z) :=
  let* e := arr_get (serverMVTable s) i in Ok (mv_name e).

(** The search loops: the first index from [i], of [n], that is taken and whose
    object has this name, or -1. *)
Fixpoint find_name (n : nat) (i : Z) (m : option B) (nameof : Z -> res (list Z)) (name : list Z) : res Z :=
  match n with
  | O => Ok (-1)
  | S n' =>
      let* t := map_test m i in
      if t : bool then
        let* nm := nameof i in
        let* eq := strcmp_eq nm name in
        if eq : bool then Ok i else find_name n' (i + 1) m nameof name
      else find_name n' (i + 1) m nameof name
  end.

Definition checkIfLockExists (name : list Z) (s : Tables) : res Z :=
  if decide (serverLockArraySize s = 0) then Ok (-1)
  else find_name (Z.to_nat MAX_SERVER_LOCKS) 0 (serverLockMap s) (lock_name s) name.

Definition checkIfCVExists (name : list Z) (s : Tables) : res Z :=
  if decide (serverConditionArraySize s = 0) then Ok (-1)
  else find_name (Z.to_nat MAX_SERVER_CVS) 0 (serverConditionMap s) (cond_name s) name.

Definition checkIfMVExists (name : list Z) (s : Tables) : res Z :=
  if decide (serverMVArraySize s = 0) then Ok (-1)
  else find_name (Z.to_nat MAX_SERVER_MV_ARRAYS) 0 (serverMVMap s) (mv_name_at s) name.

(** ** Locks *)

(** Allocation of the tables on first use; [new ServerLockEntry[]] leaves the
    entries uninitialised. *)
Definition init_locks : T unit := fun s =>
  if decide (serverLockArraySize s = 0) then
    let* m := ba_new MAX_SERVER_LOCKS garbage in
    Ok (set_locks (Some m) MAX_SERVER_LOCKS
          (replicate (Z.to_nat MAX_SERVER_LOCKS) (mkLockEntry None false 0)) s, tt)
  else Ok (s, tt).

Definition ServerCreateLock (name : list Z) : T Z := fun s =>
  let* '(s, _) := init_locks s in
  let* i := find_name (Z.to_nat MAX_SERVER_LOCKS) 0 (serverLockMap s) (lock_name s) name in
  if decide (i <> -1) then Ok (s, i)
  else
    let* '(m, nextFreeIndex) := map_find (serverLockMap s) in
    if decide (nextFreeIndex = -1) then Ok (set_locks m (serverLockArraySize s) (serverLockTable s) s, -1)
    else
      let* t := arr_set (serverLockTable s) nextFreeIndex (mkLockEntry (Some (ServerLock_new name)) false 0) in
      Ok (set_locks m (serverLockArraySize s) t s, nextFreeIndex).

(** The index is in the array and the slot is taken. *)
Definition valid_index (size : Z) (m : option B) (i : Z) : res bool :=
  if decide (i < 0 \/ i > size - 1) then Ok false else map_test m i.

Definition delete_lock (i : Z) (e : ServerLockEntry) : T unit := fun s =>
  let* t := arr_set (serverLockTable s) i (mkLockEntry None (le_isToBeDeleted e) (le_acquireCount e)) in
  let* m := map_clear (serverLockMap s) i in
  Ok (set_locks m (serverLockArraySize s) t s, tt).

Definition ServerDestroyLock (lockIndex : Z) : T unit := fun s =>
  let* v := valid_index (serverLockArraySize s) (serverLockMap s) lockIndex in
  if negb v then Ok (s, tt)
  else
    let* e := arr_get (serverLockTable s) lockIndex in
    let* l := deref (le_lock e) in
    if negb (sl_isBusy l && bool_decide (le_acquireCount e = 0)) then delete_lock lockIndex e s
    else
      let* t := arr_set (serverLockTable s) lockIndex (mkLockEntry (le_lock e) true (le_acquireCount e)) in
      Ok (set_locks (serverLockMap s) (serverLockArraySize s) t s, tt).

(** [None] is the NULL the code returns for a lock that does not exist. *)
Definition ServerAcquire (machine mailbox lockIndex : Z) : T (option ClientRequest) := fun s =>
  let* v := valid_index (serverLockArraySize s) (serverLockMap s) lockIndex in
  if negb v then Ok (s, None)
  else
    let* e := arr_get (serverLockTable s) lockIndex in
    let* l := deref (le_lock e) in
    let '(l', cr) := sl_Acquire l (ClientRequest_new machine mailbox) in
    let* t := arr_set (serverLockTable s) lockIndex
                (mkLockEntry (Some l') (le_isToBeDeleted e) (i32 (le_acquireCount e + 1))) in
    Ok (set_locks (serverLockMap s) (serverLockArraySize s) t s, Some cr).

Definition ServerRelease (machine mailbox lockIndex : Z) : T (option ClientRequest) := fun s =>
  let* v := valid_index (serverLockArraySize s) (serverLockMap s) lockIndex in
  if negb v then Ok (s, None)
  else
    let* e := arr_get (serverLockTable s) lockIndex in
    let* l := deref (le_lock e) in
    let '(l', cr) := sl_Release l (ClientRequest_new machine mailbox) in
    let e' := mkLockEntry (Some l') (le_isToBeDeleted e) (i32 (le_acquireCount e - 1)) in
    let* t := arr_set (serverLockTable s) lockIndex e' in
    let s := set_locks (serverLockMap s) (serverLockArraySize s) t s in
    if le_isToBeDeleted e' && bool_decide (le_acquireCount e' = 0) && negb (sl_isBusy l') then
      let* '(s, _) := delete_lock lockIndex e' s in Ok (s, Some cr)
    else Ok (s, Some cr).

(** ** Condition variables *)

Definition init_conds : T unit := fun s =>
  if decide (serverConditionArraySize s = 0) then
    let* m := ba_new MAX_SERVER_CVS garbage in
    Ok (set_conds (Some m) MAX_SERVER_CVS (replicate (Z.to_nat MAX_SERVER_CVS) (mkCondEntry None false)) s, tt)
  else Ok (s, tt).

Definition ServerCreateCV (name : list Z) : T Z := fun s =>
  let* '(s, _) := init_conds s in
  let* i := find_name (Z.to_nat MAX_SERVER_CVS) 0 (serverConditionMap s) (cond_name s) name in
  if decide (i <> -1) then Ok (s, i)
  else
    let* '(m, nextFreeIndex) := map_find (serverConditionMap s) in
    if decide (nextFreeIndex = -1)
    then Ok (set_conds m (serverConditionArraySize s) (serverConditionTable s) s, -1)
    else
      let* t := arr_set (serverConditionTable s) nextFreeIndex
                  (mkCondEntry (Some (ServerCondition_new name)) false) in
      Ok (set_conds m (serverConditionArraySize s) t s, nextFreeIndex).

Definition delete_cond (i : Z) (e : ServerConditionEntry) : T unit := fun s =>
  let* t := arr_set (serverConditionTable s) i (mkCondEntry None (ce_isToBeDeleted e)) in
  let* m := map_clear (serverConditionMap s) i in
  Ok (set_conds m (serverConditionArraySize s) t s, tt).

Definition set_cond (i : Z) (e : ServerConditionEntry) : T unit := fun s =>
  let* t := arr_set (serverConditionTable s) i e in
  Ok (set_conds (serverConditionMap s) (serverConditionArraySize s) t s, tt).

Definition ServerDestroyCV (conditionIndex : Z) : T unit := fun s =>
  let* v := valid_index (serverConditionArraySize s) (serverConditionMap s) conditionIndex in
  if negb v then Ok (s, tt)
  else
    let* e := arr_get (serverConditionTable s) conditionIndex in
    let* c := deref (ce_condition e) in
    if negb (sc_hasWaiting c) then delete_cond conditionIndex e s
    else set_cond conditionIndex (mkCondEntry (ce_condition e) true) s.

Definition ServerSignal (machine mailbox conditionIndex lockNum : Z) : T (option ClientRequest) := fun s =>
  let* v := valid_index (serverConditionArraySize s) (serverConditionMap s) conditionIndex in
  if negb v then Ok (s, None)
  else if decide (lockNum < 0) then Ok (s, None)
  else
    let* e := arr_get (serverConditionTable s) conditionIndex in
    let* c := deref (ce_condition e) in
    let '(c', cr) := sc_Signal c lockNum (ClientRequest_new machine mailbox) in
    let* '(s, _) := set_cond conditionIndex (mkCondEntry (Some c') (ce_isToBeDeleted e)) s in
    Ok (s, Some cr).

(** [ServerWait] and [ServerBroadcast] check the index against 0 only. *)
Definition valid_index_low (m : option B) (i : Z) : res bool :=
  if decide (i < 0) then Ok false else map_test m i.

Definition ServerWait (machine mailbox conditionIndex lockNum : Z) : T unit := fun s =>
  let* v := valid_index_low (serverConditionMap s) conditionIndex in
  if negb v then Ok (s, tt)
  else
    let* e := arr_get (serverConditionTable s) conditionIndex in
    let* c := deref (ce_condition e) in
    let '(c', _) := sc_Wait c lockNum (ClientRequest_new machine mailbox) in
    let e' := mkCondEntry (Some c') (ce_isToBeDeleted e) in
    let* '(s, _) := set_cond conditionIndex e' s in
    if ce_isToBeDeleted e' && negb (sc_hasWaiting c') then delete_cond conditionIndex e' s
    else Ok (s, tt).

(** [while (hasWaiting()) ...]: the answers of the rounds, in order. *)
Fixpoint broadcast_rounds (fuel : nat) (machine mailbox lockIndex : Z) (c : ServerCondition) :
    res (ServerCondition * list ServerResponse) :=
  if sc_hasWaiting c then
    match fuel with
    | O => Fault OutOfFuel
    | S fuel' =>
        let '(c', cr) := sc_Signal c lockIndex (ClientRequest_new machine mailbox) in
        let r := mkResponse (machineID cr) (mailboxNumber cr) (-1) in
        let* '(c2, rs) := broadcast_rounds fuel' machine mailbox lockIndex c' in
        Ok (c2, r :: rs)
    end
  else Ok (c, []).

(** One round per waiter is enough when the lock is the condition's. *)
Definition ServerBroadcast (machine mailbox conditionIndex lockIndex : Z) : T (list ServerResponse) := fun s =>
  let* v := valid_index_low (serverConditionMap s) conditionIndex in
  if negb v then Ok (s, [])
  else
    let* e := arr_get (serverConditionTable s) conditionIndex in
    let* c := deref (ce_condition e) in
    let* '(c', rs) := broadcast_rounds (length (sc_queue c)) machine mailbox lockIndex c in
    let* '(s, _) := set_cond conditionIndex (mkCondEntry (Some c') (ce_isToBeDeleted e)) s in
    Ok (s, rs).

(** ** Monitor variables *)

Definition init_mvs : T unit := fun s =>
  if decide (serverMVArraySize s = 0) then
    let* m := ba_new MAX_SERVER_MV_ARRAYS garbage in
    Ok (set_mvs (Some m) MAX_SERVER_MV_ARRAYS
          (replicate (Z.to_nat MAX_SERVER_MV_ARRAYS) (mkMVEntry None 0 [])) s, tt)
  else Ok (s, tt).

(** [new int[numEntries]] throws on a negative size. *)
Definition ServerCreateMV (name : list Z) (numEntries initialValue : Z) : T Z := fun s =>
  let* '(s, _) := init_mvs s in
  if decide (numEntries > MAX_SERVER_ENTRIES_PER_MV_ARRAY) then Ok (s, -1)
  else
    let* i := find_name (Z.to_nat MAX_SERVER_MV_ARRAYS) 0 (serverMVMap s) (mv_name_at s) name in
    if decide (i <> -1) then Ok (s, i)
    else
      let* '(m, nextFreeIndex) := map_find (serverMVMap s) in
      if decide (nextFreeIndex = -1) then Ok (set_mvs m (serverMVArraySize s) (serverMVTable s) s, -1)
      else if decide (numEntries < 0) then Fault OutOfBounds
      else
        let* t := arr_set (serverMVTable s) nextFreeIndex
                    (mkMVEntry (Some (replicate (Z.to_nat numEntries) initialValue)) numEntries name) in
        Ok (set_mvs m (serverMVArraySize s) t s, nextFreeIndex).

Definition ServerDestroyMV (mvIndex : Z) : T unit := fun s =>
  let* v := valid_index (serverMVArraySize s) (serverMVMap s) mvIndex in
  if negb v then Ok (s, tt)
  else
    let* e := arr_get (serverMVTable s) mvIndex in
    let* t := arr_set (serverMVTable s) mvIndex (mkMVEntry None (mv_numEntries e) (mv_name e)) in
    let* m := map_clear (serverMVMap s) mvIndex in
    Ok (set_mvs m (serverMVArraySize s) t s, tt).

Definition ServerGetMV (mvIndex entryIndex : Z) (s : Tables) : res Z :=
  let* v := valid_index (serverMVArraySize s) (serverMVMap s) mvIndex in
  if negb v then Ok (-1)
  else
    let* e := arr_get (serverMVTable s) mvIndex in
    if decide (entryIndex < 0 \/ entryIndex > mv_numEntries e - 1) then Ok (-1)
    else let* a := deref (mv_entries e) in arr_get a entryIndex.

Definition ServerSetMV (mvIndex entryIndex v : Z) : T unit := fun s =>
  let* ok := valid_index (serverMVArraySize s) (serverMVMap s) mvIndex in
  if negb ok then Ok (s, tt)
  else
    let* e := arr_get (serverMVTable s) mvIndex in
    if decide (entryIndex < 0 \/ entryIndex > mv_numEntries e - 1) then Ok (s, tt)
    else
      let* a := deref (mv_entries e) in
      let* a' := arr_set a entryIndex v in
      let* t := arr_set (serverMVTable s) mvIndex (mkMVEntry (Some a') (mv_numEntries e) (mv_name e)) in
      Ok (set_mvs (serverMVMap s) (serverMVArraySize s) t s, tt).

End Tables.
Arguments Tables B : clear implicits.

(** * Lemmas *)

(** ** Integers in messages *)

Definition is_char (b : Z) : Prop := - 2 ^ 7 <= b < 2 ^ 7.

Lemma i8_congr x : exists k, i8 x = x + k * 2 ^ 8.
Proof. unfold i8. exists (- ((x + 2^7) / 2^8)). rewrite Z.mod_eq by lia. lia. Qed.

Lemma i8_char x : is_char (i8 x).
Proof. unfold i8, is_char. pose proof (Z.mod_pos_bound (x + 2^7) (2^8)). lia. Qed.

Lemma i8_id x : is_char x -> i8 x = x.
Proof. unfold i8, is_char. intros. rewrite Z.mod_small; lia. Qed.

(** The byte of weight 2^k of an integer, as an unsigned number. *)
Lemma byte_land x k : 0 <= k -> Z.land (Z.shiftr x k) 0xff = (x / 2 ^ k) mod 256.
Proof.
  intros Hk. change 0xff with (Z.ones 8). rewrite Z.land_ones by lia. by rewrite Z.shiftr_div_pow2.
Qed.

Lemma byte_up b k m : 0 <= k -> m = Z.shiftl 0xff k ->
  Z.land (Z.shiftl b k) m = (b mod 256) * 2 ^ k.
Proof.
  intros Hk ->. rewrite <-Z.shiftl_land. change 0xff with (Z.ones 8).
  by rewrite Z.land_ones, Z.shiftl_mul_pow2 by lia.
Qed.

Lemma byte_top b : i32 (Z.land (u32 (Z.shiftl b 24)) 0xff000000) = i32 ((b mod 256) * 2 ^ 24).
Proof.
  f_equal. replace (Z.land (u32 (Z.shiftl b 24)) 0xff000000) with (Z.land (Z.shiftl b 24) 0xff000000).
  - by apply byte_up.
  - apply Z.bits_inj'. intros n Hn. rewrite !Z.land_spec, u32_testbit by done.
    destruct (Z.ltb_spec n 32); [done|]. rewrite (testbit_above 0xff000000 n 32) by lia.
    by rewrite !andb_false_r.
Qed.

(** What [extractInt] computes. *)
Lemma extractInt_value buf off b0 b1 b2 b3 :
  arr_get buf off = Ok b0 -> arr_get buf (off + 1) = Ok b1 ->
  arr_get buf (off + 2) = Ok b2 -> arr_get buf (off + 3) = Ok b3 ->
  extractInt buf off =
    Ok (i32 ((b0 mod 256) * 2 ^ 24 + (b1 mod 256) * 2 ^ 16 + (b2 mod 256) * 2 ^ 8 + b3 mod 256)).
Proof.
  intros H0 H1 H2 H3. unfold extractInt. rewrite H0, H1, H2, H3. cbn [rbind]. f_equal.
  rewrite byte_top, (byte_up b1 16 0x00ff0000), (byte_up b2 8 0x0000ff00) by done || lia.
  change (Z.land b3 255) with (Z.land b3 (Z.ones 8)). rewrite Z.land_ones by lia.
  destruct (i32_congr ((b0 mod 256) * 2 ^ 24)) as [k ->].
  change (b3 mod 2 ^ 8) with (b3 mod 256).
  match goal with |- i32 ?a = i32 ?b => replace a with (b + k * 2 ^ 32) by lia end.
  apply i32_add_mult.
Qed.

Lemma i8_mod x : i8 x mod 256 = x mod 256.
Proof. destruct (i8_congr x) as [k ->]. change (2 ^ 8) with 256. apply Z.mod_add. lia. Qed.

(** The bytes of an [int] add up to it. *)
Lemma bytes_sum x : in_i32 x ->
  i32 ((x / 2 ^ 24) mod 256 * 2 ^ 24 + (x / 2 ^ 16) mod 256 * 2 ^ 16 + (x / 2 ^ 8) mod 256 * 2 ^ 8 + x mod 256) = x.
Proof.
  intros Hx.
  assert (exists k, (x / 2 ^ 24) mod 256 * 2 ^ 24 + (x / 2 ^ 16) mod 256 * 2 ^ 16 +
    (x / 2 ^ 8) mod 256 * 2 ^ 8 + x mod 256 = x + k * 2 ^ 32) as [k ->].
  { exists (- (x / 2 ^ 32)).
    pose proof (Z.div_mod x 256). pose proof (Z.div_mod (x / 256) 256).
    pose proof (Z.div_mod (x / 256 / 256) 256). pose proof (Z.div_mod (x / 256 / 256 / 256) 256).
    replace (x / 2 ^ 8) with (x / 256) by done.
    replace (x / 2 ^ 16) with (x / 256 / 256) by (rewrite Z.div_div by lia; done).
    replace (x / 2 ^ 24) with (x / 256 / 256 / 256) by (rewrite !Z.div_div by lia; done).
    replace (x / 2 ^ 32) with (x / 256 / 256 / 256 / 256) by (rewrite !Z.div_div by lia; done).
    lia. }
  rewrite i32_add_mult. by apply i32_id.
Qed.

Lemma store_spec bs : forall dest off,
  0 <= off -> off + Z.of_nat (length bs) <= Z.of_nat (length dest) ->
  exists d, store dest off bs = Ok d /\ length d = length dest /\
    forall i, 0 <= i -> arr_get d i =
      if decide (off <= i < off + Z.of_nat (length bs)) then arr_get bs (i - off) else arr_get dest i.
Proof.
  induction bs as [|b bs IH]; intros dest off H0 Hl; cbn [store length] in *.
  { exists dest. split_and!; [done|done|]. intros i Hi. rewrite decide_False by lia. done. }
  rewrite arr_set_in by lia. cbn [rbind].
  destruct (IH (<[Z.to_nat off := b]> dest) (off + 1)) as (d & Hd & Hld & Hg).
  { lia. } { rewrite length_insert. lia. }
  exists d. split_and!; [done|by rewrite Hld, length_insert|]. intros i Hi. rewrite Hg by done.
  destruct (decide (i = off)) as [->|Hne].
  - rewrite decide_False by lia. rewrite decide_True by lia. replace (off - off) with 0 by lia.
    change (arr_get (b :: bs) 0) with (Ok b). apply arr_get_lookup; [lia|].
    apply list_lookup_insert_eq. lia.
  - destruct (decide (off + 1 <= i < off + 1 + Z.of_nat (length bs))).
    + rewrite decide_True by lia. unfold arr_get. rewrite !decide_True by lia.
      replace (Z.to_nat (i - off)) with (S (Z.to_nat (i - (off + 1)))) by lia. done.
    + rewrite decide_False by lia. unfold arr_get. rewrite !decide_True by lia.
      by rewrite list_lookup_insert_ne by lia.
Qed.

Lemma compressInt_spec x dest off :
  0 <= off -> off + 4 <= Z.of_nat (length dest) ->
  exists d, compressInt x dest off = Ok d /\ length d = length dest /\
    forall i, 0 <= i -> arr_get d i =
      if decide (off <= i < off + 4) then arr_get (compressed x) (i - off) else arr_get dest i.
Proof. intros H0 Hl. by apply (store_spec (compressed x)). Qed.

(** Four bytes of an integer are read as it. *)
Lemma extractInt_compressed buf off x : in_i32 x ->
  (forall k, (k < 4)%nat -> arr_get buf (off + Z.of_nat k) = arr_get (compressed x) (Z.of_nat k)) ->
  extractInt buf off = Ok x.
Proof.
  intros Hx HG.
  rewrite (extractInt_value buf off (i8 (Z.land (Z.shiftr x 24) 0xff)) (i8 (Z.land (Z.shiftr x 16) 0xff))
    (i8 (Z.land (Z.shiftr x 8) 0xff)) (i8 (Z.land x 0xff))).
  - f_equal. rewrite !i8_mod, !byte_land, !Z.mod_mod by lia.
    change (Z.land x 255) with (Z.land x (Z.ones 8)). rewrite Z.land_ones, Z.mod_mod by lia.
    by apply bytes_sum.
  - specialize (HG 0%nat). rewrite Z.add_0_r in HG. by rewrite HG by lia.
  - by apply (HG 1%nat); lia.
  - by apply (HG 2%nat); lia.
  - by apply (HG 3%nat); lia.
Qed.

Lemma extract_compress x dest off d :
  in_i32 x -> 0 <= off -> off + 4 <= Z.of_nat (length dest) ->
  compressInt x dest off = Ok d -> extractInt d off = Ok x.
Proof.
  intros Hx H0 Hl Hd. destruct (compressInt_spec x dest off H0 Hl) as (d' & Hd' & _ & Hg).
  rewrite Hd in Hd'. simplify_eq. apply extractInt_compressed; [done|]. intros k Hk.
  rewrite Hg by lia. rewrite decide_True by lia. f_equal. lia.
Qed.

(** ** A table of named objects and its bitmap *)

Section Slots.
  Context {B : Type} `{BA : BitAllocator B} {E : Type}.
  (** The name in an entry, and what is true of an entry in use. *)
  Context (ename : E -> list Z) (good : E -> Prop).
  Hypothesis good_name : forall e, good e -> terminated (ename e).

(** [l] lists which slots are taken; it is empty before the first use. *)
Record Slots (max size : Z) (m : option B) (t : list E) (l : list bool) : Prop := {
  slots_init : (size = 0 /\ m = None /\ l = []) \/
    (size = max /\ Z.of_nat (length l) = max /\ length t = length l /\ exists b, m = Some b /\ ba_rep b l);
  slots_good : forall i e, l !! i = Some true -> t !! i = Some e -> good e;
  slots_names : forall i j e1 e2, l !! i = Some true -> l !! j = Some true ->
    t !! i = Some e1 -> t !! j = Some e2 -> cstring (ename e1) = cstring (ename e2) -> i = j
}.

Definition taken (l : list bool) (i : Z) : bool :=
  bool_decide (0 <= i) && default false (l !! Z.to_nat i).

Lemma taken_true l i : taken l i = true <-> 0 <= i /\ l !! Z.to_nat i = Some true.
Proof.
  unfold taken. rewrite andb_true_iff, bool_decide_eq_true. destruct (l !! Z.to_nat i) as [[]|]; naive_solver.
Qed.

Lemma Slots_new max b e0 : 0 < max -> ba_rep b (replicate (Z.to_nat max) false) ->
  Slots max max (Some b) (replicate (Z.to_nat max) e0) (replicate (Z.to_nat max) false).
Proof.
  intros Hm Hb. split.
  - right. rewrite !length_replicate. split_and!; [done|lia|done|by exists b].
  - intros i e Hi. apply lookup_replicate in Hi as [? _]. done.
  - intros i j e1 e2 Hi. apply lookup_replicate in Hi as [? _]. done.
Qed.

Lemma valid_index_spec max size m t l i : 0 < max ->
  Slots max size m t l -> valid_index size m i = Ok (taken l i).
Proof.
  intros Hm [[(-> & -> & ->)|(-> & Hl & Ht & b & -> & Hb)] _ _]; unfold valid_index.
  - rewrite decide_True by lia. unfold taken. by rewrite lookup_nil, andb_false_r.
  - unfold taken. case_decide.
    + destruct (decide (i < 0)); [by rewrite bool_decide_eq_false_2 by lia|].
      rewrite lookup_ge_None_2 by lia. by rewrite andb_false_r.
    + destruct (lookup_lt_is_Some_2 l (Z.to_nat i)) as [x Hx]; [lia|].
      rewrite bool_decide_eq_true_2, Hx by lia. unfold map_test. cbn [deref rbind]. by rewrite (ba_test_in b l i x) by (done || lia).
Qed.

Lemma taken_entry max size m t l i :
  Slots max size m t l -> taken l i = true ->
  exists e, arr_get t i = Ok e /\ t !! Z.to_nat i = Some e /\ good e /\ 0 <= i < Z.of_nat (length t).
Proof.
  intros [Hi Hg _] [H0 Hl]%taken_true. pose proof (lookup_lt_Some _ _ _ Hl).
  destruct Hi as [(_ & _ & ->)|(_ & _ & Ht & _)]; [done|].
  destruct (lookup_lt_is_Some_2 t (Z.to_nat i)) as [e He]; [lia|].
  exists e. split; [by apply arr_get_lookup|]. split; [done|]. split; [by eapply Hg|lia].
Qed.

Lemma update_entry_slots max size m t l i e e' :
  Slots max size m t l -> taken l i = true -> t !! Z.to_nat i = Some e ->
  good e' -> ename e' = ename e ->
  arr_set t i e' = Ok (<[Z.to_nat i := e']> t) /\ Slots max size m (<[Z.to_nat i := e']> t) l.
Proof.
  intros HS Ht He Hg Hn. destruct (taken_entry _ _ _ _ _ _ HS Ht) as (_ & _ & _ & _ & Hlt).
  split; [by apply arr_set_in|]. destruct HS as [Hi HG HN].
  assert (forall k x, <[Z.to_nat i := e']> t !! k = Some x ->
    (k = Z.to_nat i /\ x = e') \/ (k <> Z.to_nat i /\ t !! k = Some x)) as Hk.
  { intros k x. destruct (decide (k = Z.to_nat i)) as [->|].
    - rewrite list_lookup_insert_eq by lia. intros [= <-]. by left.
    - rewrite list_lookup_insert_ne by done. by right. }
  split.
  - by rewrite length_insert.
  - intros k x Hl [[-> ->]|[_ Hx]]%Hk; [done|by eapply HG].
  - intros k j x1 x2 Hl1 Hl2 [[-> ->]|[Hk1 Hx1]]%Hk [[-> ->]|[Hk2 Hx2]]%Hk; rewrite ?Hn; [done|..];
      intros Hc; by (eapply HN; [..|exact Hc]).
Qed.

Lemma free_slot max size m t l i x :
  Slots max size m t l -> taken l i = true ->
  exists m', map_clear m i = Ok m' /\ arr_set t i x = Ok (<[Z.to_nat i := x]> t) /\
    Slots max size m' (<[Z.to_nat i := x]> t) (<[Z.to_nat i := false]> l).
Proof.
  intros HS Ht. destruct (taken_entry _ _ _ _ _ _ HS Ht) as (_ & _ & _ & _ & Hlt).
  destruct HS as [Hi HG HN]. apply taken_true in Ht as [H0 Hl].
  destruct Hi as [(_ & _ & ->)|(-> & Hm & Hlen & b & -> & Hb)]; [done|].
  destruct (ba_clear_in b l i Hb) as (b' & Hc & Hb'); [lia|].
  exists (Some b'). unfold map_clear. cbn [deref rbind]. rewrite Hc. split; [done|]. split; [by apply arr_set_in|].
  assert (forall k, <[Z.to_nat i := false]> l !! k = Some true -> k <> Z.to_nat i /\ l !! k = Some true) as Hk.
  { intros k. destruct (decide (k = Z.to_nat i)) as [->|].
    - by rewrite list_lookup_insert_eq by lia.
    - by rewrite list_lookup_insert_ne. }
  split.
  - right. rewrite !length_insert. split_and!; try done. by exists b'.
  - intros k e [Hne Hk1]%Hk. rewrite list_lookup_insert_ne by done. by apply HG.
  - intros k j e1 e2 [Hne1 Hk1]%Hk [Hne2 Hk2]%Hk. rewrite !list_lookup_insert_ne by done. by apply HN.
Qed.

(** The search loop finds the slot with the name, if there is one. *)
Lemma find_name_spec max m t l nameof name n i :
  0 < max -> Slots max max m t l -> (i + n)%nat = length l ->
  (forall k e, t !! k = Some e -> good e -> nameof (Z.of_nat k) = Ok (ename e)) -> terminated name ->
  (exists k e, find_name n (Z.of_nat i) m nameof name = Ok (Z.of_nat k) /\ (i <= k)%nat /\
     l !! k = Some true /\ t !! k = Some e /\ cstring (ename e) = cstring name) \/
  (find_name n (Z.of_nat i) m nameof name = Ok (-1) /\
     forall k e, (i <= k)%nat -> l !! k = Some true -> t !! k = Some e -> cstring (ename e) <> cstring name).
Proof.
  intros Hm HS Hi Hn Hname. revert i Hi. induction n as [|n IH]; intros i Hi; cbn [find_name].
  { right. split; [done|]. intros k e Hk Hl. apply lookup_lt_Some in Hl. lia. }
  pose proof HS as [[(? & _)|(_ & Hl & Ht & b & -> & Hb)] HG HN]; [lia|].
  destruct (lookup_lt_is_Some_2 l i) as [x Hx]; [lia|].
  cbn [map_test deref rbind]. rewrite (ba_test_in b l (Z.of_nat i) x) by (rewrite ?Nat2Z.id; done || lia).
  cbn [rbind]. replace (Z.of_nat i + 1) with (Z.of_nat (S i)) by lia.
  destruct x.
  - destruct (lookup_lt_is_Some_2 t i) as [e He]; [lia|].
    rewrite (Hn i e He (HG i e Hx He)). cbn [rbind].
    rewrite strcmp_eq_spec by eauto. cbn [rbind]. case_bool_decide as Hc.
    + left. exists i, e. by split_and!.
    + destruct (IH (S i)) as [(k & e' & ? & ? & ?)|[? Hno]]; [lia| |].
      * left. exists k, e'. split_and!; try done; try lia; naive_solver.
      * right. split; [done|]. intros k e' Hk Hlk Htk. destruct (decide (k = i)) as [->|]; [congruence|].
        apply (Hno k e'); [lia|done|done].
  - destruct (IH (S i)) as [(k & e' & ? & ? & ?)|[? Hno]]; [lia| |].
    + left. exists k, e'. split_and!; try done; try lia; naive_solver.
    + right. split; [done|]. intros k e' Hk Hlk Htk. destruct (decide (k = i)) as [->|]; [congruence|].
      apply (Hno k e'); [lia|done|done].
Qed.

(** Taking the first free slot for a name that is not in use. *)
Lemma take_slot max m t l name : 0 < max -> Slots max max m t l ->
  (forall k e, l !! k = Some true -> t !! k = Some e -> cstring (ename e) <> cstring name) ->
  match first_clear l with
  | None => map_find m = Ok (m, -1)
  | Some n => exists m', map_find m = Ok (m', Z.of_nat n) /\ forall e, good e -> ename e = name ->
      arr_set t (Z.of_nat n) e = Ok (<[n := e]> t) /\ Slots max max m' (<[n := e]> t) (<[n := true]> l)
  end.
Proof.
  intros Hm [[(-> & _)|(_ & Hl & Ht & b & -> & Hb)] HG HN] Hno; [lia|].
  unfold map_find. cbn [deref rbind]. destruct (first_clear l) as [n|] eqn:Hf.
  2: { by rewrite (ba_find_none b l Hb Hf). }
  destruct (ba_find_some b l n Hb Hf) as (b' & -> & Hb'). exists (Some b'). split; [done|].
  intros e Hg He. apply first_clear_Some in Hf as [Hn _]. pose proof (lookup_lt_Some _ _ _ Hn).
  split; [rewrite arr_set_in by lia; by rewrite Nat2Z.id|].
  assert (forall k x, <[n := true]> l !! k = Some true -> <[n := e]> t !! k = Some x ->
    (k = n /\ x = e) \/ (k <> n /\ l !! k = Some true /\ t !! k = Some x)) as Hk.
  { intros k x. destruct (decide (k = n)) as [->|].
    - rewrite !list_lookup_insert_eq by lia. intros _ [= <-]. by left.
    - rewrite !list_lookup_insert_ne by done. by right. }
  split.
  - right. rewrite !length_insert. split_and!; try done. by exists b'.
  - intros k x Hk1 Hk2. destruct (Hk k x Hk1 Hk2) as [[_ ->]|(_ & ? & ?)]; [done|by eapply HG].
  - intros k j x1 x2 H1 H2 H3 H4 Hc.
    destruct (Hk k x1 H1 H3) as [[-> ->]|(? & ? & ?)], (Hk j x2 H2 H4) as [[-> ->]|(? & ? & ?)];
      [done| | |by eapply HN].
    + exfalso. apply (Hno j x2); [done|done|]. by rewrite <-Hc, He.
    + exfalso. apply (Hno k x1); [done|done|]. by rewrite Hc, He.
Qed.
(** What a creation does to a table in use, whose slots are [l]: the name's
    slot, or the first free one, or -1 when the table is full. *)
Definition created (t : list E) (l : list bool) (name : list Z) (e : E)
    (t' : list E) (l' : list bool) (i : Z) : Prop :=
  (exists k e0, i = Z.of_nat k /\ l !! k = Some true /\ t !! k = Some e0 /\
     cstring (ename e0) = cstring name /\ t' = t /\ l' = l) \/
  ((forall k e0, l !! k = Some true -> t !! k = Some e0 -> cstring (ename e0) <> cstring name) /\
   match first_clear l with
   | None => i = -1 /\ t' = t /\ l' = l
   | Some n => i = Z.of_nat n /\ t' = <[n := e]> t /\ l' = <[n := true]> l
   end).

(** Search, then take a slot: the two halves of the [ServerCreate] routines. *)
Lemma create_slot max m t l nameof name e :
  0 < max -> Slots max max m t l -> terminated name -> good e -> ename e = name ->
  (forall k x, t !! k = Some x -> good x -> nameof (Z.of_nat k) = Ok (ename x)) ->
  (exists k, find_name (Z.to_nat max) 0 m nameof name = Ok (Z.of_nat k) /\
     created t l name e t l (Z.of_nat k)) \/
  (find_name (Z.to_nat max) 0 m nameof name = Ok (-1) /\
   ((map_find m = Ok (m, -1) /\ created t l name e t l (-1)) \/
    exists n m', map_find m = Ok (m', Z.of_nat n) /\
      arr_set t (Z.of_nat n) e = Ok (<[n := e]> t) /\ Slots max max m' (<[n := e]> t) (<[n := true]> l) /\
      created t l name e (<[n := e]> t) (<[n := true]> l) (Z.of_nat n))).
Proof.
  intros Hm HS Hn Hg He Hnm.
  assert (Z.of_nat (length l) = max) as Hlen
    by (destruct (slots_init _ _ _ _ _ HS) as [(? & _)|(_ & ? & _)]; lia).
  destruct (find_name_spec max m t l nameof name (Z.to_nat max) 0) as [(k & e0 & Hf & _ & Hl & Ht & Hc)|[Hf Hno]];
    try done; [lia|left|right; split; [exact Hf|]].
  - exists k. split; [exact Hf|]. left. by exists k, e0.
  - assert (forall k x, l !! k = Some true -> t !! k = Some x -> cstring (ename x) <> cstring name) as Hno'
      by (intros; eapply Hno; [lia|done|done]).
    pose proof (take_slot max m t l name Hm HS Hno') as HT.
    destruct (first_clear l) as [n|] eqn:Hfc.
    + destruct HT as (m' & Hmf & HT). destruct (HT e Hg He) as [Ha HS'].
      right. exists n, m'. split_and!; try done. right. split; [done|]. by rewrite Hfc.
    + left. split; [done|]. right. split; [done|]. by rewrite Hfc.
Qed.
End Slots.

(** ** Well-formed tables *)

Definition lock_ename (e : ServerLockEntry) : list Z := default [] (sl_name <$> le_lock e).
Definition cond_ename (e : ServerConditionEntry) : list Z := default [] (sc_name <$> ce_condition e).

Definition lock_good (e : ServerLockEntry) : Prop :=
  exists L, le_lock e = Some L /\ terminated (sl_name L) /\ exists q, lock_rep L q.
Definition cond_good (e : ServerConditionEntry) : Prop :=
  exists C, ce_condition e = Some C /\ terminated (sc_name C) /\ cond_wf C.
Definition mv_good (e : ServerMVEntry) : Prop :=
  exists a, mv_entries e = Some a /\ Z.of_nat (length a) = mv_numEntries e /\ terminated (mv_name e).

Lemma lock_good_name e : lock_good e -> terminated (lock_ename e).
Proof. intros (L & He & Ht & _). unfold lock_ename. by rewrite He. Qed.
Lemma cond_good_name e : cond_good e -> terminated (cond_ename e).
Proof. intros (L & He & Ht & _). unfold cond_ename. by rewrite He. Qed.
Lemma mv_good_name e : mv_good e -> terminated (mv_name e).
Proof. by intros (a & _ & _ & Ht). Qed.

Section WellFormed.
  Context {B : Type} `{BA : BitAllocator B} (garbage : nat -> Z).
  Implicit Types (s : Tables B).

(** The three tables, with the lists of the slots in use. *)
Record wf s (ll lc lm : list bool) : Prop := {
  wf_locks : Slots lock_ename lock_good MAX_SERVER_LOCKS (serverLockArraySize s) (serverLockMap s) (serverLockTable s) ll;
  wf_conds : Slots cond_ename cond_good MAX_SERVER_CVS (serverConditionArraySize s) (serverConditionMap s)
               (serverConditionTable s) lc;
  wf_mvs : Slots mv_name mv_good MAX_SERVER_MV_ARRAYS (serverMVArraySize s) (serverMVMap s) (serverMVTable s) lm
}.

Lemma Slots_init {E} (en : E -> list Z) good max : Slots (B:=B) en good max 0 None [] [].
Proof. split; [by left|done|done]. Qed.

Lemma wf_init : wf (Tables_init (B:=B)) [] [] [].
Proof. split; apply Slots_init. Qed.

(** ** Creating *)

Lemma init_locks_spec s ll lc lm : wf s ll lc lm ->
  exists s' ll', init_locks garbage s = Ok (s', tt) /\ wf s' ll' lc lm /\
    serverLockArraySize s' = MAX_SERVER_LOCKS /\
    (ll = ll' /\ s' = s \/ ll = [] /\ ll' = replicate (Z.to_nat MAX_SERVER_LOCKS) false).
Proof.
  intros [H1 H2 H3]. unfold init_locks. case_decide as Hz.
  - destruct (ba_new_clear MAX_SERVER_LOCKS garbage) as (b & -> & Hb); [done|]. cbn [rbind].
    eexists _, _. split; [reflexivity|]. split; [|split; [done|right]].
    + split; try done. by apply Slots_new.
    + split; [|reflexivity]. destruct (slots_init _ _ _ _ _ _ _ H1) as [(_ & _ & ->)|(Hs & _)]; [done|].
      rewrite Hz in Hs. done.
  - exists s, ll. split; [done|]. split; [done|]. split; [|by left].
    by destruct (slots_init _ _ _ _ _ _ _ H1) as [(? & _)|(? & _)].
Qed.

Lemma init_conds_spec s ll lc lm : wf s ll lc lm ->
  exists s' lc', init_conds garbage s = Ok (s', tt) /\ wf s' ll lc' lm /\
    serverConditionArraySize s' = MAX_SERVER_CVS /\
    (lc = lc' /\ s' = s \/ lc = [] /\ lc' = replicate (Z.to_nat MAX_SERVER_CVS) false).
Proof.
  intros [H1 H2 H3]. unfold init_conds. case_decide as Hz.
  - destruct (ba_new_clear MAX_SERVER_CVS garbage) as (b & -> & Hb); [done|]. cbn [rbind].
    eexists _, _. split; [reflexivity|]. split; [|split; [done|right]].
    + split; try done. by apply Slots_new.
    + split; [|reflexivity]. destruct (slots_init _ _ _ _ _ _ _ H2) as [(_ & _ & ->)|(Hs & _)]; [done|].
      rewrite Hz in Hs. done.
  - exists s, lc. split; [done|]. split; [done|]. split; [|by left].
    by destruct (slots_init _ _ _ _ _ _ _ H2) as [(? & _)|(? & _)].
Qed.

Lemma init_mvs_spec s ll lc lm : wf s ll lc lm ->
  exists s' lm', init_mvs garbage s = Ok (s', tt) /\ wf s' ll lc lm' /\
    serverMVArraySize s' = MAX_SERVER_MV_ARRAYS /\
    (lm = lm' /\ s' = s \/ lm = [] /\ lm' = replicate (Z.to_nat MAX_SERVER_MV_ARRAYS) false).
Proof.
  intros [H1 H2 H3]. unfold init_mvs. case_decide as Hz.
  - destruct (ba_new_clear MAX_SERVER_MV_ARRAYS garbage) as (b & -> & Hb); [done|]. cbn [rbind].
    eexists _, _. split; [reflexivity|]. split; [|split; [done|right]].
    + split; try done. by apply Slots_new.
    + split; [|reflexivity]. destruct (slots_init _ _ _ _ _ _ _ H3) as [(_ & _ & ->)|(Hs & _)]; [done|].
      rewrite Hz in Hs. done.
  - exists s, lm. split; [done|]. split; [done|]. split; [|by left].
    by destruct (slots_init _ _ _ _ _ _ _ H3) as [(? & _)|(? & _)].
Qed.

Lemma ServerCreateLock_created s ll lc lm name :
  wf s ll lc lm -> terminated name ->
  exists s0 ll0 s' ll' i, init_locks garbage s = Ok (s0, tt) /\ wf s0 ll0 lc lm /\
    ServerCreateLock garbage name s = Ok (s', i) /\ wf s' ll' lc lm /\
    created lock_ename (serverLockTable s0) ll0 name (mkLockEntry (Some (ServerLock_new name)) false 0)
      (serverLockTable s') ll' i /\ (ll <> [] -> ll0 = ll /\ s0 = s) /\
    (ll = [] -> ll0 = replicate (Z.to_nat MAX_SERVER_LOCKS) false).
Proof.
  intros Hwf Hn. destruct (init_locks_spec s ll lc lm Hwf) as (s0 & ll0 & Hi & Hwf0 & Hsz & Hsame).
  assert (ll <> [] -> ll0 = ll /\ s0 = s) as Hold by (intros Hne; by destruct Hsame as [[-> ->]|[? _]]).
  assert (ll = [] -> ll0 = replicate (Z.to_nat MAX_SERVER_LOCKS) false) as Hfirst.
  { intros ->. destruct Hsame as [[<- ->]|[_ ->]]; [|done].
    destruct Hwf0 as [H1 H2 H3]. destruct (slots_init _ _ _ _ _ _ _ H1) as [(Hz & _)|(_ & Hz & _)];
      [by rewrite Hsz in Hz|done]. }
  pose proof Hwf0 as [H1 H2 H3]. rewrite Hsz in H1.
  assert (Z.of_nat (length ll0) = MAX_SERVER_LOCKS) as Hlen
    by (destruct (slots_init _ _ _ _ _ _ _ H1) as [(? & _)|(_ & ? & _)]; done).
  assert (forall k e, serverLockTable s0 !! k = Some e -> lock_good e ->
    lock_name s0 (Z.of_nat k) = Ok (lock_ename e)) as Hnm.
  { intros k e He (L & HL & _). unfold lock_name, lock_at, lock_ename.
    rewrite (arr_get_lookup _ _ e) by (rewrite ?Nat2Z.id; done || lia). cbn [rbind]. by rewrite HL. }
  exists s0, ll0. unfold ServerCreateLock. rewrite Hi. cbn [rbind].
  destruct (create_slot lock_ename lock_good lock_good_name MAX_SERVER_LOCKS _ _ _ (lock_name s0) name
    (mkLockEntry (Some (ServerLock_new name)) false 0) eq_refl H1 Hn) as
    [(k & -> & Hc)|[-> [[-> Hc]|(n & m' & -> & Ha & HS & Hc)]]]; try done; cbn [rbind].
  - eexists. split; [done|]. split; [done|]. by exists [].
  - exists s0, ll0, (Z.of_nat k). rewrite decide_True by lia. by split_and!.
  - rewrite decide_False, decide_True by lia.
    eexists _, ll0, (-1). split_and!; [done|done|reflexivity|by split; rewrite ?Hsz|done|done|done].
  - rewrite !decide_False by lia. rewrite Ha. cbn [rbind].
    eexists _, (<[n := true]> ll0), (Z.of_nat n).
    split_and!; [done|done|reflexivity|by split; rewrite ?Hsz|done|done|done].
Qed.

Lemma ServerCreateCV_created s ll lc lm name :
  wf s ll lc lm -> terminated name ->
  exists s0 lc0 s' lc' i, init_conds garbage s = Ok (s0, tt) /\ wf s0 ll lc0 lm /\
    ServerCreateCV garbage name s = Ok (s', i) /\ wf s' ll lc' lm /\
    created cond_ename (serverConditionTable s0) lc0 name (mkCondEntry (Some (ServerCondition_new name)) false)
      (serverConditionTable s') lc' i /\ (lc <> [] -> lc0 = lc /\ s0 = s) /\
    (lc = [] -> lc0 = replicate (Z.to_nat MAX_SERVER_CVS) false).
Proof.
  intros Hwf Hn. destruct (init_conds_spec s ll lc lm Hwf) as (s0 & lc0 & Hi & Hwf0 & Hsz & Hsame).
  assert (lc <> [] -> lc0 = lc /\ s0 = s) as Hold by (intros Hne; by destruct Hsame as [[-> ->]|[? _]]).
  assert (lc = [] -> lc0 = replicate (Z.to_nat MAX_SERVER_CVS) false) as Hfirst.
  { intros ->. destruct Hsame as [[<- ->]|[_ ->]]; [|done].
    destruct Hwf0 as [H1 H2 H3]. destruct (slots_init _ _ _ _ _ _ _ H2) as [(Hz & _)|(_ & Hz & _)];
      [by rewrite Hsz in Hz|done]. }
  pose proof Hwf0 as [H1 H2 H3]. rewrite Hsz in H2.
  assert (forall k e, serverConditionTable s0 !! k = Some e -> cond_good e ->
    cond_name s0 (Z.of_nat k) = Ok (cond_ename e)) as Hnm.
  { intros k e He (L & HL & _). unfold cond_name, cond_at, cond_ename.
    rewrite (arr_get_lookup _ _ e) by (rewrite ?Nat2Z.id; done || lia). cbn [rbind]. by rewrite HL. }
  exists s0, lc0. unfold ServerCreateCV. rewrite Hi. cbn [rbind].
  destruct (create_slot cond_ename cond_good cond_good_name MAX_SERVER_CVS _ _ _ (cond_name s0) name
    (mkCondEntry (Some (ServerCondition_new name)) false) eq_refl H2 Hn) as
    [(k & -> & Hc)|[-> [[-> Hc]|(n & m' & -> & Ha & HS & Hc)]]]; try done; cbn [rbind].
  - eexists. by split_and!.
  - exists s0, lc0, (Z.of_nat k). rewrite decide_True by lia. by split_and!.
  - rewrite decide_False, decide_True by lia.
    eexists _, lc0, (-1). split_and!; [done|done|reflexivity|by split; rewrite ?Hsz|done|done|done].
  - rewrite !decide_False by lia. rewrite Ha. cbn [rbind].
    eexists _, (<[n := true]> lc0), (Z.of_nat n).
    split_and!; [done|done|reflexivity|by split; rewrite ?Hsz|done|done|done].
Qed.

Lemma ServerCreateMV_created s ll lc lm name n v :
  wf s ll lc lm -> terminated name -> 0 <= n <= MAX_SERVER_ENTRIES_PER_MV_ARRAY ->
  exists s0 lm0 s' lm' i, init_mvs garbage s = Ok (s0, tt) /\ wf s0 ll lc lm0 /\
    ServerCreateMV garbage name n v s = Ok (s', i) /\ wf s' ll lc lm' /\
    created mv_name (serverMVTable s0) lm0 name (mkMVEntry (Some (replicate (Z.to_nat n) v)) n name)
      (serverMVTable s') lm' i /\ (lm <> [] -> lm0 = lm /\ s0 = s) /\
    (lm = [] -> lm0 = replicate (Z.to_nat MAX_SERVER_MV_ARRAYS) false).
Proof.
  intros Hwf Hn Hsize. destruct (init_mvs_spec s ll lc lm Hwf) as (s0 & lm0 & Hi & Hwf0 & Hsz & Hsame).
  assert (lm <> [] -> lm0 = lm /\ s0 = s) as Hold by (intros Hne; by destruct Hsame as [[-> ->]|[? _]]).
  assert (lm = [] -> lm0 = replicate (Z.to_nat MAX_SERVER_MV_ARRAYS) false) as Hfirst.
  { intros ->. destruct Hsame as [[<- ->]|[_ ->]]; [|done].
    destruct Hwf0 as [H1 H2 H3]. destruct (slots_init _ _ _ _ _ _ _ H3) as [(Hz & _)|(_ & Hz & _)];
      [by rewrite Hsz in Hz|done]. }
  pose proof Hwf0 as [H1 H2 H3]. rewrite Hsz in H3.
  assert (forall k e, serverMVTable s0 !! k = Some e -> mv_good e ->
    mv_name_at s0 (Z.of_nat k) = Ok (mv_name e)) as Hnm.
  { intros k e He _. unfold mv_name_at.
    by rewrite (arr_get_lookup _ _ e) by (rewrite ?Nat2Z.id; done || lia). }
  exists s0, lm0. unfold ServerCreateMV. rewrite Hi. cbn [rbind]. rewrite decide_False by lia.
  destruct (create_slot mv_name mv_good mv_good_name MAX_SERVER_MV_ARRAYS _ _ _ (mv_name_at s0) name
    (mkMVEntry (Some (replicate (Z.to_nat n) v)) n name) eq_refl H3 Hn) as
    [(k & -> & Hc)|[-> [[-> Hc]|(j & m' & -> & Ha & HS & Hc)]]]; try done; cbn [rbind].
  - eexists. split_and!; [done| |done]. simpl. rewrite length_replicate. lia.
  - exists s0, lm0, (Z.of_nat k). rewrite decide_True by lia. by split_and!.
  - rewrite decide_False, decide_True by lia.
    eexists _, lm0, (-1). split_and!; [done|done|reflexivity|by split; rewrite ?Hsz|done|done|done].
  - rewrite !decide_False by lia. rewrite Ha. cbn [rbind].
    eexists _, (<[j := true]> lm0), (Z.of_nat j).
    split_and!; [done|done|reflexivity|by split; rewrite ?Hsz|done|done|done].
Qed.

(** ** Operations on objects in use *)

Lemma lock_entry s ll lc lm i : wf s ll lc lm -> taken ll i = true ->
  exists e L q, arr_get (serverLockTable s) i = Ok e /\ serverLockTable s !! Z.to_nat i = Some e /\
    le_lock e = Some L /\ terminated (sl_name L) /\ lock_rep L q.
Proof.
  intros [H1 _ _] Ht. destruct (taken_entry _ _ _ _ _ _ _ _ H1 Ht) as (e & He & Hl & (L & HL & Hn & q & Hq) & _).
  by exists e, L, q.
Qed.

Lemma cond_entry s ll lc lm i : wf s ll lc lm -> taken lc i = true ->
  exists e C, arr_get (serverConditionTable s) i = Ok e /\ serverConditionTable s !! Z.to_nat i = Some e /\
    ce_condition e = Some C /\ terminated (sc_name C) /\ cond_wf C.
Proof.
  intros [_ H2 _] Ht. destruct (taken_entry _ _ _ _ _ _ _ _ H2 Ht) as (e & He & Hl & (C & HC & Hn & Hw) & _).
  by exists e, C.
Qed.

Lemma set_lock_wf s ll lc lm i e e' :
  wf s ll lc lm -> taken ll i = true -> serverLockTable s !! Z.to_nat i = Some e ->
  lock_good e' -> lock_ename e' = lock_ename e ->
  arr_set (serverLockTable s) i e' = Ok (<[Z.to_nat i := e']> (serverLockTable s)) /\
  wf (set_locks (serverLockMap s) (serverLockArraySize s) (<[Z.to_nat i := e']> (serverLockTable s)) s) ll lc lm.
Proof.
  intros [H1 H2 H3] Ht He Hg Hn.
  destruct (update_entry_slots _ _ _ _ _ _ _ _ _ _ H1 Ht He Hg Hn) as [Ha HS].
  split; [done|]. by split.
Qed.

Lemma set_cond_wf s ll lc lm i e e' :
  wf s ll lc lm -> taken lc i = true -> serverConditionTable s !! Z.to_nat i = Some e ->
  cond_good e' -> cond_ename e' = cond_ename e ->
  exists s', set_cond i e' s = Ok (s', tt) /\ wf s' ll lc lm /\
    s' = set_conds (serverConditionMap s) (serverConditionArraySize s) (<[Z.to_nat i := e']> (serverConditionTable s)) s.
Proof.
  intros [H1 H2 H3] Ht He Hg Hn.
  destruct (update_entry_slots _ _ _ _ _ _ _ _ _ _ H2 Ht He Hg Hn) as [Ha HS].
  unfold set_cond. rewrite Ha. cbn [rbind]. eexists. split; [reflexivity|]. by split.
Qed.

Lemma delete_lock_wf s ll lc lm i e :
  wf s ll lc lm -> taken ll i = true ->
  exists s', delete_lock i e s = Ok (s', tt) /\ wf s' (<[Z.to_nat i := false]> ll) lc lm.
Proof.
  intros [H1 H2 H3] Ht.
  destruct (free_slot _ _ _ _ _ _ _ _ (mkLockEntry None (le_isToBeDeleted e) (le_acquireCount e)) H1 Ht)
    as (m' & Hm & Ha & HS).
  unfold delete_lock. rewrite Ha. cbn [rbind]. rewrite Hm. cbn [rbind]. eexists. split; [reflexivity|]. by split.
Qed.

Lemma delete_cond_wf s ll lc lm i e :
  wf s ll lc lm -> taken lc i = true ->
  exists s', delete_cond i e s = Ok (s', tt) /\ wf s' ll (<[Z.to_nat i := false]> lc) lm.
Proof.
  intros [H1 H2 H3] Ht.
  destruct (free_slot _ _ _ _ _ _ _ _ (mkCondEntry None (ce_isToBeDeleted e)) H2 Ht)
    as (m' & Hm & Ha & HS).
  unfold delete_cond. rewrite Ha. cbn [rbind]. rewrite Hm. cbn [rbind]. eexists. split; [reflexivity|]. by split.
Qed.

Lemma valid_lock s ll lc lm i : wf s ll lc lm ->
  valid_index (serverLockArraySize s) (serverLockMap s) i = Ok (taken ll i).
Proof. intros [H1 _ _]. by apply (valid_index_spec lock_ename lock_good MAX_SERVER_LOCKS _ _ (serverLockTable s)). Qed.
Lemma valid_cond s ll lc lm i : wf s ll lc lm ->
  valid_index (serverConditionArraySize s) (serverConditionMap s) i = Ok (taken lc i).
Proof. intros [_ H2 _]. by apply (valid_index_spec cond_ename cond_good MAX_SERVER_CVS _ _ (serverConditionTable s)). Qed.
Lemma valid_mv s ll lc lm i : wf s ll lc lm ->
  valid_index (serverMVArraySize s) (serverMVMap s) i = Ok (taken lm i).
Proof. intros [_ _ H3]. by apply (valid_index_spec mv_name mv_good MAX_SERVER_MV_ARRAYS _ _ (serverMVTable s)). Qed.

(** The unchecked index agrees with the checked one inside the array. *)
Lemma valid_cond_low s ll lc lm i : wf s ll lc lm -> lc <> [] -> i < MAX_SERVER_CVS ->
  valid_index_low (serverConditionMap s) i = Ok (taken lc i).
Proof.
  intros Hwf Hne Hi. rewrite <-(valid_cond s ll lc lm i Hwf). destruct Hwf as [_ H2 _].
  destruct (slots_init _ _ _ _ _ _ _ H2) as [(_ & _ & ?)|(-> & _)]; [done|].
  unfold valid_index, valid_index_low. destruct (decide (i < 0)); [by rewrite decide_True by lia|].
  by rewrite decide_False by lia.
Qed.

(** The lock after a request keeps its name and stays a queue. *)
Lemma sl_Acquire_good L q cr : lock_rep L q ->
  sl_name (sl_Acquire L cr).1 = sl_name L /\ exists q', lock_rep (sl_Acquire L cr).1 q'.
Proof.
  intros HR. split.
  - unfold sl_Acquire. by repeat case_match.
  - destruct cr as [m b r]. pose proof (lock_exec_spec (LAcquire (m, b)) L q HR) as [HR' _].
    unfold lock_exec in HR'. unfold sl_Acquire in *. cbn [fst snd] in HR'.
    change (isHeldByRequester L (mkRequest m b r)) with (isHeldByRequester L (ClientRequest_new m b)).
    destruct (isHeldByRequester L (ClientRequest_new m b)); [by eexists|].
    case_decide; simpl in *; by eexists.
Qed.

Lemma sl_Release_good L q cr : lock_rep L q ->
  sl_name (sl_Release L cr).1 = sl_name L /\ exists q', lock_rep (sl_Release L cr).1 q'.
Proof.
  intros HR. split.
  - unfold sl_Release. by repeat case_match.
  - destruct cr as [m b r]. pose proof (lock_exec_spec (LRelease (m, b)) L q HR) as [HR' _].
    unfold lock_exec in HR'. unfold sl_Release in *. cbn [fst snd] in HR'.
    change (isHeldByRequester L (mkRequest m b r)) with (isHeldByRequester L (ClientRequest_new m b)).
    destruct (isHeldByRequester L (ClientRequest_new m b)); simpl in *; [|by eexists].
    destruct (sl_queue L); simpl in *; by eexists.
Qed.

Lemma sc_Signal_good C l cr : cond_wf C ->
  sc_name (sc_Signal C l cr).1 = sc_name C /\ cond_wf (sc_Signal C l cr).1.
Proof.
  intros Hwf. unfold sc_Signal, cond_wf in *. destruct (sc_queue C) as [|c q] eqn:Hq; [by simpl; rewrite Hq|].
  case_decide; simpl; [by rewrite Hq|]. split; [done|]. case_decide; [done|].
  intros Hn. by apply Hwf in Hn.
Qed.

Lemma sc_Wait_good C l cr : cond_wf C -> l <> -1 ->
  sc_name (sc_Wait C l cr).1 = sc_name C /\ cond_wf (sc_Wait C l cr).1.
Proof.
  intros Hwf Hl. unfold sc_Wait, cond_wf in *. destruct (decide (sc_waitingLock C = -1)) as [Hn|Hn]; cbn [sc_waitingLock].
  - rewrite (decide_False (P := l <> l)) by exact (fun H => H eq_refl). simpl. done.
  - case_decide; simpl; [done|]. split; [done|]. congruence.
Qed.
(** ** Every operation keeps the tables well formed *)

Lemma ServerAcquire_spec s ll lc lm m b i :
  wf s ll lc lm ->
  exists s' r, ServerAcquire m b i s = Ok (s', r) /\ wf s' ll lc lm /\
    if taken ll i then
      exists e L, arr_get (serverLockTable s) i = Ok e /\ le_lock e = Some L /\
        r = Some (sl_Acquire L (ClientRequest_new m b)).2 /\
        arr_get (serverLockTable s') i =
          Ok (mkLockEntry (Some (sl_Acquire L (ClientRequest_new m b)).1) (le_isToBeDeleted e) (i32 (le_acquireCount e + 1)))
    else r = None /\ s' = s.
Proof.
  intros Hwf. unfold ServerAcquire. rewrite (valid_lock s ll lc lm i Hwf). cbn [rbind].
  destruct (taken ll i) eqn:Ht; cbn [negb]; [|by eexists _, _].
  destruct (lock_entry s ll lc lm i Hwf Ht) as (e & L & q & -> & Hl & HL & Hn & HR). cbn [rbind].
  rewrite HL. cbn [deref rbind].
  destruct (sl_Acquire_good L q (ClientRequest_new m b) HR) as (Hnm & q' & HR').
  destruct (sl_Acquire L (ClientRequest_new m b)) as [L' cr] eqn:HA. cbn [fst snd] in *.
  destruct (set_lock_wf s ll lc lm i e (mkLockEntry (Some L') (le_isToBeDeleted e) (i32 (le_acquireCount e + 1)))
    Hwf Ht Hl) as [Ha Hwf'].
  { exists L'. split_and!; [done|congruence|by exists q']. }
  { unfold lock_ename. rewrite HL. simpl. done. }
  rewrite Ha. cbn [rbind]. eexists _, _. split; [reflexivity|]. split; [done|].
  exists e, L. rewrite HA. split_and!; try done. by eapply arr_get_set_eq.
Qed.

Lemma ServerRelease_spec s ll lc lm m b i :
  wf s ll lc lm ->
  exists s' r ll', ServerRelease m b i s = Ok (s', r) /\ wf s' ll' lc lm /\
    if taken ll i then
      exists e L, arr_get (serverLockTable s) i = Ok e /\ le_lock e = Some L /\
        r = Some (sl_Release L (ClientRequest_new m b)).2 /\
        (le_isToBeDeleted e = false -> ll' = ll /\ arr_get (serverLockTable s') i =
          Ok (mkLockEntry (Some (sl_Release L (ClientRequest_new m b)).1) false (i32 (le_acquireCount e - 1))))
    else r = None /\ s' = s.
Proof.
  intros Hwf. unfold ServerRelease. rewrite (valid_lock s ll lc lm i Hwf). cbn [rbind].
  destruct (taken ll i) eqn:Ht; cbn [negb]; [|by eexists _, _, _].
  destruct (lock_entry s ll lc lm i Hwf Ht) as (e & L & q & -> & Hl & HL & Hn & HR). cbn [rbind].
  rewrite HL. cbn [deref rbind].
  destruct (sl_Release_good L q (ClientRequest_new m b) HR) as (Hnm & q' & HR').
  destruct (sl_Release L (ClientRequest_new m b)) as [L' cr] eqn:HA. cbn [fst snd] in *.
  set (e' := mkLockEntry (Some L') (le_isToBeDeleted e) (i32 (le_acquireCount e - 1))).
  destruct (set_lock_wf s ll lc lm i e e' Hwf Ht Hl) as [Ha Hwf'].
  { exists L'. split_and!; [done|congruence|by exists q']. }
  { unfold lock_ename. rewrite HL. simpl. done. }
  rewrite Ha. cbn [rbind]. destruct (_ && _) eqn:Hd.
  - destruct (delete_lock_wf _ _ _ _ i e' Hwf' Ht) as (s' & Hs & Hwf2). rewrite Hs. cbn [rbind].
    eexists _, _, _. split; [reflexivity|]. split; [done|]. exists e, L. rewrite HA. split_and!; try done.
    intros Hf. cbn [le_isToBeDeleted e'] in Hd. by rewrite Hf in Hd.
  - eexists _, _, _. split; [reflexivity|]. split; [done|]. exists e, L. rewrite HA. split_and!; try done.
    intros Hf. split; [done|]. rewrite <-Hf. by eapply arr_get_set_eq.
Qed.

Lemma ServerDestroyLock_wf s ll lc lm i : wf s ll lc lm ->
  exists s' ll', ServerDestroyLock i s = Ok (s', tt) /\ wf s' ll' lc lm.
Proof.
  intros Hwf. unfold ServerDestroyLock. rewrite (valid_lock s ll lc lm i Hwf). cbn [rbind].
  destruct (taken ll i) eqn:Ht; cbn [negb]; [|by exists s, ll].
  destruct (lock_entry s ll lc lm i Hwf Ht) as (e & L & q & -> & Hl & HL & Hn & HR). cbn [rbind].
  rewrite HL. cbn [deref rbind]. destruct (sl_isBusy L && _); cbn [negb].
  - destruct (set_lock_wf s ll lc lm i e (mkLockEntry (le_lock e) true (le_acquireCount e)) Hwf Ht Hl) as [Ha Hwf'].
    { exists L. split_and!; [done|done|by exists q]. } { done. }
    rewrite HL in Ha, Hwf'. rewrite Ha. cbn [rbind]. eexists _, ll. by split.
  - destruct (delete_lock_wf _ _ _ _ i e Hwf Ht) as (s' & Hs & Hwf2). by eexists _, _.
Qed.

Lemma ServerDestroyCV_wf s ll lc lm i : wf s ll lc lm ->
  exists s' lc', ServerDestroyCV i s = Ok (s', tt) /\ wf s' ll lc' lm.
Proof.
  intros Hwf. unfold ServerDestroyCV. rewrite (valid_cond s ll lc lm i Hwf). cbn [rbind].
  destruct (taken lc i) eqn:Ht; cbn [negb]; [|by exists s, lc].
  destruct (cond_entry s ll lc lm i Hwf Ht) as (e & C & -> & Hl & HC & Hn & Hw). cbn [rbind].
  rewrite HC. cbn [deref rbind]. destruct (sc_hasWaiting C); cbn [negb].
  - destruct (set_cond_wf s ll lc lm i e (mkCondEntry (Some C) true) Hwf Ht Hl) as (s' & -> & Hwf' & _).
    { by exists C. } { unfold cond_ename. by rewrite HC. } by exists s', lc.
  - destruct (delete_cond_wf _ _ _ _ i e Hwf Ht) as (s' & Hs & Hwf2). by eexists _, _.
Qed.

Lemma ServerSignal_wf s ll lc lm m b i l : wf s ll lc lm ->
  exists s' r, ServerSignal m b i l s = Ok (s', r) /\ wf s' ll lc lm.
Proof.
  intros Hwf. unfold ServerSignal. rewrite (valid_cond s ll lc lm i Hwf). cbn [rbind].
  destruct (taken lc i) eqn:Ht; cbn [negb]; [|by eexists _, _].
  case_decide; [by eexists _, _|].
  destruct (cond_entry s ll lc lm i Hwf Ht) as (e & C & -> & Hl & HC & Hn & Hw). cbn [rbind].
  rewrite HC. cbn [deref rbind].
  destruct (sc_Signal_good C l (ClientRequest_new m b) Hw) as [Hnm Hw'].
  destruct (sc_Signal C l (ClientRequest_new m b)) as [C' cr]. cbn [fst snd] in *.
  destruct (set_cond_wf s ll lc lm i e (mkCondEntry (Some C') (ce_isToBeDeleted e)) Hwf Ht Hl) as (s' & -> & Hwf' & _).
  { exists C'. split_and!; [done|congruence|done]. } { unfold cond_ename. rewrite HC. simpl. congruence. }
  cbn [rbind]. by eexists _, _.
Qed.

Lemma ServerWait_wf s ll lc lm m b i l : wf s ll lc lm -> lc <> [] -> i < MAX_SERVER_CVS -> l <> -1 ->
  exists s' lc', ServerWait m b i l s = Ok (s', tt) /\ wf s' ll lc' lm.
Proof.
  intros Hwf Hne Hi Hl1. unfold ServerWait. rewrite (valid_cond_low s ll lc lm i Hwf Hne Hi). cbn [rbind].
  destruct (taken lc i) eqn:Ht; cbn [negb]; [|by eexists _, _].
  destruct (cond_entry s ll lc lm i Hwf Ht) as (e & C & -> & Hl & HC & Hn & Hw). cbn [rbind].
  rewrite HC. cbn [deref rbind].
  destruct (sc_Wait_good C l (ClientRequest_new m b) Hw Hl1) as [Hnm Hw'].
  destruct (sc_Wait C l (ClientRequest_new m b)) as [C' cr]. cbn [fst snd] in *.
  destruct (set_cond_wf s ll lc lm i e (mkCondEntry (Some C') (ce_isToBeDeleted e)) Hwf Ht Hl) as (s' & -> & Hwf' & _).
  { exists C'. split_and!; [done|congruence|done]. } { unfold cond_ename. rewrite HC. simpl. congruence. }
  cbn [rbind]. destruct (_ && _); [|by eexists _, _].
  destruct (delete_cond_wf _ _ _ _ i (mkCondEntry (Some C') (ce_isToBeDeleted e)) Hwf' Ht) as (s2 & Hs & Hwf2).
  by eexists _, _.
Qed.

Lemma broadcast_rounds_all m b l : forall q C, sc_queue C = q -> (q <> [] -> sc_waitingLock C = l) -> l <> -1 ->
  exists C', broadcast_rounds (length q) m b l C =
      Ok (C', (fun cr => mkResponse (machineID cr) (mailboxNumber cr) (-1)) <$> q) /\
    sc_queue C' = [] /\ sc_name C' = sc_name C.
Proof.
  induction q as [|c q IH]; intros C Hq Hw Hl.
  { exists C. simpl. unfold sc_hasWaiting. rewrite Hq. done. }
  cbn [length broadcast_rounds]. unfold sc_hasWaiting. rewrite Hq. cbn [length].
  rewrite bool_decide_eq_false_2 by done. cbn [negb]. unfold sc_Signal. rewrite Hq.
  rewrite decide_False by (intros Hn; apply Hn, Hw; done).
  set (C1 := mkServerCondition _ _ _).
  destruct (IH C1) as (C' & HI & HC & Hnm); [done| |done|].
  { intros Hne. simpl. rewrite decide_False by done. by apply Hw. }
  exists C'. rewrite HI. cbn [rbind]. by split_and!.
Qed.

Lemma broadcast_rounds_wrong m b l C fuel : sc_queue C <> [] -> sc_waitingLock C <> l ->
  broadcast_rounds fuel m b l C = Fault OutOfFuel.
Proof.
  intros Hq Hw.
  assert (sc_hasWaiting C = true) as Hh.
  { unfold sc_hasWaiting. rewrite bool_decide_eq_false_2; [done|]. by destruct (sc_queue C). }
  induction fuel as [|fuel IH]; cbn [broadcast_rounds]; rewrite Hh; [done|].
  assert (sc_Signal C l (ClientRequest_new m b) = (C, set_respond false (ClientRequest_new m b))) as ->.
  { unfold sc_Signal. destruct (sc_queue C); [done|]. by rewrite decide_True. }
  by rewrite IH.
Qed.

(** The condition at an index has no waiters or is used with lock [l]. *)
Definition broadcast_lock_ok s (lc : list bool) (i l : Z) : Prop :=
  forall e C, taken lc i = true -> arr_get (serverConditionTable s) i = Ok e -> ce_condition e = Some C ->
    sc_queue C <> [] -> sc_waitingLock C = l.

Lemma ServerBroadcast_wf s ll lc lm m b i l : wf s ll lc lm -> lc <> [] -> i < MAX_SERVER_CVS ->
  l <> -1 -> broadcast_lock_ok s lc i l ->
  exists s' rs, ServerBroadcast m b i l s = Ok (s', rs) /\ wf s' ll lc lm.
Proof.
  intros Hwf Hne Hi Hl1 Hbl. unfold ServerBroadcast. rewrite (valid_cond_low s ll lc lm i Hwf Hne Hi). cbn [rbind].
  destruct (taken lc i) eqn:Ht; cbn [negb]; [|by eexists _, _].
  destruct (cond_entry s ll lc lm i Hwf Ht) as (e & C & He & Hl & HC & Hn & Hw). rewrite He. cbn [rbind].
  rewrite HC. cbn [deref rbind].
  destruct (broadcast_rounds_all m b l (sc_queue C) C eq_refl (Hbl e C Ht He HC) Hl1) as (C' & -> & Hq' & Hnm).
  cbn [rbind].
  destruct (set_cond_wf s ll lc lm i e (mkCondEntry (Some C') (ce_isToBeDeleted e)) Hwf Ht Hl) as (s' & -> & Hwf' & _).
  { exists C'. split_and!; [done|congruence|by intros _]. } { unfold cond_ename. rewrite HC. simpl. congruence. }
  cbn [rbind]. by eexists _, _.
Qed.

Lemma mv_entry s ll lc lm i : wf s ll lc lm -> taken lm i = true ->
  exists e a, arr_get (serverMVTable s) i = Ok e /\ serverMVTable s !! Z.to_nat i = Some e /\
    mv_entries e = Some a /\ Z.of_nat (length a) = mv_numEntries e /\ terminated (mv_name e).
Proof.
  intros [_ _ H3] Ht. destruct (taken_entry _ _ _ _ _ _ _ _ H3 Ht) as (e & He & Hl & (a & Ha & Hn & Hw) & _).
  by exists e, a.
Qed.

Lemma ServerDestroyMV_wf s ll lc lm i : wf s ll lc lm ->
  exists s' lm', ServerDestroyMV i s = Ok (s', tt) /\ wf s' ll lc lm'.
Proof.
  intros Hwf. unfold ServerDestroyMV. rewrite (valid_mv s ll lc lm i Hwf). cbn [rbind].
  destruct (taken lm i) eqn:Ht; cbn [negb]; [|by exists s, lm].
  destruct (mv_entry s ll lc lm i Hwf Ht) as (e & a & -> & _). cbn [rbind].
  destruct Hwf as [H1 H2 H3].
  destruct (free_slot _ _ _ _ _ _ _ _ (mkMVEntry None (mv_numEntries e) (mv_name e)) H3 Ht)
    as (m' & Hm & Ha & HS).
  rewrite Ha. cbn [rbind]. rewrite Hm. cbn [rbind]. eexists _, _. split; [reflexivity|]. by split.
Qed.

Lemma ServerSetMV_spec s ll lc lm i j v : wf s ll lc lm ->
  exists s', ServerSetMV i j v s = Ok (s', tt) /\ wf s' ll lc lm /\
    (forall i2 j2, ServerGetMV i2 j2 s' =
       if taken lm i && bool_decide (i2 = i) && bool_decide (j2 = j) &&
          match arr_get (serverMVTable s) i with
          | Ok e => bool_decide (0 <= j < mv_numEntries e) | Fault _ => false end
       then Ok v else ServerGetMV i2 j2 s).
Proof.
  intros Hwf. unfold ServerSetMV. rewrite (valid_mv s ll lc lm i Hwf). cbn [rbind].
  destruct (taken lm i) eqn:Ht; cbn [negb andb]; [|by eexists _].
  destruct (mv_entry s ll lc lm i Hwf Ht) as (e & a & He & Hl & Ha & Hlen & Hn). rewrite He. cbn [rbind].
  case_decide as Hj.
  { exists s. split_and!; try done. intros. rewrite (bool_decide_eq_false_2 (0 <= j < _)) by lia.
    by rewrite andb_false_r. }
  rewrite Ha. cbn [deref rbind]. rewrite arr_set_in by lia. cbn [rbind].
  set (e' := mkMVEntry _ _ _).
  assert (mv_good e') as Hg'. { eexists. split; [done|]. simpl. by rewrite length_insert. }
  destruct Hwf as [H1 H2 H3].
  destruct (update_entry_slots _ _ _ _ _ _ _ _ e e' H3 Ht Hl Hg' eq_refl) as [Hs HS].
  rewrite Hs. cbn [rbind]. eexists. split; [reflexivity|]. split; [by split|].
  intros i2 j2. rewrite (bool_decide_eq_true_2 (0 <= j < _)) by lia. rewrite andb_true_r.
  unfold ServerGetMV. cbn [serverMVArraySize serverMVMap serverMVTable set_mvs].
  rewrite (valid_index_spec mv_name mv_good MAX_SERVER_MV_ARRAYS _ _ _ _ i2 eq_refl HS). cbn [rbind].
  destruct (decide (i2 = i)) as [->|Hi2].
  - rewrite (bool_decide_eq_true_2 (i = i)) by done. rewrite Ht. cbn [negb andb].
    rewrite (arr_get_set_eq _ _ _ _ Hs), He. cbn [rbind mv_numEntries mv_entries e' deref].
    destruct (decide (j2 = j)) as [->|Hj2].
    + rewrite bool_decide_eq_true_2 by done. rewrite decide_False by lia.
      apply arr_get_lookup; [lia|]. apply list_lookup_insert_eq. lia.
    + rewrite bool_decide_eq_false_2 by done. case_decide; [done|]. rewrite Ha. cbn [deref rbind].
      unfold arr_get. rewrite !decide_True by lia. by rewrite list_lookup_insert_ne by lia.
  - rewrite (bool_decide_eq_false_2 (i2 = i)) by done. cbn [andb].
    destruct (taken lm i2); [|done]. by rewrite (arr_get_set_ne _ _ _ _ _ (not_eq_sym Hi2) Hs).
Qed.

Lemma ServerGetMV_spec s ll lc lm i j : wf s ll lc lm -> exists v, ServerGetMV i j s = Ok v.
Proof.
  intros Hwf. unfold ServerGetMV. rewrite (valid_mv s ll lc lm i Hwf). cbn [rbind].
  destruct (taken lm i) eqn:Ht; cbn [negb]; [|by eexists].
  destruct (mv_entry s ll lc lm i Hwf Ht) as (e & a & -> & _ & Ha & Hlen & _). cbn [rbind].
  case_decide; [by eexists|]. rewrite Ha. cbn [deref rbind].
  destruct (arr_get_in a j) as (v & -> & _); [lia|]. by eexists.
Qed.
End WellFormed.

(** ** Requests on the tables *)
Inductive table_op :=
  | TCreateLock (name : list Z) | TDestroyLock (i : Z)
  | TAcquire (m b i : Z) | TRelease (m b i : Z)
  | TCreateCV (name : list Z) | TDestroyCV (i : Z)
  | TSignal (m b i l : Z) | TWait (m b i l : Z) | TBroadcast (m b i l : Z)
  | TCreateMV (name : list Z) (n v : Z) | TDestroyMV (i : Z) | TSetMV (i j v : Z).

Section Requests.
  Context {B : Type} `{BA : BitAllocator B} (garbage : nat -> Z).

Definition state_of {A} (m : res (Tables B * A)) : res (Tables B) := let* '(s, _) := m in Ok s.

Definition table_exec (o : table_op) (s : Tables B) : res (Tables B) :=
  match o with
  | TCreateLock name => state_of (ServerCreateLock garbage name s)
  | TDestroyLock i => state_of (ServerDestroyLock i s)
  | TAcquire m b i => state_of (ServerAcquire m b i s)
  | TRelease m b i => state_of (ServerRelease m b i s)
  | TCreateCV name => state_of (ServerCreateCV garbage name s)
  | TDestroyCV i => state_of (ServerDestroyCV i s)
  | TSignal m b i l => state_of (ServerSignal m b i l s)
  | TWait m b i l => state_of (ServerWait m b i l s)
  | TBroadcast m b i l => state_of (ServerBroadcast m b i l s)
  | TCreateMV name n v => state_of (ServerCreateMV garbage name n v s)
  | TDestroyMV i => state_of (ServerDestroyMV i s)
  | TSetMV i j v => state_of (ServerSetMV i j v s)
  end.

(** What the code does not check itself. *)
Definition table_op_ok (s : Tables B) (lc : list bool) (o : table_op) : Prop :=
  match o with
  | TCreateLock name | TCreateCV name => terminated name
  | TCreateMV name n _ => terminated name /\ 0 <= n
  | TWait _ _ i l => lc <> [] /\ i < MAX_SERVER_CVS /\ l <> -1
  | TBroadcast _ _ i l => lc <> [] /\ i < MAX_SERVER_CVS /\ l <> -1 /\ broadcast_lock_ok s lc i l
  | _ => True
  end.

Lemma ServerCreateMV_too_big s name n v : n > MAX_SERVER_ENTRIES_PER_MV_ARRAY ->
  ServerCreateMV garbage name n v s = let* '(s, _) := init_mvs garbage s in Ok (s, -1).
Proof.
  intros Hn. unfold ServerCreateMV. destruct (init_mvs garbage s) as [[s' []]|]; [|done]. cbn [rbind].
  by rewrite decide_True by lia.
Qed.

(** C12: the invariant of the server's tables. Every request, with whatever
    client, index and entry, leaves the three tables well formed: the bitmap
    and the table agree, each slot in use has its object with a NUL-terminated
    name and a consistent queue, and no two objects of a kind have the same
    name. The request never faults, provided names are terminated, an array
    size is not negative, and Wait and Broadcast are given a condition number
    below 500 once conditions exist and Broadcast the condition's own lock. *)
Theorem tables_invariant o (s : Tables B) ll lc lm :
  wf s ll lc lm -> table_op_ok s lc o ->
  exists s' ll' lc' lm', table_exec o s = Ok s' /\ wf s' ll' lc' lm'.
Proof.
  intros Hwf Ho. destruct o as [name|i|m b i|m b i|name|i|m b i l|m b i l|m b i l|name n v|i|i j v];
    cbn [table_exec table_op_ok] in *; unfold state_of.
  - destruct (ServerCreateLock_created garbage s ll lc lm name Hwf Ho) as (? & ? & s' & ll' & i & _ & _ & -> & ? & _).
    by exists s', ll', lc, lm.
  - destruct (ServerDestroyLock_wf s ll lc lm i Hwf) as (s' & ll' & -> & ?). by exists s', ll', lc, lm.
  - destruct (ServerAcquire_spec s ll lc lm m b i Hwf) as (s' & r & -> & ? & _). by exists s', ll, lc, lm.
  - destruct (ServerRelease_spec s ll lc lm m b i Hwf) as (s' & r & ll' & -> & ? & _). by exists s', ll', lc, lm.
  - destruct (ServerCreateCV_created garbage s ll lc lm name Hwf Ho) as (? & ? & s' & lc' & i & _ & _ & -> & ? & _).
    by exists s', ll, lc', lm.
  - destruct (ServerDestroyCV_wf s ll lc lm i Hwf) as (s' & lc' & -> & ?). by exists s', ll, lc', lm.
  - destruct (ServerSignal_wf s ll lc lm m b i l Hwf) as (s' & r & -> & ?). by exists s', ll, lc, lm.
  - destruct Ho as (? & ? & ?). destruct (ServerWait_wf s ll lc lm m b i l Hwf) as (s' & lc' & -> & ?); try done.
    by exists s', ll, lc', lm.
  - destruct Ho as (? & ? & ? & ?). destruct (ServerBroadcast_wf s ll lc lm m b i l Hwf) as (s' & rs & -> & ?); try done.
    by exists s', ll, lc, lm.
  - destruct Ho as [Hn H0]. destruct (decide (n <= MAX_SERVER_ENTRIES_PER_MV_ARRAY)).
    + destruct (ServerCreateMV_created garbage s ll lc lm name n v Hwf Hn) as (? & ? & s' & lm' & i & _ & _ & -> & ? & _);
        [done|]. by exists s', ll, lc, lm'.
    + rewrite ServerCreateMV_too_big by lia.
      destruct (init_mvs_spec garbage s ll lc lm Hwf) as (s' & lm' & -> & ? & _). by exists s', ll, lc, lm'.
  - destruct (ServerDestroyMV_wf s ll lc lm i Hwf) as (s' & lm' & -> & ?). by exists s', ll, lc, lm'.
  - destruct (ServerSetMV_spec s ll lc lm i j v Hwf) as (s' & -> & ? & _). by exists s', ll, lc, lm.
Qed.

(** creating is idempotent by name. On tables in use, creating a lock (a
    condition, an array of monitor variables) whose name exists returns that
    slot and changes nothing; a new name takes the lowest free slot, with a
    fresh object of that name and every other entry as it was; -1 is the
    answer exactly when the name is new and every slot is taken. *)
Theorem create_by_name (s : Tables B) ll lc lm name n v :
  wf s ll lc lm -> ll <> [] -> lc <> [] -> lm <> [] ->
  terminated name -> 0 <= n <= MAX_SERVER_ENTRIES_PER_MV_ARRAY ->
  (exists s' ll' i, ServerCreateLock garbage name s = Ok (s', i) /\
     created lock_ename (serverLockTable s) ll name (mkLockEntry (Some (ServerLock_new name)) false 0)
       (serverLockTable s') ll' i) /\
  (exists s' lc' i, ServerCreateCV garbage name s = Ok (s', i) /\
     created cond_ename (serverConditionTable s) lc name (mkCondEntry (Some (ServerCondition_new name)) false)
       (serverConditionTable s') lc' i) /\
  (exists s' lm' i, ServerCreateMV garbage name n v s = Ok (s', i) /\
     created mv_name (serverMVTable s) lm name (mkMVEntry (Some (replicate (Z.to_nat n) v)) n name)
       (serverMVTable s') lm' i).
Proof.
  intros Hwf Hl' Hc' Hm' Hn Hsz. split_and!.
  - destruct (ServerCreateLock_created garbage s ll lc lm name Hwf Hn) as (s0 & ll0 & s' & ll' & i & Hi & Hwf0 & He & _ & HC & HO & _).
    destruct (HO Hl') as [-> ->].
    by exists s', ll', i.
  - destruct (ServerCreateCV_created garbage s ll lc lm name Hwf Hn) as (s0 & lc0 & s' & lc' & i & Hi & Hwf0 & He & _ & HC & HO & _).
    destruct (HO Hc') as [-> ->].
    by exists s', lc', i.
  - destruct (ServerCreateMV_created garbage s ll lc lm name n v Hwf Hn Hsz) as (s0 & lm0 & s' & lm' & i & Hi & Hwf0 & He & _ & HC & HO & _).
    destruct (HO Hm') as [-> ->].
    by exists s', lm', i.
Qed.
(** monitor variables are arrays. [ServerSetMV] never faults and changes
    exactly the entry it names, when the number is of an array in use and the
    entry inside its declared size: afterwards [ServerGetMV] of that entry is
    the value, and every other entry of every array reads as before; with any
    other number or entry nothing changes at all. *)
Theorem GetMV_after_SetMV (s : Tables B) ll lc lm i j v :
  wf s ll lc lm ->
  exists s', ServerSetMV i j v s = Ok (s', tt) /\ wf s' ll lc lm /\
    forall i2 j2, ServerGetMV i2 j2 s' =
      if taken lm i && bool_decide (i2 = i) && bool_decide (j2 = j) &&
         match arr_get (serverMVTable s) i with
         | Ok e => bool_decide (0 <= j < mv_numEntries e) | Fault _ => false end
      then Ok v else ServerGetMV i2 j2 s.
Proof. apply ServerSetMV_spec. Qed.

(** destroying a lock that is in use. [ServerDestroyLock] defers the
    deletion to the last release only when the lock is busy and its count of
    outstanding acquires is 0; a lock that is held with a count other than 0,
    the ordinary case, is deleted at once, with or without waiters. Its slot is free, the holder's
    release is answered as one of a lock that does not exist, and no waiter is
    ever answered. *)
Theorem DestroyLock_deletes_held_lock (s : Tables B) ll lc lm i e L q m b :
  wf s ll lc lm -> taken ll i = true -> serverLockTable s !! Z.to_nat i = Some e ->
  le_lock e = Some L -> lock_rep L q -> q <> [] -> le_acquireCount e <> 0 ->
  exists s', ServerDestroyLock i s = Ok (s', tt) /\ wf s' (<[Z.to_nat i := false]> ll) lc lm /\
    ServerRelease m b i s' = Ok (s', None) /\ ServerAcquire m b i s' = Ok (s', None).
Proof.
  intros Hwf Ht Hl HL HR Hq Hc.
  destruct (lock_entry s ll lc lm i Hwf Ht) as (e1 & _ & _ & He & Hl1 & _). simplify_eq.
  destruct (delete_lock_wf _ _ _ _ i e Hwf Ht) as (s' & Hd & Hwf').
  assert (taken (<[Z.to_nat i := false]> ll) i = false) as Ht'.
  { apply taken_true in Ht as [H0 Hl2]. unfold taken. apply lookup_lt_Some in Hl2.
    rewrite list_lookup_insert_eq by lia. by rewrite andb_false_r. }
  exists s'. unfold ServerDestroyLock, ServerRelease, ServerAcquire.
  rewrite (valid_lock s ll lc lm i Hwf), (valid_lock s' _ lc lm i Hwf'), Ht, Ht'. cbn [rbind negb].
  rewrite He. cbn [rbind]. rewrite HL. cbn [deref rbind].
  rewrite (bool_decide_eq_false_2 (le_acquireCount e = 0)) by done. rewrite andb_false_r. cbn [negb].
  rewrite Hd. by split_and!.
Qed.

(** broadcasting. With the lock the condition's waiters wait with,
    [ServerBroadcast] answers each of them once, in the order they came, with
    the result -1, and leaves nobody waiting. With any other lock number and
    somebody waiting, the loop never removes a waiter: it does not end, however
    many rounds it is given. *)
Theorem Broadcast_answers_all_or_spins (s : Tables B) ll lc lm m b i l e C :
  wf s ll lc lm -> taken lc i = true -> i < MAX_SERVER_CVS -> l <> -1 ->
  serverConditionTable s !! Z.to_nat i = Some e -> ce_condition e = Some C -> sc_queue C <> [] ->
  (sc_waitingLock C = l -> exists s' C',
     ServerBroadcast m b i l s =
       Ok (s', (fun cr => mkResponse (machineID cr) (mailboxNumber cr) (-1)) <$> sc_queue C) /\
     cond_at s' i = Ok C' /\ sc_queue C' = [] /\ wf s' ll lc lm) /\
  (sc_waitingLock C <> l -> ServerBroadcast m b i l s = Fault OutOfFuel /\
     forall fuel, broadcast_rounds fuel m b l C = Fault OutOfFuel).
Proof.
  intros Hwf Ht Hi Hl1 Hl HC Hq.
  destruct (cond_entry s ll lc lm i Hwf Ht) as (e1 & C1 & He & Hl2 & HC1 & Hn & Hw). simplify_eq.
  assert (lc <> []) as Hne by (by destruct lc; [rewrite taken_true in Ht; destruct Ht|]).
  unfold ServerBroadcast. rewrite (valid_cond_low s ll lc lm i Hwf Hne Hi), Ht. cbn [rbind negb].
  rewrite He. cbn [rbind]. rewrite HC. cbn [deref rbind]. split.
  - intros Hlk. destruct (broadcast_rounds_all m b l (sc_queue C) C eq_refl (fun _ => Hlk) Hl1)
      as (C' & -> & Hq' & Hnm). cbn [rbind].
    destruct (set_cond_wf s ll lc lm i e (mkCondEntry (Some C') (ce_isToBeDeleted e)) Hwf Ht Hl)
      as (s' & -> & Hwf' & ->).
    { exists C'. split_and!; [done|congruence|by intros _]. } { unfold cond_ename. rewrite HC. simpl. congruence. }
    cbn [rbind]. eexists _, C'. split; [reflexivity|]. split_and!; try done.
    unfold cond_at. cbn [serverConditionTable set_conds].
    destruct (arr_get_in (serverConditionTable s) i) as (? & _ & _).
    { apply arr_get_Ok in He as [? ?%lookup_lt_Some]. lia. }
    apply arr_get_Ok in He as [H0 He]. pose proof (lookup_lt_Some _ _ _ He).
    rewrite (arr_get_lookup _ _ (mkCondEntry (Some C') (ce_isToBeDeleted e))); [done|done|].
    by apply list_lookup_insert_eq.
  - intros Hlk. split; [|intros; by apply broadcast_rounds_wrong].
    by rewrite (broadcast_rounds_wrong m b l C).
Qed.
End Requests.

(** object numbers on the wire. A number that a server makes of its own
    machine id and a slot of its table, stored in a message with [compressInt]
    and read back with [extractInt], names the same machine and slot, for every
    buffer with room for four bytes, as long as the product fits an [int]; the
    bytes around it are untouched. *)
Theorem object_numbers_roundtrip myMachineID i dest off :
  0 <= myMachineID -> 0 <= i < MAX_SERVER_LOCKS -> in_i32 (encodeIndex myMachineID i) ->
  0 <= off -> off + 4 <= Z.of_nat (length dest) ->
  exists d v, compressInt (encodeIndex myMachineID i) dest off = Ok d /\ extractInt d off = Ok v /\
    decodeMachineIDFromLockNumber v = myMachineID /\ decodeMachineIDFromCVNumber v = myMachineID /\
    decodeMachineIDFromMVNumber v = myMachineID /\ decodeIndex myMachineID v = i /\
    forall k, 0 <= k -> ~ (off <= k < off + 4) -> arr_get d k = arr_get dest k.
Proof.
  intros Hm Hi Hr H0 Hl.
  destruct (compressInt_spec (encodeIndex myMachineID i) dest off H0 Hl) as (d & Hd & _ & Hg).
  exists d, (encodeIndex myMachineID i). split; [done|]. split; [by eapply extract_compress|].
  assert (Z.quot (encodeIndex myMachineID i) 500 = myMachineID) as Hq.
  { unfold encodeIndex, MAX_SERVER_LOCKS in *. rewrite Z.quot_div_nonneg by lia.
    rewrite Z.div_add_l by lia. rewrite Z.div_small by lia. lia. }
  split_and!; [done..| |].
  - unfold decodeIndex, encodeIndex, MAX_SERVER_LOCKS. lia.
  - intros k Hk Ho. rewrite Hg by done. by rewrite decide_False.
Qed.

(** ** Witnesses *)
(** Uninitialised memory and the name of the demonstration. *)
Definition demo_garbage : nat -> Z := fun _ => 7.
Definition demo_name : list Z := [76; 0].

Definition state_after {S A} (d : S) (m : res (S * A)) : S := match m with Ok (s, _) => s | Fault _ => d end.

(** One lock, one condition and one array, created on the empty tables. *)
Definition demo_tables : Tables BitMap :=
  let s1 := state_after Tables_init (ServerCreateLock demo_garbage demo_name Tables_init) in
  let s2 := state_after s1 (ServerCreateCV demo_garbage demo_name s1) in
  state_after s2 (ServerCreateMV demo_garbage demo_name 3 9 s2).

Definition demo_slots : list bool := <[0%nat := true]> (replicate 500 false).

Lemma demo_lock_wf : wf (state_after Tables_init (ServerCreateLock demo_garbage demo_name (Tables_init (B:=BitMap)))) demo_slots [] [].
Proof.
  destruct (ServerCreateLock_created demo_garbage _ _ _ _ demo_name (wf_init (B:=BitMap))) as (s0 & l0 & s1 & l1 & i & Hi & Hw0 & H1 & Hw1 & HC & _ & F1).
  { right; left. }
  rewrite H1. cbn [state_after]. replace demo_slots with l1; [done|].
  rewrite F1 in HC by done. destruct HC as [(k0 & e0 & _ & Hlk & _)|[_ HF]].
  - by apply lookup_replicate in Hlk as [? _].
  - by destruct HF as (_ & _ & ->).
Qed.

Lemma demo_wf : wf demo_tables demo_slots demo_slots demo_slots.
Proof.
  assert (terminated demo_name) as Hn by (right; left).
  unfold demo_tables.
  destruct (ServerCreateLock_created demo_garbage _ _ _ _ demo_name wf_init Hn) as (s0 & l0 & s1 & l1 & i & Hi & Hw0 & H1 & Hw1 & HC & _ & F1).
  rewrite H1. cbn [state_after].
  destruct (ServerCreateCV_created demo_garbage _ _ _ _ demo_name Hw1 Hn) as (s20 & l20 & s2 & l2 & i2 & Hi2 & Hw20 & H2 & Hw2 & HC2 & _ & F2).
  rewrite H2. cbn [state_after].
  destruct (ServerCreateMV_created demo_garbage _ _ _ _ demo_name 3 9 Hw2 Hn) as (s30 & l30 & s3 & l3 & i3 & Hi3 & Hw30 & H3 & Hw3 & HC3 & _ & F3); [by split|].
  rewrite H3. cbn [state_after].
  assert (forall E (en : E -> list Z) t n0 (e : E) t' l0 l' k, l0 = replicate 500 false ->
    created en t l0 n0 e t' l' k -> l' = demo_slots) as Hnew.
  { intros E en t n0 e t' l0' l' k -> [(k0 & e0 & _ & Hlk & _)|[_ HF]].
    - by apply lookup_replicate in Hlk as [? _].
    - by destruct HF as (_ & _ & ->). }
  rewrite <-(Hnew _ _ _ _ _ _ _ _ _ (F1 eq_refl) HC), <-(Hnew _ _ _ _ _ _ _ _ _ (F2 eq_refl) HC2) at 1.
  by rewrite <-(Hnew _ _ _ _ _ _ _ _ _ (F3 eq_refl) HC3).
Qed.

Lemma demo_acquired : wf (state_after demo_tables (ServerAcquire 1 2 0 demo_tables)) demo_slots demo_slots demo_slots.
Proof.
  destruct (ServerAcquire_spec demo_tables _ _ _ 1 2 0 demo_wf) as (s' & r & H & Hw & _). by rewrite H.
Qed.

Lemma demo_waited : wf (state_after demo_tables (ServerWait 1 2 0 7 demo_tables)) demo_slots demo_slots demo_slots.
Proof.
  unfold ServerWait. rewrite (valid_cond_low _ _ _ _ 0 demo_wf) by done. cbn [rbind].
  change (taken demo_slots 0) with true. cbn [negb].
  destruct (cond_entry _ _ _ _ 0 demo_wf eq_refl) as (e & C & He & Hl & HC & Hn & Hw). rewrite He. cbn [rbind].
  rewrite HC. cbn [deref rbind].
  destruct (sc_Wait_good C 7 (ClientRequest_new 1 2) Hw) as [Hnm Hw']; [done|].
  assert (e = mkCondEntry (Some (ServerCondition_new demo_name)) false) as ->.
  { assert (Ok e = Ok (mkCondEntry (Some (ServerCondition_new demo_name)) false)) as [=]; [|done].
    rewrite <-He. by vm_compute. }
  simpl in HC. injection HC as <-.
  destruct (sc_Wait (ServerCondition_new demo_name) 7 (ClientRequest_new 1 2)) as [C' cr] eqn:HW. cbn [fst snd ce_isToBeDeleted andb] in *.
  edestruct (set_cond_wf demo_tables _ _ _ 0 _ (mkCondEntry (Some C') false) demo_wf eq_refl Hl) as (s' & -> & Hwf' & _).
  { exists C'. split_and!; [done|congruence|done]. } { unfold cond_ename. simpl. rewrite Hnm. reflexivity. }
  exact Hwf'.
Qed.

Example tables_invariant_witness : exists s', table_exec (fun _ => 7) (TAcquire 1 2 0) demo_tables = Ok s'.
Proof.
  destruct (tables_invariant (fun _ => 7) (TAcquire 1 2 0) demo_tables _ _ _ demo_wf I) as (s' & _ & _ & _ & H & _).
  exists s'. exact H.
Defined.

Example create_by_name_witness : exists s' i, ServerCreateLock (fun _ => 7) [77; 0] demo_tables = Ok (s', i).
Proof.
  destruct (create_by_name (fun _ => 7) demo_tables _ _ _ [77; 0] 2 0 demo_wf) as ((s' & l & i & H & _) & _).
  - discriminate.
  - discriminate.
  - discriminate.
  - right; left.
  - split; discriminate.
  - exists s', i. exact H.
Defined.

Example GetMV_after_SetMV_witness :
  exists s', ServerSetMV 0 1 33 demo_tables = Ok (s', tt) /\ ServerGetMV 0 1 s' = Ok 33.
Proof.
  destruct (GetMV_after_SetMV demo_tables _ _ _ 0 1 33 demo_wf) as (s' & H & _ & Hg).
  exists s'. split; [exact H|]. rewrite Hg. vm_compute. reflexivity.
Defined.

Example DestroyLock_deletes_held_lock_witness :
  exists s', ServerDestroyLock 0 (state_after demo_tables (ServerAcquire 1 2 0 demo_tables)) = Ok (s', tt) /\
    ServerRelease 1 2 0 s' = Ok (s', None).
Proof.
  destruct (DestroyLock_deletes_held_lock _ _ _ _ 0
    (mkLockEntry (Some (mkServerLock [76; 0] BUSY [] (Some (mkRequest 1 2 true)))) false 1)
    (mkServerLock [76; 0] BUSY [] (Some (mkRequest 1 2 true))) [(1, 2)] 1 2 demo_acquired) as (s' & H & _ & Hr & _).
  - reflexivity.
  - vm_compute. reflexivity.
  - reflexivity.
  - repeat split.
  - discriminate.
  - discriminate.
  - exists s'. split; [exact H|exact Hr].
Defined.

Example Broadcast_answers_all_or_spins_witness :
  ServerBroadcast 3 4 0 8 (state_after demo_tables (ServerWait 1 2 0 7 demo_tables)) = Fault OutOfFuel.
Proof.
  apply (Broadcast_answers_all_or_spins _ _ _ _ 3 4 0 8
    (mkCondEntry (Some (mkServerCondition [76; 0] [mkRequest 1 2 false] 7)) false)
    (mkServerCondition [76; 0] [mkRequest 1 2 false] 7) demo_waited).
  - reflexivity.
  - reflexivity.
  - discriminate.
  - vm_compute. reflexivity.
  - reflexivity.
  - discriminate.
  - discriminate.
Defined.

Example object_numbers_roundtrip_witness :
  exists d v, compressInt (encodeIndex 3 42) (replicate 8 9) 2 = Ok d /\ extractInt d 2 = Ok v /\ decodeIndex 3 v = 42.
Proof.
  destruct (object_numbers_roundtrip 3 42 (replicate 8 9) 2) as (d & v & H1 & H2 & _ & _ & _ & H3 & _).
  - lia.
  - vm_compute. split; [discriminate|reflexivity].
  - vm_compute. split; [discriminate|reflexivity].
  - lia.
  - vm_compute. discriminate.
  - exists d, v. split; [exact H1|]. split; [exact H2|exact H3].
Defined.
