(* ===== verification/Server.v ===== *)
(** * network/server.cc: the message handlers of the distributed lock server

    Every server runs two loops: [Server], on mailbox 0, serves clients and
    forwards what another machine may own to its own mailbox 1;
    [ServerToServerMessageHandler], on mailbox 1, asks the other servers and
    answers their questions. One iteration of each is a function from the
    message that was received to the new state; the messages it sends are
    appended to [sent]. [myMachineID] and [totalNumServers] are set from the
    command line; the contents of fresh buffers, of fresh bitmaps and the
    padding of a received message are parameters. A [PacketHeader], a
    [MailHeader] and a buffer belong to one message and are kept as values;
    a local that is read before it is assigned faults with [Uninitialised]. *)
From S2P Require Import Prelude CStrings BitMap Post Threads ServerSync ServerTables.

(** ** messagetypes.h: the ASCII codes of the message types *)
Definition CREATE_LOCK : Z := 97.
Definition DESTROY_LOCK : Z := 98.
Definition ACQUIRE : Z := 99.
Definition RELEASE : Z := 100.
Definition CREATE_CV : Z := 101.
Definition DESTROY_CV : Z := 102.
Definition SIGNAL : Z := 103.
Definition WAIT : Z := 104.
Definition BROADCAST : Z := 105.
Definition CREATE_MV : Z := 106.
Definition DESTROY_MV : Z := 107.
Definition GET_MV : Z := 108.
Definition SET_MV : Z := 109.
Definition DO_YOU_HAVE_LOCK : Z := 110.
Definition HAVE_LOCK : Z := 111.
Definition DO_NOT_HAVE_LOCK : Z := 112.
Definition DO_YOU_HAVE_CV : Z := 113.
Definition HAVE_CV : Z := 114.
Definition DO_NOT_HAVE_CV : Z := 115.
Definition DO_YOU_HAVE_MV : Z := 116.
Definition HAVE_MV : Z := 117.
Definition DO_NOT_HAVE_MV : Z := 118.
Definition DO_YOU_HAVE_LOCK_NAME : Z := 119.
Definition DO_YOU_HAVE_CV_NAME : Z := 120.
Definition DO_YOU_HAVE_MV_NAME : Z := 121.
Definition DOES_CLIENT_HAVE_LOCK : Z := 122.
Definition CV_LOCK_TRACKER_RESPONSE : Z := 65.
Definition HAVE_LOCK_NAME : Z := 66.
Definition HAVE_CV_NAME : Z := 67.
Definition HAVE_MV_NAME : Z := 68.
Definition DO_NOT_HAVE_LOCK_NAME : Z := 69.
Definition DO_NOT_HAVE_CV_NAME : Z := 70.
Definition DO_NOT_HAVE_MV_NAME : Z := 71.
Definition NO_ACTION : Z := 0xff.

Inductive ServerAction :=
  | Query_All_Servers | Respond_Once_To_Server | Respond_Once_To_Client
  | Do_Bookkeeping | No_Action | Create_Query.

(** The enumerators [Lock], [CV], [MV] of [StructureType]. *)
Inductive StructureType := TLock | TCV | TMV.
#[global] Instance StructureType_eq_dec : EqDecision StructureType.
Proof. solve_decision. Defined.

Record ResponseQueueEntry := mkResponseQueueEntry {
  replyMachine : Z;
  replyMailbox : Z;
  replyMessageID : Z
}.

(** [qs_type] is [None] before it is assigned. *)
Record QueryStatus := mkQueryStatus {
  packetHeader : PacketHeader;
  mailHeader : MailHeader;
  qs_data : list Z;
  numResponsesReceived : Z;
  qs_id : Z;
  qs_type : option StructureType
}.

Record PendingCreate := mkPendingCreate {
  pc_name : list Z;
  pc_type : StructureType;
  responseTracker : list bool;
  waitingClients : list QueryStatus;
  serverResponseQueue : list ResponseQueueEntry;
  numResponses : Z;
  pc_ID : Z
}.

Record CVLockTracker := mkCVLockTracker {
  clientMachineID : Z;
  clientMailbox : Z;
  cvNum : Z;
  lockNum : Z;
  cvlt_messageType : Z
}.

Section Server.
  Context {B : Type} `{BA : BitAllocator B}.
  Context (myMachineID totalNumServers : Z).
  (** Uninitialised memory: of bitmaps and of [char] buffers. *)
  Context (garbage : nat -> Z) (gbuf : nat -> Z).

Record Srv := mkSrv {
  tables : Tables B;
  necessaryResponses : list ServerResponse;
  cvLockTrackerList : list CVLockTracker;
  pendingCreates : list PendingCreate;
  queryQueue : list QueryStatus;
  nextQueryID : Z;
  sent : list Wire
}.

Definition Srv_init : Srv := mkSrv Tables_init [] [] [] [] 0 [].

Abbreviation H := (ST Srv).

Definition set_tables (t : Tables B) (s : Srv) : Srv :=
  mkSrv t (necessaryResponses s) (cvLockTrackerList s) (pendingCreates s) (queryQueue s) (nextQueryID s) (sent s).
Definition set_responses (r : list ServerResponse) (s : Srv) : Srv :=
  mkSrv (tables s) r (cvLockTrackerList s) (pendingCreates s) (queryQueue s) (nextQueryID s) (sent s).
Definition set_trackers (l : list CVLockTracker) (s : Srv) : Srv :=
  mkSrv (tables s) (necessaryResponses s) l (pendingCreates s) (queryQueue s) (nextQueryID s) (sent s).
Definition set_pending (l : list PendingCreate) (s : Srv) : Srv :=
  mkSrv (tables s) (necessaryResponses s) (cvLockTrackerList s) l (queryQueue s) (nextQueryID s) (sent s).
Definition set_queries (l : list QueryStatus) (s : Srv) : Srv :=
  mkSrv (tables s) (necessaryResponses s) (cvLockTrackerList s) (pendingCreates s) l (nextQueryID s) (sent s).
Definition set_nextQueryID (n : Z) (s : Srv) : Srv :=
  mkSrv (tables s) (necessaryResponses s) (cvLockTrackerList s) (pendingCreates s) (queryQueue s) n (sent s).
Definition set_sent (l : list Wire) (s : Srv) : Srv :=
  mkSrv (tables s) (necessaryResponses s) (cvLockTrackerList s) (pendingCreates s) (queryQueue s) (nextQueryID s) l.

(** An operation of ServerTables. *)
Definition on_tables {A} (c : ST (Tables B) A) : H A := fun s =>
  let* '(t, a) := c (tables s) in Ok (set_tables t s, a).
Definition read_tables {A} (f : Tables B -> res A) : H A := fun s =>
  let* a := f (tables s) in Ok (s, a).

(** The 100 mailboxes of system.cc. *)
Definition numBoxes : Z := 100.

Definition Send (pktH : PacketHeader) (mailH : MailHeader) (d : list Z) : H unit := fun s =>
  let* w := PostOffice_Send numBoxes pktH mailH d in Ok (set_sent (sent s ++ [w]) s, tt).

(** A buffer of [n] bytes from [new char[n]]; a negative size throws. *)
Definition new_chars (n : Z) : res (list Z) :=
  if decide (n < 0) then Fault OutOfBounds else Ok (gbuf <$> seq 0 (Z.to_nat n)).

(** The buffer [PostOffice::Receive] fills: the message, then what was there. *)
Definition receive_buffer (d : list Z) : list Z :=
  d ++ (gbuf <$> seq (length d) (Z.to_nat MaxMailSize - length d)).

(** [char* name = new char[n]; strncpy(name, src + off, n)] *)
Definition copy_name (n : Z) (src : list Z) (off : Z) : res (list Z) :=
  if decide (n < 0) then Fault OutOfBounds else strncpy (Z.to_nat n) src off.

Definition sendMessageWithData (fromMachine fromMailbox toMachine toMailbox dataLength : Z) (d : list Z) : H unit :=
  responseData <- lift (bcopy d dataLength) ;;
  Send (mkPacketHeader toMachine fromMachine 0) (mkMailHeader toMailbox fromMailbox dataLength) responseData.

Definition encode (i : Z) : Z := encodeIndex myMachineID i.
Definition decode (n : Z) : Z := decodeIndex myMachineID n.

Definition push (r : ServerResponse) : H unit := modify (fun s => set_responses (necessaryResponses s ++ [r]) s).

Definition getType (messageType : Z) : StructureType :=
  if bool_decide (messageType ∈ [CREATE_LOCK; DESTROY_LOCK; ACQUIRE; RELEASE]) then TLock
  else if bool_decide (messageType ∈ [CREATE_CV; DESTROY_CV; SIGNAL; BROADCAST; WAIT]) then TCV
  else if bool_decide (messageType ∈ [CREATE_MV; DESTROY_MV; SET_MV; GET_MV]) then TMV
  else TLock.

(** ** Pending creates *)

Definition take_query_id : H Z := fun s => Ok (set_nextQueryID (i32 (nextQueryID s + 1)) s, nextQueryID s).

Definition QueryStatus_new (ph : PacketHeader) (mh : MailHeader) (inData : list Z) : H QueryStatus :=
  id <- take_query_id ;;
  sret (mkQueryStatus ph mh inData 0 id None).

Definition PendingCreate_new (n : list Z) (t : StructureType) : H PendingCreate :=
  tracker <- lift (if decide (totalNumServers < 0) then Fault OutOfBounds
                   else arr_set (replicate (Z.to_nat totalNumServers) false) myMachineID true) ;;
  id <- take_query_id ;;
  sret (mkPendingCreate n t tracker [] [] 0 id).

(** [!strcmp(name, otherName) && structType == type] *)
Definition isAMatch (pc : PendingCreate) (otherName : list Z) (structType : StructureType) : res bool :=
  let* eq := strcmp_eq (pc_name pc) otherName in
  Ok (eq && bool_decide (structType = pc_type pc)).

(** The first pending create that matches, with its index. *)
Fixpoint find_match (i : nat) (l : list PendingCreate) (name : list Z) (t : StructureType) :
    res (option (nat * PendingCreate)) :=
  match l with
  | [] => Ok None
  | pc :: l =>
      let* b := isAMatch pc name t in
      if b : bool then Ok (Some (i, pc)) else find_match (S i) l name t
  end.

Fixpoint forwardWaitingClientMessagesToServer (clients : list QueryStatus) (recipientMachine : Z) : H unit :=
  match clients with
  | [] => sret tt
  | q :: clients =>
      Send (mkPacketHeader recipientMachine (pkt_from (packetHeader q)) (pkt_length (packetHeader q)))
           (mkMailHeader 1 (mail_from (mailHeader q)) (mail_length (mailHeader q))) (qs_data q) ;;;
      forwardWaitingClientMessagesToServer clients recipientMachine
  end.

Fixpoint messageBackClients (clients : list QueryStatus) (encodedIndex : Z) : H unit :=
  match clients with
  | [] => sret tt
  | q :: clients =>
      d <- lift (compressInt encodedIndex (qs_data q) 0) ;;
      Send (mkPacketHeader (pkt_from (packetHeader q)) myMachineID (pkt_length (packetHeader q)))
           (mkMailHeader (mail_from (mailHeader q)) 1 4) d ;;;
      messageBackClients clients encodedIndex
  end.

Fixpoint notifyServersOfCreation (queue : list ResponseQueueEntry) (outData : list Z) : H unit :=
  match queue with
  | [] => sret tt
  | e :: queue =>
      d <- lift (compressInt (replyMessageID e) outData 1) ;;
      Send (mkPacketHeader (replyMachine e) myMachineID 0) (mkMailHeader (replyMailbox e) 1 5) d ;;;
      notifyServersOfCreation queue d
  end.

Definition set_waiting (pc : PendingCreate) (l : list QueryStatus) : PendingCreate :=
  mkPendingCreate (pc_name pc) (pc_type pc) (responseTracker pc) l (serverResponseQueue pc) (numResponses pc) (pc_ID pc).
Definition set_queue (pc : PendingCreate) (l : list ResponseQueueEntry) : PendingCreate :=
  mkPendingCreate (pc_name pc) (pc_type pc) (responseTracker pc) (waitingClients pc) l (numResponses pc) (pc_ID pc).
Definition count_response (pc : PendingCreate) (tracker : list bool) : PendingCreate :=
  mkPendingCreate (pc_name pc) (pc_type pc) tracker (waitingClients pc) (serverResponseQueue pc)
    (i32 (numResponses pc + 1)) (pc_ID pc).

Definition put_pending (i : nat) (pc : PendingCreate) : H unit :=
  modify (fun s => set_pending (<[i := pc]> (pendingCreates s)) s).

Definition dont_have_name (t : StructureType) : Z :=
  match t with TLock => DO_NOT_HAVE_LOCK_NAME | TCV => DO_NOT_HAVE_CV_NAME | TMV => DO_NOT_HAVE_MV_NAME end.
Definition have_name (t : StructureType) : Z :=
  match t with TLock => HAVE_LOCK_NAME | TCV => HAVE_CV_NAME | TMV => HAVE_MV_NAME end.

(** The search goes on past a match whose [responseTracker] is not set. *)
Fixpoint search_pending (i : nat) (l : list PendingCreate) (name : list Z) (t : StructureType) (from : Z)
    (pc : option (nat * PendingCreate)) : res (option (nat * PendingCreate) * bool) :=
  match l with
  | [] => Ok (pc, false)
  | p :: l =>
      let* b := isAMatch p name t in
      if b : bool then
        let* told := arr_get (responseTracker p) from in
        if told : bool then Ok (Some (i, p), true) else search_pending (S i) l name t from (Some (i, p))
      else search_pending (S i) l name t from pc
  end.

(** The action and, when it is an answer, its message type. *)
Definition determineResponseToCreateRequest (type : StructureType) (name : list Z)
    (ph : PacketHeader) (mh : MailHeader) (inData : list Z) (outData : list Z) : H (ServerAction * list Z) :=
  s <- get ;;
  found <- lift (search_pending 0 (pendingCreates s) name type (pkt_from ph) None) ;;
  match found with
  | (None, _) =>
      o <- lift (arr_set outData 0 (dont_have_name type)) ;; sret (Respond_Once_To_Server, o)
  | (Some (i, pc), receivedResponse) =>
      if receivedResponse || bool_decide (myMachineID < pkt_from ph) then
        id <- lift (extractInt inData 1) ;;
        put_pending i (set_queue pc (serverResponseQueue pc ++
          [mkResponseQueueEntry (pkt_from ph) (mail_from mh) id])) ;;;
        sret (No_Action, outData)
      else
        o <- lift (arr_set outData 0 (dont_have_name type)) ;; sret (Respond_Once_To_Server, o)
  end.

(** ** Mailbox 1: [ServerToServerMessageHandler]

    A handler returns the action, the contents of [outData] and the length put
    in [outMailHeader]. [outData] starts as a fresh buffer. *)
Definition Out : Type := ServerAction * list Z * Z.

Definition fresh : list Z := gbuf <$> seq 0 (Z.to_nat MaxMailSize).

(** Garbage of [outMailHeader->length], for the actions that do not use it. *)
Definition unset_length : Z := gbuf 0.

(** DO_YOU_HAVE_LOCK, _CV, _MV: the guard is [index > 0]. *)
Definition handle_DO_YOU_HAVE (size : Tables B -> Z) (map : Tables B -> option B) (have havent : Z)
    (inData : list Z) : H Out :=
  n <- lift (extractInt inData 5) ;;
  let index := decode n in
  yes <- read_tables (fun t => if decide (index > 0 /\ index < size t) then map_test (map t) index else Ok false) ;;
  o <- lift (arr_set fresh 0 (if yes : bool then have else havent)) ;;
  sret (Respond_Once_To_Server, o, 5).

(** DO_YOU_HAVE_LOCK_NAME, _CV_NAME, _MV_NAME *)
Definition handle_DO_YOU_HAVE_NAME (t : StructureType) (check : list Z -> Tables B -> res Z)
    (ph : PacketHeader) (mh : MailHeader) (inData : list Z) : H Out :=
  nameLength <- lift (arr_get inData 5) ;;
  name <- lift (copy_name nameLength inData 6) ;;
  i <- read_tables (check name) ;;
  if decide (i <> -1) then
    o <- lift (arr_set fresh 0 (have_name t)) ;; sret (Respond_Once_To_Server, o, 5)
  else
    r <- determineResponseToCreateRequest t name ph mh inData fresh ;;
    sret (r.1, r.2, 5).

Fixpoint find_pending_id (i : nat) (l : list PendingCreate) (id : Z) : option (nat * PendingCreate) :=
  match l with
  | [] => None
  | pc :: l => if decide (pc_ID pc = id) then Some (i, pc) else find_pending_id (S i) l id
  end.

(** HAVE_LOCK_NAME, HAVE_CV_NAME, HAVE_MV_NAME *)
Definition handle_HAVE_NAME (ph : PacketHeader) (inData : list Z) : H Out :=
  id <- lift (extractInt inData 1) ;;
  s <- get ;;
  match find_pending_id 0 (pendingCreates s) id with
  | Some (i, pc) =>
      forwardWaitingClientMessagesToServer (waitingClients pc) (pkt_from ph) ;;;
      modify (fun s => set_pending (delete i (pendingCreates s)) s) ;;;
      sret (No_Action, fresh, unset_length)
  | None => sret (No_Action, fresh, unset_length)
  end.

(** Creating the object for the first client that waits for it: its index. *)
Definition create_pending (t : StructureType) (q : QueryStatus) : H Z :=
  match t with
  | TLock =>
      n <- lift (arr_get (qs_data q) 1) ;; name <- lift (copy_name n (qs_data q) 2) ;;
      on_tables (ServerCreateLock garbage name)
  | TCV =>
      n <- lift (arr_get (qs_data q) 1) ;; name <- lift (copy_name n (qs_data q) 2) ;;
      on_tables (ServerCreateCV garbage name)
  | TMV =>
      n <- lift (arr_get (qs_data q) 9) ;; name <- lift (copy_name n (qs_data q) 10) ;;
      numEntries <- lift (extractInt (qs_data q) 1) ;;
      val <- lift (extractInt (qs_data q) 5) ;;
      on_tables (ServerCreateMV garbage name numEntries val)
  end.

(** DO_NOT_HAVE_LOCK_NAME, _CV_NAME, _MV_NAME. [temp] is not initialised and
    is read when no pending create has the id. *)
Definition handle_DO_NOT_HAVE_NAME (ph : PacketHeader) (inData : list Z) : H Out :=
  id <- lift (extractInt inData 1) ;;
  s <- get ;;
  match find_pending_id 0 (pendingCreates s) id with
  | None => fail Uninitialised
  | Some (i, pc) =>
      tracker <- lift (arr_set (responseTracker pc) (pkt_from ph) true) ;;
      let pc := count_response pc tracker in
      put_pending i pc ;;;
      if decide (numResponses pc = totalNumServers - 1) then
        q <- lift (deref (head (waitingClients pc))) ;;
        index <- create_pending (pc_type pc) q ;;
        o <- lift (arr_set fresh 0 (have_name (pc_type pc))) ;;
        notifyServersOfCreation (serverResponseQueue pc) o ;;;
        messageBackClients (waitingClients pc) (encode index) ;;;
        modify (fun s => set_pending (delete i (pendingCreates s)) s) ;;;
        sret (No_Action, o, unset_length)
      else sret (No_Action, fresh, unset_length)
  end.

(** The query a create sends: type, id, name length, name. *)
Definition create_query (type nameLength : Z) (inData : list Z) : res (list Z) :=
  let* o := arr_set fresh 0 type in
  let* o := arr_set o 5 nameLength in
  let* name := copy_name nameLength inData 2 in
  store o 6 name.

(** CREATE_LOCK, CREATE_CV and CREATE_MV, whose name starts at [off] + 1 after
    its length at [off]; the query's name is read at 2 for all three. The id of
    the pending create is taken before or after that of the waiting client's
    [QueryStatus]: always before. *)
Definition handle_CREATE (t : StructureType) (check : list Z -> Tables B -> res Z) (queryType off : Z)
    (ph : PacketHeader) (mh : MailHeader) (inData : list Z) : H Out :=
  nameLength <- lift (arr_get inData off) ;;
  name <- lift (copy_name nameLength inData (off + 1)) ;;
  i <- read_tables (check name) ;;
  if decide (i <> -1) then
    o <- lift (compressInt (encode i) fresh 0) ;; sret (Respond_Once_To_Client, o, unset_length)
  else
    o <- lift (create_query queryType nameLength inData) ;;
    s <- get ;;
    found <- lift (find_match 0 (pendingCreates s) name t) ;;
    match found with
    | Some (k, pc) =>
        q <- QueryStatus_new ph mh inData ;;
        put_pending k (set_waiting pc (waitingClients pc ++ [q])) ;;;
        sret (No_Action, o, 6 + nameLength)
    | None =>
        pc <- PendingCreate_new name t ;;
        q <- QueryStatus_new ph mh inData ;;
        modify (fun s => set_pending (pendingCreates s ++ [set_waiting pc (waitingClients pc ++ [q])]) s) ;;;
        o <- lift (compressInt (pc_ID pc) o 1) ;;
        sret (Create_Query, o, 6 + nameLength)
    end.

(** ACQUIRE, SIGNAL, GET_MV, ...: who has the object at data[1:4]? *)
Definition handle_query (type : Z) (inData : list Z) : H Out :=
  o <- lift (arr_set fresh 0 type) ;;
  n <- lift (extractInt inData 1) ;;
  o <- lift (compressInt n o 5) ;;
  sret (Query_All_Servers, o, 9).

Fixpoint find_query (i : nat) (l : list QueryStatus) (id : Z) : option (nat * QueryStatus) :=
  match l with
  | [] => None
  | q :: l => if decide (qs_id q = id) then Some (i, q) else find_query (S i) l id
  end.

(** HAVE_LOCK, HAVE_CV, HAVE_MV: the client's message goes to that server. *)
Definition handle_HAVE (ph : PacketHeader) (inData : list Z) : H Out :=
  id <- lift (extractInt inData 1) ;;
  s <- get ;;
  match find_query 0 (queryQueue s) id with
  | Some (i, q) =>
      Send (mkPacketHeader (pkt_from ph) (pkt_from (packetHeader q)) (pkt_length (packetHeader q)))
           (mkMailHeader 0 (mail_from (mailHeader q)) (mail_length (mailHeader q))) (qs_data q) ;;;
      modify (fun s => set_queries (delete i (queryQueue s)) s) ;;;
      sret (Do_Bookkeeping, fresh, unset_length)
  | None => sret (Do_Bookkeeping, fresh, unset_length)
  end.

(** DO_NOT_HAVE_LOCK, _CV, _MV: the loop leaves after the first query. *)
Definition handle_DO_NOT_HAVE (inData : list Z) : H Out :=
  id <- lift (extractInt inData 1) ;;
  s <- get ;;
  match queryQueue s with
  | q :: qs =>
      if decide (qs_id q = id) then
        put (set_queries (mkQueryStatus (packetHeader q) (mailHeader q) (qs_data q)
               (i32 (numResponsesReceived q + 1)) (qs_id q) (qs_type q) :: qs) s) ;;;
        sret (No_Action, fresh, unset_length)
      else sret (No_Action, fresh, unset_length)
  | [] => sret (No_Action, fresh, unset_length)
  end.

(** The switch on the message type; [action] is not set by its default. *)
Definition handle_server_message (ph : PacketHeader) (mh : MailHeader) (inData : list Z) : H Out :=
  ty <- lift (arr_get inData 0) ;;
  if decide (ty = DO_YOU_HAVE_LOCK) then handle_DO_YOU_HAVE serverLockArraySize serverLockMap HAVE_LOCK DO_NOT_HAVE_LOCK inData
  else if decide (ty = DO_YOU_HAVE_CV) then handle_DO_YOU_HAVE serverConditionArraySize serverConditionMap HAVE_CV DO_NOT_HAVE_CV inData
  else if decide (ty = DO_YOU_HAVE_MV) then handle_DO_YOU_HAVE serverMVArraySize serverMVMap HAVE_MV DO_NOT_HAVE_MV inData
  else if decide (ty = DO_YOU_HAVE_LOCK_NAME) then handle_DO_YOU_HAVE_NAME TLock checkIfLockExists ph mh inData
  else if decide (ty = DO_YOU_HAVE_CV_NAME) then handle_DO_YOU_HAVE_NAME TCV checkIfCVExists ph mh inData
  else if decide (ty = DO_YOU_HAVE_MV_NAME) then handle_DO_YOU_HAVE_NAME TMV checkIfMVExists ph mh inData
  else if decide (ty ∈ [HAVE_LOCK_NAME; HAVE_CV_NAME; HAVE_MV_NAME]) then handle_HAVE_NAME ph inData
  else if decide (ty ∈ [DO_NOT_HAVE_LOCK_NAME; DO_NOT_HAVE_CV_NAME; DO_NOT_HAVE_MV_NAME])
    then handle_DO_NOT_HAVE_NAME ph inData
  else if decide (ty = CREATE_LOCK) then handle_CREATE TLock checkIfLockExists DO_YOU_HAVE_LOCK_NAME 1 ph mh inData
  else if decide (ty = CREATE_CV) then handle_CREATE TCV checkIfCVExists DO_YOU_HAVE_CV_NAME 1 ph mh inData
  else if decide (ty = CREATE_MV) then handle_CREATE TMV checkIfMVExists DO_YOU_HAVE_MV_NAME 9 ph mh inData
  else if decide (ty ∈ [ACQUIRE; RELEASE; DESTROY_LOCK]) then handle_query DO_YOU_HAVE_LOCK inData
  else if decide (ty ∈ [DESTROY_CV; SIGNAL; WAIT; BROADCAST]) then handle_query DO_YOU_HAVE_CV inData
  else if decide (ty ∈ [DESTROY_MV; GET_MV; SET_MV]) then handle_query DO_YOU_HAVE_MV inData
  else if decide (ty ∈ [HAVE_LOCK; HAVE_CV; HAVE_MV]) then handle_HAVE ph inData
  else if decide (ty ∈ [DO_NOT_HAVE_LOCK; DO_NOT_HAVE_CV; DO_NOT_HAVE_MV]) then handle_DO_NOT_HAVE inData
  else fail Uninitialised.

(** [for(i = 0; i < totalNumServers; i++)], all but this one. *)
Fixpoint send_to_servers (ids : list Z) (len : Z) (outData : list Z) : H unit :=
  match ids with
  | [] => sret tt
  | i :: ids =>
      (if decide (i = myMachineID) then sret tt
       else Send (mkPacketHeader i myMachineID 0) (mkMailHeader 1 1 len) outData) ;;;
      send_to_servers ids len outData
  end.

(** The switch on the action. *)
Definition perform (a : ServerAction) (outData : list Z) (len : Z)
    (ph : PacketHeader) (mh : MailHeader) (inData : list Z) : H unit :=
  match a with
  | Respond_Once_To_Client =>
      Send (mkPacketHeader (pkt_from ph) myMachineID 0) (mkMailHeader (mail_from mh) 1 4) outData
  | Respond_Once_To_Server =>
      id <- lift (extractInt inData 1) ;;
      o <- lift (compressInt id outData 1) ;;
      Send (mkPacketHeader (pkt_from ph) myMachineID 0) (mkMailHeader (mail_from mh) (mail_to mh) len) o
  | Create_Query => send_to_servers (seqZ 0 totalNumServers) len outData
  | Query_All_Servers =>
      q <- QueryStatus_new ph mh inData ;;
      ty <- lift (arr_get inData 0) ;;
      let q := mkQueryStatus (packetHeader q) (mailHeader q) (qs_data q) (numResponsesReceived q) (qs_id q)
                 (Some (getType ty)) in
      o <- lift (compressInt (qs_id q) outData 1) ;;
      modify (fun s => set_nextQueryID (i32 (nextQueryID s + 1)) s) ;;;
      modify (fun s => set_queries (queryQueue s ++ [q]) s) ;;;
      send_to_servers (seqZ 0 totalNumServers) 9 o
  | No_Action | Do_Bookkeeping => sret tt
  end.

(** One iteration of the loop, on a message of the mailbox. *)
Definition ServerToServerMessageHandler (m : Mail) : H unit :=
  let inData := receive_buffer (mdata m) in
  r <- handle_server_message (pktHdr m) (mailHdr m) inData ;;
  perform r.1.1 r.1.2 r.2 (pktHdr m) (mailHdr m) inData.

(** ** Mailbox 0: [Server]

    A handler returns [respond]: whether the queue of responses is sent. *)

(** The request as received: sender, length and buffer. *)
Record Req := mkReq { rq_machine : Z; rq_mailbox : Z; rq_length : Z; rq_data : list Z }.

Definition req_of (m : Mail) : Req :=
  mkReq (pkt_from (pktHdr m)) (mail_from (mailHdr m)) (mail_length (mailHdr m)) (receive_buffer (mdata m)).

(** The [response] variable, to the sender and with -1 unless assigned. *)
Definition response (rq : Req) : ServerResponse := mkResponse (rq_machine rq) (rq_mailbox rq) (-1).
Definition response_data (rq : Req) (v : Z) : ServerResponse := mkResponse (rq_machine rq) (rq_mailbox rq) v.
Definition response_to (cr : ClientRequest) : ServerResponse := mkResponse (machineID cr) (mailboxNumber cr) (-1).

(** To the thread of mailbox 1, in the client's name. *)
Definition forward (rq : Req) : H bool :=
  sendMessageWithData (rq_machine rq) (rq_mailbox rq) myMachineID 1 (rq_length rq) (rq_data rq) ;;; sret false.

(** CREATE_LOCK, CREATE_CV, CREATE_MV: [create] is what a lone server does and
    [enc] whether it encodes the result. *)
Definition serve_CREATE (off : Z) (find : list Z -> Tables B -> res Z) (create : list Z -> ST (Tables B) Z)
    (enc : bool) (rq : Req) : H bool :=
  nameLength <- lift (arr_get (rq_data rq) off) ;;
  name <- lift (copy_name nameLength (rq_data rq) (off + 1)) ;;
  i <- read_tables (find name) ;;
  if decide (i <> -1) then push (response_data rq (encode i)) ;;; sret true
  else if decide (totalNumServers = 1) then
    i <- on_tables (create name) ;;
    push (response_data rq (if enc then encode i else i)) ;;; sret true
  else forward rq.

(** The search loops of the handlers run to the size of the table. *)
Definition find_lock (name : list Z) (t : Tables B) : res Z :=
  find_name (Z.to_nat (serverLockArraySize t)) 0 (serverLockMap t) (lock_name t) name.
Definition find_cv (name : list Z) (t : Tables B) : res Z :=
  find_name (Z.to_nat (serverConditionArraySize t)) 0 (serverConditionMap t) (cond_name t) name.
Definition find_mv (name : list Z) (t : Tables B) : res Z :=
  find_name (Z.to_nat (serverMVArraySize t)) 0 (serverMVMap t) (mv_name_at t) name.

Definition serve_CREATE_LOCK (rq : Req) : H bool := serve_CREATE 1 find_lock (ServerCreateLock garbage) false rq.
Definition serve_CREATE_CV (rq : Req) : H bool := serve_CREATE 1 find_cv (ServerCreateCV garbage) false rq.
Definition serve_CREATE_MV (rq : Req) : H bool :=
  numEntries <- lift (extractInt (rq_data rq) 1) ;;
  initialValue <- lift (extractInt (rq_data rq) 5) ;;
  serve_CREATE 9 find_mv (fun name => ServerCreateMV garbage name numEntries initialValue) true rq.

Definition serve_DESTROY_LOCK (rq : Req) : H bool :=
  lockNum <- lift (extractInt (rq_data rq) 1) ;;
  if decide (decodeMachineIDFromLockNumber lockNum <> myMachineID) then forward rq
  else on_tables (ServerDestroyLock (decode lockNum)) ;;; sret false.

Definition serve_ACQUIRE (rq : Req) : H bool :=
  lockNum <- lift (extractInt (rq_data rq) 1) ;;
  if decide (decodeMachineIDFromLockNumber lockNum <> myMachineID) then forward rq
  else
    temp <- on_tables (ServerAcquire (rq_machine rq) (rq_mailbox rq) (decode lockNum)) ;;
    match temp with
    | None => push (response rq) ;;; sret true
    | Some cr => if respond cr then push (response_to cr) ;;; sret true else sret false
    end.

Definition serve_RELEASE (rq : Req) : H bool :=
  lockNum <- lift (extractInt (rq_data rq) 1) ;;
  if decide (decodeMachineIDFromLockNumber lockNum <> myMachineID) then forward rq
  else
    temp <- on_tables (ServerRelease (rq_machine rq) (rq_mailbox rq) (decode lockNum)) ;;
    match temp with
    | None => push (response rq) ;;; sret true
    | Some cr =>
        if respond cr then push (response rq) ;;; push (response_to cr) ;;; sret true
        else push (response rq) ;;; sret true
    end.

(** The number is passed on as it is, not decoded. *)
Definition serve_DESTROY_CV (rq : Req) : H bool :=
  cvToDestroy <- lift (extractInt (rq_data rq) 1) ;;
  if decide (decodeMachineIDFromCVNumber cvToDestroy <> myMachineID) then forward rq
  else on_tables (ServerDestroyCV cvToDestroy) ;;; sret false.

(** The 14 bytes of the answer. *)
Definition lock_tracker_answer (clientMID clientMBX lockNum : Z) (held : bool) : res (list Z) :=
  let* rData := new_chars 14 in
  let* rData := arr_set rData 0 CV_LOCK_TRACKER_RESPONSE in
  let* rData := compressInt clientMID rData 1 in
  let* rData := compressInt clientMBX rData 5 in
  let* rData := compressInt lockNum rData 9 in
  arr_set rData 13 (if held then 1 else 0).

(** For an invalid lock the handler leaves the switch: no answer is sent. *)
Definition serve_DOES_CLIENT_HAVE_LOCK (rq : Req) : H bool :=
  clientMID <- lift (extractInt (rq_data rq) 1) ;;
  clientMBX <- lift (extractInt (rq_data rq) 5) ;;
  lockNum <- lift (extractInt (rq_data rq) 9) ;;
  let lockIndex := decode lockNum in
  v <- read_tables (fun t => valid_index (serverLockArraySize t) (serverLockMap t) lockIndex) ;;
  if negb v then sret false
  else
    l <- read_tables (fun t => lock_at t lockIndex) ;;
    rData <- lift (lock_tracker_answer clientMID clientMBX lockNum
                     (isHeldByRequester l (ClientRequest_new clientMID clientMBX))) ;;
    sendMessageWithData myMachineID 0 (rq_machine rq) (rq_mailbox rq) 14 rData ;;;
    sret false.

(** The query about a lock another machine owns: 13 bytes. *)
Definition lock_query (machine mailbox lockNum : Z) : res (list Z) :=
  let* d := new_chars 13 in
  let* d := arr_set d 0 DOES_CLIENT_HAVE_LOCK in
  let* d := compressInt machine d 1 in
  let* d := compressInt mailbox d 5 in
  compressInt lockNum d 9.

(** SIGNAL, WAIT, BROADCAST on a lock of another machine. *)
Definition ask_lock_owner (messageType cvNum lockNum : Z) (rq : Req) : H bool :=
  d <- lift (lock_query (rq_machine rq) (rq_mailbox rq) lockNum) ;;
  modify (fun s => set_trackers (cvLockTrackerList s ++
    [mkCVLockTracker (rq_machine rq) (rq_mailbox rq) cvNum lockNum messageType]) s) ;;;
  sendMessageWithData myMachineID 0 (decodeMachineIDFromLockNumber lockNum) 0 13 d ;;;
  sret false.

(** [local] is what is done when this machine owns the lock and the condition,
    [invalid] when the lock's index is not in use; both get [respond] as the
    check of the machine number has left it. *)
Definition serve_condition (messageType : Z) (invalid : Req -> bool -> H bool)
    (local : Req -> Z -> Z -> bool -> H bool) (rq : Req) : H bool :=
  cvNum <- lift (extractInt (rq_data rq) 1) ;;
  lockNum <- lift (extractInt (rq_data rq) 5) ;;
  let lockOwner := decodeMachineIDFromLockNumber lockNum in
  resp <- (if decide (lockOwner < 0 \/ lockOwner > totalNumServers)
           then push (response rq) ;;; sret true else sret false) ;;
  if decide (lockOwner = myMachineID) then
    let lockIndex := decode lockNum in
    v <- read_tables (fun t => valid_index (serverLockArraySize t) (serverLockMap t) lockIndex) ;;
    if negb v then invalid rq resp
    else if decide (decodeMachineIDFromCVNumber cvNum = myMachineID) then local rq (decode cvNum) lockIndex resp
    else forward rq
  else ask_lock_owner messageType cvNum lockNum rq.

Definition push_response (rq : Req) (_ : bool) : H bool := push (response rq) ;;; sret true.

Definition serve_SIGNAL : Req -> H bool := serve_condition SIGNAL push_response (fun rq cv lock resp =>
  temp <- on_tables (ServerSignal (rq_machine rq) (rq_mailbox rq) cv lock) ;;
  (match temp with
   | None => sret tt
   | Some cr => if respond cr then push (response_to cr) else sret tt
   end) ;;;
  push (response rq) ;;; sret true).

Definition broadcast (machine mailbox cv lock : Z) : H unit :=
  rs <- on_tables (ServerBroadcast machine mailbox cv lock) ;;
  modify (fun s => set_responses (necessaryResponses s ++ rs) s).

Definition serve_BROADCAST : Req -> H bool := serve_condition BROADCAST push_response (fun rq cv lock resp =>
  broadcast (rq_machine rq) (rq_mailbox rq) cv lock ;;;
  push (response rq) ;;; sret true).

(** WAIT of an invalid lock sets [respond] but queues no response. *)
Definition serve_WAIT : Req -> H bool := serve_condition WAIT (fun rq _ => sret true) (fun rq cv lock resp =>
  on_tables (ServerWait (rq_machine rq) (rq_mailbox rq) cv lock) ;;;
  rel <- on_tables (ServerRelease (rq_machine rq) (rq_mailbox rq) lock) ;;
  cr <- lift (deref rel) ;;
  if respond cr then push (response_to cr) ;;; sret true else sret resp).

Fixpoint find_tracker (i : nat) (l : list CVLockTracker) (mid mbx lock : Z) : option (nat * CVLockTracker) :=
  match l with
  | [] => None
  | t :: l =>
      if decide (clientMachineID t = mid /\ clientMailbox t = mbx /\ lockNum t = lock) then Some (i, t)
      else find_tracker (S i) l mid mbx lock
  end.

(** [releaseData] and [forwardData] of the handler. *)
Definition release_data (lockNum : Z) : res (list Z) :=
  let* d := new_chars 5 in let* d := arr_set d 0 RELEASE in compressInt lockNum d 1.
Definition forward_data (operation cv lock : Z) : res (list Z) :=
  let* d := new_chars 9 in let* d := arr_set d 0 operation in
  let* d := compressInt cv d 1 in compressInt lock d 5.

(** The client holds the lock and this machine owns the condition. *)
Definition tracked_operation (rq : Req) (operation mid mbx cv lock : Z) : H bool :=
  if decide (operation = SIGNAL) then
    temp <- on_tables (ServerSignal mid mbx (decode cv) lock) ;;
    (match temp with
     | None => sret tt
     | Some cr => if respond cr then push (response_to cr) else sret tt
     end) ;;;
    push (mkResponse mid mbx (-1)) ;;; sret true
  else if decide (operation = WAIT) then
    on_tables (ServerWait mid mbx (decode cv) lock) ;;;
    d <- lift (release_data lock) ;;
    sendMessageWithData myMachineID 0 (decodeMachineIDFromLockNumber lock) 0 5 d ;;;
    sret false
  else if decide (operation = BROADCAST) then
    broadcast (rq_machine rq) (rq_mailbox rq) (decode cv) lock ;;;
    push (mkResponse mid mbx (-1)) ;;; sret true
  else sret false.

(** Without a tracker entry [cvNum] and [operation] are not initialised; they
    are read when the answer says that the lock is held. *)
Definition serve_CV_LOCK_TRACKER_RESPONSE (rq : Req) : H bool :=
  mid <- lift (extractInt (rq_data rq) 1) ;;
  mbx <- lift (extractInt (rq_data rq) 5) ;;
  lock <- lift (extractInt (rq_data rq) 9) ;;
  s <- get ;;
  let found := find_tracker 0 (cvLockTrackerList s) mid mbx lock in
  (match found with
   | Some (i, _) => put (set_trackers (delete i (cvLockTrackerList s)) s)
   | None => sret tt
   end) ;;;
  held <- lift (arr_get (rq_data rq) 13) ;;
  if decide (held = 0) then push (mkResponse mid mbx (-1)) ;;; sret true
  else
    match found with
    | None => fail Uninitialised
    | Some (_, t) =>
        if decide (decodeMachineIDFromCVNumber (cvNum t) = myMachineID)
        then tracked_operation rq (cvlt_messageType t) mid mbx (cvNum t) lock
        else
          d <- lift (forward_data (cvlt_messageType t) (cvNum t) lock) ;;
          sendMessageWithData mid mbx myMachineID 1 9 d ;;; sret false
    end.

Definition serve_DESTROY_MV (rq : Req) : H bool :=
  n <- lift (extractInt (rq_data rq) 1) ;;
  if decide (decodeMachineIDFromMVNumber n <> myMachineID) then forward rq
  else on_tables (ServerDestroyMV (decode n)) ;;; sret false.

Definition serve_GET_MV (rq : Req) : H bool :=
  mvNum <- lift (extractInt (rq_data rq) 1) ;;
  if decide (decodeMachineIDFromMVNumber mvNum <> myMachineID) then forward rq
  else
    entryIndex <- lift (extractInt (rq_data rq) 5) ;;
    v <- read_tables (ServerGetMV (decode mvNum) entryIndex) ;;
    push (response_data rq v) ;;; sret true.

Definition serve_SET_MV (rq : Req) : H bool :=
  mvNum <- lift (extractInt (rq_data rq) 1) ;;
  if decide (decodeMachineIDFromMVNumber mvNum <> myMachineID) then forward rq
  else
    push (response rq) ;;;
    entryIndex <- lift (extractInt (rq_data rq) 5) ;;
    value <- lift (extractInt (rq_data rq) 9) ;;
    on_tables (ServerSetMV (decode mvNum) entryIndex value) ;;; sret true.

(** The switch. [messageType] is a [char] and never equals NO_ACTION = 0xff. *)
Definition serve (rq : Req) : H bool :=
  ty <- lift (arr_get (rq_data rq) 0) ;;
  if decide (ty = CREATE_LOCK) then serve_CREATE_LOCK rq
  else if decide (ty = DESTROY_LOCK) then serve_DESTROY_LOCK rq
  else if decide (ty = ACQUIRE) then serve_ACQUIRE rq
  else if decide (ty = RELEASE) then serve_RELEASE rq
  else if decide (ty = CREATE_CV) then serve_CREATE_CV rq
  else if decide (ty = DESTROY_CV) then serve_DESTROY_CV rq
  else if decide (ty = DOES_CLIENT_HAVE_LOCK) then serve_DOES_CLIENT_HAVE_LOCK rq
  else if decide (ty = CV_LOCK_TRACKER_RESPONSE) then serve_CV_LOCK_TRACKER_RESPONSE rq
  else if decide (ty = SIGNAL) then serve_SIGNAL rq
  else if decide (ty = BROADCAST) then serve_BROADCAST rq
  else if decide (ty = WAIT) then serve_WAIT rq
  else if decide (ty = CREATE_MV) then serve_CREATE_MV rq
  else if decide (ty = DESTROY_MV) then serve_DESTROY_MV rq
  else if decide (ty = GET_MV) then serve_GET_MV rq
  else if decide (ty = SET_MV) then serve_SET_MV rq
  else sret false.

(** One response: a message of four bytes. *)
Definition reply_wire (r : ServerResponse) : res Wire :=
  let* responseData := new_chars 4 in
  let* responseData := compressInt (resp_data r) responseData 0 in
  PostOffice_Send numBoxes (mkPacketHeader (toMachine r) myMachineID 0) (mkMailHeader (toMailbox r) 0 4) responseData.

(** [while(!necessaryResponses.empty())] *)
Fixpoint send_responses (rs : list ServerResponse) : H unit :=
  match rs with
  | [] => sret tt
  | r :: rs =>
      w <- lift (reply_wire r) ;;
      modify (fun s => set_sent (sent s ++ [w]) s) ;;;
      modify (set_responses rs) ;;;
      send_responses rs
  end.

(** One iteration of the loop, on a message of the mailbox. *)
Definition Server (m : Mail) : H unit :=
  resp <- serve (req_of m) ;;
  if resp : bool then s <- get ;; send_responses (necessaryResponses s) else sret tt.

(** * Lemmas *)

(** The wire a response becomes. *)
Definition reply (r : ServerResponse) : Wire :=
  mkWire (mkPacketHeader (toMachine r) myMachineID 16) (mkMailHeader (toMailbox r) 0 4) (compressed (resp_data r)).

Lemma PostOffice_Send_ok pktH to from len d :
  0 <= to < 100 -> 0 <= len <= 40 -> len <= Z.of_nat (length d) ->
  PostOffice_Send numBoxes pktH (mkMailHeader to from len) d =
    Ok (mkWire (mkPacketHeader (pkt_to pktH) (pkt_from pktH) (len + 12)) (mkMailHeader to from len)
          (take (Z.to_nat len) d)).
Proof.
  intros Ht Hl Hd. destruct (Send_legal numBoxes pktH (mkMailHeader to from len) d) as (w & -> & [_ _ _ Hp] & H1 & H2 & H3 & H4).
  { cbn. lia. } { cbn. lia. } { cbn. unfold numBoxes. sizes_lia. }
  destruct w as [[wt wf wl] wm wd]. cbn [w_pkt w_mail w_data pkt_to pkt_from pkt_length mail_length] in *. subst. done.
Qed.

Lemma reply_wire_ok r : 0 <= toMailbox r < 100 -> reply_wire r = Ok (reply r).
Proof.
  intros Hb. unfold reply_wire. change (new_chars 4) with (Ok [gbuf 0; gbuf 1; gbuf 2; gbuf 3]%nat). cbn [rbind].
  change (compressInt (resp_data r) [gbuf 0; gbuf 1; gbuf 2; gbuf 3]%nat 0) with (Ok (compressed (resp_data r))).
  cbn [rbind]. by rewrite PostOffice_Send_ok.
Qed.

Lemma send_responses_ok rs s : Forall (fun r => 0 <= toMailbox r < 100) rs -> necessaryResponses s = rs ->
  send_responses rs s = Ok (set_responses [] (set_sent (sent s ++ (reply <$> rs)) s), tt).
Proof.
  revert s. induction rs as [|r rs IH]; intros s HF Hs; cbn [send_responses].
  { unfold sret. rewrite app_nil_r. destruct s; simpl in *. by subst. }
  apply Forall_cons in HF as [Hr HF]. unfold sbind, lift, modify. rewrite reply_wire_ok by done.
  rewrite IH by done. cbn. by rewrite <-app_assoc.
Qed.

(** An integer of a message is read back. *)
Lemma extractInt_app pre x post off : in_i32 x -> off = Z.of_nat (length pre) ->
  extractInt (pre ++ compressed x ++ post) off = Ok x.
Proof.
  intros Hx ->. apply extractInt_compressed; [done|]. intros k Hk. unfold arr_get.
  rewrite !decide_True by lia. replace (Z.to_nat (_ + _)) with (length pre + k)%nat by lia.
  rewrite lookup_app_r by lia. replace (length pre + k - length pre)%nat with k by lia.
  rewrite lookup_app_l, Nat2Z.id by (simpl; lia). done.
Qed.

(** A request with integer arguments, as the syscalls pack it. *)
Definition request (ty : Z) (args : list Z) : list Z := ty :: concat (compressed <$> args).

Lemma request_type ty args : arr_get (receive_buffer (request ty args)) 0 = Ok ty.
Proof. done. Qed.

Lemma request_arg_app ty args post k x : args !! k = Some x -> in_i32 x ->
  extractInt (receive_buffer (request ty args ++ post)) (1 + 4 * Z.of_nat k) = Ok x.
Proof.
  intros Hk Hx. rewrite <-(take_drop_middle args k x Hk). unfold request, receive_buffer.
  rewrite fmap_app, fmap_cons, concat_app. cbn [concat].
  rewrite !app_comm_cons, <-!app_assoc. apply extractInt_app; [done|].
  rewrite length_cons. pose proof (lookup_lt_Some _ _ _ Hk).
  assert (length (concat (compressed <$> take k args)) = (4 * k)%nat) as ->; [|lia].
  rewrite <-(length_take_le args k) at 2 by lia. generalize (take k args). clear.
  induction l as [|x l IH]; [done|]. rewrite fmap_cons. cbn [concat]. rewrite length_app, IH. simpl. lia.
Qed.

Lemma request_arg ty args k x : args !! k = Some x -> in_i32 x ->
  extractInt (receive_buffer (request ty args)) (1 + 4 * Z.of_nat k) = Ok x.
Proof. rewrite <-(app_nil_r (request ty args)). apply request_arg_app. Qed.

(** A message from a client to mailbox 0. *)
Definition message (m b : Z) (d : list Z) : Mail :=
  mkMail (mkPacketHeader myMachineID m (Z.of_nat (length d) + 12)) (mkMailHeader 0 b (Z.of_nat (length d))) d.

Lemma decode_encode i : 0 <= myMachineID -> 0 <= i < 500 ->
  decode (encode i) = i /\ decodeMachineIDFromLockNumber (encode i) = myMachineID.
Proof.
  intros Hm Hi. unfold decode, encode, encodeIndex, decodeIndex, decodeMachineIDFromLockNumber, MAX_SERVER_LOCKS in *.
  split; [lia|]. rewrite Z.quot_div_nonneg by lia. rewrite Z.div_add_l by lia. rewrite Z.div_small by lia. lia.
Qed.

(** What the client told by a lock operation is sent. *)
Definition grant (c : option client) : list ServerResponse :=
  match c with Some c => [mkResponse c.1 c.2 (-1)] | None => [] end.

Lemma ServerAcquire_fifo (t : Tables B) ll lc lm m b i e L q :
  wf t ll lc lm -> taken ll i = true -> serverLockTable t !! Z.to_nat i = Some e ->
  le_lock e = Some L -> lock_rep L q ->
  exists t' L' cr, ServerAcquire m b i t = Ok (t', Some cr) /\ wf t' ll lc lm /\ lock_at t' i = Ok L' /\
    lock_rep L' (lock_spec (LAcquire (m, b)) q).1 /\
    (if respond cr then Some (client_of cr) else None) = (lock_spec (LAcquire (m, b)) q).2.
Proof.
  intros Hwf Ht He HL HR. destruct (ServerAcquire_spec t ll lc lm m b i Hwf) as (t' & r & HA & Hwf' & Hr).
  rewrite Ht in Hr. destruct Hr as (e1 & L1 & He1 & HL1 & -> & Ht').
  apply arr_get_Ok in He1 as [_ He1]. simplify_eq.
  pose proof (lock_exec_spec (LAcquire (m, b)) L q HR) as [HR' Hc]. unfold lock_exec in HR', Hc.
  cbn [fst snd] in HR', Hc. destruct (sl_Acquire L (ClientRequest_new m b)) as [L' cr].
  exists t', L', cr. split_and!; try done. unfold lock_at. rewrite Ht'. done.
Qed.

Lemma ServerRelease_fifo (t : Tables B) ll lc lm m b i e L q :
  wf t ll lc lm -> taken ll i = true -> serverLockTable t !! Z.to_nat i = Some e ->
  le_lock e = Some L -> lock_rep L q -> le_isToBeDeleted e = false ->
  exists t' L' cr, ServerRelease m b i t = Ok (t', Some cr) /\ wf t' ll lc lm /\ lock_at t' i = Ok L' /\
    lock_rep L' (lock_spec (LRelease (m, b)) q).1 /\
    (if respond cr then Some (client_of cr) else None) = (lock_spec (LRelease (m, b)) q).2.
Proof.
  intros Hwf Ht He HL HR Hd.
  destruct (ServerRelease_spec t ll lc lm m b i Hwf) as (t' & r & ll' & HA & Hwf' & Hr).
  rewrite Ht in Hr. destruct Hr as (e1 & L1 & He1 & HL1 & -> & Ht').
  apply arr_get_Ok in He1 as [_ He1]. simplify_eq. destruct (Ht' Hd) as [-> Ht2].
  pose proof (lock_exec_spec (LRelease (m, b)) L q HR) as [HR' Hc]. unfold lock_exec in HR', Hc.
  cbn [fst snd] in HR', Hc. destruct (sl_Release L (ClientRequest_new m b)) as [L' cr].
  exists t', L', cr. split_and!; try done. unfold lock_at. rewrite Ht2. done.
Qed.

Lemma Server_done rq m s s' rs : req_of m = rq -> serve rq s = Ok (s', true) ->
  necessaryResponses s' = rs -> Forall (fun r => 0 <= toMailbox r < 100) rs ->
  Server m s = Ok (set_responses [] (set_sent (sent s' ++ (reply <$> rs)) s'), tt).
Proof.
  intros <- Hs Hn HF. unfold Server, sbind, get. rewrite Hs, Hn. by apply send_responses_ok.
Qed.

Lemma lock_spec_boxes o q c : Forall (fun c => 0 <= c.2 < 100) q ->
  match o with LAcquire c => 0 <= c.2 < 100 | LRelease _ => True end ->
  (lock_spec o q).2 = Some c -> 0 <= c.2 < 100.
Proof.
  intros HF Ho. destruct o as [c1|c1], q as [|h q]; simpl.
  - by intros [= <-].
  - case_decide; simpl; [intros [= <-]|]; done.
  - done.
  - case_decide; simpl; [|done]. destruct q as [|h2 q]; [done|]. intros [= <-].
    apply Forall_cons in HF as [_ HF]. by apply Forall_cons in HF as [? _].
Qed.

(** A question of another server about an object number. *)
Definition server_message (m b : Z) (d : list Z) : Mail :=
  mkMail (mkPacketHeader myMachineID m (Z.of_nat (length d) + 12)) (mkMailHeader 1 b (Z.of_nat (length d))) d.

Definition do_you_have (t : StructureType) : Z :=
  match t with TLock => DO_YOU_HAVE_LOCK | TCV => DO_YOU_HAVE_CV | TMV => DO_YOU_HAVE_MV end.
Definition have (t : StructureType) : Z :=
  match t with TLock => HAVE_LOCK | TCV => HAVE_CV | TMV => HAVE_MV end.
Definition have_not (t : StructureType) : Z :=
  match t with TLock => DO_NOT_HAVE_LOCK | TCV => DO_NOT_HAVE_CV | TMV => DO_NOT_HAVE_MV end.
Definition slots_of (t : StructureType) (ll lc lm : list bool) : list bool :=
  match t with TLock => ll | TCV => lc | TMV => lm end.

Lemma ask_index size (m : option B) i b : valid_index size m i = Ok b ->
  (if decide (i > 0 /\ i < size) then map_test m i else Ok false) = Ok (bool_decide (i <> 0) && b).
Proof.
  unfold valid_index. destruct (decide (i < 0 \/ i > size - 1)).
  - intros [= <-]. rewrite decide_False by lia. by rewrite andb_false_r.
  - intros ->. case_decide; case_bool_decide; try lia; done.
Qed.

Lemma handle_DO_YOU_HAVE_ok t s ll lc lm id n : wf (tables s) ll lc lm -> in_i32 n ->
  exists size map, (forall ph mh, handle_server_message ph mh (receive_buffer (request (do_you_have t) [id; n])) s =
    handle_DO_YOU_HAVE size map (have t) (have_not t) (receive_buffer (request (do_you_have t) [id; n])) s) /\
    valid_index (size (tables s)) (map (tables s)) (decode n) = Ok (taken (slots_of t ll lc lm) (decode n)).
Proof.
  intros Hwf Hn. destruct t.
  - exists serverLockArraySize, serverLockMap. split; [done|by eapply valid_lock].
  - exists serverConditionArraySize, serverConditionMap. split; [done|by eapply valid_cond].
  - exists serverMVArraySize, serverMVMap. split; [done|by eapply valid_mv].
Qed.

Lemma store_app bs : forall pre mid post, length mid = length bs ->
  store (pre ++ mid ++ post) (Z.of_nat (length pre)) bs = Ok (pre ++ bs ++ post).
Proof.
  induction bs as [|c bs IH]; intros pre [|x mid] post Hl; try done. cbn [store].
  rewrite arr_set_in by (rewrite !length_app; simpl; lia). cbn [rbind].
  rewrite Nat2Z.id. rewrite insert_app_r_alt by lia. rewrite Nat.sub_diag. cbn.
  replace (Z.of_nat (length pre) + 1) with (Z.of_nat (length (pre ++ [c]))) by (rewrite length_app; simpl; lia).
  change (c :: mid ++ post) with ([c] ++ (mid ++ post)).
  rewrite (app_assoc pre [c] (mid ++ post)), IH by (simpl in Hl; lia). by rewrite <-app_assoc.
Qed.

(** What is sent to the other servers. *)
Definition ask (len : Z) (d : list Z) (i : Z) : Wire :=
  mkWire (mkPacketHeader i myMachineID (len + 12)) (mkMailHeader 1 1 len) (take (Z.to_nat len) d).

Lemma send_to_servers_ok ids len d s : 0 <= len <= 40 -> len <= Z.of_nat (length d) ->
  send_to_servers ids len d s =
    Ok (set_sent (sent s ++ (ask len d <$> filter (fun i => i <> myMachineID) ids)) s, tt).
Proof.
  intros Hl Hd. revert s. induction ids as [|i ids IH]; intros s; cbn [send_to_servers].
  { unfold sret. rewrite app_nil_r. by destruct s. }
  unfold sbind. rewrite filter_cons. destruct (decide (i = myMachineID)) as [->|Hi].
  - rewrite (decide_False (P := myMachineID <> myMachineID)) by exact (fun H => H eq_refl). apply IH.
  - rewrite decide_True by done. unfold Send. rewrite PostOffice_Send_ok by lia. cbn [rbind].
    rewrite IH. cbn [sent set_sent fmap list_fmap]. by rewrite <-app_assoc.
Qed.

Lemma strncpy_string nm pre post : 0 ∉ nm ->
  strncpy (length nm + 1) (pre ++ nm ++ 0 :: post) (Z.of_nat (length pre)) = Ok (nm ++ [0]).
Proof.
  revert pre. induction nm as [|c nm IH]; intros pre Hn; cbn [length Nat.add strncpy].
  - rewrite (arr_get_lookup _ _ 0); [done|lia|]. rewrite Nat2Z.id, lookup_app_r, Nat.sub_diag by lia. done.
  - apply not_elem_of_cons in Hn as [Hc Hn].
    rewrite (arr_get_lookup _ _ c); [|lia|rewrite Nat2Z.id, lookup_app_r, Nat.sub_diag by lia; done].
    cbn [rbind]. rewrite decide_False by congruence.
    replace (Z.of_nat (length pre) + 1) with (Z.of_nat (length (pre ++ [c]))) by (rewrite length_app; simpl; lia).
    change ((c :: nm) ++ 0 :: post) with ([c] ++ (nm ++ 0 :: post)). rewrite app_assoc, IH by done. done.
Qed.

(** The query of a create whose name bytes at 2 start with a NUL. *)
Lemma create_query_zero ty len inData : (0 < len <= 34)%nat -> arr_get inData 2 = Ok 0 ->
  create_query ty (Z.of_nat len) inData =
    Ok ([ty] ++ (gbuf <$> seq 1 4) ++ [Z.of_nat len] ++ replicate len 0 ++ (gbuf <$> seq (6 + len) (34 - len))).
Proof.
  intros Hl H2. unfold create_query.
  change (arr_set fresh 0 ty) with (Ok (ty :: (gbuf <$> seq 1 39))). cbn [rbind].
  change (arr_set (ty :: (gbuf <$> seq 1 39)) 5 (Z.of_nat len))
    with (Ok ([ty] ++ (gbuf <$> seq 1 4) ++ [Z.of_nat len] ++ (gbuf <$> seq 6 34))). cbn [rbind].
  unfold copy_name. rewrite decide_False, Nat2Z.id by lia. destruct len as [|len]; [lia|].
  cbn [strncpy]. rewrite H2. cbn [rbind]. rewrite decide_True by done. cbn [rbind].
  replace (gbuf <$> seq 6 34) with ((gbuf <$> seq 6 (S len)) ++ (gbuf <$> seq (6 + S len) (34 - S len))).
  2: { rewrite <-fmap_app, <-seq_app. do 2 f_equal. lia. }
  change 6 with (Z.of_nat (length ([ty] ++ (gbuf <$> seq 1 4) ++ [Z.of_nat (S len)]))).
  rewrite !(app_assoc [ty]), !(app_assoc (_ ++ _) [Z.of_nat (S len)]).
  rewrite store_app; [done|]. by rewrite length_fmap, length_seq, length_replicate.
Qed.

(** A condition operation on a lock in use and a condition of this server. *)
Lemma serve_condition_local ty invalid local s ll lc lm m b k i :
  0 <= myMachineID <= totalNumServers -> 0 <= i < 500 -> 0 <= k < 500 ->
  in_i32 (encode i) -> in_i32 (encode k) -> wf (tables s) ll lc lm -> taken ll i = true ->
  let rq := req_of (message m b (request ty [encode k; encode i])) in
  serve_condition ty invalid local rq s = local rq k i false s.
Proof.
  intros Hm Hi Hk Hri Hrk Hwf Ht rq.
  destruct (decode_encode i ltac:(lia) Hi) as [Hd Hmi], (decode_encode k ltac:(lia) Hk) as [Hdk Hmk].
  unfold serve_condition, sbind, lift, read_tables, sret.
  replace (extractInt (rq_data rq) 1) with (Ok (encode k)) by (symmetry; by apply (request_arg ty [encode k; encode i] 0)).
  replace (extractInt (rq_data rq) 5) with (Ok (encode i)) by (symmetry; by apply (request_arg ty [encode k; encode i] 1)).
  rewrite Hmi. rewrite decide_False, decide_True by lia.
  rewrite Hd, (valid_lock _ ll lc lm i Hwf), Ht. cbn [rbind negb].
  change (decodeMachineIDFromCVNumber (encode k)) with (decodeMachineIDFromLockNumber (encode k)).
  by rewrite Hmk, decide_True, Hdk by done.
Qed.

(** ** The last answer to a create *)

Definition notice (t : StructureType) (e : ResponseQueueEntry) : Wire :=
  mkWire (mkPacketHeader (replyMachine e) myMachineID 17) (mkMailHeader (replyMailbox e) 1 5)
    (have_name t :: compressed (replyMessageID e)).

Lemma notifyServersOfCreation_ok t queue : forall mid post s,
  length mid = 4%nat -> Forall (fun e => 0 <= replyMailbox e < 100) queue ->
  notifyServersOfCreation queue (have_name t :: mid ++ post) s =
    Ok (set_sent (sent s ++ (notice t <$> queue)) s, tt).
Proof.
  induction queue as [|e queue IH]; intros mid post s Hl HF; cbn [notifyServersOfCreation].
  { unfold sret. rewrite app_nil_r. by destruct s. }
  apply Forall_cons in HF as [He HF]. unfold sbind, lift, compressInt.
  change (have_name t :: mid ++ post) with ([have_name t] ++ mid ++ post).
  change 1 with (Z.of_nat (length [have_name t])) at 1. rewrite (store_app _ [have_name t]) by done.
  unfold Send. rewrite PostOffice_Send_ok by (done || (rewrite !length_app; simpl; lia)). cbn [rbind].
  etransitivity; [exact (IH (compressed (replyMessageID e)) post _ eq_refl HF)|]. cbn. by rewrite <-app_assoc.
Qed.

Definition answer (n : Z) (q : QueryStatus) : Wire :=
  mkWire (mkPacketHeader (pkt_from (packetHeader q)) myMachineID 16)
    (mkMailHeader (mail_from (mailHeader q)) 1 4) (compressed n).

(** A client that waits for a create: its mailbox exists, its message is a buffer. *)
Definition client_ok (q : QueryStatus) : Prop :=
  0 <= mail_from (mailHeader q) < 100 /\ length (qs_data q) = 40%nat.

Lemma messageBackClients_ok n clients : forall s, Forall client_ok clients ->
  messageBackClients clients n s = Ok (set_sent (sent s ++ (answer n <$> clients)) s, tt).
Proof.
  induction clients as [|q clients IH]; intros s HF; cbn [messageBackClients].
  { unfold sret. rewrite app_nil_r. by destruct s. }
  apply Forall_cons in HF as [[Hb Hl] HF]. unfold sbind, lift.
  assert (compressInt n (qs_data q) 0 = Ok (compressed n ++ drop 4 (qs_data q))) as ->.
  { rewrite <-(take_drop 4 (qs_data q)) at 1. by apply (store_app _ []); rewrite length_take, Hl. }
  unfold Send. rewrite PostOffice_Send_ok by (done || (simpl; lia)). cbn [rbind].
  etransitivity; [by apply IH|]. cbn. by rewrite <-app_assoc.
Qed.

Lemma find_pending_id_lookup id l : forall i k pc, find_pending_id i l id = Some (k, pc) ->
  (i <= k)%nat /\ l !! (k - i)%nat = Some pc /\ pc_ID pc = id.
Proof.
  induction l as [|p l IH]; intros i k pc; cbn [find_pending_id]; [done|]. case_decide as Hd.
  - intros [= <- <-]. rewrite Nat.sub_diag. by split.
  - intros (Hi & Hl & ?)%IH. split; [lia|]. replace (k - i)%nat with (S (k - S i))%nat by lia. by split.
Qed.

(** ** Requests on a lock in use *)

Lemma acquire_request s ll lc lm m b i e L q :
  0 <= myMachineID -> 0 <= i < 500 -> in_i32 (encode i) -> 0 <= b < 100 -> Forall (fun c => 0 <= c.2 < 100) q ->
  wf (tables s) ll lc lm -> necessaryResponses s = [] -> taken ll i = true ->
  serverLockTable (tables s) !! Z.to_nat i = Some e -> le_lock e = Some L -> lock_rep L q ->
  exists s' L', Server (message m b (request ACQUIRE [encode i])) s = Ok (s', tt) /\
     wf (tables s') ll lc lm /\ lock_at (tables s') i = Ok L' /\
     lock_rep L' (lock_spec (LAcquire (m, b)) q).1 /\ necessaryResponses s' = [] /\
     sent s' = sent s ++ (reply <$> grant (lock_spec (LAcquire (m, b)) q).2).
Proof.
  intros Hm Hi Hr Hb Hq Hwf Hn Ht He HL HR. destruct (decode_encode i Hm Hi) as [Hdec Hmach].
  destruct (ServerAcquire_fifo _ _ _ _ m b _ _ _ _ Hwf Ht He HL HR) as (t' & L' & cr & HA & Hwf' & HL' & HR' & Hc).
  set (msg := message m b _).
  assert (serve (req_of msg) s = (if respond cr then push (response_to cr) ;;; sret true else sret false) (set_tables t' s)) as HS.
  { change (serve ?rq s) with (serve_ACQUIRE rq s). unfold serve_ACQUIRE, sbind, lift, on_tables.
    cbn [rq_data rq_machine rq_mailbox req_of pktHdr pkt_from mailHdr mail_from mdata msg message].
    replace (extractInt _ 1) with (Ok (encode i)) by (symmetry; by apply (request_arg ACQUIRE [encode i] 0)).
    rewrite decide_False, Hdec, HA by tauto. cbn [rbind]. by destruct (respond cr). }
  rewrite <-Hc. destruct (respond cr) eqn:Hrc.
  - eexists _, L'. split; [eapply (Server_done _ msg _ _ [response_to cr]); [done|exact HS| |]|by split_and!].
    + cbn. by rewrite Hn.
    + constructor; [|done]. symmetry in Hc. by apply (lock_spec_boxes _ _ _ Hq) in Hc.
  - eexists _, L'. split; [unfold Server, sbind; rewrite HS; reflexivity|].
    rewrite app_nil_r. by split_and!.
Qed.

Lemma release_request s ll lc lm m b i e L q :
  0 <= myMachineID -> 0 <= i < 500 -> in_i32 (encode i) -> 0 <= b < 100 -> Forall (fun c => 0 <= c.2 < 100) q ->
  wf (tables s) ll lc lm -> necessaryResponses s = [] -> taken ll i = true ->
  serverLockTable (tables s) !! Z.to_nat i = Some e -> le_isToBeDeleted e = false ->
  le_lock e = Some L -> lock_rep L q ->
  exists s' L', Server (message m b (request RELEASE [encode i])) s = Ok (s', tt) /\
     wf (tables s') ll lc lm /\ lock_at (tables s') i = Ok L' /\
     lock_rep L' (lock_spec (LRelease (m, b)) q).1 /\ necessaryResponses s' = [] /\
     sent s' = sent s ++ reply (mkResponse m b (-1)) :: (reply <$> grant (lock_spec (LRelease (m, b)) q).2).
Proof.
  intros Hm Hi Hr Hb Hq Hwf Hn Ht He Hd HL HR. destruct (decode_encode i Hm Hi) as [Hdec Hmach].
  destruct (ServerRelease_fifo _ _ _ _ m b _ _ _ _ Hwf Ht He HL HR Hd) as (t' & L' & cr & HA & Hwf' & HL' & HR' & Hc).
  set (msg := message m b _).
  assert (serve (req_of msg) s = (push (mkResponse m b (-1)) ;;; (if respond cr then push (response_to cr) else sret tt) ;;; sret true) (set_tables t' s)) as HS.
  { change (serve ?rq s) with (serve_RELEASE rq s). unfold serve_RELEASE, sbind, lift, on_tables.
    cbn [rq_data rq_machine rq_mailbox req_of pktHdr pkt_from mailHdr mail_from mdata msg message].
    replace (extractInt _ 1) with (Ok (encode i)) by (symmetry; by apply (request_arg RELEASE [encode i] 0)).
    rewrite decide_False, Hdec, HA by tauto. cbn [rbind]. by destruct (respond cr). }
  rewrite <-Hc. destruct (respond cr) eqn:Hrc; eexists _, L'.
  - split; [eapply (Server_done _ msg _ _ [mkResponse m b (-1); response_to cr]); [done|exact HS| |]|by split_and!].
    + cbn. by rewrite Hn.
    + constructor; [done|]. constructor; [|done]. symmetry in Hc. by apply (lock_spec_boxes _ _ _ Hq) in Hc.
  - split; [eapply (Server_done _ msg _ _ [mkResponse m b (-1)]); [done|exact HS| |]|by split_and!].
    + cbn. by rewrite Hn.
    + by constructor.
Qed.

(** ** The owner of a condition learns that the client holds the lock *)

Lemma tracked_wait s ll lc lm m b mid mbx lk k t :
  wf (tables s) ll lc lm -> lc <> [] -> lk <> -1 -> in_i32 mid -> in_i32 mbx -> in_i32 lk ->
  find_tracker 0 (cvLockTrackerList s) mid mbx lk = Some (k, t) -> cvlt_messageType t = WAIT ->
  decodeMachineIDFromCVNumber (cvNum t) = myMachineID -> decode (cvNum t) < MAX_SERVER_CVS ->
  exists s' lc', Server (message m b (request CV_LOCK_TRACKER_RESPONSE [mid; mbx; lk] ++ [1])) s = Ok (s', tt) /\
    ServerWait mid mbx (decode (cvNum t)) lk (tables s) = Ok (tables s', tt) /\ wf (tables s') ll lc' lm /\
    sent s' = sent s ++ [mkWire (mkPacketHeader (decodeMachineIDFromLockNumber lk) myMachineID 17)
                           (mkMailHeader 0 0 5) (request RELEASE [lk])].
Proof.
  intros Hwf Hne Hlk Hm1 Hm2 Hm3 Hf Hty Hcv Hi.
  destruct (ServerWait_wf (tables s) ll lc lm mid mbx (decode (cvNum t)) lk Hwf Hne Hi Hlk) as (t' & lc' & HW & Hwf').
  unfold Server, sbind. change (serve ?rq s) with (serve_CV_LOCK_TRACKER_RESPONSE rq s).
  unfold serve_CV_LOCK_TRACKER_RESPONSE, sbind, lift, get.
  set (rq := req_of _). change (arr_get (rq_data rq) 13) with (Ok 1).
  set (msg := [mid; mbx; lk]) in *.
  replace (extractInt (rq_data rq) 1) with (Ok mid) by (symmetry; by apply (request_arg_app _ msg [1] 0)).
  replace (extractInt (rq_data rq) 5) with (Ok mbx) by (symmetry; by apply (request_arg_app _ msg [1] 1)).
  replace (extractInt (rq_data rq) 9) with (Ok lk) by (symmetry; by apply (request_arg_app _ msg [1] 2)).
  rewrite Hf. unfold put, tracked_operation. rewrite decide_False, decide_True, Hty by done.
  rewrite decide_False, decide_True by done. unfold sbind, lift, on_tables. cbn [tables set_trackers].
  rewrite HW. cbn [rbind]. change (release_data lk) with (Ok (request RELEASE [lk])).
  unfold sendMessageWithData, sbind, lift. change (bcopy (request RELEASE [lk]) 5) with (Ok (request RELEASE [lk])).
  unfold Send. rewrite PostOffice_Send_ok by done. cbn [rbind]. unfold sret.
  eexists _, lc'. split; [reflexivity|]. by split_and!.
Qed.

(** * Properties *)

(** C7: the lock service over the network. A request to acquire or release a
    lock in use on this server, packed as the system calls pack it, acts on the
    lock as the first-come first-served queue of its clients and answers as the
    queue does: an acquire is answered to the client exactly when it is granted
    and left unanswered while it waits; a release is always answered to its
    sender and then, when the lock changes hands, the new holder gets the
    answer to its acquire. Every answer is the four bytes of -1 to the client's
    machine and mailbox, the tables stay well formed, no response is left
    queued and nothing else is sent. *)
Theorem lock_requests_are_fifo s ll lc lm m b i e L q :
  0 <= myMachineID -> 0 <= i < 500 -> in_i32 (encode i) -> 0 <= b < 100 -> Forall (fun c => 0 <= c.2 < 100) q ->
  wf (tables s) ll lc lm -> necessaryResponses s = [] -> taken ll i = true ->
  serverLockTable (tables s) !! Z.to_nat i = Some e -> le_isToBeDeleted e = false ->
  le_lock e = Some L -> lock_rep L q ->
  (exists s' L', Server (message m b (request ACQUIRE [encode i])) s = Ok (s', tt) /\
     wf (tables s') ll lc lm /\ lock_at (tables s') i = Ok L' /\
     lock_rep L' (lock_spec (LAcquire (m, b)) q).1 /\ necessaryResponses s' = [] /\
     sent s' = sent s ++ (reply <$> grant (lock_spec (LAcquire (m, b)) q).2)) /\
  (exists s' L', Server (message m b (request RELEASE [encode i])) s = Ok (s', tt) /\
     wf (tables s') ll lc lm /\ lock_at (tables s') i = Ok L' /\
     lock_rep L' (lock_spec (LRelease (m, b)) q).1 /\ necessaryResponses s' = [] /\
     sent s' = sent s ++ reply (mkResponse m b (-1)) :: (reply <$> grant (lock_spec (LRelease (m, b)) q).2)).
Proof. split; intros; [by eapply acquire_request|by eapply release_request]. Qed.

(** a server denies the objects of its slot 0. To the question whether it
    has a lock, a condition or an array of a number, a server answers, in one
    message with the asker's query id, yes exactly when the slot is in use and
    is not slot 0: the guard of the handlers is [index > 0]. The first object a
    server creates, which takes slot 0, is never found by the other servers. *)
Theorem slot_zero_is_denied t s ll lc lm m b id n :
  wf (tables s) ll lc lm -> in_i32 id -> in_i32 n -> 0 <= b < 100 ->
  ServerToServerMessageHandler (server_message m b (request (do_you_have t) [id; n])) s =
    Ok (set_sent (sent s ++ [mkWire (mkPacketHeader m myMachineID 17) (mkMailHeader b 1 5)
          ((if bool_decide (decode n <> 0) && taken (slots_of t ll lc lm) (decode n) then have t else have_not t)
             :: compressed id)]) s, tt).
Proof.
  intros Hwf Hid Hn Hb. destruct (handle_DO_YOU_HAVE_ok t s ll lc lm id n Hwf Hn) as (size & map & Hh & Hv).
  unfold ServerToServerMessageHandler, sbind. cbn [mdata server_message pktHdr mailHdr].
  set (buf := receive_buffer _) in *.
  assert (extractInt buf 1 = Ok id) as H1 by (by apply (request_arg _ [id; n] 0)).
  assert (extractInt buf 5 = Ok n) as H5 by (by apply (request_arg _ [id; n] 1)).
  rewrite Hh. unfold handle_DO_YOU_HAVE, sbind, lift, read_tables. rewrite H5, (ask_index _ _ _ _ Hv). cbn [rbind].
  set (x := if bool_decide (decode n <> 0) && _ then have t else have_not t).
  change (arr_set fresh 0 x) with (Ok (x :: (gbuf <$> seq 1 39))).
  unfold sret, perform, sbind, lift. cbn [fst snd pkt_from mail_from mail_to]. rewrite H1.
  change (compressInt id (x :: (gbuf <$> seq 1 39)) 1) with (Ok ([x] ++ compressed id ++ (gbuf <$> seq 5 35))).
  unfold Send. by rewrite PostOffice_Send_ok.
Qed.

(** creating an array asks for the wrong name. When a client's CREATE_MV
    reaches mailbox 1 and this server neither has nor is creating an array of
    the name, it records the name but asks every other server about the bytes
    that follow the message type, the number of entries: for an array of less
    than 2^16 entries that is the empty name, padded with NULs, whatever the
    name is. Servers that have the array answer that they do not. *)
Theorem CREATE_MV_asks_for_empty_name s m b n v nm :
  let len := length (nm ++ [0]) in
  let msg := request CREATE_MV [n; v] ++ Z.of_nat len :: nm ++ [0] in
  0 <= n < 2 ^ 16 -> (length nm < 30)%nat -> 0 ∉ nm ->
  0 <= myMachineID < totalNumServers -> pendingCreates s = [] ->
  checkIfMVExists (nm ++ [0]) (tables s) = Ok (-1) ->
  exists s', ServerToServerMessageHandler (server_message m b msg) s = Ok (s', tt) /\
    pc_name <$> pendingCreates s' = [nm ++ [0]] /\ tables s' = tables s /\
    sent s' = sent s ++ (ask (6 + Z.of_nat len)
      (DO_YOU_HAVE_MV_NAME :: compressed (nextQueryID s) ++ Z.of_nat len :: replicate len 0)
      <$> filter (fun i => i <> myMachineID) (seqZ 0 totalNumServers)).
Proof.
  intros len msg Hn Hl Hnm Hmy Hp Hchk.
  assert (len = length nm + 1)%nat as Hlen by (unfold len; rewrite length_app; simpl; lia).
  unfold ServerToServerMessageHandler, sbind. cbn [mdata server_message pktHdr mailHdr].
  set (buf := receive_buffer _) in *.
  assert (arr_get buf 2 = Ok 0) as H2.
  { change (arr_get buf 2) with (Ok (i8 (Z.land (Z.shiftr n 16) 0xff))). f_equal.
    rewrite Z.shiftr_div_pow2, Z.div_small by lia. done. }
  assert (strncpy len buf 10 = Ok (nm ++ [0])) as Hcp.
  { unfold buf, receive_buffer, msg. set (pad := gbuf <$> _). rewrite <-(app_assoc _ (_ :: _) pad).
    change ((Z.of_nat len :: nm ++ [0]) ++ pad) with ([Z.of_nat len] ++ ((nm ++ [0]) ++ pad)).
    rewrite <-(app_assoc nm), (app_assoc _ [Z.of_nat len]).
    rewrite Hlen at 1.
    by apply (strncpy_string nm (request CREATE_MV [n; v] ++ [Z.of_nat len]) pad). }
  assert (forall ph mh, handle_server_message ph mh buf s =
    handle_CREATE TMV checkIfMVExists DO_YOU_HAVE_MV_NAME 9 ph mh buf s) as -> by done.
  unfold handle_CREATE, sbind, lift, read_tables, get.
  change (arr_get buf 9) with (Ok (Z.of_nat len)). unfold copy_name.
  rewrite decide_False, Nat2Z.id by lia. change (9 + 1) with 10. rewrite Hcp, Hchk. cbn [rbind].
  rewrite decide_False, create_query_zero, Hp by (done || lia). cbn [find_match].
  unfold PendingCreate_new, QueryStatus_new, take_query_id, sbind, lift, sret, modify.
  rewrite decide_False, arr_set_in by (rewrite ?length_replicate; lia). cbn [pc_ID].
  set (q := nextQueryID s).
  set (post := [Z.of_nat len] ++ _).
  unfold compressInt. change 1 with (Z.of_nat (length [DO_YOU_HAVE_MV_NAME])) at 3.
  rewrite (store_app (compressed q) [DO_YOU_HAVE_MV_NAME]) by done.
  unfold perform. cbn [fst snd].
  assert (length post = 35%nat) as Hpost.
  { unfold post. rewrite !length_app, length_replicate, length_fmap, length_seq. simpl. lia. }
  rewrite send_to_servers_ok by (rewrite ?length_app, ?Hpost; simpl; lia).
  eexists. split; [reflexivity|]. cbn [pendingCreates set_sent sent set_pending set_nextQueryID tables].
  rewrite Hp. split_and!; [done|done|]. f_equal. apply list_fmap_ext. intros _ k _. unfold ask. f_equal.
  replace (Z.to_nat (6 + Z.of_nat len)) with (6 + len)%nat by lia. unfold post.
  change (take (6 + len) ([?a] ++ compressed q ++ [?c] ++ ?r)) with (a :: compressed q ++ c :: take len r).
  change (take (6 + len) (?a :: compressed q ++ ?c :: ?r)) with (a :: compressed q ++ c :: take len r).
  by rewrite take_app_le, !firstn_all2 by (rewrite length_replicate; lia).
Qed.

(** a client can crash the server. [ServerWait] and [ServerBroadcast] check
    that the condition's index is not negative but, unlike the other
    operations, not that it is inside the table: as long as no condition has
    been created on a server, the first WAIT or BROADCAST a client sends it
    with a valid lock and any condition number of that server follows the NULL
    bitmap. *)
Theorem wait_before_any_condition_crashes s ll lm m b k i :
  0 <= myMachineID <= totalNumServers -> 0 <= i < 500 -> 0 <= k < 500 ->
  in_i32 (encode i) -> in_i32 (encode k) -> wf (tables s) ll [] lm -> taken ll i = true ->
  Server (message m b (request WAIT [encode k; encode i])) s = Fault NullPointer /\
  Server (message m b (request BROADCAST [encode k; encode i])) s = Fault NullPointer.
Proof.
  intros Hm Hi Hk Hri Hrk Hwf Ht.
  assert (serverConditionMap (tables s) = None) as Hnone.
  { destruct Hwf as [_ H2 _]. destruct (slots_init _ _ _ _ _ _ _ H2) as [(_ & ? & _)|(_ & Hl & _)]; [done|].
    by vm_compute in Hl. }
  assert (valid_index_low (serverConditionMap (tables s)) k = Fault NullPointer) as Hv.
  { unfold valid_index_low. by rewrite decide_False, Hnone by lia. }
  unfold Server, sbind. split.
  - change (serve ?rq s) with (serve_WAIT rq s). unfold serve_WAIT.
    rewrite (serve_condition_local _ _ _ s ll [] lm) by done.
    unfold sbind, on_tables, ServerWait. by rewrite Hv.
  - change (serve ?rq s) with (serve_BROADCAST rq s). unfold serve_BROADCAST.
    rewrite (serve_condition_local _ _ _ s ll [] lm) by done.
    unfold broadcast, sbind, on_tables, ServerBroadcast. by rewrite Hv.
Qed.

(** a lock is created only when every other server has said no. An answer
    "I do not have that name" to a pending create that still misses others is
    counted and nothing is sent or created; with the last one the lock of the
    first waiting client's name is created, as [ServerCreateLock] does it, the
    servers that asked for the name meanwhile are told, in order, that it is
    here, every waiting client is sent the number of the lock, in order, and
    the pending create is gone. *)
Theorem last_answer_creates_lock s ll lc lm m b id k pc q0 rest nm :
  wf (tables s) ll lc lm -> in_i32 id -> 0 <= m < totalNumServers -> totalNumServers < 2 ^ 31 ->
  find_pending_id 0 (pendingCreates s) id = Some (k, pc) -> pc_type pc = TLock ->
  Z.of_nat (length (responseTracker pc)) = totalNumServers -> 0 <= numResponses pc < totalNumServers - 1 ->
  waitingClients pc = q0 :: rest -> Forall client_ok (q0 :: rest) ->
  Forall (fun e => 0 <= replyMailbox e < 100) (serverResponseQueue pc) ->
  arr_get (qs_data q0) 1 = Ok (Z.of_nat (length nm)) -> terminated nm ->
  strncpy (length nm) (qs_data q0) 2 = Ok nm ->
  let msg := server_message m b (request DO_NOT_HAVE_LOCK_NAME [id]) in
  let pc' := count_response pc (<[Z.to_nat m := true]> (responseTracker pc)) in
  (numResponses pc + 1 < totalNumServers - 1 ->
     ServerToServerMessageHandler msg s = Ok (set_pending (<[k := pc']> (pendingCreates s)) s, tt)) /\
  (numResponses pc + 1 = totalNumServers - 1 ->
     exists s' i ll', ServerToServerMessageHandler msg s = Ok (s', tt) /\
       ServerCreateLock garbage nm (tables s) = Ok (tables s', i) /\ wf (tables s') ll' lc lm /\
       pendingCreates s' = delete k (pendingCreates s) /\
       sent s' = sent s ++ (notice TLock <$> serverResponseQueue pc) ++ (answer (encode i) <$> waitingClients pc)).
Proof.
  intros Hwf Hid Hm Ht Hf Hty Hlen H0 Hw HF HQ Hn Hterm Hcp msg pc'.
  unfold ServerToServerMessageHandler, sbind. cbn [mdata msg server_message pktHdr mailHdr].
  set (buf := receive_buffer _).
  assert (extractInt buf 1 = Ok id) as H1 by (by apply (request_arg _ [id] 0)).
  assert (forall ph mh, handle_server_message ph mh buf s = handle_DO_NOT_HAVE_NAME ph buf s) as -> by done.
  unfold handle_DO_NOT_HAVE_NAME, sbind, lift, get, put_pending, modify. rewrite H1, Hf. cbn [pkt_from].
  rewrite arr_set_in by lia. fold pc'.
  assert (numResponses pc' = numResponses pc + 1) as Hnum.
  { apply i32_id. unfold in_i32. lia. }
  rewrite Hnum. split; intros Hr; [by rewrite decide_False by lia|]. rewrite decide_True by done.
  change (waitingClients pc') with (waitingClients pc). change (pc_type pc') with (pc_type pc).
  change (serverResponseQueue pc') with (serverResponseQueue pc). rewrite Hw, Hty. cbn [head deref].
  unfold create_pending, sbind, lift, copy_name, on_tables. rewrite Hn, decide_False, Nat2Z.id, Hcp by lia.
  cbn [tables set_pending].
  destruct (ServerCreateLock_created garbage (tables s) ll lc lm nm Hwf Hterm) as (_ & _ & t' & ll' & i & _ & _ & HC & Hwf' & _).
  rewrite HC. cbn [rbind].
  change (arr_set fresh 0 (have_name TLock)) with (Ok (have_name TLock :: (gbuf <$> seq 1 4) ++ (gbuf <$> seq 5 35))).
  cbv beta iota.
  rewrite (notifyServersOfCreation_ok TLock), messageBackClients_ok by done.
  eexists _, i, ll'. split; [reflexivity|]. cbn [sent set_sent set_tables set_pending pendingCreates tables].
  split_and!; [done|done| |by rewrite app_assoc].
  apply find_pending_id_lookup in Hf as (_ & Hl & _). rewrite Nat.sub_0_r in Hl.
  apply lookup_lt_Some in Hl. rewrite !delete_take_drop, take_insert_ge, drop_insert_lt by lia. done.
Qed.
End Server.
Arguments Srv B : clear implicits.

(** a Wait that spans two machines keeps the lock. When the server that
    owns the condition learns that the client holds the lock of another server,
    it queues the client on the condition and sends a RELEASE to the lock's
    owner, but in its own name, from mailbox 0 of its machine. The owner takes
    it for the release of a client that does not hold the lock: the lock keeps
    its holder and its waiters, whatever they are, and nobody is granted it, so
    the client waits while it holds the lock. *)
Theorem remote_wait_keeps_the_lock {B} `{BitAllocator B} ma mb na nb ga gb ba bb
    (sA sB : Srv B) lla lca lma llb lcb lmb m b mid mbx i k t e L h ws :
  0 <= mb -> 0 <= i < 500 -> in_i32 (encode mb i) -> in_i32 mid -> in_i32 mbx ->
  wf (tables sA) lla lca lma -> lca <> [] ->
  find_tracker 0 (cvLockTrackerList sA) mid mbx (encode mb i) = Some (k, t) -> cvlt_messageType t = WAIT ->
  decodeMachineIDFromCVNumber (cvNum t) = ma -> decode ma (cvNum t) < MAX_SERVER_CVS ->
  wf (tables sB) llb lcb lmb -> necessaryResponses sB = [] -> taken llb i = true ->
  serverLockTable (tables sB) !! Z.to_nat i = Some e -> le_isToBeDeleted e = false ->
  le_lock e = Some L -> lock_rep L (h :: ws) -> Forall (fun c => 0 <= c.2 < 100) (h :: ws) ->
  h <> (ma, 0) ->
  exists sA' sB' L' w,
    Server ma na ga ba (message ma m b (request CV_LOCK_TRACKER_RESPONSE [mid; mbx; encode mb i] ++ [1])) sA = Ok (sA', tt) /\
    ServerWait mid mbx (decode ma (cvNum t)) (encode mb i) (tables sA) = Ok (tables sA', tt) /\
    sent sA' = sent sA ++ [w] /\ pkt_to (w_pkt w) = mb /\
    Server mb nb gb bb (to_mail w) sB = Ok (sB', tt) /\
    lock_at (tables sB') i = Ok L' /\ lock_rep L' (h :: ws) /\
    sent sB' = sent sB ++ [reply mb (mkResponse ma 0 (-1))].
Proof.
  intros Hmb Hi Hr Hm1 Hm2 HwfA Hne Hf Hty Hcv Hci HwfB Hn Ht He Hd HL HR HF Hh.
  destruct (decode_encode mb i Hmb Hi) as [_ Hmach].
  assert (encode mb i <> -1) as Hlk by (unfold encode, encodeIndex, MAX_SERVER_LOCKS; lia).
  destruct (tracked_wait ma na ga ba sA _ _ _ m b _ _ _ _ _ HwfA Hne Hlk Hm1 Hm2 Hr Hf Hty Hcv Hci)
    as (sA' & lc' & HA & HW & _ & HS).
  destruct (release_request mb nb gb bb sB llb lcb lmb ma 0 i e L (h :: ws)) as (sB' & L' & HB & _ & HLB & HRB & _ & HSB);
    try done.
  cbn [lock_spec] in HRB, HSB. rewrite decide_False in HRB, HSB by congruence.
  exists sA', sB', L'. eexists. split_and!; [exact HA|exact HW|exact HS|exact Hmach| |done|done|exact HSB].
  unfold to_mail. cbn [w_pkt w_mail w_data]. rewrite Hmach. exact HB.
Qed.

(** ** Witnesses *)

Definition zeros : nat -> Z := fun _ => 0.
Definition srv_with (t : Tables BitMap) : Srv BitMap := set_tables t Srv_init.
Definition held_tables : Tables BitMap := state_after demo_tables (ServerAcquire 1 2 0 demo_tables).
Definition lock_tables : Tables BitMap :=
  state_after Tables_init (ServerCreateLock (fun _ => 7) [76; 0] Tables_init).

Example lock_requests_are_fifo_witness : exists s',
  Server 1 2 zeros zeros (message 1 4 5 (request ACQUIRE [encode 1 0])) (srv_with demo_tables) = Ok (s', tt) /\
  sent s' = [reply 1 (mkResponse 4 5 (-1))].
Proof.
  destruct (lock_requests_are_fifo 1 2 zeros zeros (srv_with demo_tables) demo_slots demo_slots demo_slots 4 5 0
    (mkLockEntry (Some (ServerLock_new [76; 0])) false 0) (ServerLock_new [76; 0]) []) as [(s' & L' & H1 & _ & _ & _ & _ & H2) _].
  - lia.
  - lia.
  - vm_compute. split; [discriminate|reflexivity].
  - lia.
  - constructor.
  - exact demo_wf.
  - reflexivity.
  - reflexivity.
  - vm_compute. reflexivity.
  - reflexivity.
  - reflexivity.
  - repeat split.
  - exists s'. split; [exact H1|exact H2].
Defined.

Example slot_zero_is_denied_witness : exists s',
  ServerToServerMessageHandler 1 2 zeros zeros (server_message 1 0 1 (request DO_YOU_HAVE_LOCK [9; 500]))
    (srv_with demo_tables) = Ok (s', tt) /\
  sent s' = [mkWire (mkPacketHeader 0 1 17) (mkMailHeader 1 1 5) (DO_NOT_HAVE_LOCK :: compressed 9)].
Proof.
  eexists. split.
  - apply (slot_zero_is_denied 1 2 zeros zeros TLock _ demo_slots demo_slots demo_slots 0 1 9 500).
    + exact demo_wf.
    + vm_compute. split; [discriminate|reflexivity].
    + vm_compute. split; [discriminate|reflexivity].
    + lia.
  - reflexivity.
Defined.

Example CREATE_MV_asks_for_empty_name_witness : exists s',
  ServerToServerMessageHandler 0 2 zeros zeros
    (server_message 0 5 3 (request CREATE_MV [4; 0] ++ 3 :: [65; 66; 0])) (Srv_init (B:=BitMap)) = Ok (s', tt) /\
  pc_name <$> pendingCreates s' = [[65; 66; 0]].
Proof.
  destruct (CREATE_MV_asks_for_empty_name 0 2 zeros zeros (Srv_init (B:=BitMap)) 5 3 4 0 [65; 66])
    as (s' & H1 & H2 & _).
  - lia.
  - simpl. lia.
  - intros HF. repeat (apply elem_of_cons in HF as [HF|HF]; [discriminate|]). by apply elem_of_nil in HF.
  - lia.
  - reflexivity.
  - reflexivity.
  - exists s'. split; [exact H1|exact H2].
Defined.

Example wait_before_any_condition_crashes_witness :
  Server 1 2 zeros zeros (message 1 4 5 (request WAIT [encode 1 3; encode 1 0])) (srv_with lock_tables) =
    Fault NullPointer.
Proof.
  destruct (wait_before_any_condition_crashes 1 2 zeros zeros (srv_with lock_tables) demo_slots [] 4 5 3 0) as [HW _].
  - lia.
  - lia.
  - lia.
  - vm_compute. split; [discriminate|reflexivity].
  - vm_compute. split; [discriminate|reflexivity].
  - exact demo_lock_wf.
  - reflexivity.
  - exact HW.
Defined.

Definition waiting_client : QueryStatus :=
  mkQueryStatus (mkPacketHeader 0 5 0) (mkMailHeader 0 3 0) (CREATE_LOCK :: 2 :: 65 :: 0 :: replicate 36 0) 0 7 None.
Definition pending_lock : PendingCreate :=
  mkPendingCreate [65; 0] TLock [true; false] [waiting_client] [mkResponseQueueEntry 1 1 20] 0 6.

Example last_answer_creates_lock_witness : exists s',
  ServerToServerMessageHandler 0 2 zeros zeros (server_message 0 1 1 (request DO_NOT_HAVE_LOCK_NAME [6]))
    (set_pending [pending_lock] (srv_with demo_tables)) = Ok (s', tt) /\ pendingCreates s' = [].
Proof.
  destruct (last_answer_creates_lock 0 2 zeros zeros (set_pending [pending_lock] (srv_with demo_tables)) demo_slots demo_slots demo_slots 1 1 6 0
    pending_lock waiting_client [] [65; 0]) as [_ H].
  - exact demo_wf.
  - vm_compute. split; [discriminate|reflexivity].
  - lia.
  - reflexivity.
  - reflexivity.
  - reflexivity.
  - reflexivity.
  - vm_compute. split; [discriminate|reflexivity].
  - reflexivity.
  - constructor; [|constructor]. vm_compute. split; [split; [discriminate|reflexivity]|reflexivity].
  - constructor; [|constructor]. vm_compute. split; [discriminate|reflexivity].
  - reflexivity.
  - right; left.
  - reflexivity.
  - destruct H as (s' & i & ll' & H1 & _ & _ & H2 & _); [reflexivity|].
    exists s'. split; [exact H1|exact H2].
Defined.

Example remote_wait_keeps_the_lock_witness : exists sA' sB' L' w,
  Server 0 2 zeros zeros (message 0 1 0 (request CV_LOCK_TRACKER_RESPONSE [1; 2; encode 1 0] ++ [1]))
    (set_trackers [mkCVLockTracker 1 2 0 (encode 1 0) WAIT] (srv_with demo_tables)) = Ok (sA', tt) /\
  sent sA' = [w] /\ Server 1 2 zeros zeros (to_mail w) (srv_with held_tables) = Ok (sB', tt) /\
  lock_at (tables sB') 0 = Ok L' /\ lock_rep L' [(1, 2)].
Proof.
  destruct (remote_wait_keeps_the_lock 0 1 2 2 zeros zeros zeros zeros
    (set_trackers [mkCVLockTracker 1 2 0 (encode 1 0) WAIT] (srv_with demo_tables)) (srv_with held_tables)
    demo_slots demo_slots demo_slots demo_slots demo_slots demo_slots 1 0 1 2 0 0 (mkCVLockTracker 1 2 0 (encode 1 0) WAIT)
    (mkLockEntry (Some (mkServerLock [76; 0] BUSY [] (Some (mkRequest 1 2 true)))) false 1)
    (mkServerLock [76; 0] BUSY [] (Some (mkRequest 1 2 true))) (1, 2) [])
    as (sA' & sB' & L' & w & H1 & _ & H2 & _ & H3 & H4 & H5 & _).
  - lia.
  - lia.
  - vm_compute. split; [discriminate|reflexivity].
  - vm_compute. split; [discriminate|reflexivity].
  - vm_compute. split; [discriminate|reflexivity].
  - exact demo_wf.
  - discriminate.
  - reflexivity.
  - reflexivity.
  - reflexivity.
  - reflexivity.
  - exact demo_acquired.
  - reflexivity.
  - reflexivity.
  - vm_compute. reflexivity.
  - reflexivity.
  - reflexivity.
  - repeat split.
  - constructor; [|constructor]. vm_compute. split; [discriminate|reflexivity].
  - discriminate.
  - exists sA', sB', L', w. split; [exact H1|]. split; [exact H2|]. split; [exact H3|]. split; [exact H4|exact H5].
Defined.
