(* ===== verification/Clients.v ===== *)
(** * userprog/exception.cc with NETWORK: the system calls that ask a lock server

    A system call on a lock, a condition or a monitor variable packs a message,
    sends it to a server picked at random and waits for the answer in the
    mailbox of its thread. [stub] is such a call as a resumable program: what it
    sends and where it waits. [run_call] runs a call against a server until it
    returns or has to wait for mail. The name of a create is the one [copyin]
    read from user memory; [rand()] and fresh buffers are parameters. *)
From S2P Require Import Prelude CStrings BitMap Post ServerSync ServerTables Server.

Inductive stub (A : Type) :=
  | Ret (a : A)
  | Stop (f : fault)
  | Tell (w : Wire) (k : stub A)
  | Await (size : Z) (k : list Z -> stub A).
Arguments Ret {A} a.
Arguments Stop {A} f.
Arguments Tell {A} w k.
Arguments Await {A} size k.

(** [extractIntFromBytes] and [compressIntFromBytes] are the functions of
    server.cc under other names. *)
Definition extractIntFromBytes (buf : list Z) (off : Z) : res Z := extractInt buf off.
Definition compressIntFromBytes (x : Z) (dest : list Z) (off : Z) : res (list Z) := store dest off (compressed x).

Definition check {A B} (m : res A) (k : A -> stub B) : stub B :=
  match m with Ok a => k a | Fault f => Stop f end.

Section Client.
  (** This machine, the mailbox of the thread, fresh [char] buffers. *)
  Context (myMachineID totalNumServers mailboxNum : Z) (gbuf : nat -> Z).

(** [rand() % totalNumServers] *)
Definition pickServer (rand : Z) : res Z :=
  if decide (totalNumServers = 0) then Fault UndefinedArith else Ok (Z.rem rand totalNumServers).

(** [postOffice->Send], the headers filled in as every call does. *)
Definition send_request {A} (rand len : Z) (data : list Z) (k : stub A) : stub A :=
  check (pickServer rand) (fun server =>
  check (PostOffice_Send numBoxes (mkPacketHeader server myMachineID 0) (mkMailHeader 0 mailboxNum len) data) (fun w =>
  Tell w k)).

(** [new char[len]] with the type and the integer arguments stored in it. *)
Fixpoint pack_ints (data : list Z) (off : Z) (args : list Z) : res (list Z) :=
  match args with
  | [] => Ok data
  | x :: args => let* data := compressIntFromBytes x data off in pack_ints data (off + 4) args
  end.
Definition pack (len type : Z) (args : list Z) : res (list Z) :=
  let* data := new_chars gbuf len in
  let* data := arr_set data 0 type in
  pack_ints data 1 args.

(** [data[off] = (char) length; strncpy(data + off + 1, name, length)] *)
Definition pack_name (data : list Z) (off : Z) (name : list Z) : res (list Z) :=
  let* data := arr_set data off (i8 (Z.of_nat (length name))) in
  let* n := strncpy (length name) name 0 in
  store data (off + 1) n.

Definition CreateLock_Syscall (name : list Z) (rand : Z) : stub Z :=
  let length := Z.of_nat (length name) in
  check (let* data := pack (2 + length) CREATE_LOCK [] in pack_name data 1 name) (fun data =>
  send_request rand (2 + length) data (Await MaxMailSize (fun messageData =>
  check (extractIntFromBytes messageData 0) Ret))).

Definition CreateCondition_Syscall (name : list Z) (rand : Z) : stub Z :=
  let length := Z.of_nat (length name) in
  check (let* data := pack (2 + length) CREATE_CV [] in pack_name data 1 name) (fun data =>
  send_request rand (2 + length) data (Await MaxMailSize (fun messageData =>
  check (extractIntFromBytes messageData 0) Ret))).

Definition CreateMV_Syscall (name : list Z) (numArrayEntries initialValue rand : Z) : stub Z :=
  let length := Z.of_nat (length name) in
  check (let* data := pack (2 + length + 8) CREATE_MV [numArrayEntries; initialValue] in pack_name data 9 name) (fun data =>
  send_request rand (10 + length) data (Await MaxMailSize (fun messageData =>
  check (extractIntFromBytes messageData 0) Ret))).

(** The answer overwrites the buffer of the request. *)
Definition Signal_Syscall (conditionIndex lockIndex rand : Z) : stub unit :=
  check (pack 9 SIGNAL [conditionIndex; lockIndex]) (fun data =>
  send_request rand 9 data (Await 9 (fun _ => Ret tt))).

Definition Broadcast_Syscall (conditionIndex lockIndex rand : Z) : stub unit :=
  check (pack 9 BROADCAST [conditionIndex; lockIndex]) (fun data =>
  send_request rand 9 data (Await 9 (fun _ => Ret tt))).

(** Once signalled, the thread asks for the lock again, from a server picked
    anew. *)
Definition Wait_Syscall (conditionIndex lockIndex rand rand' : Z) : stub unit :=
  check (pack 9 WAIT [conditionIndex; lockIndex]) (fun data =>
  send_request rand 9 data (Await MaxMailSize (fun _ =>
  check (pack 5 ACQUIRE [lockIndex]) (fun data =>
  send_request rand' 5 data (Await MaxMailSize (fun _ => Ret tt)))))).

Definition DestroyLock_Syscall (lockIndex rand : Z) : stub unit :=
  check (pack 5 DESTROY_LOCK [lockIndex]) (fun data =>
  send_request rand 5 data (Await 5 (fun _ => Ret tt))).

Definition DestroyCondition_Syscall (conditionIndex rand : Z) : stub unit :=
  check (pack 5 DESTROY_CV [conditionIndex]) (fun data =>
  send_request rand 5 data (Await 5 (fun _ => Ret tt))).

Definition DestroyMV_Syscall (index rand : Z) : stub unit :=
  check (pack 5 DESTROY_MV [index]) (fun data => send_request rand 5 data (Ret tt)).

Definition SetMV_Syscall (arrIndex indexInArray value rand : Z) : stub unit :=
  check (pack 13 SET_MV [arrIndex; indexInArray; value]) (fun data =>
  send_request rand 13 data (Await 13 (fun _ => Ret tt))).

Definition GetMV_Syscall (arrIndex varIndex rand : Z) : stub Z :=
  check (pack 9 GET_MV [arrIndex; varIndex]) (fun data =>
  send_request rand 9 data (Await MaxMailSize (fun messageData =>
  check (extractIntFromBytes messageData 0) Ret))).

Definition Acquire_Syscall (lockIndex rand : Z) : stub unit :=
  check (pack 5 ACQUIRE [lockIndex]) (fun data =>
  send_request rand 5 data (Await MaxMailSize (fun _ => Ret tt))).

Definition Release_Syscall (lockIndex rand : Z) : stub unit :=
  check (pack 5 RELEASE [lockIndex]) (fun data =>
  send_request rand 5 data (Await 5 (fun _ => Ret tt))).

(** ** Running a call *)

(** [do Receive(...) while (mailHeader->from == 2)] on a mailbox that holds [n]
    messages: [None] when the thread waits. [Receive] copies the message into
    a buffer of [size] bytes. *)
Fixpoint receive_loop (n : nat) (size : Z) (po : PostOffice) : res (PostOffice * option (list Z)) :=
  let* '(po, m) := Receive po mailboxNum in
  match m with
  | None => Ok (po, None)
  | Some m =>
      if decide (Z.of_nat (length (mdata m)) > size) then Fault OutOfBounds
      else if decide (mail_from (mailHdr m) = 2) then
        match n with O => Ok (po, None) | S n => receive_loop n size po end
      else Ok (po, Some (mdata m ++ (gbuf <$> seq (length (mdata m)) (Z.to_nat size - length (mdata m)))))
  end.

Definition receive (size : Z) (po : PostOffice) : res (PostOffice * option (list Z)) :=
  let* box := arr_get (boxes po) mailboxNum in receive_loop (length box) size po.

(** One server with the machine number it answers to; [po] is the client's post
    office. The server handles each message when it is sent, and what it sends
    to this machine is delivered; its messages for other machines stay in [sent]. *)
Context {B : Type} `{BA : BitAllocator B} (serverID : Z) (garbage gserver : nat -> Z).

Definition exchange (w : Wire) (s : Srv B) (po : PostOffice) : res (Srv B * PostOffice) :=
  let* '(s', _) := Server serverID totalNumServers garbage gserver (to_mail w) (set_sent [] s) in
  let* po' := deliver_all po (filter (fun w => pkt_to (w_pkt w) = netAddr po) (sent s')) in
  Ok (set_sent (sent s ++ filter (fun w => pkt_to (w_pkt w) <> netAddr po) (sent s')) s', po').

Fixpoint run_call {A} (c : stub A) (s : Srv B) (po : PostOffice) : res (Srv B * PostOffice * stub A) :=
  match c with
  | Ret a => Ok (s, po, Ret a)
  | Stop f => Fault f
  | Tell w k =>
      let* _ := ASSERT (bool_decide (pkt_to (w_pkt w) = serverID)) in
      let* '(s, po) := exchange w s po in run_call k s po
  | Await size k =>
      let* '(po, buf) := receive size po in
      match buf with
      | None => Ok (s, po, Await size k)
      | Some buf => run_call (k buf) s po
      end
  end.
End Client.

(** * Lemmas *)

(** [strncpy] of a buffer with a NUL within the count. *)
Lemma strncpy_terminated_at pre nm post n : 0 ∉ nm -> (length nm < n)%nat ->
  strncpy n (pre ++ nm ++ 0 :: post) (Z.of_nat (length pre)) = Ok (nm ++ replicate (n - length nm) 0).
Proof.
  revert pre n. induction nm as [|c nm IH]; intros pre [|n] Hn Hl; cbn in Hl; try lia; cbn [strncpy].
  - rewrite (arr_get_lookup _ _ 0); [done|lia|]. rewrite Nat2Z.id, lookup_app_r, Nat.sub_diag by lia. done.
  - apply not_elem_of_cons in Hn as [Hc Hn].
    rewrite (arr_get_lookup _ _ c); [|lia|rewrite Nat2Z.id, lookup_app_r, Nat.sub_diag by lia; done].
    cbn [rbind]. rewrite decide_False by congruence.
    replace (Z.of_nat (length pre) + 1) with (Z.of_nat (length (pre ++ [c]))) by (rewrite length_app; simpl; lia).
    change ((c :: nm) ++ 0 :: post) with ([c] ++ (nm ++ 0 :: post)). rewrite app_assoc, IH by (done || lia). done.
Qed.

Section Calls.
  Context (me total box : Z) (gbuf : nat -> Z).

(** Packing the integer arguments of a call. *)
Lemma pack_ok ty args : (length args <= 3)%nat -> pack gbuf (1 + 4 * Z.of_nat (length args)) ty args = Ok (request ty args).
Proof. intros Hl. destruct args as [|x [|y [|z [|? ?]]]]; cbn in Hl; (reflexivity || lia). Qed.

(** The message a request becomes at the server, and a call that sends one. *)
Lemma send_request_ok {A} sid rand d (k : stub A) : total <> 0 -> Z.rem rand total = sid -> 0 <= box < 100 ->
  (length d <= 40)%nat ->
  exists w, send_request me total box rand (Z.of_nat (length d)) d k = Tell w k /\
    pkt_to (w_pkt w) = sid /\ to_mail w = message sid me box d.
Proof.
  intros Ht Hr Hb Hl. unfold send_request, pickServer. rewrite decide_False by done. cbn [check].
  rewrite (PostOffice_Send_ok (mkPacketHeader _ _ _) 0 box) by lia. cbn [check pkt_to pkt_from].
  eexists. split; [reflexivity|]. rewrite Nat2Z.id, firstn_all. by rewrite Hr.
Qed.

(** A post office with an empty mailbox [b] and nothing in the network buffer. *)
Record office_ok (po : PostOffice) : Prop := {
  of_addr : netAddr po = me;
  of_num : Post.numBoxes po = 100;
  of_inbox : inbox po = None;
  of_boxes : length (boxes po) = 100%nat
}.

Lemma receive_none po size : office_ok po -> 0 <= box < 100 -> arr_get (boxes po) box = Ok [] ->
  receive box gbuf size po = Ok (po, None).
Proof.
  intros [_ Hn _ _] Hb He. unfold receive. rewrite He. cbn [rbind length receive_loop].
  unfold Receive. rewrite Hn, !bool_decide_eq_true_2 by lia. cbn [ASSERT andb rbind]. by rewrite He.
Qed.

Lemma receive_one po size m : office_ok po -> 0 <= box < 100 -> arr_get (boxes po) box = Ok [m] ->
  Z.of_nat (length (mdata m)) <= size -> mail_from (mailHdr m) <> 2 -> mail_length (mailHdr m) <= 40 ->
  exists po', receive box gbuf size po =
      Ok (po', Some (mdata m ++ (gbuf <$> seq (length (mdata m)) (Z.to_nat size - length (mdata m))))) /\
    office_ok po' /\ arr_get (boxes po') box = Ok [] /\
    forall b, b <> box -> arr_get (boxes po') b = arr_get (boxes po) b.
Proof.
  intros [Ha Hn Hi Hl] Hb He Hs H2 Hlen. unfold receive. rewrite He. cbn [rbind length receive_loop].
  unfold Receive. rewrite Hn, !bool_decide_eq_true_2 by lia. cbn [ASSERT andb rbind]. rewrite He. cbn [rbind].
  destruct (arr_set (boxes po) box []) as [bs|] eqn:Hset; [|rewrite arr_set_in in Hset by lia; done]. cbn [rbind].
  rewrite bool_decide_eq_true_2 by (unfold MaxMailSize, MaxPacketSize, MaxWireSize, sizeof_header; lia). cbn [ASSERT rbind].
  rewrite decide_False, decide_False by lia. eexists. split; [reflexivity|].
  split; [split; cbn [netAddr Post.numBoxes inbox boxes]; try done; by rewrite (arr_set_length _ _ _ _ Hset)|].
  split; [by eapply arr_get_set_eq|]. intros b Hbb. by eapply arr_get_set_ne.
Qed.

Section Served.
  Context {B : Type} `{BA : BitAllocator B} (sid : Z) (garbage gserver : nat -> Z).

(** The answers of the server, delivered: each mailbox of this machine gets
    those with its number. *)
Definition to_box (rs : list ServerResponse) (b : Z) : list Mail :=
  to_mail <$> (reply sid <$> filter (fun r => toMachine r = me /\ toMailbox r = b) rs).

Lemma to_box_cons r rs b : to_box (r :: rs) b =
  (if decide (toMachine r = me /\ toMailbox r = b) then [to_mail (reply sid r)] else []) ++ to_box rs b.
Proof. unfold to_box. rewrite filter_cons. by case_decide. Qed.

(** The answers for other machines. *)
Definition elsewhere (rs : list ServerResponse) : list Wire :=
  filter (fun w => pkt_to (w_pkt w) <> me) (reply sid <$> rs).

Lemma elsewhere_cons r rs : elsewhere (r :: rs) =
  (if decide (toMachine r <> me) then [reply sid r] else []) ++ elsewhere rs.
Proof. unfold elsewhere. rewrite fmap_cons, filter_cons. cbn [w_pkt pkt_to reply]. by case_decide. Qed.

(** A message that reaches its machine. *)
Lemma delivered po b v : office_ok po -> 0 <= b < 100 -> arr_get (boxes po) b = Ok [] ->
  exists po', deliver_all po [reply sid (mkResponse me b v)] = Ok po' /\ office_ok po' /\
    arr_get (boxes po') b = Ok [to_mail (reply sid (mkResponse me b v))].
Proof.
  intros [Ha Hn Hi Hl] Hb He.
  destruct (deliver_all_boxes [reply sid (mkResponse me b v)] po) as (po' & Hd & Ha' & Hn' & Hi' & Hl' & Hbx).
  - rewrite Hn. apply Forall_singleton. split; cbn; try done; sizes_lia.
  - rewrite Ha. by apply Forall_singleton.
  - done.
  - lia.
  - exists po'. split; [done|]. split; [split; congruence|]. destruct (Hbx b) as (q & Hq & Hq'); [lia|].
    rewrite He in Hq. injection Hq as <-. rewrite Hq'. rewrite filter_cons_True by done. done.
Qed.

Lemma exchange_ok w (s s' : Srv B) rs po : office_ok po ->
  Server sid total garbage gserver (to_mail w) (set_sent [] s) = Ok (s', tt) -> sent s' = reply sid <$> rs ->
  Forall (fun r => 0 <= toMailbox r < 100) rs ->
  exists po', exchange total sid garbage gserver w s po = Ok (set_sent (sent s ++ elsewhere rs) s', po') /\ office_ok po' /\
    forall b, 0 <= b < 100 -> exists q, arr_get (boxes po) b = Ok q /\ arr_get (boxes po') b = Ok (q ++ to_box rs b).
Proof.
  intros [Ha Hn Hi Hl] HS Hsent Hrs. unfold exchange. rewrite HS. cbn [rbind]. rewrite Hsent.
  set (ws := filter _ _).
  assert (forall b, filter (fun w => mail_to (w_mail w) = b) ws = reply sid <$> filter (fun r => toMachine r = me /\ toMailbox r = b) rs) as Hf.
  { intros b. unfold ws. rewrite Ha. clear. induction rs as [|r rs IH]; [done|]. rewrite fmap_cons, !filter_cons.
    cbn [w_pkt pkt_to reply]. destruct (decide (toMachine r = me)); [rewrite filter_cons; cbn [w_mail mail_to reply];
      destruct (decide (toMailbox r = b)); [rewrite decide_True by done; cbn; by f_equal|rewrite decide_False by tauto; done]|].
    by rewrite decide_False by tauto. }
  assert (Forall (fun w => legal 100 w /\ pkt_to (w_pkt w) = me) ws) as Hws.
  { unfold ws. apply Forall_forall. intros w' [Hto Hw']%list_elem_of_filter. apply list_elem_of_fmap in Hw' as (r & -> & Hr).
    rewrite Forall_forall in Hrs. pose proof (Hrs _ Hr). split; [|by rewrite <-Ha]. split; cbn; try done; sizes_lia. }
  rewrite Forall_and in Hws. destruct Hws as [Hw1 Hw2].
  destruct (deliver_all_boxes ws po) as (po' & -> & Ha' & Hn' & Hi' & Hl' & Hb); [by rewrite Hn|by rewrite Ha|done|lia|].
  cbn [rbind]. exists po'. split; [unfold elsewhere; by rewrite Ha|]. split; [split; congruence|]. intros b Hbb.
  destruct (Hb b) as (q & Hq & Hq'); [lia|]. exists q. split; [done|]. rewrite Hq', Hf. done.
Qed.

(** A call that packs integers, sends them and waits: the server's answers are
    delivered before it looks at its mailbox. *)
Lemma request_call {A} ty args size (k : list Z -> stub A) rand (s s' : Srv B) rs po :
  (length args <= 3)%nat -> total <> 0 -> Z.rem rand total = sid -> 0 <= box < 100 -> office_ok po ->
  Server sid total garbage gserver (message sid me box (request ty args)) (set_sent [] s) = Ok (s', tt) ->
  sent s' = reply sid <$> rs -> Forall (fun r => 0 <= toMailbox r < 100) rs ->
  exists po' s2, s2 = set_sent (sent s ++ elsewhere rs) s' /\ office_ok po' /\
    (forall b, 0 <= b < 100 -> exists q, arr_get (boxes po) b = Ok q /\ arr_get (boxes po') b = Ok (q ++ to_box rs b)) /\
    run_call total box gbuf sid garbage gserver
      (check (pack gbuf (1 + 4 * Z.of_nat (length args)) ty args)
         (fun data => send_request me total box rand (1 + 4 * Z.of_nat (length args)) data (Await size k))) s po =
    run_call total box gbuf sid garbage gserver (Await size k) s2 po'.
Proof.
  intros Hl Ht Hr Hb Hof HS Hs Hrs. rewrite pack_ok by done. cbn [check].
  assert (length (request ty args) = 1 + 4 * length args)%nat as Hlr.
  { unfold request. rewrite length_cons. f_equal. clear. induction args as [|x args IH]; [done|].
    rewrite fmap_cons. cbn [concat]. rewrite length_app, IH. simpl. lia. }
  destruct (send_request_ok sid rand (request ty args) (Await size k) Ht Hr Hb) as (w & Hw & Hto & Hm); [lia|].
  replace (1 + 4 * Z.of_nat (length args)) with (Z.of_nat (length (request ty args))) by lia. rewrite Hw.
  cbn [run_call]. rewrite bool_decide_eq_true_2 by done. cbn [ASSERT rbind].
  rewrite <-Hm in HS. destruct (exchange_ok w s s' rs po Hof HS Hs Hrs) as (po' & -> & Hof' & Hbx). cbn [rbind].
  by eexists po', _.
Qed.

Lemma await_none {A} size (k : list Z -> stub A) (s : Srv B) po : office_ok po -> 0 <= box < 100 ->
  arr_get (boxes po) box = Ok [] ->
  run_call total box gbuf sid garbage gserver (Await size k) s po = Ok (s, po, Await size k).
Proof. intros Hof Hb He. cbn [run_call]. by rewrite receive_none. Qed.

Lemma await_reply {A} size (k : list Z -> stub A) (s : Srv B) po r : office_ok po -> 0 <= box < 100 -> 4 <= size ->
  arr_get (boxes po) box = Ok [to_mail (reply sid r)] ->
  exists po', office_ok po' /\ arr_get (boxes po') box = Ok [] /\
    (forall b, b <> box -> arr_get (boxes po') b = arr_get (boxes po) b) /\
    run_call total box gbuf sid garbage gserver (Await size k) s po =
    run_call total box gbuf sid garbage gserver (k (compressed (resp_data r) ++ (gbuf <$> seq 4 (Z.to_nat size - 4)))) s po'.
Proof.
  intros Hof Hb Hs He. destruct (receive_one po size _ Hof Hb He) as (po' & Hr & Hof' & He' & Hne); [cbn; lia..|].
  exists po'. split_and!; try done. cbn [run_call]. rewrite Hr. done.
Qed.

(** ** The other requests at the server *)

Lemma set_mv_request (s : Srv B) ll lc lm m b i j v :
  0 <= sid -> 0 <= i < 500 -> in_i32 (encode sid i) -> in_i32 j -> in_i32 v -> 0 <= b < 100 ->
  wf (tables s) ll lc lm -> necessaryResponses s = [] ->
  exists s' t', Server sid total garbage gserver (message sid m b (request SET_MV [encode sid i; j; v])) s = Ok (s', tt) /\
    ServerSetMV i j v (tables s) = Ok (t', tt) /\ tables s' = t' /\ necessaryResponses s' = [] /\
    sent s' = sent s ++ [reply sid (mkResponse m b (-1))].
Proof.
  intros Hm Hi Hr Hj Hv Hb Hwf Hn. destruct (decode_encode sid i Hm Hi) as [Hdec Hmach].
  destruct (ServerSetMV_spec (tables s) ll lc lm i j v Hwf) as (t' & HS & _ & _).
  set (msg := message sid m b _).
  assert (serve sid total garbage gserver (req_of gserver msg) s =
    Ok (set_tables t' (set_responses (necessaryResponses s ++ [mkResponse m b (-1)]) s), true)) as HSv.
  { change (serve _ _ _ _ ?rq s) with (serve_SET_MV sid rq s). unfold serve_SET_MV, sbind, lift.
    cbn [rq_data rq_machine rq_mailbox req_of pktHdr pkt_from mailHdr mail_from mdata msg message].
    replace (extractInt _ 1) with (Ok (encode sid i)) by (symmetry; by apply (request_arg gserver SET_MV [encode sid i; j; v] 0)).
    change (decodeMachineIDFromMVNumber (encode sid i)) with (decodeMachineIDFromLockNumber (encode sid i)).
    rewrite decide_False by tauto.
    replace (extractInt _ 5) with (Ok j) by (symmetry; by apply (request_arg gserver SET_MV [encode sid i; j; v] 1)).
    replace (extractInt _ 9) with (Ok v) by (symmetry; by apply (request_arg gserver SET_MV [encode sid i; j; v] 2)).
    unfold on_tables. cbn [push modify tables set_responses]. rewrite Hdec. cbn [tables set_responses]. rewrite HS. done. }
  eexists _, t'. split; [|split; [exact HS|]].
  - eapply (Server_done _ _ _ _ _ msg _ _ [mkResponse m b (-1)]); [done|exact HSv| |].
    + cbn. by rewrite Hn.
    + by constructor.
  - by split_and!.
Qed.

Lemma get_mv_request (s : Srv B) ll lc lm m b i j :
  0 <= sid -> 0 <= i < 500 -> in_i32 (encode sid i) -> in_i32 j -> 0 <= b < 100 ->
  wf (tables s) ll lc lm -> necessaryResponses s = [] ->
  exists s' v, Server sid total garbage gserver (message sid m b (request GET_MV [encode sid i; j])) s = Ok (s', tt) /\
    ServerGetMV i j (tables s) = Ok v /\ tables s' = tables s /\ necessaryResponses s' = [] /\
    sent s' = sent s ++ [reply sid (mkResponse m b v)].
Proof.
  intros Hm Hi Hr Hj Hb Hwf Hn. destruct (decode_encode sid i Hm Hi) as [Hdec Hmach].
  destruct (ServerGetMV_spec (tables s) ll lc lm i j Hwf) as (v & HG).
  set (msg := message sid m b _).
  assert (serve sid total garbage gserver (req_of gserver msg) s =
    Ok (set_responses (necessaryResponses s ++ [mkResponse m b v]) s, true)) as HSv.
  { change (serve _ _ _ _ ?rq s) with (serve_GET_MV sid rq s). unfold serve_GET_MV, sbind, lift.
    cbn [rq_data rq_machine rq_mailbox req_of pktHdr pkt_from mailHdr mail_from mdata msg message].
    replace (extractInt _ 1) with (Ok (encode sid i)) by (symmetry; by apply (request_arg gserver GET_MV [encode sid i; j] 0)).
    change (decodeMachineIDFromMVNumber (encode sid i)) with (decodeMachineIDFromLockNumber (encode sid i)).
    rewrite decide_False by tauto.
    replace (extractInt _ 5) with (Ok j) by (symmetry; by apply (request_arg gserver GET_MV [encode sid i; j] 1)).
    unfold read_tables. rewrite Hdec, HG. done. }
  eexists _, v. split; [|split; [exact HG|]].
  - eapply (Server_done _ _ _ _ _ msg _ _ [mkResponse m b v]); [done|exact HSv| |].
    + cbn. by rewrite Hn.
    + by constructor.
  - by split_and!.
Qed.

(** The requests to destroy are not answered. *)
Lemma destroy_requests (s : Srv B) ll lc lm m b i :
  0 <= sid -> 0 <= i < 500 -> in_i32 (encode sid i) -> wf (tables s) ll lc lm ->
  (exists t, Server sid total garbage gserver (message sid m b (request DESTROY_LOCK [encode sid i])) s = Ok (set_tables t s, tt)) /\
  (exists t, Server sid total garbage gserver (message sid m b (request DESTROY_CV [encode sid i])) s = Ok (set_tables t s, tt)).
Proof.
  intros Hm Hi Hr Hwf. destruct (decode_encode sid i Hm Hi) as [Hdec Hmach].
  destruct (ServerDestroyLock_wf (tables s) ll lc lm i Hwf) as (t1 & ll' & H1 & _).
  destruct (ServerDestroyCV_wf (tables s) ll lc lm (encode sid i) Hwf) as (t2 & lc' & H2 & _).
  split; [exists t1|exists t2]; set (msg := message sid m b _); unfold Server, sbind at 1.
  - change (serve _ _ _ _ ?rq s) with (serve_DESTROY_LOCK sid rq s). unfold serve_DESTROY_LOCK, sbind, lift.
    cbn [rq_data rq_machine rq_mailbox req_of pktHdr pkt_from mailHdr mail_from mdata msg message].
    replace (extractInt _ 1) with (Ok (encode sid i)) by (symmetry; by apply (request_arg gserver DESTROY_LOCK [encode sid i] 0)).
    rewrite decide_False by tauto. unfold on_tables. by rewrite Hdec, H1.
  - change (serve _ _ _ _ ?rq s) with (serve_DESTROY_CV sid rq s). unfold serve_DESTROY_CV, sbind, lift.
    cbn [rq_data rq_machine rq_mailbox req_of pktHdr pkt_from mailHdr mail_from mdata msg message].
    replace (extractInt _ 1) with (Ok (encode sid i)) by (symmetry; by apply (request_arg gserver DESTROY_CV [encode sid i] 0)).
    change (decodeMachineIDFromCVNumber (encode sid i)) with (decodeMachineIDFromLockNumber (encode sid i)).
    rewrite decide_False by tauto. unfold on_tables. by rewrite H2.
Qed.

(** A packed name: what [CreateLock_Syscall] and [CreateCondition_Syscall] send. *)
Lemma pack_name_ok ty name : exists d n,
  (let* data := pack gbuf (2 + Z.of_nat (length name)) ty [] in pack_name data 1 name) = Ok d /\
  strncpy (length name) name 0 = Ok n /\ length n = length name /\
  d = ty :: i8 (Z.of_nat (length name)) :: n.
Proof.
  destruct (strncpy_ok (length name) name 0) as (n & Hn & Hln); [lia|lia|].
  unfold pack, new_chars. rewrite decide_False by lia. cbn [rbind].
  replace (Z.to_nat (2 + Z.of_nat (length name))) with (2 + length name)%nat by lia.
  rewrite seq_app, fmap_app. cbn [seq fmap list_fmap app].
  change (arr_set (gbuf 0%nat :: gbuf 1%nat :: ?r) 0 ty) with (arr_set ([] ++ gbuf 0%nat :: gbuf 1%nat :: r) 0 ty).
  rewrite arr_set_in by (rewrite app_nil_l; cbn [length]; lia). cbn [rbind app pack_ints].
  change (Z.to_nat 0) with 0%nat. cbn [insert list_insert].
  unfold pack_name. rewrite arr_set_in by (cbn [length]; lia). cbn [rbind].
  change (Z.to_nat 1) with 1%nat. cbn [insert list_insert]. rewrite Hn. cbn [rbind].
  exists (ty :: i8 (Z.of_nat (length name)) :: n), n. split_and!; try done.
  pose proof (store_app n [ty; i8 (Z.of_nat (length name))] (gbuf <$> seq 2 (length name)) []) as Hst.
  rewrite !app_nil_r in Hst. apply Hst. by rewrite length_fmap, length_seq.
Qed.
End Served.
End Calls.

(** * Properties *)

Section Network.
  Context {B : Type} `{BA : BitAllocator B} (me total sid : Z) (gbuf garbage gserver : nat -> Z).
  Abbreviation run box := (run_call total box gbuf sid garbage gserver).

(** The client [granted] is suspended in its call of [Acquire_Syscall]. On this
    machine the call returns ([po] is the post office before the server answered
    and [po'] afterwards); on another one, whatever the state of its post office,
    the call returns once the message that is left in the network arrives. *)
Definition grant_arrives (s s' : Srv B) (po po' : PostOffice) (granted : option client) : Prop :=
  match granted with
  | None => sent s' = sent s
  | Some (m, next) =>
      if decide (m = me) then
        sent s' = sent s /\
        (arr_get (boxes po) next = Ok [] ->
         exists po2, run next (Await MaxMailSize (fun _ => Ret tt)) s' po' = Ok (s', po2, Ret tt))
      else exists w, sent s' = sent s ++ [w] /\ pkt_to (w_pkt w) = m /\
        forall po2, office_ok m po2 -> arr_get (boxes po2) next = Ok [] ->
          exists po3 po4, deliver_all po2 [w] = Ok po3 /\
            run next (Await MaxMailSize (fun _ => Ret tt)) s' po3 = Ok (s', po4, Ret tt)
  end.

Lemma lock_spec_acquire (m b : Z) q :
  (lock_spec (LAcquire (m, b)) q).1 = (if decide (head q = Some (m, b)) then q else q ++ [(m, b)]) /\
  ((lock_spec (LAcquire (m, b)) q).2 = Some (m, b) /\ head (q ++ [(m, b)]) = Some (m, b) \/
   (lock_spec (LAcquire (m, b)) q).2 = None /\ head (q ++ [(m, b)]) <> Some (m, b)).
Proof.
  destruct q as [|h q]; cbn [lock_spec app head fst snd]; [by rewrite decide_False by done; auto|].
  destruct (decide (h = (m, b))) as [->|Hne]; [rewrite !decide_True by done; auto|].
  assert ((m, b) <> h) as Hne1 by done. assert (Some h <> Some (m, b)) as Hne2 by (by intros [=]).
  rewrite (decide_False _ _ Hne1), (decide_False _ _ Hne2). auto.
Qed.

Lemma lock_spec_release (m b : Z) q :
  (lock_spec (LRelease (m, b)) q).1 = (if decide (head q = Some (m, b)) then tail q else q) /\
  (lock_spec (LRelease (m, b)) q).2 = (if decide (head q = Some (m, b)) then head (tail q) else None).
Proof.
  destruct q as [|h q]; cbn [lock_spec head tail fst snd]; [by rewrite !decide_False by done|].
  destruct (decide (h = (m, b))) as [->|Hne]; [by rewrite !decide_True|].
  assert ((m, b) <> h) as Hne1 by done. assert (Some h <> Some (m, b)) as Hne2 by (by intros [=]).
  by rewrite (decide_False _ _ Hne1), !(decide_False _ _ Hne2).
Qed.

(** The answer to the owner's [Release] and the message to the next client. *)
Lemma grant_delivered (s s2 : Srv B) po po1 po2 box c :
  0 <= box < 100 -> (forall g, c = Some g -> 0 <= g.2 < 100) -> c <> Some (me, box) -> office_ok me po2 ->
  (forall b, 0 <= b < 100 -> exists q, arr_get (boxes po) b = Ok q /\
     arr_get (boxes po1) b = Ok (q ++ to_box me sid (mkResponse me box (-1) :: grant c) b)) ->
  (forall b, b <> box -> arr_get (boxes po2) b = arr_get (boxes po1) b) ->
  sent s2 = sent s ++ elsewhere me sid (mkResponse me box (-1) :: grant c) ->
  grant_arrives s s2 po po2 c.
Proof.
  intros Hb Hc Hself Hof Hbx Hne Hs. rewrite elsewhere_cons in Hs. cbn [toMachine] in Hs. rewrite decide_False in Hs by tauto.
  destruct c as [[m next]|]; cbn [grant grant_arrives fst snd] in *; [|by rewrite Hs, app_nil_r].
  specialize (Hc _ eq_refl). cbn in Hc. rewrite elsewhere_cons in Hs. cbn [toMachine] in Hs.
  destruct (decide (m = me)) as [->|Hm].
  - rewrite decide_False in Hs by tauto. split; [by rewrite Hs, app_nil_r|]. intros Hen. assert (next <> box) as Hnb by congruence.
    destruct (Hbx next Hc) as (q & Hq & Hq1). rewrite Hen in Hq. injection Hq as <-. rewrite <-Hne in Hq1 by done.
    rewrite !to_box_cons, decide_False, decide_True in Hq1 by (cbn; naive_solver).
    destruct (await_reply me total next gbuf sid garbage gserver MaxMailSize (fun _ => Ret tt) s2 po2 _ Hof Hc ltac:(by vm_compute) Hq1)
      as (po3 & _ & _ & _ & ->). by exists po3.
  - rewrite decide_True in Hs by done. eexists. split; [exact Hs|]. split; [done|]. intros po3 Hof3 He3.
    destruct (delivered m sid po3 next (-1) Hof3 Hc He3) as (po4 & Hd & Hof4 & He4).
    destruct (await_reply m total next gbuf sid garbage gserver MaxMailSize (fun _ => Ret tt) s2 po4 _ Hof4 Hc ltac:(by vm_compute) He4)
      as (po5 & _ & _ & _ & Hr). exists po4, po5. split; [exact Hd|]. rewrite Hr. done.
Qed.

(** C4: the lock calls of user programs over the network, when the server picked
    at random is the one that owns the lock and the lock is not about to be
    destroyed. The clients (machine and mailbox) of a lock form a queue whose
    first is the owner. [Acquire_Syscall] of a client returns exactly when it
    becomes or is the first of the queue, and otherwise waits for mail with the
    client at the end of the queue. [Release_Syscall] on a queue where no client
    is twice (a client that waits makes no calls) always returns; it changes
    nothing unless the client is the owner, and otherwise takes it off the queue,
    and then the next client, if there is one, on this machine or on another, is
    sent the message that makes the [Acquire_Syscall] it is suspended in
    return ([grant_arrives]). *)
Theorem lock_calls_over_the_network (s : Srv B) po ll lc lm i e L q box rand :
  0 <= sid -> 0 <= i < 500 -> in_i32 (encode sid i) -> total <> 0 -> Z.rem rand total = sid ->
  0 <= box < 100 -> office_ok me po -> arr_get (boxes po) box = Ok [] ->
  wf (tables s) ll lc lm -> necessaryResponses s = [] -> taken ll i = true ->
  serverLockTable (tables s) !! Z.to_nat i = Some e -> le_lock e = Some L -> le_isToBeDeleted e = false ->
  lock_rep L q -> Forall (fun c => 0 <= c.2 < 100) q ->
  (exists s' po' L', run box (Acquire_Syscall me total box gbuf (encode sid i) rand) s po =
       Ok (s', po', if decide (head (q ++ [(me, box)]) = Some (me, box)) then Ret tt else Await MaxMailSize (fun _ => Ret tt)) /\
     office_ok me po' /\ arr_get (boxes po') box = Ok [] /\ wf (tables s') ll lc lm /\ lock_at (tables s') i = Ok L' /\
     lock_rep L' (if decide (head q = Some (me, box)) then q else q ++ [(me, box)]) /\ sent s' = sent s) /\
  (NoDup q -> exists s' po' L', run box (Release_Syscall me total box gbuf (encode sid i) rand) s po = Ok (s', po', Ret tt) /\
     office_ok me po' /\ arr_get (boxes po') box = Ok [] /\ wf (tables s') ll lc lm /\ lock_at (tables s') i = Ok L' /\
     lock_rep L' (if decide (head q = Some (me, box)) then tail q else q) /\
     grant_arrives s s' po po' (if decide (head q = Some (me, box)) then head (tail q) else None)).
Proof.
  intros Hsid Hi Hri Ht Hr Hb Hof He Hwf Hn Htk Hent HL Hd HR Hq. split.
  - destruct (acquire_request sid total garbage gserver (set_sent [] s) ll lc lm me box i e L q)
      as (s1 & L1 & HS & Hwf1 & HL1 & HR1 & Hn1 & Hs1); [done..|].
    destruct (lock_spec_acquire me box q) as [E1 E2]. rewrite E1 in HR1. clear E1.
    set (c := (lock_spec (LAcquire (me, box)) q).2) in *.
    destruct (request_call me total box gbuf sid garbage gserver ACQUIRE [encode sid i] MaxMailSize (fun _ => Ret tt) rand
      s s1 (grant c) po) as (po1 & s2 & Hs2 & Hof1 & Hbx & Hrun); [cbn; lia|done..| |].
    { destruct E2 as [[-> _]|[-> _]]; [apply Forall_singleton; exact Hb|constructor]. }
    change (check _ _) with (Acquire_Syscall me total box gbuf (encode sid i) rand) in Hrun. rewrite Hrun. clear Hrun.
    destruct (Hbx box Hb) as (q0 & Hq0 & Hq1). rewrite He in Hq0. injection Hq0 as <-. cbn [app] in Hq1.
    assert (sent s2 = sent s) as Hsame.
    { rewrite Hs2. cbn. destruct E2 as [[-> _]|[-> _]]; cbn [grant]; [|by rewrite app_nil_r].
      rewrite elsewhere_cons. cbn [toMachine fst]. rewrite decide_False by tauto. cbn. by rewrite app_nil_r. }
    assert (tables s2 = tables s1) as Ht2 by by rewrite Hs2. rewrite <-Ht2 in Hwf1, HL1. clear Hs1 Hbx.
    destruct E2 as [[E2 Hh]|[E2 Hh]]; rewrite E2 in Hq1; cbn [grant] in Hq1.
    + rewrite to_box_cons, decide_True in Hq1 by done. rewrite (decide_True _ _ Hh).
      destruct (await_reply me total box gbuf sid garbage gserver MaxMailSize (fun _ => Ret tt) s2 po1 _ Hof1 Hb ltac:(by vm_compute) Hq1)
        as (po2 & Hof2 & He2 & _ & ->). exists s2, po2, L1. by split_and!.
    + rewrite (decide_False _ _ Hh). rewrite (await_none me) by done. exists s2, po1, L1. by split_and!.
  - intros Hnd. destruct (release_request sid total garbage gserver (set_sent [] s) ll lc lm me box i e L q)
      as (s1 & L1 & HS & Hwf1 & HL1 & HR1 & Hn1 & Hs1); [done..|].
    destruct (lock_spec_release me box q) as [E1 E2]. rewrite E1 in HR1. clear E1.
    rewrite <-E2. set (c := (lock_spec (LRelease (me, box)) q).2) in *.
    assert (forall g, c = Some g -> 0 <= g.2 < 100) as Hc.
    { intros g Hg. rewrite Forall_forall in Hq. apply (Hq g). rewrite E2 in Hg. case_decide; [|done].
      destruct q as [|? [|? ?]]; try done. cbn in Hg. simplify_eq. set_solver. }
    destruct (request_call me total box gbuf sid garbage gserver RELEASE [encode sid i] 5 (fun _ => Ret tt) rand
      s s1 (mkResponse me box (-1) :: grant c) po) as (po1 & s2 & Hs2 & Hof1 & Hbx & Hrun); [cbn; lia|done..| |].
    { constructor; [done|]. destruct c as [g|]; [apply Forall_singleton; by apply Hc|constructor]. }
    change (check _ _) with (Release_Syscall me total box gbuf (encode sid i) rand) in Hrun. rewrite Hrun. clear Hrun.
    assert (c <> Some (me, box)) as Hself.
    { rewrite E2. case_decide as Hh; [|done]. destruct q as [|h [|h2 q]]; try done. cbn in *. intros [= ->].
      injection Hh as ->. apply NoDup_cons in Hnd as [Hin _]. set_solver. }
    destruct (Hbx box Hb) as (q0 & Hq0 & Hq1). rewrite He in Hq0. injection Hq0 as <-. cbn [app] in Hq1.
    rewrite to_box_cons, decide_True in Hq1 by done.
    assert (to_box me sid (grant c) box = []) as Hnone.
    { destruct c as [[m b]|]; [|done]. cbn [grant fst snd]. rewrite to_box_cons, decide_False; [done|]. cbn. intros [-> ->]. done. }
    rewrite Hnone, app_nil_r in Hq1.
    destruct (await_reply me total box gbuf sid garbage gserver 5 (fun _ => Ret tt) s2 po1 _ Hof1 Hb ltac:(lia) Hq1)
      as (po2 & Hof2 & He2 & Hne2 & ->).
    assert (tables s2 = tables s1) as Ht2 by by rewrite Hs2. rewrite <-Ht2 in Hwf1, HL1.
    exists s2, po2, L1. split_and!; try done. apply (grant_delivered s s2 po po1 po2 box c); try done. by rewrite Hs2.
Qed.

(** C36: monitor variables over the network, when the servers picked at random
    for both calls are the one that owns the arrays. (Another server asks the
    rest for the array; its owner denies the one in slot 0, see
    [Server.slot_zero_is_denied], and the call on it never returns.)
    [SetMV_Syscall] on an entry inside an array in use returns, and from then on
    [GetMV_Syscall] of any entry of any array returns the value stored if it is
    that entry and otherwise what the server answered before. *)
Theorem monitor_variables_over_the_network (s : Srv B) po ll lc lm i j v e box rand :
  0 <= sid -> 0 <= i < 500 -> in_i32 (encode sid i) -> in_i32 j -> in_i32 v -> total <> 0 -> Z.rem rand total = sid ->
  0 <= box < 100 -> office_ok me po -> arr_get (boxes po) box = Ok [] -> wf (tables s) ll lc lm ->
  necessaryResponses s = [] -> taken lm i = true -> arr_get (serverMVTable (tables s)) i = Ok e -> 0 <= j < mv_numEntries e ->
  exists s' po', run box (SetMV_Syscall me total box gbuf (encode sid i) j v rand) s po = Ok (s', po', Ret tt) /\
    forall i2 j2 old rand2, 0 <= i2 < 500 -> in_i32 (encode sid i2) -> in_i32 j2 -> Z.rem rand2 total = sid ->
      ServerGetMV i2 j2 (tables s) = Ok old -> in_i32 old ->
      exists s2 po2, run box (GetMV_Syscall me total box gbuf (encode sid i2) j2 rand2) s' po' =
        Ok (s2, po2, Ret (if decide (i2 = i /\ j2 = j) then v else old)).
Proof.
  intros Hsid Hi Hri Hj Hv Ht Hr Hb Hof He Hwf Hn Htk Hent Hjn.
  destruct (set_mv_request total sid garbage gserver (set_sent [] s) ll lc lm me box i j v)
    as (s1 & t1 & HS & Hset & Ht1 & Hn1 & Hs1); [done..|].
  destruct (request_call me total box gbuf sid garbage gserver SET_MV [encode sid i; j; v] 13 (fun _ => Ret tt) rand
    s s1 [mkResponse me box (-1)] po) as (po1 & s1' & Hs1' & Hof1 & Hbx & Hrun); [cbn; lia|done..|by apply Forall_singleton|].
  change (check _ _) with (SetMV_Syscall me total box gbuf (encode sid i) j v rand) in Hrun. rewrite Hrun. clear Hrun.
  destruct (Hbx box Hb) as (q0 & Hq0 & Hq1). rewrite He in Hq0. injection Hq0 as <-.
  rewrite to_box_cons, decide_True in Hq1 by done. cbn [app] in Hq1.
  destruct (await_reply me total box gbuf sid garbage gserver 13 (fun _ => Ret tt) s1' po1 _ Hof1 Hb ltac:(lia) Hq1)
    as (po2 & Hof2 & He2 & _ & ->).
  assert (tables s1' = tables s1) as Hts by (by rewrite Hs1'). assert (necessaryResponses s1' = []) as Hns by (by rewrite Hs1').
  clear Hs1'. exists s1', po2. split; [done|]. intros i2 j2 old rand2 Hi2 Hri2 Hj2 Hr2 Hold Hio.
  destruct (ServerSetMV_spec (tables s) ll lc lm i j v Hwf) as (t' & Hset' & Hwf' & HG).
  cbn [tables set_sent] in Hset. assert (t' = t1) as -> by congruence.
  destruct (get_mv_request total sid garbage gserver (set_sent [] s1') ll lc lm me box i2 j2)
    as (s3 & w & HS3 & Hget & Ht3 & Hn3 & Hs3); [done..|by rewrite <-Ht1, <-Hts in Hwf'|done|].
  cbn [tables set_sent] in Hget, Ht3. rewrite Hts, Ht1, HG, Htk, Hent, (bool_decide_eq_true_2 (0 <= j < _)) in Hget by done.
  assert (w = if decide (i2 = i /\ j2 = j) then v else old) as ->.
  { rewrite Hold in Hget. clear -Hget. repeat case_bool_decide; cbn [andb] in Hget; rewrite ?decide_True, ?decide_False by tauto; congruence. }
  destruct (request_call me total box gbuf sid garbage gserver GET_MV [encode sid i2; j2] MaxMailSize
    (fun d => check (extractIntFromBytes d 0) Ret) rand2 s1' s3
    [mkResponse me box (if decide (i2 = i /\ j2 = j) then v else old)] po2) as (po3 & s3' & _ & Hof3 & Hbx3 & Hrun); [cbn; lia|done..|by apply Forall_singleton|].
  change (check (pack _ _ _ _) _) with (GetMV_Syscall me total box gbuf (encode sid i2) j2 rand2) in Hrun. rewrite Hrun. clear Hrun.
  destruct (Hbx3 box Hb) as (q0 & Hq0 & Hq3). rewrite He2 in Hq0. injection Hq0 as <-.
  rewrite to_box_cons, decide_True in Hq3 by done. cbn [app] in Hq3.
  destruct (await_reply me total box gbuf sid garbage gserver MaxMailSize (fun d => check (extractIntFromBytes d 0) Ret)
    s3' po3 _ Hof3 Hb ltac:(by vm_compute) Hq3) as (po4 & Hof4 & He4 & _ & ->).
  exists s3', po4. cbn [resp_data]. unfold extractIntFromBytes.
  match goal with |- context [compressed ?x ++ ?r] => pose proof (extractInt_app [] x r 0) as Hx end.
  cbn [app] in Hx. rewrite Hx; [done| |done]. by case_decide.
Qed.

(** [DestroyLock_Syscall] and [DestroyCondition_Syscall] do not return. They
    wait for an answer to their message, but the server neither sends anything
    nor queues an answer for later when it handles it, whatever state its
    tables are in: the post office of the client stays as it was and the
    thread waits. [DestroyMV_Syscall] does not wait and returns. *)
Theorem destroy_calls_are_never_answered (s : Srv B) po ll lc lm i box rand :
  0 <= sid -> 0 <= i < 500 -> in_i32 (encode sid i) -> total <> 0 -> Z.rem rand total = sid ->
  0 <= box < 100 -> office_ok me po -> arr_get (boxes po) box = Ok [] -> wf (tables s) ll lc lm ->
  (exists t po', run box (DestroyLock_Syscall me total box gbuf (encode sid i) rand) s po =
     Ok (set_tables t s, po', Await 5 (fun _ => Ret tt)) /\
     forall b, 0 <= b < 100 -> arr_get (boxes po') b = arr_get (boxes po) b) /\
  (exists t po', run box (DestroyCondition_Syscall me total box gbuf (encode sid i) rand) s po =
     Ok (set_tables t s, po', Await 5 (fun _ => Ret tt)) /\
     forall b, 0 <= b < 100 -> arr_get (boxes po') b = arr_get (boxes po) b).
Proof.
  intros Hsid Hi Hri Ht Hr Hb Hof He Hwf.
  destruct (destroy_requests total sid garbage gserver (set_sent [] s) ll lc lm me box i Hsid Hi Hri Hwf) as [[t1 H1] [t2 H2]].
  assert (forall ty t, Server sid total garbage gserver (message sid me box (request ty [encode sid i])) (set_sent [] s) =
      Ok (set_tables t (set_sent [] s), tt) ->
    exists t po', run box (check (pack gbuf 5 ty [encode sid i]) (fun data => send_request me total box rand 5 data (Await 5 (fun _ => Ret tt)))) s po =
      Ok (set_tables t s, po', Await 5 (fun _ => Ret tt)) /\
      forall b, 0 <= b < 100 -> arr_get (boxes po') b = arr_get (boxes po) b) as Hgen; [|split; [exact (Hgen DESTROY_LOCK t1 H1)|exact (Hgen DESTROY_CV t2 H2)]].
  intros ty t HS.
  destruct (request_call me total box gbuf sid garbage gserver ty [encode sid i] 5 (fun _ => Ret tt) rand
    s (set_tables t (set_sent [] s)) [] po) as (po1 & s2 & Hs2 & Hof1 & Hbx & Hrun); [cbn; lia|done..|by apply Forall_nil|].
  assert (s2 = set_tables t s) as -> by (rewrite Hs2; cbn; rewrite app_nil_r; by destruct s).
  exists t, po1. change (1 + 4 * Z.of_nat (length [encode sid i])) with 5 in Hrun. rewrite Hrun.
  assert (forall b, 0 <= b < 100 -> arr_get (boxes po1) b = arr_get (boxes po) b) as Hsame.
  { intros b Hbb. destruct (Hbx b Hbb) as (q & Hq & Hq'). rewrite Hq, Hq'. cbn. by rewrite app_nil_r. }
  split; [|done]. rewrite (await_none me); [done|done|done|]. by rewrite Hsame.
Qed.

(** names in messages. A create with a name of at most 38 bytes sends the
    type, the length and the name, and the server reads exactly the name back
    out of its buffer when it is NUL-terminated within its length; with a
    longer name the message exceeds [MaxMailSize] and the ASSERT of
    [PostOffice::Send] stops the kernel of the machine, so a user program can
    bring it down. *)
Theorem long_names_stop_the_kernel name box rand : total <> 0 -> Z.rem rand total = sid -> 0 <= box < 100 ->
  (Z.of_nat (length name) > MaxMailSize - 2 -> CreateLock_Syscall me total box gbuf name rand = Stop AssertFail) /\
  (forall nm post, name = nm ++ 0 :: post -> 0 ∉ nm -> Z.of_nat (length name) <= MaxMailSize - 2 ->
   exists w, CreateLock_Syscall me total box gbuf name rand =
       Tell w (Await MaxMailSize (fun d => check (extractIntFromBytes d 0) Ret)) /\
     pkt_to (w_pkt w) = sid /\ let d := rq_data (req_of gserver (to_mail w)) in
     arr_get d 0 = Ok CREATE_LOCK /\ arr_get d 1 = Ok (Z.of_nat (length name)) /\
     copy_name (Z.of_nat (length name)) d 2 = Ok (nm ++ replicate (length name - length nm) 0)).
Proof.
  intros Ht Hr Hb. destruct (pack_name_ok gbuf CREATE_LOCK name) as (d & n & Hd & Hn & Hln & Hdn).
  assert (length d = 2 + length name)%nat as Hld by (rewrite Hdn; cbn; lia).
  unfold CreateLock_Syscall. rewrite Hd. cbn [check].
  replace (2 + Z.of_nat (length name)) with (Z.of_nat (length d)) by lia. split.
  - intros Hl. unfold send_request, pickServer. rewrite decide_False by done. cbn [check].
    unfold PostOffice_Send. cbn [mail_length]. rewrite bool_decide_eq_false_2 by lia. done.
  - intros nm post Hname Hnm Hl.
    destruct (send_request_ok me total box sid rand d (Await MaxMailSize (fun d => check (extractIntFromBytes d 0) Ret)) Ht Hr Hb)
      as (w & Hw & Hto & Hm); [unfold MaxMailSize, MaxPacketSize, MaxWireSize, sizeof_header in Hl; lia|].
    exists w. split; [exact Hw|]. split; [done|]. rewrite Hm. cbn [req_of rq_data message mdata].
    assert (length nm < length name)%nat as Hlt by (rewrite Hname, length_app; cbn; lia).
    pose proof (strncpy_terminated_at [] nm post (length name) Hnm Hlt) as Hcp. cbn [app length] in Hcp.
    rewrite <-Hname in Hcp. change (Z.of_nat 0) with 0 in Hcp. rewrite Hcp in Hn. injection Hn as <-.
    assert (i8 (Z.of_nat (length name)) = Z.of_nat (length name)) as Hi8.
    { unfold MaxMailSize, MaxPacketSize, MaxWireSize, sizeof_header in Hl. unfold i8. rewrite Z.mod_small by lia. lia. }
    rewrite Hdn, Hi8. split; [done|]. split; [done|]. unfold copy_name. rewrite decide_False, Nat2Z.id by lia.
    unfold receive_buffer.
    match goal with |- strncpy _ (_ ++ ?g) _ = _ =>
      rewrite <-(strncpy_terminated_at [CREATE_LOCK; Z.of_nat (length name)] nm
        (replicate (length name - length nm - 1) 0 ++ g) (length name) Hnm Hlt) end.
    f_equal. cbn [app]. do 2 f_equal.
    replace (length name - length nm)%nat with (S (length name - length nm - 1)) at 1 by lia. cbn [replicate]. by rewrite <-app_assoc.
Qed.
End Network.

(** * Witnesses *)

Definition demo_office : PostOffice := PostOffice_new 4 100.

Lemma demo_office_ok : office_ok 4 demo_office.
Proof. by split. Qed.

(** Thread 5 of machine 4 owns the lock of [demo_tables], thread 6 waits for it. *)
Definition two_clients : Srv BitMap :=
  srv_with (state_after held_tables (ServerAcquire 4 6 0 (state_after demo_tables (ServerAcquire 4 5 0 demo_tables)))).

(** The lock of [two_clients]. *)
Definition shared_lock : ServerLock :=
  match lock_at (tables two_clients) 0 with Ok L => L | Fault _ => ServerLock_new [] end.

Lemma two_clients_wf : wf (tables two_clients) demo_slots demo_slots demo_slots.
Proof.
  destruct (ServerAcquire_spec demo_tables _ _ _ 4 5 0 demo_wf) as (t1 & r1 & H1 & Hw1 & _).
  destruct (ServerAcquire_spec t1 _ _ _ 4 6 0 Hw1) as (t2 & r2 & H2 & Hw2 & _).
  unfold two_clients, srv_with, state_after. cbn [tables]. rewrite H1, H2. exact Hw2.
Qed.

(** Thread 7 has to wait; when thread 5 releases the lock, thread 6 gets it. *)
Example lock_calls_over_the_network_witness :
  (exists s' po', run_call 2 7 zeros 1 zeros zeros (Acquire_Syscall 4 2 7 zeros (encode 1 0) 7) two_clients demo_office =
     Ok (s', po', Await MaxMailSize (fun _ => Ret tt))) /\
  exists s' po' po2, run_call 2 5 zeros 1 zeros zeros (Release_Syscall 4 2 5 zeros (encode 1 0) 7) two_clients demo_office =
     Ok (s', po', Ret tt) /\
   run_call 2 6 zeros 1 zeros zeros (Await MaxMailSize (fun _ => Ret tt)) s' po' = Ok (s', po2, Ret tt).
Proof.
  assert (in_i32 (encode 1 0)) as Hi by (vm_compute; split; [discriminate|reflexivity]).
  assert (serverLockTable (tables two_clients) !! Z.to_nat 0 = Some (mkLockEntry (Some shared_lock) false 2)) as He
    by (vm_compute; reflexivity).
  assert (lock_rep shared_lock [(4, 5); (4, 6)]) as HR by (vm_compute; repeat split).
  assert (Forall (fun c : client => 0 <= c.2 < 100) [(4, 5); (4, 6)]) as Hq
    by (repeat apply Forall_cons_2; [cbn; lia|cbn; lia|apply Forall_nil_2]).
  assert (NoDup [(4, 5); (4, 6)] ) as Hnd by (apply (bool_decide_unpack _); vm_compute; exact I).
  assert (0 <= 0 < 500) as H0 by lia. assert (0 <= 1) as H1 by lia. assert (2 <> 0) as H2 by lia.
  assert (0 <= 7 < 100) as H7 by lia. assert (0 <= 5 < 100) as H5 by lia.
  split.
  - destruct (lock_calls_over_the_network 4 2 1 zeros zeros zeros two_clients demo_office demo_slots demo_slots demo_slots 0
      _ shared_lock [(4, 5); (4, 6)] 7 7 H1 H0 Hi H2 eq_refl H7 demo_office_ok eq_refl two_clients_wf eq_refl eq_refl
      He eq_refl eq_refl HR Hq) as [(s' & po' & L' & H & _) _]. exists s', po'. exact H.
  - destruct (lock_calls_over_the_network 4 2 1 zeros zeros zeros two_clients demo_office demo_slots demo_slots demo_slots 0
      _ shared_lock [(4, 5); (4, 6)] 5 7 H1 H0 Hi H2 eq_refl H5 demo_office_ok eq_refl two_clients_wf eq_refl eq_refl
      He eq_refl eq_refl HR Hq) as [_ Hrel].
    destruct (Hrel Hnd) as (s' & po' & L' & H & _ & _ & _ & _ & _ & _ & Hg).
    destruct (Hg eq_refl) as (po2 & Hr). exists s', po', po2. split; [exact H|exact Hr].
Defined.

Example monitor_variables_over_the_network_witness : exists s' po' s2 po2,
  run_call 2 5 zeros 1 zeros zeros (SetMV_Syscall 4 2 5 zeros (encode 1 0) 1 33 7) (srv_with demo_tables) demo_office = Ok (s', po', Ret tt) /\
  run_call 2 5 zeros 1 zeros zeros (GetMV_Syscall 4 2 5 zeros (encode 1 0) 1 9) s' po' = Ok (s2, po2, Ret 33).
Proof.
  assert (in_i32 (encode 1 0)) as Hi0 by (by vm_compute). assert (in_i32 1) as Hi1 by (by vm_compute).
  assert (in_i32 9) as Hi9 by (by vm_compute). assert (0 <= 0 < 500) as H0 by lia.
  destruct (monitor_variables_over_the_network 4 2 1 zeros zeros zeros (srv_with demo_tables) demo_office demo_slots demo_slots demo_slots
    0 1 33 (mkMVEntry (Some [9; 9; 9]) 3 [76; 0]) 5 7) as (s' & po' & H1 & H2).
  - lia.
  - lia.
  - by vm_compute.
  - by vm_compute.
  - by vm_compute.
  - lia.
  - reflexivity.
  - lia.
  - exact demo_office_ok.
  - reflexivity.
  - exact demo_wf.
  - reflexivity.
  - reflexivity.
  - vm_compute. reflexivity.
  - cbn. lia.
  - assert (ServerGetMV 0 1 (tables (srv_with demo_tables)) = Ok 9) as Hget by (vm_compute; reflexivity).
    destruct (H2 0 1 9 9 H0 Hi0 Hi1 eq_refl Hget Hi9) as (s2 & po2 & H3).
    exists s', po', s2, po2. split; [exact H1|exact H3].
Defined.

Example destroy_calls_are_never_answered_witness : exists s' po',
  run_call 2 5 zeros 1 zeros zeros (DestroyLock_Syscall 4 2 5 zeros (encode 1 0) 7) (srv_with demo_tables) demo_office =
    Ok (s', po', Await 5 (fun _ => Ret tt)).
Proof.
  destruct (destroy_calls_are_never_answered 4 2 1 zeros zeros zeros (srv_with demo_tables) demo_office demo_slots demo_slots demo_slots 0 5 7)
    as [(t & po' & H & _) _].
  - lia.
  - lia.
  - by vm_compute.
  - lia.
  - reflexivity.
  - lia.
  - exact demo_office_ok.
  - reflexivity.
  - exact demo_wf.
  - eexists _, po'. exact H.
Defined.

Example long_names_stop_the_kernel_witness :
  CreateLock_Syscall 4 2 5 zeros (replicate 40 65) 7 = Stop AssertFail /\
  exists w, CreateLock_Syscall 4 2 5 zeros [65; 66; 0; 9] 7 = Tell w (Await MaxMailSize (fun d => check (extractIntFromBytes d 0) Ret)) /\
    copy_name 4 (rq_data (req_of zeros (to_mail w))) 2 = Ok [65; 66; 0; 0].
Proof.
  split.
  - apply (long_names_stop_the_kernel 4 2 1 zeros zeros (replicate 40 65) 5 7); [lia|reflexivity|lia|by vm_compute].
  - destruct (long_names_stop_the_kernel 4 2 1 zeros zeros [65; 66; 0; 9] 5 7) as [_ H]; [lia|reflexivity|lia|].
    destruct (H [65; 66] [9] eq_refl) as (w & Hw & _ & _ & _ & Hc); [set_solver by lia|by vm_compute|].
    exists w. split; [exact Hw|exact Hc].
Defined.
